(* ===== verification/_CoqProject ===== *)
-Q . S2P
Prelude.v
Vli.v
Hweight.v
Bitmap.v
BitmapApi.v
BitmapRle.v
LruCache.v
CalmCache.v
State.v
StateChange.v
StateSanitize.v
Uuid.v
UuidExchange.v
Handshake.v
HandshakeAgree.v
HandshakeLife.v
ActLog.v
AlReplay.v
AlReplayOk.v
AlCrash.v
AlRun.v
AlApply.v
SyncBits.v
SyncBitsOk.v
SyncRange.v
RsExtent.v
RsExtentInv.v
RsRun.v
Epoch.v
EpochRun.v
EpochInv.v
EpochEvents.v
EpochGroups.v
EpochKeep.v
EpochSteps.v
EpochOrder.v
EpochDrop.v
Request.v
RequestInv.v
RequestEnd.v
RequestKeep.v
RequestSafe.v
RequestSubmit.v
RequestLife.v
RequestWalk.v
RequestRun.v
