(* ===== verification/Prelude.v ===== *)
(** * A verification of bsr

    bsr replicates block devices between nodes.  Its kernel part (src/bsr)
    takes bios from the file system, writes them to the local disk and to its
    peers, remembers in a bitmap per peer which blocks the peer misses, keeps
    the roles, connections and disk states of a resource consistent, and
    compares data generations when nodes meet again to decide who has to
    resynchronise whom.  This library models these parts as executable
    functions and proves what makes them correct.

    ** Files

    - Prelude.v (this file): machine integers as [Z] with explicit wrap-around,
      bit-level lemmas, byte lists, counting of set bits.
    - Vli.v: bsr_vli.h.  Variable length integers ([vli_decode_bits],
      [__vli_encode_bits]) and the bit stream ([bitstream_put_bits],
      [bitstream_get_bits]).
    - Hweight.v: hweight.c.  The bit-parallel Hamming weights.
    - Bitmap.v, BitmapApi.v: bsr_bitmap.c.  A bitmap is a list of pages of
      32-bit words, the words of all slots interleaved.  [____bm_op] is
      translated loop by loop (head, body, tail of every page); BitmapApi.v has
      its wrappers, resizing and the operations on large ranges.
    - BitmapRle.v: bsr_main.c and bsr_receiver.c.  The exchange of a whole bitmap as
      run-length packets or plain words, sender and receiver.
    - LruCache.v: lru_cache.c.  Elements, four lists, hash chains, pending
      changes; the cache behind the activity log.  CalmCache.v has what its
      operations come down to where changes are committed at once.
    - State.v, StateChange.v, StateSanitize.v: bsr_state.c.  The state engine:
      begin, sanitize, judge, finish and commit of a state change; StateChange.v
      proves what a committed change guarantees, StateSanitize.v what
      [sanitize_state] establishes.
    - Uuid.v, UuidExchange.v, Handshake.v, HandshakeAgree.v, HandshakeLife.v:
      bsr_main.c and bsr_receiver.c.  Uuid.v has the operations on the generation
      identifiers of the meta data; UuidExchange.v the packet that carries them;
      Handshake.v the comparison when two nodes meet; HandshakeAgree.v puts two
      nodes beside each other and proves that they agree; HandshakeLife.v
      composes writing alone with the comparison that follows.
    - ActLog.v: bsr_actlog.c, with the checks of bsr_main.c and bsr_nl.c on its
      settings.  References to extents, transactions, commit, initialisation,
      shrinking and resizing, on top of LruCache.v.
    - AlReplay.v: bsrmeta.c.  [replay_al_84] finds the active extents in the ring
      of transactions, [apply_al] marks them in the on-disk bitmap.
      AlReplayOk.v shows what a replay finds, AlCrash.v states the invariant that
      ties the ring to the cache, AlRun.v has the step relation of the threads
      with crashes, AlApply.v follows the extents into the bitmap.
    - SyncBits.v: bsr_actlog.c, with [SetOOSFromBitmap] of bsr_main.c.  Marking
      ranges of sectors in sync or out of sync: [__bsr_change_sync],
      [bsr_set_sync] and below them [update_sync_bits], which changes the bitmap
      and the counts of the cached resync extents.  SyncBitsOk.v shows what one
      range of bits does, SyncRange.v has the theorems on sectors.
    - RsExtent.v: bsr_actlog.c.  Locking the extents of a resync against
      writes: [bsr_try_rs_begin_io] and its relatives.  RsExtentInv.v states
      their invariant and shows it for each operation; RsRun.v runs them
      together with the activity log.
    - Epoch.v: bsr_receiver.c and bsr_sender.c.  The sender closes groups of
      writes with barriers; the receiver keeps an epoch per group and answers
      the barrier when it is finished ([bsr_may_finish_epoch],
      [receive_Barrier]).  A critical section of [epoch_lock] is one function.
      EpochRun.v has the step relation of the sender and of the two threads of the
      receiving node; EpochInv.v and EpochEvents.v the invariant of the epochs and
      the events on them; EpochGroups.v the groups; EpochKeep.v and
      EpochSteps.v show the invariant for every step; EpochOrder.v has the
      theorems on acks, EpochDrop.v a lost connection.
    - Request.v: bsr_req.c with its neighbours in bsr_main.c and bsr_sender.c.
      The life of a bio: submission, the state words of a request and its two
      reference counts, completion, retry, destruction, and the walks of the
      transfer log.  RequestInv.v states the invariant and shows it for
      [mod_rq_state]; RequestEnd.v for completion and destruction;
      RequestKeep.v that other requests are left alone; RequestSafe.v for all
      events; RequestSubmit.v and RequestLife.v for submission, retry and disk
      completion; RequestWalk.v for the walks; RequestRun.v puts them
      together as a step relation and states the theorems.

    ** Conventions

    A C integer of width w is a [Z]; operations that can overflow are wrapped
    with [u32], [u64] or [s32].  A pointer to a connection, peer device or
    request is its index in a list.  BUG, BUG_ON and failed assertions are [None] or an
    element of the log of effects, and theorems show that they are not
    reached.  Effects on other parts (packets, wake-ups, messages) are appended
    to a log.  Code outside src, and random numbers, allocations and the answers
    of the file system, are arguments: the [oracle] of Request.v, the arguments
    [rnd] and [env] of Uuid.v and Handshake.v, the checksum [crc32c] of ActLog.v
    and AlReplay.v (any function will do for what is shown, as a torn block is
    one whose checksum does not match).

    ** Fuel

    Loops that are not structural carry fuel: one more than the bits or words
    that are left for the loops of the bitmap and its exchange, one more than
    the resync extents of a range for the loop of [update_sync_bits], one more than
    the requests for the destruction chain and the walks, one more than the
    epochs for [bsr_may_finish_epoch].  Running out is
    [None] or a BUG in the log, and every theorem that says a function returns
    shows that the fuel is enough.

    ** What is shown

    - Codes and bit streams round trip for every input; the weights count bits.
    - Bitmap operations change exactly the bits they should and keep the cached
      weights exact; searches find the first bit; a whole exchange makes the
      receiver's slot the union of both, for every bitmap.
    - No sequence of calls makes the LRU cache reach a BUG or lose an element.
    - However many voluntary state changes run, two primaries do not meet
      where this is not allowed; promotion needs data and quorum; a refused
      change leaves no trace; the flags on disk give the disk state back.
    - Whenever a node crashes, also in the middle of writing a block of the log,
      the replay finds every active extent and the resync covers it.  This
      assumes that no I/O on the meta data failed and that the transaction
      number does not wrap unless the size of the ring divides 2^32.  The
      bitmap is marked when the log holds at least one committed extent, is no
      larger than the buffer of 32 MiB it is read into, and the positions of its
      extents fit 32 bits; beyond 2^32 bytes of bitmap nothing is marked.  The
      layout of the ring has no collisions where its size does not overflow.
    - A block becomes out of sync when one of its sectors is concerned and in
      sync only when all are; the counts kept for the resync extents follow.
    - With peers up to protocol 112 a resync and an application write never
      are in the same extent at the same time, in any interleaving; the calls of a
      resync return and no assertion in them fails.  The devices of these runs are
      smaller than 8 PiB, and [bsr_rs_begin_io], which waits, is defined but not a step of them
      (its half-locked extents are not remembered in resync_wenr).
    - Barrier acks come in order, with the number and size of their groups, and
      only when all writes of the group are complete and, with flushes as the
      method of write ordering, stable, unless an epoch could not be allocated
      (in that case an ack can come before the flush) or a flush that failed was
      taken for one that succeeded (Windows does not look at the error; a Linux
      thread that is killed misses it; [FL_ignored] of EpochRun.v).  As long as
      no write loses a conflict of two primaries, every barrier can be answered
      from every state, and a lost connection leaves no epoch behind; a write
      that loses one ([es_superseded]) keeps its epoch, and neither that barrier
      nor a later one is ever answered.  These runs are of one connection until
      it is lost; they do not use the barriers of the disk (WO_BIO_BARRIER), the
      method of write ordering changes only by a failed flush, a
      failed flush that is noticed finds disk-drain configured, and a run stops
      where memory for an epoch runs out while a superseded write keeps one.
    - In every state of the runs of RequestRun.v no assertion of the request
      machinery failed, the reference counts are exact, no bio was completed
      twice, nothing destroyed is reachable from a list; losing a connection
      settles all requests that waited for the peer.  The runs are restricted,
      by conditions no code enforces: while I/O is suspended, no acknowledgement
      of a write ([unfrozen]) and no report of the disk ([endio_clear]) reaches
      a request that is already completed, because mod_rq_state would take a
      reference on it again (bsr_req.c:1040, shown by [late_ack_reopens]);
      after an abort the late report of the disk is an error and finds no
      completed request of which a peer waits for an out-of-sync notice
      (bsr_sender.c:835, [endio_clear]); disk I/O is aborted only while I/O is
      not suspended; two primaries do not conflict (POSTPONE_WRITE, which would
      lead to bsr_req.c:2563); requests are resent one by one, as
      tl_mark_for_resend_by_connection does, and not by [_tl_restart] with
      RESEND, which does not skip what is done (bsr_state.c:3221).  The other conditions are facts of the callers
      ([possible], [endio_possible], [data_pending], [bio_ok]).
    - Two nodes that compare their generations come to opposite results, solve
      a split brain in favour of the same node and enter matching replication states;
      a node that wrote alone becomes the source of a bitmap based resync.  This
      is for protocol 110 or later and connections without a running resync
      ([sees]); for the whole handshake no I/O error of a primary is on record
      and the recovery does not call a helper ([tells]).

    ** Not modelled

    Page I/O of the bitmap and of the meta data, sockets, netlink, sysfs, debugfs
    and logging (I/O and formatting); the two-phase commit of cluster-wide state
    changes; the requests and the pacing of resync and online verify (timers and packets
    around the bitmap operations and resync extents that are modelled); the activity
    logs of older meta data formats; the Windows drivers and the administration and
    monitoring tools (glue to the operating system and user interface).
    In the request model the throttling of writes during resync, the skip list of
    online verify, waiting for conflicting writes and the switch to ahead mode are
    left out; the events POSTPONE_WRITE and RESTART_FROZEN_DISK_IO are defined but
    are not steps of the relation of RequestRun.v. *)

From Stdlib Require Export ZArith Lia.
From stdpp Require Export base tactics numbers option decidable list.
Export list_basics.list list_relations.list list_misc.list.

#[global] Open Scope Z_scope.

(** ** Machine integers

    A w-bit unsigned C integer is a [Z]; every operation of the source that
    can leave the range is wrapped explicitly with one of these. *)
Definition wrap (w x : Z) : Z := x mod 2 ^ w.

Definition u8 (x : Z) : Z := wrap 8 x.
Definition u16 (x : Z) : Z := wrap 16 x.
Definition u32 (x : Z) : Z := wrap 32 x.
Definition u64 (x : Z) : Z := wrap 64 x.

(** Conversion to a signed 32-bit [int]. *)
Definition s32 (x : Z) : Z := wrap 32 (x + 2 ^ 31) - 2 ^ 31.

Definition U32_MAX : Z := 2 ^ 32 - 1.
Definition U64_MAX : Z := 2 ^ 64 - 1.

(** [~x] on an unsigned integer of width [w]. *)
Definition lnot_w (w x : Z) : Z := Z.lxor x (Z.ones w).

(** C's [b ? 1 : 0] (and [!!b]). *)
Definition b2z (b : bool) : Z := if b then 1 else 0.

Definition in_u (w x : Z) : Prop := 0 <= x < 2 ^ w.

(** ** Error numbers of the kernel used by the modelled code *)
Definition EIO : Z := 5.
Definition ENOMEM : Z := 12.
Definition EINVAL : Z := 22.
Definition ENOSPC : Z := 28.
Definition EOVERFLOW : Z := 75.
Definition ENOBUFS : Z := 105.

(** ** Bit-level reasoning *)

Lemma testbit_mod_pow2 a w i :
  0 <= w -> Z.testbit (a mod 2 ^ w) i = (i <? w) && Z.testbit a i.
Proof.
  intros Hw. destruct (Z.ltb_spec i w).
  - by rewrite Z.mod_pow2_bits_low.
  - by rewrite Z.mod_pow2_bits_high by lia.
Qed.

Lemma testbit_wrap w a i :
  0 <= w -> Z.testbit (wrap w a) i = (i <? w) && Z.testbit a i.
Proof. apply testbit_mod_pow2. Qed.

Lemma testbit_u8 a i : Z.testbit (u8 a) i = (i <? 8) && Z.testbit a i.
Proof. by apply testbit_wrap. Qed.
Lemma testbit_u32 a i : Z.testbit (u32 a) i = (i <? 32) && Z.testbit a i.
Proof. by apply testbit_wrap. Qed.
Lemma testbit_u64 a i : Z.testbit (u64 a) i = (i <? 64) && Z.testbit a i.
Proof. by apply testbit_wrap. Qed.

Lemma testbit_ones w i :
  0 <= w -> Z.testbit (Z.ones w) i = (0 <=? i) && (i <? w).
Proof.
  intros Hw. destruct (Z.leb_spec 0 i); simpl.
  - by rewrite Z.testbit_ones_nonneg.
  - by rewrite Z.testbit_neg_r.
Qed.

Lemma testbit_shl a s i :
  Z.testbit (Z.shiftl a s) i = (0 <=? i) && Z.testbit a (i - s).
Proof.
  destruct (Z.leb_spec 0 i); simpl.
  - by rewrite Z.shiftl_spec.
  - by rewrite Z.testbit_neg_r.
Qed.

Lemma testbit_shr a s i :
  0 <= s -> Z.testbit (Z.shiftr a s) i = (0 <=? i) && Z.testbit a (i + s).
Proof.
  intros. destruct (Z.leb_spec 0 i); simpl.
  - by rewrite Z.shiftr_spec.
  - by rewrite Z.testbit_neg_r.
Qed.

Lemma testbit_lnot_w w a i :
  0 <= w -> in_u w a ->
  Z.testbit (lnot_w w a) i = (0 <=? i) && (i <? w) && negb (Z.testbit a i).
Proof.
  intros Hw Ha. unfold lnot_w. rewrite Z.lxor_spec, testbit_ones by done.
  destruct (Z.leb_spec 0 i); simpl.
  - destruct (Z.ltb_spec i w); simpl.
    + by destruct (Z.testbit a i).
    + rewrite <- (Z.mod_small a (2 ^ w)) by done.
      rewrite Z.mod_pow2_bits_high by lia. done.
  - by rewrite Z.testbit_neg_r.
Qed.

Lemma testbit_in_u w a i : 0 <= w -> in_u w a -> w <= i -> Z.testbit a i = false.
Proof.
  intros Hw Ha Hi. rewrite <- (Z.mod_small a (2 ^ w)) by done.
  by rewrite Z.mod_pow2_bits_high by lia.
Qed.

Lemma in_u_of_testbit w a :
  0 <= w -> 0 <= a -> (forall i, w <= i -> Z.testbit a i = false) -> in_u w a.
Proof.
  intros Hw Ha Hb. split; [done|].
  assert (a = a mod 2 ^ w) as ->.
  { apply Z.bits_inj'. intros i Hi. rewrite testbit_mod_pow2 by done.
    destruct (Z.ltb_spec i w); simpl; [done|]. by apply Hb. }
  apply Z.mod_pos_bound. by apply Z.pow_pos_nonneg.
Qed.

Lemma wrap_in_u w a : 0 <= w -> in_u w (wrap w a).
Proof. intros. apply Z.mod_pos_bound. by apply Z.pow_pos_nonneg. Qed.

Lemma wrap_id w a : in_u w a -> wrap w a = a.
Proof. apply Z.mod_small. Qed.

Lemma in_u_mono w w' a : w <= w' -> in_u w a -> in_u w' a.
Proof.
  intros Hw [H0 H1]. split; [done|]. eapply Z.lt_le_trans; [done|].
  apply Z.pow_le_mono_r; lia.
Qed.

Create Rewrite HintDb bits.
#[export] Hint Rewrite Z.lor_spec Z.land_spec Z.lxor_spec testbit_shl
  testbit_u8 testbit_u32 testbit_u64 Z.bits_0 : bits.
#[export] Hint Rewrite testbit_shr testbit_ones testbit_mod_pow2 testbit_wrap
  using lia : bits.
#[export] Hint Rewrite andb_true_r andb_false_r orb_true_r orb_false_r
  andb_true_l andb_false_l orb_true_l orb_false_l : bits.

(** Case split on every integer comparison in the goal, discarding the
    arithmetically impossible branches. *)
Ltac split_cmp :=
  repeat match goal with
  | |- context [Z.ltb ?a ?b] => destruct (Z.ltb_spec a b)
  | |- context [Z.leb ?a ?b] => destruct (Z.leb_spec a b)
  | |- context [Z.eqb ?a ?b] => destruct (Z.eqb_spec a b)
  end; try (exfalso; lia).

(** Decide comparisons of closed integers. *)
Ltac eval_cmp := vm_compute; repeat split; congruence.

(** Prove an equation between bit expressions bit by bit. *)
Ltac bit_ext i Hi := apply Z.bits_inj'; intros i Hi; autorewrite with bits.

Lemma land_land_ones a s t :
  0 <= s <= t -> Z.land (Z.land a (Z.ones t)) (Z.ones s) = Z.land a (Z.ones s).
Proof. intros. bit_ext i Hi. split_cmp; by rewrite ?andb_true_r, ?andb_false_r. Qed.

(** Adding above the bits of [lo] is a bitwise or. *)
Lemma add_shiftl_lor lo hi k :
  0 <= k -> in_u k lo -> lo + 2 ^ k * hi = Z.lor lo (Z.shiftl hi k).
Proof.
  intros Hk Hlo.
  assert (Z.land lo (Z.shiftl hi k) = 0) as Hl.
  { bit_ext i Hi. destruct (Z.ltb_spec i k).
    - rewrite (Z.testbit_neg_r hi) by lia. by rewrite !andb_false_r.
    - by rewrite (testbit_in_u k lo) by (done || lia). }
  rewrite <- Z.lxor_lor, <- Z.add_nocarry_lxor by done.
  rewrite Z.shiftl_mul_pow2 by done. lia.
Qed.

Lemma u64_id a : 0 <= a < 2 ^ 64 -> u64 a = a.
Proof. apply wrap_id. Qed.
Lemma u32_id a : 0 <= a < 2 ^ 32 -> u32 a = a.
Proof. apply wrap_id. Qed.
Lemma u8_id a : 0 <= a < 2 ^ 8 -> u8 a = a.
Proof. apply wrap_id. Qed.

(** ** Bytes and little-endian integers *)

(** The integer a little-endian CPU reads from the bytes [l]. *)
Fixpoint le_of_bytes (l : list Z) : Z :=
  match l with
  | [] => 0
  | b :: l => Z.lor b (Z.shiftl (le_of_bytes l) 8)
  end.

(** The byte at offset [i]; 0 outside of the buffer (a read outside of a
    buffer is undefined behaviour: the models that read check the range). *)
Definition byte_at (buf : list Z) (i : Z) : Z := nth (Z.to_nat i) buf 0.

(** The [k]-th bit of a byte buffer, least significant bit of byte 0 first. *)
Definition bit_of (buf : list Z) (k : Z) : bool :=
  Z.testbit (byte_at buf (k / 8)) (k mod 8).

Definition bytes_ok (l : list Z) : Prop := Forall (in_u 8) l.

Lemma le_of_bytes_nonneg l : bytes_ok l -> 0 <= le_of_bytes l.
Proof.
  induction 1 as [|b l Hb Hl IH]; simpl; [done|].
  apply Z.lor_nonneg. split; [by destruct Hb|]. by apply Z.shiftl_nonneg.
Qed.

Lemma le_of_bytes_testbit l k :
  bytes_ok l -> 0 <= k ->
  Z.testbit (le_of_bytes l) k = bit_of l k.
Proof.
  intros Hl. revert k. induction Hl as [|b l Hb Hl IH]; intros k Hk; simpl.
  - unfold bit_of, byte_at. rewrite Z.bits_0. destruct (Z.to_nat (k / 8)); simpl; by rewrite Z.bits_0.
  - autorewrite with bits. rewrite (proj2 (Z.leb_le 0 k)) by done. simpl.
    unfold bit_of, byte_at. destruct (Z.ltb_spec k 8).
    + rewrite (Z.testbit_neg_r _ (k - 8)) by lia.
      rewrite orb_false_r, (Z.div_small k 8), (Z.mod_small k 8) by lia. done.
    + rewrite (testbit_in_u 8 b k) by (done || lia). simpl.
      rewrite IH by lia. unfold bit_of, byte_at.
      replace k with (k - 8 + 1 * 8) at 3 4 by lia.
      rewrite Z.div_add, Z.mod_add by lia.
      assert (0 <= (k - 8) / 8) by (apply Z.div_pos; lia).
      rewrite Z2Nat.inj_add by lia. rewrite Nat.add_comm. done.
Qed.

Lemma byte_at_take_drop s n m i :
  0 <= n -> 0 <= m -> 0 <= i ->
  byte_at (take (Z.to_nat n) (drop (Z.to_nat m) s)) i =
  if i <? n then byte_at s (m + i) else 0.
Proof.
  intros Hn Hm Hi. unfold byte_at. rewrite !nth_lookup.
  destruct (Z.ltb_spec i n).
  - rewrite lookup_take_lt, lookup_drop by lia. do 2 f_equal. lia.
  - by rewrite lookup_take_ge by lia.
Qed.

Lemma bit_of_take_drop s n m k :
  0 <= n -> 0 <= m -> 0 <= k ->
  bit_of (take (Z.to_nat n) (drop (Z.to_nat m) s)) k = (k <? 8 * n) && bit_of s (8 * m + k).
Proof.
  intros Hn Hm Hk. unfold bit_of.
  pose proof (Z.div_mod k 8 ltac:(lia)). pose proof (Z.mod_pos_bound k 8 ltac:(lia)).
  assert (0 <= k / 8) by (apply Z.div_pos; lia).
  rewrite byte_at_take_drop by lia.
  replace (8 * m + k) with (k + m * 8) by lia. rewrite Z.div_add, Z.mod_add by lia.
  replace (k / 8 + m) with (m + k / 8) by lia.
  split_cmp; [done|]. simpl. by rewrite Z.bits_0.
Qed.

Lemma bytes_ok_take_drop s n m : bytes_ok s -> bytes_ok (take n (drop m s)).
Proof. intros. by apply Forall_take, Forall_drop. Qed.

Lemma s32_id a : - 2 ^ 31 <= a < 2 ^ 31 -> s32 a = a.
Proof. intros. unfold s32. rewrite wrap_id by (split; lia). lia. Qed.

(** ** Counting *)

(** The number of [i] in [a, a + n) with [f i]. *)
Fixpoint count_true (f : Z -> bool) (a : Z) (n : nat) : Z :=
  match n with
  | O => 0
  | S n => b2z (f a) + count_true f (a + 1) n
  end.

Lemma count_true_app f a n m :
  count_true f a (n + m) = count_true f a n + count_true f (a + Z.of_nat n) m.
Proof.
  revert a. induction n as [|n IH]; intros a; cbn [count_true Nat.add].
  - by rewrite Z.add_0_r.
  - rewrite IH, Nat2Z.inj_succ.
    replace (a + 1 + Z.of_nat n) with (a + Z.succ (Z.of_nat n)) by lia. lia.
Qed.

Lemma count_true_ext f g a n :
  (forall i, a <= i < a + Z.of_nat n -> f i = g i) -> count_true f a n = count_true g a n.
Proof.
  revert a. induction n as [|n IH]; intros a H; cbn [count_true]; [done|].
  rewrite H by lia. rewrite (IH (a + 1)); [done|]. intros. apply H. lia.
Qed.

Lemma count_true_shift f a d n :
  count_true (fun i => f (i + d)) a n = count_true f (a + d) n.
Proof.
  revert a. induction n as [|n IH]; intros a; cbn [count_true]; [done|].
  rewrite IH. by replace (a + 1 + d) with (a + d + 1) by lia.
Qed.

Lemma count_true_bounds f a n : 0 <= count_true f a n <= Z.of_nat n.
Proof.
  revert a. induction n as [|n IH]; intros a; cbn [count_true]; [lia|].
  specialize (IH (a + 1)). destruct (f a); simpl; lia.
Qed.

Lemma count_true_zero f a n :
  count_true f a n = 0 <-> forall i, a <= i < a + Z.of_nat n -> f i = false.
Proof.
  revert a. induction n as [|n IH]; intros a; cbn [count_true].
  - split; [lia|done].
  - pose proof (count_true_bounds f (a + 1) n). split.
    + intros H0 i Hi. destruct (f a) eqn:E; simpl in H0; [lia|].
      destruct (decide (i = a)) as [->|]; [done|]. apply (proj1 (IH (a + 1))); lia.
    + intros H0. rewrite H0 by lia. simpl. apply IH. intros i Hi. apply H0. lia.
Qed.

Lemma count_true_linear f g h c a n :
  (forall i, a <= i < a + Z.of_nat n -> b2z (f i) = b2z (g i) + c * b2z (h i)) ->
  count_true f a n = count_true g a n + c * count_true h a n.
Proof.
  revert a. induction n as [|n IH]; intros a H; cbn [count_true]; [lia|].
  rewrite H by lia. rewrite (IH (a + 1)) by (intros; apply H; lia). lia.
Qed.

(** Counting over a range of which only [a, a + n) differs. *)
Lemma count_true_change f g h c lo m a n :
  lo <= a -> a + Z.of_nat n <= lo + Z.of_nat m ->
  (forall i, lo <= i < a \/ a + Z.of_nat n <= i < lo + Z.of_nat m -> f i = g i) ->
  (forall i, a <= i < a + Z.of_nat n -> b2z (f i) = b2z (g i) + c * b2z (h i)) ->
  count_true f lo m = count_true g lo m + c * count_true h a n.
Proof.
  intros Hlo Hm Hout Hin.
  replace m with (Z.to_nat (a - lo) + (n + Z.to_nat (lo + Z.of_nat m - a - Z.of_nat n)))%nat by lia.
  rewrite !count_true_app. replace (lo + Z.of_nat (Z.to_nat (a - lo))) with a by lia.
  rewrite (count_true_ext f g lo) by (intros; apply Hout; lia).
  rewrite (count_true_linear f g h c a n) by done.
  rewrite (count_true_ext f g (a + Z.of_nat n)) by (intros; apply Hout; lia). lia.
Qed.
