(* ===== verification/Vli.v ===== *)
(** * Variable length integers and bit streams (src/bsr/bsr_vli.h)

    The run length encoding of the bitmap transfer writes every run length as
    a variable length integer into a bit stream.  [Vli] models the code table
    and the two code functions, [Bitstream] the stream with its cursor. *)

From S2P Require Import Prelude.

Module Vli.

(** A row [LEVEL(t, b, v)] of the table: total bits, prefix bits, prefix. *)
Inductive level := LEVEL (t b v : Z).

(** [VLI_L_1_1()]: fibonacci data bits, sorted by total bits. *)
Definition VLI_L_1_1 : list level :=
  [ LEVEL  2 1 0x00; LEVEL  3 2 0x01; LEVEL  5 3 0x03; LEVEL  7 4 0x07;
    LEVEL 10 5 0x0f; LEVEL 14 6 0x1f; LEVEL 21 8 0x3f; LEVEL 29 8 0x7f;
    LEVEL 42 8 0xbf; LEVEL 64 8 0xff ].

(** The expansion of the [LEVEL] macro of [vli_decode_bits] for the rows
    [ls]; [None] is the [BUG()] after the last row. *)
Fixpoint decode_levels (ls : list level) (adj inp : Z) : option (Z * Z) :=
  match ls with
  | [] => None
  | LEVEL t b v :: ls =>
      if Z.land inp (Z.shiftl 1 b - 1) =? v then
        Some (u64 (Z.shiftr (Z.land inp (Z.shiftr U64_MAX (64 - t))) b + adj), t)
      else decode_levels ls (u64 (adj + Z.shiftl 1 (t - b))) inp
  end.

(** [vli_decode_bits(out, in)]: the pair is [*out] and the returned number of
    bits consumed. *)
Definition vli_decode_bits (inp : Z) : option (Z * Z) :=
  decode_levels VLI_L_1_1 1 inp.

(** The expansion of the [LEVEL] macro of [__vli_encode_bits]. *)
Fixpoint encode_levels (ls : list level) (max adj inp : Z) : Z + Z * Z :=
  match ls with
  | [] => inl (- EOVERFLOW)
  | LEVEL t b v :: ls =>
      let max := u64 (max + Z.shiftl 1 (t - b)) in
      if inp <=? max then
        inr (Z.lor (u64 (Z.shiftl (u64 (inp - adj)) b)) v, t)
      else encode_levels ls max (u64 (max + 1)) inp
  end.

(** [__vli_encode_bits(out, in)]: a negative error number, or the code word
    [*out] with the number of its bits. *)
Definition __vli_encode_bits (inp : Z) : Z + Z * Z :=
  if inp =? 0 then inl (- EINVAL) else encode_levels VLI_L_1_1 0 1 inp.

(** The largest value the table can encode, as the source documents it. *)
Definition VLI_MAX : Z := 0x100000400202130.

(** *** Well-formed code tables *)

Definition level_ok (l : level) : bool :=
  let '(LEVEL t b v) := l in
  (1 <=? b) && (b <=? t) && (t <=? 64) && (0 <=? v) && (v <? 2 ^ b).

(** Row [l] is not the prefix of the later row [l']. *)
Definition prefix_free (l l' : level) : bool :=
  let '(LEVEL _ b v) := l in let '(LEVEL _ b' v') := l' in
  (b <=? b') && negb (Z.land v' (Z.ones b) =? v).

Fixpoint table_ok (ls : list level) : bool :=
  match ls with
  | [] => true
  | l :: ls => level_ok l && forallb (prefix_free l) ls && table_ok ls
  end.

(** The number of values the rows [ls] encode. *)
Fixpoint capacity (ls : list level) : Z :=
  match ls with
  | [] => 0
  | LEVEL t b _ :: ls => 2 ^ (t - b) + capacity ls
  end.

Lemma VLI_table_ok : table_ok VLI_L_1_1 = true.
Proof. reflexivity. Qed.

Lemma VLI_capacity : capacity VLI_L_1_1 = VLI_MAX.
Proof. reflexivity. Qed.

Lemma level_ok_spec t b v :
  level_ok (LEVEL t b v) = true <-> 1 <= b /\ b <= t /\ t <= 64 /\ 0 <= v < 2 ^ b.
Proof. simpl. rewrite !andb_true_iff, !Z.leb_le, Z.ltb_lt. tauto. Qed.

Lemma capacity_nonneg ls : table_ok ls = true -> 0 <= capacity ls.
Proof.
  induction ls as [|[t b v] ls IH]; simpl; [done|].
  rewrite !andb_true_iff. intros [[_ _] H]. specialize (IH H).
  assert (0 <= 2 ^ (t - b)) by (apply Z.pow_nonneg; lia). lia.
Qed.

Lemma shiftl_1_pred b : 0 <= b -> Z.shiftl 1 b - 1 = Z.ones b.
Proof. intros. by rewrite Z.shiftl_mul_pow2, Z.mul_1_l, Z.ones_equiv by done. Qed.

Lemma shiftr_U64_MAX t : 0 <= t <= 64 -> Z.shiftr U64_MAX (64 - t) = Z.ones t.
Proof.
  intros. change U64_MAX with (Z.ones 64).
  bit_ext i Hi. split_cmp; simpl; done.
Qed.

(** The code word of one row: data above the prefix. *)
Lemma code_word d t b v :
  1 <= b -> b <= t <= 64 -> 0 <= v < 2 ^ b -> 0 <= d < 2 ^ (t - b) ->
  let code := Z.lor (u64 (Z.shiftl d b)) v in
  in_u t code /\ Z.land code (Z.ones b) = v /\ Z.shiftr code b = d.
Proof.
  intros Hb Ht Hv Hd code.
  assert (forall i, b <= i -> Z.testbit v i = false) as Hvi
    by (intros; apply (testbit_in_u b); done || lia).
  assert (forall i, t - b <= i -> Z.testbit d i = false) as Hdi
    by (intros; apply (testbit_in_u (t - b)); done || lia).
  assert (u64 (Z.shiftl d b) = Z.shiftl d b) as Hu.
  { bit_ext i Hi. destruct (Z.ltb_spec i 64); simpl; [done|].
    rewrite Hdi by lia. by rewrite andb_false_r. }
  subst code. rewrite Hu. split_and!.
  - apply in_u_of_testbit; [lia| |].
    + apply Z.lor_nonneg. rewrite Z.shiftl_nonneg. lia.
    + intros i Hi. autorewrite with bits. rewrite Hvi, Hdi by lia.
      by rewrite andb_false_r.
  - bit_ext i Hi. split_cmp; simpl; rewrite ?(Z.testbit_neg_r d) by lia; simpl.
    + by rewrite andb_true_r.
    + by rewrite Hvi, andb_false_r by lia.
  - bit_ext i Hi. split_cmp; simpl. rewrite Hvi by lia.
    rewrite orb_false_r. f_equal. lia.
Qed.

(** One unfolding of [encode_levels] where nothing overflows. *)
Lemma encode_levels_cons t b v ls max inp :
  level_ok (LEVEL t b v) = true ->
  0 <= max -> max < inp -> max + 2 ^ (t - b) < 2 ^ 64 - 1 ->
  encode_levels (LEVEL t b v :: ls) max (max + 1) inp =
  if inp <=? max + 2 ^ (t - b)
  then inr (Z.lor (u64 (Z.shiftl (inp - (max + 1)) b)) v, t)
  else encode_levels ls (max + 2 ^ (t - b)) (max + 2 ^ (t - b) + 1) inp.
Proof.
  rewrite level_ok_spec. intros Hok Hm Hi Hc. cbn [encode_levels].
  assert (0 <= 2 ^ (t - b)) by (apply Z.pow_nonneg; lia).
  rewrite Z.shiftl_mul_pow2, Z.mul_1_l by lia.
  rewrite (u64_id (max + 2 ^ (t - b))) by lia.
  rewrite (u64_id (max + 2 ^ (t - b) + 1)) by lia.
  destruct (Z.leb_spec inp (max + 2 ^ (t - b))); [|done].
  by rewrite (u64_id (inp - _)) by lia.
Qed.

(** The code words of the rows [ls] do not start with the prefix of a row
    that is prefix-free for all of them. *)
Lemma encode_prefix_free t0 b v ls max inp code t w :
  level_ok (LEVEL t0 b v) = true -> forallb (prefix_free (LEVEL t0 b v)) ls = true ->
  table_ok ls = true -> 0 <= max -> max < inp -> max + capacity ls < 2 ^ 64 - 1 ->
  encode_levels ls max (max + 1) inp = inr (code, t) ->
  Z.land w (Z.ones t) = code ->
  Z.land w (Z.ones b) <> v.
Proof.
  intros Hl0. revert max. induction ls as [|[t' b' v'] ls IH]; intros max; [done|].
  cbn [forallb table_ok capacity]. rewrite !andb_true_iff.
  intros [Hp Hps] [[Hl _] Hok] Hm Hi Hc.
  pose proof (capacity_nonneg ls Hok).
  rewrite encode_levels_cons by (done || lia).
  rewrite level_ok_spec in Hl, Hl0.
  assert (0 <= 2 ^ (t' - b')) by (apply Z.pow_nonneg; lia).
  destruct (Z.leb_spec inp (max + 2 ^ (t' - b'))); [|eapply IH; done || lia].
  intros [= <- <-] Hw. simpl in Hp.
  rewrite andb_true_iff, Z.leb_le, negb_true_iff, Z.eqb_neq in Hp. destruct Hp as [Hbb Hne].
  destruct (code_word (inp - (max + 1)) t' b' v') as (_ & Hpre & _); [lia..|].
  rewrite <- Hw, land_land_ones in Hpre by lia.
  rewrite <- Hpre, land_land_ones in Hne by lia. done.
Qed.

(** A stream position whose next bits are the code word of [inp] decodes to
    [inp], whatever follows the code word. *)
Lemma levels_roundtrip ls max inp code t w :
  table_ok ls = true -> 0 <= max -> max < inp -> max + capacity ls < 2 ^ 64 - 1 ->
  encode_levels ls max (max + 1) inp = inr (code, t) ->
  Z.land w (Z.ones t) = code ->
  decode_levels ls (max + 1) w = Some (inp, t).
Proof.
  revert max. induction ls as [|[t0 b v] ls IH]; intros max; [done|].
  cbn [table_ok capacity]. rewrite !andb_true_iff. intros [[Hl Hp] Hok] Hm Hi Hc.
  pose proof (capacity_nonneg ls Hok).
  rewrite encode_levels_cons by (done || lia).
  pose proof Hl as Hl'. rewrite level_ok_spec in Hl'. destruct Hl' as (Hb & Ht & Ht' & Hv).
  cbn [decode_levels]. rewrite shiftl_1_pred, shiftr_U64_MAX by lia.
  assert (0 <= 2 ^ (t0 - b)) by (apply Z.pow_nonneg; lia).
  destruct (Z.leb_spec inp (max + 2 ^ (t0 - b))).
  - intros [= <- <-] Hw.
    destruct (code_word (inp - (max + 1)) t0 b v) as (_ & Hpre & Hdat); [lia..|].
    rewrite <- Hw in Hpre, Hdat.
    rewrite land_land_ones in Hpre by lia.
    rewrite Hpre, Z.eqb_refl, Hdat, u64_id by lia. do 2 f_equal; lia.
  - intros He Hw. rewrite Z.shiftl_mul_pow2, Z.mul_1_l, (u64_id (_ + 2 ^ _)) by lia.
    replace (max + 1 + 2 ^ (t0 - b)) with (max + 2 ^ (t0 - b) + 1) by lia.
    rewrite (IH (max + 2 ^ (t0 - b))) by (done || lia).
    destruct (Z.eqb_spec (Z.land w (Z.ones b)) v) as [E|]; [exfalso|done].
    revert E. eapply (encode_prefix_free t0 b v ls (max + 2 ^ (t0 - b))); done || lia.
Qed.

Lemma encode_levels_total ls max inp :
  table_ok ls = true -> 0 <= max -> max < inp <= max + capacity ls ->
  max + capacity ls < 2 ^ 64 - 1 ->
  exists code t, encode_levels ls max (max + 1) inp = inr (code, t) /\
    1 <= t <= 64 /\ in_u t code.
Proof.
  revert max. induction ls as [|[t b v] ls IH]; intros max; cbn [capacity]; [lia|].
  cbn [table_ok]. rewrite !andb_true_iff. intros [[Hl _] Hok] Hm Hi Hc.
  pose proof (capacity_nonneg ls Hok).
  rewrite encode_levels_cons by (done || lia).
  rewrite level_ok_spec in Hl.
  assert (0 <= 2 ^ (t - b)) by (apply Z.pow_nonneg; lia).
  destruct (Z.leb_spec inp (max + 2 ^ (t - b))); [|apply IH; done || lia].
  destruct (code_word (inp - (max + 1)) t b v) as (Hin & _ & _); [lia..|].
  do 2 eexists. split_and!; done || lia.
Qed.

Lemma encode_levels_overflow ls max inp :
  table_ok ls = true -> 0 <= max -> max + capacity ls < inp ->
  max + capacity ls < 2 ^ 64 - 1 ->
  encode_levels ls max (max + 1) inp = inl (- EOVERFLOW).
Proof.
  revert max. induction ls as [|[t b v] ls IH]; intros max; cbn [capacity]; [done|].
  cbn [table_ok]. rewrite !andb_true_iff. intros [[Hl _] Hok] Hm Hi Hc.
  pose proof (capacity_nonneg ls Hok).
  rewrite level_ok_spec in Hl.
  assert (0 <= 2 ^ (t - b)) by (apply Z.pow_nonneg; lia).
  rewrite encode_levels_cons by (rewrite ?level_ok_spec; lia).
  destruct (Z.leb_spec inp (max + 2 ^ (t - b))); [lia|]. apply IH; done || lia.
Qed.

(** What a row decodes to is a value the encoder gives the same code word. *)
Lemma levels_decode ls max w out t :
  table_ok ls = true -> 0 <= max -> max + capacity ls < 2 ^ 64 - 1 ->
  decode_levels ls (max + 1) w = Some (out, t) ->
  max < out <= max + capacity ls /\
  encode_levels ls max (max + 1) out = inr (Z.land w (Z.ones t), t).
Proof.
  revert max. induction ls as [|[t0 b v] ls IH]; intros max; [done|].
  cbn [table_ok capacity]. rewrite !andb_true_iff. intros [[Hl Hp] Hok] Hm Hc.
  pose proof (capacity_nonneg ls Hok).
  pose proof Hl as Hl'. rewrite level_ok_spec in Hl'. destruct Hl' as (Hb & Ht & Ht' & Hv).
  assert (0 <= 2 ^ (t0 - b)) by (apply Z.pow_nonneg; lia).
  cbn [decode_levels]. rewrite shiftl_1_pred, shiftr_U64_MAX by lia.
  destruct (Z.eqb_spec (Z.land w (Z.ones b)) v) as [E|E].
  - assert (0 <= Z.shiftr (Z.land w (Z.ones t0)) b < 2 ^ (t0 - b)) as Hd.
    { rewrite Z.land_ones, Z.shiftr_div_pow2 by lia.
      pose proof (Z.mod_pos_bound w (2 ^ t0) ltac:(apply Z.pow_pos_nonneg; lia)).
      split; [apply Z.div_pos; [lia|apply Z.pow_pos_nonneg; lia]|].
      apply Z.div_lt_upper_bound; [apply Z.pow_pos_nonneg; lia|].
      rewrite <- Z.pow_add_r by lia. replace (b + (t0 - b)) with t0 by lia. lia. }
    rewrite u64_id by lia. intros [= <- <-]. split; [lia|].
    rewrite encode_levels_cons by (done || lia).
    destruct (Z.leb_spec (Z.shiftr (Z.land w (Z.ones t0)) b + (max + 1)) (max + 2 ^ (t0 - b)));
      [|lia].
    rewrite Z.add_simpl_r. do 2 f_equal. rewrite <- E.
    bit_ext i Hi. split_cmp; by rewrite ?andb_true_r, ?andb_false_r, ?Z.sub_add, ?orb_false_r.
  - rewrite Z.shiftl_mul_pow2, Z.mul_1_l, (u64_id (_ + 2 ^ _)) by lia.
    replace (max + 1 + 2 ^ (t0 - b)) with (max + 2 ^ (t0 - b) + 1) by lia.
    intros Hd. apply IH in Hd as [Ho He]; [|done || lia..].
    split; [lia|]. rewrite encode_levels_cons by (done || lia).
    by destruct (Z.leb_spec out (max + 2 ^ (t0 - b))); [lia|].
Qed.

(** Every prefix of 8 bits selects a row. *)
Lemma decode_levels_low ls adj w :
  forallb (fun '(LEVEL _ b _) => (0 <=? b) && (b <=? 8)) ls = true ->
  is_Some (decode_levels ls adj w) <->
  existsb (fun '(LEVEL _ b v) => Z.land (w mod 256) (Z.ones b) =? v) ls = true.
Proof.
  change 256 with (2 ^ 8).
  revert adj. induction ls as [|[t b v] ls IH]; intros adj; cbn [forallb decode_levels existsb].
  { split; [intros [? ?]; done|done]. }
  rewrite !andb_true_iff, !Z.leb_le. intros [Hb Hls].
  rewrite shiftl_1_pred by lia.
  rewrite <- (Z.land_ones w 8), land_land_ones by lia.
  destruct (Z.eqb_spec (Z.land w (Z.ones b)) v); simpl; [split; eauto|].
  rewrite IH by done. by rewrite <- (Z.land_ones w 8 ltac:(lia)).
Qed.

Lemma vli_decode_total w : is_Some (vli_decode_bits w).
Proof.
  unfold vli_decode_bits. rewrite decode_levels_low by reflexivity.
  pose proof (Z.mod_pos_bound w 256 ltac:(lia)) as Hw.
  generalize dependent (w mod 256). clear w. intros w Hw.
  assert (forallb (fun w => existsb (fun '(LEVEL _ b v) => Z.land w (Z.ones b) =? v) VLI_L_1_1)
            (map Z.of_nat (seq 0 256)) = true) as Hall by (vm_compute; done).
  rewrite forallb_forall in Hall. apply Hall.
  apply in_map_iff. exists (Z.to_nat w). split; [lia|]. apply in_seq. lia.
Qed.

(** *** The code as a whole *)

Lemma vli_encode_ok inp :
  1 <= inp <= VLI_MAX ->
  exists code t, __vli_encode_bits inp = inr (code, t) /\ 1 <= t <= 64 /\ in_u t code.
Proof.
  intros Hi. unfold __vli_encode_bits. destruct (Z.eqb_spec inp 0); [lia|].
  apply (encode_levels_total VLI_L_1_1 0); rewrite ?VLI_capacity; try done; unfold VLI_MAX in *; lia.
Qed.

Lemma vli_decode_code inp code t w :
  1 <= inp -> __vli_encode_bits inp = inr (code, t) -> Z.land w (Z.ones t) = code ->
  vli_decode_bits w = Some (inp, t).
Proof.
  intros Hi He Hw. unfold __vli_encode_bits in He. destruct (Z.eqb_spec inp 0); [lia|].
  apply (levels_roundtrip VLI_L_1_1 0 inp code t w); try done; lia.
Qed.

(** Every value from 1 to the table's maximum has a code word of at most 64 bits,
    and decoding any bit string that starts with the code word gives the value and the
    length of the code word. *)
Theorem vli_encode_decode inp :
  1 <= inp <= VLI_MAX ->
  exists code t, __vli_encode_bits inp = inr (code, t) /\ 1 <= t <= 64 /\ in_u t code /\
    forall w, Z.land w (Z.ones t) = code -> vli_decode_bits w = Some (inp, t).
Proof.
  intros Hi. destruct (vli_encode_ok inp Hi) as (code & t & He & Ht & Hc).
  exists code, t. do 3 (split; [done|]). intros w Hw. apply (vli_decode_code inp code); [lia|done..].
Qed.

Lemma vli_encode_decode_witness :
  exists code t, __vli_encode_bits 100 = inr (code, t) /\ vli_decode_bits (code + 2 ^ 40) = Some (100, t).
Proof.
  destruct (vli_encode_decode 100) as (code & t & He & _ & _ & Hd); [eval_cmp|].
  exists code, t. split; [exact He|]. apply Hd. vm_compute in He. injection He as <- <-. vm_compute. reflexivity.
Defined.

(** vli_decode_bits never reaches BUG(): every 64-bit input starts with a code
    word, and encoding the decoded value gives that code word back. *)
Theorem vli_decode_encode w :
  exists out t, vli_decode_bits w = Some (out, t) /\ 1 <= out <= VLI_MAX /\
    __vli_encode_bits out = inr (Z.land w (Z.ones t), t).
Proof.
  destruct (vli_decode_total w) as [[out t] Hd]. exists out, t.
  split; [done|]. apply (levels_decode VLI_L_1_1 0) in Hd as [Ho He];
    [|done || (rewrite ?VLI_capacity; unfold VLI_MAX; lia)..].
  rewrite VLI_capacity in Ho. split; [lia|].
  unfold __vli_encode_bits. destruct (Z.eqb_spec out 0); [lia|done].
Qed.

(** __vli_encode_bits fails with -EINVAL exactly for 0 and with -EOVERFLOW exactly
    for values above the table's maximum. *)
Theorem vli_encode_errors inp :
  0 <= inp < 2 ^ 64 ->
  (__vli_encode_bits inp = inl (- EINVAL) <-> inp = 0) /\
  (__vli_encode_bits inp = inl (- EOVERFLOW) <-> VLI_MAX < inp).
Proof.
  intros Hi. unfold __vli_encode_bits. destruct (Z.eqb_spec inp 0) as [->|Hn].
  - split; split; done || (unfold VLI_MAX; lia).
  - destruct (Z.leb_spec inp VLI_MAX).
    + destruct (vli_encode_ok inp ltac:(lia)) as (code & t & He & _).
      unfold __vli_encode_bits in He. destruct (Z.eqb_spec inp 0); [lia|].
      rewrite He. split; split; done || lia.
    + rewrite (encode_levels_overflow VLI_L_1_1 0) by
        (done || rewrite ?VLI_capacity; unfold VLI_MAX in *; lia).
      split; split; done || lia.
Qed.

Lemma vli_encode_errors_witness :
  __vli_encode_bits (VLI_MAX + 1) = inl (- EOVERFLOW) /\ __vli_encode_bits 0 = inl (- EINVAL).
Proof.
  split.
  - apply (vli_encode_errors (VLI_MAX + 1)); eval_cmp.
  - apply (vli_encode_errors 0); [lia|reflexivity].
Defined.

End Vli.

Module Bitstream.
Import Vli.

(** [struct bitstream_cursor]; the pointer [b] to the current byte is its
    offset from the start of the stream's buffer. *)
Record bitstream_cursor := mk_cursor { b : Z; bit : Z }.

Definition bitstream_cursor_reset : bitstream_cursor := mk_cursor 0 0.

Definition bitstream_cursor_advance (cur : bitstream_cursor) (bits : Z) : bitstream_cursor :=
  let bits := u32 (bits + bit cur) in
  mk_cursor (b cur + Z.shiftr bits 3) (Z.land bits 7).

(** [struct bitstream]; [buf] holds the bytes of the memory behind the
    pointer of that name. *)
Record bitstream := mk_bitstream {
  cur : bitstream_cursor; buf : list Z; buf_len : Z; pad_bits : Z }.

Definition bitstream_init (s : list Z) (len pad_bits : Z) : bitstream :=
  mk_bitstream bitstream_cursor_reset s len pad_bits.

Definition bitstream_rewind (bs : bitstream) : bitstream :=
  mk_bitstream bitstream_cursor_reset
    (replicate (Z.to_nat (buf_len bs)) 0 ++ drop (Z.to_nat (buf_len bs)) (buf bs))
    (buf_len bs) (pad_bits bs).

(** [*(s + i) |= x] on unsigned chars. *)
Definition or_byte (s : list Z) (i x : Z) : list Z :=
  alter (fun y => u8 (Z.lor y x)) (Z.to_nat i) s.

(** The [for] loop of [bitstream_put_bits]; [tmp] grows by 8 from a positive
    start, so [bits] iterations are enough. *)
Fixpoint put_rest (fuel : nat) (s : list Z) (i val tmp bits : Z) : list Z :=
  match fuel with
  | O => s
  | S fuel =>
      if tmp <? bits then
        put_rest fuel (or_byte s i (Z.land (Z.shiftr val tmp) 0xff)) (i + 1) val (tmp + 8) bits
      else s
  end.

Definition bitstream_put_bits (bs : bitstream) (val bits : Z) : Z * bitstream :=
  let c := cur bs in
  if bits =? 0 then (0, bs)
  else if buf_len bs <=? b c + Z.shiftr (u32 (bit c + bits - 1)) 3 then (- ENOBUFS, bs)
  else
    let val := if bits <? 64 then Z.land val (Z.shiftr U64_MAX (64 - bits)) else val in
    let s := or_byte (buf bs) (b c) (Z.shiftl (Z.land val 0xff) (bit c)) in
    let s := put_rest (Z.to_nat bits) s (b c + 1) val (u32 (8 - bit c)) bits in
    (bits, mk_bitstream (bitstream_cursor_advance c bits) s (buf_len bs) (pad_bits bs)).

(** [bitstream_get_bits]: the returned number, the value stored in [*out]
    ([None]: left unchanged) and the stream.  The whole result is [None] where
    the C code would read outside of the buffer, copy more than the 8 bytes of
    [val], or shift a 64-bit value by more than its width. *)
Definition bitstream_get_bits (bs : bitstream) (bits : Z) : option (Z * option Z * bitstream) :=
  let c := cur bs in
  if 64 <? bits then Some (- EINVAL, None, bs)
  else
    let bits :=
      if buf_len bs <=? b c + Z.shiftr (u32 (bit c + pad_bits bs + bits - 1)) 3
      then s32 (s32 (u64 (Z.shiftl (buf_len bs - b c) 3)) - bit c - pad_bits bs)
      else bits in
    if bits =? 0 then Some (0, Some 0, bs)
    else
      let n := Z.shiftr (u32 (bit c + bits + 7)) 3 in
      if (bits <? 0) || (64 <? bits) || (9 <? n) || (Z.of_nat (length (buf bs)) <? b c + n)
      then None
      else
        let val :=
          if n =? 0 then 0
          else u64 (Z.shiftl (le_of_bytes (take (Z.to_nat (n - 1)) (drop (Z.to_nat (b c + 1)) (buf bs))))
                      (8 - bit c)) in
        let val := Z.lor val (Z.shiftr (byte_at (buf bs) (b c)) (bit c)) in
        let val := Z.land val (Z.shiftr U64_MAX (64 - bits)) in
        Some (bits, Some val,
              mk_bitstream (bitstream_cursor_advance c bits) (buf bs) (buf_len bs) (pad_bits bs)).

(** [vli_encode_bits(bs, in)]. *)
Definition vli_encode_bits (bs : bitstream) (inp : Z) : Z * bitstream :=
  match __vli_encode_bits inp with
  | inl err => (err, bs)
  | inr (code, bits) => if bits <=? 0 then (bits, bs) else bitstream_put_bits bs code bits
  end.

(** *** The stream as a sequence of bits *)

(** The position of the cursor, in bits. *)
Definition pos (bs : bitstream) : Z := 8 * b (cur bs) + bit (cur bs).

(** The number of valid bits after the cursor. *)
Definition avail (bs : bitstream) : Z := 8 * buf_len bs - pad_bits bs - pos bs.

Record wf (bs : bitstream) : Prop := mk_wf {
  wf_bytes : bytes_ok (buf bs);
  wf_len : Z.of_nat (length (buf bs)) = buf_len bs;
  wf_small : 8 * buf_len bs < 2 ^ 31;
  wf_b : 0 <= b (cur bs);
  wf_bit : 0 <= bit (cur bs) < 8;
  wf_pad : 0 <= pad_bits bs < 8;
  wf_avail : 0 <= avail bs }.

Lemma byte_at_in_u s i : bytes_ok s -> in_u 8 (byte_at s i).
Proof.
  intros Hs. unfold byte_at. rewrite nth_lookup.
  destruct (s !! Z.to_nat i) as [y|] eqn:E; simpl.
  - by eapply Forall_lookup_1 in Hs.
  - split; lia.
Qed.

Lemma length_or_byte s i x : length (or_byte s i x) = length s.
Proof. apply length_alter. Qed.

Lemma bytes_ok_or_byte s i x : bytes_ok s -> bytes_ok (or_byte s i x).
Proof.
  intros Hs. apply Forall_alter; [done|]. intros. apply (wrap_in_u 8). lia.
Qed.

Lemma byte_at_or_byte s i x j :
  0 <= i < Z.of_nat (length s) -> 0 <= j ->
  byte_at (or_byte s i x) j =
  if j =? i then u8 (Z.lor (byte_at s i) x) else byte_at s j.
Proof.
  intros Hi Hj. unfold byte_at, or_byte. rewrite !nth_lookup.
  destruct (Z.eqb_spec j i) as [->|Hne].
  - rewrite list_lookup_alter_eq.
    by destruct (lookup_lt_is_Some_2 s (Z.to_nat i)) as [y ->]; [lia|].
  - by rewrite list_lookup_alter_ne by lia.
Qed.

Lemma bit_of_or_byte s i x k :
  bytes_ok s -> 0 <= i < Z.of_nat (length s) -> 0 <= k ->
  bit_of (or_byte s i x) k = bit_of s k || ((k / 8 =? i) && Z.testbit x (k mod 8)).
Proof.
  intros Hs Hi Hk. unfold bit_of. rewrite byte_at_or_byte by (try apply Z.div_pos; lia).
  destruct (Z.eqb_spec (k / 8) i) as [<-|]; [|by rewrite orb_false_r].
  pose proof (Z.mod_pos_bound k 8 ltac:(lia)).
  autorewrite with bits. by split_cmp.
Qed.

Lemma put_rest_inv fuel s i val tmp bits :
  bytes_ok s ->
  length (put_rest fuel s i val tmp bits) = length s /\
  bytes_ok (put_rest fuel s i val tmp bits).
Proof.
  revert s i tmp. induction fuel as [|fuel IH]; intros s i tmp Hs; simpl; [done|].
  destruct (tmp <? bits); [|done].
  destruct (IH (or_byte s i (Z.land (Z.shiftr val tmp) 255)) (i + 1) (tmp + 8)) as [Hl Hb].
  { by apply bytes_ok_or_byte. }
  by rewrite Hl, length_or_byte.
Qed.

(** The loop writes the bits [tmp], [tmp + 1], ... of [val] from byte [i] on. *)
Lemma bit_of_put_rest fuel s i val tmp bits k :
  bytes_ok s -> 0 <= i -> 0 <= tmp -> 0 <= k -> 0 <= bits -> in_u bits val ->
  bits <= tmp + 8 * Z.of_nat fuel -> 8 * i + (bits - tmp) <= 8 * Z.of_nat (length s) ->
  bit_of (put_rest fuel s i val tmp bits) k =
  bit_of s k || ((8 * i <=? k) && Z.testbit val (k - 8 * i + tmp)).
Proof.
  intros Hs Hi Ht Hk Hbits Hval. revert s i tmp Hs Hi Ht.
  induction fuel as [|fuel IH]; intros s i tmp Hs Hi Ht Hf Hr; cbn [put_rest].
  - destruct (Z.leb_spec (8 * i) k); simpl; [|by rewrite orb_false_r].
    rewrite (testbit_in_u bits) by (done || lia). by rewrite orb_false_r.
  - destruct (Z.ltb_spec tmp bits).
    + rewrite IH; [|by apply bytes_ok_or_byte|rewrite ?length_or_byte; lia..].
      rewrite bit_of_or_byte by (done || lia). rewrite <- orb_assoc. f_equal.
      pose proof (Z.div_mod k 8 ltac:(lia)). pose proof (Z.mod_pos_bound k 8 ltac:(lia)).
      autorewrite with bits. change 0xff with (Z.ones 8). rewrite testbit_ones by lia.
      split_cmp; simpl; rewrite ?andb_true_r, ?orb_false_r; try done; f_equal; lia.
    + destruct (Z.leb_spec (8 * i) k); simpl; [|by rewrite orb_false_r].
      rewrite (testbit_in_u bits) by (done || lia). by rewrite orb_false_r.
Qed.

(** Moving the cursor is addition on positions. *)
Lemma advance_spec c n :
  0 <= bit c < 8 -> 0 <= n < 2 ^ 31 ->
  let c' := bitstream_cursor_advance c n in
  8 * b c' + bit c' = 8 * b c + bit c + n /\ 0 <= bit c' < 8 /\ b c <= b c'.
Proof.
  intros Hb Hn. unfold bitstream_cursor_advance; simpl. rewrite u32_id by lia.
  rewrite Z.shiftr_div_pow2 by lia. change 7 with (Z.ones 3). rewrite Z.land_ones by lia.
  change (2 ^ 3) with 8.
  pose proof (Z.div_mod (n + bit c) 8 ltac:(lia)).
  pose proof (Z.mod_pos_bound (n + bit c) 8 ltac:(lia)).
  pose proof (Z.div_pos (n + bit c) 8 ltac:(lia) ltac:(lia)). lia.
Qed.

(** The bounds check of [bitstream_put_bits] is exact. *)
Lemma put_bits_room bs bits :
  wf bs -> 1 <= bits <= 64 ->
  (buf_len bs <=? b (cur bs) + Z.shiftr (u32 (bit (cur bs) + bits - 1)) 3)
  = (8 * buf_len bs - pos bs <? bits).
Proof.
  intros [Hby Hl Hs Hb Hbit Hpad Hav] Hbits. unfold avail, pos in *.
  rewrite u32_id by lia. rewrite Z.shiftr_div_pow2 by lia. change (2 ^ 3) with 8.
  pose proof (Z.div_mod (bit (cur bs) + bits - 1) 8 ltac:(lia)).
  pose proof (Z.mod_pos_bound (bit (cur bs) + bits - 1) 8 ltac:(lia)).
  split_cmp; done.
Qed.

Lemma put_bits_enobufs bs val bits :
  wf bs -> 1 <= bits <= 64 -> 8 * buf_len bs - pos bs < bits ->
  bitstream_put_bits bs val bits = (- ENOBUFS, bs).
Proof.
  intros Hwf Hb Hr. unfold bitstream_put_bits.
  rewrite put_bits_room by done. by split_cmp.
Qed.

Lemma put_bits_ok bs val bits :
  wf bs -> pad_bits bs = 0 -> 1 <= bits <= 64 -> bits <= 8 * buf_len bs - pos bs ->
  in_u 64 val ->
  exists bs', bitstream_put_bits bs val bits = (bits, bs') /\ wf bs' /\ pad_bits bs' = 0 /\
    buf_len bs' = buf_len bs /\ pos bs' = pos bs + bits /\
    forall k, 0 <= k -> bit_of (buf bs') k =
      bit_of (buf bs) k || ((pos bs <=? k) && (k <? pos bs + bits) && Z.testbit val (k - pos bs)).
Proof.
  intros Hwf Hp Hb Hr Hval. unfold bitstream_put_bits. rewrite put_bits_room by done.
  destruct (Z.eqb_spec bits 0); [lia|]. destruct (Z.ltb_spec (8 * buf_len bs - pos bs) bits); [lia|].
  set (v := if bits <? 64 then _ else val).
  assert (in_u bits v /\ forall j, Z.testbit v j = (j <? bits) && Z.testbit val j) as [Hv Hvj].
  { assert (v = val mod 2 ^ bits) as ->.
    { subst v. destruct (Z.ltb_spec bits 64).
      - rewrite shiftr_U64_MAX by lia. by rewrite Z.land_ones by lia.
      - replace bits with 64 by lia. by rewrite Z.mod_small by done. }
    split; [apply wrap_in_u; lia|]. intros. by rewrite testbit_mod_pow2 by lia. }
  clearbody v. pose proof Hwf as [Hby Hl Hs Hbb Hbit Hpad Hav].
  destruct (advance_spec (cur bs) bits Hbit ltac:(lia)) as (Hpos & Hbit' & Hb').
  set (c' := bitstream_cursor_advance (cur bs) bits) in *. clearbody c'.
  set (s1 := or_byte _ _ _). rewrite u32_id by lia.
  assert (bytes_ok s1) as Hs1 by by apply bytes_ok_or_byte.
  assert (length s1 = length (buf bs)) as Hl1 by apply length_or_byte.
  destruct (put_rest_inv (Z.to_nat bits) s1 (b (cur bs) + 1) v (8 - bit (cur bs)) bits Hs1)
    as [Hl2 Hby2].
  eexists. split; [done|]. unfold avail, pos in *. simpl.
  split; [split; unfold avail, pos; simpl; first [done | lia | congruence]|].
  do 2 (split; [done|]). split; [lia|].
  intros k Hk. rewrite bit_of_put_rest by (done || lia).
  subst s1. rewrite bit_of_or_byte by (done || lia). rewrite <- orb_assoc. f_equal.
  pose proof (Z.div_mod k 8 ltac:(lia)). pose proof (Z.mod_pos_bound k 8 ltac:(lia)).
  autorewrite with bits. change 0xff with (Z.ones 8). rewrite testbit_ones by lia.
  rewrite !Hvj.
  replace (k - 8 * (b (cur bs) + 1) + (8 - bit (cur bs)))
    with (k - (8 * b (cur bs) + bit (cur bs))) by lia.
  destruct (Z.eqb_spec (k / 8) (b (cur bs))).
  - replace (k mod 8 - bit (cur bs)) with (k - (8 * b (cur bs) + bit (cur bs))) by lia.
    split_cmp; simpl; rewrite ?andb_true_r, ?andb_false_r, ?orb_false_r; done.
  - split_cmp; simpl; done.
Qed.

Lemma get_bits_room bs bits :
  wf bs -> 1 <= bits <= 64 ->
  (if buf_len bs <=? b (cur bs) + Z.shiftr (u32 (bit (cur bs) + pad_bits bs + bits - 1)) 3
   then s32 (s32 (u64 (Z.shiftl (buf_len bs - b (cur bs)) 3)) - bit (cur bs) - pad_bits bs)
   else bits) = Z.min bits (avail bs).
Proof.
  intros [Hby Hl Hs Hb Hbit Hpad Hav] Hbits. unfold avail, pos in *.
  rewrite u32_id by lia. rewrite Z.shiftr_div_pow2, Z.shiftl_mul_pow2 by lia.
  change (2 ^ 3) with 8.
  rewrite u64_id, (s32_id (_ * 8)), s32_id by lia.
  pose proof (Z.div_mod (bit (cur bs) + pad_bits bs + bits - 1) 8 ltac:(lia)).
  pose proof (Z.mod_pos_bound (bit (cur bs) + pad_bits bs + bits - 1) 8 ltac:(lia)).
  split_cmp; lia.
Qed.

(** The value [bitstream_get_bits] assembles from the current byte and the
    [n - 1] following ones. *)
Lemma get_bits_value s b0 bit0 n r j :
  bytes_ok s -> 0 <= b0 -> 0 <= bit0 < 8 -> 0 <= r <= 64 -> 1 <= n -> bit0 + r <= 8 * n -> 0 <= j ->
  Z.testbit
    (Z.land (Z.lor
       (u64 (Z.shiftl (le_of_bytes (take (Z.to_nat (n - 1)) (drop (Z.to_nat (b0 + 1)) s))) (8 - bit0)))
       (Z.shiftr (byte_at s b0) bit0)) (Z.ones r)) j
  = (j <? r) && bit_of s (8 * b0 + bit0 + j).
Proof.
  intros Hs Hb Hbit Hr Hn Hnr Hj. autorewrite with bits.
  destruct (Z.ltb_spec j r); [|by rewrite ?andb_false_r].
  destruct (Z.leb_spec 0 j); [|lia]. destruct (Z.ltb_spec j 64); [|lia]. simpl.
  rewrite andb_true_r. destruct (Z.ltb_spec (j + bit0) 8).
  - rewrite (Z.testbit_neg_r _ (j - (8 - bit0))) by lia. simpl. unfold bit_of.
    replace (8 * b0 + bit0 + j) with ((j + bit0) + b0 * 8) by lia.
    rewrite Z.div_add, Z.mod_add, Z.div_small, Z.mod_small by lia. done.
  - rewrite (testbit_in_u 8 (byte_at s b0)) by first [by apply byte_at_in_u | lia].
    rewrite orb_false_r, le_of_bytes_testbit by first [by apply bytes_ok_take_drop | lia].
    rewrite bit_of_take_drop by lia.
    destruct (Z.ltb_spec (j - (8 - bit0)) (8 * (n - 1))); [|lia]. simpl. f_equal. lia.
Qed.

Lemma get_bits_ok bs bits :
  wf bs -> 1 <= bits <= 64 ->
  let r := Z.min bits (avail bs) in
  exists val bs', bitstream_get_bits bs bits = Some (r, Some val, bs') /\ wf bs' /\
    buf bs' = buf bs /\ buf_len bs' = buf_len bs /\ pad_bits bs' = pad_bits bs /\
    pos bs' = pos bs + r /\
    forall j, 0 <= j -> Z.testbit val j = (j <? r) && bit_of (buf bs) (pos bs + j).
Proof.
  intros Hwf Hb r. unfold bitstream_get_bits. destruct (Z.ltb_spec 64 bits); [lia|].
  rewrite get_bits_room by done. fold r.
  pose proof Hwf as [Hby Hl Hs Hbb Hbit Hpad Hav].
  destruct (Z.eqb_spec r 0) as [Hr|Hr].
  { exists 0, bs. do 5 (split; [congruence|]). split; [lia|].
    intros j Hj. rewrite Z.bits_0. by destruct (Z.ltb_spec j r); [lia|]. }
  assert (1 <= r <= 64 /\ r <= avail bs) as [Hr1 Hra] by lia. clearbody r.
  unfold avail, pos in *. rewrite u32_id by lia. rewrite Z.shiftr_div_pow2 by lia.
  set (n := (bit (cur bs) + r + 7) / 2 ^ 3).
  assert (bit (cur bs) + r <= 8 * n < bit (cur bs) + r + 8 /\ 1 <= n) as [Hn Hn1].
  { pose proof (Z.div_mod (bit (cur bs) + r + 7) (2 ^ 3) ltac:(lia)).
    pose proof (Z.mod_pos_bound (bit (cur bs) + r + 7) (2 ^ 3) ltac:(lia)). lia. }
  clearbody n.
  destruct (Z.ltb_spec r 0); [lia|]. destruct (Z.ltb_spec 64 r); [lia|].
  destruct (Z.ltb_spec 9 n); [lia|].
  destruct (Z.ltb_spec (Z.of_nat (length (buf bs))) (b (cur bs) + n)); [lia|]. simpl.
  destruct (Z.eqb_spec n 0); [lia|]. rewrite shiftr_U64_MAX by lia.
  destruct (advance_spec (cur bs) r Hbit ltac:(lia)) as (Hpos & Hbit' & Hb').
  set (c' := bitstream_cursor_advance (cur bs) r) in *. clearbody c'.
  do 2 eexists. split; [done|]. simpl.
  split; [split; unfold avail, pos; simpl; first [done | lia]|].
  do 3 (split; [done|]). split; [lia|]. intros j Hj. apply get_bits_value; done || lia.
Qed.

(** *** Writing a sequence of values and reading it back *)

(** The client's loop around [bitstream_put_bits]: stop at the first error. *)
Fixpoint put_list (bs : bitstream) (items : list (Z * Z)) : option bitstream :=
  match items with
  | [] => Some bs
  | (val, bits) :: items =>
      let (ret, bs) := bitstream_put_bits bs val bits in
      if ret <? 0 then None else put_list bs items
  end.

(** The client's loop around [bitstream_get_bits]. *)
Fixpoint get_list (bs : bitstream) (widths : list Z) : option (list (Z * Z)) :=
  match widths with
  | [] => Some []
  | bits :: widths =>
      '(ret, out, bs) ← bitstream_get_bits bs bits;
      val ← out;
      rest ← get_list bs widths;
      Some ((val, ret) :: rest)
  end.

Definition item_ok (it : Z * Z) : Prop := 1 <= it.2 <= 64 /\ in_u it.2 it.1.

Fixpoint total_bits (items : list (Z * Z)) : Z :=
  match items with [] => 0 | it :: items => it.2 + total_bits items end.

(** The bits of the buffer [s] from position [p] on are those of [items]. *)
Fixpoint holds (s : list Z) (p : Z) (items : list (Z * Z)) : Prop :=
  match items with
  | [] => True
  | (val, bits) :: items =>
      (forall j, 0 <= j < bits -> bit_of s (p + j) = Z.testbit val j) /\ holds s (p + bits) items
  end.

Lemma total_bits_nonneg items : Forall item_ok items -> 0 <= total_bits items.
Proof. induction 1 as [|it items [Hi _] _ IH]; simpl; lia. Qed.

Lemma put_list_ok items bs :
  wf bs -> pad_bits bs = 0 -> Forall item_ok items -> pos bs + total_bits items <= 8 * buf_len bs ->
  (forall k, pos bs <= k -> bit_of (buf bs) k = false) ->
  exists bs', put_list bs items = Some bs' /\ wf bs' /\ buf_len bs' = buf_len bs /\
    pos bs' = pos bs + total_bits items /\ holds (buf bs') (pos bs) items /\
    (forall k, 0 <= k < pos bs -> bit_of (buf bs') k = bit_of (buf bs) k).
Proof.
  intros Hwf Hp Hit. revert bs Hwf Hp.
  induction Hit as [|[val bits] items [Hb Hv] Hit IH]; intros bs Hwf Hp Hr Hz;
    cbn [put_list holds total_bits fst snd] in *.
  { exists bs. split_and!; done || lia. }
  pose proof (total_bits_nonneg items Hit).
  assert (0 <= pos bs) by (destruct Hwf; unfold pos; lia).
  destruct (put_bits_ok bs val bits) as (bs1 & E & Hwf1 & Hp1 & Hl1 & Hpos1 & Hbits1);
    [done|done|done|lia|by apply (in_u_mono bits); [lia|]|].
  rewrite E. destruct (Z.ltb_spec bits 0); [lia|].
  destruct (IH bs1) as (bs' & Hput & Hwf' & Hl' & Hpos' & Hhold & Hlow);
    [done|done|lia| |].
  { intros k Hk. rewrite Hbits1, Hz by lia. split_cmp; done. }
  exists bs'. split_and!; [done|done|lia|lia| |by rewrite Hpos1 in Hhold|].
  - intros j Hj. rewrite Hlow, Hbits1, Hz by lia. split_cmp. simpl. f_equal. lia.
  - intros k Hk. rewrite Hlow, Hbits1 by lia. split_cmp. by rewrite orb_false_r.
Qed.

Lemma get_list_ok items bs :
  wf bs -> Forall item_ok items -> total_bits items <= avail bs ->
  holds (buf bs) (pos bs) items ->
  get_list bs (map snd items) = Some items.
Proof.
  intros Hwf Hit. revert bs Hwf.
  induction Hit as [|[val bits] items [Hb Hv] Hit IH]; intros bs Hwf Hr Hh; [done|].
  cbn [get_list map holds total_bits fst snd] in *. destruct Hh as [Hh Hhs]. pose proof (total_bits_nonneg items Hit).
  destruct (get_bits_ok bs bits Hwf Hb) as (v & bs' & E & Hwf' & Hbuf & Hlen & Hpad & Hpos & Hval).
  rewrite Z.min_l in * by lia. rewrite E. simpl.
  assert (v = val) as ->.
  { apply Z.bits_inj'. intros j Hj. rewrite Hval by done.
    destruct (Z.ltb_spec j bits); simpl; [by apply Hh|].
    by rewrite (testbit_in_u bits) by (done || lia). }
  rewrite IH; [done|done| |by rewrite Hbuf, Hpos].
  unfold avail in *. rewrite Hlen, Hpad, Hpos. lia.
Qed.

(** A fresh stream over a zeroed buffer. *)
Lemma bitstream_init_zero len :
  0 <= len < 2 ^ 28 ->
  let bs := bitstream_init (replicate (Z.to_nat len) 0) len 0 in
  wf bs /\ pos bs = 0 /\ forall k, bit_of (buf bs) k = false.
Proof.
  intros Hlen. split_and!; [|done|].
  - split; unfold avail, pos; simpl; try lia.
    + apply Forall_replicate. split; lia.
    + rewrite length_replicate. lia.
  - intros k. unfold bit_of, byte_at. rewrite nth_lookup. simpl.
    destruct (replicate (Z.to_nat len) 0 !! _) as [y|] eqn:E; simpl; [|by rewrite Z.bits_0].
    apply lookup_replicate in E as [-> _]. by rewrite Z.bits_0.
Qed.

(** Bits written to a fresh bit stream with bitstream_put_bits, as a sequence of
    values of widths 1 to 64 that fit the buffer, are read back by bitstream_get_bits
    with the same widths as the same values. *)
Theorem bitstream_roundtrip (len pad : Z) (items : list (Z * Z)) :
  0 <= len < 2 ^ 28 -> 0 <= pad < 8 -> Forall item_ok items ->
  total_bits items <= 8 * len - pad ->
  exists bs, put_list (bitstream_init (replicate (Z.to_nat len) 0) len 0) items = Some bs /\
    pos bs = total_bits items /\
    get_list (bitstream_init (buf bs) len pad) (map snd items) = Some items.
Proof.
  intros Hlen Hpad Hit Hr.
  pose proof (total_bits_nonneg items Hit).
  destruct (bitstream_init_zero len Hlen) as (Hwf0 & Hpos0 & Hz0).
  destruct (put_list_ok items (bitstream_init (replicate (Z.to_nat len) 0) len 0))
    as (bs & Hput & Hwf & Hl & Hpos & Hh & _); try done; [rewrite Hpos0; simpl; lia|].
  rewrite Hpos0 in *. simpl in Hl.
  exists bs. split_and!; [done|by rewrite Hpos|].
  apply get_list_ok; [|done| |done].
  - destruct Hwf as [Hby Hbl Hsm ? ? ? ?]. split; unfold avail, pos; simpl; done || lia.
  - unfold avail, pos; simpl. lia.
Qed.

(** Three fields of 3, 13 and 64 bits go through a stream of 12 bytes with
    two padding bits. *)
Lemma bitstream_roundtrip_witness :
  exists bs, put_list (bitstream_init (replicate 12 0) 12 0) [(5, 3); (4660, 13); (U64_MAX, 64)] = Some bs /\
    pos bs = 80 /\
    get_list (bitstream_init (buf bs) 12 2) [3; 13; 64] = Some [(5, 3); (4660, 13); (U64_MAX, 64)].
Proof.
  apply (bitstream_roundtrip 12 2 [(5, 3); (4660, 13); (U64_MAX, 64)]); try (cbn; lia).
  repeat first [apply Forall_cons_2 | apply Forall_nil_2]; unfold item_ok, in_u, U64_MAX; cbn [fst snd]; lia.
Defined.

(** *** Streams of variable length integers *)

Definition code_item (rl : Z) : Z * Z :=
  match __vli_encode_bits rl with inr ct => ct | inl _ => (0, 0) end.

Lemma code_item_spec rl :
  1 <= rl <= VLI_MAX ->
  __vli_encode_bits rl = inr (code_item rl) /\ item_ok (code_item rl).
Proof.
  intros Hr. destruct (vli_encode_ok rl Hr) as (code & t & He & Ht & Hc).
  unfold code_item. rewrite He. by split; [|split].
Qed.

Lemma vli_encode_bits_ok bs rl :
  wf bs -> pad_bits bs = 0 -> 1 <= rl <= VLI_MAX -> (forall k, pos bs <= k -> bit_of (buf bs) k = false) ->
  let it := code_item rl in
  (8 * buf_len bs - pos bs < it.2 /\ vli_encode_bits bs rl = (- ENOBUFS, bs)) \/
  exists bs', vli_encode_bits bs rl = (it.2, bs') /\ wf bs' /\ pad_bits bs' = 0 /\ buf_len bs' = buf_len bs /\
    pos bs' = pos bs + it.2 /\ (forall k, 0 <= k < pos bs -> bit_of (buf bs') k = bit_of (buf bs) k) /\
    (forall k, pos bs' <= k -> bit_of (buf bs') k = false) /\ holds (buf bs') (pos bs) [it].
Proof.
  intros Hwf Hp Hr Hz it. destruct (code_item_spec rl Hr) as [He [Ht Hc]]. fold it in He, Ht, Hc.
  unfold vli_encode_bits. rewrite He. destruct it as [code t]. simpl in *.
  destruct (Z.leb_spec t 0); [lia|]. assert (0 <= pos bs) by (destruct Hwf; unfold pos; lia).
  destruct (Z.lt_ge_cases (8 * buf_len bs - pos bs) t) as [Hfull|Hroom].
  { left. split; [done|]. apply put_bits_enobufs; done || lia. }
  right. destruct (put_bits_ok bs code t) as (bs1 & E & Hwf1 & Hp1 & Hl1 & Hpos1 & Hbits1);
    [done|done|lia|lia|by apply (in_u_mono t); [lia|]|].
  exists bs1. split_and!; try done.
  - intros k Hk. rewrite Hbits1 by lia. split_cmp. by rewrite orb_false_r.
  - intros k Hk. rewrite Hbits1, Hz by lia. by split_cmp.
  - intros j Hj. rewrite Hbits1, Hz by lia. split_cmp. simpl. f_equal. lia.
Qed.

Lemma holds_ext s s' p items :
  (forall k, p <= k < p + total_bits items -> bit_of s' k = bit_of s k) -> Forall item_ok items ->
  holds s p items -> holds s' p items.
Proof.
  intros He Hit. revert p He. induction Hit as [|[v t] items [Ht _] Hit IH]; intros p He; [done|].
  cbn [holds total_bits fst snd] in *. pose proof (total_bits_nonneg items Hit). intros [H1 H2]. split.
  - intros j Hj. rewrite He by lia. by apply H1.
  - apply IH; [|done]. intros k Hk. apply He. lia.
Qed.

Lemma holds_snoc s p items it :
  holds s p items -> holds s (p + total_bits items) [it] -> holds s p (items ++ [it]).
Proof.
  revert p. induction items as [|[v t] items IH]; intros p H1 H2; cbn [holds total_bits app fst snd] in *.
  - by rewrite Z.add_0_r in H2.
  - destruct H1 as [H1 H1']. split; [done|]. apply IH; [done|]. by rewrite <- Z.add_assoc.
Qed.

Lemma total_bits_app l1 l2 : total_bits (l1 ++ l2) = total_bits l1 + total_bits l2.
Proof. induction l1 as [|it l1 IH]; simpl; lia. Qed.

End Bitstream.
