(* ===== verification/Hweight.v ===== *)
(** * Hamming weights (src/bsr/bsr-kernel-compat/windows/hweight.c)

    The bit-parallel population counts that the bitmap code uses for whole
    words, and their equality with counting bit by bit. *)

From S2P Require Import Prelude.

Definition hweight8 (w : Z) : Z :=
  let res := u32 (w - Z.land (Z.shiftr w 1) 0x55) in
  let res := u32 (Z.land res 0x33 + Z.land (Z.shiftr res 2) 0x33) in
  Z.land (u32 (res + Z.shiftr res 4)) 0x0F.

Definition hweight16 (w : Z) : Z :=
  let res := u32 (w - Z.land (Z.shiftr w 1) 0x5555) in
  let res := u32 (Z.land res 0x3333 + Z.land (Z.shiftr res 2) 0x3333) in
  let res := Z.land (u32 (res + Z.shiftr res 4)) 0x0F0F in
  Z.land (u32 (res + Z.shiftr res 8)) 0x00FF.

Definition hweight32 (w : Z) : Z :=
  let res := u32 (w - Z.land (Z.shiftr w 1) 0x55555555) in
  let res := u32 (Z.land res 0x33333333 + Z.land (Z.shiftr res 2) 0x33333333) in
  let res := Z.land (u32 (res + Z.shiftr res 4)) 0x0F0F0F0F in
  let res := u32 (res + Z.shiftr res 8) in
  Z.land (u32 (res + Z.shiftr res 16)) 0x000000FF.

(** [hweight64] for [BITS_PER_LONG == 64] without the fast multiplier. *)
Definition hweight64 (w : Z) : Z :=
  let res := u64 (w - Z.land (Z.shiftr w 1) 0x5555555555555555) in
  let res := u64 (Z.land res 0x3333333333333333 + Z.land (Z.shiftr res 2) 0x3333333333333333) in
  let res := Z.land (u64 (res + Z.shiftr res 4)) 0x0F0F0F0F0F0F0F0F in
  let res := u64 (res + Z.shiftr res 8) in
  let res := u64 (res + Z.shiftr res 16) in
  Z.land (u64 (res + Z.shiftr res 32)) 0x00000000000000FF.

(** *** Little-endian digits

    Every step of the computation acts on the digits of [w] in base 2, 4, 16
    and 256; the digits never overflow. *)
Fixpoint digits (k : Z) (l : list Z) : Z :=
  match l with
  | [] => 0
  | d :: l => d + 2 ^ k * digits k l
  end.

Lemma digits_nonneg k l : Forall (fun d => 0 <= d) l -> 0 <= digits k l.
Proof.
  induction 1 as [|d l Hd Hl IH]; simpl; [done|].
  pose proof (Z.pow_nonneg 2 k ltac:(lia)). nia.
Qed.

Lemma digits_land k l m :
  0 <= k -> Forall (in_u k) l -> Forall (in_u k) m -> length l = length m ->
  Z.land (digits k l) (digits k m) = digits k (zip_with Z.land l m).
Proof.
  intros Hk Hl. revert m. induction Hl as [|d l Hd Hl IH]; intros [|e m] Hm Hlen;
    cbn [digits zip_with length] in *; try done.
  rewrite Forall_cons in Hm. destruct Hm as [He Hm]. injection Hlen as Hlen.
  rewrite <- IH by done.
  assert (in_u k (Z.land d e)) as Hde.
  { apply in_u_of_testbit; [done|apply Z.land_nonneg; left; apply Hd|].
    intros i Hi. autorewrite with bits. by rewrite (testbit_in_u k d) by done. }
  rewrite !add_shiftl_lor by done.
  bit_ext i Hi. destruct (Z.ltb_spec i k).
  - rewrite !(Z.testbit_neg_r _ (i - k)) by lia.
    by rewrite !andb_false_r, !orb_false_r.
  - rewrite (testbit_in_u k d), (testbit_in_u k e) by done. simpl.
    by destruct (Z.leb_spec 0 i); [|lia].
Qed.

Lemma digits_shiftr k d l : 0 <= k -> in_u k d -> Z.shiftr (digits k (d :: l)) k = digits k l.
Proof.
  intros Hk Hd. cbn [digits]. rewrite add_shiftl_lor by done.
  bit_ext i Hi. destruct (Z.leb_spec 0 i); [|lia]. destruct (Z.leb_spec 0 (i + k)); [|lia].
  rewrite (testbit_in_u k d) by (done || lia). simpl. f_equal. lia.
Qed.

(** The bits of [w] are its base 2 digits. *)
Lemma digits_bits n a w :
  0 <= a -> digits 1 (map (fun i => b2z (Z.testbit w i)) (seqZ a (Z.of_nat n)))
  = Z.shiftr w a mod 2 ^ Z.of_nat n.
Proof.
  revert a. induction n as [|n IH]; intros a Ha.
  { simpl. by rewrite Z.mod_1_r. }
  rewrite seqZ_cons by lia. rewrite Nat2Z.inj_succ, Z.pred_succ. cbn [map digits].
  rewrite <- Z.add_1_r, IH by lia.
  assert (in_u 1 (b2z (Z.testbit w a))) by (destruct (Z.testbit w a); split; simpl; lia).
  rewrite add_shiftl_lor by (done || lia).
  bit_ext i Hi. destruct (Z.eqb_spec i 0) as [->|].
  - split_cmp. rewrite Z.add_0_l, ?andb_false_r, ?orb_false_r. by destruct (Z.testbit w a).
  - rewrite (testbit_in_u 1 (b2z _)) by (done || lia). simpl.
    replace (i - 1 + (a + 1)) with (i + a) by lia. split_cmp; done.
Qed.

Lemma count_true_map f a n :
  count_true f a n = foldr Z.add 0 (map (fun i => b2z (f i)) (seqZ a (Z.of_nat n))).
Proof.
  revert a. induction n as [|n IH]; intros a; [done|].
  rewrite seqZ_cons by lia. rewrite Nat2Z.inj_succ, Z.pred_succ. simpl.
  by rewrite IH, Z.add_1_r.
Qed.

(** Digits at even and at odd positions. *)
Fixpoint evens (l : list Z) : list Z :=
  match l with x :: _ :: l => x :: evens l | l => l end.
Definition odds (l : list Z) : list Z := evens (tail l ++ [0]).

Definition mask (k : Z) (n : nat) : Z := digits (2 * k) (replicate n (Z.ones k)).

Lemma digits_app0 k l : digits k (l ++ [0]) = digits k l.
Proof. induction l as [|d l IH]; simpl; lia || by rewrite IH. Qed.

Lemma land_evens n k l :
  0 <= k -> length l = (2 * n)%nat -> Forall (in_u k) l ->
  Z.land (digits k l) (mask k n) = digits (2 * k) (evens l).
Proof.
  intros Hk. unfold mask. revert l. induction n as [|n IH]; intros l Hl Hd.
  { destruct l; [done|simpl in Hl; lia]. }
  destruct l as [|x [|y l]]; [simpl in Hl; lia..|].
  rewrite !Forall_cons in Hd. destruct Hd as (Hx & Hy & Hd). simpl in Hl.
  cbn [digits evens replicate]. rewrite <- IH by (done || lia).
  assert (Forall (in_u (2 * k)) [x + 2 ^ k * y]) as Hxy.
  { constructor; [|done]. destruct Hx, Hy. replace (2 * k) with (k + k) by lia. split; [nia|].
    rewrite Z.pow_add_r by lia. nia. }
  apply Forall_cons in Hxy as [Hxy _].
  assert (in_u k (Z.ones k)) as Ho by (rewrite Z.ones_equiv; pose proof (Z.pow_pos_nonneg 2 k); split; lia).
  assert (in_u (2 * k) (Z.ones k)) as Ho' by (apply (in_u_mono k); [lia|done]).
  replace (x + 2 ^ k * (y + 2 ^ k * digits k l)) with ((x + 2 ^ k * y) + 2 ^ (2 * k) * digits k l)
    by (replace (2 * k) with (k + k) by lia; rewrite Z.pow_add_r by lia; lia).
  rewrite !add_shiftl_lor by (done || lia || apply (in_u_mono k); done || lia).
  bit_ext i Hi. destruct (Z.leb_spec 0 i); [|lia].
  destruct (Z.ltb_spec i k); [|destruct (Z.ltb_spec i (2 * k))].
  - rewrite !(Z.testbit_neg_r _ (i - 2 * k)), !(Z.testbit_neg_r _ (i - k)) by lia.
    by rewrite !andb_false_r, !orb_false_r, andb_true_r.
  - rewrite !(Z.testbit_neg_r _ (i - 2 * k)) by lia.
    by rewrite !andb_false_r, !orb_false_r, (testbit_in_u k x) by (done || lia).
  - rewrite (testbit_in_u k x), (testbit_in_u k y) by (done || lia).
    by rewrite ?andb_false_r.
Qed.

Lemma land_odds n k l :
  0 <= k -> length l = (2 * n)%nat -> Forall (in_u k) l ->
  Z.land (Z.shiftr (digits k l) k) (mask k n) = digits (2 * k) (odds l).
Proof.
  intros Hk Hl Hd. destruct l as [|d l].
  { destruct n; [|simpl in Hl; lia]. unfold odds. simpl. rewrite Z.shiftr_0_l, Z.land_0_l. lia. }
  rewrite Forall_cons in Hd. destruct Hd as [Hx Hd].
  rewrite digits_shiftr by done. rewrite <- (digits_app0 k l).
  apply land_evens; [done|rewrite length_app; simpl in *; lia|].
  apply Forall_app. split; [done|]. constructor; [|done].
  pose proof (Z.pow_pos_nonneg 2 k). split; lia.
Qed.

(** Adjacent digits added. *)
Fixpoint pair_sums (l : list Z) : list Z :=
  match l with x :: y :: l => x + y :: pair_sums l | _ => [] end.

Lemma digits_evens_odds n k l :
  0 <= k -> length l = (2 * n)%nat ->
  digits k l = digits (2 * k) (evens l) + 2 ^ k * digits (2 * k) (odds l) /\
  digits (2 * k) (pair_sums l) = digits (2 * k) (evens l) + digits (2 * k) (odds l).
Proof.
  intros Hk. assert (2 ^ (2 * k) = 2 ^ k * 2 ^ k) as Hp
    by (replace (2 * k) with (k + k) by lia; by rewrite Z.pow_add_r by lia).
  revert l. induction n as [|n IH]; intros l Hl.
  { destruct l; [|simpl in Hl; lia]. unfold odds. simpl. lia. }
  destruct l as [|x [|y l]]; [simpl in Hl; lia..|].
  destruct (IH l ltac:(simpl in Hl; lia)) as [IH1 IH2].
  assert (digits (2 * k) (odds (x :: y :: l)) = y + 2 ^ (2 * k) * digits (2 * k) (odds l)) as ->.
  { unfold odds. destruct l as [|z l]; [simpl; lia|]. done. }
  cbn [digits evens pair_sums]. rewrite IH1, IH2, !Hp. lia.
Qed.

Lemma pair_sums_length n l : length l = (2 * n)%nat -> length (pair_sums l) = n.
Proof.
  revert l. induction n as [|n IH]; intros l Hl.
  { by destruct l; [|simpl in Hl; lia]. }
  destruct l as [|x [|y l]]; [simpl in Hl; lia..|]. simpl. f_equal. apply IH. simpl in Hl. lia.
Qed.

Lemma pair_sums_sum n l : length l = (2 * n)%nat -> foldr Z.add 0 (pair_sums l) = foldr Z.add 0 l.
Proof.
  revert l. induction n as [|n IH]; intros l Hl.
  { by destruct l; [|simpl in Hl; lia]. }
  destruct l as [|x [|y l]]; [simpl in Hl; lia..|]. simpl. rewrite IH by (simpl in Hl; lia). lia.
Qed.

Lemma pair_sums_bound c n l :
  length l = (2 * n)%nat -> Forall (fun d => 0 <= d <= c) l -> Forall (fun d => 0 <= d <= 2 * c) (pair_sums l).
Proof.
  revert l. induction n as [|n IH]; intros l Hl.
  { by destruct l; [|simpl in Hl; lia]. }
  destruct l as [|x [|y l]]; [simpl in Hl; lia..|]. simpl. rewrite !Forall_cons.
  intros (Hx & Hy & H). split; [lia|]. apply IH; [simpl in Hl; lia|done].
Qed.

(** An upper bound for a number with small digits. *)
Lemma digits_bound k n l :
  0 <= k -> length l = n -> Forall (in_u k) l -> in_u (k * Z.of_nat n) (digits k l).
Proof.
  intros Hk. revert l. induction n as [|n IH]; intros l Hl Hd.
  { destruct l; [|done]. rewrite Z.mul_0_r. split; simpl; lia. }
  destruct l as [|d l]; [done|]. rewrite Forall_cons in Hd. destruct Hd as [[? ?] Hd].
  destruct (IH l ltac:(simpl in Hl; lia) Hd) as [IH0 IH1]. simpl.
  replace (k * Z.of_nat (S n)) with (k + k * Z.of_nat n) by lia.
  assert (0 < 2 ^ k) by (apply Z.pow_pos_nonneg; lia).
  split; [nia|]. rewrite Z.pow_add_r by lia. nia.
Qed.

Lemma small_in_u c k l : 0 <= c < 2 ^ k -> Forall (fun d => 0 <= d <= c) l -> Forall (in_u k) l.
Proof. intros Hc Hd. eapply Forall_impl; [exact Hd|]. simpl. intros d ?. split; lia. Qed.

(** First step: pairs of bits. *)
Lemma step_bits n l :
  length l = (2 * n)%nat -> Forall (fun d => 0 <= d <= 1) l ->
  digits 1 l - Z.land (Z.shiftr (digits 1 l) 1) (mask 1 n) = digits 2 (pair_sums l).
Proof.
  intros Hl Hd. rewrite (land_odds n) by (done || lia || apply (small_in_u 1); done || lia).
  destruct (digits_evens_odds n 1 l ltac:(lia) Hl) as [-> Hp].
  change (2 * 1) with 2 in *. rewrite Hp. lia.
Qed.

(** Second step: masked sums of neighbours. *)
Lemma step_masked n k c l :
  0 <= k -> 0 <= c < 2 ^ k -> length l = (2 * n)%nat -> Forall (fun d => 0 <= d <= c) l ->
  Z.land (digits k l) (mask k n) + Z.land (Z.shiftr (digits k l) k) (mask k n)
  = digits (2 * k) (pair_sums l).
Proof.
  intros Hk Hc Hl Hd. rewrite (land_odds n), (land_evens n) by (done || apply (small_in_u c); done).
  by destruct (digits_evens_odds n k l Hk Hl) as [_ ->].
Qed.

(** Digit-wise addition of the neighbour. *)
Fixpoint add_next (l : list Z) : list Z :=
  match l with
  | [] => []
  | x :: l => x + hd 0 l :: add_next l
  end.

Lemma step_add_next k c l :
  0 <= k -> 0 <= c < 2 ^ k -> Forall (fun d => 0 <= d <= c) l ->
  digits k l + Z.shiftr (digits k l) k = digits k (add_next l).
Proof.
  intros Hk Hc Hd. destruct l as [|x l]; [simpl; by rewrite Z.shiftr_0_l|].
  rewrite Forall_cons in Hd. destruct Hd as [Hx Hd].
  rewrite digits_shiftr by (done || split; lia). clear Hd.
  revert x Hx. induction l as [|y l IH]; intros x Hx; cbn [digits add_next hd] in *; [lia|].
  pose proof (IH c ltac:(lia)) as IH'. lia.
Qed.

Lemma add_next_bound c l :
  0 <= c -> Forall (fun d => 0 <= d <= c) l -> Forall (fun d => 0 <= d <= 2 * c) (add_next l).
Proof.
  intros Hc. induction 1 as [|x l Hx Hl IH]; simpl; constructor; [|done].
  destruct Hl; simpl; lia.
Qed.

Lemma length_add_next l : length (add_next l) = length l.
Proof. induction l; simpl; congruence. Qed.

Lemma evens_add_next n l : length l = (2 * n)%nat -> evens (add_next l) = pair_sums l.
Proof.
  revert l. induction n as [|n IH]; intros l Hl.
  { by destruct l; [|simpl in Hl; lia]. }
  destruct l as [|x [|y l]]; [simpl in Hl; lia..|]. simpl. f_equal. apply IH. simpl in Hl. lia.
Qed.

(** Third step: neighbours added first, masked afterwards. *)
Lemma step_add_masked n k c l :
  0 <= k -> 0 <= c -> 2 * c < 2 ^ k -> length l = (2 * n)%nat -> Forall (fun d => 0 <= d <= c) l ->
  Z.land (digits k l + Z.shiftr (digits k l) k) (mask k n) = digits (2 * k) (pair_sums l).
Proof.
  intros Hk Hc Hc2 Hl Hd. rewrite (step_add_next k c) by (done || lia).
  rewrite (land_evens n), (evens_add_next n); [done|done|done| |].
  - by rewrite length_add_next.
  - apply (small_in_u (2 * c)); [lia|]. by apply add_next_bound.
Qed.

Lemma bits_list_bound w a n :
  Forall (fun d => 0 <= d <= 1) (map (fun i => b2z (Z.testbit w i)) (seqZ a n)).
Proof. apply Forall_map, Forall_true. intros i. destruct (Z.testbit w i); simpl; lia. Qed.

(** The first three steps on a word of [8 * m] bits leave the population
    counts of its bytes in its bytes. *)
Lemma byte_counts (m : nat) (W : Z) (L : list Z) :
  8 * Z.of_nat m <= W -> length L = (8 * m)%nat -> Forall (fun d => 0 <= d <= 1) L ->
  exists E, length E = m /\ Forall (fun d => 0 <= d <= 8) E /\
    foldr Z.add 0 E = foldr Z.add 0 L /\
    let w := digits 1 L in
    let r1 := wrap W (w - Z.land (Z.shiftr w 1) (mask 1 (4 * m))) in
    let r2 := wrap W (Z.land r1 (mask 2 (2 * m)) + Z.land (Z.shiftr r1 2) (mask 2 (2 * m))) in
    Z.land (wrap W (r2 + Z.shiftr r2 4)) (mask 4 m) = digits 8 E.
Proof.
  intros HW Hl Hd.
  assert (length (pair_sums L) = 4 * m)%nat as Hl1 by (apply pair_sums_length; lia).
  assert (length (pair_sums (pair_sums L)) = 2 * m)%nat as Hl2 by (apply pair_sums_length; lia).
  pose proof (pair_sums_bound 1 (4 * m) L ltac:(lia) Hd) as Hd1.
  pose proof (pair_sums_bound 2 (2 * m) (pair_sums L) ltac:(lia) Hd1) as Hd2.
  pose proof (pair_sums_bound 4 m (pair_sums (pair_sums L)) ltac:(lia) Hd2) as Hd3.
  exists (pair_sums (pair_sums (pair_sums L))). split_and!.
  - apply pair_sums_length. lia.
  - done.
  - by rewrite (pair_sums_sum m), (pair_sums_sum (2 * m)), (pair_sums_sum (4 * m)) by lia.
  - cbv zeta. rewrite (step_bits (4 * m)) by (done || lia).
    rewrite (wrap_id _ (digits 2 _)).
    2:{ apply (in_u_mono (8 * Z.of_nat m)); [done|]. replace (8 * Z.of_nat m) with (2 * Z.of_nat (4 * m)) by lia.
        apply digits_bound; [lia|done|]. apply (small_in_u 2); [lia|done]. }
    rewrite (step_masked (2 * m) 2 2) by (done || lia). change (2 * 2) with 4.
    rewrite (wrap_id _ (digits 4 _)).
    2:{ apply (in_u_mono (8 * Z.of_nat m)); [done|]. replace (8 * Z.of_nat m) with (4 * Z.of_nat (2 * m)) by lia.
        apply digits_bound; [lia|done|]. apply (small_in_u 4); [lia|done]. }
    rewrite wrap_id; [by apply (step_add_masked m 4 4); (done || lia)|].
    rewrite (step_add_next 4 4) by (done || lia).
    apply (in_u_mono (8 * Z.of_nat m)); [done|].
    replace (8 * Z.of_nat m) with (4 * Z.of_nat (2 * m)) by lia.
    apply digits_bound; [lia|by rewrite length_add_next|].
    apply (small_in_u (2 * 4)); [lia|]. by apply add_next_bound.
Qed.

Lemma word_as_digits n w :
  in_u (Z.of_nat n) w ->
  w = digits 1 (map (fun i => b2z (Z.testbit w i)) (seqZ 0 (Z.of_nat n))).
Proof. intros Hw. rewrite digits_bits, Z.shiftr_0_r by lia. by rewrite Z.mod_small. Qed.

(** What the first three steps of the function of width [8 * m] compute. *)
Lemma word_byte_counts (m : nat) (W w : Z) :
  8 * Z.of_nat m <= W -> in_u (8 * Z.of_nat m) w ->
  exists E, length E = m /\ Forall (fun d => 0 <= d <= 8) E /\
    foldr Z.add 0 E = count_true (Z.testbit w) 0 (8 * m) /\
    let r1 := wrap W (w - Z.land (Z.shiftr w 1) (mask 1 (4 * m))) in
    let r2 := wrap W (Z.land r1 (mask 2 (2 * m)) + Z.land (Z.shiftr r1 2) (mask 2 (2 * m))) in
    Z.land (wrap W (r2 + Z.shiftr r2 4)) (mask 4 m) = digits 8 E.
Proof.
  intros HW Hw. rewrite count_true_map.
  replace (8 * Z.of_nat m) with (Z.of_nat (8 * m)) in Hw by lia.
  pose proof (word_as_digits (8 * m) w Hw) as Hdig.
  destruct (byte_counts m W (map (fun i => b2z (Z.testbit w i)) (seqZ 0 (Z.of_nat (8 * m)))))
    as (E & HlE & HdE & Hsum & Hr); [done| |apply bits_list_bound|].
  { rewrite length_map, length_seqZ. lia. }
  cbv zeta in *. rewrite <- Hdig in Hr. by exists E.
Qed.

Lemma hweight8_count w : in_u 8 w -> hweight8 w = count_true (Z.testbit w) 0 8.
Proof.
  intros Hw. destruct (word_byte_counts 1 32 w ltac:(lia) Hw) as (E & Hl & Hd & Hs & Hr).
  destruct E as [|e0 [|]]; try done. cbv zeta in Hr.
  transitivity (digits 8 [e0]); [exact Hr|].
  change (8 * 1)%nat with 8%nat in Hs. rewrite <- Hs. cbn. lia.
Qed.

Lemma land_255 x y : 0 <= x < 256 -> Z.land (x + 256 * y) 255 = x.
Proof.
  intros. change 255 with (Z.ones 8). rewrite Z.land_ones by lia. change (2 ^ 8) with 256.
  replace (x + 256 * y) with (x + y * 256) by lia. rewrite Z.mod_add, Z.mod_small by lia. done.
Qed.

Lemma hweight16_count w : in_u 16 w -> hweight16 w = count_true (Z.testbit w) 0 16.
Proof.
  intros Hw. destruct (word_byte_counts 2 32 w ltac:(lia) Hw) as (E & Hl & Hd & Hs & Hr).
  destruct E as [|e0 [|e1 [|]]]; try done. rewrite !Forall_cons in Hd.
  cbv zeta in Hr. change (8 * 2)%nat with 16%nat in Hs. rewrite <- Hs. clear Hs.
  unfold hweight16, u32. cbv zeta.
  change 0x5555 with (mask 1 (4 * 2)). change 0x3333 with (mask 2 (2 * 2)). change 0x0F0F with (mask 4 2).
  rewrite Hr. rewrite digits_shiftr by (done || split; lia).
  rewrite wrap_id by (simpl; split; lia). simpl digits. simpl foldr.
  replace (_ + _) with (e0 + e1 + 256 * e1) by lia.
  change 0x00FF with 255. rewrite land_255 by lia. lia.
Qed.

Lemma hweight32_count w : in_u 32 w -> hweight32 w = count_true (Z.testbit w) 0 32.
Proof.
  intros Hw. destruct (word_byte_counts 4 32 w ltac:(lia) Hw) as (E & Hl & Hd & Hs & Hr).
  destruct E as [|e0 [|e1 [|e2 [|e3 [|]]]]]; try done. rewrite !Forall_cons in Hd.
  cbv zeta in Hr. change (8 * 4)%nat with 32%nat in Hs. rewrite <- Hs. clear Hs.
  unfold hweight32, u32. cbv zeta.
  change 0x55555555 with (mask 1 (4 * 4)). change 0x33333333 with (mask 2 (2 * 4)).
  change 0x0F0F0F0F with (mask 4 4). rewrite Hr.
  rewrite (step_add_next 8 8) by (repeat constructor; lia || done).
  rewrite (wrap_id 32 (digits _ _)) by (simpl; split; lia). cbn [add_next hd].
  change 16 with (8 + 8). rewrite <- Z.shiftr_shiftr by lia.
  rewrite !digits_shiftr by (done || split; lia).
  rewrite wrap_id by (simpl; split; lia). simpl digits. simpl foldr.
  replace (_ + _) with (e0 + e1 + e2 + e3 + 256 * (e1 + e2 + (e3 + 0) + 256 * (e2 + e3 + 256 * (e3 + 0)))) by lia.
  change 0x000000FF with 255. rewrite land_255 by lia. lia.
Qed.

Lemma hweight64_count w : in_u 64 w -> hweight64 w = count_true (Z.testbit w) 0 64.
Proof.
  intros Hw. destruct (word_byte_counts 8 64 w ltac:(lia) Hw) as (E & Hl & Hd & Hs & Hr).
  destruct E as [|e0 [|e1 [|e2 [|e3 [|e4 [|e5 [|e6 [|e7 [|]]]]]]]]]; try done.
  rewrite !Forall_cons in Hd.
  cbv zeta in Hr. change (8 * 8)%nat with 64%nat in Hs. rewrite <- Hs. clear Hs.
  unfold hweight64, u64. cbv zeta.
  change 0x5555555555555555 with (mask 1 (4 * 8)). change 0x3333333333333333 with (mask 2 (2 * 8)).
  change 0x0F0F0F0F0F0F0F0F with (mask 4 8). rewrite Hr.
  rewrite (step_add_next 8 8) by (repeat constructor; lia || done).
  rewrite (wrap_id 64 (digits _ _)) by (simpl; split; lia). cbn [add_next hd].
  change 16 with (8 + 8). rewrite <- Z.shiftr_shiftr by lia.
  rewrite !digits_shiftr by (done || split; lia).
  set (d0 := e0 + e1 + (e2 + e3)). set (d1 := e1 + e2 + (e3 + e4)). set (d2 := e2 + e3 + (e4 + e5)).
  set (d3 := e3 + e4 + (e5 + e6)). set (d4 := e4 + e5 + (e6 + e7)). set (d5 := e5 + e6 + (e7 + 0)).
  replace (digits 8 _ + digits 8 _) with (digits 8 [d0; d1; d2; d3; d4; d5; e6 + e7; e7 + 0])
    by (subst d0 d1 d2 d3 d4 d5; cbn [digits]; lia).
  rewrite (wrap_id 64 (digits _ _)) by (subst d0 d1 d2 d3 d4 d5; cbn [digits]; split; lia).
  change 32 with (8 + (8 + (8 + 8))). rewrite <- !Z.shiftr_shiftr by lia.
  rewrite !digits_shiftr by (done || subst d0 d1 d2 d3 d4 d5; split; lia).
  rewrite wrap_id by (subst d0 d1 d2 d3 d4 d5; cbn [digits]; split; lia).
  replace (digits 8 _ + digits 8 _)
    with (d0 + d4 + 256 * digits 8 [d1 + d5; d2 + (e6 + e7); d3 + (e7 + 0); d4; d5; e6 + e7; e7 + 0])
    by (cbn [digits]; lia).
  change 0x00000000000000FF with 255. rewrite land_255 by (subst d0 d4; lia).
  subst d0 d4. simpl. lia.
Qed.

(** C29. The bit-parallel hweight8/16/32/64 return the number of one bits of their
    argument. *)
Theorem hweight_popcount (w8 w16 w32 w64 : Z) :
  in_u 8 w8 -> in_u 16 w16 -> in_u 32 w32 -> in_u 64 w64 ->
  hweight8 w8 = count_true (Z.testbit w8) 0 8 /\
  hweight16 w16 = count_true (Z.testbit w16) 0 16 /\
  hweight32 w32 = count_true (Z.testbit w32) 0 32 /\
  hweight64 w64 = count_true (Z.testbit w64) 0 64.
Proof.
  intros. split_and!;
    auto using hweight8_count, hweight16_count, hweight32_count, hweight64_count.
Qed.

Lemma hweight_popcount_witness :
  hweight8 0xA5 = 4 /\ hweight16 0xBEEF = 13 /\ hweight32 0xDEADBEEF = 24 /\
  hweight64 U64_MAX = 64.
Proof.
  apply (hweight_popcount 0xA5 0xBEEF 0xDEADBEEF U64_MAX); unfold in_u, U64_MAX; lia.
Defined.
