(* ===== verification/Bitmap.v ===== *)
(** * The in-memory dirty bitmap (src/bsr/bsr_bitmap.c)

    One bitmap holds a bit per 4 KiB block and peer.  The bits of the peers are
    interleaved in 32-bit words: word [(bit >> 5) * bm_max_peers + index] holds
    bits [bit & ~31 .. bit | 31] of peer slot [index], and the words are spread
    over 4 KiB pages.  All operations go through [____bm_op], one loop over
    the pages, with an unaligned head, whole words and an unaligned tail. *)

From S2P Require Import Prelude Hweight.

Module Bitmap.

Definition PAGE_SHIFT : Z := 12.
Definition BITS_PER_PAGE : Z := Z.shiftl 1 (PAGE_SHIFT + 3).
Definition BSR_END_OF_BITMAP : Z := U64_MAX.
Definition BSR_PEERS_MAX : Z := 32.

(** A page: its 1024 little-endian words and the two [page_private] flags
    that the bit operations set. *)
Record page := mk_page {
  p_words : list Z;
  p_need_writeout : bool;
  p_lazy_writeout : bool }.

(** The fields of [struct bsr_bitmap] that describe the bits. *)
Record bsr_bitmap := mk_bitmap {
  bm_pages : list page;
  bm_set : list Z;
  bm_bits : Z;
  bm_words : Z;
  bm_dev_capacity : Z;
  bm_max_peers : Z }.

Definition set_pages (bm : bsr_bitmap) (ps : list page) : bsr_bitmap :=
  mk_bitmap ps (bm_set bm) (bm_bits bm) (bm_words bm) (bm_dev_capacity bm) (bm_max_peers bm).

Definition set_bm_set (bm : bsr_bitmap) (s : list Z) : bsr_bitmap :=
  mk_bitmap (bm_pages bm) s (bm_bits bm) (bm_words bm) (bm_dev_capacity bm) (bm_max_peers bm).

Definition bm_set_page_need_writeout (p : page) : page :=
  mk_page (p_words p) true (p_lazy_writeout p).

Definition bm_set_page_lazy_writeout (p : page) : page :=
  mk_page (p_words p) (p_need_writeout p) true.

Inductive bitmap_operations :=
  BM_OP_CLEAR | BM_OP_SET | BM_OP_TEST | BM_OP_COUNT | BM_OP_MERGE | BM_OP_EXTRACT
| BM_OP_FIND_BIT | BM_OP_FIND_ZERO_BIT | BM_OP_RANGE_FIND_BIT | BM_OP_RANGE_FIND_ZERO_BIT.

Global Instance bitmap_operations_eq_dec : EqDecision bitmap_operations.
Proof. solve_decision. Defined.

(** *** Positions *)

Definition interleaved_word32 (bm : bsr_bitmap) (bitmap_index bit : Z) : Z :=
  u64 (u64 (Z.shiftr bit 5 * bm_max_peers bm) + bitmap_index).

Definition word32_to_page (word : Z) : Z := Z.shiftr word (PAGE_SHIFT - 2).

Definition word32_in_page (word : Z) : Z := Z.land word (Z.shiftl 1 (PAGE_SHIFT - 2) - 1).

Definition last_bit_on_page (bm : bsr_bitmap) (bitmap_index bit : Z) : Z :=
  let word := interleaved_word32 bm bitmap_index bit in
  u64 (Z.lor bit 31 + Z.shiftl (word32_in_page (lnot_w 64 word) / bm_max_peers bm) 5).

Definition bit_to_page_interleaved (bm : bsr_bitmap) (bitmap_index bit : Z) : Z :=
  word32_to_page (interleaved_word32 bm bitmap_index bit).

(** *** Bits of a mapped page (little-endian bit order within the words) *)

Definition word (addr : list Z) (i : Z) : Z := nth (Z.to_nat i) addr 0.
Definition set_word (addr : list Z) (i w : Z) : list Z := <[Z.to_nat i := w]> addr.

Definition test_bit_le (nr : Z) (addr : list Z) : bool :=
  Z.testbit (word addr (nr / 32)) (nr mod 32).

Definition __set_bit_le (nr : Z) (addr : list Z) : list Z :=
  set_word addr (nr / 32) (Z.setbit (word addr (nr / 32)) (nr mod 32)).

Definition __clear_bit_le (nr : Z) (addr : list Z) : list Z :=
  set_word addr (nr / 32) (Z.clearbit (word addr (nr / 32)) (nr mod 32)).

(** The first bit of value [v] in [offset, size), [size] if there is none. *)
Fixpoint find_next_le (n : nat) (v : bool) (addr : list Z) (offset : Z) : Z :=
  match n with
  | O => offset
  | S n => if Bool.eqb (test_bit_le offset addr) v then offset
           else find_next_le n v addr (offset + 1)
  end.

Definition find_next_bit_le (addr : list Z) (size offset : Z) : Z :=
  find_next_le (Z.to_nat (size - offset)) true addr offset.
Definition find_next_zero_bit_le (addr : list Z) (size offset : Z) : Z :=
  find_next_le (Z.to_nat (size - offset)) false addr offset.

(** *** [____bm_op]

    The local variables of the loop body.  [s_addr] is the mapped page,
    [s_in] the words [buffer] still to be read by [BM_OP_MERGE], [s_out] the
    words [BM_OP_EXTRACT] has stored through [buffer]. *)
Record st := mk_st {
  s_start : Z; s_bip : Z; s_count : Z; s_total : Z;
  s_addr : list Z; s_in : list Z; s_out : list Z }.

(** How a part of the loop body is left: by falling through, by one of the
    two [goto]s, by [return], or by [BUG()] and undefined behaviour. *)
Inductive flow :=
| Fall (s : st) | Next_page (s : st) | Found (s : st) (count : Z) | Return (r : Z) | Bug.

(** One iteration of the bit loops of the head and of the tail. *)
Definition bit_op (op : bitmap_operations) (s : st) : st :=
  let a := s_addr s in
  match op with
  | BM_OP_CLEAR =>
      mk_st (s_start s) (s_bip s) (s_count s + b2z (test_bit_le (s_bip s) a)) (s_total s)
        (__clear_bit_le (s_bip s) a) (s_in s) (s_out s)
  | BM_OP_SET =>
      mk_st (s_start s) (s_bip s) (s_count s + b2z (negb (test_bit_le (s_bip s) a))) (s_total s)
        (__set_bit_le (s_bip s) a) (s_in s) (s_out s)
  | BM_OP_COUNT =>
      mk_st (s_start s) (s_bip s) (s_count s) (s_total s + b2z (test_bit_le (s_bip s) a))
        a (s_in s) (s_out s)
  | _ => s
  end.

Definition set_pos (s : st) (start bip : Z) : st :=
  mk_st start bip (s_count s) (s_total s) (s_addr s) (s_in s) (s_out s).

(** [do { ... } while (bit_in_page <= last)]: at most the 32 bits of a word. *)
Fixpoint head_bits (fuel : nat) (op : bitmap_operations) (last : Z) (s : st) : st :=
  match fuel with
  | O => s
  | S fuel =>
      let s := bit_op op s in
      let s := set_pos s (s_start s) (s_bip s + 1) in
      if s_bip s <=? last then head_bits fuel op last s else s
  end.

(** [while (start <= end) { ... }] of the tail. *)
Fixpoint tail_bits (fuel : nat) (op : bitmap_operations) (end_ : Z) (s : st) : st :=
  match fuel with
  | O => s
  | S fuel =>
      if s_start s <=? end_ then
        let s := bit_op op s in
        tail_bits fuel op end_ (set_pos s (s_start s + 1) (s_bip s + 1))
      else s
  end.

(** The step to the same bits of the next word of the slot. *)
Definition advance (s : st) (start bip : Z) : flow :=
  let s := set_pos s start bip in
  if BITS_PER_PAGE <=? bip then Next_page s else Fall s.

(** The unaligned head of the range. *)
Definition bm_head (op : bitmap_operations) (word32_skip : Z) (s : st) : flow :=
  let last := Z.lor (s_bip s) 31 in
  let next (s : st) :=
    advance s (Z.lor (s_start s) 31 + 1) (s_bip s + word32_skip - 32) in
  match op with
  | BM_OP_TEST => Return (b2z (test_bit_le (s_bip s) (s_addr s)))
  | BM_OP_MERGE | BM_OP_EXTRACT => Bug
  | BM_OP_RANGE_FIND_BIT | BM_OP_FIND_BIT =>
      let count := find_next_bit_le (s_addr s) (last + 1) (s_bip s) in
      if count <? last + 1 then Found s count else next (set_pos s (s_start s) (last + 1))
  | BM_OP_RANGE_FIND_ZERO_BIT | BM_OP_FIND_ZERO_BIT =>
      let count := find_next_zero_bit_le (s_addr s) (last + 1) (s_bip s) in
      if count <? last + 1 then Found s count else next (set_pos s (s_start s) (last + 1))
  | _ => next (head_bits 32 op last s)
  end.

(** The [switch] of the whole word loop. *)
Definition bm_word (op : bitmap_operations) (s : st) : flow :=
  let a := s_addr s in
  let i := Z.shiftr (s_bip s) 5 in
  let p := word a i in
  match op with
  | BM_OP_CLEAR =>
      Fall (mk_st (s_start s) (s_bip s) (s_count s + hweight32 p) (s_total s)
              (set_word a i 0) (s_in s) (s_out s))
  | BM_OP_SET =>
      Fall (mk_st (s_start s) (s_bip s) (s_count s + hweight32 (lnot_w 32 p)) (s_total s)
              (set_word a i U32_MAX) (s_in s) (s_out s))
  | BM_OP_TEST => Bug
  | BM_OP_COUNT =>
      Fall (mk_st (s_start s) (s_bip s) (s_count s) (s_total s + hweight32 p) a (s_in s) (s_out s))
  | BM_OP_MERGE =>
      match s_in s with
      | [] => Bug
      | b :: rest =>
          Fall (mk_st (s_start s) (s_bip s) (s_count s + hweight32 (Z.land (lnot_w 32 p) b))
                  (s_total s) (set_word a i (Z.lor p b)) rest (s_out s))
      end
  | BM_OP_EXTRACT =>
      Fall (mk_st (s_start s) (s_bip s) (s_count s) (s_total s) a (s_in s) (s_out s ++ [p]))
  | BM_OP_RANGE_FIND_BIT | BM_OP_FIND_BIT =>
      let count := find_next_bit_le a (s_bip s + 32) (s_bip s) in
      if count <? s_bip s + 32 then Found s count else Fall s
  | BM_OP_RANGE_FIND_ZERO_BIT | BM_OP_FIND_ZERO_BIT =>
      let count := find_next_zero_bit_le a (s_bip s + 32) (s_bip s) in
      if count <? s_bip s + 32 then Found s count else Fall s
  end.

(** [while (start + 31 <= end) { ... }]: a page has 1024 words. *)
Fixpoint bm_body (fuel : nat) (op : bitmap_operations) (word32_skip end_ : Z) (s : st) : flow :=
  match fuel with
  | O => Bug
  | S fuel =>
      if s_start s + 31 <=? end_ then
        match bm_word op s with
        | Fall s =>
            match advance s (s_start s + 32) (s_bip s + word32_skip) with
            | Fall s => bm_body fuel op word32_skip end_ s
            | f => f
            end
        | f => f
        end
      else Fall s
  end.

(** The unaligned tail of the range; it always reaches [next_page]. *)
Definition bm_tail (op : bitmap_operations) (end_ : Z) (s : st) : flow :=
  let a := s_addr s in
  let i := Z.shiftr (s_bip s) 5 in
  let p := word a i in
  let mask := u32 (Z.shiftl 1 (end_ - s_start s + 1) - 1) in
  let last := s_bip s + (end_ - s_start s) in
  match op with
  | BM_OP_MERGE =>
      match s_in s with
      | [] => Bug
      | b :: rest =>
          let b := Z.land b mask in
          Next_page (mk_st (end_ + 1) (s_bip s) (s_count s + hweight32 (Z.land (lnot_w 32 p) b))
                       (s_total s) (set_word a i (Z.lor p b)) rest (s_out s))
      end
  | BM_OP_EXTRACT =>
      Next_page (mk_st (end_ + 1) (s_bip s) (s_count s) (s_total s) a (s_in s)
                   (s_out s ++ [Z.land p mask]))
  | BM_OP_RANGE_FIND_BIT | BM_OP_FIND_BIT =>
      let count := find_next_bit_le a (last + 1) (s_bip s) in
      if count <? last + 1 then Found s count else Next_page (set_pos s (end_ + 1) (s_bip s))
  | BM_OP_RANGE_FIND_ZERO_BIT | BM_OP_FIND_ZERO_BIT =>
      let count := find_next_zero_bit_le a (last + 1) (s_bip s) in
      if count <? last + 1 then Found s count else Next_page (set_pos s (end_ + 1) (s_bip s))
  | _ => Next_page (tail_bits 32 op end_ s)
  end.

(** The body of the page loop up to the label [next_page]. *)
Definition bm_page (op : bitmap_operations) (word32_skip end_ : Z) (s : st) : flow :=
  let head :=
    (negb (Z.land (s_start s) 31 =? 0) && (Z.lor (s_start s) 31 <=? end_))
    || bool_decide (op = BM_OP_TEST) in
  match (if head then bm_head op word32_skip s else Fall s) with
  | Fall s =>
      match bm_body 1025 op word32_skip end_ s with
      | Fall s => if end_ <? s_start s then Next_page s else bm_tail op end_ s
      | f => f
      end
  | f => f
  end.

(** What happens at [next_page]: flag the page, add up the count. *)
Definition page_done (op : bitmap_operations) (p : page) (s : st) : page * st :=
  let p := mk_page (s_addr s) (p_need_writeout p) (p_lazy_writeout p) in
  let bip := u32 (s_bip s - BITS_PER_PAGE) in
  let s' := mk_st (s_start s) bip 0 (s_total s) [] (s_in s) (s_out s) in
  let s_add := mk_st (s_start s) bip 0 (s_total s + s_count s) [] (s_in s) (s_out s) in
  match op with
  | BM_OP_CLEAR =>
      if s_count s =? 0 then (p, s') else (bm_set_page_lazy_writeout p, s_add)
  | BM_OP_SET | BM_OP_MERGE =>
      if s_count s =? 0 then (p, s') else (bm_set_page_need_writeout p, s_add)
  | _ => (p, s')
  end.

(** The result of [____bm_op]: the returned value, the bitmap, and the words
    stored through [buffer]. *)
Definition op_result : Type := Z * bsr_bitmap * list Z.

(** The [switch] after the loop. *)
Definition bm_finish (op : bitmap_operations) (bm : bsr_bitmap) (bitmap_index real_end : Z) (s : st)
  : op_result :=
  let total := s_total s in
  match op with
  | BM_OP_CLEAR =>
      (total, if total =? 0 then bm
              else set_bm_set bm (alter (fun n => u64 (n - total)) (Z.to_nat bitmap_index) (bm_set bm)),
       s_out s)
  | BM_OP_SET | BM_OP_MERGE =>
      (total, if total =? 0 then bm
              else set_bm_set bm (alter (fun n => u64 (n + total)) (Z.to_nat bitmap_index) (bm_set bm)),
       s_out s)
  | BM_OP_RANGE_FIND_ZERO_BIT | BM_OP_RANGE_FIND_BIT => (real_end, bm, s_out s)
  | BM_OP_FIND_BIT | BM_OP_FIND_ZERO_BIT => (BSR_END_OF_BITMAP, bm, s_out s)
  | _ => (total, bm, s_out s)
  end.

(** [for (; start <= end; page++)]; every page of the bitmap is visited at
    most once. *)
Fixpoint bm_pages_loop (fuel : nat) (op : bitmap_operations) (bitmap_index word32_skip end_ real_end : Z)
    (pg : Z) (bm : bsr_bitmap) (s : st) : option op_result :=
  match fuel with
  | O => None
  | S fuel =>
      if s_start s <=? end_ then
        p ← bm_pages bm !! Z.to_nat pg;
        match bm_page op word32_skip end_
                (mk_st (s_start s) (s_bip s) 0 (s_total s) (p_words p) (s_in s) (s_out s)) with
        | Next_page s =>
            let (p, s) := page_done op p s in
            bm_pages_loop fuel op bitmap_index word32_skip end_ real_end (pg + 1)
              (set_pages bm (<[Z.to_nat pg := p]> (bm_pages bm))) s
        | Found s count => Some (s_start s + count - s_bip s, bm, s_out s)
        | Return r => Some (r, bm, s_out s)
        | _ => None
        end
      else Some (bm_finish op bm bitmap_index real_end s)
  end.

Definition ____bm_op (bm : bsr_bitmap) (bitmap_index start end_ : Z) (op : bitmap_operations)
    (buffer : list Z) : option op_result :=
  let word32_skip := u32 (32 * bm_max_peers bm) in
  let real_end := match op with
                  | BM_OP_RANGE_FIND_BIT | BM_OP_RANGE_FIND_ZERO_BIT => u64 (end_ + 1)
                  | _ => 0
                  end in
  let end_ := if bm_bits bm <=? end_ then u64 (bm_bits bm - 1) else end_ in
  let w := interleaved_word32 bm bitmap_index start in
  let pg := word32_to_page w in
  let bip := Z.lor (Z.shiftl (word32_in_page w) 5) (Z.land start 31) in
  bm_pages_loop (S (S (length (bm_pages bm)))) op bitmap_index word32_skip end_ real_end pg bm
    (mk_st start bip 0 0 [] buffer []).

(** ** Correctness of [____bm_op] *)

(** *** The bitmap as a set of bits *)

(** Word [i] of the bitmap, over all pages. *)
Definition flat (ps : list page) (i : Z) : Z :=
  word (p_words (nth (Z.to_nat (i / 1024)) ps (mk_page [] false false))) (i mod 1024).

(** Bit [b] of slot [p] when the bitmap has [peers] slots. *)
Definition get_bit (ps : list page) (peers p b : Z) : bool :=
  Z.testbit (flat ps (b / 32 * peers + p)) (b mod 32).

Definition bm_bit (bm : bsr_bitmap) (p b : Z) : bool := get_bit (bm_pages bm) (bm_max_peers bm) p b.

Definition words_ok (a : list Z) : Prop := length a = 1024%nat /\ Forall (in_u 32) a.
Definition pages_ok (ps : list page) : Prop := Forall (fun p => words_ok (p_words p)) ps.

(** The bitmap invariant: at most 32 slots, a size without overflow, full
    pages, and enough of them for all bits of all slots. *)
Record wf (bm : bsr_bitmap) : Prop := mk_wf {
  wf_peers : 1 <= bm_max_peers bm <= BSR_PEERS_MAX;
  wf_bits : 1 <= bm_bits bm <= 2 ^ 50;
  wf_pages : pages_ok (bm_pages bm);
  wf_room : ((bm_bits bm - 1) / 32 + 1) * bm_max_peers bm <= 1024 * Z.of_nat (length (bm_pages bm));
  wf_set : Z.of_nat (length (bm_set bm)) = BSR_PEERS_MAX }.

(** What an operation makes of a bit (with the corresponding bit of the
    buffer), whether it counts the bit, and whether it stops there. *)
Definition after (op : bitmap_operations) (old inp : bool) : bool :=
  match op with
  | BM_OP_CLEAR => false
  | BM_OP_SET => true
  | BM_OP_MERGE => old || inp
  | _ => old
  end.

Definition tally (op : bitmap_operations) (old inp : bool) : bool :=
  match op with
  | BM_OP_CLEAR | BM_OP_COUNT => old
  | BM_OP_SET => negb old
  | BM_OP_MERGE => inp && negb old
  | _ => false
  end.

Definition hit (op : bitmap_operations) (old : bool) : bool :=
  match op with
  | BM_OP_FIND_BIT | BM_OP_RANGE_FIND_BIT => old
  | BM_OP_FIND_ZERO_BIT | BM_OP_RANGE_FIND_ZERO_BIT => negb old
  | _ => false
  end.

(** The operations that change the bitmap. *)
Definition writes (op : bitmap_operations) : bool :=
  match op with BM_OP_CLEAR | BM_OP_SET | BM_OP_MERGE => true | _ => false end.

(** *** Words of a page *)

Lemma word_in_u a i : words_ok a -> in_u 32 (word a i).
Proof.
  intros [_ Ha]. unfold word. rewrite nth_lookup.
  destruct (a !! Z.to_nat i) as [w|] eqn:E; simpl; [by eapply Forall_lookup_1 in Ha|split; lia].
Qed.

Lemma word_set_word a i w j :
  words_ok a -> 0 <= i < 1024 -> 0 <= j ->
  word (set_word a i w) j = if j =? i then w else word a j.
Proof.
  intros [Hl _] Hi Hj. unfold word, set_word. rewrite !nth_lookup.
  destruct (Z.eqb_spec j i) as [->|].
  - by rewrite list_lookup_insert_eq by lia.
  - by rewrite list_lookup_insert_ne by lia.
Qed.

Lemma words_ok_set_word a i w : words_ok a -> in_u 32 w -> words_ok (set_word a i w).
Proof.
  intros [Hl Ha] Hw. unfold set_word. split; [by rewrite length_insert|].
  by apply Forall_insert.
Qed.

Lemma set_word_set_word a i w w' : set_word (set_word a i w) i w' = set_word a i w'.
Proof. apply list_insert_insert_eq. Qed.

Lemma set_word_id a i : words_ok a -> 0 <= i < 1024 -> set_word a i (word a i) = a.
Proof.
  intros [Hl _] Hi. apply list_insert_id. unfold word. rewrite nth_lookup.
  by destruct (lookup_lt_is_Some_2 a (Z.to_nat i)) as [w ->]; [lia|].
Qed.

(** [w'] is [w] with bits [lo .. lo + n) processed by [op]. *)
Definition word_after (op : bitmap_operations) (inp : Z -> bool) (w w' lo n : Z) : Prop :=
  in_u 32 w' /\
  forall j, 0 <= j < 32 -> Z.testbit w' j =
    if (lo <=? j) && (j <? lo + n) then after op (Z.testbit w j) (inp (j - lo)) else Z.testbit w j.

Definition word_tally (op : bitmap_operations) (inp : Z -> bool) (w lo n : Z) : Z :=
  count_true (fun j => tally op (Z.testbit w j) (inp (j - lo))) lo (Z.to_nat n).

(** Operations that write count every change they make. *)
Lemma tally_zero_same op inp w w' lo n :
  op <> BM_OP_COUNT -> in_u 32 w -> 0 <= n ->
  word_after op inp w w' lo n -> word_tally op inp w lo n = 0 -> w' = w.
Proof.
  intros Hop Hw Hn [Hw' Hj] Ht. unfold word_tally in Ht. rewrite count_true_zero in Ht.
  apply Z.bits_inj'. intros j H0. destruct (Z.ltb_spec j 32).
  - rewrite Hj by lia. destruct (Z.leb_spec lo j), (Z.ltb_spec j (lo + n)); simpl; try done.
    specialize (Ht j ltac:(lia)). destruct op, (Z.testbit w j); simpl in *; try done.
    by rewrite andb_true_r in Ht.
  - by rewrite !(testbit_in_u 32) by (done || lia).
Qed.

(** [BM_OP_COUNT] adds to [total] at once, the writing operations to [count]. *)
Definition to_count (op : bitmap_operations) (t : Z) : Z :=
  match op with BM_OP_COUNT => 0 | _ => t end.
Definition to_total (op : bitmap_operations) (t : Z) : Z :=
  match op with BM_OP_COUNT => t | _ => 0 end.

(** The state after the bits [bip .. bip + n) of one word were processed. *)
Definition stepped (op : bitmap_operations) (s : st) (start bip w' t : Z) (i o : list Z) : st :=
  mk_st start bip (s_count s + to_count op t) (s_total s + to_total op t)
    (set_word (s_addr s) (s_bip s / 32) w') i o.

Definition bitwise_op (op : bitmap_operations) : Prop :=
  op = BM_OP_CLEAR \/ op = BM_OP_SET \/ op = BM_OP_COUNT.

Lemma in_u_setbit w j : in_u 32 w -> 0 <= j < 32 -> in_u 32 (Z.setbit w j).
Proof.
  intros Hw Hj. apply in_u_of_testbit; [lia| |].
  - rewrite Z.setbit_spec'. apply Z.lor_nonneg. destruct Hw. split; [lia|apply Z.pow_nonneg; lia].
  - intros i Hi. rewrite Z.setbit_neq, (testbit_in_u 32 w) by (done || lia). done.
Qed.

Lemma in_u_clearbit w j : in_u 32 w -> 0 <= j < 32 -> in_u 32 (Z.clearbit w j).
Proof.
  intros Hw Hj. apply in_u_of_testbit; [lia| |].
  - rewrite Z.clearbit_spec'. apply Z.ldiff_nonneg. destruct Hw. lia.
  - intros i Hi. by rewrite Z.clearbit_neq, (testbit_in_u 32 w) by (done || lia).
Qed.

Lemma bit_op_word op s :
  bitwise_op op -> words_ok (s_addr s) -> 0 <= s_bip s < BITS_PER_PAGE ->
  let w := word (s_addr s) (s_bip s / 32) in
  exists w', word_after op (fun _ => false) w w' (s_bip s mod 32) 1 /\
    bit_op op s = stepped op s (s_start s) (s_bip s) w'
                    (b2z (tally op (Z.testbit w (s_bip s mod 32)) false)) (s_in s) (s_out s).
Proof.
  intros Hop Ha Hb w. change BITS_PER_PAGE with 32768 in Hb.
  assert (0 <= s_bip s / 32 < 1024) as Hi.
  { split; [apply Z.div_pos; lia|apply Z.div_lt_upper_bound; lia]. }
  pose proof (Z.mod_pos_bound (s_bip s) 32 ltac:(lia)) as Hm.
  assert (in_u 32 w) as Hw by by apply word_in_u.
  destruct Hop as [-> | [-> | ->]]; unfold bit_op, stepped, to_count, to_total; simpl tally.
  - exists (Z.clearbit w (s_bip s mod 32)). split; [split; [by apply in_u_clearbit|]|].
    + intros j Hj. rewrite Z.clearbit_eqb. simpl.
      split_cmp; simpl; by rewrite ?andb_true_r, ?andb_false_r.
    + by rewrite Z.add_0_r.
  - exists (Z.setbit w (s_bip s mod 32)). split; [split; [by apply in_u_setbit|]|].
    + intros j Hj. rewrite Z.setbit_eqb by lia. simpl. split_cmp; simpl; done.
    + by rewrite Z.add_0_r.
  - exists w. split; [split; [done|]|].
    + intros j Hj. simpl. by destruct (_ && _).
    + subst w. by rewrite set_word_id, Z.add_0_r by done.
Qed.

(** [n] iterations of the bit loops. *)
Fixpoint iter_bits (n : nat) (op : bitmap_operations) (s : st) : st :=
  match n with
  | O => s
  | S n => iter_bits n op (set_pos (bit_op op s) (s_start s) (s_bip s + 1))
  end.

Lemma word_after_cons op w w1 w' lo n :
  0 <= n -> word_after op (fun _ => false) w w1 lo 1 ->
  word_after op (fun _ => false) w1 w' (lo + 1) n ->
  word_after op (fun _ => false) w w' lo (1 + n).
Proof.
  intros Hn [Hw1 H1] [Hw' H']. split; [done|]. intros j Hj.
  rewrite H', H1 by done. split_cmp; simpl; done.
Qed.

Lemma stepped_stepped op s start1 bip1 w1 t1 i1 o1 start2 bip2 w2 t2 i2 o2 :
  bip1 / 32 = s_bip s / 32 ->
  stepped op (stepped op s start1 bip1 w1 t1 i1 o1) start2 bip2 w2 t2 i2 o2
  = stepped op s start2 bip2 w2 (t1 + t2) i2 o2.
Proof.
  intros Hd. unfold stepped. cbn [s_count s_total s_addr s_bip]. rewrite Hd, set_word_set_word.
  f_equal; destruct op; simpl; lia.
Qed.

Lemma word_tally_S op w lo n :
  word_tally op (fun _ => false) w lo (Z.of_nat (S n)) =
  b2z (tally op (Z.testbit w lo) false) + word_tally op (fun _ => false) w (lo + 1) (Z.of_nat n).
Proof. unfold word_tally. by rewrite !Nat2Z.id. Qed.

Lemma word_tally_ext op inp w w' lo n :
  (forall j, lo <= j < lo + Z.of_nat n -> Z.testbit w j = Z.testbit w' j) ->
  word_tally op inp w lo (Z.of_nat n) = word_tally op inp w' lo (Z.of_nat n).
Proof.
  intros H. unfold word_tally. rewrite Nat2Z.id. apply count_true_ext. intros j Hj. by rewrite H.
Qed.

Lemma iter_bits_spec n op s :
  bitwise_op op -> words_ok (s_addr s) -> 0 <= s_bip s -> (s_bip s) mod 32 + Z.of_nat n <= 32 ->
  s_bip s / 32 < 1024 ->
  let w := word (s_addr s) (s_bip s / 32) in
  exists w', word_after op (fun _ => false) w w' (s_bip s mod 32) (Z.of_nat n) /\
    iter_bits n op s = stepped op s (s_start s) (s_bip s + Z.of_nat n) w'
      (word_tally op (fun _ => false) w (s_bip s mod 32) (Z.of_nat n)) (s_in s) (s_out s).
Proof.
  intros Hop. revert s. induction n as [|n IH]; intros s Ha Hb Hn Hi w.
  - exists w. split; [split; [by apply word_in_u|]|].
    + intros j Hj. by split_cmp.
    + unfold stepped, word_tally. simpl. subst w.
      assert (0 <= s_bip s / 32) by (apply Z.div_pos; lia).
      rewrite set_word_id by (done || lia).
      destruct s; destruct op; simpl; by rewrite !Z.add_0_r.
  - pose proof (Z.div_mod (s_bip s) 32 ltac:(lia)) as Hdm.
    pose proof (Z.mod_pos_bound (s_bip s) 32 ltac:(lia)) as Hm.
    destruct (bit_op_word op s Hop Ha) as (w1 & Hw1 & E1); [change BITS_PER_PAGE with 32768; lia|].
    fold w in Hw1, E1. cbn [iter_bits]. rewrite E1.
    set (t1 := b2z _) in *.
    assert (set_pos (stepped op s (s_start s) (s_bip s) w1 t1 (s_in s) (s_out s)) (s_start s) (s_bip s + 1)
            = stepped op s (s_start s) (s_bip s + 1) w1 t1 (s_in s) (s_out s)) as -> by done.
    destruct n as [|n].
    { exists w1. split; [done|]. cbn [iter_bits]. unfold word_tally. simpl. by rewrite Z.add_0_r. }
    assert ((s_bip s + 1) / 32 = s_bip s / 32 /\ (s_bip s + 1) mod 32 = s_bip s mod 32 + 1) as [Hd' Hm'].
    { split; [symmetry; apply (Z.div_unique _ _ _ (s_bip s mod 32 + 1)); lia|].
      symmetry; apply (Z.mod_unique _ _ (s_bip s / 32)); lia. }
    destruct (IH (stepped op s (s_start s) (s_bip s + 1) w1 t1 (s_in s) (s_out s)))
      as (w' & Hw' & E'); cbn [stepped s_addr s_bip s_start s_in s_out] in *;
      [apply words_ok_set_word; [done|apply Hw1]|lia..|].
    rewrite Hd', Hm', word_set_word, Z.eqb_refl in * by (done || lia).
    exists w'. split.
    { replace (Z.of_nat (S (S n))) with (1 + Z.of_nat (S n)) by lia. by apply (word_after_cons _ _ w1); [lia|..]. }
    change (mk_st _ _ _ _ _ _ _) with (stepped op s (s_start s) (s_bip s + 1) w1 t1 (s_in s) (s_out s)).
    rewrite E'. 
    change (mk_st _ _ _ _ _ _ _) with (stepped op s (s_start s) (s_bip s + 1) w1 t1 (s_in s) (s_out s)).
    rewrite stepped_stepped by done. f_equal; [lia|].
    rewrite (word_tally_S op w). subst t1. f_equal. apply word_tally_ext. intros j Hj.
    destruct Hw1 as [_ Hw1]. rewrite Hw1 by lia. by split_cmp.
Qed.

Lemma bit_op_pos op s : s_start (bit_op op s) = s_start s /\ s_bip (bit_op op s) = s_bip s.
Proof. by destruct op. Qed.

Lemma head_bits_iter fuel op last s :
  1 <= last - s_bip s + 1 <= Z.of_nat fuel ->
  head_bits fuel op last s = iter_bits (Z.to_nat (last - s_bip s + 1)) op s.
Proof.
  revert s. induction fuel as [|fuel IH]; intros s Hf; [lia|].
  replace (Z.to_nat (last - s_bip s + 1)) with (S (Z.to_nat (last - s_bip s))) by lia.
  cbn [head_bits iter_bits]. destruct (bit_op_pos op s) as [-> ->].
  set (s1 := set_pos _ _ _). assert (s_bip s1 = s_bip s + 1) as Hb by done.
  destruct (Z.leb_spec (s_bip s1) last).
  - rewrite IH by lia. f_equal. lia.
  - by replace (Z.to_nat (last - s_bip s)) with 0%nat by lia.
Qed.

Lemma iter_bits_start n op s x :
  iter_bits n op (set_pos s x (s_bip s)) =
  set_pos (iter_bits n op s) x (s_bip (iter_bits n op s)).
Proof.
  revert s. induction n as [|n IH]; intros s; cbn [iter_bits]; [done|].
  destruct (bit_op_pos op s) as [_ Hb].
  rewrite <- IH. f_equal. by destruct op.
Qed.

Lemma tail_bits_iter fuel op end_ s :
  0 <= end_ - s_start s + 1 <= Z.of_nat fuel ->
  let s' := iter_bits (Z.to_nat (end_ - s_start s + 1)) op s in
  tail_bits fuel op end_ s = set_pos s' (end_ + 1) (s_bip s').
Proof.
  revert s. induction fuel as [|fuel IH]; intros s Hf; cbn [tail_bits].
  - replace (Z.to_nat (end_ - s_start s + 1)) with 0%nat by lia. simpl.
    destruct s as [start]; unfold set_pos; simpl in *. f_equal. lia.
  - destruct (Z.leb_spec (s_start s) end_).
    + replace (Z.to_nat (end_ - s_start s + 1)) with (S (Z.to_nat (end_ - (s_start s + 1) + 1))) by lia.
      cbn [iter_bits]. destruct (bit_op_pos op s) as [-> ->].
      rewrite IH by (simpl; lia). simpl.
      set (s1 := set_pos (bit_op op s) (s_start s) (s_bip s + 1)).
      assert (set_pos (bit_op op s) (s_start s + 1) (s_bip s + 1) = set_pos s1 (s_start s + 1) (s_bip s1)) as -> by done.
      rewrite iter_bits_start. done.
    + replace (Z.to_nat (end_ - s_start s + 1)) with 0%nat by lia. simpl.
      destruct s as [start]; unfold set_pos; simpl in *. f_equal. lia.
Qed.

(** *** Searching within a word *)
Lemma find_next_le_spec n v addr off :
  let r := find_next_le n v addr off in
  off <= r <= off + Z.of_nat n /\
  (forall k, off <= k < r -> test_bit_le k addr = negb v) /\
  (r < off + Z.of_nat n -> test_bit_le r addr = v).
Proof.
  revert off. induction n as [|n IH]; intros off; cbn [find_next_le].
  - split_and!; [lia..|intros; lia|lia].
  - destruct (Bool.eqb_spec (test_bit_le off addr) v) as [E|E].
    + split_and!; [lia..|intros; lia|done].
    + destruct (IH (off + 1)) as ([H1 H2] & Hk & Hr). split_and!; [lia..| |intros; apply Hr; lia].
      intros k Hk'. destruct (decide (k = off)) as [->|]; [|apply Hk; lia].
      by destruct (test_bit_le off addr), v.
Qed.

Lemma lor_ones k x : 0 <= k -> Z.lor x (Z.ones k) = 2 ^ k * (x / 2 ^ k) + Z.ones k.
Proof.
  intros Hk. assert (Z.lor x (Z.ones k) = Z.lor (Z.ones k) (Z.shiftl (x / 2 ^ k) k)) as ->.
  { apply Z.bits_inj'. intros i Hi. rewrite <- (Z.shiftr_div_pow2 x k) by lia.
    autorewrite with bits; [|lia..]. split_cmp; simpl; rewrite ?orb_true_r; try done; try lia.
    rewrite orb_false_r. f_equal. lia. }
  rewrite <- add_shiftl_lor; [lia|done|]. pose proof (Z.pow_pos_nonneg 2 k ltac:(done) Hk). rewrite Z.ones_equiv. unfold in_u. lia.
Qed.

Lemma lor_31 x : Z.lor x 31 = x - x mod 32 + 31.
Proof. change 31 with (Z.ones 5). rewrite lor_ones by done. pose proof (Z.div_mod x 32 ltac:(done)). change (2 ^ 5) with 32. lia. Qed.

Lemma land_31 x : Z.land x 31 = x mod 32.
Proof. change 31 with (Z.ones 5). by rewrite Z.land_ones by lia. Qed.

Lemma word_bitwise op f g w w' lo n :
  bitwise_op op -> word_after op f w w' lo n ->
  word_after op g w w' lo n /\ word_tally op f w lo n = word_tally op g w lo n.
Proof. by intros [-> | [-> | ->]]. Qed.

(** *** Whole words *)

#[local] Opaque hweight32.

Lemma word_tally_hweight op f w w1 n :
  0 <= n <= 32 -> in_u 32 w1 ->
  (forall j, 0 <= j < 32 -> Z.testbit w1 j = (j <? n) && tally op (Z.testbit w j) (f j)) ->
  word_tally op f w 0 n = hweight32 w1.
Proof.
  intros Hn Hw1 Hj. rewrite hweight32_count by done. unfold word_tally.
  replace 32%nat with (Z.to_nat n + Z.to_nat (32 - n))%nat by lia.
  rewrite count_true_app.
  rewrite (proj2 (count_true_zero (Z.testbit w1) _ (Z.to_nat (32 - n)))), Z.add_0_r.
  - apply count_true_ext. intros i Hi. rewrite Hj, Z.sub_0_r by lia. by split_cmp.
  - intros i Hi. rewrite Hj by lia. by split_cmp.
Qed.

Lemma word_clear f w :
  in_u 32 w -> word_after BM_OP_CLEAR f w 0 0 32 /\ word_tally BM_OP_CLEAR f w 0 32 = hweight32 w.
Proof.
  intros Hw. split; [split; [split; lia|]|].
  - intros j Hj. rewrite Z.bits_0. by split_cmp.
  - apply word_tally_hweight; [lia|done|]. intros j Hj. by split_cmp.
Qed.

Lemma in_u_lnot w : in_u 32 w -> in_u 32 (lnot_w 32 w).
Proof.
  intros Hw. apply in_u_of_testbit; [lia| |].
  - apply Z.lxor_nonneg. destruct Hw. split; [intros _; done|lia].
  - intros i Hi. rewrite testbit_lnot_w by (done || lia). by split_cmp.
Qed.

Lemma word_set f w :
  in_u 32 w ->
  word_after BM_OP_SET f w U32_MAX 0 32 /\ word_tally BM_OP_SET f w 0 32 = hweight32 (lnot_w 32 w).
Proof.
  intros Hw. split; [split; [split; [done|unfold U32_MAX; lia]|]|].
  - intros j Hj. change U32_MAX with (Z.ones 32). rewrite testbit_ones by lia. by split_cmp.
  - apply word_tally_hweight; [lia|by apply in_u_lnot|].
    intros j Hj. rewrite testbit_lnot_w by (done || lia). by split_cmp.
Qed.

Lemma word_count f w :
  in_u 32 w -> word_after BM_OP_COUNT f w w 0 32 /\ word_tally BM_OP_COUNT f w 0 32 = hweight32 w.
Proof.
  intros Hw. split; [split; [done|]|].
  - intros j Hj. by destruct (_ && _).
  - apply word_tally_hweight; [lia|done|]. intros j Hj. by split_cmp.
Qed.

Lemma word_merge f w b n :
  in_u 32 w -> in_u 32 b -> 1 <= n <= 32 ->
  (forall j, 0 <= j < 32 -> Z.testbit b j = (j <? n) && f j) ->
  word_after BM_OP_MERGE f w (Z.lor w b) 0 n /\
  word_tally BM_OP_MERGE f w 0 n = hweight32 (Z.land (lnot_w 32 w) b).
Proof.
  intros Hw Hb Hn Hf. split; [split|].
  - apply in_u_of_testbit; [lia|apply Z.lor_nonneg; split; [apply Hw|apply Hb]|].
    intros i Hi. by rewrite Z.lor_spec, !(testbit_in_u 32) by (done || lia).
  - intros j Hj. rewrite Z.lor_spec, Hf, Z.sub_0_r by lia. split_cmp; simpl; [done|apply orb_false_r].
  - apply word_tally_hweight; [lia| |].
    + apply in_u_of_testbit; [lia|apply Z.land_nonneg; right; apply Hb|].
      intros i Hi. rewrite Z.land_spec, (testbit_in_u 32 b) by (done || lia). apply andb_false_r.
    + intros j Hj. rewrite Z.land_spec, testbit_lnot_w, Hf by (done || lia). simpl.
      split_cmp; simpl; rewrite ?andb_false_r; [apply andb_comm|done].
Qed.

Lemma word_extract f w n :
  in_u 32 w -> word_after BM_OP_EXTRACT f w w 0 n /\ word_tally BM_OP_EXTRACT f w 0 n = 0.
Proof.
  intros Hw. split; [split; [done|]|].
  - intros j Hj. by destruct (_ && _).
  - by apply count_true_zero.
Qed.

(** *** The loop invariant *)

Section Loop.
Context (op : bitmap_operations) (peers idx start0 E : Z) (input : list Z) (ps0 : list page).

Hypothesis Hpeers : 1 <= peers <= 32.
Hypothesis Hidx : 0 <= idx < peers.
Hypothesis Hstart0 : 0 <= start0.
Hypothesis HE : E < 2 ^ 50.
Hypothesis Hop : op <> BM_OP_TEST.
Hypothesis Haligned : op = BM_OP_MERGE \/ op = BM_OP_EXTRACT -> start0 mod 32 = 0.
Hypothesis Hinput : Forall (in_u 32) input.
Hypothesis Hroom_in : op = BM_OP_MERGE -> E - start0 < 32 * Z.of_nat (length input).

(** The bits of the slot before the operation, and those of the buffer. *)
Definition old (b : Z) : bool := get_bit ps0 peers idx b.
Definition inp (j : Z) : bool :=
  match op with
  | BM_OP_MERGE => Z.testbit (nth (Z.to_nat (j / 32)) input 0) (j mod 32)
  | _ => false
  end.

(** Bit [b] of slot [p] when the bits from [start0] to [x - 1] are done. *)
Definition upto (x p b : Z) : bool :=
  if (p =? idx) && (start0 <=? b) && (b <? x) then after op (old b) (inp (b - start0))
  else get_bit ps0 peers p b.

(** The position of bit [b] in the sequence of all pages. *)
Definition place (b : Z) : Z := 32 * (b / 32 * peers + idx) + b mod 32.

Section Page.
Context (ps : list page) (pg : Z) (a0 : list Z).

Hypothesis Hps : pages_ok ps.
Hypothesis Hpg : 0 <= pg < Z.of_nat (length ps).
Hypothesis Ha0 : words_ok a0.

(** The pages, with [addr] mapped at [pg]. *)
Definition view (addr : list Z) : list page := <[Z.to_nat pg := mk_page addr false false]> ps.

Record inv (s : st) : Prop := mk_inv {
  i_start : start0 <= s_start s <= E + 1;
  i_addr : words_ok (s_addr s);
  i_bits : forall p b, 0 <= p < peers -> 0 <= b ->
    get_bit (view (s_addr s)) peers p b = upto (s_start s) p b;
  i_tally : s_total s + s_count s =
    count_true (fun b => tally op (old b) (inp (b - start0))) start0 (Z.to_nat (s_start s - start0));
  i_count : 0 <= s_count s /\ (s_count s = 0 -> s_addr s = a0);
  i_ro : writes op = false -> s_count s = 0;
  i_find : forall b, start0 <= b < s_start s -> hit op (old b) = false;
  i_in : op = BM_OP_MERGE -> s_in s = drop (Z.to_nat ((s_start s - start0 + 31) / 32)) input;
  i_out : match op with
          | BM_OP_EXTRACT => Z.of_nat (length (s_out s)) = (s_start s - start0 + 31) / 32 /\
              Forall (in_u 32) (s_out s) /\
              forall j, 0 <= j -> Z.testbit (nth (Z.to_nat (j / 32)) (s_out s) 0) (j mod 32)
                = (j <? s_start s - start0) && old (start0 + j)
          | _ => s_out s = []
          end }.

Lemma flat_view addr i :
  0 <= i -> flat (view addr) i = if i / 1024 =? pg then word addr (i mod 1024) else flat ps i.
Proof.
  intros Hi. assert (0 <= i / 1024) by (apply Z.div_pos; lia).
  unfold flat, view. rewrite !nth_lookup.
  destruct (Z.eqb_spec (i / 1024) pg) as [->|].
  - by rewrite list_lookup_insert_eq by lia.
  - by rewrite list_lookup_insert_ne by lia.
Qed.

(** Different slots and different words of a slot do not share words. *)
Lemma same_word p b x :
  0 <= p < peers -> b / 32 * peers + p = x / 32 * peers + idx -> p = idx /\ b / 32 = x / 32.
Proof. intros Hp He. assert (b / 32 = x / 32) by nia. split; [nia|done]. Qed.

(** The word that holds the bit at the cursor. *)
Lemma cursor_word s :
  pg * BITS_PER_PAGE + s_bip s = place (s_start s) -> 0 <= s_bip s < BITS_PER_PAGE ->
  let wi := s_start s / 32 * peers + idx in
  wi / 1024 = pg /\ wi mod 1024 = s_bip s / 32 /\ s_bip s mod 32 = s_start s mod 32.
Proof.
  intros Hp Hb wi. unfold place in Hp. change BITS_PER_PAGE with 32768 in Hp, Hb.
  pose proof (Z.mod_pos_bound (s_start s) 32 ltac:(lia)).
  pose proof (Z.div_mod (s_bip s) 32 ltac:(lia)). pose proof (Z.mod_pos_bound (s_bip s) 32 ltac:(lia)).
  assert (wi = 1024 * pg + s_bip s / 32 /\ s_bip s mod 32 = s_start s mod 32) as [Hwi Hm] by (subst wi; lia).
  split_and!; [symmetry; apply (Z.div_unique _ _ _ (s_bip s / 32)); lia| |done].
  symmetry. apply (Z.mod_unique _ _ pg); lia.
Qed.

(** The bits of the word at the cursor from the cursor on are still the old
    ones. *)
Lemma cursor_old s j :
  inv s -> pg * BITS_PER_PAGE + s_bip s = place (s_start s) -> 0 <= s_bip s < BITS_PER_PAGE ->
  s_start s mod 32 <= j < 32 ->
  Z.testbit (word (s_addr s) (s_bip s / 32)) j = old (s_start s + (j - s_start s mod 32)).
Proof.
  intros Hinv Hplace Hbip Hj. destruct (cursor_word s Hplace Hbip) as (Hwpg & Hwm & _).
  destruct Hinv as [Hst _ Hbits _ _ _ _ _ _]. set (x := s_start s) in *.
  pose proof (Z.mod_pos_bound x 32 ltac:(lia)). pose proof (Z.div_mod x 32 ltac:(lia)).
  assert (0 <= x / 32) by (apply Z.div_pos; lia).
  specialize (Hbits idx (x + (j - x mod 32)) Hidx ltac:(lia)).
  assert ((x + (j - x mod 32)) / 32 = x / 32 /\ (x + (j - x mod 32)) mod 32 = j) as [Hd Hm].
  { split; symmetry; [apply (Z.div_unique _ _ _ j)|apply (Z.mod_unique _ _ (x / 32))]; lia. }
  unfold get_bit in Hbits. rewrite Hd, Hm, flat_view, Hwpg, Z.eqb_refl, Hwm in Hbits by nia.
  rewrite Hbits. unfold upto. by split_cmp.
Qed.

(** The bits of the pages after [n] bits at the cursor were processed. *)
Lemma step_pages s n w' :
  inv s -> pg * BITS_PER_PAGE + s_bip s = place (s_start s) -> 0 <= s_bip s < BITS_PER_PAGE ->
  1 <= n -> s_start s mod 32 + n <= 32 ->
  word_after op (fun k => inp (s_start s + k - start0)) (word (s_addr s) (s_bip s / 32)) w'
    (s_start s mod 32) n ->
  forall p b, 0 <= p < peers -> 0 <= b ->
    get_bit (view (set_word (s_addr s) (s_bip s / 32) w')) peers p b = upto (s_start s + n) p b.
Proof.
  intros Hinv Hplace Hbip Hn Hlo [_ Hw'] p b Hp Hb.
  pose proof (cursor_old s) as Hold.
  destruct (cursor_word s Hplace Hbip) as (Hwpg & Hwm & _).
  assert (0 <= s_bip s / 32 < 1024) as Hrange.
  { change BITS_PER_PAGE with 32768 in *. split; [apply Z.div_pos; lia|apply Z.div_lt_upper_bound; lia]. }
  pose proof Hinv as [Hst Had Hbits _ _ _ _ _ _]. specialize (Hbits p b Hp Hb).
  set (x := s_start s) in *.
  pose proof (Z.mod_pos_bound x 32 ltac:(lia)). pose proof (Z.div_mod x 32 ltac:(lia)).
  assert (0 <= b / 32 /\ 0 <= x / 32) as [? ?] by (split; apply Z.div_pos; lia).
  unfold get_bit in *. rewrite flat_view in * by nia.
  destruct (decide (b / 32 * peers + p = x / 32 * peers + idx)) as [Heq|Hne].
  - destruct (same_word p b x Hp Heq) as [-> Hbx]. rewrite Hbx in *.
    rewrite Hwpg, Z.eqb_refl, Hwm in *. rewrite word_set_word, Z.eqb_refl by (done || lia).
    pose proof (Z.mod_pos_bound b 32 ltac:(lia)). pose proof (Z.div_mod b 32 ltac:(lia)).
    rewrite Hw' by lia.
    destruct (Z.leb_spec (x mod 32) (b mod 32)); [destruct (Z.ltb_spec (b mod 32) (x mod 32 + n))|]; simpl.
    + rewrite Hold by (done || lia). unfold upto. rewrite Z.eqb_refl. split_cmp. simpl.
      replace (x + (b mod 32 - x mod 32)) with b by lia. done.
    + rewrite Hbits. unfold upto. by split_cmp.
    + rewrite Hbits. unfold upto. by split_cmp.
  - transitivity (upto x p b).
    + rewrite <- Hbits. destruct (Z.eqb_spec ((b / 32 * peers + p) / 1024) pg) as [Hpe|]; [|done].
      rewrite word_set_word by (done || lia || apply Z.mod_pos_bound; lia).
      destruct (Z.eqb_spec ((b / 32 * peers + p) mod 1024) (s_bip s / 32)) as [Hme|]; [|done].
      exfalso. apply Hne.
      rewrite (Z.div_mod (b / 32 * peers + p) 1024), (Z.div_mod (x / 32 * peers + idx) 1024) by lia.
      congruence.
    + unfold upto. destruct (Z.eqb_spec p idx) as [->|]; [|done]. simpl.
      destruct (Z.ltb_spec b (x + n)), (Z.ltb_spec b x); try done; try lia.
      exfalso. apply Hne. do 2 f_equal.
      assert (x / 32 <= b / 32 /\ b / 32 <= x / 32); [|lia].
      split; [apply Z.div_le_mono; lia|].
      assert (b / 32 < x / 32 + 1); [|lia]. apply Z.div_lt_upper_bound; lia.
Qed.

(** Its tally. *)
Lemma step_tally s n :
  inv s -> pg * BITS_PER_PAGE + s_bip s = place (s_start s) -> 0 <= s_bip s < BITS_PER_PAGE ->
  1 <= n -> s_start s mod 32 + n <= 32 ->
  count_true (fun b => tally op (old b) (inp (b - start0))) start0 (Z.to_nat (s_start s + n - start0)) =
  s_total s + s_count s +
  word_tally op (fun k => inp (s_start s + k - start0)) (word (s_addr s) (s_bip s / 32)) (s_start s mod 32) n.
Proof.
  intros Hinv Hplace Hbip Hn Hlo. pose proof (cursor_old s) as Hold.
  pose proof Hinv as [Hst _ _ -> _ _ _ _ _].
  replace (Z.to_nat (s_start s + n - start0))
    with (Z.to_nat (s_start s - start0) + Z.to_nat n)%nat by lia.
  rewrite count_true_app. f_equal. unfold word_tally.
  set (lo := s_start s mod 32) in *.
  pose proof (Z.mod_pos_bound (s_start s) 32 ltac:(lia)) as Hm. fold lo in Hm.
  replace (start0 + Z.of_nat (Z.to_nat (s_start s - start0))) with (lo + (s_start s - lo)) by lia.
  rewrite <- count_true_shift. apply count_true_ext. intros j Hj.
  rewrite Hold by (done || lia). fold lo. repeat (f_equal; try lia).
Qed.

(** Appending a word to the extracted ones. *)
Lemma step_out out v x n (f : Z -> bool) :
  0 <= x -> x mod 32 = 0 -> 1 <= n <= 32 ->
  Z.of_nat (length out) = (x + 31) / 32 -> Forall (in_u 32) out -> in_u 32 v ->
  (forall j, 0 <= j -> Z.testbit (nth (Z.to_nat (j / 32)) out 0) (j mod 32) = (j <? x) && f j) ->
  (forall j, 0 <= j < 32 -> Z.testbit v j = (j <? n) && f (x + j)) ->
  Z.of_nat (length (out ++ [v])) = (x + n + 31) / 32 /\ Forall (in_u 32) (out ++ [v]) /\
  forall j, 0 <= j -> Z.testbit (nth (Z.to_nat (j / 32)) (out ++ [v]) 0) (j mod 32) = (j <? x + n) && f j.
Proof.
  intros Hx Hx0 Hn Hl Hout Hv Hj Hvj.
  assert (x = 32 * Z.of_nat (length out)) as Hxl.
  { pose proof (Z.div_mod x 32 ltac:(lia)). rewrite Hl.
    rewrite <- (Z.div_unique (x + 31) 32 (x / 32) 31) by lia. lia. }
  split_and!.
  - rewrite length_app. simpl. symmetry. rewrite Nat2Z.inj_add.
    symmetry. apply (Z.div_unique _ _ _ (n - 1)); lia.
  - apply Forall_app. split; [done|]. by apply Forall_singleton.
  - intros j H0. pose proof (Z.div_mod j 32 ltac:(lia)). pose proof (Z.mod_pos_bound j 32 ltac:(lia)).
    assert (0 <= j / 32) by (apply Z.div_pos; lia).
    destruct (decide (j / 32 < Z.of_nat (length out))).
    + rewrite app_nth1 by lia. rewrite Hj by done. by split_cmp.
    + rewrite app_nth2 by lia. destruct (decide (j / 32 = Z.of_nat (length out))) as [Heq|].
      * replace (Z.to_nat (j / 32) - length out)%nat with 0%nat by lia. simpl.
        rewrite Hvj by lia. replace (x + j mod 32) with j by lia. by split_cmp.
      * rewrite nth_overflow by (simpl; lia). rewrite Z.bits_0. by split_cmp.
Qed.

(** Processing [n] bits of the word at the cursor keeps the invariant. *)
Lemma inv_step s n bip w' i o :
  inv s -> pg * BITS_PER_PAGE + s_bip s = place (s_start s) -> 0 <= s_bip s < BITS_PER_PAGE ->
  1 <= n -> s_start s mod 32 + n <= 32 -> s_start s + n <= E + 1 ->
  let w := word (s_addr s) (s_bip s / 32) in
  let f := fun k => inp (s_start s + k - start0) in
  word_after op f w w' (s_start s mod 32) n ->
  (forall j, s_start s mod 32 <= j < s_start s mod 32 + n -> hit op (Z.testbit w j) = false) ->
  (op = BM_OP_MERGE -> i = drop 1 (s_in s) /\ s_start s mod 32 = 0) ->
  match op with
  | BM_OP_EXTRACT => exists v, o = s_out s ++ [v] /\ in_u 32 v /\ s_start s mod 32 = 0 /\
      (forall j, 0 <= j < 32 -> Z.testbit v j = (j <? n) && Z.testbit w j)
  | _ => o = s_out s
  end ->
  inv (stepped op s (s_start s + n) bip w' (word_tally op f w (s_start s mod 32) n) i o).
Proof.
  intros Hinv Hplace Hbip Hn Hlo HnE w f Hw' Hhit Hi Ho.
  pose proof (cursor_old s) as Hold.
  pose proof (step_tally s n Hinv Hplace Hbip Hn Hlo) as Htally. fold w f in Htally.
  pose proof (step_pages s n w' Hinv Hplace Hbip Hn Hlo Hw') as Hpages.
  assert (0 <= s_bip s / 32 < 1024) as Hrange.
  { change BITS_PER_PAGE with 32768 in *. split; [apply Z.div_pos; lia|apply Z.div_lt_upper_bound; lia]. }
  pose proof Hinv as [Hst Had Hbits Htal [Hc0 Hc1] Hro Hfind Hin Hout].
  assert (in_u 32 w) as Hw by by apply word_in_u.
  assert (0 <= word_tally op f w (s_start s mod 32) n) as Ht0 by apply count_true_bounds.
  pose proof (Z.mod_pos_bound (s_start s) 32 ltac:(lia)) as Hm.
  unfold stepped. split; cbn [s_start s_addr s_count s_total s_in s_out].
  - lia.
  - apply words_ok_set_word; [done|apply Hw'].
  - done.
  - rewrite Htally. destruct op; simpl; lia.
  - assert (0 <= to_count op (word_tally op f w (s_start s mod 32) n)) by (destruct op; simpl; lia).
    split; [lia|]. intros H0. assert (w' = w) as ->; [|by rewrite set_word_id; [apply Hc1; lia|..]].
    destruct (decide (op = BM_OP_COUNT)) as [Hcnt|Hcnt].
    + apply Z.bits_inj'. intros j Hj. destruct Hw' as [Hwu Hwj]. destruct (Z.ltb_spec j 32).
      * rewrite Hwj, Hcnt by lia. simpl. by destruct (_ && _).
      * by rewrite !(testbit_in_u 32) by (done || lia).
    + apply (tally_zero_same op f w w' (s_start s mod 32) n); try done; [lia|].
      by destruct op; simpl in *; try done; lia.
  - intros Hr. rewrite Hro by done.
    assert (op = BM_OP_COUNT \/ word_tally op f w (s_start s mod 32) n = 0) as [-> | ->]; [|done|by destruct op].
    destruct op; try done; auto; right; by apply count_true_zero.
  - intros b Hb. destruct (decide (b < s_start s)); [apply Hfind; lia|].
    specialize (Hhit (s_start s mod 32 + (b - s_start s)) ltac:(lia)). unfold w in Hhit.
    rewrite Hold in Hhit by (done || lia). by replace (s_start s + _) with b in Hhit by lia.
  - intros Hm'. destruct (Hi Hm') as (-> & Hal). rewrite Hin, drop_drop by done.
    f_equal. pose proof (Haligned (or_introl Hm')) as H00.
    pose proof (Z.div_mod (s_start s) 32 ltac:(lia)). pose proof (Z.div_mod start0 32 ltac:(lia)).
    rewrite <- (Z.div_unique (s_start s + n - start0 + 31) 32 (s_start s / 32 - start0 / 32 + 1) (n - 1)) by lia.
    rewrite <- (Z.div_unique (s_start s - start0 + 31) 32 (s_start s / 32 - start0 / 32) 31) by lia. lia.
  - destruct op; try congruence. destruct Ho as (v & -> & Hv & Hal & Hvj), Hout as (Hl & Hf & Hj).
    assert (start0 mod 32 = 0) as H00 by (apply Haligned; by right).
    replace (s_start s + n - start0) with (s_start s - start0 + n) by lia.
    apply step_out; try done; [lia| |lia|].
    + rewrite Zminus_mod, Hal, H00. done.
    + intros j Hj'. rewrite Hvj by done. unfold w. rewrite Hold, Hal by (done || lia).
      do 2 f_equal. lia.
Qed.

(** [r] is the bit the search asks for. *)
Definition found_ok (r : Z) : Prop :=
  start0 <= r <= E /\ hit op (old r) = true /\ forall b, start0 <= b < r -> hit op (old b) = false.

(** The search part of head, body and tail: bits [bip .. bip + n) of a word. *)
Lemma search_ok s n v :
  inv s -> pg * BITS_PER_PAGE + s_bip s = place (s_start s) -> 0 <= s_bip s < BITS_PER_PAGE ->
  1 <= n -> s_start s mod 32 + n <= 32 -> s_start s + n <= E + 1 ->
  (forall b, hit op b = Bool.eqb b v) ->
  let c := find_next_le (Z.to_nat n) v (s_addr s) (s_bip s) in
  if c <? s_bip s + n then found_ok (s_start s + c - s_bip s)
  else forall j, s_start s mod 32 <= j < s_start s mod 32 + n ->
         hit op (Z.testbit (word (s_addr s) (s_bip s / 32)) j) = false.
Proof.
  intros Hinv Hplace Hbip Hn Hlo HnE Hv c.
  destruct (cursor_word s Hplace Hbip) as (_ & _ & Hbm).
  pose proof (cursor_old s) as Hold.
  destruct (find_next_le_spec (Z.to_nat n) v (s_addr s) (s_bip s)) as (Hc & Hno & Hyes). fold c in Hc, Hno, Hyes.
  pose proof Hinv as [Hst _ _ _ _ _ Hfind _ _].
  pose proof (Z.div_mod (s_bip s) 32 ltac:(lia)) as Hdb.
  pose proof (Z.mod_pos_bound (s_bip s) 32 ltac:(lia)) as Hmb.
  assert (forall k, s_bip s <= k < s_bip s + n -> test_bit_le k (s_addr s) = old (s_start s + (k - s_bip s))) as Hbit.
  { intros k Hk. unfold test_bit_le.
    assert (k / 32 = s_bip s / 32 /\ k mod 32 = s_bip s mod 32 + (k - s_bip s)) as [-> ->].
    { split; symmetry; [apply (Z.div_unique _ _ _ (s_bip s mod 32 + (k - s_bip s)))|apply (Z.mod_unique _ _ (s_bip s / 32))]; lia. }
    rewrite Hold by (done || lia). f_equal. lia. }
  destruct (Z.ltb_spec c (s_bip s + n)).
  - split_and!; [lia..| |].
    + replace (s_start s + c - s_bip s) with (s_start s + (c - s_bip s)) by lia.
      rewrite <- Hbit, Hyes, Hv by lia. apply eqb_reflx.
    + intros b Hb. destruct (decide (b < s_start s)); [apply Hfind; lia|].
      replace b with (s_start s + (s_bip s + (b - s_start s) - s_bip s)) by lia.
      rewrite <- Hbit, Hno, Hv by lia. by destruct v.
  - intros j Hj. rewrite Hold by (done || lia).
    replace (s_start s + _) with (s_start s + (s_bip s + (j - s_start s mod 32) - s_bip s)) by lia.
    rewrite <- Hbit, Hno, Hv by lia. by destruct v.
Qed.

(** A search that finds nothing in a word moves on. *)
Lemma inv_skip s n bip :
  inv s -> pg * BITS_PER_PAGE + s_bip s = place (s_start s) -> 0 <= s_bip s < BITS_PER_PAGE ->
  1 <= n -> s_start s mod 32 + n <= 32 -> s_start s + n <= E + 1 ->
  (exists b, hit op b = true) ->
  (forall j, s_start s mod 32 <= j < s_start s mod 32 + n ->
         hit op (Z.testbit (word (s_addr s) (s_bip s / 32)) j) = false) ->
  inv (set_pos s (s_start s + n) bip).
Proof.
  intros Hinv Hplace Hbip Hn Hlo HnE [b0 Hb0] Hno.
  assert (words_ok (s_addr s)) as Had by apply Hinv.
  assert (0 <= s_bip s / 32 < 1024) as Hrange.
  { change BITS_PER_PAGE with 32768 in *. split; [apply Z.div_pos; lia|apply Z.div_lt_upper_bound; lia]. }
  set (w := word (s_addr s) (s_bip s / 32)) in *. set (f := fun k => inp (s_start s + k - start0)).
  assert (word_tally op f w (s_start s mod 32) n = 0) as Ht.
  { apply count_true_zero. intros i Hi. by destruct op, b0. }
  assert (set_pos s (s_start s + n) bip
          = stepped op s (s_start s + n) bip w (word_tally op f w (s_start s mod 32) n) (s_in s) (s_out s)) as ->.
  { rewrite Ht. unfold stepped, set_pos. subst w. rewrite set_word_id by done.
    by destruct op; simpl; rewrite !Z.add_0_r. }
  apply inv_step; try done.
  - split; [by apply word_in_u|]. intros j Hj. by destruct op, b0; simpl; try done; destruct (_ && _).
  - intros Ho. by rewrite Ho in Hb0.
  - by destruct op, b0.
Qed.

Lemma shiftr_5 x : Z.shiftr x 5 = x / 32.
Proof. by rewrite Z.shiftr_div_pow2. Qed.

Lemma bip_range s : 0 <= s_bip s < BITS_PER_PAGE -> 0 <= s_bip s / 32 < 1024.
Proof.
  change BITS_PER_PAGE with 32768. intros. split; [apply Z.div_pos; lia|apply Z.div_lt_upper_bound; lia].
Qed.

(** The word the merge reads from the buffer. *)
Lemma merge_word s :
  op = BM_OP_MERGE -> inv s -> s_start s mod 32 = 0 -> s_start s <= E ->
  exists b rest, s_in s = b :: rest /\ in_u 32 b /\
    forall k, 0 <= k < 32 -> inp (s_start s + k - start0) = Z.testbit b k.
Proof.
  intros Ho Hinv Hal HsE. pose proof (Hroom_in Ho) as Hroom. pose proof (Haligned (or_introl Ho)) as H00.
  destruct Hinv as [Hst _ _ _ _ _ _ Hin _]. specialize (Hin Ho).
  pose proof (Z.div_mod (s_start s) 32 ltac:(lia)). pose proof (Z.div_mod start0 32 ltac:(lia)).
  set (m := s_start s / 32 - start0 / 32) in *.
  replace ((s_start s - start0 + 31) / 32) with m in Hin by (apply (Z.div_unique _ _ _ 31); lia).
  destruct (lookup_lt_is_Some_2 input (Z.to_nat m)) as [b Hb]; [lia|].
  exists b, (drop (S (Z.to_nat m)) input). split_and!.
  - rewrite Hin. by apply drop_S.
  - by eapply Forall_lookup_1 in Hinput.
  - intros k Hk. unfold inp. rewrite Ho.
    rewrite <- (Z.div_unique (s_start s + k - start0) 32 m k) by lia.
    rewrite <- (Z.mod_unique (s_start s + k - start0) 32 m k) by lia.
    by rewrite nth_lookup, Hb.
Qed.

(** Merging [b], the low [n] bits of the next word of the buffer. *)
Lemma inv_merge s n b rest bip :
  op = BM_OP_MERGE -> s_in s = b :: rest ->
  inv s -> pg * BITS_PER_PAGE + s_bip s = place (s_start s) -> 0 <= s_bip s < BITS_PER_PAGE ->
  s_start s mod 32 = 0 -> 1 <= n <= 32 -> s_start s + n <= E + 1 ->
  forall b', in_u 32 b' -> (forall j, 0 <= j < 32 -> Z.testbit b' j = (j <? n) && inp (s_start s + j - start0)) ->
  let w := word (s_addr s) (s_bip s / 32) in
  inv (mk_st (s_start s + n) bip (s_count s + hweight32 (Z.land (lnot_w 32 w) b')) (s_total s)
         (set_word (s_addr s) (s_bip s / 32) (Z.lor w b')) rest (s_out s)).
Proof.
  intros Ho Hin Hinv Hplace Hbip Hal Hn HnE b' Hb' Hj w.
  assert (words_ok (s_addr s)) as Had by apply Hinv.
  destruct (word_merge (fun k => inp (s_start s + k - start0)) w b' n) as [Hw' Ht];
    [by apply word_in_u|done..|].
  pose proof (inv_step s n bip (Z.lor w b') rest (s_out s) Hinv Hplace Hbip ltac:(lia) ltac:(lia) HnE) as H.
  cbv zeta in H. fold w in H. rewrite Hal, Ho, Ht in H. unfold stepped in H. cbn [to_count to_total] in H.
  rewrite Z.add_0_r in H. apply H; try done. by rewrite Hin.
Qed.

(** Extracting the low [n] bits of the word at the cursor. *)
Lemma inv_extract s n v bip :
  op = BM_OP_EXTRACT ->
  inv s -> pg * BITS_PER_PAGE + s_bip s = place (s_start s) -> 0 <= s_bip s < BITS_PER_PAGE ->
  s_start s mod 32 = 0 -> 1 <= n <= 32 -> s_start s + n <= E + 1 -> in_u 32 v ->
  (forall j, 0 <= j < 32 -> Z.testbit v j = (j <? n) && Z.testbit (word (s_addr s) (s_bip s / 32)) j) ->
  inv (mk_st (s_start s + n) bip (s_count s) (s_total s) (s_addr s) (s_in s) (s_out s ++ [v])).
Proof.
  intros Ho Hinv Hplace Hbip Hal Hn HnE Hv Hj.
  assert (words_ok (s_addr s)) as Had by apply Hinv. pose proof (bip_range s Hbip) as Hrange.
  set (w := word (s_addr s) (s_bip s / 32)) in *.
  destruct (word_extract (fun k => inp (s_start s + k - start0)) w n) as [Hw' Ht]; [by apply word_in_u|].
  pose proof (inv_step s n bip w (s_in s) (s_out s ++ [v]) Hinv Hplace Hbip ltac:(lia) ltac:(lia) HnE) as H.
  cbv zeta in H. fold w in H. rewrite Hal, Ho, Ht in H. unfold stepped in H. cbn [to_count to_total] in H.
  subst w. rewrite set_word_id, !Z.add_0_r in H by done. apply H; try done. eauto.
Qed.

(** The whole word loop body. *)
Lemma bm_word_ok s :
  inv s -> pg * BITS_PER_PAGE + s_bip s = place (s_start s) -> 0 <= s_bip s < BITS_PER_PAGE ->
  s_start s mod 32 = 0 -> s_start s + 31 <= E ->
  match bm_word op s with
  | Fall s' => s_start s' = s_start s /\ s_bip s' = s_bip s /\ forall bip, inv (set_pos s' (s_start s + 32) bip)
  | Found s' c => found_ok (s_start s' + c - s_bip s')
  | _ => False
  end.
Proof.
  intros Hinv Hplace Hbip Hal HsE.
  assert (words_ok (s_addr s)) as Had by apply Hinv. pose proof (bip_range s Hbip) as Hrange.
  assert (in_u 32 (word (s_addr s) (s_bip s / 32))) as Hw by by apply word_in_u.
  pose proof (fun v => search_ok s 32 v Hinv Hplace Hbip ltac:(lia) ltac:(lia) ltac:(lia)) as Hsearch.
  pose proof (fun bip => inv_skip s 32 bip Hinv Hplace Hbip ltac:(lia) ltac:(lia) ltac:(lia)) as Hskip.
  pose proof (fun bip w' => inv_step s 32 bip w' (s_in s) (s_out s) Hinv Hplace Hbip ltac:(lia) ltac:(lia) ltac:(lia)) as Hstep.
  cbv zeta in Hsearch, Hstep. rewrite Hal in *.
  pose proof (inv_merge s 32) as Hmerge. pose proof (inv_extract s 32) as Hextract.
  pose proof (merge_word s) as Hnext.
  set (w := word (s_addr s) (s_bip s / 32)) in *. set (f := fun k => inp (s_start s + k - start0)) in *.
  pose proof (word_clear f w Hw) as [Hc Hct]. pose proof (word_set f w Hw) as [Hs Hst].
  pose proof (word_count f w Hw) as [Hn Hnt].
  unfold bm_word. rewrite shiftr_5. fold w. unfold find_next_bit_le, find_next_zero_bit_le.
  replace (s_bip s + 32 - s_bip s) with 32 by lia.
  destruct op eqn:Eo; try done.
  1-3: split_and!; [done..|]; intros bip.
  - specialize (Hstep bip 0 Hc).  rewrite Hct in Hstep. unfold stepped in Hstep. cbn [to_count to_total] in Hstep.
    rewrite Z.add_0_r in Hstep. by apply Hstep.
  - specialize (Hstep bip U32_MAX Hs).  rewrite Hst in Hstep. unfold stepped in Hstep. cbn [to_count to_total] in Hstep.
    rewrite Z.add_0_r in Hstep. by apply Hstep.
  - specialize (Hstep bip w Hn).  rewrite Hnt in Hstep. unfold stepped in Hstep. cbn [to_count to_total] in Hstep.
    unfold w in Hstep at 2. rewrite set_word_id, Z.add_0_r in Hstep by done. by apply Hstep.
  - destruct (Hnext eq_refl Hinv Hal ltac:(lia)) as (b & rest & Hb & Hbu & Hbf). rewrite Hb.
    split_and!; [done..|]. intros bip. eapply Hmerge; try done; try lia.
    intros j Hj. rewrite Hbf by done. by split_cmp.
  - split_and!; [done..|]. intros bip. apply Hextract; try done; try lia.
    intros j Hj. by split_cmp.
  - specialize (Hsearch true ltac:(intros []; done)). destruct (_ <? _); [done|].
    split_and!; [done..|]. intros bip. apply Hskip; [by exists true|done].
  - specialize (Hsearch false ltac:(intros []; done)). destruct (_ <? _); [done|].
    split_and!; [done..|]. intros bip. apply Hskip; [by exists false|done].
  - specialize (Hsearch true ltac:(intros []; done)). destruct (_ <? _); [done|].
    split_and!; [done..|]. intros bip. apply Hskip; [by exists true|done].
  - specialize (Hsearch false ltac:(intros []; done)). destruct (_ <? _); [done|].
    split_and!; [done..|]. intros bip. apply Hskip; [by exists false|done].
Qed.


(** [n] iterations of the bit loops at the cursor. *)
Lemma inv_iter s n bip :
  bitwise_op op -> inv s -> pg * BITS_PER_PAGE + s_bip s = place (s_start s) -> 0 <= s_bip s < BITS_PER_PAGE ->
  1 <= n -> s_start s mod 32 + n <= 32 -> s_start s + n <= E + 1 ->
  let s' := iter_bits (Z.to_nat n) op s in
  s_start s' = s_start s /\ s_bip s' = s_bip s + n /\ inv (set_pos s' (s_start s + n) bip).
Proof.
  intros Hbo Hinv Hplace Hbip Hn Hlo HnE. pose proof (bip_range s Hbip) as Hrange.
  destruct (cursor_word s Hplace Hbip) as (_ & _ & Hbm).
  destruct (iter_bits_spec (Z.to_nat n) op s) as (w' & Hw' & ->); try done; [apply Hinv|lia..|].
  rewrite Z2Nat.id, Hbm in * by lia. split_and!; [done..|].
  apply (word_bitwise op _ (fun k => inp (s_start s + k - start0))) in Hw' as [Hw' ->]; [|done].
  apply (inv_step s n bip w' (s_in s) (s_out s)); try done.
  - intros j Hj. by destruct Hbo as [Hb | [Hb | Hb]]; rewrite Hb.
  - intros Ho. by destruct Hbo as [Hb | [Hb | Hb]]; rewrite Hb in Ho.
  - by destruct Hbo as [Hb | [Hb | Hb]]; rewrite Hb.
Qed.

(** How the parts of the loop body may be left. *)
Definition cursor (s : st) : Prop :=
  inv s /\ pg * BITS_PER_PAGE + s_bip s = place (s_start s) /\ 0 <= s_bip s < BITS_PER_PAGE.

Definition at_cursor (s : st) : Prop :=
  cursor s /\
  (s_start s mod 32 = 0 \/
   E < s_start s - s_start s mod 32 + 31 /\ op <> BM_OP_MERGE /\ op <> BM_OP_EXTRACT).

Definition page_left (s : st) : Prop :=
  inv s /\ (s_start s = E + 1 \/
    pg * BITS_PER_PAGE + s_bip s = place (s_start s) /\ BITS_PER_PAGE <= s_bip s < 2 * BITS_PER_PAGE /\
    s_start s mod 32 = 0).

Definition flow_ok (f : flow) : Prop :=
  match f with
  | Fall s => at_cursor s
  | Next_page s => page_left s
  | Found s c => found_ok (s_start s + c - s_bip s)
  | Return _ | Bug => False
  end.

Lemma place_next x : place (x - x mod 32 + 32) = place x - x mod 32 + 32 * peers.
Proof.
  unfold place. pose proof (Z.div_mod x 32 ltac:(lia)).
  rewrite <- (Z.div_unique (x - x mod 32 + 32) 32 (x / 32 + 1) 0) by lia.
  rewrite <- (Z.mod_unique (x - x mod 32 + 32) 32 (x / 32 + 1) 0) by lia. lia.
Qed.

(** Moving on to the next word of the slot. *)
Lemma advance_ok s x bip :
  inv (set_pos s (x - x mod 32 + 32) bip) -> pg * BITS_PER_PAGE + bip = place x - x mod 32 + 32 * peers ->
  0 <= bip < BITS_PER_PAGE + 1024 ->
  flow_ok (advance s (x - x mod 32 + 32) bip).
Proof.
  intros Hinv Hplace Hb. unfold advance.
  assert ((x - x mod 32 + 32) mod 32 = 0) as Hal.
  { symmetry. pose proof (Z.div_mod x 32 ltac:(lia)). apply (Z.mod_unique _ _ (x / 32 + 1)); lia. }
  change BITS_PER_PAGE with 32768 in *.
  destruct (Z.leb_spec 32768 bip); simpl.
  - split; simpl; [done|right]. change BITS_PER_PAGE with 32768. rewrite place_next. lia.
  - split; [|by left]. unfold cursor. simpl. rewrite place_next. change BITS_PER_PAGE with 32768.
    split_and!; [done|lia..].
Qed.
(** The search of the head and of the word loop, common to the four search
    operations. *)
Lemma search_flow s n v x bip rest :
  cursor s -> 1 <= n -> s_start s mod 32 + n <= 32 -> s_start s + n <= E + 1 ->
  (forall b, hit op b = Bool.eqb b v) ->
  (inv (set_pos s (s_start s + n) bip) -> flow_ok rest) ->
  x = find_next_le (Z.to_nat n) v (s_addr s) (s_bip s) ->
  flow_ok (if x <? s_bip s + n then Found s x else rest).
Proof.
  intros (Hinv & Hplace & Hbip) Hn Hlo HnE Hv Hrest ->.
  pose proof (search_ok s n v Hinv Hplace Hbip Hn Hlo HnE Hv) as Hs. cbv zeta in Hs.
  destruct (_ <? _); [done|]. apply Hrest, inv_skip; try done. exists v. rewrite Hv. apply eqb_reflx.
Qed.

Lemma bm_head_ok s :
  cursor s -> s_start s mod 32 <> 0 -> s_start s - s_start s mod 32 + 31 <= E ->
  op <> BM_OP_MERGE -> op <> BM_OP_EXTRACT ->
  flow_ok (bm_head op (32 * peers) s).
Proof.
  intros Hcur Hal HE' Hm Hx. pose proof Hcur as (Hinv & Hplace & Hbip).
  destruct (cursor_word s Hplace Hbip) as (_ & _ & Hbm).
  pose proof (Z.mod_pos_bound (s_start s) 32 ltac:(lia)) as Hmod.
  set (n := 32 - s_start s mod 32).
  pose proof (fun v x bip rest => search_flow s n v x bip rest Hcur ltac:(lia) ltac:(lia) ltac:(lia)) as Hsearch.
  pose proof (fun bip H => inv_iter s n bip H Hinv Hplace Hbip ltac:(lia) ltac:(lia) ltac:(lia)) as Hiter.
  cbv zeta in Hsearch, Hiter.
  unfold bm_head. rewrite !lor_31, Hbm. unfold find_next_bit_le, find_next_zero_bit_le.
  replace (s_bip s - s_start s mod 32 + 31 + 1) with (s_bip s + n) by lia.
  replace (s_bip s + n - s_bip s) with n by lia.
  set (bip := s_bip s + n + 32 * peers - 32).
  assert (forall s', s_start s' = s_start s -> s_bip s' = s_bip s + n ->
    inv (set_pos s' (s_start s + n) bip) ->
    flow_ok (advance s' (s_start s' - s_start s' mod 32 + 31 + 1) (s_bip s' + 32 * peers - 32))) as Hadv.
  { intros s' H1 H2 H3. rewrite H1, H2. fold bip.
    replace (_ + 31 + 1) with (s_start s - s_start s mod 32 + 32) by lia.
    apply advance_ok; [|unfold bip; lia|unfold bip; lia].
    by replace (_ + 32) with (s_start s + n) by lia. }
  cbv zeta. set (hb := head_bits 32 op _ s).
  assert (bitwise_op op ->
    flow_ok (advance hb (s_start hb - s_start hb mod 32 + 31 + 1) (s_bip hb + 32 * peers - 32))) as Hbits.
  { intros Hbo. unfold hb. rewrite head_bits_iter by lia.
    replace (_ - s_bip s + 1) with n by lia. by apply Hadv; apply Hiter with (bip := bip). }
  unfold bitwise_op in Hbits. clear Hiter. clearbody hb.
  destruct op.
  - apply Hbits. auto.
  - apply Hbits. auto.
  - by destruct Hop.
  - apply Hbits. auto.
  - by destruct Hm.
  - by destruct Hx.
  - apply (Hsearch true _ bip); [by intros []| |done]. intros ?. by apply Hadv.
  - apply (Hsearch false _ bip); [by intros []| |done]. intros ?. by apply Hadv.
  - apply (Hsearch true _ bip); [by intros []| |done]. intros ?. by apply Hadv.
  - apply (Hsearch false _ bip); [by intros []| |done]. intros ?. by apply Hadv.
Qed.
Lemma bm_body_ok fuel s :
  at_cursor s -> BITS_PER_PAGE - s_bip s <= 32 * peers * Z.of_nat fuel ->
  flow_ok (bm_body fuel op (32 * peers) E s) /\
  forall s', bm_body fuel op (32 * peers) E s = Fall s' -> E < s_start s' + 31.
Proof.
  revert s. induction fuel as [|fuel IH]; intros s Hcur Hfuel;
    pose proof Hcur as ((Hinv & Hplace & Hbip) & Hal); [lia|]. cbn [bm_body].
  destruct (Z.leb_spec (s_start s + 31) E); [|by split; [|intros s' [= <-]]].
  assert (s_start s mod 32 = 0) as Hal0.
  { pose proof (Z.mod_pos_bound (s_start s) 32 ltac:(lia)). destruct Hal as [|[? _]]; lia. }
  pose proof (bm_word_ok s Hinv Hplace Hbip Hal0 ltac:(lia)) as Hword.
  destruct (bm_word op s) as [s1|s1|s1 c|r|]; try done.
  destruct Hword as (Hst & Hb & Hinv1).
  pose proof (advance_ok s1 (s_start s) (s_bip s + 32 * peers)) as Hadv.
  rewrite Hal0, Z.sub_0_r in Hadv. rewrite Hst, Hb.
  specialize (Hadv (Hinv1 _) ltac:(lia) ltac:(lia)). unfold advance in *.
  destruct (_ <=? _); [done|]. apply IH; [done|]. simpl. lia.
Qed.

Lemma tail_mask n : 0 <= n <= 31 -> u32 (Z.shiftl 1 n - 1) = Z.ones n.
Proof.
  intros Hn. rewrite Z.ones_equiv, Z.shiftl_1_l. apply u32_id.
  pose proof (Z.pow_pos_nonneg 2 n ltac:(lia) ltac:(lia)).
  pose proof (Z.pow_le_mono_r 2 n 31 ltac:(lia) ltac:(lia)). lia.
Qed.

Lemma masked_word w n :
  in_u 32 w -> 0 <= n ->
  in_u 32 (Z.land w (Z.ones n)) /\
  forall j, 0 <= j < 32 -> Z.testbit (Z.land w (Z.ones n)) j = (j <? n) && Z.testbit w j.
Proof.
  intros Hw Hn. split.
  - apply in_u_of_testbit; [lia|apply Z.land_nonneg; left; apply Hw|].
    intros i Hi. by rewrite Z.land_spec, (testbit_in_u 32 w) by (done || lia).
  - intros j Hj. rewrite Z.land_spec, testbit_ones by lia. split_cmp; simpl; by rewrite ?andb_true_r, ?andb_false_r.
Qed.

Lemma bm_tail_ok s :
  at_cursor s -> s_start s <= E < s_start s + 31 -> flow_ok (bm_tail op E s).
Proof.
  intros Hcur HsE. pose proof Hcur as ((Hinv & Hplace & Hbip) & Hal).
  assert (words_ok (s_addr s)) as Had by apply Hinv.
  pose proof (Z.mod_pos_bound (s_start s) 32 ltac:(lia)) as Hmod.
  set (n := E - s_start s + 1).
  assert (s_start s mod 32 + n <= 32) as Hlo by (destruct Hal as [|[? _]]; lia).
  pose proof (fun v x bip rest => search_flow s n v x bip rest (proj1 Hcur) ltac:(lia) Hlo ltac:(lia)) as Hsearch.
  pose proof (fun bip H => inv_iter s n bip H Hinv Hplace Hbip ltac:(lia) Hlo ltac:(lia)) as Hiter.
  pose proof (fun b rest bip Ho Hb Ha => inv_merge s n b rest bip Ho Hb Hinv Hplace Hbip Ha ltac:(lia) ltac:(lia)) as Hmerge.
  pose proof (fun v bip Ho Ha => inv_extract s n v bip Ho Hinv Hplace Hbip Ha ltac:(lia) ltac:(lia)) as Hextract.
  pose proof (merge_word s) as Hnext.
  replace (s_start s + n) with (E + 1) in * by lia. cbv zeta in *.
  unfold bm_tail. rewrite shiftr_5. fold n. rewrite tail_mask by lia. cbv zeta.
  unfold find_next_bit_le, find_next_zero_bit_le.
  replace (s_bip s + (E - s_start s) + 1) with (s_bip s + n) by lia.
  replace (s_bip s + n - s_bip s) with n by lia.
  assert (bitwise_op op -> page_left (tail_bits 32 op E s)) as Hbits.
  { intros Hbo. rewrite tail_bits_iter by lia. fold n. destruct (Hiter (s_bip s + n) Hbo) as (_ & -> & Hi).
    split; [done|by left]. }
  assert (forall s', inv s' -> s_start s' = E + 1 -> flow_ok (Next_page s')) as Hleft by by intros; split; [|left].
  set (tb := tail_bits 32 op E s) in *. clearbody tb. unfold bitwise_op in Hbits. clear Hiter.
  destruct op eqn:Eo.
  - apply Hbits. auto.
  - apply Hbits. auto.
  - by destruct Hop.
  - apply Hbits. auto.
  - destruct Hal as [Hal|(_ & Hm & _)]; [|done].
    destruct (Hnext eq_refl Hinv Hal ltac:(lia)) as (b & rest & Hb & Hbu & Hbf). rewrite Hb.
    destruct (masked_word b n Hbu ltac:(lia)) as [Hmu Hmj].
    apply Hleft; [|done]. apply (Hmerge b); try done.
    intros j Hj. by rewrite Hbf, Hmj by done.
  - destruct Hal as [Hal|(_ & _ & Hm)]; [|done].
    destruct (masked_word (word (s_addr s) (s_bip s / 32)) n (word_in_u _ _ Had) ltac:(lia)) as [Hmu Hmj].
    apply Hleft; [|done]. by apply Hextract.
  - apply (Hsearch true _ (s_bip s)); [by intros []| |done]. intros ?. by apply Hleft.
  - apply (Hsearch false _ (s_bip s)); [by intros []| |done]. intros ?. by apply Hleft.
  - apply (Hsearch true _ (s_bip s)); [by intros []| |done]. intros ?. by apply Hleft.
  - apply (Hsearch false _ (s_bip s)); [by intros []| |done]. intros ?. by apply Hleft.
Qed.

Lemma bm_page_ok s :
  cursor s -> (op = BM_OP_MERGE \/ op = BM_OP_EXTRACT -> s_start s mod 32 = 0) ->
  match bm_page op (32 * peers) E s with
  | Next_page s' => page_left s'
  | Found s' c => found_ok (s_start s' + c - s_bip s')
  | _ => False
  end.
Proof.
  intros Hcur Hal. unfold bm_page. rewrite land_31, lor_31.
  rewrite (bool_decide_eq_false_2 (op = BM_OP_TEST)), orb_false_r by done.
  set (head := negb _ && _). set (f := if head then _ else _).
  assert (flow_ok f) as Hf.
  { unfold f, head. destruct (Z.eqb_spec (s_start s mod 32) 0) as [H0|H0]; simpl; [by split; [|left]|].
    assert (op <> BM_OP_MERGE /\ op <> BM_OP_EXTRACT) as [Hm Hx] by (split; intros Ho; apply H0, Hal; auto).
    destruct (Z.leb_spec (s_start s - s_start s mod 32 + 31) E); [by apply bm_head_ok|].
    by split; [|right]. }
  clearbody f. clear head. destruct f as [s1|s1|s1 c|r|]; try done.
  pose proof Hf as ((_ & _ & Hbip) & _).
  destruct (bm_body_ok 1025 s1 Hf) as [Hb Hend]; [change BITS_PER_PAGE with 32768 in *; lia|].
  destruct (bm_body _ _ _ _ _) as [s2|s2|s2 c|r|]; try done.
  specialize (Hend s2 eq_refl). pose proof Hb as ((Hinv & _) & _).
  destruct (Z.ltb_spec E (s_start s2)).
  - split; [done|]. left. destruct Hinv. lia.
  - pose proof (bm_tail_ok s2 Hb ltac:(lia)) as Ht.
    unfold bm_tail in *. by repeat case_match.
Qed.

End Page.
(** *** The loop over the pages *)

(** A page is left alone, or written and flagged for writeout. *)
Definition touched (p0 p : page) : Prop :=
  p = p0 \/
  writes op = true /\
  p = mk_page (p_words p) (p_need_writeout p0 || bool_decide (op <> BM_OP_CLEAR))
        (p_lazy_writeout p0 || bool_decide (op = BM_OP_CLEAR)).

Record core (ps : list page) (s : st) : Prop := mk_core {
  c_start : start0 <= s_start s <= E + 1;
  c_ps : pages_ok ps;
  c_touched : Forall2 touched ps0 ps;
  c_bits : forall p b, 0 <= p < peers -> 0 <= b -> get_bit ps peers p b = upto (s_start s) p b;
  c_total : s_total s =
    count_true (fun b => tally op (old b) (inp (b - start0))) start0 (Z.to_nat (s_start s - start0));
  c_find : forall b, start0 <= b < s_start s -> hit op (old b) = false;
  c_in : op = BM_OP_MERGE -> s_in s = drop (Z.to_nat ((s_start s - start0 + 31) / 32)) input;
  c_out : match op with
          | BM_OP_EXTRACT => Z.of_nat (length (s_out s)) = (s_start s - start0 + 31) / 32 /\
              Forall (in_u 32) (s_out s) /\
              forall j, 0 <= j -> Z.testbit (nth (Z.to_nat (j / 32)) (s_out s) 0) (j mod 32)
                = (j <? s_start s - start0) && old (start0 + j)
          | _ => s_out s = []
          end }.

Lemma get_bit_words ps ps' p b :
  p_words <$> ps = p_words <$> ps' -> get_bit ps peers p b = get_bit ps' peers p b.
Proof.
  intros He. unfold get_bit, flat. set (k := Z.to_nat _). set (d := mk_page [] false false).
  assert (p_words (nth k ps d) = p_words (nth k ps' d)) as ->; [|done].
  rewrite !nth_lookup.
  assert (p_words <$> ps !! k = p_words <$> ps' !! k) as Hk by by rewrite <- !list_lookup_fmap, He.
  by destruct (ps !! k), (ps' !! k); simplify_eq/=.
Qed.

Lemma view_words ps pg a : p_words <$> view ps pg a = <[Z.to_nat pg := a]> (p_words <$> ps).
Proof. unfold view. by rewrite list_fmap_insert. Qed.

Lemma touched_trans p0 p1 p2 : touched p0 p1 -> touched p1 p2 -> touched p0 p2.
Proof.
  intros H01 [->|[Hw H2]]; [done|]. right. split; [done|]. destruct H01 as [->|[_ H1]]; [done|].
  rewrite H2, H1. simpl. by rewrite <- !orb_assoc, !orb_diag.
Qed.

(** Entering a page. *)
Lemma enter_page ps pg p s :
  core ps s -> ps !! Z.to_nat pg = Some p ->
  inv ps pg (p_words p) (mk_st (s_start s) (s_bip s) 0 (s_total s) (p_words p) (s_in s) (s_out s)).
Proof.
  intros [Hst Hok Ht Hbits Htot Hfind Hin Hout] Hp. split; simpl; try done.
  - by apply (Forall_lookup_1 _ _ _ _ Hok Hp).
  - intros q b Hq Hb. rewrite <- Hbits by done. apply get_bit_words.
    rewrite view_words. apply list_insert_id. by rewrite list_lookup_fmap, Hp.
  - by rewrite Z.add_0_r.
Qed.

(** What [page_done] does. *)
Lemma page_done_spec p s :
  0 <= s_count s -> (s_count s = 0 -> s_addr s = p_words p) -> (writes op = false -> s_count s = 0) ->
  let r := page_done op p s in
  p_words r.1 = s_addr s /\ touched p r.1 /\ s_start r.2 = s_start s /\
  s_bip r.2 = u32 (s_bip s - BITS_PER_PAGE) /\ s_total r.2 = s_total s + s_count s /\
  s_in r.2 = s_in s /\ s_out r.2 = s_out s.
Proof.
  intros H0 Hz Hro. unfold page_done, touched.
  assert (s_count s = 0 -> mk_page (s_addr s) (p_need_writeout p) (p_lazy_writeout p) = p) as Hsame.
  { intros Hc. rewrite Hz by done. by destruct p. }
  destruct op; simpl in *; try (rewrite Hsame by auto; rewrite Hz, Hro, Z.add_0_r by auto; by split_and!; auto);
    destruct (Z.eqb_spec (s_count s) 0) as [Hc|Hc]; simpl;
    rewrite ?Hsame, ?Hz, ?Hc, ?Z.add_0_r by auto; split_and!; try done; auto.
  all: right; split; [done|]; by rewrite ?orb_true_r, ?orb_false_r.
Qed.

(** Leaving a page. *)
Lemma leave_page ps pg p s :
  core ps s -> ps !! Z.to_nat pg = Some p -> 0 <= pg ->
  forall s', page_left ps pg (p_words p) s' ->
  let r := page_done op p s' in
  core (<[Z.to_nat pg := r.1]> ps) r.2 /\
  (s_start r.2 = E + 1 \/
   (pg + 1) * BITS_PER_PAGE + s_bip r.2 = place (s_start r.2) /\ 0 <= s_bip r.2 < BITS_PER_PAGE /\
   s_start r.2 mod 32 = 0).
Proof.
  intros Hcore Hp Hpg s' [Hinv Hleft].
  pose proof Hinv as [Hst Had Hbits Htal [Hc0 Hc1] Hro Hfind Hin Hout].
  destruct (page_done_spec p s' Hc0 Hc1 Hro) as (Hw & Ht & Hs & Hb & Htot & Hi & Ho).
  set (r := page_done op p s') in *. cbv zeta. split.
  - destruct Hcore as [_ Hok Htouch _ _ _ _ _]. split; rewrite ?Hs, ?Htot, ?Hi, ?Ho; try done.
    + apply Forall_insert; [done|]. by rewrite Hw.
    + rewrite Forall2_lookup in *. intros i. destruct (decide (i = Z.to_nat pg)) as [->|].
      * rewrite list_lookup_insert_eq by by eapply lookup_lt_Some.
        specialize (Htouch (Z.to_nat pg)). rewrite Hp in Htouch. inversion Htouch; subst.
        constructor. by eapply touched_trans.
      * by rewrite list_lookup_insert_ne.
    + intros q b Hq Hb'. rewrite <- Hbits by done. apply get_bit_words.
      by rewrite view_words, list_fmap_insert, Hw.
  - rewrite Hs, Hb. destruct Hleft as [|(Hpl & Hbr & Hal)]; [by left|right].
    change BITS_PER_PAGE with 32768 in *. rewrite u32_id by lia. split_and!; [lia..|done].
Qed.


Hypothesis Hroom : (E / 32 + 1) * peers <= 1024 * Z.of_nat (length ps0).

(** A bit of the range lies on a page of the bitmap. *)
Lemma place_page x pg bip :
  start0 <= x <= E -> pg * BITS_PER_PAGE + bip = place x -> 0 <= bip < BITS_PER_PAGE -> 0 <= pg ->
  pg < Z.of_nat (length ps0).
Proof.
  intros Hx Hp Hb Hpg. unfold place in Hp. change BITS_PER_PAGE with 32768 in *.
  pose proof (Z.mod_pos_bound x 32 ltac:(lia)).
  assert (x / 32 <= E / 32) by (apply Z.div_le_mono; lia). nia.
Qed.

(** How the loop ends: after the last bit of the range, or at a hit. *)
Definition loop_end (bm : bsr_bitmap) (real_end : Z) (r : op_result) : Prop :=
  exists ps s, core ps s /\
    (s_start s = E + 1 /\ r = bm_finish op (set_pages bm ps) idx real_end s \/
     writes op = false /\ exists v o, found_ok v /\ r = (v, set_pages bm ps, o)).

Lemma bm_pages_loop_ok fuel pg bm s real_end :
  core (bm_pages bm) s -> 0 <= pg -> 1 <= Z.of_nat fuel ->
  (s_start s <= E -> Z.of_nat (length ps0) - pg + 1 <= Z.of_nat fuel /\
    pg * BITS_PER_PAGE + s_bip s = place (s_start s) /\ 0 <= s_bip s < BITS_PER_PAGE /\
    (op = BM_OP_MERGE \/ op = BM_OP_EXTRACT -> s_start s mod 32 = 0)) ->
  exists r, bm_pages_loop fuel op idx (32 * peers) E real_end pg bm s = Some r /\ loop_end bm real_end r.
Proof.
  revert pg bm s. induction fuel as [|fuel IH]; intros pg bm s Hcore Hpg Hfuel Hcur; [lia|].
  cbn [bm_pages_loop]. destruct (Z.leb_spec (s_start s) E) as [HsE|HsE]; cycle 1.
  { eexists. split; [done|]. exists (bm_pages bm), s. split; [done|left].
    split; [destruct Hcore; lia|]. by destruct bm. }
  destruct (Hcur HsE) as (Hf & Hplace & Hbip & Hal).
  pose proof (Forall2_length _ _ _ (c_touched _ _ Hcore)) as Hlen.
  pose proof (place_page (s_start s) pg (s_bip s) ltac:(destruct Hcore; lia) Hplace Hbip Hpg) as Hpgl.
  destruct (lookup_lt_is_Some_2 (bm_pages bm) (Z.to_nat pg)) as [p Hp]; [lia|].
  rewrite Hp. cbn [mbind option_bind].
  pose proof (enter_page _ _ _ _ Hcore Hp) as Henter.
  set (s0 := mk_st _ _ _ _ _ _ _) in *.
  pose proof (bm_page_ok (bm_pages bm) pg (p_words p) ltac:(lia) s0) as Hpage.
  specialize (Hpage (conj Henter (conj Hplace Hbip)) Hal).
  destruct (bm_page _ _ _ s0) as [s1|s1|s1 c|r|]; try done.
  - destruct (leave_page _ _ _ _ Hcore Hp Hpg s1 Hpage) as [Hcore' Hnext].
    destruct (page_done op p s1) as [p' s']. cbv zeta in *. cbn [fst snd] in *.
    set (bm' := set_pages bm _).
    destruct (IH (pg + 1) bm' s' Hcore') as (r & -> & Hend); [lia| |intros ?|by exists r].
    + lia.
    + destruct Hnext as [|(? & ? & ?)]; [lia|]. split_and!; try done; lia.
  - eexists. split; [done|]. exists (bm_pages bm), s. split; [done|right].
    split; [destruct Hpage as (_ & Hh & _); by destruct op|].
    eexists _, _. split; [done|]. by destruct bm.
Qed.

End Loop.

(** *** The operation as a whole *)

(** The last bit an operation with argument [end_] may touch. *)
Definition last_bit (bm : bsr_bitmap) (end_ : Z) : Z := Z.min end_ (bm_bits bm - 1).

(** The parameters an operation may be called with. *)
Record op_args (bm : bsr_bitmap) (idx start end_ : Z) (op : bitmap_operations) (input : list Z) : Prop := mk_op_args {
  a_idx : 0 <= idx < bm_max_peers bm;
  a_start : 0 <= start;
  a_end : 0 <= end_ < 2 ^ 64;
  a_op : op <> BM_OP_TEST;
  a_aligned : op = BM_OP_MERGE \/ op = BM_OP_EXTRACT -> start mod 32 = 0;
  a_input : Forall (in_u 32) input;
  a_room : op = BM_OP_MERGE -> last_bit bm end_ - start < 32 * Z.of_nat (length input) }.

Definition real_end_of (op : bitmap_operations) (end_ : Z) : Z :=
  match op with
  | BM_OP_RANGE_FIND_BIT | BM_OP_RANGE_FIND_ZERO_BIT => u64 (end_ + 1)
  | _ => 0
  end.

Lemma start_place bm idx start :
  wf bm -> 0 <= idx < bm_max_peers bm -> 0 <= start < bm_bits bm ->
  let w := interleaved_word32 bm idx start in
  let bip := Z.lor (Z.shiftl (word32_in_page w) 5) (Z.land start 31) in
  0 <= word32_to_page w /\ 0 <= bip < BITS_PER_PAGE /\
  word32_to_page w * BITS_PER_PAGE + bip = place (bm_max_peers bm) idx start.
Proof.
  intros [Hp Hb _ _ _] Hidx Hs. unfold interleaved_word32, BSR_PEERS_MAX in *.
  rewrite shiftr_5, land_31. assert (0 <= start / 32) by (apply Z.div_pos; lia).
  assert (start / 32 < 2 ^ 50) by (apply Z.div_lt_upper_bound; lia).
  rewrite (u64_id (start / 32 * _)) by nia. rewrite u64_id by nia.
  set (w := start / 32 * bm_max_peers bm + idx). assert (0 <= w) by (subst w; nia).
  unfold word32_to_page, word32_in_page, PAGE_SHIFT. change (Z.shiftl 1 (12 - 2) - 1) with (Z.ones 10).
  rewrite Z.land_ones, Z.shiftr_div_pow2 by lia.
  pose proof (Z.mod_pos_bound start 32 ltac:(lia)). pose proof (Z.mod_pos_bound w 1024 ltac:(lia)).
  pose proof (Z.div_mod w 1024 ltac:(lia)).
  rewrite Z.lor_comm, <- add_shiftl_lor by (unfold in_u; lia).
  change (2 ^ (12 - 2)) with 1024. change (2 ^ 10) with 1024. change BITS_PER_PAGE with 32768. unfold place. fold w.
  split_and!; [apply Z.div_pos; lia|lia..].
Qed.

(** The loop is entered with the invariant. *)
Lemma ____bm_op_end bm idx start end_ op input :
  wf bm -> op_args bm idx start end_ op input ->
  let E := last_bit bm end_ in
  exists r, ____bm_op bm idx start end_ op input = Some r /\
    (start <= E -> loop_end op (bm_max_peers bm) idx start E input (bm_pages bm) bm (real_end_of op end_) r) /\
    (E < start -> exists bip, r = bm_finish op bm idx (real_end_of op end_) (mk_st start bip 0 0 [] input [])).
Proof.
  intros Hwf [Hidx Hs He Hop Hal Hin Hroom_in] E. pose proof Hwf as [Hp Hb Hps Hroom _].
  unfold BSR_PEERS_MAX in Hp.
  unfold ____bm_op. fold (real_end_of op end_).
  assert ((if bm_bits bm <=? end_ then u64 (bm_bits bm - 1) else end_) = E) as ->.
  { unfold E, last_bit. destruct (Z.leb_spec (bm_bits bm) end_); [|lia]. rewrite u64_id; lia. }
  rewrite u32_id by lia.
  destruct (Z.le_gt_cases start E) as [HsE|HsE]; cycle 1.
  { cbn [bm_pages_loop s_start]. rewrite (proj2 (Z.leb_gt _ _)) by done.
    eexists. split_and!; [done|lia|]. intros _. by eexists. }
  destruct (start_place bm idx start Hwf Hidx) as (Hpg & Hbip & Hplace); [unfold E, last_bit in *; lia|].
  set (w := interleaved_word32 bm idx start) in *. set (bip := Z.lor _ _) in *.
  set (s0 := mk_st _ _ _ _ _ _ _).
  destruct (bm_pages_loop_ok op (bm_max_peers bm) idx start E input (bm_pages bm)) with
    (fuel := S (S (length (bm_pages bm)))) (pg := word32_to_page w) (bm := bm) (s := s0)
    (real_end := real_end_of op end_) as (r & -> & Hend); try done; try lia; try (unfold E, last_bit in *; lia).
  - assert (E / 32 <= (bm_bits bm - 1) / 32); [|nia]. apply Z.div_le_mono; unfold E, last_bit; lia.
  - assert (Z.to_nat (start - start) = 0%nat) as Hz by lia.
    assert ((start - start + 31) / 32 = 0) as Hz' by by rewrite Z.sub_diag.
    split; subst s0; simpl; rewrite ?Hz, ?Hz'; try done; try lia.
    + apply Forall2_same_length_lookup_2; [done|]. intros i x y Hx Hy. left. congruence.
    + intros p b Hp' Hb'. unfold upto. split_cmp; by rewrite ?andb_false_r.
    + destruct op; try done. split_and!; [done..|]. intros j Hj.
      rewrite Z.sub_diag, (proj2 (Z.ltb_ge j 0)) by done.
      simpl. destruct (Z.to_nat (j / 32)); apply Z.bits_0.
  - intros _. subst s0. simpl. split_and!; try done; lia.
  - eexists. split_and!; [done..|lia].
Qed.

(** The number of bits of the range an operation counts. *)
Definition op_count (op : bitmap_operations) (bm : bsr_bitmap) (idx start E : Z) (input : list Z) : Z :=
  count_true (fun b => tally op (bm_bit bm idx b) (inp op input (b - start))) start (Z.to_nat (E + 1 - start)).

(** The bits after an operation. *)
Definition op_bit (op : bitmap_operations) (bm : bsr_bitmap) (idx start E : Z) (input : list Z) (p b : Z) : bool :=
  if (p =? idx) && (start <=? b) && (b <=? E) then after op (bm_bit bm idx b) (inp op input (b - start))
  else bm_bit bm p b.

(** What a writing operation leaves behind. *)
Record written (op : bitmap_operations) (bm : bsr_bitmap) (idx start E : Z) (input : list Z) (bm' : bsr_bitmap) : Prop := mk_written {
  w_bits : forall p b, 0 <= p < bm_max_peers bm -> 0 <= b -> bm_bit bm' p b = op_bit op bm idx start E input p b;
  w_pages : Forall2 (touched op) (bm_pages bm) (bm_pages bm');
  w_wf : wf bm';
  w_fixed : bm_bits bm' = bm_bits bm /\ bm_max_peers bm' = bm_max_peers bm /\
            bm_words bm' = bm_words bm /\ bm_dev_capacity bm' = bm_dev_capacity bm;
  w_set : let n := op_count op bm idx start E input in
    bm_set bm' = if n =? 0 then bm_set bm
                 else alter (fun c => u64 (if decide (op = BM_OP_CLEAR) then c - n else c + n))
                        (Z.to_nat idx) (bm_set bm) }.

Lemma finish_writes op bm ps idx re s :
  writes op = true ->
  bm_finish op (set_pages bm ps) idx re s =
  (s_total s,
   mk_bitmap ps (if s_total s =? 0 then bm_set bm
     else alter (fun c => u64 (if decide (op = BM_OP_CLEAR) then c - s_total s else c + s_total s))
            (Z.to_nat idx) (bm_set bm)) (bm_bits bm) (bm_words bm) (bm_dev_capacity bm) (bm_max_peers bm),
   s_out s).
Proof. destruct op; try done; intros _; unfold bm_finish; by destruct (_ =? _). Qed.

Lemma wf_pages_set bm ps st :
  wf bm -> pages_ok ps -> length ps = length (bm_pages bm) -> length st = length (bm_set bm) ->
  wf (mk_bitmap ps st (bm_bits bm) (bm_words bm) (bm_dev_capacity bm) (bm_max_peers bm)).
Proof. intros [] Hps Hl Hs. split; simpl; try done; by rewrite ?Hl, ?Hs. Qed.

Lemma touched_refl op p : touched op p p.
Proof. by left. Qed.

Lemma op_count_empty op bm idx start E input : E < start -> op_count op bm idx start E input = 0.
Proof. intros. unfold op_count. by replace (Z.to_nat (E + 1 - start)) with 0%nat by lia. Qed.

Lemma ____bm_op_writes bm idx start end_ op input :
  wf bm -> op_args bm idx start end_ op input -> writes op = true ->
  let E := last_bit bm end_ in
  exists bm', ____bm_op bm idx start end_ op input = Some (op_count op bm idx start E input, bm', []) /\
    written op bm idx start E input bm'.
Proof.
  intros Hwf Hargs Hw E.
  destruct (____bm_op_end bm idx start end_ op input Hwf Hargs) as (r & -> & Hin & Hout). fold E in Hin, Hout.
  destruct (Z.le_gt_cases start E) as [HsE|HsE].
  - destruct (Hin HsE) as (ps & s & Hcore & [[Hst ->]|[Hro _]]); [|congruence].
    destruct Hcore as [_ Hps Ht Hbits Htot _ _ Ho]. rewrite Hst in *.
    assert (s_out s = []) as Hout' by by destruct op.
    change (count_true _ _ _) with (op_count op bm idx start E input) in Htot.
    rewrite finish_writes, Hout', Htot by done. eexists. split; [done|]. split; simpl; try done.
    + intros p b Hp Hb. unfold bm_bit at 1. simpl. rewrite Hbits by done.
      unfold upto, op_bit. replace (b <? E + 1) with (b <=? E) by (by split_cmp). done.
    + apply wf_pages_set; [done..|by symmetry; eapply Forall2_length|]. destruct (_ =? _); [done|].
      apply length_alter.
  - destruct (Hout HsE) as (bip & ->). rewrite op_count_empty by done. exists bm.
    split; [by destruct op|]. split; rewrite ?op_count_empty by done; try done.
    + intros p b Hp Hb. unfold op_bit. split_cmp; by rewrite ?andb_false_r.
    + apply Forall2_same_length_lookup_2; [done|]. intros i x y Hx Hy. left. congruence.
Qed.




(** [r] is the first bit of the range the search [op] asks for. *)
Definition first_hit (op : bitmap_operations) (bm : bsr_bitmap) (idx start E r : Z) : Prop :=
  start <= r <= E /\ hit op (bm_bit bm idx r) = true /\
  forall b, start <= b < r -> hit op (bm_bit bm idx b) = false.

Definition no_hit (op : bitmap_operations) (bm : bsr_bitmap) (idx start E : Z) : Prop :=
  forall b, start <= b <= E -> hit op (bm_bit bm idx b) = false.

(** The words [BM_OP_EXTRACT] stores: the bits of the range, 32 to a word,
    the last word padded with zeros. *)
Definition extracted (bm : bsr_bitmap) (idx start E : Z) (out : list Z) : Prop :=
  Z.of_nat (length out) = (Z.max 0 (E + 1 - start) + 31) / 32 /\ Forall (in_u 32) out /\
  forall j, 0 <= j -> Z.testbit (nth (Z.to_nat (j / 32)) out 0) (j mod 32)
    = (j <? E + 1 - start) && bm_bit bm idx (start + j).

Definition read_result (op : bitmap_operations) (bm : bsr_bitmap) (idx start end_ r : Z) (out : list Z) : Prop :=
  let E := last_bit bm end_ in
  match op with
  | BM_OP_COUNT => r = op_count op bm idx start E []
  | BM_OP_EXTRACT => extracted bm idx start E out
  | BM_OP_FIND_BIT | BM_OP_FIND_ZERO_BIT =>
      first_hit op bm idx start E r \/ (r = BSR_END_OF_BITMAP /\ no_hit op bm idx start E)
  | BM_OP_RANGE_FIND_BIT | BM_OP_RANGE_FIND_ZERO_BIT =>
      first_hit op bm idx start E r \/ (r = u64 (end_ + 1) /\ no_hit op bm idx start E)
  | _ => False
  end.

Lemma set_pages_id bm : set_pages bm (bm_pages bm) = bm.
Proof. by destruct bm. Qed.

Lemma readonly_pages op ps0 ps : writes op = false -> Forall2 (touched op) ps0 ps -> ps = ps0.
Proof.
  intros Hw. induction 1 as [|p0 p ps0 ps Ht _ ->]; [done|].
  destruct Ht as [->|[Ht _]]; [done|congruence].
Qed.

Lemma ____bm_op_reads bm idx start end_ op input :
  wf bm -> op_args bm idx start end_ op input -> writes op = false ->
  exists r out, ____bm_op bm idx start end_ op input = Some (r, bm, out) /\
    read_result op bm idx start end_ r out.
Proof.
  intros Hwf Hargs Hw. pose proof (a_op _ _ _ _ _ _ Hargs) as Hop.
  destruct (____bm_op_end bm idx start end_ op input Hwf Hargs) as (r & -> & Hin & Hout).
  set (E := last_bit bm end_) in *.
  destruct (Z.le_gt_cases start E) as [HsE|HsE].
  - destruct (Hin HsE) as (ps & s & Hcore & Hend). destruct Hcore as [_ _ Ht _ Htot Hfind _ Ho].
    apply (readonly_pages op) in Ht as ->; [|done]. rewrite set_pages_id in Hend.
    destruct Hend as [[Hst ->]|[_ (v & o & Hf & ->)]].
    + rewrite Hst in *. assert (no_hit op bm idx start E) as Hno by (intros b Hb; apply Hfind; lia).
      destruct op; try done; simpl; eexists _, _; (split; [done|]); unfold read_result; auto.
      replace (E + 1 - start) with (Z.max 0 (E + 1 - start)) in Ho by lia.
      unfold extracted. fold E. destruct Ho as (H1 & H2 & H3). split_and!; [done..|].
      intros j Hj. rewrite H3 by done. by replace (Z.max 0 (E + 1 - start)) with (E + 1 - start) by lia.
    + eexists _, _. split; [done|]. unfold read_result. destruct Hf as (H1 & H2 & H3).
      destruct op; try done; left; exact (conj H1 (conj H2 H3)).
  - destruct (Hout HsE) as (bip & ->).
    assert (no_hit op bm idx start E) as Hno by (intros b Hb; lia).
    destruct op; try done; simpl; eexists _, _; (split; [done|]); unfold read_result; auto; fold E.
    + by rewrite op_count_empty.
    + unfold extracted. rewrite Z.max_l by lia. split_and!; [done..|]. intros j Hj.
      rewrite (proj2 (Z.ltb_ge j _)) by lia. simpl. destruct (Z.to_nat (j / 32)); apply Z.bits_0.
Qed.

(** *** The cached weights *)

(** [bm_set] holds the number of bits set in every slot. *)
Definition counts_ok (bm : bsr_bitmap) : Prop :=
  forall p, 0 <= p < bm_max_peers bm ->
    bm_set bm !! Z.to_nat p = Some (count_true (bm_bit bm p) 0 (Z.to_nat (bm_bits bm))).

Lemma written_weight op bm idx start E input bm' :
  written op bm idx start E input bm' -> writes op = true ->
  0 <= idx < bm_max_peers bm -> 0 <= start -> E < bm_bits bm ->
  count_true (bm_bit bm' idx) 0 (Z.to_nat (bm_bits bm)) =
  count_true (bm_bit bm idx) 0 (Z.to_nat (bm_bits bm)) +
  (if decide (op = BM_OP_CLEAR) then -1 else 1) * op_count op bm idx start E input.
Proof.
  intros [Hbits _ _ _ _] Hw Hidx Hs HE. destruct (Z.le_gt_cases start E).
  - apply count_true_change; [lia..| |].
    + intros i Hi. rewrite Hbits by lia. unfold op_bit. split_cmp; by rewrite ?andb_false_r.
    + intros i Hi. rewrite Hbits by lia. unfold op_bit. rewrite Z.eqb_refl. split_cmp. simpl.
      destruct op; try done; by destruct (bm_bit bm idx i), (inp _ _ _).
  - rewrite op_count_empty, Z.mul_0_r, Z.add_0_r by done. apply count_true_ext.
    intros i Hi. rewrite Hbits by lia. unfold op_bit. split_cmp; by rewrite ?andb_false_r.
Qed.

Lemma written_counts op bm idx start E input bm' :
  wf bm -> written op bm idx start E input bm' -> writes op = true ->
  0 <= idx < bm_max_peers bm -> 0 <= start -> E < bm_bits bm ->
  counts_ok bm -> counts_ok bm'.
Proof.
  intros Hwf Hwr Hw Hidx Hs HE Hc p. pose proof Hwr as [Hbits _ _ (Hbb & Hpp & _) Hset].
  rewrite Hpp, Hbb. intros Hp. cbv zeta in Hset. rewrite Hset. pose proof (Hc p Hp) as Hcp.
  pose proof (written_weight _ _ _ _ _ _ _ Hwr Hw Hidx Hs HE) as Hweight.
  set (n := op_count op bm idx start E input) in *.
  destruct (decide (p = idx)) as [->|Hne].
  - pose proof (count_true_bounds (bm_bit bm' idx) 0 (Z.to_nat (bm_bits bm))) as Hbound.
    pose proof (wf_bits _ Hwf). destruct (Z.eqb_spec n 0) as [Hn|Hn].
    + rewrite Hcp, Hweight, Hn. f_equal. lia.
    + rewrite list_lookup_alter_eq, Hcp. cbn [fmap option_fmap option_map]. f_equal.
      rewrite Hweight in Hbound |- *. destruct (decide _); rewrite u64_id; lia.
  - assert (count_true (bm_bit bm' p) 0 (Z.to_nat (bm_bits bm)) =
            count_true (bm_bit bm p) 0 (Z.to_nat (bm_bits bm))) as ->.
    { apply count_true_ext. intros i Hi. rewrite Hbits by lia. unfold op_bit.
      by destruct (Z.eqb_spec p idx). }
    destruct (n =? 0); [done|]. rewrite list_lookup_alter_ne by lia. done.
Qed.

End Bitmap.
