(* ===== verification/BitmapApi.v ===== *)
(** * The operations of the bitmap (src/bsr/bsr_bitmap.c)

    The functions through which the rest of the driver uses the bitmap: the
    guarded [__bm_op]/[bm_op], the one-line wrappers, the page-wise
    [__bm_many_bits_op] and [bm_count_bits], and [bsr_bm_resize].  The lock
    [bm_lock] makes each [bm_op] atomic, so an operation is a function on the
    bitmap. *)

From S2P Require Import Prelude Hweight Bitmap.

Module BitmapApi.
Import Bitmap.

(** ** Guards *)

(** [device->bitmap] may be NULL, and [bm_pages] is NULL exactly when there
    are no pages.  The lock-flag checks only print. *)
Definition __bm_op (b : option bsr_bitmap) (bitmap_index start end_ : Z) (op : bitmap_operations)
    (buffer : list Z) : option (Z * option bsr_bitmap * list Z) :=
  match b with
  | None => Some (1, None, [])
  | Some bm =>
      match bm_pages bm with
      | [] => Some (0, b, [])
      | _ =>
          if bm_bits bm =? 0 then Some (0, b, [])
          else '(r, bm, out) ← ____bm_op bm bitmap_index start end_ op buffer; Some (r, Some bm, out)
      end
  end.

(** [bm_op]: [__bm_op] under [bm_lock]. *)
Definition bm_op := __bm_op.

(** ** Wrappers *)

Definition BITS_PER_LONG : Z := 64.

Definition bsr_bm_set_bits b idx start end_ := bm_op b idx start end_ BM_OP_SET [].
Definition bsr_bm_clear_bits b idx start end_ := bm_op b idx start end_ BM_OP_CLEAR [].
Definition bsr_bm_count_bits b idx s e := bm_op b idx s e BM_OP_COUNT [].
Definition bsr_bm_find_next b idx start := bm_op b idx start BSR_END_OF_BITMAP BM_OP_FIND_BIT [].
Definition bsr_bm_range_find_next b idx start end_ := bm_op b idx start end_ BM_OP_RANGE_FIND_BIT [].
Definition bsr_bm_range_find_next_zero b idx start end_ :=
  bm_op b idx start end_ BM_OP_RANGE_FIND_ZERO_BIT [].

(** The two searches that go to [____bm_op] directly. *)
Definition _bsr_bm_find_next bm idx start := ____bm_op bm idx start BSR_END_OF_BITMAP BM_OP_FIND_BIT [].
Definition _bsr_bm_find_next_zero bm idx start :=
  ____bm_op bm idx start BSR_END_OF_BITMAP BM_OP_FIND_ZERO_BIT [].

Definition bsr_bm_test_bit (b : option bsr_bitmap) (idx bitnr : Z) : option (Z * option bsr_bitmap * list Z) :=
  bm ← b;
  if bm_bits bm <=? bitnr then Some (BSR_END_OF_BITMAP, b, [])
  else __bm_op b idx bitnr bitnr BM_OP_COUNT [].

Definition bsr_bm_merge_lel (b : option bsr_bitmap) (idx offset number : Z) (buffer : list Z) :=
  let start := u64 (offset * BITS_PER_LONG) in
  let end_ := u64 (start + number * BITS_PER_LONG - 1) in
  bm_op b idx start end_ BM_OP_MERGE buffer.

Definition bsr_bm_get_lel (b : option bsr_bitmap) (idx offset number : Z) :=
  let start := u64 (offset * BITS_PER_LONG) in
  let end_ := u64 (start + number * BITS_PER_LONG - 1) in
  bm_op b idx start end_ BM_OP_EXTRACT [].

Definition bsr_bm_words (b : option bsr_bitmap) : Z :=
  match b with
  | None => 0
  | Some bm => match bm_pages bm with [] => 0 | _ => bm_words bm / bm_max_peers bm end
  end.

Definition bsr_bm_bits (b : option bsr_bitmap) : Z :=
  match b with None => 0 | Some bm => bm_bits bm end.

Definition _bsr_bm_total_weight (b : option bsr_bitmap) (idx : Z) : option Z :=
  match b with
  | None => Some 0
  | Some bm => match bm_pages bm with [] => Some 0 | _ => bm_set bm !! Z.to_nat idx end
  end.

Definition bsr_bm_capacity (b : option bsr_bitmap) : Z :=
  match b with None => 0 | Some bm => bm_dev_capacity bm end.

(** ** Page-wise operations *)

(** [while (bit <= end)] of [__bm_many_bits_op]; every iteration advances. *)
Fixpoint many_bits_loop (fuel : nat) (bm : bsr_bitmap) (idx bit end_ : Z) (op : bitmap_operations)
  : option bsr_bitmap :=
  match fuel with
  | O => None
  | S fuel =>
      if bit <=? end_ then
        let last_bit := last_bit_on_page bm idx bit in
        let last_bit := if end_ <? last_bit then end_ else last_bit in
        '(_, b, _) ← __bm_op (Some bm) idx bit last_bit op [];
        bm ← b;
        many_bits_loop fuel bm idx (u64 (last_bit + 1)) end_ op
      else Some bm
  end.

Definition __bm_many_bits_op (bm : bsr_bitmap) (idx start end_ : Z) (op : bitmap_operations)
  : option bsr_bitmap :=
  let end_ := if bm_bits bm <=? end_ then u64 (bm_bits bm - 1) else end_ in
  many_bits_loop (S (Z.to_nat (bm_bits bm))) bm idx start end_ op.

Definition bsr_bm_set_many_bits bm idx start end_ := __bm_many_bits_op bm idx start end_ BM_OP_SET.
Definition bsr_bm_clear_many_bits bm idx start end_ := __bm_many_bits_op bm idx start end_ BM_OP_CLEAR.

(** [for (bitmap_index = 0; bitmap_index < bm_max_peers; bitmap_index++)]. *)
Fixpoint for_slots (n : nat) (idx : Z) (f : bsr_bitmap -> Z -> option bsr_bitmap) (bm : bsr_bitmap)
  : option bsr_bitmap :=
  match n with
  | O => Some bm
  | S n => bm ← f bm idx; for_slots n (idx + 1) f bm
  end.

Definition bsr_bm_set_all (bm : bsr_bitmap) : option bsr_bitmap :=
  for_slots (Z.to_nat (bm_max_peers bm)) 0
    (fun bm idx => __bm_many_bits_op bm idx 0 BSR_END_OF_BITMAP BM_OP_SET) bm.

Definition bsr_bm_clear_all (bm : bsr_bitmap) : option bsr_bitmap :=
  for_slots (Z.to_nat (bm_max_peers bm)) 0
    (fun bm idx => __bm_many_bits_op bm idx 0 BSR_END_OF_BITMAP BM_OP_CLEAR) bm.

(** [while (bit < bitmap->bm_bits)] of [bm_count_bits]. *)
Fixpoint count_bits_loop (fuel : nat) (bm : bsr_bitmap) (idx bit bits_set : Z) : option Z :=
  match fuel with
  | O => None
  | S fuel =>
      if bit <? bm_bits bm then
        let last_bit := last_bit_on_page bm idx bit in
        '(r, _, _) ← ____bm_op bm idx bit last_bit BM_OP_COUNT [];
        count_bits_loop fuel bm idx (u64 (last_bit + 1)) (u64 (bits_set + r))
      else Some bits_set
  end.

Definition bm_count_bits (bm : bsr_bitmap) : option bsr_bitmap :=
  for_slots (Z.to_nat (bm_max_peers bm)) 0
    (fun bm idx =>
       n ← count_bits_loop (S (Z.to_nat (bm_bits bm))) bm idx 0 0;
       Some (set_bm_set bm (<[Z.to_nat idx := n]> (bm_set bm)))) bm.

(** ** Resizing *)

Definition BM_SECT_TO_BIT (x : Z) : Z := Z.shiftr x 3.
Definition BM_SECT_PER_BIT : Z := 8.
Definition ALIGN (x a : Z) : Z := Z.land (u64 (x + a - 1)) (lnot_w 64 (a - 1)).
Definition BITS_PER_BM_WORD : Z := 32.
Definition BYTES_PER_BM_WORD : Z := 4.
Definition PAGE_SIZE : Z := 4096.

(** The layout of the meta data that matters for the size of the bitmap. *)
Record bsr_md := mk_md { md_size_sect : Z; al_offset : Z; bm_offset : Z }.

Definition bsr_md_on_disk_bits (md : bsr_md) (max_peers : Z) : Z :=
  let bitmap_sectors :=
    if al_offset md =? 8 then u64 (md_size_sect md - bm_offset md) else u64 (al_offset md - bm_offset md) in
  let word64_on_disk := u64 (Z.shiftl bitmap_sectors 6) in
  u64 (Z.shiftl (word64_on_disk / max_peers) 6).

(** A page from [alloc_page(... __GFP_ZERO)]. *)
Definition zero_page : page := mk_page (replicate 1024 0) false false.

(** [bm_realloc_pages]; [alloc] tells whether the allocations succeed. *)
Definition bm_realloc_pages (alloc : bool) (pages : list page) (want : Z) : option (list page) :=
  let have := Z.of_nat (length pages) in
  if have =? want then Some pages
  else if negb alloc then None
  else if have <=? want then Some (pages ++ replicate (Z.to_nat (want - have)) zero_page)
  else Some (take (Z.to_nat want) pages).

(** The initialisation of the new bits when the bitmap grows. *)
Definition init_new_bits (obits bits : Z) (set_new_bits : bool) (bm : bsr_bitmap) (idx : Z) : option bsr_bitmap :=
  bm_set_old ← bm_set bm !! Z.to_nat idx;
  if set_new_bits then
    '(_, bm, _) ← ____bm_op bm idx obits BSR_END_OF_BITMAP BM_OP_SET [];
    Some (set_bm_set bm (<[Z.to_nat idx := u64 (bm_set_old + u64 (bits - obits))]> (bm_set bm)))
  else
    '(_, bm, _) ← ____bm_op bm idx obits BSR_END_OF_BITMAP BM_OP_CLEAR [];
    Some (set_bm_set bm (<[Z.to_nat idx := bm_set_old]> (bm_set bm))).

(** [bsr_bm_resize]: the error code and the bitmap.  [ldev] is the meta data
    if the backing device is attached. *)
Definition bsr_bm_resize (alloc : bool) (ldev : option bsr_md) (bm : bsr_bitmap) (capacity : Z) (set_new_bits : bool)
  : option (Z * bsr_bitmap) :=
  if capacity =? bm_dev_capacity bm then Some (0, bm)
  else if capacity =? 0 then
    Some (0, mk_bitmap [] (replicate (Z.to_nat (bm_max_peers bm)) 0 ++ drop (Z.to_nat (bm_max_peers bm)) (bm_set bm))
               0 0 0 (bm_max_peers bm))
  else
    let bits := BM_SECT_TO_BIT (ALIGN capacity BM_SECT_PER_BIT) in
    let words := u64 (ALIGN bits 64 * bm_max_peers bm) / BITS_PER_BM_WORD in
    let no_space := match ldev with
                    | Some md => bsr_md_on_disk_bits md (bm_max_peers bm) <? bits
                    | None => false
                    end in
    if no_space then Some (- ENOSPC, bm)
    else
      let want := Z.shiftr (ALIGN (u64 (words * BYTES_PER_BM_WORD)) PAGE_SIZE) PAGE_SHIFT in
      match bm_realloc_pages alloc (bm_pages bm) want with
      | None => Some (- ENOMEM, bm)
      | Some npages =>
          let obits := bm_bits bm in
          let bm := mk_bitmap npages (bm_set bm) bits words capacity (bm_max_peers bm) in
          if obits <? bits then
            bm ← for_slots (Z.to_nat (bm_max_peers bm)) 0 (init_new_bits obits bits set_new_bits) bm;
            Some (0, bm)
          else
            bm ← bm_count_bits bm; Some (0, bm)
      end.

(** ** Proofs *)

Lemma wf_pages_nonempty bm : wf bm -> bm_pages bm <> [].
Proof.
  intros [Hp Hb _ Hr _] He. rewrite He in Hr. simpl in Hr.
  assert (0 <= (bm_bits bm - 1) / 32) by (apply Z.div_pos; lia). nia.
Qed.

Lemma __bm_op_wf bm idx start end_ op buf :
  wf bm ->
  __bm_op (Some bm) idx start end_ op buf =
  '(r, bm, out) ← ____bm_op bm idx start end_ op buf; Some (r, Some bm, out).
Proof.
  intros Hwf. unfold __bm_op. pose proof (wf_pages_nonempty bm Hwf). destruct (bm_pages bm) eqn:E; [done|].
  destruct (Z.eqb_spec (bm_bits bm) 0); [|done]. destruct Hwf; lia.
Qed.

(** The page of a bit ends at or after the bit. *)
Lemma last_bit_on_page_ge bm idx bit :
  wf bm -> 0 <= idx < bm_max_peers bm -> 0 <= bit < bm_bits bm ->
  bit <= last_bit_on_page bm idx bit < 2 ^ 51.
Proof.
  intros [Hp Hb _ _ _] Hidx Hbit. unfold last_bit_on_page, BSR_PEERS_MAX in *.
  set (w := lnot_w 64 _). unfold word32_in_page, PAGE_SHIFT.
  change (Z.shiftl 1 (12 - 2) - 1) with (Z.ones 10). rewrite Z.land_ones by lia.
  pose proof (Z.mod_pos_bound w (2 ^ 10) ltac:(lia)).
  assert (0 <= w mod 2 ^ 10 / bm_max_peers bm <= 1023).
  { split; [apply Z.div_pos; lia|]. etrans; [apply Z.div_le_upper_bound with (q := w mod 2 ^ 10)|]; nia. }
  rewrite lor_31, Z.shiftl_mul_pow2 by lia.
  pose proof (Z.mod_pos_bound bit 32 ltac:(lia)). rewrite u64_id; lia.
Qed.

Definition fills (op : bitmap_operations) : Prop := op = BM_OP_SET \/ op = BM_OP_CLEAR.

Lemma fill_args bm idx start end_ op :
  fills op -> 0 <= idx < bm_max_peers bm -> 0 <= start -> 0 <= end_ < 2 ^ 64 ->
  op_args bm idx start end_ op [].
Proof. intros [-> | ->] ???; by split; try done; intros []. Qed.

Lemma op_count_split op bm idx a m E :
  a <= m + 1 <= E + 1 -> fills op ->
  op_count op bm idx a E [] = op_count op bm idx a m [] + op_count op bm idx (m + 1) E [].
Proof.
  intros Hm Hf. unfold op_count.
  replace (Z.to_nat (E + 1 - a)) with (Z.to_nat (m + 1 - a) + Z.to_nat (E + 1 - (m + 1)))%nat by lia.
  rewrite count_true_app. replace (a + Z.of_nat (Z.to_nat (m + 1 - a))) with (m + 1) by lia.
  by destruct Hf as [-> | ->].
Qed.

Lemma written_compose op bm idx a m E bm1 bm2 :
  fills op -> 0 <= idx < bm_max_peers bm -> 0 <= a <= m + 1 -> m <= E ->
  written op bm idx a m [] bm1 -> written op bm1 idx (m + 1) E [] bm2 ->
  written op bm idx a E [] bm2.
Proof.
  intros Hf Hidx Ha Hm [B1 P1 W1 (F1 & F2 & F3 & F4) S1] [B2 P2 W2 (G1 & G2 & G3 & G4) S2].
  assert (op_count op bm1 idx (m + 1) E [] = op_count op bm idx (m + 1) E []) as Hc.
  { apply count_true_ext. intros i Hi. rewrite B1 by lia. unfold op_bit. split_cmp; by rewrite ?andb_false_r. }
  split; [| |done|split_and!; congruence|].
  - intros p b Hp Hb. rewrite B2 by (done || lia). unfold op_bit at 1.
    rewrite !B1 by done. unfold op_bit. destruct (Z.eqb_spec p idx) as [->|]; [|done].
    rewrite Z.eqb_refl. simpl.
    split_cmp; simpl; try done; destruct Hf as [-> | ->]; done.
  - clear -P1 P2. revert P2. generalize (bm_pages bm2). induction P1; intros ? P2; inversion P2; subst; constructor; eauto.
    by eapply touched_trans.
  - cbv zeta in *. rewrite S2, S1, Hc, (op_count_split op bm idx a m E) by (done || lia).
    set (n1 := op_count op bm idx a m []). set (n2 := op_count op bm idx (m + 1) E []).
    assert (0 <= n1 /\ 0 <= n2) as [? ?] by (split; apply count_true_bounds).
    destruct (Z.eqb_spec n1 0) as [Hn1|Hn1]; [rewrite Hn1, Z.add_0_l; done|].
    rewrite (proj2 (Z.eqb_neq (n1 + n2) 0)) by lia.
    destruct (Z.eqb_spec n2 0) as [Hn2|Hn2]; [by rewrite Hn2, Z.add_0_r|].
    rewrite list_alter_alter_eq. apply list_alter_ext; [|done]. intros c _. simpl.
    destruct (decide _); unfold u64, wrap; rewrite ?Zminus_mod_idemp_l, ?Zplus_mod_idemp_l; f_equal; lia.
Qed.

Lemma written_refl op bm idx a E : wf bm -> E < a -> written op bm idx a E [] bm.
Proof.
  intros Hwf HE. split; rewrite ?op_count_empty by done; try done.
  - intros p b Hp Hb. unfold op_bit. split_cmp; by rewrite ?andb_false_r.
  - apply Forall2_same_length_lookup_2; [done|]. intros i x y Hx Hy. left. congruence.
Qed.

(** *** [__bm_many_bits_op] *)

Lemma many_bits_loop_ok fuel bm idx bit E op :
  wf bm -> fills op -> 0 <= idx < bm_max_peers bm -> 0 <= bit -> E < bm_bits bm ->
  E - bit + 1 < Z.of_nat fuel -> (0 < fuel)%nat ->
  exists bm', many_bits_loop fuel bm idx bit E op = Some bm' /\ written op bm idx bit E [] bm'.
Proof.
  revert bm bit. induction fuel as [|fuel IH]; intros bm bit Hwf Hf Hidx Hbit HE Hfuel H0; [lia|].
  cbn [many_bits_loop]. destruct (Z.leb_spec bit E) as [Hle|Hgt]; cycle 1.
  { exists bm. split; [done|]. apply written_refl; [done|lia]. }
  pose proof (last_bit_on_page_ge bm idx bit Hwf Hidx ltac:(lia)) as Hlast.
  set (last := if E <? _ then _ else _).
  assert (bit <= last <= E) as Hl by (subst last; destruct (Z.ltb_spec E (last_bit_on_page bm idx bit)); lia).
  pose proof (wf_bits _ Hwf).
  destruct (____bm_op_writes bm idx bit last op []) as (bm1 & Hop & Hw1); [done| |by destruct Hf as [-> | ->]|].
  { apply fill_args; try done; lia. }
  replace (last_bit bm last) with last in * by (unfold last_bit; lia).
  rewrite __bm_op_wf, Hop by done. cbn [mbind option_bind].
  pose proof Hw1 as [_ _ Hwf1 (Hbb & Hpp & _) _]. rewrite u64_id by lia.
  destruct (IH bm1 (last + 1)) as (bm2 & -> & Hw2); try done; try lia; try (by rewrite Hpp).
  exists bm2. split; [done|]. by apply (written_compose op bm idx bit last E bm1 bm2); try done; lia.
Qed.


Lemma __bm_many_bits_op_ok bm idx start end_ op :
  wf bm -> fills op -> 0 <= idx < bm_max_peers bm -> 0 <= start -> 0 <= end_ ->
  exists bm', __bm_many_bits_op bm idx start end_ op = Some bm' /\
    written op bm idx start (last_bit bm end_) [] bm'.
Proof.
  intros Hwf Hf Hidx Hs He. unfold __bm_many_bits_op. pose proof (wf_bits _ Hwf) as Hb.
  assert ((if bm_bits bm <=? end_ then u64 (bm_bits bm - 1) else end_) = last_bit bm end_) as ->.
  { unfold last_bit. destruct (Z.leb_spec (bm_bits bm) end_); [rewrite u64_id|]; lia. }
  apply many_bits_loop_ok; try done; unfold last_bit; lia.
Qed.

(** *** Loops over the slots *)

Lemma for_slots_ok (P : Z -> bsr_bitmap -> Prop) f n idx bm :
  P idx bm ->
  (forall i bm, idx <= i < idx + Z.of_nat n -> P i bm -> exists bm', f bm i = Some bm' /\ P (i + 1) bm') ->
  exists bm', for_slots n idx f bm = Some bm' /\ P (idx + Z.of_nat n) bm'.
Proof.
  revert idx bm. induction n as [|n IH]; intros idx bm H0 Hf; cbn [for_slots].
  - exists bm. by rewrite Z.add_0_r.
  - destruct (Hf idx bm ltac:(lia) H0) as (bm1 & -> & H1). cbn [mbind option_bind].
    destruct (IH (idx + 1) bm1 H1) as (bm2 & -> & H2); [intros; apply Hf; [lia|done]|].
    exists bm2. split; [done|]. by replace (idx + Z.of_nat (S n)) with (idx + 1 + Z.of_nat n) by lia.
Qed.

(** *** [bm_count_bits] *)

Lemma count_args bm idx start end_ :
  0 <= idx < bm_max_peers bm -> 0 <= start -> 0 <= end_ < 2 ^ 64 -> op_args bm idx start end_ BM_OP_COUNT [].
Proof. intros. by split; try done; intros []. Qed.

Lemma count_bits_loop_ok fuel bm idx bit acc :
  wf bm -> 0 <= idx < bm_max_peers bm -> 0 <= bit ->
  Z.max 0 (bm_bits bm - bit) < Z.of_nat fuel -> 0 <= acc <= bit ->
  count_bits_loop fuel bm idx bit acc = Some (acc + count_true (bm_bit bm idx) bit (Z.to_nat (bm_bits bm - bit))).
Proof.
  intros Hwf Hidx. pose proof (wf_bits _ Hwf) as Hb. revert bit acc.
  induction fuel as [|fuel IH]; intros bit acc Hbit Hfuel Hacc; [lia|].
  cbn [count_bits_loop]. destruct (Z.ltb_spec bit (bm_bits bm)) as [Hlt|Hge]; cycle 1.
  { replace (Z.to_nat (bm_bits bm - bit)) with 0%nat by lia. simpl. by rewrite Z.add_0_r. }
  pose proof (last_bit_on_page_ge bm idx bit Hwf Hidx ltac:(lia)) as Hlast.
  set (last := last_bit_on_page bm idx bit) in *.
  destruct (____bm_op_reads bm idx bit last BM_OP_COUNT []) as (r & out & -> & ->);
    [done|apply count_args; lia|done|]. cbn [mbind option_bind].
  unfold op_count. simpl tally. change (fun b => bm_bit bm idx b) with (bm_bit bm idx).
  set (n := count_true _ _ _).
  assert (0 <= n <= last_bit bm last + 1 - bit) as Hn.
  { pose proof (count_true_bounds (bm_bit bm idx) bit (Z.to_nat (last_bit bm last + 1 - bit))).
    unfold last_bit in *. lia. }
  unfold last_bit in *. rewrite !u64_id by lia. rewrite IH by lia. f_equal. subst n.
  destruct (Z.le_gt_cases (bm_bits bm) last).
  - replace (Z.to_nat (bm_bits bm - (last + 1))) with 0%nat by lia. simpl.
    rewrite Z.add_0_r. repeat f_equal. lia.
  - rewrite <- Z.add_assoc. f_equal. rewrite Z.min_l by lia.
    replace (Z.to_nat (bm_bits bm - bit)) with (Z.to_nat (last + 1 - bit) + Z.to_nat (bm_bits bm - (last + 1)))%nat by lia.
    rewrite count_true_app. by replace (bit + Z.of_nat (Z.to_nat (last + 1 - bit))) with (last + 1) by lia.
Qed.

Lemma bm_count_bits_ok bm :
  wf bm -> exists bm', bm_count_bits bm = Some bm' /\ wf bm' /\ counts_ok bm' /\
    bm' = set_bm_set bm (bm_set bm').
Proof.
  intros Hwf. unfold bm_count_bits. pose proof (wf_peers _ Hwf) as Hp.
  destruct (for_slots_ok (fun i bm' => exists st, bm' = set_bm_set bm st /\ length st = length (bm_set bm) /\
      forall p, 0 <= p < i -> st !! Z.to_nat p = Some (count_true (bm_bit bm p) 0 (Z.to_nat (bm_bits bm))))
    (fun bm idx => n ← count_bits_loop (S (Z.to_nat (bm_bits bm))) bm idx 0 0;
       Some (set_bm_set bm (<[Z.to_nat idx := n]> (bm_set bm)))) (Z.to_nat (bm_max_peers bm)) 0 bm)
    as (bm' & -> & st & -> & Hlen & Hst).
  - exists (bm_set bm). split_and!; [by destruct bm|done|]. intros; lia.
  - intros i bm' Hi (st & -> & Hlen & Hst). pose proof (wf_bits _ Hwf). pose proof (wf_set _ Hwf).
    rewrite (count_bits_loop_ok (S (Z.to_nat (bm_bits (set_bm_set bm st)))) (set_bm_set bm st)).
    + cbn [mbind option_bind]. eexists. split; [done|]. eexists. split; [done|]. simpl.
      split; [by rewrite length_insert|]. intros p Hp'. destruct (decide (p = i)) as [->|].
      * rewrite list_lookup_insert_eq by (unfold BSR_PEERS_MAX in *; lia). by rewrite Z.sub_0_r.
      * rewrite list_lookup_insert_ne by lia. apply Hst. lia.
    + apply (wf_pages_set bm); try done. apply Hwf.
    + simpl. lia.
    + done.
    + simpl. lia.
    + lia.
  - eexists. split_and!; [done| |intros p Hp'; apply Hst; simpl in Hp'; lia|done].
    apply (wf_pages_set bm); try done. apply Hwf.
Qed.

(** *** [bsr_bm_resize] *)

(** A bitmap between two resizes: as [wf], but possibly without bits. *)
Record sized (bm : bsr_bitmap) : Prop := mk_sized {
  sz_peers : 1 <= bm_max_peers bm <= BSR_PEERS_MAX;
  sz_bits : 0 <= bm_bits bm <= 2 ^ 50;
  sz_pages : pages_ok (bm_pages bm);
  sz_room : (bm_bits bm + 31) / 32 * bm_max_peers bm <= 1024 * Z.of_nat (length (bm_pages bm));
  sz_set : Z.of_nat (length (bm_set bm)) = BSR_PEERS_MAX }.

Lemma div_shift_31 x : 1 <= x -> (x + 31) / 32 = (x - 1) / 32 + 1.
Proof. intros. replace (x + 31) with (x - 1 + 1 * 32) by lia. by rewrite Z.div_add. Qed.

Lemma sized_wf bm : sized bm -> 1 <= bm_bits bm -> wf bm.
Proof. intros [] Hb. split; try done; [lia|]. by rewrite <- div_shift_31 by lia. Qed.

Lemma wf_sized bm : wf bm -> sized bm.
Proof. intros []. split; try done; [lia|]. by rewrite div_shift_31 by lia. Qed.

Lemma ALIGN_ceil x k :
  0 <= k <= 12 -> 0 <= x < 2 ^ 63 -> ALIGN x (2 ^ k) = (x + 2 ^ k - 1) / 2 ^ k * 2 ^ k.
Proof.
  intros Hk Hx. unfold ALIGN.
  assert (1 <= 2 ^ k <= 4096) as H2.
  { split; [apply (Z.pow_le_mono_r 2 0 k); lia|apply (Z.pow_le_mono_r 2 k 12); lia]. }
  set (y := x + 2 ^ k - 1) in *. rewrite u64_id by lia.
  rewrite <- Z.shiftr_div_pow2, <- Z.shiftl_mul_pow2 by lia.
  replace (2 ^ k - 1) with (Z.ones k) by (rewrite Z.ones_equiv; lia).
  apply Z.bits_inj'. intros i Hi. rewrite Z.land_spec, testbit_lnot_w.
  - autorewrite with bits. split_cmp; simpl; rewrite ?andb_true_r, ?andb_false_r; try done.
    + f_equal. lia.
    + symmetry. apply (testbit_in_u 64); [lia|split; lia|lia].
  - lia.
  - rewrite Z.ones_equiv. split; lia.
Qed.

(** The dimensions [bsr_bm_resize] computes. *)
Lemma resize_dimensions capacity peers :
  1 <= peers <= 32 -> 0 < capacity <= 2 ^ 53 ->
  let bits := BM_SECT_TO_BIT (ALIGN capacity BM_SECT_PER_BIT) in
  let words := u64 (ALIGN bits 64 * peers) / BITS_PER_BM_WORD in
  let want := Z.shiftr (ALIGN (u64 (words * BYTES_PER_BM_WORD)) PAGE_SIZE) PAGE_SHIFT in
  bits = (capacity + 7) / 8 /\ 1 <= bits <= 2 ^ 50 /\ 0 <= want /\
  (bits + 31) / 32 * peers <= 1024 * want.
Proof.
  intros Hp Hc bits words want.
  assert (bits = (capacity + 7) / 8) as Hbits.
  { unfold bits, BM_SECT_TO_BIT, BM_SECT_PER_BIT. change 8 with (2 ^ 3). rewrite ALIGN_ceil by lia.
    rewrite Z.shiftr_div_pow2, Z.div_mul by lia. f_equal. lia. }
  assert (1 <= bits <= 2 ^ 50) as Hb.
  { rewrite Hbits. split; [apply Z.div_le_lower_bound; lia|].
    assert ((capacity + 7) / 8 < 2 ^ 50 + 1); [apply Z.div_lt_upper_bound; lia|lia]. }
  assert (words = (bits + 63) / 64 * 2 * peers) as Hwords.
  { unfold words, BITS_PER_BM_WORD. change 64 with (2 ^ 6). rewrite ALIGN_ceil by lia.
    replace (bits + 2 ^ 6 - 1) with (bits + 63) by lia.
    assert (0 <= (bits + 63) / 2 ^ 6 <= 2 ^ 50).
    { split; [apply Z.div_pos; lia|apply Z.div_le_upper_bound; lia]. }
    rewrite u64_id by (change (2 ^ 6) with 64 in *; nia). symmetry. apply (Z.div_unique _ _ _ 0); lia. }
  assert (0 <= (bits + 63) / 64 <= 2 ^ 45) as Hq.
  { split; [apply Z.div_pos; lia|apply Z.div_le_upper_bound; lia]. }
  assert (want = (words * 4 + 4095) / 4096) as Hwant.
  { unfold want, BYTES_PER_BM_WORD, PAGE_SIZE, PAGE_SHIFT. rewrite u64_id by nia.
    change 4096 with (2 ^ 12). rewrite ALIGN_ceil by nia.
    rewrite Z.shiftr_div_pow2, Z.div_mul by lia. f_equal. lia. }
  split_and!; try done; try lia; rewrite Hwant.
  - apply Z.div_pos; nia.
  - pose proof (Z.div_mod (words * 4 + 4095) 4096 ltac:(lia)).
    pose proof (Z.mod_pos_bound (words * 4 + 4095) 4096 ltac:(lia)).
    assert ((bits + 31) / 32 <= 2 * ((bits + 63) / 64)); [|nia].
    pose proof (Z.div_mod (bits + 63) 64 ltac:(lia)). pose proof (Z.mod_pos_bound (bits + 63) 64 ltac:(lia)).
    apply Z.lt_succ_r, Z.div_lt_upper_bound; lia.
Qed.

(** The pages of a resized bitmap: the old ones as far as they go. *)
Lemma realloc_ok alloc pages want np :
  0 <= want -> pages_ok pages -> bm_realloc_pages alloc pages want = Some np ->
  pages_ok np /\ Z.of_nat (length np) = want /\
  forall k, (k < length pages)%nat -> (k < length np)%nat -> np !! k = pages !! k.
Proof.
  intros Hw Hok. unfold bm_realloc_pages.
  destruct (Z.eqb_spec (Z.of_nat (length pages)) want); [by intros [= <-]|].
  destruct alloc; simpl; [|done]. destruct (Z.leb_spec (Z.of_nat (length pages)) want); intros [= <-].
  - split_and!.
    + apply Forall_app. split; [done|]. apply Forall_replicate. change (p_words zero_page) with (replicate 1024 0). split; [by rewrite length_replicate|].
      apply Forall_replicate. split; lia.
    + rewrite length_app, length_replicate. lia.
    + intros k Hk _. by rewrite lookup_app_l.
  - split_and!; [by apply Forall_take|rewrite length_take; lia|].
    intros k _ Hk. rewrite length_take in Hk. apply lookup_take_lt. lia.
Qed.

Lemma realloc_none alloc pages want : bm_realloc_pages alloc pages want = None -> alloc = false.
Proof.
  unfold bm_realloc_pages. destruct (_ =? want); [done|]. destruct alloc; [|done]. by destruct (_ <=? want).
Qed.

Lemma get_bit_prefix ps ps' peers p b :
  0 <= p < peers -> 0 <= b ->
  (forall k, (k < length ps)%nat -> (k < length ps')%nat -> ps' !! k = ps !! k) ->
  (b / 32 + 1) * peers <= 1024 * Z.of_nat (length ps) ->
  (b / 32 + 1) * peers <= 1024 * Z.of_nat (length ps') ->
  get_bit ps' peers p b = get_bit ps peers p b.
Proof.
  intros Hp Hb He H1 H2. unfold get_bit, flat. rewrite !nth_lookup.
  set (i := b / 32 * peers + p) in *. assert (0 <= b / 32) by (apply Z.div_pos; lia).
  assert (0 <= i / 1024) by (apply Z.div_pos; subst i; nia).
  assert (i / 1024 < Z.of_nat (length ps)) by (apply Z.div_lt_upper_bound; subst i; nia).
  assert (i / 1024 < Z.of_nat (length ps')) by (apply Z.div_lt_upper_bound; subst i; nia).
  by rewrite He by lia.
Qed.

(** Bits of the old bitmap are where they were. *)
Lemma resized_bits bm bm1 p b :
  sized bm -> sized bm1 -> bm_max_peers bm1 = bm_max_peers bm ->
  (forall k, (k < length (bm_pages bm))%nat -> (k < length (bm_pages bm1))%nat -> bm_pages bm1 !! k = bm_pages bm !! k) ->
  0 <= p < bm_max_peers bm -> 0 <= b < bm_bits bm -> b < bm_bits bm1 ->
  bm_bit bm1 p b = bm_bit bm p b.
Proof.
  intros [Hp _ _ Hr _] [_ _ _ Hr1 _] Hpe He Hp' Hb Hb1. unfold bm_bit. rewrite Hpe in *.
  assert (forall n, b < n -> b / 32 + 1 <= (n + 31) / 32) as Hd.
  { intros n Hn. rewrite div_shift_31 by lia. assert (b / 32 <= (n - 1) / 32); [|lia]. apply Z.div_le_mono; lia. }
  apply get_bit_prefix; try done; [lia|..]; pose proof (Hd (bm_bits bm)); pose proof (Hd (bm_bits bm1)); nia.
Qed.

(** What [init_new_bits] does to one slot. *)
Lemma init_new_bits_ok bm idx obits set_new c :
  wf bm -> 0 <= idx < bm_max_peers bm -> 0 <= obits < bm_bits bm ->
  bm_set bm !! Z.to_nat idx = Some c -> 0 <= c <= obits ->
  exists bm', init_new_bits obits (bm_bits bm) set_new bm idx = Some bm' /\ wf bm' /\
    bm_bits bm' = bm_bits bm /\ bm_max_peers bm' = bm_max_peers bm /\ bm_dev_capacity bm' = bm_dev_capacity bm /\
    (forall p b, 0 <= p < bm_max_peers bm -> 0 <= b ->
      bm_bit bm' p b = if (p =? idx) && (obits <=? b) && (b <? bm_bits bm) then set_new else bm_bit bm p b) /\
    bm_set bm' !! Z.to_nat idx = Some (c + if set_new then bm_bits bm - obits else 0) /\
    (forall p, 0 <= p -> p <> idx -> bm_set bm' !! Z.to_nat p = bm_set bm !! Z.to_nat p).
Proof.
  intros Hwf Hidx Hob Hc Hcr. pose proof (wf_bits _ Hwf). unfold init_new_bits. rewrite Hc. cbn [mbind option_bind].
  set (op := if set_new then BM_OP_SET else BM_OP_CLEAR).
  assert (fills op) as Hf by (destruct set_new; [by left|by right]).
  destruct (____bm_op_writes bm idx obits BSR_END_OF_BITMAP op []) as (bm1 & Hop & Hw);
    [done|apply fill_args; try done; unfold BSR_END_OF_BITMAP, U64_MAX; lia|by destruct set_new|].
  replace (last_bit bm BSR_END_OF_BITMAP) with (bm_bits bm - 1) in *
    by (unfold last_bit, BSR_END_OF_BITMAP, U64_MAX; lia).
  destruct Hw as [Hbits _ Hwf1 (E1 & E2 & E3 & E4) Hset].
  set (c' := c + if set_new then bm_bits bm - obits else 0).
  exists (set_bm_set bm1 (<[Z.to_nat idx := c']> (bm_set bm1))). split_and!; try done.
  - unfold c'. destruct set_new; subst op; rewrite Hop; cbn [mbind option_bind];
      [by rewrite (u64_id (bm_bits bm - obits)), u64_id by lia|by rewrite Z.add_0_r].
  - apply (wf_pages_set bm1); try done; [apply Hwf1|by rewrite length_insert].
  - intros p b Hp Hb. change (bm_bit (set_bm_set bm1 _) p b) with (bm_bit bm1 p b). rewrite Hbits by done.
    unfold op_bit. replace (b <=? bm_bits bm - 1) with (b <? bm_bits bm) by by split_cmp.
    destruct (_ && _ && _); [|done]. by destruct set_new.
  - pose proof (wf_set _ Hwf1). pose proof (wf_peers _ Hwf). unfold BSR_PEERS_MAX in *. simpl.
    apply list_lookup_insert_eq. lia.
  - intros p Hp Hne. simpl. rewrite list_lookup_insert_ne by lia. cbv zeta in Hset. rewrite Hset.
    destruct (_ =? _); [done|]. apply list_lookup_alter_ne. lia.
Qed.

(** [bm'] is [bm] resized: old bits kept, new ones initialised. *)
Record resized (bm : bsr_bitmap) (set_new : bool) (bm' : bsr_bitmap) : Prop := mk_resized {
  r_wf : wf bm';
  r_counts : counts_ok bm';
  r_bits : forall p b, 0 <= p < bm_max_peers bm -> 0 <= b < bm_bits bm' ->
    bm_bit bm' p b = if b <? bm_bits bm then bm_bit bm p b else set_new }.

Lemma grown_count (f g : Z -> bool) obits bits (v : bool) :
  0 <= obits <= bits ->
  (forall b, 0 <= b < bits -> g b = if b <? obits then f b else v) ->
  count_true g 0 (Z.to_nat bits) = count_true f 0 (Z.to_nat obits) + if v then bits - obits else 0.
Proof.
  intros Hb Hg. replace (Z.to_nat bits) with (Z.to_nat obits + Z.to_nat (bits - obits))%nat by lia.
  rewrite count_true_app. f_equal.
  - apply count_true_ext. intros i Hi. rewrite Hg by lia. by split_cmp.
  - rewrite (count_true_linear _ (fun _ => false) (fun _ => v) 1).
    + rewrite (proj2 (count_true_zero (fun _ => false) _ _)) by done.
      set (n := Z.to_nat (bits - obits)). replace (bits - obits) with (Z.of_nat n) by lia. clear.
      generalize (0 + Z.of_nat (Z.to_nat obits)). induction n as [|n IH]; intros a; cbn [count_true]; [by destruct v|].
      specialize (IH (a + 1)). destruct v; simpl; lia.
    + intros i Hi. rewrite Hg by lia. split_cmp. simpl. lia.
Qed.

Lemma resize_grow bm bm1 set_new :
  sized bm -> counts_ok bm -> wf bm1 -> bm_max_peers bm1 = bm_max_peers bm -> bm_set bm1 = bm_set bm ->
  bm_bits bm < bm_bits bm1 ->
  (forall p b, 0 <= p < bm_max_peers bm -> 0 <= b < bm_bits bm -> bm_bit bm1 p b = bm_bit bm p b) ->
  exists bm', for_slots (Z.to_nat (bm_max_peers bm1)) 0 (init_new_bits (bm_bits bm) (bm_bits bm1) set_new) bm1 = Some bm' /\
    resized bm set_new bm' /\ bm_bits bm' = bm_bits bm1 /\ bm_dev_capacity bm' = bm_dev_capacity bm1.
Proof.
  intros Hsz Hc Hwf Hpe Hset Hgrow Hold. pose proof (sz_peers _ Hsz) as Hp. pose proof (sz_bits _ Hsz) as Hb.
  set (obits := bm_bits bm) in *. set (bits := bm_bits bm1) in *. set (peers := bm_max_peers bm) in *.
  set (cnt := fun p => count_true (bm_bit bm p) 0 (Z.to_nat obits)).
  destruct (for_slots_ok (fun i bm' => wf bm' /\ bm_bits bm' = bits /\ bm_max_peers bm' = peers /\
      bm_dev_capacity bm' = bm_dev_capacity bm1 /\
      (forall p b, 0 <= p < peers -> 0 <= b < bits ->
        bm_bit bm' p b = if (p <? i) && (obits <=? b) then set_new else bm_bit bm1 p b) /\
      (forall p, 0 <= p < peers ->
        bm_set bm' !! Z.to_nat p = Some (cnt p + if (p <? i) && set_new then bits - obits else 0)))
    (init_new_bits obits bits set_new) (Z.to_nat (bm_max_peers bm1)) 0 bm1)
    as (bm' & -> & Hwf' & Hbb & Hpp & Hcap & Hbits & Hsets).
  - split_and!; try done.
    + intros p b Hp' _. by split_cmp.
    + intros p Hp'. rewrite Hset, Hc by done. split_cmp. simpl. by rewrite Z.add_0_r.
  - intros i bm' Hi (Hwf' & Hbb & Hpp & Hcap & Hbits & Hsets). rewrite Hpe in Hi.
    pose proof (count_true_bounds (bm_bit bm i) 0 (Z.to_nat obits)) as Hbound.
    destruct (init_new_bits_ok bm' i obits set_new (cnt i)) as (bm2 & E & Hwf2 & Hb2 & Hp2 & Hc2 & Hbits2 & Hset2 & Hne2);
      [done|lia|lia|rewrite Hsets by lia; split_cmp; simpl; by rewrite Z.add_0_r|unfold cnt; lia|].
    rewrite Hbb in *. exists bm2. split_and!; try done; try congruence.
    + intros p b Hp' Hb'. rewrite Hbits2, Hbits by lia. split_cmp; simpl; done.
    + intros p Hp'. destruct (decide (p = i)) as [->|].
      * rewrite Hset2. split_cmp. done.
      * rewrite Hne2, Hsets by lia. by split_cmp.
  - rewrite Hpe, Z2Nat.id in * by lia. exists bm'. split_and!; try done. 
    assert (forall p b, 0 <= p < peers -> 0 <= b < bits ->
      bm_bit bm' p b = if b <? obits then bm_bit bm p b else set_new) as Hfinal.
    { intros p b Hp' Hb'. rewrite Hbits by done. split_cmp; simpl; try done. apply Hold; lia. }
    split; [done| |by rewrite Hbb].
    intros p. rewrite Hpp, Hbb. intros Hp'. rewrite Hsets by done. split_cmp. simpl. f_equal. symmetry.
    apply grown_count; [lia|]. intros b Hb'. by apply Hfinal.
Qed.

Lemma resize_shrink bm bm1 set_new :
  wf bm1 -> bm_max_peers bm1 = bm_max_peers bm -> bm_bits bm1 <= bm_bits bm ->
  (forall p b, 0 <= p < bm_max_peers bm -> 0 <= b < bm_bits bm1 -> bm_bit bm1 p b = bm_bit bm p b) ->
  exists bm', bm_count_bits bm1 = Some bm' /\ resized bm set_new bm' /\
    bm_bits bm' = bm_bits bm1 /\ bm_dev_capacity bm' = bm_dev_capacity bm1.
Proof.
  intros Hwf Hpe Hle Hold. destruct (bm_count_bits_ok bm1 Hwf) as (bm' & -> & Hwf' & Hc' & Heq).
  exists bm'. split; [done|]. rewrite Heq at 2 3. split; [|done]. split; try done.
  intros p b Hp Hb. rewrite Heq in Hb |- *. simpl in Hb.
  change (bm_bit (set_bm_set bm1 _) p b) with (bm_bit bm1 p b). rewrite Hold by done. by split_cmp.
Qed.

(** The searches. *)
Lemma find_result bm idx start end_ op :
  wf bm -> 0 <= idx < bm_max_peers bm -> 0 <= start -> 0 <= end_ < 2 ^ 64 ->
  (exists v, hit op v = true) ->
  exists r out, bm_op (Some bm) idx start end_ op [] = Some (r, Some bm, out) /\
    (first_hit op bm idx start (last_bit bm end_) r \/
     no_hit op bm idx start (last_bit bm end_) /\
     r = match op with
         | BM_OP_FIND_BIT | BM_OP_FIND_ZERO_BIT => BSR_END_OF_BITMAP
         | _ => u64 (end_ + 1)
         end).
Proof.
  intros Hwf Hidx Hs He [v Hv].
  assert (op_args bm idx start end_ op []) as Ha by (split; try done; by destruct op; try done; intros []).
  destruct (____bm_op_reads bm idx start end_ op [] Hwf Ha) as (r & out & Hop & Hr); [by destruct op|].
  exists r, out. unfold bm_op. rewrite __bm_op_wf, Hop by done. split; [done|].
  destruct op; try done; unfold read_result in Hr; tauto.
Qed.

(** *** A small bitmap: 100 bits for each of two peers *)

Definition demo : bsr_bitmap := mk_bitmap [zero_page] (replicate 32 0) 100 8 800 2.

Lemma demo_wf : wf demo.
Proof.
  split; [eval_cmp|change (bm_bits demo) with 100; lia| |eval_cmp|reflexivity].
  apply Forall_singleton. change (p_words zero_page) with (replicate 1024 0).
  split; [by rewrite length_replicate|]. apply Forall_replicate. split; lia.
Qed.

Lemma demo_counts : counts_ok demo.
Proof.
  intros p Hp. change (bm_max_peers demo) with 2 in Hp.
  assert (p = 0 \/ p = 1) as [-> | ->] by lia; vm_compute; reflexivity.
Qed.

(** ** Properties *)

(** C26. An operation that writes the bitmap through bm_op (set or clear with any start
    and end, unaligned or beyond the last bit; merge with a start on a word boundary and
    a buffer that covers the range, otherwise the code has a BUG) always returns; it
    changes exactly the bits of its slot in the clipped range to the value the operation
    defines, leaves every other bit of every slot alone, returns the number of bits
    changed, flags each page it changed for (lazy) writeout and keeps the cached weight
    bm_set of every slot equal to the number of bits set. *)
Theorem bm_op_write bm idx start end_ op buffer :
  wf bm -> counts_ok bm -> op_args bm idx start end_ op buffer -> writes op = true ->
  let E := last_bit bm end_ in
  exists bm', bm_op (Some bm) idx start end_ op buffer =
                Some (op_count op bm idx start E buffer, Some bm', []) /\
    written op bm idx start E buffer bm' /\ counts_ok bm'.
Proof.
  intros Hwf Hc Ha Hw E. destruct (____bm_op_writes bm idx start end_ op buffer Hwf Ha Hw) as (bm' & Hop & Hwr).
  exists bm'. unfold bm_op. rewrite __bm_op_wf, Hop by done. split_and!; try done.
  eapply written_counts; try done; try apply Ha. unfold E, last_bit. lia.
Qed.

Lemma bm_op_write_witness :
  exists bm', bm_op (Some demo) 1 30 70 BM_OP_SET [] = Some (41, Some bm', []) /\ counts_ok bm' /\
    bm_bit bm' 1 70 = true /\ bm_bit bm' 1 71 = false /\ bm_bit bm' 0 50 = false.
Proof.
  destruct (bm_op_write demo 1 30 70 BM_OP_SET []) as (bm' & Hop & Hw & Hc);
    [exact demo_wf|exact demo_counts|apply fill_args; [by left|eval_cmp..]|reflexivity|].
  exists bm'. split; [exact Hop|]. split; [exact Hc|]. destruct Hw as [Hb _ _ _ _].
  split; [|split]; (rewrite Hb; [vm_compute; reflexivity|eval_cmp|eval_cmp]).
Defined.

(** The four searches of bm_op return the first matching bit of the slot at or
    after start within the clipped range, and, when there is none, BSR_END_OF_BITMAP
    (plain search) or end + 1 (range search); they leave the bitmap unchanged. *)
Theorem bm_op_find bm idx start end_ op :
  wf bm -> 0 <= idx < bm_max_peers bm -> 0 <= start -> 0 <= end_ < 2 ^ 64 ->
  (exists v, hit op v = true) ->
  exists r out, bm_op (Some bm) idx start end_ op [] = Some (r, Some bm, out) /\
    (first_hit op bm idx start (last_bit bm end_) r \/
     no_hit op bm idx start (last_bit bm end_) /\
     r = match op with
         | BM_OP_FIND_BIT | BM_OP_FIND_ZERO_BIT => BSR_END_OF_BITMAP
         | _ => u64 (end_ + 1)
         end).
Proof. apply find_result. Qed.

Lemma bm_op_find_witness :
  exists r out, bm_op (Some demo) 1 30 70 BM_OP_RANGE_FIND_ZERO_BIT [] = Some (r, Some demo, out) /\
    first_hit BM_OP_RANGE_FIND_ZERO_BIT demo 1 30 70 r.
Proof.
  destruct (bm_op_find demo 1 30 70 BM_OP_RANGE_FIND_ZERO_BIT) as (r & out & Hop & [Hf|[Hn _]]);
    [exact demo_wf|eval_cmp|lia|eval_cmp|by exists false| |].
  - exists r, out. split; [exact Hop|exact Hf].
  - exfalso. assert (30 <= 40 <= last_bit demo 70) as H by (eval_cmp).
    specialize (Hn 40 H). vm_compute in Hn. discriminate.
Defined.

(** bsr_bm_test_bit returns the value of the bit as 0 or 1 for a bit of the bitmap
    and BSR_END_OF_BITMAP for every bit number beyond it. *)
Theorem bsr_bm_test_bit_ok bm idx bitnr :
  wf bm -> 0 <= idx < bm_max_peers bm -> 0 <= bitnr ->
  exists out, bsr_bm_test_bit (Some bm) idx bitnr =
    Some (if bm_bits bm <=? bitnr then BSR_END_OF_BITMAP else b2z (bm_bit bm idx bitnr), Some bm, out).
Proof.
  intros Hwf Hidx Hb. unfold bsr_bm_test_bit. cbn [mbind option_bind].
  destruct (Z.leb_spec (bm_bits bm) bitnr); [by eexists|]. pose proof (wf_bits _ Hwf).
  destruct (____bm_op_reads bm idx bitnr bitnr BM_OP_COUNT []) as (r & out & Hop & Hr);
    [done|apply count_args; lia|done|].
  exists out. rewrite __bm_op_wf, Hop by done. cbn [mbind option_bind]. unfold read_result in Hr. rewrite Hr.
  unfold op_count, last_bit. replace (Z.to_nat _) with 1%nat by lia. simpl. by rewrite Z.add_0_r.
Qed.

Lemma bsr_bm_test_bit_ok_witness :
  exists out, bsr_bm_test_bit (Some demo) 1 99 = Some (0, Some demo, out).
Proof.
  destruct (bsr_bm_test_bit_ok demo 1 99) as (out & H); [exact demo_wf|eval_cmp|lia|].
  exists out. exact H.
Defined.

(** C28. Setting or clearing a large range page by page (__bm_many_bits_op, which may
    drop the lock between pages) ends with the same bits and the same cached weights as
    one ____bm_op over the whole range, and terminates. *)
Theorem bm_many_bits_refines bm idx start end_ op :
  wf bm -> fills op -> 0 <= idx < bm_max_peers bm -> 0 <= start -> 0 <= end_ < 2 ^ 64 ->
  exists bm1 bm2 n, __bm_many_bits_op bm idx start end_ op = Some bm1 /\
    ____bm_op bm idx start end_ op [] = Some (n, bm2, []) /\
    bm_set bm1 = bm_set bm2 /\ wf bm1 /\
    forall p b, 0 <= p < bm_max_peers bm -> 0 <= b -> bm_bit bm1 p b = bm_bit bm2 p b.
Proof.
  intros Hwf Hf Hidx Hs He.
  destruct (__bm_many_bits_op_ok bm idx start end_ op) as (bm1 & E1 & W1); try done; [lia|].
  destruct (____bm_op_writes bm idx start end_ op []) as (bm2 & E2 & W2);
    [done|by apply fill_args|by destruct Hf as [-> | ->]|].
  eexists bm1, bm2, _. split_and!; [done..| |apply W1|].
  - destruct W1 as [_ _ _ _ S1], W2 as [_ _ _ _ S2]. cbv zeta in *. by rewrite S1, S2.
  - intros p b Hp Hb. by rewrite (w_bits _ _ _ _ _ _ _ W1), (w_bits _ _ _ _ _ _ _ W2).
Qed.

Lemma bm_many_bits_refines_witness :
  exists bm1 bm2 n, bsr_bm_set_many_bits demo 1 5 1000 = Some bm1 /\
    ____bm_op demo 1 5 1000 BM_OP_SET [] = Some (n, bm2, []) /\ bm_set bm1 = bm_set bm2.
Proof.
  destruct (bm_many_bits_refines demo 1 5 1000 BM_OP_SET) as (bm1 & bm2 & n & E1 & E2 & E3 & _);
    [exact demo_wf|by left|eval_cmp|lia|lia|].
  exists bm1, bm2, n. split; [exact E1|split; [exact E2|exact E3]].
Defined.

(** The range of bits of [number] long words from word [offset] on. *)
Lemma lel_range offset number :
  0 <= offset -> 1 <= number -> (offset + number) * BITS_PER_LONG < 2 ^ 64 ->
  u64 (offset * BITS_PER_LONG) = 64 * offset /\
  u64 (u64 (offset * BITS_PER_LONG) + number * BITS_PER_LONG - 1) = 64 * (offset + number) - 1.
Proof.
  unfold BITS_PER_LONG. intros. rewrite (u64_id (offset * 64)) by lia. split; [lia|]. rewrite u64_id; lia.
Qed.

Lemma lel_aligned offset : (64 * offset) mod 32 = 0.
Proof. replace (64 * offset) with (2 * offset * 32) by lia. by apply Z.mod_mul. Qed.

(** Extracting words of one slot with bsr_bm_get_lel and merging them with
    bsr_bm_merge_lel into a slot of another bitmap of the same size makes the target
    slot the union of both on that word range, changes nothing else, and never writes
    more than the number of long words requested into the buffer. *)
Theorem lel_transfer a b i j offset number :
  wf a -> wf b -> bm_bits a = bm_bits b -> 0 <= i < bm_max_peers a -> 0 <= j < bm_max_peers b ->
  0 <= offset -> 1 <= number -> (offset + number) * BITS_PER_LONG < 2 ^ 64 ->
  exists r words n b',
    bsr_bm_get_lel (Some a) i offset number = Some (r, Some a, words) /\
    (Z.of_nat (length words) <= 2 * number) /\
    bsr_bm_merge_lel (Some b) j offset number words = Some (n, Some b', []) /\
    forall p x, 0 <= p < bm_max_peers b -> 0 <= x < bm_bits b ->
      bm_bit b' p x =
      bm_bit b p x || (bool_decide (p = j /\ 64 * offset <= x < 64 * (offset + number)) && bm_bit a i x).
Proof.
  intros Hwa Hwb Hbits Hi Hj Ho Hn Hov. pose proof (lel_aligned offset) as Hal.
  unfold bsr_bm_get_lel, bsr_bm_merge_lel, bm_op. destruct (lel_range offset number Ho Hn Hov) as [-> ->].
  set (s := 64 * offset) in *. set (e := 64 * (offset + number) - 1). unfold BITS_PER_LONG in Hov.
  destruct (____bm_op_reads a i s e BM_OP_EXTRACT []) as (r & words & Hget & Hx);
    [done|split; try done; lia|done|].
  destruct Hx as (Hlen & Hwu & Hwb'). set (E := last_bit a e) in *.
  assert (last_bit b e = E) as HE by (unfold E, last_bit; by rewrite Hbits).
  pose proof (Z.div_mod (Z.max 0 (E + 1 - s) + 31) 32 ltac:(lia)) as Hdm.
  pose proof (Z.mod_pos_bound (Z.max 0 (E + 1 - s) + 31) 32 ltac:(lia)) as Hmm.
  destruct (____bm_op_writes b j s e BM_OP_MERGE words) as (b' & Hmerge & Hw);
    [done|split; try done; rewrite ?HE; lia|done|]. rewrite HE in *.
  eexists r, words, _, b'. rewrite !__bm_op_wf, Hget, Hmerge by done. split_and!; [done| |done|].
  { assert (E <= e) by (unfold E, last_bit; lia). lia. }
  intros p x Hp Hxb. rewrite (w_bits _ _ _ _ _ _ _ Hw) by lia. unfold op_bit.
  assert (E = Z.min e (bm_bits b - 1)) as HEd by (unfold E, last_bit; by rewrite Hbits).
  case_bool_decide as Hrange.
  - destruct Hrange as [-> Hr]. rewrite Z.eqb_refl. split_cmp. simpl. unfold inp. rewrite Hwb' by lia.
    split_cmp. simpl. by replace (s + (x - s)) with x by lia.
  - rewrite orb_false_r. destruct (Z.eqb_spec p j); simpl; [|done]. split_cmp; simpl; try done.
Qed.

Lemma lel_transfer_witness :
  exists r words n b', bsr_bm_get_lel (Some demo) 0 0 2 = Some (r, Some demo, words) /\
    bsr_bm_merge_lel (Some demo) 1 0 2 words = Some (n, Some b', []) /\ Z.of_nat (length words) <= 4.
Proof.
  destruct (lel_transfer demo demo 0 1 0 2) as (r & words & n & b' & H1 & H2 & H3 & _);
    [exact demo_wf|exact demo_wf|reflexivity|eval_cmp..|].
  exists r, words, n, b'. split; [exact H1|split; [exact H3|exact H2]].
Defined.

(** C27. bsr_bm_resize to a new capacity either fails with -ENOSPC (the on-disk area is
    too small) or -ENOMEM (an allocation failed), leaving the bitmap as it was, or
    succeeds with one bit per 4 KiB: old bits keep their value, new bits are set or
    cleared as asked, the bitmap is well formed again and the cached weights count the
    set bits. *)
Theorem bsr_bm_resize_ok alloc ldev bm capacity set_new :
  sized bm -> counts_ok bm -> 0 < capacity <= 2 ^ 53 -> capacity <> bm_dev_capacity bm ->
  exists err bm', bsr_bm_resize alloc ldev bm capacity set_new = Some (err, bm') /\
    ((err = - ENOSPC /\ bm' = bm /\
       exists md, ldev = Some md /\ bsr_md_on_disk_bits md (bm_max_peers bm) < (capacity + 7) / 8) \/
     (err = - ENOMEM /\ bm' = bm /\ alloc = false) \/
     (err = 0 /\ resized bm set_new bm' /\ bm_bits bm' = (capacity + 7) / 8 /\ bm_dev_capacity bm' = capacity)).
Proof.
  intros Hsz Hc Hcap Hne. unfold bsr_bm_resize.
  rewrite (proj2 (Z.eqb_neq _ _) Hne), (proj2 (Z.eqb_neq capacity 0)) by lia.
  pose proof (resize_dimensions capacity (bm_max_peers bm) (sz_peers _ Hsz) Hcap) as (Hb & Hbr & Hw & Hroom).
  set (bits := BM_SECT_TO_BIT _) in *. set (words := _ / BITS_PER_BM_WORD) in *. set (want := Z.shiftr _ _) in *.
  cbv zeta. destruct (match ldev with Some _ => _ | None => _ end) eqn:Hspace.
  { destruct ldev as [md|]; [|done]. apply Z.ltb_lt in Hspace. eexists _, _. split; [done|left].
    split_and!; try done. exists md. by rewrite <- Hb. }
  destruct (bm_realloc_pages alloc (bm_pages bm) want) as [np|] eqn:Hnp; cycle 1.
  { eexists _, _. split; [done|right; left]. split_and!; try done.
    by eapply realloc_none. }
  destruct (realloc_ok alloc (bm_pages bm) want np Hw (sz_pages _ Hsz) Hnp) as (Hok & Hlen & Hsame).
  set (bm1 := mk_bitmap np (bm_set bm) bits words capacity (bm_max_peers bm)).
  assert (sized bm1) as Hsz1 by (destruct Hsz; split; simpl; try done; [lia|by rewrite Hlen]).
  assert (wf bm1) as Hwf1 by (apply sized_wf; simpl; [done|lia]).
  assert (forall p b, 0 <= p < bm_max_peers bm -> 0 <= b < bm_bits bm -> b < bits -> bm_bit bm1 p b = bm_bit bm p b) as Hold.
  { intros p b Hp Hb' Hb''. by apply resized_bits. }
  change (bm_bits bm <? bits) with (bm_bits bm <? bm_bits bm1).
  destruct (Z.ltb_spec (bm_bits bm) (bm_bits bm1)) as [Hg|Hg].
  - destruct (resize_grow bm bm1 set_new) as (bm' & E & Hr & H1 & H2); try done.
    { intros p b Hp Hb'. apply Hold; try done. simpl in Hg. lia. }
    change (for_slots _ _ _ _ ) with (for_slots (Z.to_nat (bm_max_peers bm1)) 0 (init_new_bits (bm_bits bm) (bm_bits bm1) set_new) bm1).
    rewrite E. cbn [mbind option_bind]. eexists _, _. split; [done|right; right]. by rewrite H1, <- Hb.
  - destruct (resize_shrink bm bm1 set_new) as (bm' & E & Hr & H1 & H2); try done.
    { intros p b Hp Hb'. apply Hold; try done; simpl in *; lia. }
    rewrite E. cbn [mbind option_bind]. eexists _, _. split; [done|right; right]. by rewrite H1, <- Hb.
Qed.

Lemma bsr_bm_resize_ok_witness :
  exists bm', bsr_bm_resize true None demo 1600 true = Some (0, bm') /\ counts_ok bm' /\
    bm_bits bm' = 200 /\ bm_bit bm' 1 99 = false /\ bm_bit bm' 1 100 = true.
Proof.
  destruct (bsr_bm_resize_ok true None demo 1600 true) as (err & bm' & H & [(_ & _ & md & Hn & _)|[(_ & _ & Hn)|(-> & Hr & Hb & _)]]);
    [exact (wf_sized _ demo_wf)|exact demo_counts|lia|discriminate|discriminate Hn|discriminate Hn|].
  exists bm'. split; [exact H|]. destruct Hr as [_ Hc Hbits]. rewrite Hb in Hbits.
  split; [exact Hc|]. split; [exact Hb|].
  split; (rewrite Hbits; [vm_compute; reflexivity|eval_cmp|eval_cmp]).
Defined.

End BitmapApi.
