(* ===== verification/BitmapRle.v ===== *)
(** * The bitmap exchange (src/bsr/bsr_main.c, src/bsr/bsr_receiver.c)

    A node sends its bitmap to a peer as a sequence of packets, each either
    run length encoded with variable length integers or plain words; the peer
    merges them.  Both keep a transfer context with the current position.
    [Sender] models [fill_bitmap_rle_bits], [send_bitmap_rle_or_plain] and
    [_bsr_send_bitmap], [Receiver] models [recv_bm_rle_bits],
    [receive_bitmap_plain], [decode_bitmap_c] and the packet dispatch of
    [receive_bitmap]. *)

From S2P Require Import Prelude Vli Hweight Bitmap BitmapApi.

Module BitmapRle.
Import Bitmap BitmapApi Vli.

(** ** The transfer context *)

Record bm_xfer_ctx := mk_ctx {
  c_bm_bits : Z;
  c_bm_words : Z;
  bit_offset : Z;
  word_offset : Z;
  packets : Z * Z;
  bytes : Z * Z }.

Definition bm_xfer_ctx_bit_to_word_offset (c : bm_xfer_ctx) : bm_xfer_ctx :=
  mk_ctx (c_bm_bits c) (c_bm_words c) (bit_offset c) (Z.shiftr (bit_offset c) 6) (packets c) (bytes c).

Definition set_offsets (c : bm_xfer_ctx) (bo wo : Z) : bm_xfer_ctx :=
  mk_ctx (c_bm_bits c) (c_bm_words c) bo wo (packets c) (bytes c).

(** The statistics of a packet: index 1 for plain, 0 for compressed. *)
Definition add_stats (c : bm_xfer_ctx) (plain : bool) (n : Z) : bm_xfer_ctx :=
  let (p0, p1) := packets c in
  let (b0, b1) := bytes c in
  mk_ctx (c_bm_bits c) (c_bm_words c) (bit_offset c) (word_offset c)
    (if plain then (p0, u32 (p1 + 1)) else (u32 (p0 + 1), p1))
    (if plain then (b0, u32 (b1 + n)) else (u32 (b0 + n), b1)).

(** ** The header byte of a compressed packet *)

Definition RLE_VLI_Bits : Z := 2.

Definition dcbp_set_code (enc code : Z) : option Z :=
  if Z.land code (lnot_w 32 0xf) =? 0 then Some (u8 (Z.lor (Z.land enc (lnot_w 32 0xf)) code)) else None.
Definition dcbp_set_start (enc : Z) (set : bool) : Z :=
  u8 (Z.lor (Z.land enc (lnot_w 32 0x80)) (if set then 0x80 else 0)).
Definition dcbp_set_pad_bits (enc n : Z) : option Z :=
  if Z.land n (lnot_w 32 0x7) =? 0
  then Some (u8 (Z.lor (Z.land enc (u32 (Z.shiftl (lnot_w 32 0x7) 4))) (Z.shiftl n 4)))
  else None.

Definition dcbp_get_code (enc : Z) : Z := Z.land enc 0x0f.
Definition dcbp_get_start (enc : Z) : bool := negb (Z.land enc 0x80 =? 0).
Definition dcbp_get_pad_bits (enc : Z) : Z := Z.land (Z.shiftr enc 4) 0x7.

(** [struct p_compressed_bm]. *)
Record p_compressed_bm := mk_pcb { encoding : Z; code : list Z }.

Definition RANGE_FIND_NEXT_BIT : Z := 25000000.
Definition BSR_SOCKET_BUFFER_SIZE : Z := 4096.

(** ** The sender *)

(** The [for (;;)] that searches the end of a run in steps of
    [RANGE_FIND_NEXT_BIT]; the pair is [tmp] and the last [offset]. *)
Fixpoint find_run_end (fuel : nat) (b : option bsr_bitmap) (idx toggle offset bm_bits : Z) : option (Z * Z) :=
  match fuel with
  | O => None
  | S fuel =>
      '(tmp, _, _) ← (if toggle =? 0
                      then bsr_bm_range_find_next_zero b idx offset (u64 (offset + RANGE_FIND_NEXT_BIT))
                      else bsr_bm_range_find_next b idx offset (u64 (offset + RANGE_FIND_NEXT_BIT)));
      if (bm_bits <=? tmp) || (tmp <? u64 (offset + RANGE_FIND_NEXT_BIT + 1)) then Some (tmp, offset)
      else find_run_end fuel b idx toggle tmp bm_bits
  end.

(** The local variables of the encoding loop. *)
Record enc_st := mk_enc {
  e_enc : Z; e_bs : Bitstream.bitstream; e_toggle : Z; e_plain : Z; e_c : bm_xfer_ctx }.

(** How the encoding loop ends: at the end of the bitmap or with a full
    buffer; with the early returns 0 and -1; or in the recovery of a
    zero run of set bits, which marks the bit at [offset] out of sync and
    searches again (only when the bitmap is modified during the scan). *)
Inductive enc_end :=
| Enc_done (s : enc_st) | Enc_give_up (s : enc_st) | Enc_error (s : enc_st) | Enc_restore (offset : Z) (s : enc_st).

Definition b_not (t : Z) : Z := if t =? 0 then 1 else 0.

(** The [do { ... } while (c->bit_offset < c->bm_bits)] loop. *)
Fixpoint enc_loop (fuel : nat) (b : option bsr_bitmap) (idx : Z) (s : enc_st) : option enc_end :=
  match fuel with
  | O => None
  | S fuel =>
      let c := e_c s in
      let again (s : enc_st) :=
        if bit_offset (e_c s) <? c_bm_bits (e_c s) then enc_loop fuel b idx s else Some (Enc_done s) in
      '(tmp, offset) ← find_run_end (S (Z.to_nat (c_bm_bits c))) b idx (e_toggle s) (bit_offset c) (c_bm_bits c);
      let tmp := if c_bm_bits c <? tmp then c_bm_bits c else tmp in
      let rl := u64 (tmp - bit_offset c) in
      if (e_toggle s =? 2) && (rl =? 0) then
        again (mk_enc (dcbp_set_start (e_enc s) true) (e_bs s) (b_not (e_toggle s)) (e_plain s) c)
      else
        let s := if e_toggle s =? 2
                 then mk_enc (dcbp_set_start (e_enc s) false) (e_bs s) (e_toggle s) (e_plain s) c
                 else s in
        if rl =? 0 then
          if e_toggle s =? 0 then Some (Enc_restore offset s) else Some (Enc_error s)
        else
          let (bits, bs) := Bitstream.vli_encode_bits (e_bs s) rl in
          if bits =? - ENOBUFS then Some (Enc_done s)
          else if bits <=? 0 then Some (Enc_give_up s)
          else
            again (mk_enc (e_enc s) bs (b_not (e_toggle s)) (u64 (e_plain s + rl))
                     (set_offsets c tmp (word_offset c)))
  end.

(** [fill_bitmap_rle_bits]: the returned length, the packet and the context.
    [None] in the recovery branch, which is not modelled. *)
Definition fill_bitmap_rle_bits (use_rle : bool) (agreed_pro_version : Z) (b : option bsr_bitmap) (idx : Z)
    (p : p_compressed_bm) (size : Z) (c : bm_xfer_ctx) : option (Z * p_compressed_bm * bm_xfer_ctx) :=
  if negb use_rle || (agreed_pro_version <? 90) then Some (0, p, c)
  else if c_bm_bits c <=? bit_offset c then Some (0, p, c)
  else
    let code0 := replicate (Z.to_nat size) 0 ++ drop (Z.to_nat size) (code p) in
    let bs := Bitstream.bitstream_init code0 size 0 in
    e ← enc_loop (S (S (Z.to_nat (c_bm_bits c)))) b idx (mk_enc (encoding p) bs 2 0 c);
    match e with
    | Enc_restore _ _ => None
    | Enc_error s => Some (-1, mk_pcb (e_enc s) (Bitstream.buf (e_bs s)), e_c s)
    | Enc_give_up s => Some (0, mk_pcb (e_enc s) (Bitstream.buf (e_bs s)), e_c s)
    | Enc_done s =>
        let cur := Bitstream.cur (e_bs s) in
        let len := u32 (Bitstream.b cur + b2z (negb (Bitstream.bit cur =? 0))) in
        let c := e_c s in
        if e_plain s <? Z.shiftl len 3 then
          let c := set_offsets c (u64 (bit_offset c - e_plain s)) (word_offset c) in
          let c := bm_xfer_ctx_bit_to_word_offset c in
          let c := set_offsets c (u64 (word_offset c * BITS_PER_LONG)) (word_offset c) in
          Some (0, mk_pcb (e_enc s) (Bitstream.buf (e_bs s)), c)
        else
          let c := bm_xfer_ctx_bit_to_word_offset c in
          enc ← dcbp_set_pad_bits (e_enc s) (Z.land (u32 (8 - Bitstream.bit cur)) 0x7);
          Some (s32 len, mk_pcb enc (Bitstream.buf (e_bs s)), c)
    end.

(** A packet on the wire. *)
Inductive packet :=
| P_COMPRESSED_BITMAP (enc : Z) (code : list Z)
| P_BITMAP (words : list Z).

(** The bytes of a buffer as little-endian 32-bit words. *)
Fixpoint words_of (l : list Z) : list Z :=
  match l with
  | b0 :: b1 :: b2 :: b3 :: l => le_of_bytes [b0; b1; b2; b3] :: words_of l
  | _ => []
  end.

(** [send_bitmap_rle_or_plain]: the returned value, the packet handed to the
    transport, and the context.  [mem1], [mem2] tell whether the two
    allocations succeed, [err] is the result of [__send_command]. *)
Definition send_bitmap_rle_or_plain (mem1 mem2 : bool) (err header_size : Z) (use_rle : bool)
    (agreed_pro_version : Z) (b : option bsr_bitmap) (idx : Z) (c : bm_xfer_ctx)
  : option (Z * option packet * bm_xfer_ctx) :=
  if negb mem1 then Some (- ENOMEM, None, c)
  else
    let size := BSR_SOCKET_BUFFER_SIZE - header_size - 1 in
    let tpc := mk_pcb 0 (replicate (Z.to_nat size) 0) in
    '(len, tpc, c) ← fill_bitmap_rle_bits use_rle agreed_pro_version b idx tpc size c;
    if len <? 0 then Some (- EIO, None, c)
    else if negb mem2 then Some (- EIO, None, c)
    else
      '(len, pkt, c) ←
        (if negb (len =? 0) then
           enc ← dcbp_set_code (encoding tpc) RLE_VLI_Bits;
           let c := add_stats c false (header_size + 1 + len) in
           Some (if c_bm_bits c <=? bit_offset c then 0 else len,
                 P_COMPRESSED_BITMAP enc (take (Z.to_nat len) (code tpc)), c)
         else
           let data_size := BSR_SOCKET_BUFFER_SIZE - header_size in
           let num_words := Z.min (data_size / 8) (u64 (c_bm_words c - word_offset c)) in
           let len := s32 (num_words * 8) in
           let pu := words_of (encoding tpc :: code tpc) in
           words ← (if negb (len =? 0) then
                      '(_, _, out) ← bsr_bm_get_lel b idx (word_offset c) num_words;
                      Some (take (Z.to_nat (2 * num_words)) (out ++ drop (length out) pu))
                    else Some []);
           let wo := u64 (word_offset c + num_words) in
           let c := set_offsets c (u64 (wo * BITS_PER_LONG)) wo in
           let c := add_stats c true (header_size + len) in
           let c := if c_bm_bits c <? bit_offset c then set_offsets c (c_bm_bits c) (word_offset c) else c in
           Some (len, P_BITMAP words, c));
      if err =? 0 then Some (if len =? 0 then 0 else 1, Some pkt, c)
      else Some (- EIO, Some pkt, c).

(** ** The receiver *)

(** [receive_bitmap_plain]; [words] are the received 32-bit words. *)
Definition receive_bitmap_plain (header_size : Z) (b : option bsr_bitmap) (idx size : Z) (words : list Z)
    (c : bm_xfer_ctx) : option (Z * option bsr_bitmap * bm_xfer_ctx) :=
  let data_size := BSR_SOCKET_BUFFER_SIZE - header_size in
  let num_words := Z.min (data_size / 8) (u64 (c_bm_words c - word_offset c)) in
  let want := u64 (num_words * 8) in
  if negb (want =? size) then Some (- EIO, b, c)
  else if want =? 0 then Some (0, b, c)
  else
    '(_, b, _) ← bsr_bm_merge_lel b idx (word_offset c) num_words words;
    let wo := u64 (word_offset c + num_words) in
    let c := set_offsets c (u64 (wo * BITS_PER_LONG)) wo in
    let c := if c_bm_bits c <? bit_offset c then set_offsets c (c_bm_bits c) (word_offset c) else c in
    Some (1, b, c).

(** The [for (have = bits; have > 0; ...)] loop of [recv_bm_rle_bits]: the
    error with the bitmap so far, or the bitmap and the final position. *)
Fixpoint dec_loop (fuel : nat) (b : option bsr_bitmap) (idx bm_bits : Z) (bs : Bitstream.bitstream)
    (look_ahead have s : Z) (toggle : bool) : option (Z * option bsr_bitmap + option bsr_bitmap * Z) :=
  match fuel with
  | O => None
  | S fuel =>
      if have <=? 0 then Some (inr (b, s))
      else
        '(rl, bits) ← vli_decode_bits look_ahead;
        let e := u64 (s + rl - 1) in
        if bits <=? 0 then Some (inl (- EIO, b))
        else if toggle && (bm_bits <=? e) then Some (inl (- EIO, b))
        else
          b ← (if toggle then bm ← b; Some <$> bsr_bm_set_many_bits bm idx s e else Some b);
          if have <? bits then Some (inl (- EIO, b))
          else
            let look_ahead := if bits <? 64 then Z.shiftr look_ahead bits else 0 in
            let have := have - bits in
            '(bits, tmp, bs) ← Bitstream.bitstream_get_bits bs (64 - have);
            if bits <? 0 then Some (inl (- EIO, b))
            else
              tmp ← tmp;
              dec_loop fuel b idx bm_bits bs (Z.lor look_ahead (u64 (Z.shiftl tmp have))) (have + bits)
                (u64 (s + rl)) (negb toggle)
  end.

(** [recv_bm_rle_bits]; [len] is the length of the code. *)
Definition recv_bm_rle_bits (b : option bsr_bitmap) (idx : Z) (p : p_compressed_bm) (c : bm_xfer_ctx) (len : Z)
  : option (Z * option bsr_bitmap * bm_xfer_ctx) :=
  let bs := Bitstream.bitstream_init (code p) len (dcbp_get_pad_bits (encoding p)) in
  '(bits, look_ahead, bs) ← Bitstream.bitstream_get_bits bs 64;
  if bits <? 0 then Some (- EIO, b, c)
  else
    look_ahead ← look_ahead;
    r ← dec_loop (S (Z.to_nat (8 * len))) b idx (c_bm_bits c) bs look_ahead bits (bit_offset c)
          (dcbp_get_start (encoding p));
    match r with
    | inl (err, b) => Some (err, b, c)
    | inr (b, s) =>
        let c := bm_xfer_ctx_bit_to_word_offset (set_offsets c s (word_offset c)) in
        Some (b2z (negb (s =? c_bm_bits c)), b, c)
    end.

(** [decode_bitmap_c]; [len] is the length of the packet's payload. *)
Definition decode_bitmap_c (b : option bsr_bitmap) (idx : Z) (p : p_compressed_bm) (c : bm_xfer_ctx) (len : Z)
  : option (Z * option bsr_bitmap * bm_xfer_ctx) :=
  if dcbp_get_code (encoding p) =? RLE_VLI_Bits then recv_bm_rle_bits b idx p c (len - 1)
  else Some (- EIO, b, c).

(** The dispatch of [receive_bitmap] on the command, with its size checks and
    statistics; 0 means the transfer is finished. *)
Definition receive_packet (header_size : Z) (b : option bsr_bitmap) (idx : Z) (pkt : packet) (c : bm_xfer_ctx)
  : option (Z * option bsr_bitmap * bm_xfer_ctx) :=
  match pkt with
  | P_BITMAP words =>
      let size := 4 * Z.of_nat (length words) in
      '(err, b, c) ← receive_bitmap_plain header_size b idx size words c;
      Some (err, b, add_stats c true (header_size + size))
  | P_COMPRESSED_BITMAP enc code =>
      let size := 1 + Z.of_nat (length code) in
      if BSR_SOCKET_BUFFER_SIZE - header_size <? size then Some (- EIO, b, c)
      else if size <=? 1 then Some (- EIO, b, c)
      else
        '(err, b, c) ← decode_bitmap_c b idx (mk_pcb enc code) c size;
        Some (err, b, add_stats c false (header_size + size))
  end.

(** ** The transfer as a whole *)

(** [do { err = send_bitmap_rle_or_plain(...) } while (err > 0)], with
    working allocations and transport: the last [err] and the packets. *)
Fixpoint send_loop (fuel : nat) (header_size : Z) (use_rle : bool) (version : Z) (b : option bsr_bitmap) (idx : Z)
    (c : bm_xfer_ctx) : option (Z * list packet) :=
  match fuel with
  | O => None
  | S fuel =>
      '(err, pkt, c) ← send_bitmap_rle_or_plain true true 0 header_size use_rle version b idx c;
      let pkts := match pkt with Some p => [p] | None => [] end in
      if 0 <? err then
        '(err, rest) ← send_loop fuel header_size use_rle version b idx c; Some (err, pkts ++ rest)
      else Some (err, pkts)
  end.

Definition xfer_ctx_init (b : option bsr_bitmap) : bm_xfer_ctx :=
  mk_ctx (bsr_bm_bits b) (bsr_bm_words b) 0 0 (0, 0) (0, 0).

(** [_bsr_send_bitmap]: success, the packets and the bitmap.  [full_sync]: the
    backing device is attached and the peer's full sync flag is set. *)
Definition _bsr_send_bitmap (full_sync : bool) (header_size : Z) (use_rle : bool) (version : Z)
    (b : option bsr_bitmap) (idx : Z) : option (bool * list packet * option bsr_bitmap) :=
  match b with
  | None => Some (false, [], None)
  | Some bm =>
      bm ← (if full_sync then bsr_bm_set_many_bits bm idx 0 BSR_END_OF_BITMAP else Some bm);
      let c := xfer_ctx_init (Some bm) in
      '(err, pkts) ← send_loop (S (S (Z.to_nat (c_bm_bits c + c_bm_words c)))) header_size use_rle version (Some bm) idx c;
      Some (err =? 0, pkts, Some bm)
  end.

(** The packets of one transfer arriving in order, until the receiver
    reports the end or an error. *)
Fixpoint receive_all (header_size : Z) (b : option bsr_bitmap) (idx : Z) (pkts : list packet) (c : bm_xfer_ctx)
  : option (Z * option bsr_bitmap * list packet) :=
  match pkts with
  | [] => Some (1, b, [])
  | p :: pkts =>
      '(err, b, c) ← receive_packet header_size b idx p c;
      if 0 <? err then receive_all header_size b idx pkts c else Some (err, b, pkts)
  end.

(** ** Runs of bits *)

(** [rls] are the lengths of alternating runs of [f] from [off] on, the first
    one of value [v]. *)
Fixpoint runs_ok (f : Z -> bool) (v : bool) (off : Z) (rls : list Z) : Prop :=
  match rls with
  | [] => True
  | rl :: rls => 1 <= rl /\ (forall b, off <= b < off + rl -> f b = v) /\ runs_ok f (negb v) (off + rl) rls
  end.

Definition sum (l : list Z) : Z := foldr Z.add 0 l.

(** The value of the run after [rls]. *)
Definition next_value (v : bool) (rls : list Z) : bool := xorb v (Nat.odd (length rls)).

Lemma sum_snoc l x : sum (l ++ [x]) = sum l + x.
Proof. unfold sum. induction l as [|y l IH]; simpl; lia. Qed.

Lemma next_value_snoc v l x : next_value v (l ++ [x]) = negb (next_value v l).
Proof.
  unfold next_value. rewrite length_app. simpl. rewrite Nat.add_1_r, Nat.odd_succ, <- Nat.negb_odd.
  by destruct v, (Nat.odd (length l)).
Qed.

Lemma next_value_cons v l x : next_value v (x :: l) = next_value (negb v) l.
Proof.
  unfold next_value. simpl length. rewrite Nat.odd_succ, <- Nat.negb_odd.
  by destruct v, (Nat.odd (length l)).
Qed.

Lemma runs_snoc f v off rls rl :
  runs_ok f v off rls -> 1 <= rl ->
  (forall b, off + sum rls <= b < off + sum rls + rl -> f b = next_value v rls) ->
  runs_ok f v off (rls ++ [rl]).
Proof.
  revert v off. induction rls as [|r rls IH]; intros v off Hr H1 Hb; cbn [runs_ok app] in *.
  - split_and!; [done| |done]. intros b Hb'. rewrite Hb by (simpl; lia). unfold next_value. simpl. apply xorb_false_r.
  - destruct Hr as (Hr1 & Hrb & Hr). split_and!; [done..|]. apply IH; [done..|].
    intros b Hb'. rewrite Hb, next_value_cons by (simpl; lia). done.
Qed.

Lemma runs_pos f v off rls : runs_ok f v off rls -> Z.of_nat (length rls) <= sum rls.
Proof.
  revert v off. induction rls as [|r rls IH]; intros v off; cbn [runs_ok length]; [done|].
  intros (H1 & _ & Hr). specialize (IH _ _ Hr). simpl. lia.
Qed.

Lemma runs_items f v off rls :
  runs_ok f v off rls -> sum rls <= VLI_MAX -> Forall Bitstream.item_ok (map Bitstream.code_item rls).
Proof.
  revert v off. induction rls as [|r rls IH]; intros v off; cbn [runs_ok map]; [done|].
  intros (H1 & _ & Hr) Hs. pose proof (runs_pos _ _ _ _ Hr). simpl in Hs. constructor.
  - apply Bitstream.code_item_spec. lia.
  - apply (IH _ _ Hr). unfold sum in *. lia.
Qed.

(** *** The header byte *)

Definition byte_range : list Z := map Z.of_nat (seq 0 256).

Lemma in_byte_range e : in_u 8 e -> In e byte_range.
Proof. intros He. apply in_map_iff. exists (Z.to_nat e). unfold in_u in He. split; [lia|]. apply in_seq. lia. Qed.

Lemma set_start_spec e v :
  in_u 8 e -> in_u 8 (dcbp_set_start e v) /\ dcbp_get_start (dcbp_set_start e v) = v.
Proof.
  intros He.
  assert (forallb (fun e => forallb (fun v => (0 <=? dcbp_set_start e v) && (dcbp_set_start e v <? 256)
     && Bool.eqb (dcbp_get_start (dcbp_set_start e v)) v) [true; false]) byte_range = true) as H by (vm_compute; done).
  rewrite forallb_forall in H. specialize (H e (in_byte_range e He)). rewrite forallb_forall in H.
  specialize (H v ltac:(destruct v; simpl; auto)). rewrite !andb_true_iff in H. destruct H as [[H1 H2] H3].
  split; [split; [by apply Z.leb_le|by apply Z.ltb_lt]|by apply eqb_prop].
Qed.

(** Padding and code are stored beside the start bit. *)
Lemma set_pad_code_spec e n :
  in_u 8 e -> 0 <= n < 8 ->
  exists e1 e2, dcbp_set_pad_bits e n = Some e1 /\ in_u 8 e1 /\ dcbp_set_code e1 RLE_VLI_Bits = Some e2 /\
    dcbp_get_start e2 = dcbp_get_start e /\ dcbp_get_pad_bits e2 = n /\ dcbp_get_code e2 = RLE_VLI_Bits.
Proof.
  intros He Hn.
  assert (forallb (fun e => forallb (fun n => match dcbp_set_pad_bits e n with
     | Some e1 => match dcbp_set_code e1 RLE_VLI_Bits with
       | Some e2 => Bool.eqb (dcbp_get_start e2) (dcbp_get_start e) && (dcbp_get_pad_bits e2 =? n)
                    && (dcbp_get_code e2 =? RLE_VLI_Bits)
       | None => false end
     | None => false end) (map Z.of_nat (seq 0 8))) byte_range = true) as H by (vm_compute; done).
  rewrite forallb_forall in H. specialize (H e (in_byte_range e He)). rewrite forallb_forall in H.
  specialize (H n). destruct (dcbp_set_pad_bits e n) as [e1|] eqn:E1; cycle 1.
  { assert (false = true) by (apply H, in_map_iff; exists (Z.to_nat n); split; [lia|]; apply in_seq; lia). done. }
  exists e1. destruct (dcbp_set_code e1 RLE_VLI_Bits) as [e2|]; cycle 1.
  { assert (false = true) by (apply H, in_map_iff; exists (Z.to_nat n); split; [lia|]; apply in_seq; lia). done. }
  exists e2. rewrite !andb_true_iff in H. destruct H as [[H1 H2] H3].
  { apply in_map_iff. exists (Z.to_nat n). split; [lia|]. apply in_seq. lia. }
  assert (in_u 8 e1) as He1.
  { unfold dcbp_set_pad_bits in E1. destruct (_ =? 0); [|done]. injection E1 as <-. by apply wrap_in_u. }
  split_and!; try done; [by apply eqb_prop|by apply Z.eqb_eq..].
Qed.

(** ** The sender *)

Section Sender.
Context (bm : bsr_bitmap) (idx : Z).
Hypothesis Hwf : wf bm.
Hypothesis Hidx : 0 <= idx < bm_max_peers bm.

Abbreviation bits := (bm_bits bm).
Abbreviation f := (bm_bit bm idx).

(** [t] ends a run of bits other than [v] that starts at [off]. *)
Definition run_end (v : bool) (off t : Z) : Prop :=
  off <= t <= bits /\ (forall b, off <= b < t -> f b = negb v) /\ (t < bits -> f t = v).

Lemma find_run_end_ok fuel toggle off :
  0 <= off <= bits -> bits - off < Z.of_nat fuel ->
  exists tmp o, find_run_end fuel (Some bm) idx toggle off bits = Some (tmp, o) /\
    run_end (negb (toggle =? 0)) off (if bits <? tmp then bits else tmp).
Proof.
  pose proof (wf_bits _ Hwf) as Hb. revert off. induction fuel as [|fuel IH]; intros off Hoff Hfuel; [lia|].
  cbn [find_run_end]. unfold RANGE_FIND_NEXT_BIT.
  set (op := if toggle =? 0 then BM_OP_RANGE_FIND_ZERO_BIT else BM_OP_RANGE_FIND_BIT).
  rewrite (u64_id (off + 25000000)), (u64_id (off + 25000000 + 1)) by lia.
  destruct (find_result bm idx off (off + 25000000) op) as (r & out & Hop & Hr);
    [done|done|lia|lia|subst op; destruct (toggle =? 0); [by exists false|by exists true]|].
  assert ((if toggle =? 0 then bsr_bm_range_find_next_zero (Some bm) idx off (off + 25000000)
    else bsr_bm_range_find_next (Some bm) idx off (off + 25000000)) = Some (r, Some bm, out)) as ->.
  { rewrite <- Hop. subst op. by destruct (toggle =? 0). }
  cbn [mbind option_bind].
  assert (forall b, hit op b = Bool.eqb b (negb (toggle =? 0))) as Hhit.
  { intros b. subst op. by destruct (toggle =? 0), b. }
  unfold last_bit in Hr. destruct Hr as [(Hr1 & Hr2 & Hr3)|[Hno Hr]].
  - rewrite (proj2 (Z.ltb_lt r _)), orb_true_r by lia. eexists _, _. split; [done|].
    destruct (Z.ltb_spec bits r); [lia|]. split_and!; [lia..| |].
    + intros b Hb'. specialize (Hr3 b Hb'). rewrite Hhit in Hr3. by destruct (f b), (toggle =? 0).
    + intros _. rewrite Hhit in Hr2. by apply eqb_prop.
  - assert (r = off + 25000000 + 1) as ->.
    { subst op. destruct (toggle =? 0); rewrite Hr; apply u64_id; lia. }
    assert (forall b, off <= b < Z.min (off + 25000000 + 1) bits -> f b = negb (negb (toggle =? 0))) as Hrun.
    { intros b Hb'. specialize (Hno b ltac:(lia)). rewrite Hhit in Hno. by destruct (f b), (toggle =? 0). }
    rewrite (Z.ltb_irrefl (off + 25000000 + 1)), orb_false_r.
    destruct (Z.leb_spec bits (off + 25000000 + 1)).
    + eexists _, _. split; [done|]. replace (if _ <? _ then _ else _) with bits by (split_cmp; lia).
      split_and!; [lia..|intros; apply Hrun; lia|lia].
    + destruct (IH (off + 25000000 + 1)) as (tmp & o & -> & Hend & Hbits & Hhit'); [lia..|].
      eexists _, _. split; [done|]. split_and!; [lia..| |done].
      intros b Hb'. destruct (Z.lt_ge_cases b (off + 25000000 + 1)); [apply Hrun; lia|apply Hbits; lia].
Qed.

(** The invariant of the encoding loop. *)
Record enc_inv (off0 size : Z) (v0 : bool) (rls : list Z) (s : enc_st) : Prop := mk_enc_inv {
  en_c : c_bm_bits (e_c s) = bits;
  en_off : bit_offset (e_c s) = off0 + sum rls;
  en_le : off0 + sum rls <= bits;
  en_plain : e_plain s = sum rls;
  en_runs : runs_ok f v0 off0 rls;
  en_bs : Bitstream.wf (e_bs s) /\ Bitstream.pad_bits (e_bs s) = 0 /\ Bitstream.buf_len (e_bs s) = size;
  en_pos : Bitstream.pos (e_bs s) = Bitstream.total_bits (map Bitstream.code_item rls);
  en_holds : Bitstream.holds (Bitstream.buf (e_bs s)) 0 (map Bitstream.code_item rls);
  en_zero : forall k, Bitstream.pos (e_bs s) <= k -> bit_of (Bitstream.buf (e_bs s)) k = false;
  en_enc : in_u 8 (e_enc s);
  en_toggle : (rls = [] /\ e_toggle s = 2) \/
    (e_toggle s = (if next_value v0 rls then 0 else 1) /\ dcbp_get_start (e_enc s) = v0 /\
     (off0 + sum rls < bits -> f (off0 + sum rls) = next_value v0 rls)) }.

Lemma runs_sum_pos v off rls : runs_ok f v off rls -> 0 <= sum rls.
Proof. intros Hr. pose proof (runs_pos _ _ _ _ Hr). lia. Qed.

(** One run goes into the stream. *)
Lemma enc_step off0 size v0 rls s rl bs' t :
  0 <= off0 -> enc_inv off0 size v0 rls s -> 1 <= rl -> off0 + sum rls + rl <= bits ->
  (forall b, off0 + sum rls <= b < off0 + sum rls + rl -> f b = next_value v0 rls) ->
  (off0 + sum rls + rl < bits -> f (off0 + sum rls + rl) = negb (next_value v0 rls)) ->
  e_toggle s = 0 \/ e_toggle s = 1 \/ e_toggle s = 2 -> (next_value v0 rls = false <-> e_toggle s <> 0) ->
  dcbp_get_start (e_enc s) = v0 ->
  t = off0 + sum rls + rl ->
  Bitstream.wf bs' /\ Bitstream.pad_bits bs' = 0 /\ Bitstream.buf_len bs' = size /\
  Bitstream.pos bs' = Bitstream.pos (e_bs s) + (Bitstream.code_item rl).2 /\
  (forall k, 0 <= k < Bitstream.pos (e_bs s) -> bit_of (Bitstream.buf bs') k = bit_of (Bitstream.buf (e_bs s)) k) /\
  (forall k, Bitstream.pos bs' <= k -> bit_of (Bitstream.buf bs') k = false) /\
  Bitstream.holds (Bitstream.buf bs') (Bitstream.pos (e_bs s)) [Bitstream.code_item rl] ->
  enc_inv off0 size v0 (rls ++ [rl])
    (mk_enc (e_enc s) bs' (b_not (e_toggle s)) (u64 (e_plain s + rl)) (set_offsets (e_c s) t (word_offset (e_c s)))).
Proof.
  intros H0 Hinv Hrl Hle Hrun Hend Ht Htv Hstart -> (B1 & B2 & B3 & B4 & B5 & B6 & B7).
  destruct Hinv as [I1 I2 I3 I4 I5 I6 I7 I8 I9 I10 I11]. pose proof (wf_bits _ Hwf).
  pose proof (runs_sum_pos _ _ _ I5). split; simpl; rewrite ?sum_snoc; try done; try lia.
  - rewrite u64_id; lia.
  - by apply runs_snoc.
  - rewrite B4, map_app, Bitstream.total_bits_app, I7. simpl. lia.
  - rewrite map_app. apply Bitstream.holds_snoc.
    + eapply Bitstream.holds_ext; [|  |exact I8].
      * intros k Hk. apply B5. rewrite I7. lia.
      * eapply runs_items; [done|]. unfold VLI_MAX. lia.
    + by rewrite <- I7.
  - right. rewrite next_value_snoc. split_and!; [|done|].
    + unfold b_not. destruct (Z.eqb_spec (e_toggle s) 0) as [E|E].
      * destruct (next_value v0 rls) eqn:En; [done|]. by apply Htv in E.
      * by rewrite (proj2 Htv E).
    + intros Hlt. rewrite <- Hend by lia. f_equal. lia.
Qed.

(** What the loop leaves behind. *)
Definition enc_result (off0 size : Z) (s : enc_st) (r : option enc_end) : Prop :=
  exists s' v0 rls, r = Some (Enc_done s') /\
    enc_inv off0 size v0 rls s' /\ (rls = [] -> 8 * size < 64) /\
    dcbp_get_start (e_enc s') = v0 /\ word_offset (e_c s') = word_offset (e_c s) /\
    packets (e_c s') = packets (e_c s) /\ bytes (e_c s') = bytes (e_c s) /\
    c_bm_words (e_c s') = c_bm_words (e_c s).

(** Encoding a run that was found, then the rest. *)
Lemma enc_run off0 size v0 rls s rl t (rest : enc_st -> option enc_end) :
  0 <= off0 -> enc_inv off0 size v0 rls s -> 1 <= rl -> off0 + sum rls + rl <= bits ->
  (forall b, off0 + sum rls <= b < off0 + sum rls + rl -> f b = next_value v0 rls) ->
  (off0 + sum rls + rl < bits -> f (off0 + sum rls + rl) = negb (next_value v0 rls)) ->
  e_toggle s = 0 \/ e_toggle s = 1 \/ e_toggle s = 2 -> (next_value v0 rls = false <-> e_toggle s <> 0) ->
  dcbp_get_start (e_enc s) = v0 -> t = off0 + sum rls + rl ->
  (forall s', enc_inv off0 size v0 (rls ++ [rl]) s' -> off0 + sum (rls ++ [rl]) < bits ->
     (e_toggle s' =? 2) = false -> e_c s' = set_offsets (e_c s) t (word_offset (e_c s)) ->
     enc_result off0 size s' (rest s')) ->
  enc_result off0 size s
    (let (b, bs) := Bitstream.vli_encode_bits (e_bs s) rl in
     if b =? - ENOBUFS then Some (Enc_done s)
     else if b <=? 0 then Some (Enc_give_up s)
     else let s' := mk_enc (e_enc s) bs (b_not (e_toggle s)) (u64 (e_plain s + rl))
                      (set_offsets (e_c s) t (word_offset (e_c s))) in
          if bit_offset (e_c s') <? c_bm_bits (e_c s') then rest s' else Some (Enc_done s')).
Proof.
  intros H0 Hinv Hrl Hle Hrun Hend Ht Htv Hstart Ht' Hrest.
  pose proof Hinv as [I1 I2 I3 I4 I5 (I6 & I6' & I6'') I7 I8 I9 I10 I11]. pose proof (wf_bits _ Hwf) as Hb.
  pose proof (runs_sum_pos _ _ _ I5).
  assert (1 <= rl <= VLI_MAX) as Hmax by (unfold VLI_MAX; lia).
  destruct (Bitstream.code_item_spec rl Hmax) as [_ [Hbits _]].
  destruct (Bitstream.vli_encode_bits_ok (e_bs s) rl I6 I6' Hmax I9) as [[Hfull ->]|(bs' & -> & B1 & B2 & B3 & B4 & B5 & B6 & B7)].
  - change (- ENOBUFS =? - ENOBUFS) with true. cbv iota. exists s, v0, rls. split_and!; try done. intros ->. simpl in I7. lia.
  - rewrite (proj2 (Z.eqb_neq _ (- ENOBUFS))) by (unfold ENOBUFS; lia).
    rewrite (proj2 (Z.leb_gt _ 0)) by lia. cbv zeta.
    pose proof (enc_step off0 size v0 rls s rl bs' t H0 Hinv Hrl Hle Hrun Hend Ht Htv Hstart Ht') as Hstep.
    specialize (Hstep (conj B1 (conj B2 (conj (eq_trans B3 I6'') (conj B4 (conj B5 (conj B6 B7))))))).
    set (s' := mk_enc _ _ _ _ _) in *. subst t.
    destruct (Z.ltb_spec (bit_offset (e_c s')) (c_bm_bits (e_c s'))) as [Hl|Hl]; simpl in Hl; rewrite I1 in Hl.
    + destruct (Hrest s' Hstep) as (s2 & v2 & rls2 & -> & R1 & R2 & R3 & R4 & R5 & R6 & R7); try done.
      * rewrite sum_snoc. lia.
      * simpl. unfold b_not. by destruct (_ =? 0).
      * exists s2, v2, rls2. split_and!; try done; congruence.
    + exists s', v0, (rls ++ [rl]). split_and!; try done. by destruct rls.
Qed.

(** The loop encodes runs until the bitmap or the buffer ends; it never sees
    a zero run and never fails. *)
Lemma enc_loop_ok fuel off0 size v0 rls s :
  0 <= off0 -> enc_inv off0 size v0 rls s -> off0 + sum rls < bits ->
  bits - (off0 + sum rls) + (if e_toggle s =? 2 then 1 else 0) < Z.of_nat fuel ->
  enc_result off0 size s (enc_loop fuel (Some bm) idx s).
Proof.
  intros H0. revert v0 rls s. induction fuel as [|fuel IH]; intros v0 rls s Hinv Hlt Hfuel.
  { destruct (e_toggle s =? 2); lia. }
  cbn [enc_loop]. pose proof (wf_bits _ Hwf) as Hb. pose proof Hinv as [I1 I2 I3 I4 I5 I6 I7 I8 I9 I10 I11].
  pose proof (runs_sum_pos _ _ _ I5). rewrite I1, I2.
  destruct (find_run_end_ok (S (Z.to_nat bits)) (e_toggle s) (off0 + sum rls)) as (tmp & o & -> & Hend); [lia..|].
  cbn [mbind option_bind]. set (t := if bits <? tmp then bits else tmp) in *. destruct Hend as (E1 & E2 & E3).
  rewrite (u64_id (t - (off0 + sum rls))) by lia.
  destruct I11 as [[-> Htog]|(Htog & Hst & Hval)].
  - rewrite Htog in *. change (2 =? 2) with true in *. change (2 =? 0) with false in *.
    destruct (Z.eqb_spec (t - (off0 + sum [])) 0) as [Hz|Hnz]; cbn [andb].
    + cbn [e_c]. rewrite I2, I1. rewrite (proj2 (Z.ltb_lt (off0 + sum []) bits)) by done.
      destruct (set_start_spec (e_enc s) true I10) as [S1 S2].
      set (s1 := mk_enc _ _ _ _ _).
      destruct (IH true [] s1) as (s2 & v2 & rls2 & R); [|done|change (e_toggle s1 =? 2) with false; cbv iota; lia|by exists s2, v2, rls2].
      split; try done. right. split_and!; [done..|]. intros _. change (next_value true []) with true.
      replace (off0 + sum []) with t by lia. apply E3. lia.
    + destruct (set_start_spec (e_enc s) false I10) as [S1 S2].
      set (s1 := mk_enc (dcbp_set_start (e_enc s) false) _ _ _ _).
      destruct (Z.eqb_spec (t - (off0 + sum [])) 0); [done|].
      change (e_bs s) with (e_bs s1). change (e_c s) with (e_c s1).
      destruct (enc_run off0 size false [] s1 (t - (off0 + sum [])) t (enc_loop fuel (Some bm) idx)) as (s2 & v2 & rls2 & R);
        try done; try lia.
      * split; try done. left. done.
      * intros b Hb'. apply E2. lia.
      * intros Hl. rewrite Zplus_minus in *. by apply E3.
      * auto.
      * intros s' Hs' Hlt' Htg' Hc'. apply (IH _ _ _ Hs' Hlt'). rewrite Htg'. rewrite sum_snoc in *. lia.
      * by exists s2, v2, rls2.
  - assert ((e_toggle s =? 2) = false) as Htf by (rewrite Htog; by destruct (next_value v0 rls)).
    rewrite Htf in *. cbn [andb].
    assert (t <> off0 + sum rls) as Hne.
    { intros Heq. specialize (Hval Hlt). rewrite Heq in E3. specialize (E3 Hlt). rewrite Hval, Htog in E3.
      by destruct (next_value v0 rls). }
    destruct (Z.eqb_spec (t - (off0 + sum rls)) 0); [lia|].
    assert (next_value v0 rls = negb (negb (e_toggle s =? 0))) as Hnv by (rewrite Htog; by destruct (next_value v0 rls)).
    destruct (enc_run off0 size v0 rls s (t - (off0 + sum rls)) t (enc_loop fuel (Some bm) idx)) as (s2 & v2 & rls2 & R);
      try done; try lia.
    + intros b Hb'. rewrite Hnv. apply E2. lia.
    + intros Hl. rewrite Zplus_minus in *. rewrite E3 by done. rewrite Hnv. by destruct (_ =? 0).
    + rewrite Htog. destruct (next_value v0 rls); auto.
    + rewrite Htog. by destruct (next_value v0 rls).
    + intros s' Hs' Hlt' Htg' Hc'. apply (IH _ _ _ Hs' Hlt'). rewrite Htg'. rewrite sum_snoc in *. lia.
    + by exists s2, v2, rls2.
Qed.


(** A compressed packet: the header byte after [dcbp_set_code], the code
    and its length describe the runs [rls]. *)
Definition describes (enc : Z) (cd : list Z) (len : Z) (v0 : bool) (rls : list Z) : Prop :=
  let items := map Bitstream.code_item rls in
  exists e2, dcbp_set_code enc RLE_VLI_Bits = Some e2 /\ dcbp_get_start e2 = v0 /\
    dcbp_get_code e2 = RLE_VLI_Bits /\ 8 * len - dcbp_get_pad_bits e2 = Bitstream.total_bits items /\
    0 <= dcbp_get_pad_bits e2 < 8 /\ Bitstream.holds cd 0 items.

Lemma code_length c total :
  0 <= Bitstream.b c -> 0 <= Bitstream.bit c < 8 -> 8 * Bitstream.b c + Bitstream.bit c = total -> total < 2 ^ 31 ->
  let len := u32 (Bitstream.b c + b2z (negb (Bitstream.bit c =? 0))) in
  let pad := Z.land (u32 (8 - Bitstream.bit c)) 0x7 in
  8 * len - pad = total /\ 0 <= pad < 8 /\ 0 <= len < 2 ^ 30.
Proof.
  intros Hb Hbit Ht Hs len pad.
  assert (pad = (8 - Bitstream.bit c) mod 8) as Hp.
  { unfold pad. rewrite u32_id by lia. change 0x7 with (Z.ones 3). by rewrite Z.land_ones. }
  assert (len = Bitstream.b c + b2z (negb (Bitstream.bit c =? 0))) as Hl.
  { unfold len. apply u32_id. destruct (Bitstream.bit c =? 0); cbn [negb b2z]; lia. }
  rewrite Hl, Hp. destruct (Z.eqb_spec (Bitstream.bit c) 0) as [Hz|]; simpl.
  - rewrite Hz in *. change ((8 - 0) mod 8) with 0. lia.
  - rewrite Z.mod_small by lia. lia.
Qed.

Lemma fill_ok use_rle version p0 size c :
  c_bm_bits c = bits -> 0 <= bit_offset c -> 8 <= size < 2 ^ 28 -> in_u 8 (encoding p0) -> bytes_ok (code p0) ->
  Z.of_nat (length (code p0)) = size ->
  exists len p c', fill_bitmap_rle_bits use_rle version (Some bm) idx p0 size c = Some (len, p, c') /\
    in_u 8 (encoding p) /\ bytes_ok (code p) /\ Z.of_nat (length (code p)) = size /\
    ((len = 0 /\ (c' = c \/ bit_offset c < bits /\
        c' = set_offsets c (64 * (bit_offset c / 64)) (bit_offset c / 64))) \/
     (1 <= len <= size /\ bit_offset c < bits /\ exists rls v0, runs_ok f v0 (bit_offset c) rls /\
        1 <= sum rls /\ bit_offset c + sum rls <= bits /\
        c' = set_offsets c (bit_offset c + sum rls) ((bit_offset c + sum rls) / 64) /\
        describes (encoding p) (code p) len v0 rls)).
Proof.
  intros Hc Hoff Hsize He Hcode Hlen. pose proof (wf_bits _ Hwf) as Hb. unfold fill_bitmap_rle_bits.
  destruct (negb use_rle || (version <? 90)); [by eexists _, _, _; split_and!; auto|]. rewrite Hc.
  destruct (Z.leb_spec bits (bit_offset c)); [by eexists _, _, _; split_and!; auto|].
  rewrite drop_ge, app_nil_r by lia.
  destruct (Bitstream.bitstream_init_zero size ltac:(lia)) as (W0 & P0 & Z0).
  set (bs0 := Bitstream.bitstream_init _ _ _) in *. set (s0 := mk_enc (encoding p0) bs0 2 0 c).
  destruct (enc_loop_ok (S (S (Z.to_nat bits))) (bit_offset c) size false [] s0) as
    (s & v0 & rls & -> & I & Hne & Hst & Hwo & Hpk & Hby & Hbw); [done| |simpl; lia|simpl; lia|].
  { split; simpl; try done; try lia. left. done. }
  destruct I as [I1 I2 I3 I4 I5 (I6 & I6' & I6'') I7 I8 I9 I10 I11]. cbn [mbind option_bind].
  pose proof I6 as [Y1 Y2 Y3 Y4 Y5 Y6 Y7]. unfold Bitstream.avail in Y7.
  destruct (code_length (Bitstream.cur (e_bs s)) (Bitstream.total_bits (map Bitstream.code_item rls))) as (L1 & L2 & L3);
    [done..|exact I7|lia|].
  set (len := u32 _) in *. set (pad := Z.land _ 0x7) in *.
  assert (rls <> []) as Hrls by (intros E; specialize (Hne E); lia).
  pose proof (runs_pos _ _ _ _ I5) as Hsum.
  assert (1 <= Z.of_nat (length rls)) by (destruct rls; simpl; [done|lia]).
  assert (c_bm_bits (e_c s) = c_bm_bits c) as Hcb by congruence.
  assert (forall bo wo, set_offsets (e_c s) bo wo = set_offsets c bo wo) as Hso.
  { intros bo wo. unfold set_offsets. by rewrite Hcb, Hpk, Hby, Hbw. }
  rewrite I4. destruct (Z.ltb_spec (sum rls) (Z.shiftl len 3)).
  - eexists _, _, _. split; [done|]. simpl. split_and!; try done; [congruence|]. left. split; [done|right]. split; [done|].
    rewrite I2, Hso. unfold bm_xfer_ctx_bit_to_word_offset, set_offsets, BITS_PER_LONG. simpl.
    replace (bit_offset c + sum rls - sum rls) with (bit_offset c) by lia. rewrite (u64_id (bit_offset c)) by lia.
    rewrite Z.shiftr_div_pow2 by lia. change (2 ^ 6) with 64.
    assert (0 <= bit_offset c / 64 <= bit_offset c) by (split; [apply Z.div_pos; lia|apply Z.div_le_upper_bound; lia]).
    pose proof (Z.div_mod (bit_offset c) 64 ltac:(lia)). pose proof (Z.mod_pos_bound (bit_offset c) 64 ltac:(lia)).
    rewrite u64_id by lia. f_equal; lia.
  - destruct (set_pad_code_spec (e_enc s) pad I10 ltac:(lia)) as (e1 & e2 & -> & He1 & He2 & Q1 & Q2 & Q3).
    cbn [mbind option_bind]. eexists _, _, _. split; [done|]. rewrite s32_id by lia. simpl.
    split_and!; try done; [congruence|]. right.
    assert (1 <= Bitstream.total_bits (map Bitstream.code_item rls)).
    { assert (Forall Bitstream.item_ok (map Bitstream.code_item rls)) as Hit
        by (eapply runs_items; [done|unfold VLI_MAX; lia]).
      destruct rls as [|r rls']; [done|]. cbn [map] in *. inversion Hit as [|? ? [Hr _] Hit']; subst.
      pose proof (Bitstream.total_bits_nonneg _ Hit'). simpl. lia. }
    split_and!; [lia..|]. exists rls, v0. split_and!; try done; try lia.
    + unfold bm_xfer_ctx_bit_to_word_offset, set_offsets. rewrite I2, Hcb, Hpk, Hby, Hbw.
      by rewrite Z.shiftr_div_pow2 by lia.
    + exists e2. rewrite Q2. split_and!; [done|congruence|done|done|lia|lia|done].
Qed.

End Sender.

(** ** The receiver *)

(** [bm'] is [bm] with the bits of [f] in [lo, hi) added to slot [idx]. *)
Record merged (f : Z -> bool) (idx lo hi : Z) (bm bm' : bsr_bitmap) : Prop := mk_merged {
  mg_wf : wf bm';
  mg_bits : bm_bits bm' = bm_bits bm;
  mg_words : bm_words bm' = bm_words bm;
  mg_peers : bm_max_peers bm' = bm_max_peers bm;
  mg_counts : counts_ok bm -> counts_ok bm';
  mg_bit : forall p b, 0 <= p < bm_max_peers bm -> 0 <= b < bm_bits bm ->
    bm_bit bm' p b = bm_bit bm p b || ((p =? idx) && (lo <=? b) && (b <? hi) && f b) }.

Lemma merged_none f idx lo hi bm :
  wf bm -> (forall b, 0 <= b < bm_bits bm -> lo <= b < hi -> f b = false) -> merged f idx lo hi bm bm.
Proof.
  intros Hwf Hf. split; try done. intros p b Hp Hb.
  destruct (Z.leb_spec lo b), (Z.ltb_spec b hi); rewrite ?andb_false_r, ?orb_false_r; try done.
  rewrite Hf by lia. by rewrite andb_false_r, orb_false_r.
Qed.

Lemma merged_trans f idx lo1 hi1 lo2 hi2 lo hi bm bm1 bm2 :
  lo1 <= hi1 -> lo2 <= hi2 -> lo2 <= hi1 -> lo1 <= hi2 -> lo = Z.min lo1 lo2 -> hi = Z.max hi1 hi2 ->
  merged f idx lo1 hi1 bm bm1 -> merged f idx lo2 hi2 bm1 bm2 -> merged f idx lo hi bm bm2.
Proof.
  intros Ha Hb Hc Hd -> -> [A1 A2 A3 A4 A5 A6] [B1 B2 B3 B4 B5 B6]. split; try congruence; [tauto|].
  intros p b Hp Hb'. rewrite B6, A6 by (done || congruence || lia). rewrite <- orb_assoc. f_equal.
  destruct (p =? idx); simpl; [|done]. split_cmp; simpl; by rewrite ?orb_false_r, ?orb_diag.
Qed.

Lemma merged_set f idx lo hi bm bm' :
  wf bm -> 0 <= idx < bm_max_peers bm -> 0 <= lo -> hi <= bm_bits bm ->
  (forall b, lo <= b < hi -> f b = true) -> written BM_OP_SET bm idx lo (hi - 1) [] bm' ->
  merged f idx lo hi bm bm'.
Proof.
  intros Hwf Hidx Hlo Hhi Hf Hw. pose proof Hw as [W1 _ W3 (W4 & W5 & W6 & _) _]. split; try done.
  - intros Hc. apply (written_counts BM_OP_SET bm idx lo (hi - 1) []); try done; lia.
  - intros p b Hp Hb. rewrite W1 by lia. unfold op_bit. simpl.
    destruct (Z.eqb_spec p idx) as [->|]; simpl; [|by rewrite orb_false_r].
    split_cmp; simpl; rewrite ?orb_false_r; try done. by rewrite Hf, orb_true_r by lia.
Qed.

(** One code word of a run of bits [v] is consumed by setting the run. *)
Lemma dec_set (v : bool) f bm idx off rl :
  wf bm -> 0 <= idx < bm_max_peers bm -> 0 <= off -> 1 <= rl -> off + rl <= bm_bits bm ->
  (forall b, off <= b < off + rl -> f b = v) ->
  exists bm1, (if v then bm ← Some bm; Some <$> bsr_bm_set_many_bits bm idx off (off + rl - 1) else Some (Some bm)) = Some (Some bm1) /\
    merged f idx off (off + rl) bm bm1.
Proof.
  intros Hwf Hidx Hoff Hrl Hle Hf. pose proof (wf_bits _ Hwf). destruct v.
  - unfold bsr_bm_set_many_bits.
    destruct (__bm_many_bits_op_ok bm idx off (off + rl - 1) BM_OP_SET) as (bm1 & E & W);
      [done|by left|done|lia|lia|]. cbn [mbind option_bind]. rewrite E. exists bm1. split; [done|].
    replace (last_bit bm (off + rl - 1)) with (off + rl - 1) in W by (unfold last_bit; lia).
    by apply merged_set; try lia.
  - exists bm. split; [done|]. apply merged_none; [done|]. intros b _ Hb. by apply Hf.
Qed.

Definition window (la have : Z) (s : list Z) (p : Z) : Prop :=
  forall j, 0 <= j -> Z.testbit la j = (j <? have) && bit_of s (p + j).

(** The window moves over a code word. *)
Lemma window_step la have s p t tmp r :
  window la have s p -> 1 <= t <= have -> have <= 64 -> 0 <= r -> have - t + r <= 64 ->
  (forall j, 0 <= j -> Z.testbit tmp j = (j <? r) && bit_of s (p + have + j)) ->
  window (Z.lor (if t <? 64 then Z.shiftr la t else 0) (u64 (Z.shiftl tmp (have - t)))) (have - t + r) s (p + t).
Proof.
  intros Hw Ht Hh Hr Hle Htmp j Hj. rewrite Z.lor_spec, testbit_u64, testbit_shl.
  assert (Z.testbit (if t <? 64 then Z.shiftr la t else 0) j = (j <? have - t) && bit_of s (p + t + j)) as ->.
  { destruct (Z.ltb_spec t 64).
    - rewrite testbit_shr by lia. rewrite (proj2 (Z.leb_le 0 j)) by done. simpl. rewrite Hw by lia.
      replace (p + (j + t)) with (p + t + j) by lia. by replace (j + t <? have) with (j <? have - t) by (by split_cmp).
    - rewrite Z.bits_0. by split_cmp. }
  rewrite (proj2 (Z.leb_le 0 j)) by done. simpl.
  destruct (Z.ltb_spec j (have - t)).
  - rewrite (Z.testbit_neg_r tmp) by lia. rewrite andb_false_r, orb_false_r. by split_cmp.
  - simpl. rewrite Htmp by lia. replace (p + have + (j - (have - t))) with (p + t + j) by lia. by split_cmp.
Qed.

Lemma window_code la have s p code t rest :
  window la have s p -> 1 <= t <= have -> in_u t code -> Bitstream.holds s p ((code, t) :: rest) ->
  Z.land la (Z.ones t) = code.
Proof.
  intros Hw Ht Hc [Hh _]. apply Z.bits_inj'. intros j Hj. rewrite Z.land_spec, testbit_ones, Hw by lia.
  destruct (Z.ltb_spec j t).
  - rewrite <- Hh by lia. split_cmp. by rewrite andb_true_r.
  - rewrite (testbit_in_u t code) by (done || lia). rewrite !andb_false_r. done.
Qed.

Lemma dec_loop_ok f idx rls fuel bm bs la have p off v :
  wf bm -> 0 <= idx < bm_max_peers bm -> 0 <= off -> runs_ok f v off rls -> off + sum rls <= bm_bits bm ->
  let items := map Bitstream.code_item rls in
  Bitstream.wf bs -> Bitstream.holds (Bitstream.buf bs) p items -> Bitstream.pos bs = p + have ->
  have + Bitstream.avail bs = Bitstream.total_bits items -> have = Z.min 64 (Bitstream.total_bits items) ->
  window la have (Bitstream.buf bs) p -> (length rls < fuel)%nat ->
  exists bm', dec_loop fuel (Some bm) idx (bm_bits bm) bs la have off v = Some (inr (Some bm', off + sum rls)) /\
    merged f idx off (off + sum rls) bm bm'.
Proof.
  revert fuel bm bs la have p off v.
  induction rls as [|rl rls IH]; intros fuel bm bs la have p off v Hwf Hidx Hoff Hruns Hle items Hbs Hh Hpos Hav Hhave Hwin Hfuel;
    (destruct fuel as [|fuel]; [simpl in Hfuel; lia|]); cbn [dec_loop].
  { subst items. simpl in Hhave. rewrite Hhave. simpl. exists bm. rewrite Z.add_0_r. split; [done|].
    apply merged_none; [done|]. intros; lia. }
  destruct Hruns as (Hrl & Hrun & Hruns). subst items. cbn [map] in *. pose proof (wf_bits _ Hwf).
  pose proof (runs_pos _ _ _ _ Hruns). assert (sum (rl :: rls) = rl + sum rls) as Hsum by done. rewrite Hsum in *.
  destruct (Bitstream.code_item_spec rl ltac:(unfold VLI_MAX; lia)) as [Henc Hitem].
  assert (Forall Bitstream.item_ok (map Bitstream.code_item rls)) as Hitems
    by (eapply runs_items; [done|unfold VLI_MAX; lia]).
  pose proof (Bitstream.total_bits_nonneg _ Hitems) as Hrest.
  destruct (Bitstream.code_item rl) as [code t] eqn:Ecode. cbn [Bitstream.total_bits fst snd] in *. destruct Hitem as [Ht Hc].
  simpl in Ht, Hc.
  assert (1 <= t <= have) as Hth by lia. rewrite (proj2 (Z.leb_gt have 0)) by lia.
  rewrite (Vli.vli_decode_code rl code t la) by (done || by eapply window_code). cbn [mbind option_bind].
  rewrite (proj2 (Z.leb_gt t 0)) by lia.
  rewrite (u64_id (off + rl - 1)), (proj2 (Z.leb_gt (bm_bits bm) _)), andb_false_r by lia.
  destruct (dec_set v f bm idx off rl) as (bm1 & E1 & Hm1); [done|done|done|done|lia|done|].
  cbn [mbind option_bind] in E1. rewrite E1. cbn [mbind option_bind].
  rewrite (proj2 (Z.ltb_ge have t)) by lia.
  assert (0 <= Bitstream.avail bs) by apply Hbs.
  destruct (Bitstream.get_bits_ok bs (64 - (have - t)) Hbs ltac:(lia)) as (tmp & bs' & -> & Hbs' & B1 & B2 & B3 & B4 & B5).
  set (r := Z.min (64 - (have - t)) (Bitstream.avail bs)) in *. cbn [mbind option_bind]. rewrite (proj2 (Z.ltb_ge r 0)) by lia.
  rewrite (u64_id (off + rl)) by lia. pose proof Hm1 as [M1 M2 M3 M4 _ _]. rewrite <- M2.
  destruct (IH fuel bm1 bs' (Z.lor (if t <? 64 then Z.shiftr la t else 0) (u64 (Z.shiftl tmp (have - t))))
    (have - t + r) (p + t) (off + rl) (negb v)) as (bm' & -> & Hm').
  - done.
  - by rewrite M4.
  - lia.
  - done.
  - rewrite M2. lia.
  - done.
  - rewrite B1. apply Hh.
  - lia.
  - unfold Bitstream.avail in *. rewrite B2, B3, B4. lia.
  - lia.
  - rewrite B1. rewrite Hpos in B5. apply window_step; try done; lia.
  - simpl in Hfuel. lia.
  - exists bm'. split; [do 3 f_equal; lia|].
    apply (merged_trans f idx off (off + rl) (off + rl) (off + (rl + sum rls)) _ _ bm bm1); [lia..|done|].
    by replace (off + (rl + sum rls)) with (off + rl + sum rls) by lia.
Qed.

Lemma bit_of_take cd n k : 0 <= n -> 0 <= k < 8 * n -> bit_of (take (Z.to_nat n) cd) k = bit_of cd k.
Proof.
  intros Hn Hk. rewrite <- (drop_0 cd) at 1. change 0%nat with (Z.to_nat 0).
  rewrite bit_of_take_drop by lia. by split_cmp.
Qed.

Lemma recv_rle_ok f v0 rls enc cd len b idx c e2 :
  wf b -> 0 <= idx < bm_max_peers b -> c_bm_bits c = bm_bits b -> 0 <= bit_offset c ->
  runs_ok f v0 (bit_offset c) rls -> bit_offset c + sum rls <= bm_bits b ->
  describes enc cd len v0 rls -> dcbp_set_code enc RLE_VLI_Bits = Some e2 ->
  bytes_ok cd -> 1 <= len <= Z.of_nat (length cd) -> len < 2 ^ 28 ->
  exists b', decode_bitmap_c (Some b) idx (mk_pcb e2 (take (Z.to_nat len) cd)) c (1 + len) =
      Some (b2z (negb (bit_offset c + sum rls =? bm_bits b)), Some b',
            set_offsets c (bit_offset c + sum rls) ((bit_offset c + sum rls) / 64)) /\
    merged f idx (bit_offset c) (bit_offset c + sum rls) b b'.
Proof.
  intros Hwf Hidx Hc Hoff Hruns Hle (e2' & D1 & D2 & D3 & D4 & D5 & D6) He2 Hcd Hlen Hsm.
  assert (e2' = e2) as -> by congruence. unfold decode_bitmap_c. cbn [encoding]. rewrite D3, Z.eqb_refl.
  pose proof (wf_bits _ Hwf). pose proof (runs_pos _ _ _ _ Hruns).
  set (items := map Bitstream.code_item rls) in *.
  assert (Forall Bitstream.item_ok items) as Hit by (eapply runs_items; [done|unfold VLI_MAX; lia]).
  pose proof (Bitstream.total_bits_nonneg _ Hit).
  unfold recv_bm_rle_bits. cbn [encoding code]. replace (1 + len - 1) with len by lia.
  set (bs0 := Bitstream.bitstream_init _ _ _).
  assert (Bitstream.wf bs0) as Hbs0.
  { split; unfold Bitstream.avail, Bitstream.pos; simpl; try lia.
    - by apply Forall_take.
    - rewrite length_take. lia. }
  assert (Bitstream.avail bs0 = Bitstream.total_bits items) as Hav0 by (unfold Bitstream.avail, Bitstream.pos; simpl; lia).
  destruct (Bitstream.get_bits_ok bs0 64 Hbs0 ltac:(lia)) as (la & bs & -> & Hbs & B1 & B2 & B3 & B4 & B5).
  cbn [mbind option_bind]. rewrite Hav0 in B4, B5 |- *. rewrite (proj2 (Z.ltb_ge _ 0)) by lia.
  destruct (dec_loop_ok f idx rls (S (Z.to_nat (8 * len))) b bs la (Z.min 64 (Bitstream.total_bits items)) 0 (bit_offset c) v0)
    as (b' & E & Hm); try done.
  - rewrite B1. simpl. apply (Bitstream.holds_ext cd _ 0 items); [|done|exact D6].
    intros k Hk. apply bit_of_take; lia.
  - unfold Bitstream.avail in *. rewrite B2, B3, B4. fold items. lia.
  - intros j Hj. rewrite B5, B1 by done. done.
  - assert (Z.of_nat (length rls) <= Bitstream.total_bits items); [|lia]. subst items. clear -Hit.
    induction rls as [|r rls IH]; simpl in *; [lia|]. inversion Hit as [|? ? [Hr _] Hit']; subst. specialize (IH Hit'). lia.
  - rewrite D2, Hc, E. cbn [mbind option_bind]. exists b'. split; [|done].
    unfold bm_xfer_ctx_bit_to_word_offset, set_offsets. cbn. rewrite Z.shiftr_div_pow2, Hc by lia. done.
Qed.

(** *** Plain packets *)

Lemma le_of_bytes_in_u l : bytes_ok l -> in_u (8 * Z.of_nat (length l)) (le_of_bytes l).
Proof.
  intros Hl. apply in_u_of_testbit; [lia|by apply le_of_bytes_nonneg|]. intros k Hk.
  rewrite le_of_bytes_testbit by (done || lia). unfold bit_of, byte_at.
  rewrite nth_overflow; [apply Z.bits_0|]. pose proof (Z.div_mod k 8 ltac:(lia)).
  pose proof (Z.mod_pos_bound k 8 ltac:(lia)). lia.
Qed.

Lemma words_of_ok n l :
  length l = (4 * n)%nat -> bytes_ok l -> length (words_of l) = n /\ Forall (in_u 32) (words_of l).
Proof.
  revert l. induction n as [|n IH]; intros l Hl Hb; [by destruct l|].
  destruct l as [|b0 [|b1 [|b2 [|b3 l]]]]; simpl in Hl; try lia.
  unfold bytes_ok in Hb. rewrite !Forall_cons in Hb. destruct Hb as (H0 & H1 & H2 & H3 & Hb).
  destruct (IH l) as [IH1 IH2]; [lia|done|]. cbn [words_of length]. split; [by rewrite IH1|]. constructor; [|done].
  apply (le_of_bytes_in_u [b0; b1; b2; b3]). unfold bytes_ok. by rewrite !Forall_cons.
Qed.

Lemma lel_merge_ok a b i j offset number :
  wf a -> wf b -> bm_bits a = bm_bits b -> 0 <= i < bm_max_peers a -> 0 <= j < bm_max_peers b ->
  0 <= offset -> 1 <= number -> (offset + number) * BITS_PER_LONG < 2 ^ 64 ->
  exists r out, bsr_bm_get_lel (Some a) i offset number = Some (r, Some a, out) /\
    Z.of_nat (length out) <= 2 * number /\ Forall (in_u 32) out /\
    forall rest, Forall (in_u 32) rest ->
      exists n b', bsr_bm_merge_lel (Some b) j offset number (out ++ rest) = Some (n, Some b', []) /\
        merged (bm_bit a i) j (64 * offset) (64 * (offset + number)) b b'.
Proof.
  intros Hwa Hwb Hbits Hi Hj Ho Hn Hov. pose proof (lel_aligned offset) as Hal.
  unfold bsr_bm_get_lel, bsr_bm_merge_lel, bm_op. destruct (lel_range offset number Ho Hn Hov) as [-> ->].
  set (s := 64 * offset) in *. set (e := 64 * (offset + number) - 1). unfold BITS_PER_LONG in Hov.
  destruct (____bm_op_reads a i s e BM_OP_EXTRACT []) as (r & out & Hget & Hx);
    [done|split; try done; lia|done|].
  destruct Hx as (Hlen & Hwu & Hwb'). set (E := last_bit a e) in *.
  assert (last_bit b e = E) as HE by (unfold E, last_bit; by rewrite Hbits).
  assert (E = Z.min e (bm_bits b - 1)) as HEd by (unfold E, last_bit; by rewrite Hbits).
  pose proof (Z.div_mod (Z.max 0 (E + 1 - s) + 31) 32 ltac:(lia)) as Hdm.
  pose proof (Z.mod_pos_bound (Z.max 0 (E + 1 - s) + 31) 32 ltac:(lia)) as Hmm.
  exists r, out. rewrite __bm_op_wf, Hget by done. split_and!; try done; [lia|].
  intros rest Hrest.
  destruct (____bm_op_writes b j s e BM_OP_MERGE (out ++ rest)) as (b' & Hmerge & Hw);
    [done|split; try done; [lia..|by apply Forall_app|rewrite HE, length_app; lia]|done|]. rewrite HE in *.
  eexists _, b'. rewrite __bm_op_wf, Hmerge by done. split; [done|].
  pose proof Hw as [W1 _ W3 (W4 & W5 & W6 & _) _]. split; try done.
  { intros Hc. apply (written_counts BM_OP_MERGE b j s E (out ++ rest)); try done; lia. }
  intros p x Hp Hxb. rewrite W1 by lia. unfold op_bit.
  destruct (Z.eqb_spec p j) as [->|]; simpl; [|by rewrite orb_false_r].
  replace (x <? 64 * (offset + number)) with (x <=? E) by (split_cmp; done).
  destruct (Z.leb_spec s x); [|by rewrite orb_false_r]. destruct (Z.leb_spec x E); simpl; [|by rewrite orb_false_r].
  f_equal. rewrite app_nth1.
  - rewrite Hwb' by lia. split_cmp. simpl. f_equal. lia.
  - pose proof (Z.div_mod (x - s) 32 ltac:(lia)). pose proof (Z.mod_pos_bound (x - s) 32 ltac:(lia)). lia.
Qed.

(** ** One packet from the sender to the receiver *)

Section Exchange.
Context (a b0 : bsr_bitmap) (i j W h : Z) (use_rle : bool) (version : Z).
Hypothesis Hwa : wf a.
Hypothesis Hi : 0 <= i < bm_max_peers a.
Hypothesis HW : bm_bits a <= 64 * W /\ W < 2 ^ 50.
Hypothesis Hh : h = 8 \/ h = 16.

Abbreviation bits := (bm_bits a).
Abbreviation f := (bm_bit a i).

(** A position both sides can be at. *)
Record ctx_ok (c : bm_xfer_ctx) : Prop := mk_ctx_ok {
  co_bits : c_bm_bits c = bits;
  co_words : c_bm_words c = W;
  co_wo : 0 <= word_offset c <= W;
  co_bo : 0 <= bit_offset c <= bits;
  co_pos : 64 * word_offset c <= bit_offset c < 64 * word_offset c + 64 \/
           bit_offset c = bits /\ bits <= 64 * word_offset c }.

Definition same_pos (c c' : bm_xfer_ctx) : Prop :=
  bit_offset c' = bit_offset c /\ word_offset c' = word_offset c.

Definition left (c : bm_xfer_ctx) : Z := (W - word_offset c) + (bits - bit_offset c).

(** The receiver's bitmap. *)
Record peer_ok (b : bsr_bitmap) : Prop := mk_peer_ok {
  pe_wf : wf b;
  pe_bits : bm_bits b = bits;
  pe_idx : 0 <= j < bm_max_peers b }.

(** What sending and receiving one packet does. *)
Definition round_ok (c : bm_xfer_ctx) (b : bsr_bitmap) (cb : bm_xfer_ctx)
    (sent : option (Z * option packet * bm_xfer_ctx)) : Prop :=
  exists ret pkt c' b' cb', sent = Some (ret, Some pkt, c') /\
    receive_packet h (Some b) j pkt cb = Some (ret, Some b', cb') /\
    ctx_ok c' /\ ctx_ok cb' /\ same_pos c' cb' /\ bit_offset c <= bit_offset c' /\
    (exists lo, 0 <= lo <= bit_offset c /\ merged f j lo (bit_offset c') b b') /\
    ((ret = 0 /\ bit_offset c' = bits) \/ (ret = 1 /\ left c' < left c)).

Lemma add_stats_ok c plain n : ctx_ok c -> ctx_ok (add_stats c plain n) /\ same_pos c (add_stats c plain n).
Proof.
  intros []. unfold add_stats. destruct (packets c), (bytes c). by split.
Qed.

(** The position after [num] plain words. *)
Definition after_plain (c : bm_xfer_ctx) (num : Z) : bm_xfer_ctx :=
  set_offsets c (Z.min (64 * (word_offset c + num)) bits) (word_offset c + num).

Lemma plain_pos c num n :
  ctx_ok c -> 0 <= num -> word_offset c + num <= W ->
  (let c1 := set_offsets c (u64 (u64 (word_offset c + num) * BITS_PER_LONG)) (u64 (word_offset c + num)) in
   let c2 := add_stats c1 true n in
   if c_bm_bits c2 <? bit_offset c2 then set_offsets c2 (c_bm_bits c2) (word_offset c2) else c2)
  = add_stats (after_plain c num) true n /\
  (let c1 := set_offsets c (u64 (u64 (word_offset c + num) * BITS_PER_LONG)) (u64 (word_offset c + num)) in
   if c_bm_bits c1 <? bit_offset c1 then set_offsets c1 (c_bm_bits c1) (word_offset c1) else c1)
  = after_plain c num.
Proof.
  intros [H1 H2 H3 H4 H5] Hn Hle. unfold BITS_PER_LONG, after_plain, set_offsets, add_stats.
  destruct (packets c), (bytes c). cbn [c_bm_bits c_bm_words bit_offset word_offset packets bytes].
  rewrite (u64_id (word_offset c + num)) by lia. rewrite (u64_id (_ * 64)) by lia. rewrite H1.
  destruct (Z.ltb_spec bits ((word_offset c + num) * 64)).
  - rewrite Z.min_r by lia. done.
  - rewrite Z.min_l by lia. by rewrite (Z.mul_comm 64).
Qed.

Lemma after_plain_ok c num :
  ctx_ok c -> 0 <= num -> word_offset c + num <= W -> num = 0 -> bits <= 64 * word_offset c ->
  ctx_ok (after_plain c num).
Proof. intros [H1 H2 H3 H4 H5] Hn Hle -> Hb. split; simpl; try done; lia. Qed.

Lemma after_plain_step c num :
  ctx_ok c -> 1 <= num -> word_offset c + num <= W ->
  ctx_ok (after_plain c num) /\ bit_offset c <= bit_offset (after_plain c num) /\
  left (after_plain c num) < left c.
Proof.
  intros [H1 H2 H3 H4 H5] Hn Hle. unfold left. split_and!; [split|..]; simpl; try done; lia.
Qed.

(** A plain packet. *)
Lemma plain_round c b cb tpc :
  ctx_ok c -> ctx_ok cb -> same_pos c cb -> peer_ok b ->
  in_u 8 (encoding tpc) -> bytes_ok (code tpc) -> Z.of_nat (length (code tpc)) = BSR_SOCKET_BUFFER_SIZE - h - 1 ->
  forall c1, (c1 = c \/ bit_offset c < bits /\ c1 = set_offsets c (64 * (bit_offset c / 64)) (bit_offset c / 64)) ->
  round_ok c b cb
    ('(len, pkt, c) ←
       (let data_size := BSR_SOCKET_BUFFER_SIZE - h in
        let num_words := Z.min (data_size / 8) (u64 (c_bm_words c1 - word_offset c1)) in
        let len := s32 (num_words * 8) in
        let pu := words_of (encoding tpc :: code tpc) in
        words ← (if negb (len =? 0) then
                   '(_, _, out) ← bsr_bm_get_lel (Some a) i (word_offset c1) num_words;
                   Some (take (Z.to_nat (2 * num_words)) (out ++ drop (length out) pu))
                 else Some []);
        let wo := u64 (word_offset c1 + num_words) in
        let c := set_offsets c1 (u64 (wo * BITS_PER_LONG)) wo in
        let c := add_stats c true (h + len) in
        let c := if c_bm_bits c <? bit_offset c then set_offsets c (c_bm_bits c) (word_offset c) else c in
        Some (len, P_BITMAP words, c));
     if 0 =? 0 then Some (if len =? 0 then 0 else 1, Some pkt, c) else Some (- EIO, Some pkt, c)).
Proof.
  intros Hc Hcb [Hs1 Hs2] [Hwb Hbb Hj] He Hcode Hlen c1 Hc1.
  pose proof Hc as [C1 C2 C3 C4 C5]. pose proof Hcb as [K1 K2 K3 K4 K5].
  assert (word_offset c1 = word_offset c /\ c_bm_words c1 = W /\ ctx_ok c1 /\
          forall num, after_plain c1 num = after_plain c num) as (Hw1 & Hcw1 & Hok1 & Haft).
  { destruct Hc1 as [->|[Hlt ->]]; [split_and!; try done; lia|].
    assert (bit_offset c / 64 = word_offset c) as Hd by (symmetry; apply (Z.div_unique _ _ _ (bit_offset c - 64 * word_offset c)); lia).
    rewrite Hd. split_and!; try done. split; simpl; try done; lia. }
  assert ((BSR_SOCKET_BUFFER_SIZE - h) / 8 = if h =? 8 then 511 else 510) as Hdata by (by destruct Hh as [-> | ->]).
  cbv zeta. rewrite Hw1, Hcw1, Hdata, (u64_id (W - word_offset c)) by lia.
  set (num := Z.min _ _). assert (0 <= num <= W - word_offset c /\ num <= 511) as [Hn1 Hn2] by (subst num; destruct (h =? 8); lia).
  assert (2 * num <= (BSR_SOCKET_BUFFER_SIZE - h) / 4) as Hn4.
  { assert (num <= if h =? 8 then 511 else 510) as Hn3 by (subst num; lia).
    destruct Hh as [E|E]; rewrite E in Hn3 |- *; [change ((_ - 8) / 4) with 1022|change ((_ - 16) / 4) with 1020];
      cbn in Hn3; lia. }
  rewrite (s32_id (num * 8)) by lia.
  assert (same_pos c cb -> Z.min (if h =? 8 then 511 else 510) (u64 (c_bm_words cb - word_offset cb)) = num) as Hnumb.
  { intros _. rewrite K2, Hs2, u64_id by lia. done. }
  specialize (Hnumb (conj Hs1 Hs2)).
  destruct (plain_pos c1 num (h + num * 8) Hok1 ltac:(lia) ltac:(lia)) as [Hp1 _]. cbv zeta in Hp1. rewrite Hw1 in Hp1.
  destruct (Z.eqb_spec (num * 8) 0) as [Hz|Hnz]; cbn [negb mbind option_bind].
  - assert (num = 0) as H0 by lia. rewrite Hp1, Haft, Hz.
    assert (bits <= 64 * word_offset c) as Hall by (subst num; destruct (h =? 8); lia).
    pose proof (after_plain_ok c num Hc ltac:(lia) ltac:(lia) H0 Hall) as Hok.
    destruct (add_stats_ok (after_plain c num) true (h + 0) Hok) as [Hok' [Hp1' Hp2']].
    destruct (add_stats_ok cb true (h + 0) Hcb) as [Hokb [Hq1 Hq2]].
    eexists 0, (P_BITMAP []), _, b, (add_stats cb true (h + 0)). split; [done|]. split.
    { unfold receive_packet, receive_bitmap_plain. rewrite Hdata, Hnumb, H0. done. }
    simpl in Hp1', Hp2'. rewrite H0, Z.add_0_r, Z.min_r in * by lia.
    split_and!; try done; [split; congruence || lia|lia| |left; done].
    exists bits. split; [lia|]. rewrite Hp1'. apply merged_none; [done|intros; lia].
  - destruct (lel_merge_ok a b i j (word_offset c) num) as (r & out & Hget & Hol & Hou & Hmerge); try done; try lia.
    { unfold BITS_PER_LONG. lia. }
    destruct (words_of_ok (Z.to_nat ((BSR_SOCKET_BUFFER_SIZE - h) / 4)) (encoding tpc :: code tpc)) as [Hpl Hpu].
    { simpl. destruct Hh as [-> | ->]; unfold BSR_SOCKET_BUFFER_SIZE in *; simpl; lia. }
    { by apply Forall_cons. }
    set (pu := words_of _) in *. rewrite Hget. cbn [mbind option_bind].
    rewrite take_app_ge by lia. set (rest := take _ (drop _ pu)).
    assert (Forall (in_u 32) rest) as Hrest by (by apply Forall_take, Forall_drop).
    assert (Z.of_nat (length (out ++ rest)) = 2 * num) as Hlw.
    { rewrite length_app. unfold rest. rewrite length_take, length_drop, Hpl.
      lia. }
    destruct (Hmerge rest Hrest) as (n & b' & Hmg & Hmerged). rewrite Hp1, Haft.
    destruct (after_plain_step c num Hc ltac:(lia) ltac:(lia)) as (Hok & Hle & Hleft).
    destruct (plain_pos cb num 0 Hcb ltac:(lia) ltac:(lia)) as [_ Hq]. cbv zeta in Hq.
    destruct (after_plain_step cb num Hcb ltac:(lia) ltac:(lia)) as (Hokb & _ & _).
    destruct (add_stats_ok (after_plain c num) true (h + num * 8) Hok) as [Hok' [Hp1' Hp2']].
    destruct (add_stats_ok (after_plain cb num) true (h + num * 8) Hokb) as [Hokb' [Hq1 Hq2]].
    eexists 1, (P_BITMAP (out ++ rest)), _, b', (add_stats (after_plain cb num) true (h + num * 8)).
    split; [by rewrite (proj2 (Z.eqb_neq _ _) Hnz)|]. split.
    { unfold receive_packet, receive_bitmap_plain. rewrite Hdata, Hnumb, u64_id, Hlw by lia.
      replace (4 * (2 * num)) with (num * 8) by lia. rewrite Z.eqb_refl. simpl negb. cbv iota.
      destruct (Z.eqb_spec (num * 8) 0); [lia|]. rewrite Hs2, Hmg. cbn [mbind option_bind]. rewrite <- Hs2, Hq. done. }
    split_and!; try done.
    + split; [rewrite Hq1, Hp1'|rewrite Hq2, Hp2']; simpl; by rewrite Hs2.
    + by rewrite Hp1'.
    + rewrite Hp1'. exists (Z.min (64 * word_offset c) bits). split; [lia|]. simpl.
      split; try apply Hmerged. intros p x Hp Hx. rewrite (mg_bit _ _ _ _ _ _ Hmerged) by done. f_equal.
      destruct (p =? j); simpl; [|done]. rewrite Hbb in Hx. by split_cmp.
    + right. split; [done|]. unfold left in *. by rewrite Hp1', Hp2'.
Qed.

(** A compressed packet. *)
Lemma rle_round c b cb p len rls v0 :
  ctx_ok c -> ctx_ok cb -> same_pos c cb -> peer_ok b -> bit_offset c < bits ->
  bytes_ok (code p) -> Z.of_nat (length (code p)) = BSR_SOCKET_BUFFER_SIZE - h - 1 ->
  1 <= len <= BSR_SOCKET_BUFFER_SIZE - h - 1 ->
  runs_ok f v0 (bit_offset c) rls -> 1 <= sum rls -> bit_offset c + sum rls <= bits ->
  describes (encoding p) (code p) len v0 rls ->
  round_ok c b cb
    ('(len, pkt, c) ←
       (enc ← dcbp_set_code (encoding p) RLE_VLI_Bits;
        let c := add_stats (set_offsets c (bit_offset c + sum rls) ((bit_offset c + sum rls) / 64)) false (h + 1 + len) in
        Some (if c_bm_bits c <=? bit_offset c then 0 else len,
              P_COMPRESSED_BITMAP enc (take (Z.to_nat len) (code p)), c));
     if 0 =? 0 then Some (if len =? 0 then 0 else 1, Some pkt, c) else Some (- EIO, Some pkt, c)).
Proof.
  intros Hc Hcb [Hs1 Hs2] [Hwb Hbb Hj] Hlt Hcode Hcl Hlen Hruns Hsum Hle Hd.
  pose proof Hc as [C1 C2 C3 C4 C5]. pose proof Hcb as [K1 K2 K3 K4 K5].
  pose proof Hd as (e2 & He2 & _). rewrite He2. cbn [mbind option_bind].
  set (hi := bit_offset c + sum rls) in *.
  assert (ctx_ok (set_offsets c hi (hi / 64)) /\ left (set_offsets c hi (hi / 64)) < left c) as [Hok Hleft].
  { pose proof (Z.div_mod hi 64 ltac:(lia)). pose proof (Z.mod_pos_bound hi 64 ltac:(lia)).
    assert (word_offset c <= hi / 64) by (apply Z.div_le_lower_bound; lia).
    unfold left. split; [split|]; simpl; try done; lia. }
  assert (ctx_ok (set_offsets cb hi (hi / 64))) as Hokb by (destruct Hok; by split).
  destruct (add_stats_ok _ false (h + 1 + len) Hok) as [Hok' [P1 P2]]. pose proof (co_bits _ Hok') as Hbits'.
  destruct (add_stats_ok _ false (h + (1 + len)) Hokb) as [Hokb' [Q1 Q2]].
  set (c' := add_stats _ false (h + 1 + len)) in *. simpl in P1, P2. rewrite Hbits', P1.
  destruct (recv_rle_ok f v0 rls (encoding p) (code p) len b j cb e2) as (b' & Hrecv & Hm); try done;
    rewrite ?Hs1, ?Hbb; try done; try (unfold BSR_SOCKET_BUFFER_SIZE in *; lia).
  rewrite Hs1, Hbb in *. fold hi in Hrecv, Hm.
  eexists (if bits <=? hi then 0 else 1), _, c', b', _. split; [|split].
  - destruct (bits <=? hi); [done|]. by rewrite (proj2 (Z.eqb_neq len 0)) by lia.
  - unfold receive_packet. rewrite length_take. replace (1 + Z.of_nat _) with (1 + len) by lia.
    rewrite (proj2 (Z.ltb_ge _ _)), (proj2 (Z.leb_gt _ _)) by lia. rewrite Hrecv. cbn [mbind option_bind].
    replace (b2z (negb (hi =? bits))) with (if bits <=? hi then 0 else 1); [done|]. by split_cmp.
  - split_and!; try done.
    + split; [rewrite Q1, P1|rewrite Q2, P2]; done.
    + rewrite P1. lia.
    + exists (bit_offset c). split; [lia|]. by rewrite P1.
    + destruct (Z.leb_spec bits hi); [left; lia|right]. split; [done|]. unfold left in *. rewrite P1, P2. done.
Qed.

Lemma round c b cb :
  ctx_ok c -> ctx_ok cb -> same_pos c cb -> peer_ok b ->
  round_ok c b cb (send_bitmap_rle_or_plain true true 0 h use_rle version (Some a) i c).
Proof.
  intros Hc Hcb Hs Hb. pose proof Hc as [C1 C2 C3 C4 C5]. unfold send_bitmap_rle_or_plain. cbn [negb].
  set (size := BSR_SOCKET_BUFFER_SIZE - h - 1).
  assert (8 <= size < 2 ^ 28) as Hsize by (unfold size, BSR_SOCKET_BUFFER_SIZE; lia).
  destruct (fill_ok a i Hwa Hi use_rle version (mk_pcb 0 (replicate (Z.to_nat size) 0)) size c)
    as (len & p & c1 & -> & He & Hcd & Hcl & Hcases); try done; simpl; try lia.
  { apply Forall_replicate. split; lia. }
  { rewrite length_replicate. lia. }
  destruct Hcases as [[-> Hc1]|(Hlen & Hlt & rls & v0 & Hr & Hs1 & Hle & -> & Hd)].
  - by apply plain_round.
  - rewrite (proj2 (Z.ltb_ge len 0)), (proj2 (Z.eqb_neq len 0)) by lia. cbn [negb].
    by apply (rle_round c b cb p len rls v0).
Qed.

(** *** All packets *)

Lemma exchange_loop fuel c b cb :
  ctx_ok c -> ctx_ok cb -> same_pos c cb -> peer_ok b -> left c < Z.of_nat fuel ->
  exists pkts b', send_loop fuel h use_rle version (Some a) i c = Some (0, pkts) /\
    receive_all h (Some b) j pkts cb = Some (0, Some b', []) /\
    exists lo, 0 <= lo <= bit_offset c /\ merged f j lo bits b b'.
Proof.
  revert c b cb. induction fuel as [|fuel IH]; intros c b cb Hc Hcb Hs Hb Hfuel.
  { destruct Hc. unfold left in Hfuel. lia. }
  cbn [send_loop].
  destruct (round c b cb Hc Hcb Hs Hb) as (ret & pkt & c' & b1 & cb' & -> & Hrecv & Hc' & Hcb' & Hs' & Hmono & (lo & Hlo & Hm) & Hret).
  cbn [mbind option_bind]. destruct Hret as [[-> Hend]|[-> Hleft]].
  - exists [pkt], b1. simpl. rewrite Hrecv. cbn. split_and!; try done. exists lo. by rewrite <- Hend.
  - assert (peer_ok b1) as Hb1 by (destruct Hm, Hb; split; try done; congruence).
    destruct (IH c' b1 cb' Hc' Hcb' Hs' Hb1 ltac:(lia)) as (pkts & b' & -> & Hall & lo' & Hlo' & Hm').
    cbn [mbind option_bind]. change (0 <? 1) with true. cbv iota. exists (pkt :: pkts), b'.
    split_and!; [done| |].
    + cbn [receive_all]. rewrite Hrecv. cbn [mbind option_bind]. done.
    + pose proof (co_bo _ Hc').
      exists (Z.min lo lo'). split; [lia|].
      apply (merged_trans f j lo (bit_offset c') lo' bits _ _ b b1); try done; lia.
Qed.

End Exchange.

(** ** Properties *)

Lemma init_ctx_ok a b W :
  wf a -> bm_bits b = bm_bits a -> bsr_bm_words (Some b) = W -> bm_bits a <= 64 * W /\ W < 2 ^ 50 ->
  ctx_ok a W (xfer_ctx_init (Some b)).
Proof. intros Hwf Hb HW HWr. pose proof (wf_bits _ Hwf). split; simpl; try done; lia. Qed.

(** The bitmap after the full sync flag was honoured. *)
Lemma full_sync_ok (full_sync : bool) a i :
  wf a -> 0 <= i < bm_max_peers a ->
  exists a', (if full_sync then bsr_bm_set_many_bits a i 0 BSR_END_OF_BITMAP else Some a) = Some a' /\
    wf a' /\ bm_bits a' = bm_bits a /\ bm_max_peers a' = bm_max_peers a /\
    bsr_bm_words (Some a') = bsr_bm_words (Some a) /\
    forall x, 0 <= x < bm_bits a -> bm_bit a' i x = full_sync || bm_bit a i x.
Proof.
  intros Hwf Hi. destruct full_sync; [|by exists a]. unfold bsr_bm_set_many_bits.
  destruct (__bm_many_bits_op_ok a i 0 BSR_END_OF_BITMAP BM_OP_SET) as (a' & -> & W);
    [done|by left|done|lia|unfold BSR_END_OF_BITMAP, U64_MAX; lia|].
  exists a'. destruct W as [W1 _ W3 (W4 & W5 & W6 & _) _]. split_and!; try done.
  - unfold bsr_bm_words. pose proof (wf_pages_nonempty _ Hwf). pose proof (wf_pages_nonempty _ W3).
    rewrite W5, W6. by destruct (bm_pages a), (bm_pages a').
  - intros x Hx. rewrite W1 by lia. unfold op_bit, last_bit, BSR_END_OF_BITMAP, U64_MAX.
    pose proof (wf_bits _ Hwf). rewrite Z.eqb_refl. by split_cmp.
Qed.

(** C1. A whole bitmap exchange (run-length packets where they compress, plain packets
    otherwise, after setting all bits when the peer has the full sync flag) terminates;
    the sender reports success, the receiver accepts every packet and reports
    completion, the receiver's slot becomes the union of its old bits and the sender's
    bits, its other slots are untouched, and its weights still count the set bits. *)
Theorem bitmap_exchange a b i j h use_rle version full_sync :
  wf a -> wf b -> bm_bits b = bm_bits a -> 0 <= i < bm_max_peers a -> 0 <= j < bm_max_peers b ->
  h = 8 \/ h = 16 -> bsr_bm_words (Some b) = bsr_bm_words (Some a) ->
  bm_bits a <= 64 * bsr_bm_words (Some a) -> bsr_bm_words (Some a) < 2 ^ 50 ->
  exists pkts a' b',
    _bsr_send_bitmap full_sync h use_rle version (Some a) i = Some (true, pkts, Some a') /\
    receive_all h (Some b) j pkts (xfer_ctx_init (Some b)) = Some (0, Some b', []) /\
    (forall x, 0 <= x < bm_bits a -> bm_bit a' i x = full_sync || bm_bit a i x) /\
    wf b' /\ (counts_ok b -> counts_ok b') /\
    forall p x, 0 <= p < bm_max_peers b -> 0 <= x < bm_bits b ->
      bm_bit b' p x = bm_bit b p x || ((p =? j) && bm_bit a' i x).
Proof.
  intros Hwa Hwb Hbits Hi Hj Hh Hw HW1 HW2.
  destruct (full_sync_ok full_sync a i Hwa Hi) as (a' & Ea & Hwa' & Hb' & Hp' & Hw' & Hf).
  unfold _bsr_send_bitmap. rewrite Ea. cbn [mbind option_bind].
  set (W := bsr_bm_words (Some a)) in *. pose proof (wf_bits _ Hwa).
  destruct (exchange_loop a' i j W h use_rle version) with
    (fuel := S (S (Z.to_nat (c_bm_bits (xfer_ctx_init (Some a')) + c_bm_words (xfer_ctx_init (Some a'))))))
    (c := xfer_ctx_init (Some a')) (b := b) (cb := xfer_ctx_init (Some b)) as (pkts & b' & -> & Hr & lo & Hlo & Hm); try done.
  - by rewrite Hp'.
  - by rewrite Hb'.
  - apply init_ctx_ok; try done; by rewrite Hb'.
  - apply init_ctx_ok; try done; try congruence. by rewrite Hb'.
  - split; simpl; try done; congruence.
  - unfold left. simpl. fold (bsr_bm_words (Some a')). rewrite Hw', Hb'. lia.
  - cbn [mbind option_bind]. exists pkts, a', b'. simpl in Hlo. assert (lo = 0) as -> by lia.
    destruct Hm as [M1 M2 M3 M4 M5 M6]. split_and!; try done.
    intros p x Hp Hx. rewrite M6 by done. rewrite (proj2 (Z.leb_le 0 x)), (proj2 (Z.ltb_lt x _)) by lia. by rewrite !andb_true_r.
Qed.

Lemma bitmap_exchange_witness :
  exists pkts a' b', _bsr_send_bitmap true 16 true 110 (Some demo) 1 = Some (true, pkts, Some a') /\
    receive_all 16 (Some demo) 0 pkts (xfer_ctx_init (Some demo)) = Some (0, Some b', []) /\
    bm_bit b' 0 99 = true /\ bm_bit b' 1 99 = false.
Proof.
  destruct (bitmap_exchange demo demo 1 0 16 true 110 true) as (pkts & a' & b' & H1 & H2 & H3 & _ & _ & H4);
    [exact demo_wf|exact demo_wf|reflexivity|eval_cmp|eval_cmp|by right|reflexivity|eval_cmp|eval_cmp|].
  exists pkts, a', b'. split; [exact H1|]. split; [exact H2|].
  split; (rewrite H4; [|eval_cmp|eval_cmp]); [rewrite H3 by eval_cmp|]; vm_compute; reflexivity.
Defined.

End BitmapRle.
