(* ===== verification/LruCache.v ===== *)
(** * The LRU cache (src/bsr/lru_cache.c, src/bsr/linux/lru_cache.h)

    A fixed set of elements, each on one of four lists, with a hash table from
    labels to elements; changes of the set are accumulated until they are
    committed.  The activity log and the resync extents are such caches.
    Elements are their indices; a list of the kernel is the list of the
    indices on it, head first; [BUG()] is [None]. *)

From S2P Require Import Prelude.

Module LruCache.

Definition LC_FREE : Z := U32_MAX.
Definition LC_MAX_ACTIVE : Z := Z.shiftl 1 24.

Record lc_element := mk_element { refcnt : Z; lc_number : Z; lc_new_number : Z }.

(** The bits of [lc->flags]. *)
Record lc_flags := mk_flags { LC_PARANOIA : bool; LC_DIRTY : bool; LC_LOCKED : bool; LC_STARVING : bool }.

(** The statistics and the counters of the performance monitor. *)
Record lc_stats := mk_stats {
  hits : Z; misses : Z; starving : Z; locked : Z; changed : Z;
  used_max : Z; hits_cnt : Z; misses_cnt : Z; starving_cnt : Z; changed_cnt : Z }.

Definition stats0 : lc_stats := mk_stats 0 0 0 0 0 0 0 0 0 0.

Inductive which := L_lru | L_free | L_in_use | L_to_be_changed.

Record lru_cache := mk_lc {
  elements : list lc_element;
  lru : list nat;
  free : list nat;
  in_use : list nat;
  to_be_changed : list nat;
  lc_slot : list (list nat);
  max_pending_changes : Z;
  pending_changes : Z;
  used : Z;
  flags : lc_flags;
  stats : lc_stats }.

Definition nr_elements (lc : lru_cache) : nat := length (elements lc).

(** *** Field updates *)

Definition set_elements (lc : lru_cache) (es : list lc_element) : lru_cache :=
  mk_lc es (lru lc) (free lc) (in_use lc) (to_be_changed lc) (lc_slot lc) (max_pending_changes lc)
    (pending_changes lc) (used lc) (flags lc) (stats lc).
Definition set_slot (lc : lru_cache) (s : list (list nat)) : lru_cache :=
  mk_lc (elements lc) (lru lc) (free lc) (in_use lc) (to_be_changed lc) s (max_pending_changes lc)
    (pending_changes lc) (used lc) (flags lc) (stats lc).
Definition set_pending (lc : lru_cache) (n : Z) : lru_cache :=
  mk_lc (elements lc) (lru lc) (free lc) (in_use lc) (to_be_changed lc) (lc_slot lc) (max_pending_changes lc)
    n (used lc) (flags lc) (stats lc).
Definition set_used (lc : lru_cache) (n : Z) : lru_cache :=
  mk_lc (elements lc) (lru lc) (free lc) (in_use lc) (to_be_changed lc) (lc_slot lc) (max_pending_changes lc)
    (pending_changes lc) n (flags lc) (stats lc).
Definition set_flags (lc : lru_cache) (f : lc_flags) : lru_cache :=
  mk_lc (elements lc) (lru lc) (free lc) (in_use lc) (to_be_changed lc) (lc_slot lc) (max_pending_changes lc)
    (pending_changes lc) (used lc) f (stats lc).
Definition set_stats (lc : lru_cache) (s : lc_stats) : lru_cache :=
  mk_lc (elements lc) (lru lc) (free lc) (in_use lc) (to_be_changed lc) (lc_slot lc) (max_pending_changes lc)
    (pending_changes lc) (used lc) (flags lc) s.

Definition upd (lc : lru_cache) (i : nat) (f : lc_element -> lc_element) : lru_cache :=
  set_elements lc (alter f i (elements lc)).

Definition set_paranoia (lc : lru_cache) (v : bool) : lru_cache :=
  let f := flags lc in set_flags lc (mk_flags v (LC_DIRTY f) (LC_LOCKED f) (LC_STARVING f)).
Definition set_dirty (lc : lru_cache) (v : bool) : lru_cache :=
  let f := flags lc in set_flags lc (mk_flags (LC_PARANOIA f) v (LC_LOCKED f) (LC_STARVING f)).
Definition set_locked (lc : lru_cache) (v : bool) : lru_cache :=
  let f := flags lc in set_flags lc (mk_flags (LC_PARANOIA f) (LC_DIRTY f) v (LC_STARVING f)).
Definition set_starving (lc : lru_cache) (v : bool) : lru_cache :=
  let f := flags lc in set_flags lc (mk_flags (LC_PARANOIA f) (LC_DIRTY f) (LC_LOCKED f) v).

(** *** Lists of the kernel *)

Definition del (i : nat) (l : list nat) : list nat := filter (fun j => j <> i) l.

(** [list_move(&e->list, head)]: off its list, to the front of [head]. *)
Definition list_move (lc : lru_cache) (i : nat) (w : which) : lru_cache :=
  let put v l := if match w, v with
                   | L_lru, L_lru | L_free, L_free | L_in_use, L_in_use | L_to_be_changed, L_to_be_changed => true
                   | _, _ => false end
                 then i :: del i l else del i l in
  mk_lc (elements lc) (put L_lru (lru lc)) (put L_free (free lc)) (put L_in_use (in_use lc))
    (put L_to_be_changed (to_be_changed lc)) (lc_slot lc) (max_pending_changes lc)
    (pending_changes lc) (used lc) (flags lc) (stats lc).

(** [hlist_del_init(&e->colision)]; nothing happens to an unhashed element. *)
Definition hlist_del (lc : lru_cache) (i : nat) : lru_cache := set_slot lc (map (del i) (lc_slot lc)).

Definition lc_hash_slot (lc : lru_cache) (enr : Z) : nat := Z.to_nat (enr mod Z.of_nat (nr_elements lc)).

Definition hlist_add_head (lc : lru_cache) (i : nat) (k : nat) : lru_cache :=
  set_slot lc (alter (cons i) k (lc_slot lc)).

(** *** Statistics *)

Definition bump (mon : bool) (n : Z) : Z := if mon then u64 (n + 1) else n.

Definition stat_hit (mon : bool) (lc : lru_cache) : lru_cache :=
  let s := stats lc in
  set_stats lc (mk_stats (u64 (hits s + 1)) (misses s) (starving s) (locked s) (changed s)
    (used_max s) (bump mon (hits_cnt s)) (misses_cnt s) (starving_cnt s) (changed_cnt s)).
Definition stat_miss (mon : bool) (lc : lru_cache) : lru_cache :=
  let s := stats lc in
  set_stats lc (mk_stats (hits s) (u64 (misses s + 1)) (starving s) (locked s) (changed s)
    (used_max s) (hits_cnt s) (bump mon (misses_cnt s)) (starving_cnt s) (changed_cnt s)).
Definition stat_starving (mon : bool) (lc : lru_cache) : lru_cache :=
  let s := stats lc in
  set_stats lc (mk_stats (hits s) (misses s) (u64 (starving s + 1)) (locked s) (changed s)
    (used_max s) (hits_cnt s) (misses_cnt s) (bump mon (starving_cnt s)) (changed_cnt s)).
(** The locked branch counts [starving_cnt] as well. *)
Definition stat_locked (mon : bool) (lc : lru_cache) : lru_cache :=
  let s := stats lc in
  set_stats lc (mk_stats (hits s) (misses s) (starving s) (u64 (locked s + 1)) (changed s)
    (used_max s) (hits_cnt s) (misses_cnt s) (bump mon (starving_cnt s)) (changed_cnt s)).
Definition stat_changed (mon : bool) (lc : lru_cache) : lru_cache :=
  let s := stats lc in
  set_stats lc (mk_stats (hits s) (misses s) (starving s) (locked s) (u64 (changed s + 1))
    (used_max s) (hits_cnt s) (misses_cnt s) (starving_cnt s) (bump mon (changed_cnt s))).
Definition stat_used (mon : bool) (lc : lru_cache) : lru_cache :=
  let s := stats lc in
  set_stats lc (mk_stats (hits s) (misses s) (starving s) (locked s) (changed s)
    (if mon then Z.max (used_max s) (used lc) else used_max s)
    (hits_cnt s) (misses_cnt s) (starving_cnt s) (changed_cnt s)).

(** ** Operations *)

(** [PARANOIA_ENTRY] and [RETURN]. *)
Definition PARANOIA_ENTRY (lc : lru_cache) : option lru_cache :=
  if (nr_elements lc =? 0)%nat || LC_PARANOIA (flags lc) then None else Some (set_paranoia lc true).
Definition RETURN {A} (x : A) (lc : lru_cache) : option (A * lru_cache) := Some (x, set_paranoia lc false).

(** [lc_try_lock]; [None] while someone is inside a paranoia section (the
    function spins). *)
Definition lc_try_lock (lc : lru_cache) : option (bool * lru_cache) :=
  match flags lc with
  | mk_flags false false false false => Some (true, set_locked lc true)
  | mk_flags true false false false => None
  | _ => Some (false, lc)
  end.

Definition lc_try_lock_for_transaction (lc : lru_cache) : bool * lru_cache :=
  (negb (LC_LOCKED (flags lc)), set_locked lc true).

Definition lc_unlock (lc : lru_cache) : lru_cache := set_locked (set_dirty lc false) false.

(** The loops of [lc_create] and [lc_reset] push every element to the front
    of the free list. *)
Definition fresh (n : nat) (max_pending : Z) (s : lc_stats) : lru_cache :=
  mk_lc (replicate n (mk_element 0 LC_FREE LC_FREE)) [] (rev (seq 0 n)) [] [] (replicate n [])
    max_pending 0 0 (mk_flags false false false false) s.

(** [lc_create]; [alloc] tells whether all allocations succeed. *)
Definition lc_create (alloc : bool) (max_pending e_count : Z) : option lru_cache :=
  if LC_MAX_ACTIVE <? e_count then None
  else if alloc then Some (fresh (Z.to_nat e_count) max_pending stats0) else None.

(** [lc_reset] keeps the counters of the performance monitor. *)
Definition lc_reset (lc : lru_cache) : lru_cache :=
  let s := stats lc in
  fresh (nr_elements lc) (max_pending_changes lc)
    (mk_stats 0 0 0 0 0 (used_max s) (hits_cnt s) (misses_cnt s) (starving_cnt s) (changed_cnt s)).

(** The walk of a collision chain in [__lc_find]. *)
Fixpoint chain_find (es : list lc_element) (chain : list nat) (enr : Z) (include_changing : bool) : option nat :=
  match chain with
  | [] => None
  | i :: chain =>
      match es !! i with
      | None => None
      | Some e =>
          if negb (lc_new_number e =? enr) then chain_find es chain enr include_changing
          else if (lc_new_number e =? lc_number e) || include_changing then Some i
          else None
      end
  end.

Definition __lc_find (lc : lru_cache) (enr : Z) (include_changing : bool) : option nat :=
  chain_find (elements lc) (default [] (lc_slot lc !! lc_hash_slot lc enr)) enr include_changing.

Definition lc_find (lc : lru_cache) (enr : Z) : option nat := __lc_find lc enr false.

Definition lc_is_used (lc : lru_cache) (enr : Z) : bool :=
  match __lc_find lc enr true with
  | Some i => match elements lc !! i with Some e => negb (refcnt e =? 0) | None => false end
  | None => false
  end.

Definition lc_del (lc : lru_cache) (i : nat) : option lru_cache :=
  lc ← PARANOIA_ENTRY lc;
  e ← elements lc !! i;
  if negb (refcnt e =? 0) then None
  else
    let lc := upd lc i (fun e => mk_element (refcnt e) LC_FREE LC_FREE) in
    let lc := hlist_del lc i in
    let lc := list_move lc i L_free in
    Some (set_paranoia lc false).

Definition lc_prepare_for_change (lc : lru_cache) (new_number : Z) : option nat * lru_cache :=
  let n := match free lc with
           | i :: _ => Some i
           | [] => last (lru lc)
           end in
  match n with
  | None => (None, lc)
  | Some i =>
      let lc := upd lc i (fun e => mk_element (refcnt e) (lc_number e) new_number) in
      let lc := hlist_del lc i in
      let lc := hlist_add_head lc i (lc_hash_slot lc new_number) in
      (Some i, list_move lc i L_to_be_changed)
  end.

Definition lc_unused_element_available (lc : lru_cache) : bool :=
  match free lc with
  | _ :: _ => true
  | [] => match lru lc with _ :: _ => true | [] => false end
  end.

(** [__lc_get]; [mon] is [g_bsrmon_run]. *)
Definition __lc_get (mon : bool) (lc : lru_cache) (enr : Z) (may_change may_use_uncommitted : bool)
  : option (option nat * lru_cache) :=
  lc ← PARANOIA_ENTRY lc;
  if LC_STARVING (flags lc) then RETURN None (stat_starving mon lc)
  else
    match __lc_find lc enr true with
    | Some i =>
        e ← elements lc !! i;
        if negb (lc_new_number e =? lc_number e) then
          if negb may_use_uncommitted then RETURN None lc
          else
            let lc := upd lc i (fun e => mk_element (u32 (refcnt e + 1)) (lc_number e) (lc_new_number e)) in
            RETURN (Some i) (stat_hit mon lc)
        else
          let lc := stat_hit mon lc in
          let lc := upd lc i (fun e => mk_element (u32 (refcnt e + 1)) (lc_number e) (lc_new_number e)) in
          let lc := if refcnt e =? 0 then stat_used mon (set_used lc (u32 (used lc + 1))) else lc in
          RETURN (Some i) (list_move lc i L_in_use)
    | None =>
        let lc := stat_miss mon lc in
        if negb may_change then RETURN None lc
        else
          let lc := set_dirty lc true in
          if LC_LOCKED (flags lc) then RETURN None (stat_locked mon lc)
          else if negb (lc_unused_element_available lc) then RETURN None (set_starving lc true)
          else if max_pending_changes lc <=? pending_changes lc then RETURN None lc
          else
            match lc_prepare_for_change lc enr with
            | (None, lc) => RETURN None lc
            | (Some i, lc) =>
                let lc := set_starving lc false in
                e ← elements lc !! i;
                if negb (u32 (refcnt e + 1) =? 1) then None
                else
                  let lc := upd lc i (fun e => mk_element (u32 (refcnt e + 1)) (lc_number e) (lc_new_number e)) in
                  let lc := stat_used mon (set_used lc (u32 (used lc + 1))) in
                  let lc := set_pending lc (u32 (pending_changes lc + 1)) in
                  RETURN (Some i) lc
            end
    end.

Definition lc_get (mon : bool) (lc : lru_cache) (enr : Z) := __lc_get mon lc enr true false.
Definition lc_get_cumulative (mon : bool) (lc : lru_cache) (enr : Z) := __lc_get mon lc enr true true.
Definition lc_try_get (mon : bool) (lc : lru_cache) (enr : Z) := __lc_get mon lc enr false false.

(** [list_for_each_entry_safe] over [to_be_changed]. *)
Fixpoint commit_all (mon : bool) (l : list nat) (lc : lru_cache) : lru_cache :=
  match l with
  | [] => lc
  | i :: l =>
      let lc := stat_changed mon lc in
      let lc := upd lc i (fun e => mk_element (refcnt e) (lc_new_number e) (lc_new_number e)) in
      commit_all mon l (list_move lc i L_in_use)
  end.

Definition lc_committed (mon : bool) (lc : lru_cache) : option lru_cache :=
  lc ← PARANOIA_ENTRY lc;
  let lc := commit_all mon (to_be_changed lc) lc in
  Some (set_paranoia (set_pending lc 0) false).

(** [lc_put] of a valid element: the new reference count. *)
Definition lc_put (lc : lru_cache) (i : nat) : option (Z * lru_cache) :=
  lc ← PARANOIA_ENTRY lc;
  e ← elements lc !! i;
  if (refcnt e =? 0) || negb (lc_number e =? lc_new_number e) then None
  else
    let r := u32 (refcnt e - 1) in
    let lc := upd lc i (fun e => mk_element (u32 (refcnt e - 1)) (lc_number e) (lc_new_number e)) in
    let lc := if r =? 0 then set_starving (set_used (list_move lc i L_lru) (u32 (used lc - 1))) false else lc in
    RETURN r lc.

Definition lc_element_by_index (lc : lru_cache) (i : nat) : option nat :=
  if (i <? nr_elements lc)%nat then Some i else None.

(** [lc_set]; an index out of range is ignored. *)
Definition lc_set (lc : lru_cache) (enr : Z) (index : Z) : option lru_cache :=
  if (index <? 0) || (Z.of_nat (nr_elements lc) <=? index) then Some lc
  else
    i ← lc_element_by_index lc (Z.to_nat index);
    e ← elements lc !! i;
    if negb (lc_number e =? lc_new_number e) || negb (refcnt e =? 0) then None
    else
      let lc := upd lc i (fun e => mk_element (refcnt e) enr enr) in
      let lc := hlist_del lc i in
      if enr =? LC_FREE then Some (list_move lc i L_free)
      else Some (list_move (hlist_add_head lc i (lc_hash_slot lc enr)) i L_lru).

(** ** The invariant *)

Definition in_list (lc : lru_cache) (w : which) : list nat :=
  match w with L_lru => lru lc | L_free => free lc | L_in_use => in_use lc | L_to_be_changed => to_be_changed lc end.

Global Instance which_eq_dec : EqDecision which.
Proof. solve_decision. Defined.

(** What the lists mean for the elements on them. *)
Definition state_ok (w : which) (e : lc_element) : Prop :=
  0 <= refcnt e < 2 ^ 32 /\
  match w with
  | L_free => refcnt e = 0 /\ lc_number e = LC_FREE /\ lc_new_number e = LC_FREE
  | L_lru => refcnt e = 0 /\ lc_number e = lc_new_number e /\ lc_new_number e <> LC_FREE
  | L_in_use => 0 < refcnt e /\ lc_number e = lc_new_number e /\ lc_new_number e <> LC_FREE
  | L_to_be_changed => 0 < refcnt e /\ lc_number e <> lc_new_number e /\ lc_new_number e <> LC_FREE
  end.

(** Every element is on exactly one list. *)
Record lists_ok (lc : lru_cache) : Prop := mk_lists_ok {
  ls_nodup : forall w, NoDup (in_list lc w);
  ls_one : forall i w w', i ∈ in_list lc w -> i ∈ in_list lc w' -> w = w';
  ls_all : forall i, (i < nr_elements lc)%nat <-> exists w, i ∈ in_list lc w }.

(** The chain of a slot has the elements whose new label hashes there. *)
Record hash_ok (lc : lru_cache) : Prop := mk_hash_ok {
  hs_len : length (lc_slot lc) = nr_elements lc;
  hs_chain : forall k chain, lc_slot lc !! k = Some chain -> NoDup chain /\
    forall i, i ∈ chain <-> exists e, elements lc !! i = Some e /\ lc_new_number e <> LC_FREE /\
                                   lc_hash_slot lc (lc_new_number e) = k;
  hs_uniq : forall i j e e', elements lc !! i = Some e -> elements lc !! j = Some e' ->
    lc_new_number e <> LC_FREE -> lc_new_number e = lc_new_number e' -> i = j }.

Record counts_ok (lc : lru_cache) : Prop := mk_counts_ok {
  ct_used : used lc = Z.of_nat (length (in_use lc)) + Z.of_nat (length (to_be_changed lc));
  ct_pending : pending_changes lc = Z.of_nat (length (to_be_changed lc));
  ct_max : pending_changes lc <= max_pending_changes lc }.

Record inv (lc : lru_cache) : Prop := mk_inv {
  iv_size : 0 < Z.of_nat (nr_elements lc) <= LC_MAX_ACTIVE;
  iv_max : 0 <= max_pending_changes lc;
  iv_lists : lists_ok lc;
  iv_state : forall w i, i ∈ in_list lc w -> exists e, elements lc !! i = Some e /\ state_ok w e;
  iv_hash : hash_ok lc;
  iv_counts : counts_ok lc }.

(** *** Removing from lists *)

Lemma elem_of_del i j l : j ∈ del i l <-> j ∈ l /\ j <> i.
Proof. unfold del. rewrite list_elem_of_filter. tauto. Qed.

Lemma NoDup_del i l : NoDup l -> NoDup (del i l).
Proof. apply NoDup_filter. Qed.

Lemma del_notin i l : i ∉ l -> del i l = l.
Proof.
  unfold del. induction l as [|j l IH]; intros Hn; [done|]. rewrite not_elem_of_cons in Hn. destruct Hn as [Hj Hn].
  rewrite filter_cons_True by congruence. by rewrite IH.
Qed.

Lemma length_del i l : NoDup l -> i ∈ l -> S (length (del i l)) = length l.
Proof.
  unfold del. induction 1 as [|j l Hj Hl IH]; intros Hi; [by apply elem_of_nil in Hi|].
  apply elem_of_cons in Hi as [->|Hi].
  - rewrite filter_cons_False by tauto. fold (del j l). by rewrite del_notin.
  - rewrite filter_cons_True; [simpl; by rewrite IH|]. intros ->. done.
Qed.

(** The lists after [list_move]. *)
Lemma in_list_move lc i w w' :
  in_list (list_move lc i w) w' = if decide (w' = w) then i :: del i (in_list lc w') else del i (in_list lc w').
Proof. by destruct w, w'. Qed.

Lemma elem_of_move lc i w w' j :
  j ∈ in_list (list_move lc i w) w' <-> (j = i /\ w' = w) \/ (j <> i /\ j ∈ in_list lc w').
Proof.
  rewrite in_list_move. destruct (decide (w' = w)) as [->|]; rewrite ?elem_of_cons, elem_of_del; [|tauto].
  destruct (decide (j = i)); tauto.
Qed.

Lemma lists_move lc lc' i w :
  lists_ok lc -> (i < nr_elements lc)%nat -> nr_elements lc' = nr_elements lc ->
  (forall v, in_list lc' v = in_list (list_move lc i w) v) -> lists_ok lc'.
Proof.
  intros [H1 H2 H3] Hi Hn He. split.
  - intros v. rewrite He, in_list_move. destruct (decide (v = w)); [|by apply NoDup_del].
    constructor; [rewrite elem_of_del; tauto|by apply NoDup_del].
  - intros j v v'. rewrite !He, !elem_of_move. intros [[-> ->]|[? ?]] [[? ->]|[? ?]]; try done. by eapply H2.
  - intros j. rewrite Hn, H3. split.
    + intros [v Hv]. destruct (decide (j = i)) as [->|]; [exists w|exists v]; rewrite He, elem_of_move; tauto.
    + intros [v Hv]. rewrite He, elem_of_move in Hv. destruct Hv as [[-> ->]|[_ Hv]]; [by apply H3|by exists v].
Qed.

(** The state of the elements after one was updated and moved. *)
Lemma state_move lc lc' i w e' :
  inv lc -> (i < nr_elements lc)%nat -> elements lc' = <[i := e']> (elements lc) ->
  (forall v, in_list lc' v = in_list (list_move lc i w) v) -> state_ok w e' ->
  forall v j, j ∈ in_list lc' v -> exists e, elements lc' !! j = Some e /\ state_ok v e.
Proof.
  intros Hinv Hi He Hl Hs v j. rewrite Hl, elem_of_move, He. intros [[-> ->]|[Hne Hv]].
  - exists e'. split; [|done]. apply list_lookup_insert_eq. done.
  - destruct (iv_state _ Hinv v j Hv) as (e & Hj & Hst). exists e. by rewrite list_lookup_insert_ne by done.
Qed.

(** *** The hash table *)

Lemma hash_slot_lt lc enr : (0 < nr_elements lc)%nat -> (lc_hash_slot lc enr < nr_elements lc)%nat.
Proof.
  intros Hn. unfold lc_hash_slot. pose proof (Z.mod_pos_bound enr (Z.of_nat (nr_elements lc)) ltac:(lia)). lia.
Qed.

(** Element [i] gets the contents [e'] without a change of its new label. *)
Lemma hash_same lc lc' i e e' :
  hash_ok lc -> elements lc !! i = Some e -> elements lc' = <[i := e']> (elements lc) ->
  lc_new_number e' = lc_new_number e -> lc_slot lc' = lc_slot lc -> hash_ok lc'.
Proof.
  intros [H1 H2 H3] Hi He Hn Hs.
  assert (nr_elements lc' = nr_elements lc) as Hlen by (unfold nr_elements; by rewrite He, length_insert).
  assert (forall x, lc_hash_slot lc' x = lc_hash_slot lc x) as Hsl by (intros; unfold lc_hash_slot; by rewrite Hlen).
  assert (forall j e1, elements lc' !! j = Some e1 -> exists e0, elements lc !! j = Some e0 /\ lc_new_number e1 = lc_new_number e0) as Hold.
  { intros j e1. rewrite He. destruct (decide (j = i)) as [->|].
    - rewrite list_lookup_insert_eq by (by eapply lookup_lt_Some). intros [= <-]. by exists e.
    - rewrite list_lookup_insert_ne by done. intros. by exists e1. }
  assert (forall j e0, elements lc !! j = Some e0 -> exists e1, elements lc' !! j = Some e1 /\ lc_new_number e1 = lc_new_number e0) as Hnew.
  { intros j e0 Hj. rewrite He. destruct (decide (j = i)) as [->|].
    - rewrite list_lookup_insert_eq by (by eapply lookup_lt_Some). exists e'. split; [done|]. congruence.
    - rewrite list_lookup_insert_ne by done. by exists e0. }
  split.
  - by rewrite Hs, Hlen.
  - intros k chain. rewrite Hs. intros Hk. destruct (H2 k chain Hk) as [Hnd Hc]. split; [done|]. intros j. rewrite Hc. split.
    + intros (e0 & Hj & Hf & Hsl'). destruct (Hnew j e0 Hj) as (e1 & Hj1 & Hn1). exists e1. rewrite Hn1, Hsl. done.
    + intros (e1 & Hj & Hf & Hsl'). destruct (Hold j e1 Hj) as (e0 & Hj0 & Hn0). exists e0. rewrite <- Hn0, <- Hsl. done.
  - intros j k e1 e2 Hj Hk. destruct (Hold j e1 Hj) as (e3 & Hj3 & ->), (Hold k e2 Hk) as (e4 & Hk4 & ->). by eapply H3.
Qed.

(** Element [i] gets a new label that no other element has. *)
Lemma hash_relabel lc lc' i e' :
  hash_ok lc -> (i < nr_elements lc)%nat -> elements lc' = <[i := e']> (elements lc) ->
  lc_slot lc' = (if decide (lc_new_number e' = LC_FREE) then map (del i) (lc_slot lc)
                 else alter (cons i) (lc_hash_slot lc (lc_new_number e')) (map (del i) (lc_slot lc))) ->
  (lc_new_number e' <> LC_FREE ->
   forall j e, j <> i -> elements lc !! j = Some e -> lc_new_number e <> lc_new_number e') ->
  hash_ok lc'.
Proof.
  intros [H1 H2 H3] Hi He Hs Huniq.
  assert (nr_elements lc' = nr_elements lc) as Hlen by (unfold nr_elements; by rewrite He, length_insert).
  assert (forall x, lc_hash_slot lc' x = lc_hash_slot lc x) as Hsl by (intros; unfold lc_hash_slot; by rewrite Hlen).
  assert (elements lc' !! i = Some e') as Hii by (rewrite He; by apply list_lookup_insert_eq).
  assert (forall j, j <> i -> elements lc' !! j = elements lc !! j) as Hne by (intros; rewrite He; by apply list_lookup_insert_ne).
  split.
  - rewrite Hs, Hlen, <- H1. destruct (decide _); by rewrite ?length_alter, length_map.
  - intros k chain Hk.
    (* the chain before, without [i] *)
    assert (exists c0, lc_slot lc !! k = Some c0 /\
      chain = if decide (lc_new_number e' <> LC_FREE /\ lc_hash_slot lc (lc_new_number e') = k) then i :: del i c0 else del i c0)
      as (c0 & Hc0 & ->).
    { rewrite Hs in Hk. destruct (decide (lc_new_number e' = LC_FREE)) as [Hf|Hf].
      - rewrite list_lookup_fmap in Hk. destruct (lc_slot lc !! k) as [c0|] eqn:E; [|done]. injection Hk as <-.
        exists c0. split; [done|]. rewrite decide_False by tauto. done.
      - rewrite list_lookup_alter in Hk. destruct (decide (lc_hash_slot lc (lc_new_number e') = k)) as [Hkk|Hkk];
          rewrite list_lookup_fmap, ?Hkk in Hk;
          (destruct (lc_slot lc !! k) as [c0|] eqn:E; simpl in Hk; [|done]); injection Hk as <-; exists c0;
          (split; [done|]); [rewrite decide_True by done|rewrite decide_False by tauto]; done. }
    destruct (H2 k c0 Hc0) as [Hnd Hc]. split.
    { case_decide; [|by apply NoDup_del]. constructor; [rewrite elem_of_del; tauto|by apply NoDup_del]. }
    intros j. destruct (decide (j = i)) as [->|Hj].
    + rewrite Hii. case_decide as Hd.
      * split; [|intros; by apply elem_of_cons; left]. intros _. exists e'. rewrite Hsl. tauto.
      * rewrite elem_of_del. split; [tauto|]. intros (e & [= <-] & Hf & Hk'). rewrite Hsl in Hk'. tauto.
    + assert (j ∈ (if decide (lc_new_number e' <> LC_FREE /\ lc_hash_slot lc (lc_new_number e') = k)
        then i :: del i c0 else del i c0) <-> j ∈ c0) as ->.
      { case_decide; rewrite ?elem_of_cons, elem_of_del; tauto. }
      rewrite Hc, Hne by done. by setoid_rewrite Hsl.
  - intros j k e1 e2 Hj Hk Hf Heq. destruct (decide (j = i)) as [->|Hji], (decide (k = i)) as [->|Hki]; try done.
    + rewrite Hne in Hk by done. simplify_eq. exfalso. by apply (Huniq Hf k e2).
    + rewrite Hne in Hj by done. simplify_eq. exfalso. apply (Huniq ltac:(congruence) j e1); done.
    + rewrite Hne in Hj, Hk by done. by eapply H3.
Qed.

(** *** Looking up labels *)

Lemma chain_find_spec es chain enr :
  (forall i, i ∈ chain -> is_Some (es !! i)) ->
  (forall i, chain_find es chain enr true = Some i -> i ∈ chain /\ exists e, es !! i = Some e /\ lc_new_number e = enr) /\
  (chain_find es chain enr true = None -> forall i e, i ∈ chain -> es !! i = Some e -> lc_new_number e <> enr).
Proof.
  induction chain as [|j chain IH]; intros Hall; cbn [chain_find].
  { split; [done|]. intros _ i e Hi. by apply elem_of_nil in Hi. }
  destruct (Hall j) as [ej Hj]; [apply elem_of_cons; by left|]. rewrite Hj.
  destruct IH as [IH1 IH2]; [intros; apply Hall, elem_of_cons; by right|].
  destruct (Z.eqb_spec (lc_new_number ej) enr) as [He|He]; cbn [negb].
  - rewrite orb_true_r. split; [|done]. intros i [= <-]. split; [apply elem_of_cons; by left|]. by exists ej.
  - split.
    + intros i Hi. destruct (IH1 i Hi) as [H1 H2]. split; [apply elem_of_cons; by right|done].
    + intros Hn i e. rewrite elem_of_cons. intros [->|Hi] Hie; [congruence|]. by eapply IH2.
Qed.

Lemma find_spec lc enr :
  inv lc -> enr <> LC_FREE ->
  match __lc_find lc enr true with
  | Some i => exists e, elements lc !! i = Some e /\ lc_new_number e = enr
  | None => forall i e, elements lc !! i = Some e -> lc_new_number e <> enr
  end.
Proof.
  intros Hinv Hf. destruct Hinv as [Hsz _ _ _ [H1 H2 H3] _]. unfold __lc_find.
  destruct (lookup_lt_is_Some_2 (lc_slot lc) (lc_hash_slot lc enr)) as [chain Hk].
  { rewrite H1. apply hash_slot_lt. lia. }
  rewrite Hk. simpl. destruct (H2 _ _ Hk) as [_ Hc].
  destruct (chain_find_spec (elements lc) chain enr) as [Hs Hn].
  { intros i Hi. apply Hc in Hi as (e & He & _). by exists e. }
  destruct (chain_find _ _ _ _) as [i|]; [by apply Hs|].
  intros i e He Heq. apply (Hn eq_refl i e); try done. apply Hc. exists e. rewrite Heq. done.
Qed.

(** ** Preservation *)

(** Flags and statistics do not matter. *)
Lemma inv_core lc lc' :
  elements lc' = elements lc -> (forall w, in_list lc' w = in_list lc w) -> lc_slot lc' = lc_slot lc ->
  max_pending_changes lc' = max_pending_changes lc -> pending_changes lc' = pending_changes lc ->
  used lc' = used lc -> inv lc -> inv lc'.
Proof.
  intros He Hl Hs Hm Hp Hu [H1 H2 [L1 L2 L3] H4 [S1 S2 S3] [C1 C2 C3]].
  assert (nr_elements lc' = nr_elements lc) as Hn by (unfold nr_elements; by rewrite He).
  assert (forall x, lc_hash_slot lc' x = lc_hash_slot lc x) as Hsl by (intros; unfold lc_hash_slot; by rewrite Hn).
  pose proof (Hl L_in_use) as Hiu. pose proof (Hl L_to_be_changed) as Htb. simpl in Hiu, Htb.
  split; rewrite ?Hn, ?Hm; try done.
  - split; setoid_rewrite Hl; try done. by rewrite Hn.
  - intros w i. rewrite Hl, He. apply H4.
  - split; rewrite ?Hs, ?He, ?Hn; try done. by setoid_rewrite Hsl.
  - split; rewrite ?Hu, ?Hp, ?Hm, ?Hiu, ?Htb; done.
Qed.

Ltac inv_same := apply inv_core; first [done | by intros []].

Lemma inv_paranoia lc b : inv lc -> inv (set_paranoia lc b).
Proof. inv_same. Qed.

Lemma length_move lc i v w x :
  lists_ok lc -> i ∈ in_list lc v ->
  Z.of_nat (length (in_list (list_move lc i w) x)) =
  Z.of_nat (length (in_list lc x)) + (if decide (x = w) then 1 else 0) - (if decide (x = v) then 1 else 0).
Proof.
  intros [H1 H2 H3] Hi. rewrite in_list_move. destruct (decide (x = v)) as [->|Hxv].
  - pose proof (length_del i (in_list lc v) (H1 v) Hi). case_decide; simpl; lia.
  - rewrite del_notin; [|intros Hx; apply Hxv; by eapply H2]. case_decide; simpl; lia.
Qed.

(** No more elements are in use than there are. *)
Lemma used_bound lc : inv lc -> 0 <= used lc <= Z.of_nat (nr_elements lc).
Proof.
  intros [_ _ [L1 L2 L3] _ _ [C1 _ _]]. rewrite C1, <- Nat2Z.inj_add, <- length_app. split; [lia|]. apply inj_le.
  replace (nr_elements lc) with (length (seq 0 (nr_elements lc))) by apply length_seq. apply NoDup_incl_length.
  - apply NoDup_ListNoDup, NoDup_app. split_and!; [apply (L1 L_in_use)| |apply (L1 L_to_be_changed)].
    intros i Hi Hi'. by specialize (L2 i L_in_use L_to_be_changed Hi Hi').
  - intros i. rewrite <- !list_elem_of_In, elem_of_app, elem_of_seq. intros Hi. split; [lia|].
    apply L3. destruct Hi; [by exists L_in_use|by exists L_to_be_changed].
Qed.

(** An element is updated and moved to list [w]. *)
Lemma inv_move lc lc' i v w e' :
  inv lc -> i ∈ in_list lc v -> elements lc' = <[i := e']> (elements lc) ->
  (forall x, in_list lc' x = in_list (list_move lc i w) x) -> state_ok w e' -> hash_ok lc' ->
  max_pending_changes lc' = max_pending_changes lc ->
  used lc' = used lc + (if decide (w = L_in_use \/ w = L_to_be_changed) then 1 else 0)
                     - (if decide (v = L_in_use \/ v = L_to_be_changed) then 1 else 0) ->
  pending_changes lc' = pending_changes lc + (if decide (w = L_to_be_changed) then 1 else 0)
                                         - (if decide (v = L_to_be_changed) then 1 else 0) ->
  pending_changes lc' <= max_pending_changes lc -> inv lc'.
Proof.
  intros Hinv Hv He Hl Hst Hh Hm Hu Hp Hle. pose proof Hinv as [H1 H2 H3 H4 H5 [C1 C2 C3]].
  assert (i < nr_elements lc)%nat as Hi by (apply (ls_all _ H3); by exists v).
  assert (nr_elements lc' = nr_elements lc) as Hn by (unfold nr_elements; by rewrite He, length_insert).
  split; rewrite ?Hn, ?Hm; try done.
  - by eapply lists_move.
  - by eapply state_move.
  - pose proof (length_move lc i v w L_in_use H3 Hv) as E1. pose proof (length_move lc i v w L_to_be_changed H3 Hv) as E2.
    rewrite <- (Hl L_in_use) in E1. rewrite <- (Hl L_to_be_changed) in E2. simpl in E1, E2.
    split; rewrite ?Hm; [rewrite Hu, C1, E1, E2|rewrite Hp, C2, E2|done].
    + by destruct v, w; simpl; lia.
    + by destruct v, w; simpl; lia.
Qed.

(** An element is updated and stays on its list. *)
Lemma inv_stay lc lc' i w e' :
  inv lc -> i ∈ in_list lc w -> elements lc' = <[i := e']> (elements lc) ->
  (forall x, in_list lc' x = in_list lc x) -> state_ok w e' -> hash_ok lc' ->
  max_pending_changes lc' = max_pending_changes lc -> used lc' = used lc -> pending_changes lc' = pending_changes lc ->
  inv lc'.
Proof.
  intros [H1 H2 [L1 L2 L3] H4 H5 [C1 C2 C3]] Hv He Hl Hst Hh Hm Hu Hp.
  assert (nr_elements lc' = nr_elements lc) as Hn by (unfold nr_elements; by rewrite He, length_insert).
  pose proof (Hl L_in_use) as Hiu. pose proof (Hl L_to_be_changed) as Htb. simpl in Hiu, Htb.
  split; rewrite ?Hn, ?Hm; try done.
  - split; setoid_rewrite Hl; try done. by rewrite Hn.
  - intros x j. rewrite Hl, He. intros Hj. destruct (decide (j = i)) as [->|].
    + exists e'. rewrite (L2 i x w Hj Hv). split; [|done]. apply list_lookup_insert_eq, L3. by exists w.
    + rewrite list_lookup_insert_ne by done. by apply H4.
  - split; rewrite ?Hu, ?Hp, ?Hm, ?Hiu, ?Htb; done.
Qed.

Lemma elem_state lc i e :
  inv lc -> elements lc !! i = Some e -> exists w, i ∈ in_list lc w /\ state_ok w e.
Proof.
  intros Hinv Hi. destruct (proj1 (ls_all _ (iv_lists _ Hinv) i)) as [w Hw]; [by eapply lookup_lt_Some|].
  exists w. split; [done|]. destruct (iv_state _ Hinv w i Hw) as (e' & He' & Hs). congruence.
Qed.

Lemma upd_insert lc i e f : elements lc !! i = Some e -> elements (upd lc i f) = <[i := f e]> (elements lc).
Proof.
  intros Hi. unfold upd. simpl. apply list_eq. intros j. destruct (decide (j = i)) as [->|].
  - rewrite list_lookup_alter_eq, Hi, list_lookup_insert_eq by (by eapply lookup_lt_Some). done.
  - by rewrite list_lookup_alter_ne, list_lookup_insert_ne by done.
Qed.

(** Nobody is inside a paranoia section. *)
Definition idle (lc : lru_cache) : Prop := LC_PARANOIA (flags lc) = false.

(** No reference count is about to overflow. *)
Definition no_overflow (lc : lru_cache) : Prop :=
  forall i e, elements lc !! i = Some e -> refcnt e < 2 ^ 32 - 1.

Lemma paranoia_entry lc : inv lc -> idle lc -> PARANOIA_ENTRY lc = Some (set_paranoia lc true).
Proof.
  intros Hinv Hid. unfold PARANOIA_ENTRY. rewrite Hid, orb_false_r.
  pose proof (iv_size _ Hinv). by rewrite (proj2 (Nat.eqb_neq _ _)) by lia.
Qed.

(** *** One more reference *)

Definition add_ref (e : lc_element) : lc_element := mk_element (u32 (refcnt e + 1)) (lc_number e) (lc_new_number e).

Lemma state_add_ref w e :
  state_ok w e -> refcnt e < 2 ^ 32 - 1 ->
  (w = L_in_use \/ w = L_to_be_changed -> state_ok w (add_ref e)) /\
  (w = L_lru -> state_ok L_in_use (add_ref e)) /\ refcnt (add_ref e) = refcnt e + 1.
Proof.
  intros [Hr Hs] Ho. unfold add_ref, state_ok. simpl. rewrite u32_id by lia.
  split_and!; [intros [-> | ->]| intros -> | done]; simpl; split_and!; try lia; tauto.
Qed.

(** A hit: the element moves to the in-use list with one more reference. *)
Lemma hit_inv mon lc i e :
  inv lc -> no_overflow lc -> elements lc !! i = Some e -> lc_new_number e = lc_number e -> lc_new_number e <> LC_FREE ->
  inv (list_move
    (let lc := upd (stat_hit mon lc) i add_ref in
     if refcnt e =? 0 then stat_used mon (set_used lc (u32 (used lc + 1))) else lc) i L_in_use).
Proof.
  intros Hinv Ho Hi Hn Hf. destruct (elem_state lc i e Hinv Hi) as (w & Hw & Hs).
  destruct (state_add_ref w e Hs (Ho i e Hi)) as (A1 & A2 & A3).
  pose proof (used_bound lc Hinv) as Hub. pose proof (iv_size _ Hinv) as Hsz. change LC_MAX_ACTIVE with 16777216 in Hsz.
  pose proof (upd_insert (stat_hit mon lc) i e add_ref Hi) as Hup.
  assert ((w = L_lru /\ refcnt e = 0) \/ (w = L_in_use /\ refcnt e <> 0)) as Hcase.
  { destruct Hs as [_ Hs]. destruct w; [left|exfalso|right|exfalso]; try (split; [done|lia]); destruct Hs as (_ & Hs & _); congruence. }
  assert (forall lc', elements lc' = <[i := add_ref e]> (elements lc) -> lc_slot lc' = lc_slot lc -> hash_ok lc') as Hhash.
  { intros lc' He Hsl. by apply (hash_same lc lc' i e (add_ref e) (iv_hash _ Hinv)). }
  cbv zeta. destruct Hcase as [[-> Hz]|[-> Hz]].
  - rewrite Hz. change (0 =? 0) with true. cbv iota.
    apply (inv_move lc _ i L_lru L_in_use (add_ref e)); [done|done|exact Hup|by intros []|by apply A2|by apply Hhash|done| | |].
    + change (u32 (used lc + 1) = used lc + 1 - 0). rewrite u32_id by lia. lia.
    + simpl. lia.
    + simpl. apply (iv_counts _ Hinv).
  - rewrite (proj2 (Z.eqb_neq _ _) Hz).
    apply (inv_move lc _ i L_in_use L_in_use (add_ref e)); [done|done|exact Hup|by intros []|apply A1; by left|by apply Hhash|done| | |].
    + simpl. lia.
    + simpl. lia.
    + simpl. apply (iv_counts _ Hinv).
Qed.

(** A reference to an element that waits for its transaction. *)
Lemma pending_inv mon lc i e :
  inv lc -> no_overflow lc -> elements lc !! i = Some e -> lc_new_number e <> lc_number e ->
  inv (stat_hit mon (upd lc i add_ref)).
Proof.
  intros Hinv Ho Hi Hn. destruct (elem_state lc i e Hinv Hi) as (w & Hw & Hs).
  destruct (state_add_ref w e Hs (Ho i e Hi)) as (A1 & A2 & A3). pose proof (upd_insert lc i e add_ref Hi) as Hup.
  assert (w = L_to_be_changed) as ->.
  { destruct Hs as [_ Hs]. destruct w; try done; destruct Hs as (_ & H1 & H2); congruence. }
  apply (inv_stay lc _ i L_to_be_changed (add_ref e)); [done|done|exact Hup|by intros []|apply A1; by right| |done..].
  by apply (hash_same lc _ i e (add_ref e) (iv_hash _ Hinv)).
Qed.

(** *** Recycling an element *)

(** The element [lc_prepare_for_change] takes: the head of the free list, or
    else the least recently used element. *)
Definition victim (lc : lru_cache) : option nat :=
  match free lc with i :: _ => Some i | [] => last (lru lc) end.

Lemma victim_list lc i :
  victim lc = Some i -> exists v, i ∈ in_list lc v /\ (v = L_free \/ v = L_lru /\ free lc = []).
Proof.
  unfold victim. destruct (free lc) as [|j l] eqn:E.
  - intros Hl. exists L_lru. split; [|auto]. apply last_Some in Hl as [l' Hl]. simpl. rewrite Hl.
    apply elem_of_app. right. apply elem_of_cons. by left.
  - intros [= <-]. exists L_free. split; [|by left]. simpl. rewrite E. apply elem_of_cons. by left.
Qed.

Lemma unused_available lc : lc_unused_element_available lc = true <-> is_Some (victim lc).
Proof.
  unfold lc_unused_element_available, victim. destruct (free lc); [|split; [intros _; by eexists|done]].
  destruct (lru lc) as [|j l] eqn:E; [split; [done|by intros [? ?]]|]. split; [intros _|by intros _].
  destruct (last (j :: l)) eqn:El; [by eexists|]. by apply last_None in El.
Qed.

(** The cache after element [i] was taken for the label [enr]. *)
Definition recycled (mon : bool) (lc : lru_cache) (enr : Z) (i : nat) : lru_cache :=
  let lc := upd lc i (fun e => mk_element (refcnt e) (lc_number e) enr) in
  let lc := hlist_del lc i in
  let lc := hlist_add_head lc i (lc_hash_slot lc enr) in
  let lc := list_move lc i L_to_be_changed in
  let lc := set_starving lc false in
  let lc := upd lc i add_ref in
  let lc := stat_used mon (set_used lc (u32 (used lc + 1))) in
  set_pending lc (u32 (pending_changes lc + 1)).

Lemma upd_upd lc i e f g lc1 :
  elements lc !! i = Some e -> elements lc1 = elements (upd lc i f) ->
  elements (upd lc1 i g) = <[i := g (f e)]> (elements lc).
Proof.
  intros Hi H1. rewrite (upd_insert lc i e f Hi) in H1.
  rewrite (upd_insert lc1 i (f e) g); [|rewrite H1; apply list_lookup_insert_eq; by eapply lookup_lt_Some].
  by rewrite H1, list_insert_insert_eq.
Qed.

Lemma recycle_inv mon lc enr i e :
  inv lc -> enr <> LC_FREE -> victim lc = Some i -> elements lc !! i = Some e ->
  (forall j e, elements lc !! j = Some e -> lc_new_number e <> enr) ->
  pending_changes lc < max_pending_changes lc ->
  refcnt e = 0 /\ inv (recycled mon lc enr i) /\
  elements (recycled mon lc enr i) = <[i := mk_element 1 (lc_number e) enr]> (elements lc).
Proof.
  intros Hinv Hf Hv Hi Hno Hp. destruct (victim_list lc i Hv) as (v & Hiv & Hvc).
  destruct (elem_state lc i e Hinv Hi) as (w & Hw & Hs).
  assert (w = v) as -> by (by eapply (ls_one _ (iv_lists _ Hinv))).
  assert (refcnt e = 0 /\ lc_number e <> enr) as [Hr Hne].
  { destruct Hs as [_ Hs]. destruct Hvc as [->|[-> _]]; destruct Hs as (H1 & H2 & H3); split; try done; [congruence|].
    rewrite H2. by apply (Hno i). }
  assert (elements (recycled mon lc enr i) = <[i := mk_element 1 (lc_number e) enr]> (elements lc)) as He.
  { unfold recycled. cbv zeta. set (lc1 := set_starving _ false).
    transitivity (elements (upd lc1 i add_ref)); [done|].
    rewrite (upd_upd lc i e (fun e => mk_element (refcnt e) (lc_number e) enr) add_ref lc1 Hi) by done.
    unfold add_ref. simpl. by rewrite Hr. }
  split; [done|]. split; [|done].
  pose proof (used_bound lc Hinv) as Hub. pose proof (iv_size _ Hinv) as Hsz. change LC_MAX_ACTIVE with 16777216 in Hsz.
  pose proof (iv_counts _ Hinv) as [C1 C2 C3].
  assert (v <> L_in_use /\ v <> L_to_be_changed) as [Hv1 Hv2] by by destruct Hvc as [->|[-> _]].
  apply (inv_move lc _ i v L_to_be_changed (mk_element 1 (lc_number e) enr)); [done|done|done|by intros []| | |done|..].
  - split; [simpl; lia|]. simpl. split_and!; [lia|congruence..].
  - apply (hash_relabel lc _ i (mk_element 1 (lc_number e) enr) (iv_hash _ Hinv)); try done.
    + by eapply lookup_lt_Some.
    + simpl. rewrite decide_False by done. f_equal. unfold lc_hash_slot, nr_elements. simpl. by rewrite length_alter.
    + intros _ j e0 _ Hj. simpl. by apply (Hno j).
  - rewrite decide_True by auto. rewrite (decide_False (P := v = _ \/ _)) by tauto.
    change (u32 (used lc + 1) = used lc + 1 - 0). rewrite u32_id by lia. lia.
  - rewrite decide_True by auto. rewrite (decide_False (P := v = _)) by tauto.
    change (u32 (pending_changes lc + 1) = pending_changes lc + 1 - 0). rewrite u32_id by lia. lia.
  - change (u32 (pending_changes lc + 1) <= max_pending_changes lc). rewrite u32_id by lia. lia.
Qed.

(** ** [__lc_get] *)

Definition same_set (lc lc' : lru_cache) : Prop :=
  elements lc' = elements lc /\ forall w, in_list lc' w = in_list lc w.

(** No element has or is about to get the label. *)
Definition absent (lc : lru_cache) (enr : Z) : Prop :=
  forall i e, elements lc !! i = Some e -> lc_new_number e <> enr.

(** What a caller of [__lc_get] gets. *)
Definition get_result (lc : lru_cache) (enr : Z) (may_change may_use_uncommitted : bool)
    (r : option nat) (lc' : lru_cache) : Prop :=
  match r with
  | Some i => LC_STARVING (flags lc) = false /\ exists e, elements lc !! i = Some e /\
      ((* a hit *)
       lc_number e = enr /\ lc_new_number e = enr /\ i ∈ in_use lc' /\
         elements lc' = <[i := mk_element (refcnt e + 1) enr enr]> (elements lc) \/
       (* already being pulled in *)
       may_use_uncommitted = true /\ lc_new_number e = enr /\ lc_number e <> enr /\
         elements lc' = <[i := mk_element (refcnt e + 1) (lc_number e) enr]> (elements lc) \/
       (* an unused element is recycled *)
       may_change = true /\ absent lc enr /\ victim lc = Some i /\ refcnt e = 0 /\
         LC_LOCKED (flags lc) = false /\ pending_changes lc < max_pending_changes lc /\
         LC_DIRTY (flags lc') = true /\ i ∈ to_be_changed lc' /\
         elements lc' = <[i := mk_element 1 (lc_number e) enr]> (elements lc))
  | None => same_set lc lc' /\
      (LC_STARVING (flags lc) = true \/
       may_use_uncommitted = false /\ (exists i e, elements lc !! i = Some e /\ lc_new_number e = enr /\ lc_number e <> enr) \/
       absent lc enr /\
         (may_change = false \/ LC_LOCKED (flags lc) = true \/
          victim lc = None /\ LC_STARVING (flags lc') = true \/ max_pending_changes lc <= pending_changes lc))
  end.

Lemma state_refcnt w e : state_ok w e -> refcnt e < 2 ^ 32 - 1 ->
  add_ref e = mk_element (refcnt e + 1) (lc_number e) (lc_new_number e).
Proof. intros [Hs _] Hr. unfold add_ref. rewrite u32_id; [done|]. lia. Qed.

Lemma recycled_eq mon lc enr i e :
  victim lc = Some i -> elements lc !! i = Some e -> refcnt e = 0 ->
  (match lc_prepare_for_change lc enr with
   | (None, lc) => RETURN None lc
   | (Some i, lc) =>
       let lc := set_starving lc false in
       e ← elements lc !! i;
       if negb (u32 (refcnt e + 1) =? 1) then None
       else
         let lc := upd lc i add_ref in
         let lc := stat_used mon (set_used lc (u32 (used lc + 1))) in
         let lc := set_pending lc (u32 (pending_changes lc + 1)) in
         RETURN (Some i) lc
   end) = RETURN (Some i) (recycled mon lc enr i).
Proof.
  intros Hv Hi Hr. unfold lc_prepare_for_change. fold (victim lc). rewrite Hv.
  set (lc1 := list_move _ i L_to_be_changed).
  assert (elements (set_starving lc1 false) !! i = Some (mk_element 0 (lc_number e) enr)) as ->; [|done].
  change (elements (set_starving lc1 false)) with (alter (fun e => mk_element (refcnt e) (lc_number e) enr) i (elements lc)).
  rewrite list_lookup_alter_eq, Hi. simpl. by rewrite Hr.
Qed.

Lemma recycled_rest mon lc enr i :
  flags (recycled mon lc enr i) = flags (set_starving lc false) /\
  to_be_changed (recycled mon lc enr i) = i :: del i (to_be_changed lc).
Proof. split; reflexivity. Qed.

Lemma lc_get_cases mon lc enr mc mu :
  inv lc -> idle lc -> no_overflow lc -> enr <> LC_FREE ->
  exists r lc', __lc_get mon lc enr mc mu = Some (r, lc') /\ inv lc' /\ idle lc' /\ get_result lc enr mc mu r lc'.
Proof.
  intros Hinv Hid Ho Hf. unfold __lc_get. rewrite paranoia_entry by done. cbn [mbind option_bind].
  set (lc0 := set_paranoia lc true). assert (inv lc0) as Hinv0 by (revert Hinv; inv_same).
  change (LC_STARVING (flags lc0)) with (LC_STARVING (flags lc)).
  destruct (LC_STARVING (flags lc)) eqn:Hst.
  { eexists None, _. split; [done|]. split_and!; [revert Hinv; inv_same|done|]. split; [by split; [|intros []]|by left]. }
  pose proof (find_spec lc0 enr Hinv0 Hf) as Hfind. destruct (__lc_find lc0 enr true) as [i|].
  - destruct Hfind as (e & Hi & He). rewrite Hi. cbn [mbind option_bind].
    destruct (elem_state lc0 i e Hinv0 Hi) as (w & Hw & Hs). pose proof (state_refcnt w e Hs (Ho i e Hi)) as Hadd.
    pose proof (upd_insert lc0 i e add_ref Hi) as Hup. rewrite Hadd in Hup.
    destruct (Z.eqb_spec (lc_new_number e) (lc_number e)) as [Heq|Hne]; cbn [negb].
    + eexists (Some i), _. split; [done|]. split_and!.
      * generalize (hit_inv mon lc0 i e Hinv0 Ho Hi Heq ltac:(congruence)). inv_same.
      * done.
      * split; [done|]. exists e. split; [done|]. left. split_and!; [congruence|done| |].
        -- simpl. apply elem_of_cons. by left.
        -- rewrite <- He. rewrite Heq at 1. destruct (refcnt e =? 0); exact Hup.
    + destruct mu; cbn [negb].
      * eexists (Some i), _. split; [done|]. split_and!; [|done|].
        -- generalize (pending_inv mon lc0 i e Hinv0 Ho Hi Hne). inv_same.
        -- split; [done|]. exists e. split; [done|]. right. left. split_and!; try done; [congruence|]. by rewrite <- He.
      * eexists None, _. split; [done|]. split_and!; [revert Hinv; inv_same|done|].
        split; [by split; [|intros []]|]. right. left. split; [done|]. exists i, e. split_and!; try done. congruence.
  - assert (absent lc enr) as Habs by done.
    destruct mc; cbn [negb].
    2: { eexists None, _. split; [done|]. split_and!; [revert Hinv; inv_same|done|].
         split; [by split; [|intros []]|]. right. right. auto. }
    cbv zeta. set (lc1 := set_dirty (stat_miss mon lc0) true).
    assert (inv lc1) as Hinv1 by (revert Hinv; inv_same).
    change (LC_LOCKED (flags lc1)) with (LC_LOCKED (flags lc)). destruct (LC_LOCKED (flags lc)) eqn:Hlk.
    { eexists None, _. split; [done|]. split_and!; [revert Hinv; inv_same|done|].
      split; [by split; [|intros []]|]. right. right. auto. }
    destruct (lc_unused_element_available lc1) eqn:Hav; cbn [negb].
    2: { eexists None, _. split; [done|]. split_and!; [revert Hinv; inv_same|done|].
         split; [by split; [|intros []]|]. right. right. split; [done|]. right. right. left. split; [|done].
         destruct (victim lc) eqn:Ev; [|done]. assert (lc_unused_element_available lc1 = true); [|congruence].
         apply unused_available. by exists n. }
    apply unused_available in Hav as [i Hv].
    change (max_pending_changes lc1) with (max_pending_changes lc). change (pending_changes lc1) with (pending_changes lc).
    destruct (Z.leb_spec (max_pending_changes lc) (pending_changes lc)).
    { eexists None, _. split; [done|]. split_and!; [revert Hinv; inv_same|done|].
      split; [by split; [|intros []]|]. right. right. auto. }
    destruct (victim_list lc1 i Hv) as (v & Hiv & _). destruct (iv_state _ Hinv1 v i Hiv) as (e & Hi & _).
    destruct (recycle_inv mon lc1 enr i e Hinv1 Hf Hv Hi Habs) as (Hr & Hinv2 & He2); [done|].
    pose proof (recycled_eq mon lc1 enr i e Hv Hi Hr) as Heq. unfold add_ref in Heq. rewrite Heq.
    destruct (recycled_rest mon lc1 enr i) as [Hfl Htb]. clear Heq.
    generalize dependent (recycled mon lc1 enr i). intros lc2 Hinv2 He2 Hfl Htb.
    eexists (Some i), _. split; [done|]. split_and!; [by apply inv_paranoia|done|].
    split; [done|]. exists e. split; [exact Hi|]. right. right.
    split_and!; [done|exact Habs|exact Hv|exact Hr|exact Hlk|done| | |exact He2].
    + simpl. by rewrite Hfl.
    + simpl. rewrite Htb. apply elem_of_cons. by left.
Qed.

(** ** [lc_put] *)

Definition drop_ref (e : lc_element) : lc_element := mk_element (u32 (refcnt e - 1)) (lc_number e) (lc_new_number e).

(** The element lost a reference; with the last one it goes to the front of
    the lru list, and nobody is starved any more. *)
Definition put_result (lc : lru_cache) (i : nat) (e : lc_element) (lc' : lru_cache) : Prop :=
  elements lc' = <[i := mk_element (refcnt e - 1) (lc_number e) (lc_new_number e)]> (elements lc) /\
  if decide (refcnt e = 1)
  then lru lc' = i :: lru lc /\ LC_STARVING (flags lc') = false /\ used lc' = used lc - 1
  else (forall w, in_list lc' w = in_list lc w) /\ flags lc' = flags lc /\ used lc' = used lc.

Lemma lc_put_cases lc i e :
  inv lc -> idle lc -> elements lc !! i = Some e -> 0 < refcnt e -> lc_number e = lc_new_number e ->
  exists lc', lc_put lc i = Some (refcnt e - 1, lc') /\ inv lc' /\ idle lc' /\ put_result lc i e lc'.
Proof.
  intros Hinv Hid Hi Hr Hn. unfold lc_put. rewrite paranoia_entry by done. cbn [mbind option_bind].
  set (lc0 := set_paranoia lc true). change (elements lc0) with (elements lc). rewrite Hi. cbn [mbind option_bind].
  rewrite (proj2 (Z.eqb_neq (refcnt e) 0)), Hn, Z.eqb_refl by lia. cbn [negb orb]. cbv zeta.
  destruct (elem_state lc i e Hinv Hi) as (w & Hw & Hs).
  assert (w = L_in_use) as -> by (destruct Hs as [_ Hs]; destruct w; try done; destruct Hs as (H1 & H2 & _); (lia || congruence)).
  destruct Hs as (Hrb & _ & _ & Hnf). pose proof (used_bound lc Hinv) as Hub. pose proof (iv_size _ Hinv) as Hsz.
  change LC_MAX_ACTIVE with 16777216 in Hsz. pose proof (iv_counts _ Hinv) as [C1 C2 C3].
  pose proof (length_del i (in_use lc) (ls_nodup _ (iv_lists _ Hinv) L_in_use) Hw) as Hlen.
  assert (i ∉ lru lc) as Hnl.
  { intros Hl. by specialize (ls_one _ (iv_lists _ Hinv) i L_lru L_in_use Hl Hw). }
  rewrite (u32_id (refcnt e - 1)) by lia.
  assert (elements (upd lc0 i drop_ref) = <[i := mk_element (refcnt e - 1) (lc_number e) (lc_new_number e)]> (elements lc)) as Hup.
  { rewrite (upd_insert lc0 i e drop_ref Hi). unfold drop_ref. by rewrite u32_id by lia. }
  fold drop_ref. set (lc1 := upd lc0 i drop_ref) in *.
  assert (forall lc', elements lc' = elements lc1 -> lc_slot lc' = lc_slot lc -> hash_ok lc') as Hhash.
  { intros lc' He Hsl. apply (hash_same lc lc' i e (mk_element (refcnt e - 1) (lc_number e) (lc_new_number e)) (iv_hash _ Hinv));
      try done. congruence. }
  unfold put_result. case_decide as H1.
  - rewrite (proj2 (Z.eqb_eq (refcnt e - 1) 0)) by lia. eexists. split; [reflexivity|]. split_and!.
    + apply (inv_move lc _ i L_in_use L_lru (mk_element (refcnt e - 1) (lc_number e) (lc_new_number e)));
        [done|done|exact Hup|by intros []| |by apply Hhash|done| | |].
      * split; simpl; [lia|]. split_and!; [lia|done|done].
      * change (u32 (used lc - 1) = used lc + 0 - 1). rewrite u32_id by lia. lia.
      * simpl. lia.
      * simpl. lia.
    + done.
    + exact Hup.
    + simpl. by rewrite del_notin.
    + done.
    + change (u32 (used lc - 1) = used lc - 1). apply u32_id. lia.
  - rewrite (proj2 (Z.eqb_neq (refcnt e - 1) 0)) by lia. eexists. split; [reflexivity|]. split_and!.
    + apply (inv_stay lc _ i L_in_use (mk_element (refcnt e - 1) (lc_number e) (lc_new_number e)));
        [done|done|exact Hup|by intros []| |by apply Hhash|done..].
      split; simpl; [lia|]. split_and!; [lia|done|done].
    + done.
    + exact Hup.
    + by intros [].
    + unfold lc1, lc0, idle in *. simpl. destruct (flags lc); simpl in *. congruence.
    + done.
Qed.

(** ** [lc_committed] *)

Definition commit_elem (e : lc_element) : lc_element := mk_element (refcnt e) (lc_new_number e) (lc_new_number e).

(** One round of the loop, with the count of the changes that remain. *)
Lemma commit_step mon lc i l :
  to_be_changed lc = i :: l -> inv (set_pending lc (Z.of_nat (length (i :: l)))) ->
  let lc' := list_move (upd (stat_changed mon lc) i commit_elem) i L_in_use in
  inv (set_pending lc' (Z.of_nat (length l))) /\ to_be_changed lc' = l /\ in_use lc' = i :: in_use lc /\
  lru lc' = lru lc /\ free lc' = free lc /\ elements lc' = alter commit_elem i (elements lc).
Proof.
  intros Ht Hinv lc'. set (lc0 := set_pending _ _) in Hinv.
  assert (i ∈ in_list lc0 L_to_be_changed) as Hi by (simpl; rewrite Ht; apply elem_of_cons; by left).
  destruct (iv_state _ Hinv L_to_be_changed i Hi) as (e & He & Hr & Hr0 & Hne & Hnf).
  pose proof (iv_lists _ Hinv) as [L1 L2 L3].
  assert (i ∉ l) as Hl by (specialize (L1 L_to_be_changed); simpl in L1; rewrite Ht in L1; by apply NoDup_cons in L1 as [? _]).
  assert (forall w, w <> L_to_be_changed -> i ∉ in_list lc w) as Hw by (intros w Hw Hx; apply Hw; by apply (L2 i)).
  pose proof (upd_insert lc0 i e commit_elem He) as Hup. pose proof (iv_counts _ Hinv) as [_ _ C3].
  split.
  - apply (inv_move lc0 _ i L_to_be_changed L_in_use (commit_elem e)); [done|done|exact Hup|by intros []| | |done| | |].
    + split; [done|]. simpl. done.
    + by apply (hash_same lc0 _ i e (commit_elem e) (iv_hash _ Hinv)).
    + simpl. lia.
    + simpl. lia.
    + change (Z.of_nat (length (i :: l)) <= max_pending_changes lc) in C3. cbn [length] in C3. simpl. lia.
  - split_and!; [|simpl; f_equal; apply del_notin, (Hw L_in_use)|apply del_notin, (Hw L_lru)|apply del_notin, (Hw L_free)|]; try done.
    simpl. rewrite Ht. unfold del. rewrite filter_cons_False by tauto. by apply del_notin.
Qed.

(** The whole loop. *)
Lemma commit_all_spec mon l lc :
  to_be_changed lc = l -> inv (set_pending lc (Z.of_nat (length l))) ->
  let lc' := commit_all mon l lc in
  inv (set_pending lc' 0) /\ to_be_changed lc' = [] /\ in_use lc' = rev l ++ in_use lc /\
  lru lc' = lru lc /\ free lc' = free lc /\ flags lc' = flags lc /\ used lc' = used lc /\
  forall j, elements lc' !! j = (if decide (j ∈ l) then commit_elem else id) <$> elements lc !! j.
Proof.
  revert lc. induction l as [|i l IH]; intros lc Ht Hinv lc'.
  { split_and!; try done. intros j. rewrite decide_False by (apply not_elem_of_nil).
    change (elements lc') with (elements lc). by destruct (elements lc !! j). }
  destruct (commit_step mon lc i l Ht Hinv) as (H1 & H2 & H3 & H4 & H5 & H6).
  subst lc'. cbn [commit_all]. fold commit_elem. set (lc1 := list_move _ i L_in_use) in *.
  destruct (IH lc1 H2 H1) as (I1 & I2 & I3 & I4 & I5 & I6 & I7 & I8).
  split_and!; [done|done| |congruence|congruence|by rewrite I6|by rewrite I7|].
  - rewrite I3, H3. simpl. by rewrite <- app_assoc.
  - intros j. rewrite I8, H6. destruct (decide (j = i)) as [->|Hji].
    + rewrite list_lookup_alter_eq, (decide_True (P := i ∈ i :: l)) by (apply elem_of_cons; by left).
      destruct (elements lc !! i); [|done]. simpl. by destruct (decide _).
    + rewrite list_lookup_alter_ne by done. f_equal.
      destruct (decide (j ∈ l)), (decide (j ∈ i :: l)) as [Hd|Hd]; try done.
      * exfalso. apply Hd, elem_of_cons. by right.
      * apply elem_of_cons in Hd. by destruct Hd.
Qed.

(** What [lc_committed] leaves behind. *)
Definition commit_result (lc lc' : lru_cache) : Prop :=
  elements lc' = commit_elem <$> elements lc /\ to_be_changed lc' = [] /\
  in_use lc' = rev (to_be_changed lc) ++ in_use lc /\ lru lc' = lru lc /\ free lc' = free lc /\
  flags lc' = flags lc /\ used lc' = used lc /\ pending_changes lc' = 0.

Lemma lc_committed_cases mon lc :
  inv lc -> idle lc -> exists lc', lc_committed mon lc = Some lc' /\ inv lc' /\ idle lc' /\ commit_result lc lc'.
Proof.
  intros Hinv Hid. unfold lc_committed. rewrite paranoia_entry by done. cbn [mbind option_bind].
  set (lc0 := set_paranoia lc true). change (to_be_changed lc0) with (to_be_changed lc).
  destruct (commit_all_spec mon (to_be_changed lc) lc0) as (I1 & I2 & I3 & I4 & I5 & I6 & I7 & I8); [done| |].
  { pose proof (iv_counts _ Hinv) as [_ C _]. rewrite <- C. revert Hinv. inv_same. }
  eexists. split; [reflexivity|]. set (lc1 := commit_all _ _ _) in *. split_and!; [by apply inv_paranoia|done|].
  split_and!; try done.
  - apply list_eq. intros j. change (elements (set_paranoia (set_pending lc1 0) false)) with (elements lc1).
    rewrite I8, list_lookup_fmap. change (elements lc0) with (elements lc).
    destruct (elements lc !! j) as [e|] eqn:He; [|done]. cbn. f_equal. case_decide as Hd; [done|].
    destruct (elem_state lc j e Hinv He) as (w & Hw & _ & Hs). unfold commit_elem. destruct e as [r a b]. simpl in *.
    destruct w; [| | |done]; destruct Hs as (_ & H1 & H2); congruence.
  - simpl. rewrite I6. simpl. unfold idle in Hid. destruct (flags lc). simpl in *. congruence.
Qed.

(** ** [lc_del] and [lc_set] *)

Lemma lc_del_cases lc i e :
  inv lc -> idle lc -> elements lc !! i = Some e -> refcnt e = 0 ->
  exists lc', lc_del lc i = Some lc' /\ inv lc' /\ idle lc' /\
    elements lc' = <[i := mk_element 0 LC_FREE LC_FREE]> (elements lc) /\ i ∈ free lc'.
Proof.
  intros Hinv Hid Hi Hr. unfold lc_del. rewrite paranoia_entry by done. cbn [mbind option_bind].
  set (lc0 := set_paranoia lc true). change (elements lc0) with (elements lc). rewrite Hi. cbn [mbind option_bind].
  rewrite Hr, Z.eqb_refl. cbn [negb]. cbv zeta. eexists. split; [reflexivity|].
  destruct (elem_state lc i e Hinv Hi) as (w & Hw & Hs).
  assert (w = L_lru \/ w = L_free) as Hwc by (destruct Hs as [_ Hs]; destruct w; auto; destruct Hs; lia).
  set (f := fun e => mk_element (refcnt e) LC_FREE LC_FREE).
  assert (elements (upd lc0 i f) = <[i := mk_element 0 LC_FREE LC_FREE]> (elements lc)) as Hup.
  { rewrite (upd_insert lc0 i e f Hi). unfold f. by rewrite Hr. }
  pose proof (iv_counts _ Hinv) as [C1 C2 C3].
  split_and!; [|done|exact Hup|simpl; apply elem_of_cons; by left].
  apply (inv_move lc _ i w L_free (mk_element 0 LC_FREE LC_FREE)); [done|done|exact Hup|by intros []|done| |done| | |].
  - apply (hash_relabel lc _ i (mk_element 0 LC_FREE LC_FREE) (iv_hash _ Hinv)); [by eapply lookup_lt_Some|exact Hup|done|done].
  - destruct Hwc as [-> | ->]; simpl; lia.
  - destruct Hwc as [-> | ->]; simpl; lia.
  - simpl. lia.
Qed.

(** [lc_set] gives an unused element a label no other element has. *)
Lemma lc_set_cases lc enr i e :
  inv lc -> elements lc !! i = Some e -> refcnt e = 0 ->
  (enr <> LC_FREE -> forall j e', j <> i -> elements lc !! j = Some e' -> lc_new_number e' <> enr) ->
  exists lc', lc_set lc enr (Z.of_nat i) = Some lc' /\ inv lc' /\ flags lc' = flags lc /\
    elements lc' = <[i := mk_element 0 enr enr]> (elements lc) /\
    i ∈ in_list lc' (if decide (enr = LC_FREE) then L_free else L_lru).
Proof.
  intros Hinv Hi Hr Hu. pose proof (lookup_lt_Some _ _ _ Hi) as Hlt. unfold lc_set.
  rewrite (proj2 (Z.ltb_ge _ _)), (proj2 (Z.leb_gt _ _)) by (unfold nr_elements; lia). cbn [orb].
  rewrite Nat2Z.id. unfold lc_element_by_index. fold (nr_elements lc) in Hlt. rewrite (proj2 (Nat.ltb_lt i _) Hlt). cbn [mbind option_bind].
  rewrite Hi. cbn [mbind option_bind]. destruct (elem_state lc i e Hinv Hi) as (w & Hw & Hs).
  assert (w = L_lru \/ w = L_free) as Hwc by (destruct Hs as [_ Hs]; destruct w; auto; destruct Hs; lia).
  assert (lc_number e = lc_new_number e) as Hn by (destruct Hs as [_ Hs], Hwc as [-> | ->]; destruct Hs as (_ & H1 & H2); congruence).
  rewrite Hn, Hr, !Z.eqb_refl. cbn [negb orb]. cbv zeta.
  set (f := fun e => mk_element (refcnt e) enr enr).
  assert (elements (upd lc i f) = <[i := mk_element 0 enr enr]> (elements lc)) as Hup.
  { rewrite (upd_insert lc i e f Hi). unfold f. by rewrite Hr. }
  assert (forall x, lc_hash_slot (hlist_del (upd lc i f) i) x = lc_hash_slot lc x) as Hsl.
  { intros x. unfold lc_hash_slot, nr_elements. simpl. by rewrite length_alter. }
  pose proof (iv_counts _ Hinv) as [C1 C2 C3].
  assert (forall lc' v, (v = L_lru \/ v = L_free) -> elements lc' = <[i := mk_element 0 enr enr]> (elements lc) ->
    (forall x, in_list lc' x = in_list (list_move lc i v) x) -> state_ok v (mk_element 0 enr enr) -> hash_ok lc' ->
    max_pending_changes lc' = max_pending_changes lc -> used lc' = used lc -> pending_changes lc' = pending_changes lc ->
    inv lc') as Hmv.
  { intros lc' v Hv E1 E2 E3 E4 E5 E6 E7. apply (inv_move lc lc' i w v (mk_element 0 enr enr)); try done; rewrite ?E6, ?E7; [| |done].
    - destruct Hwc as [-> | ->], Hv as [-> | ->]; simpl; lia.
    - destruct Hwc as [-> | ->], Hv as [-> | ->]; simpl; lia. }
  assert (forall lc', elements lc' = <[i := mk_element 0 enr enr]> (elements lc) ->
    lc_slot lc' = (if decide (enr = LC_FREE) then map (del i) (lc_slot lc)
                   else alter (cons i) (lc_hash_slot lc enr) (map (del i) (lc_slot lc))) -> hash_ok lc') as Hh.
  { intros lc' E1 E2. by apply (hash_relabel lc lc' i (mk_element 0 enr enr) (iv_hash _ Hinv)). }
  case_decide as Hf.
  - rewrite (proj2 (Z.eqb_eq enr LC_FREE) Hf). eexists. split; [reflexivity|]. split_and!; [|done|exact Hup|simpl; apply elem_of_cons; by left].
    apply (Hmv _ L_free); [by right|exact Hup|by intros []|done| |done..]. by apply Hh.
  - rewrite (proj2 (Z.eqb_neq enr LC_FREE) Hf). eexists. split; [reflexivity|]. split_and!; [|done|exact Hup|simpl; apply elem_of_cons; by left].
    apply (Hmv _ L_lru); [by left|exact Hup|by intros []|done| |done..].
    apply Hh; [exact Hup|]. by rewrite Hsl.
Qed.

(** ** Creation, reset and locking *)

Lemma fresh_inv n mp st : 0 < Z.of_nat n <= LC_MAX_ACTIVE -> 0 <= mp -> inv (fresh n mp st).
Proof.
  intros Hn Hm. assert (nr_elements (fresh n mp st) = n) as Hlen by apply length_replicate.
  assert (forall i, i ∈ rev (seq 0 n) <-> (i < n)%nat) as Hin.
  { intros i. rewrite list_elem_of_In, <- in_rev, <- list_elem_of_In, elem_of_seq. lia. }
  split; rewrite ?Hlen; try done.
  - split.
    + intros []; try apply NoDup_nil_2. apply NoDup_ListNoDup, NoDup_rev, seq_NoDup.
    + intros i [] []; try done; simpl; intros H1 H2; (by apply elem_of_nil in H1) || (by apply elem_of_nil in H2).
    + intros i. rewrite Hlen, <- Hin. split; [intros Hi; by exists L_free|].
      intros [[] Hw]; try done; by apply elem_of_nil in Hw.
  - intros [] i Hi; try (by apply elem_of_nil in Hi). exists (mk_element 0 LC_FREE LC_FREE). split; [|done].
    apply lookup_replicate_2. by apply Hin.
  - split.
    + simpl. by rewrite Hlen, length_replicate.
    + intros k chain Hk. apply lookup_replicate in Hk as [-> Hk]. split; [apply NoDup_nil_2|]. intros i. split.
      * intros Hi. by apply elem_of_nil in Hi.
      * intros (e & He & Hf & _). by apply lookup_replicate in He as [-> _].
    + intros i j e e' Hi _ Hf. by apply lookup_replicate in Hi as [-> _].
Qed.

(** The calls of the interface. *)
Inductive lc_call :=
| Get (enr : Z) (may_change may_use_uncommitted : bool)
| Put (i : nat)
| Committed
| Del (i : nat)
| Set_ (enr : Z) (i : nat)
| Reset_
| Try_lock
| Try_lock_for_transaction
| Unlock.

Definition lc_exec (mon : bool) (c : lc_call) (lc : lru_cache) : option lru_cache :=
  match c with
  | Get enr mc mu => snd <$> __lc_get mon lc enr mc mu
  | Put i => snd <$> lc_put lc i
  | Committed => lc_committed mon lc
  | Del i => lc_del lc i
  | Set_ enr i => lc_set lc enr (Z.of_nat i)
  | Reset_ => Some (lc_reset lc)
  | Try_lock => snd <$> lc_try_lock lc
  | Try_lock_for_transaction => Some (snd (lc_try_lock_for_transaction lc))
  | Unlock => Some (lc_unlock lc)
  end.

(** What a caller has to ensure. *)
Definition call_ok (lc : lru_cache) (c : lc_call) : Prop :=
  match c with
  | Get enr _ _ => enr <> LC_FREE /\ no_overflow lc
  | Put i => exists e, elements lc !! i = Some e /\ 0 < refcnt e /\ lc_number e = lc_new_number e
  | Del i => exists e, elements lc !! i = Some e /\ refcnt e = 0
  | Set_ enr i => (exists e, elements lc !! i = Some e /\ refcnt e = 0) /\
      (enr <> LC_FREE -> forall j e, j <> i -> elements lc !! j = Some e -> lc_new_number e <> enr)
  | _ => True
  end.

(** The caches a run of calls can produce. *)
Inductive lc_reach (mon : bool) : lru_cache -> Prop :=
| reach_create mp n lc : 0 < n -> 0 <= mp -> lc_create true mp n = Some lc -> lc_reach mon lc
| reach_call c lc lc' : lc_reach mon lc -> call_ok lc c -> lc_exec mon c lc = Some lc' -> lc_reach mon lc'.

Lemma lc_exec_inv mon c lc :
  inv lc -> idle lc -> call_ok lc c -> exists lc', lc_exec mon c lc = Some lc' /\ inv lc' /\ idle lc'.
Proof.
  intros Hinv Hid Hc. destruct c as [enr mc mu|i| |i|enr i| | | |]; cbn [lc_exec call_ok] in *.
  - destruct Hc as [Hf Ho]. destruct (lc_get_cases mon lc enr mc mu Hinv Hid Ho Hf) as (r & lc' & -> & H1 & H2 & _). by exists lc'.
  - destruct Hc as (e & Hi & Hr & Hn). destruct (lc_put_cases lc i e Hinv Hid Hi Hr Hn) as (lc' & -> & H1 & H2 & _). by exists lc'.
  - destruct (lc_committed_cases mon lc Hinv Hid) as (lc' & -> & H1 & H2 & _). by exists lc'.
  - destruct Hc as (e & Hi & Hr). destruct (lc_del_cases lc i e Hinv Hid Hi Hr) as (lc' & -> & H1 & H2 & _). by exists lc'.
  - destruct Hc as ((e & Hi & Hr) & Hu). destruct (lc_set_cases lc enr i e Hinv Hi Hr Hu) as (lc' & -> & H1 & H2 & _).
    exists lc'. split_and!; try done. unfold idle. by rewrite H2.
  - eexists. split_and!; [reflexivity| |done]. apply fresh_inv; apply Hinv.
  - unfold lc_try_lock, idle in *. destruct (flags lc) as [[] d l st] eqn:Hfl; simpl in Hid; [done|].
    destruct d, l, st; eexists; (split_and!; [reflexivity|try done; revert Hinv; inv_same|simpl; by rewrite ?Hfl]).
  - eexists. split_and!; [reflexivity|revert Hinv; inv_same|done].
  - eexists. split_and!; [reflexivity|revert Hinv; inv_same|done].
Qed.

Lemma reach_inv mon lc : lc_reach mon lc -> inv lc /\ idle lc.
Proof.
  induction 1 as [mp n lc Hn Hm Hc|c lc lc' _ [Hinv Hid] Hc He].
  - unfold lc_create in Hc. destruct (Z.ltb_spec LC_MAX_ACTIVE n) as [|Hle]; [done|]. injection Hc as <-.
    split; [|done]. apply fresh_inv; [lia|done].
  - destruct (lc_exec_inv mon c lc Hinv Hid Hc) as (lc'' & He' & H). by simplify_eq.
Qed.

(** ** Theorems *)

(** Looking up without the changing elements finds committed labels only. *)
Lemma chain_find_false es chain enr i :
  chain_find es chain enr true = Some i ->
  chain_find es chain enr false =
  e ← es !! i; if lc_new_number e =? lc_number e then Some i else None.
Proof.
  induction chain as [|j chain IH]; cbn [chain_find]; [done|].
  destruct (es !! j) as [e|] eqn:He; [|done]. destruct (lc_new_number e =? enr); cbn [negb]; [|done].
  rewrite orb_true_r, orb_false_r. intros [= ->]. by rewrite He.
Qed.

Lemma find_present lc enr i e :
  inv lc -> enr <> LC_FREE -> elements lc !! i = Some e -> lc_new_number e = enr -> __lc_find lc enr true = Some i.
Proof.
  intros Hinv Hf Hi He. pose proof (find_spec lc enr Hinv Hf) as Hs. destruct (__lc_find lc enr true) as [j|].
  - destruct Hs as (e' & Hj & He'). f_equal. eapply (hs_uniq _ (iv_hash _ Hinv)); [exact Hj|exact Hi|..]; congruence.
  - by destruct (Hs i e Hi).
Qed.

(** C30. From lc_create on, every sequence of lc_get, lc_put, lc_committed, lc_del,
    lc_set, lc_reset and lock calls that keeps the callers' contract never reaches a BUG
    and keeps the cache well formed: every element on exactly one of the four lists with
    the reference count and labels that list stands for, labels unique, every labelled
    element on the collision chain of its new label, used and pending_changes counting
    the lists, pending_changes within its limit. *)
Theorem lc_calls_safe (mon : bool) (c : lc_call) (lc : lru_cache) :
  lc_reach mon lc -> call_ok lc c ->
  inv lc /\ exists lc', lc_exec mon c lc = Some lc' /\ lc_reach mon lc' /\ inv lc'.
Proof.
  intros Hr Hc. destruct (reach_inv mon lc Hr) as [Hinv Hid]. split; [done|].
  destruct (lc_exec_inv mon c lc Hinv Hid Hc) as (lc' & He & Hinv' & _). exists lc'. split_and!; try done.
  by eapply reach_call.
Qed.

(** __lc_get on any reachable cache: it returns an element only as a hit with one
    more reference, as an uncommitted element when asked for, or by taking the head of
    the free list, or else the least recently used element, for a label nobody has; it
    returns NULL and leaves elements and lists alone exactly when the cache starves, the
    label is being changed, no change is allowed, the cache is locked, no element is
    unused (which starts starving) or too many changes are pending. *)
Theorem lc_get_spec (mon : bool) (lc : lru_cache) (enr : Z) (may_change may_use_uncommitted : bool) :
  lc_reach mon lc -> no_overflow lc -> enr <> LC_FREE ->
  exists r lc', __lc_get mon lc enr may_change may_use_uncommitted = Some (r, lc') /\
    get_result lc enr may_change may_use_uncommitted r lc'.
Proof.
  intros Hr Ho Hf. destruct (reach_inv mon lc Hr) as [Hinv Hid].
  destruct (lc_get_cases mon lc enr may_change may_use_uncommitted Hinv Hid Ho Hf) as (r & lc' & H1 & _ & _ & H2).
  by exists r, lc'.
Qed.

(** lc_put of a referenced committed element takes one reference away and returns
    the new count; with the last reference the element goes to the front of the lru
    list, the number of used elements drops by one and starving ends, otherwise lists
    and flags stay. *)
Theorem lc_put_spec (mon : bool) (lc : lru_cache) (i : nat) (e : lc_element) :
  lc_reach mon lc -> elements lc !! i = Some e -> 0 < refcnt e -> lc_number e = lc_new_number e ->
  exists lc', lc_put lc i = Some (refcnt e - 1, lc') /\ put_result lc i e lc'.
Proof.
  intros Hr Hi Hp Hn. destruct (reach_inv mon lc Hr) as [Hinv Hid].
  destruct (lc_put_cases lc i e Hinv Hid Hi Hp Hn) as (lc' & H1 & _ & _ & H2). by exists lc'.
Qed.

(** When lc_get gives out an element for a label, the label is found on that
    element and counts as used; after lc_committed lc_find finds it there too, every
    pending change has become current, and the lists of unused elements are as before.
    *)
Theorem lc_transaction (mon : bool) (lc : lru_cache) (enr : Z) (i : nat) (lc1 : lru_cache) :
  lc_reach mon lc -> no_overflow lc -> enr <> LC_FREE ->
  lc_get mon lc enr = Some (Some i, lc1) ->
  __lc_find lc1 enr true = Some i /\ lc_is_used lc1 enr = true /\
  exists lc2, lc_committed mon lc1 = Some lc2 /\ commit_result lc1 lc2 /\
    lc_find lc2 enr = Some i /\ lc_is_used lc2 enr = true.
Proof.
  intros Hr Ho Hf Hg. destruct (reach_inv mon lc Hr) as [Hinv Hid].
  destruct (lc_get_cases mon lc enr true false Hinv Hid Ho Hf) as (r & lc' & Hg' & Hinv1 & Hid1 & Hres).
  assert (Some (r, lc') = Some (Some i, lc1)) as [= -> ->] by (rewrite <- Hg'; exact Hg).
  destruct Hres as [_ (e & Hi & Hres)]. pose proof (lookup_lt_Some _ _ _ Hi) as Hlt.
  destruct (elem_state lc i e Hinv Hi) as (w & _ & Hrb & _).
  assert (exists e1, elements lc1 !! i = Some e1 /\ lc_new_number e1 = enr /\ 0 < refcnt e1) as (e1 & He1 & Hn1 & Hr1).
  { destruct Hres as [(_ & _ & _ & ->)|[(? & _)|(_ & _ & _ & _ & _ & _ & _ & _ & ->)]]; [|done|];
      rewrite list_lookup_insert_eq by done; eexists; (split; [reflexivity|]); simpl; (split; [done|lia]). }
  pose proof (find_present lc1 enr i e1 Hinv1 Hf He1 Hn1) as Hfind.
  assert (0 < refcnt e1 -> (refcnt e1 =? 0) = false) as Hnz by (intros; apply Z.eqb_neq; lia).
  split_and!; [done|unfold lc_is_used; by rewrite Hfind, He1, Hnz|].
  destruct (lc_committed_cases mon lc1 Hinv1 Hid1) as (lc2 & Hc & Hinv2 & _ & Hcr). exists lc2.
  assert (elements lc2 !! i = Some (commit_elem e1)) as He2.
  { destruct Hcr as [-> _]. by rewrite list_lookup_fmap, He1. }
  pose proof (find_present lc2 enr i _ Hinv2 Hf He2 Hn1) as Hfind2. split_and!; [done|done| |].
  - unfold lc_find, __lc_find in *. rewrite (chain_find_false _ _ _ _ Hfind2), He2. simpl. by rewrite Z.eqb_refl.
  - unfold lc_is_used. rewrite Hfind2, He2. simpl. by rewrite Hnz.
Qed.

(** *** Witnesses *)

(** A cache of two elements with one label committed and unused. *)
Definition run (cs : list lc_call) (lc : option lru_cache) : option lru_cache :=
  foldl (fun lc c => lc ← lc; lc_exec false c lc) lc cs.

Definition demo : lru_cache := default (fresh 2 1 stats0) (run [Get 7 true false; Committed] (lc_create true 1 2)).

Lemma demo_reach : lc_reach false demo.
Proof.
  set (lc1 := default (fresh 2 1 stats0) (run [Get 7 true false] (lc_create true 1 2))).
  apply (reach_call _ Committed lc1); [|exact I|vm_compute; reflexivity].
  apply (reach_call _ (Get 7 true false) (fresh 2 1 stats0)); [| |vm_compute; reflexivity].
  - apply (reach_create _ 1 2); [lia|lia|vm_compute; reflexivity].
  - split; [done|]. intros [|[|[]]] e He; vm_compute in He; [injection He as <-; vm_compute; reflexivity..|discriminate|discriminate].
Qed.

Lemma demo_no_overflow : no_overflow demo.
Proof. intros [|[|[]]] e He; vm_compute in He; [injection He as <-; vm_compute; reflexivity..|discriminate|discriminate]. Qed.

Lemma lc_calls_safe_witness : inv demo /\ exists lc', lc_exec false (Put 1) demo = Some lc' /\ lc_reach false lc' /\ inv lc'.
Proof. apply (lc_calls_safe false (Put 1) demo demo_reach). exists (mk_element 1 7 7). vm_compute. done. Defined.

Lemma lc_get_spec_witness :
  exists r lc', __lc_get false demo 9 true false = Some (r, lc') /\ get_result demo 9 true false r lc'.
Proof. apply (lc_get_spec false demo 9 true false demo_reach demo_no_overflow). done. Defined.

Lemma lc_put_spec_witness :
  exists lc', lc_put demo 1 = Some (1 - 1, lc') /\ put_result demo 1 (mk_element 1 7 7) lc'.
Proof. apply (lc_put_spec false demo 1 (mk_element 1 7 7) demo_reach); vm_compute; done. Defined.

Definition demo1 : lru_cache := default demo (lc_exec false (Get 9 true false) demo).

Lemma lc_transaction_witness :
  lc_get false demo 9 = Some (Some 0%nat, demo1) /\
  __lc_find demo1 9 true = Some 0%nat /\ lc_is_used demo1 9 = true /\
  exists lc2, lc_committed false demo1 = Some lc2 /\ commit_result demo1 lc2 /\
    lc_find lc2 9 = Some 0%nat /\ lc_is_used lc2 9 = true.
Proof.
  split; [vm_compute; reflexivity|].
  apply (lc_transaction false demo 9 0 demo1 demo_reach demo_no_overflow); [|vm_compute; reflexivity].
  done.
Defined.

End LruCache.
