(* ===== verification/CalmCache.v ===== *)
(** * Caches that commit at once

    The resync extents are kept in an LRU cache whose changes are committed
    in the critical section that made them.  Outside of it no label is being changed,
    and every operation comes down to a change of one element. *)

From S2P Require Import Prelude LruCache.

Module CalmCache.
Import LruCache.

Record calm (lc : lru_cache) : Prop := mk_calm {
  cm_inv : inv lc;
  cm_idle : idle lc;
  cm_quiet : forall i e, elements lc !! i = Some e -> lc_number e = lc_new_number e }.

(** There is an element to take, and nothing that forbids it. *)
Record roomy (lc : lru_cache) : Prop := mk_roomy {
  rm_starving : LC_STARVING (flags lc) = false;
  rm_locked : LC_LOCKED (flags lc) = false;
  rm_max : 0 < max_pending_changes lc;
  rm_unused : exists i e, elements lc !! i = Some e /\ refcnt e = 0 }.

(** What the operations never change. *)
Definition same_limits (lc lc' : lru_cache) : Prop :=
  LC_LOCKED (flags lc') = LC_LOCKED (flags lc) /\ max_pending_changes lc' = max_pending_changes lc.

Lemma same_limits_trans a b c : same_limits a b -> same_limits b c -> same_limits a c.
Proof. intros [? ?] [? ?]. split; congruence. Qed.

(** ** Labels *)

Lemma elem_refcnt lc i e : inv lc -> elements lc !! i = Some e -> 0 <= refcnt e < 2 ^ 32.
Proof. intros Hi He. by destruct (elem_state lc i e Hi He) as (w & _ & H & _). Qed.

Lemma referenced_labelled lc i e : inv lc -> elements lc !! i = Some e -> 0 < refcnt e -> lc_new_number e <> LC_FREE.
Proof. intros Hi He Hr. destruct (elem_state lc i e Hi He) as (w & _ & _ & H). destruct w; destruct H as (? & ? & ?); lia || done. Qed.

Lemma label_unique lc i j e e' : inv lc -> elements lc !! i = Some e -> elements lc !! j = Some e' ->
  lc_new_number e <> LC_FREE -> lc_new_number e = lc_new_number e' -> i = j.
Proof. intros Hi. apply (hs_uniq _ (iv_hash _ Hi)). Qed.

(** [lc_find] on a calm cache. *)
Lemma find_calm lc enr : calm lc -> enr <> LC_FREE ->
  match lc_find lc enr with
  | Some i => exists e, elements lc !! i = Some e /\ lc_number e = enr /\ lc_new_number e = enr
  | None => absent lc enr
  end.
Proof.
  intros [Hi _ Hq] Hf. pose proof (find_spec lc enr Hi Hf) as Hs. unfold lc_find, __lc_find in *.
  set (chain := default [] _) in *. destruct (chain_find (elements lc) chain enr true) as [i|] eqn:E.
  - destruct Hs as (e & He & Hl). rewrite (chain_find_false _ _ _ i E), He. cbn [mbind option_bind].
    rewrite (Hq i e He), Z.eqb_refl. exists e. rewrite (Hq i e He). done.
  - assert (chain_find (elements lc) chain enr false = None) as ->; [|done].
    clear Hs. induction chain as [|j chain IH]; cbn [chain_find] in *; [done|].
    destruct (elements lc !! j) as [e|]; [|done]. destruct (lc_new_number e =? enr); cbn [negb] in *; [|by apply IH].
    by rewrite orb_true_r in E.
Qed.

Lemma find_calm_at lc i e : calm lc -> elements lc !! i = Some e -> lc_number e <> LC_FREE -> lc_find lc (lc_number e) = Some i.
Proof.
  intros C He Hf. pose proof (find_calm lc (lc_number e) C Hf) as Hs. pose proof (cm_quiet _ C i e He) as Q.
  destruct (lc_find lc (lc_number e)) as [j|]; [|by destruct (Hs i e He)].
  destruct Hs as (e' & He' & _ & E). f_equal. apply (label_unique lc j i e' e (cm_inv _ C)); congruence.
Qed.

Lemma is_used_spec lc enr : inv lc -> enr <> LC_FREE ->
  lc_is_used lc enr = true <-> exists i e, elements lc !! i = Some e /\ lc_new_number e = enr /\ 0 < refcnt e.
Proof.
  intros Hi Hf. pose proof (find_spec lc enr Hi Hf) as Hs. unfold lc_is_used. destruct (__lc_find lc enr true) as [i|] eqn:E.
  - destruct Hs as (e & He & Hl). rewrite He. pose proof (elem_refcnt lc i e Hi He). split.
    + intros Hr. exists i, e. split_and!; [done|done|]. destruct (Z.eqb_spec (refcnt e) 0); [done|lia].
    + intros (j & e' & Hj & Hl' & Hr). assert (j = i) as -> by (apply (label_unique lc j i e' e Hi); congruence).
      replace e' with e in Hr by congruence. destruct (Z.eqb_spec (refcnt e) 0); [lia|done].
  - split; [done|]. intros (i & e & He & Hl & _). by destruct (Hs i e He).
Qed.

(** ** Operations *)

Lemma calm_insert lc lc' i e' : calm lc -> inv lc' -> idle lc' -> elements lc' = <[i := e']> (elements lc) ->
  lc_number e' = lc_new_number e' -> calm lc'.
Proof.
  intros [_ _ Hq] Hi Hid He Hl. split; [done..|]. intros j e. rewrite He. intros Hj.
  apply list_lookup_insert_Some in Hj as [(-> & <- & _)|[_ Hj]]; eauto.
Qed.

Lemma unused_victim lc i e : inv lc -> elements lc !! i = Some e -> refcnt e = 0 -> is_Some (victim lc).
Proof.
  intros Hi He Hr. destruct (elem_state lc i e Hi He) as (w & Hw & _ & Hs). unfold victim. destruct w; [| |destruct Hs; lia..].
  - destruct (free lc); [|by eexists]. simpl in Hw. destruct (last (lru lc)) eqn:E; [by eexists|].
    apply last_None in E. rewrite E in Hw. by apply elem_of_nil in Hw.
  - simpl in Hw. destruct (free lc); [by apply elem_of_nil in Hw|by eexists].
Qed.

Lemma quiet_pending lc : calm lc -> pending_changes lc = 0.
Proof.
  intros [Hi _ Hq]. destruct (iv_counts _ Hi) as [_ -> _]. destruct (to_be_changed lc) as [|i l] eqn:E; [done|].
  destruct (iv_state _ Hi L_to_be_changed i) as (e & He & _ & _ & Hn & _); [simpl; rewrite E; by left|].
  by destruct Hn; apply (Hq i).
Qed.

Lemma get_limits mon lc enr mc mu r lc' : __lc_get mon lc enr mc mu = Some (r, lc') ->
  same_limits lc lc' /\ (is_Some r -> LC_STARVING (flags lc') = false).
Proof.
  unfold __lc_get, PARANOIA_ENTRY, RETURN, same_limits. destruct (_ || _); [done|]. cbn [mbind option_bind].
  destruct (LC_STARVING _) eqn:ES; [intros [= <- <-]; split; [done|by intros []]|]. destruct (__lc_find _ _ _) as [i|].
  - destruct (_ !! i) as [e|]; [|done]. cbn [mbind option_bind]. destruct (negb _).
    + destruct (negb mu); intros [= <- <-]; done.
    + destruct (refcnt e =? 0); intros [= <- <-]; done.
  - destruct (negb mc); [by intros [= <- <-]|]. destruct (LC_LOCKED (flags (set_dirty _ _))) eqn:EL; [by intros [= <- <-]|].
    destruct (negb _); [intros [= <- <-]; split; [done|by intros []]|]. destruct (_ <=? _); [by intros [= <- <-]|].
    unfold lc_prepare_for_change. destruct (match free _ with [] => _ | i :: _ => _ end) as [i|]; [|by intros [= <- <-]].
    cbn [mbind option_bind]. destruct (_ !! i); [|done]. cbn [mbind option_bind]. destruct (negb _); [done|]. by intros [= <- <-].
Qed.

Lemma get_not_starving mon lc enr mc mu i lc' : inv lc -> idle lc -> __lc_get mon lc enr mc mu = Some (Some i, lc') -> LC_STARVING (flags lc) = false.
Proof.
  intros Hi Hid. unfold __lc_get. rewrite paranoia_entry by done. cbn [mbind option_bind].
  change (LC_STARVING (flags (set_paranoia lc true))) with (LC_STARVING (flags lc)). by destruct (LC_STARVING (flags lc)).
Qed.

(** A reference on a calm cache: a hit, an unused element (its label still to be committed), or nothing. *)
Definition got (mc : bool) (enr : Z) (lc : lru_cache) (r : option nat) (lc' : lru_cache) : Prop :=
  match r with
  | Some i => LC_STARVING (flags lc') = false /\ exists e, elements lc !! i = Some e /\
      (lc_number e = enr /\ elements lc' = <[i := mk_element (refcnt e + 1) enr enr]> (elements lc) \/
       mc = true /\ absent lc enr /\ refcnt e = 0 /\ elements lc' = <[i := mk_element 1 (lc_number e) enr]> (elements lc))
  | None => elements lc' = elements lc /\ (LC_STARVING (flags lc) = true \/ absent lc enr) /\ (mc = true -> ~ roomy lc)
  end.

Lemma get_calm mon lc enr mc : calm lc -> no_overflow lc -> enr <> LC_FREE ->
  exists r lc', __lc_get mon lc enr mc false = Some (r, lc') /\ inv lc' /\ idle lc' /\ same_limits lc lc' /\ got mc enr lc r lc'.
Proof.
  intros C Ho Hf. destruct (lc_get_cases mon lc enr mc false (cm_inv _ C) (cm_idle _ C) Ho Hf) as (r & lc' & E & Hi & Hid & G).
  destruct (get_limits _ _ _ _ _ _ _ E) as [L S]. exists r, lc'. split_and!; [done..|]. destruct r as [i|].
  - split; [apply S; by eexists|]. destruct G as (_ & e & He & [(H1 & _ & _ & H2)|[(? & _)|(H1 & H2 & _ & H3 & _ & _ & _ & _ & H4)]]); [|done|].
    + exists e. split; [done|]. by left.
    + exists e. split; [done|]. by right.
  - destruct G as [[G _] [G'|[(_ & i & e & He & H1 & H2)|[G' H]]]].
    + split; [done|]. split; [by left|]. intros _ [? _ _ _]. congruence.
    + destruct H2. rewrite <- H1. by apply (cm_quiet _ C i).
    + split; [done|]. split; [by right|]. intros -> [R1 R2 R3 (i & e & He & Hr)].
      destruct H as [?|[?|[[Hv _]|Hp]]]; [done|congruence| |rewrite (quiet_pending lc C) in Hp; lia].
      destruct (unused_victim lc i e (cm_inv _ C) He Hr). congruence.
Qed.

Lemma commit_calm mon lc : inv lc -> idle lc ->
  exists lc', lc_committed mon lc = Some lc' /\ calm lc' /\ same_limits lc lc' /\ flags lc' = flags lc /\
    elements lc' = commit_elem <$> elements lc.
Proof.
  intros Hi Hid. destruct (lc_committed_cases mon lc Hi Hid) as (lc' & E & Hi' & Hid' & He & _ & _ & _ & _ & Hfl & _).
  exists lc'. split_and!; [done| | |done|done].
  - split; [done..|]. intros i e. rewrite He, list_lookup_fmap. by destruct (elements lc !! i); intros [= <-].
  - split; [congruence|]. revert E. unfold lc_committed, PARANOIA_ENTRY. destruct (_ || _); [done|]. cbn [mbind option_bind].
    intros [= <-]. cbn. assert (forall l x, max_pending_changes (commit_all mon l x) = max_pending_changes x) as ->; [|done].
    intros l. induction l as [|j l IH]; intros x; [done|]. cbn [commit_all]. rewrite IH. by destruct mon.
Qed.

(** Taking an unused element and committing its label. *)
Lemma commit_elements lc lc1 i e enr : calm lc -> elements lc !! i = Some e ->
  elements lc1 = <[i := mk_element 1 (lc_number e) enr]> (elements lc) ->
  commit_elem <$> elements lc1 = <[i := mk_element 1 enr enr]> (elements lc).
Proof.
  intros C He ->. rewrite list_fmap_insert. unfold commit_elem at 1. cbn [refcnt lc_new_number]. f_equal.
  rewrite <- (list_fmap_id (elements lc)) at 2. apply list_fmap_ext. intros j x Hx. pose proof (cm_quiet _ C j x Hx).
  destruct x. cbn in *. unfold commit_elem. cbn. congruence.
Qed.

Lemma put_limits lc i r lc' : lc_put lc i = Some (r, lc') ->
  same_limits lc lc' /\ (LC_STARVING (flags lc) = false -> LC_STARVING (flags lc') = false).
Proof.
  unfold lc_put, PARANOIA_ENTRY, RETURN, same_limits. destruct (_ || _); [done|]. cbn [mbind option_bind].
  destruct (elements _ !! i) as [e|]; [|done]. cbn [mbind option_bind]. destruct (_ || _); [done|].
  intros [= _ <-]. by destruct (u32 _ =? 0).
Qed.

Lemma put_calm lc i e : calm lc -> elements lc !! i = Some e -> 0 < refcnt e ->
  exists lc', lc_put lc i = Some (refcnt e - 1, lc') /\ calm lc' /\ same_limits lc lc' /\
    (LC_STARVING (flags lc) = false -> LC_STARVING (flags lc') = false) /\
    elements lc' = <[i := mk_element (refcnt e - 1) (lc_number e) (lc_number e)]> (elements lc).
Proof.
  intros C He Hr. pose proof (cm_quiet _ C i e He) as Q.
  destruct (lc_put_cases lc i e (cm_inv _ C) (cm_idle _ C) He Hr Q) as (lc' & E & Hi & Hid & Hel & _).
  destruct (put_limits _ _ _ _ E) as [L S]. exists lc'. rewrite <- Q in Hel. split_and!; [done| |done|done|done].
  by apply (calm_insert lc lc' i _ C Hi Hid Hel).
Qed.

(** A reference, not the last one, is dropped by hand. *)
Lemma unref_calm lc i e : calm lc -> elements lc !! i = Some e -> 1 < refcnt e ->
  let lc' := upd lc i (fun e => mk_element (u32 (refcnt e - 1)) (lc_number e) (lc_new_number e)) in
  calm lc' /\ elements lc' = <[i := mk_element (refcnt e - 1) (lc_number e) (lc_number e)]> (elements lc).
Proof.
  intros C He Hr lc'. pose proof (cm_inv _ C) as Hi. pose proof (elem_refcnt _ i e Hi He) as Hb. pose proof (cm_quiet _ C i e He) as Q.
  assert (elements lc' = <[i := mk_element (refcnt e - 1) (lc_number e) (lc_number e)]> (elements lc)) as El.
  { unfold lc'. rewrite (upd_insert lc i e _ He). by rewrite u32_id, <- Q by lia. }
  split; [|done]. eapply (calm_insert lc lc' i _ C); [|apply C|exact El|done].
  destruct (elem_state lc i e Hi He) as (w & Hw & Hs). destruct w; [destruct Hs as (_ & ? & _); lia..| |destruct Hs as (_ & _ & ? & _); done].
  apply (inv_stay lc lc' i L_in_use (mk_element (refcnt e - 1) (lc_number e) (lc_number e))); try done.
  - destruct Hs as (_ & _ & _ & Hf). split; cbn; [lia|]. split_and!; [lia|done|congruence].
  - apply (hash_same lc lc' i e (mk_element (refcnt e - 1) (lc_number e) (lc_number e)) (iv_hash _ Hi)); try done.
Qed.

End CalmCache.
