(* ===== verification/State.v ===== *)
(** * The state engine (src/bsr/bsr_state.c)

    Roles, connection, replication and disk states of one resource.  A state
    change writes the [NEW] value of every state it wants to change;
    [sanitize_state] adjusts the implied states, [is_valid_transition] and
    [is_valid_soft_transition] judge the result, and only then [NEW] becomes
    [NOW] for everybody.  An array indexed by [which_state] is a pair of
    values; a pointer to a connection or peer device is its index. *)

From S2P Require Import Prelude.

Module State.

(** ** States (src/bsr-headers/bsr.h) *)

Inductive bsr_role := R_UNKNOWN | R_PRIMARY | R_SECONDARY.

Inductive bsr_conn_state :=
| C_STANDALONE | C_DISCONNECTING | C_UNCONNECTED | C_TIMEOUT | C_BROKEN_PIPE
| C_NETWORK_FAILURE | C_PROTOCOL_ERROR | C_TEAR_DOWN | C_CONNECTING | C_CONNECTED.

Inductive bsr_repl_state :=
| L_OFF | L_ESTABLISHED | L_STARTING_SYNC_S | L_STARTING_SYNC_T | L_WF_BITMAP_S | L_WF_BITMAP_T
| L_WF_SYNC_UUID | L_SYNC_SOURCE | L_SYNC_TARGET | L_VERIFY_S | L_VERIFY_T
| L_PAUSED_SYNC_S | L_PAUSED_SYNC_T | L_AHEAD | L_BEHIND.

Inductive bsr_disk_state :=
| D_DISKLESS | D_ATTACHING | D_DETACHING | D_FAILED | D_NEGOTIATING | D_INCONSISTENT
| D_OUTDATED | D_UNKNOWN | D_CONSISTENT | D_UP_TO_DATE.

(** The two values only [negotiation_result] uses share numbers with others. *)
Abbreviation L_NEGOTIATING := L_OFF.
Abbreviation L_NEG_NO_RESULT := L_BEHIND.

(** The numbers of the constants; the code compares them. *)
Definition role_val (r : bsr_role) : Z :=
  match r with R_UNKNOWN => 0 | R_PRIMARY => 1 | R_SECONDARY => 2 end.
Definition conn_val (c : bsr_conn_state) : Z :=
  match c with
  | C_STANDALONE => 0 | C_DISCONNECTING => 1 | C_UNCONNECTED => 2 | C_TIMEOUT => 3 | C_BROKEN_PIPE => 4
  | C_NETWORK_FAILURE => 5 | C_PROTOCOL_ERROR => 6 | C_TEAR_DOWN => 7 | C_CONNECTING => 8 | C_CONNECTED => 9
  end.
Definition repl_val (l : bsr_repl_state) : Z :=
  match l with
  | L_OFF => 9 | L_ESTABLISHED => 10 | L_STARTING_SYNC_S => 11 | L_STARTING_SYNC_T => 12 | L_WF_BITMAP_S => 13
  | L_WF_BITMAP_T => 14 | L_WF_SYNC_UUID => 15 | L_SYNC_SOURCE => 16 | L_SYNC_TARGET => 17 | L_VERIFY_S => 18
  | L_VERIFY_T => 19 | L_PAUSED_SYNC_S => 20 | L_PAUSED_SYNC_T => 21 | L_AHEAD => 22 | L_BEHIND => 23
  end.
Definition disk_val (d : bsr_disk_state) : Z :=
  match d with
  | D_DISKLESS => 0 | D_ATTACHING => 1 | D_DETACHING => 2 | D_FAILED => 3 | D_NEGOTIATING => 4
  | D_INCONSISTENT => 5 | D_OUTDATED => 6 | D_UNKNOWN => 7 | D_CONSISTENT => 8 | D_UP_TO_DATE => 9
  end.

Coercion role_val : bsr_role >-> Z.
Coercion conn_val : bsr_conn_state >-> Z.
Coercion repl_val : bsr_repl_state >-> Z.
Coercion disk_val : bsr_disk_state >-> Z.

(** [enum bsr_state_rv], the values this file returns. *)
Inductive bsr_state_rv :=
| SS_NOTHING_TO_DO | SS_SUCCESS | SS_UNKNOWN_ERROR | SS_TWO_PRIMARIES | SS_NO_UP_TO_DATE_DISK | SS_NO_LOCAL_DISK
| SS_NO_REMOTE_DISK | SS_CONNECTED_OUTDATES | SS_PRIMARY_NOP | SS_RESYNC_RUNNING | SS_ALREADY_STANDALONE
| SS_IS_DISKLESS | SS_DEVICE_IN_USE | SS_NO_NET_CONFIG | SS_NO_VERIFY_ALG | SS_NEED_CONNECTION
| SS_LOWER_THAN_OUTDATED | SS_IN_TRANSIENT_STATE | SS_PRIMARY_READER | SS_NO_QUORUM | SS_LOWER_THAN_OUTDATED_PEER.

Definition rv_val (rv : bsr_state_rv) : Z :=
  match rv with
  | SS_NOTHING_TO_DO => 2 | SS_SUCCESS => 1 | SS_UNKNOWN_ERROR => 0 | SS_TWO_PRIMARIES => -1
  | SS_NO_UP_TO_DATE_DISK => -2 | SS_NO_LOCAL_DISK => -4 | SS_NO_REMOTE_DISK => -5 | SS_CONNECTED_OUTDATES => -6
  | SS_PRIMARY_NOP => -7 | SS_RESYNC_RUNNING => -8 | SS_ALREADY_STANDALONE => -9 | SS_IS_DISKLESS => -11
  | SS_DEVICE_IN_USE => -12 | SS_NO_NET_CONFIG => -13 | SS_NO_VERIFY_ALG => -14 | SS_NEED_CONNECTION => -15
  | SS_LOWER_THAN_OUTDATED => -16 | SS_IN_TRANSIENT_STATE => -18 | SS_PRIMARY_READER => -22 | SS_NO_QUORUM => -25
  | SS_LOWER_THAN_OUTDATED_PEER => -29
  end.
Coercion rv_val : bsr_state_rv >-> Z.

Global Instance bsr_role_eq_dec : EqDecision bsr_role.
Proof. solve_decision. Defined.

(** *** [which_state] *)

Inductive which_state := NOW | NEW.
Abbreviation OLD := NOW.

Record two (A : Type) := mk2 { now : A; new : A }.
Arguments mk2 {A}.
Arguments now {A}.
Arguments new {A}.

Definition at_ {A} (x : two A) (w : which_state) : A := match w with NOW => now x | NEW => new x end.
Definition set_new {A} (x : two A) (v : A) : two A := mk2 (now x) v.

Declare Scope state_scope.
Notation "x .[ w ]" := (at_ x w) (at level 1, left associativity, format "x .[ w ]") : state_scope.
Open Scope state_scope.

(** *** Flags *)

Definition has (flags f : Z) : bool := negb (Z.land flags f =? 0).

Lemma has_bit x n : 0 <= n -> has x (Z.shiftl 1 n) = Z.testbit x n.
Proof.
  intros Hn. unfold has. rewrite Z.shiftl_1_l. destruct (Z.testbit x n) eqn:E.
  - apply negb_true_iff, Z.eqb_neq. intros H. apply (f_equal (fun y => Z.testbit y n)) in H.
    rewrite Z.land_spec, E, Z.pow2_bits_true, Z.bits_0 in H by done. done.
  - apply negb_false_iff, Z.eqb_eq, Z.bits_inj'. intros k Hk. rewrite Z.land_spec, Z.bits_0.
    destruct (decide (k = n)) as [->|]; [by rewrite E|]. rewrite Z.pow2_bits_false by done. apply andb_false_r.
Qed.

Definition CS_HARD : Z := Z.shiftl 1 0.
Definition CS_PREPARE : Z := Z.shiftl 1 6.
Definition CS_ABORT : Z := Z.shiftl 1 8.
Definition CS_IGN_OUTD_FAIL : Z := Z.shiftl 1 10.

Definition MDF_CONSISTENT : Z := Z.shiftl 1 0.
Definition MDF_PRIMARY_IND : Z := Z.shiftl 1 1.
Definition MDF_CRASHED_PRIMARY : Z := Z.shiftl 1 6.
Definition MDF_AL_CLEAN : Z := Z.shiftl 1 7.
Definition MDF_PEER_CONNECTED : Z := Z.shiftl 1 0.
Definition MDF_WAS_UP_TO_DATE : Z := Z.shiftl 1 4.
Definition MDF_PEER_OUTDATED : Z := Z.shiftl 1 1.
Definition MDF_PEER_FENCING : Z := Z.shiftl 1 2.
Definition MDF_PEER_DEVICE_SEEN : Z := Z.shiftl 1 4.
Definition MDF_NODE_EXISTS : Z := Z.shiftl 1 16.

Definition UUID_FLAG_STABLE : Z := Z.shiftl 1 5.
Definition UUID_FLAG_GOT_STABLE : Z := Z.shiftl 1 6.

Definition FP_RESOURCE : Z := 1.
Definition FP_STONITH : Z := 2.
Definition QOU_OFF : Z := 0.
Definition QOU_MAJORITY : Z := 1024.
Definition QOU_ALL : Z := 1025.
Definition BSR_NODE_ID_MAX : nat := 32.
Definition NODE_MASK (id : Z) : Z := u64 (Z.shiftl 1 id).

(** ** Objects *)

Record net_conf := mk_net_conf { two_primaries : bool; verify_alg : bool }.

Record bsr_connection := mk_connection {
  cstate : two bsr_conn_state;
  peer_role : two bsr_role;
  susp_fen : two bool;
  transport_net_conf : option net_conf;
  fencing_policy : Z;
  agreed_pro_version : Z;
  peer_node_id : Z }.

Record bsr_peer_device := mk_peer_device {
  connection : nat;
  pd_node_id : Z;
  pd_bitmap_index : Z;
  repl_state : two bsr_repl_state;
  pd_disk_state : two bsr_disk_state;
  negotiation_result : bsr_repl_state;
  resync_susp_user : two bool;
  resync_susp_peer : two bool;
  resync_susp_dependency : two bool;
  resync_susp_other_c : two bool;
  INITIAL_STATE_SENT : bool;
  INITIAL_STATE_RECEIVED : bool;
  RECONCILIATION_RESYNC : bool;
  UNSTABLE_TRIGGER_CP : bool;
  RESYNC_ABORTED : bool;
  uuids_received : bool;
  uuid_flags : Z;
  uuid_authoritative_nodes : Z;
  resync_seq : Z;
  al_oos_cnt : Z }.

Record bsr_peer_md := mk_peer_md { bitmap_index : Z; bitmap_uuid : Z; peer_md_flags : Z }.

(** The meta data of the backing device, as far as the states need them. *)
Record bsr_md := mk_md { md_node_id : Z; md_flags : Z; md_peers : list bsr_peer_md }.

Record bsr_device := mk_device {
  disk_state : two bsr_disk_state;
  susp_quorum : two bool;
  open_ro_cnt : Z;
  open_rw_cnt : Z;
  CRASHED_PRIMARY : bool;
  UNREGISTERED : bool;
  __NEW_CUR_UUID : bool;
  NEW_CUR_UUID : bool;
  ldev_md : bsr_md;
  peer_devices : list bsr_peer_device }.

Inductive on_no_data_p := OND_IO_ERROR | OND_SUSPEND_IO.

Record res_opts := mk_res_opts { node_id : Z; quorum : Z; on_no_data : on_no_data_p }.

Record bsr_resource := mk_resource {
  role : two bsr_role;
  susp : two bool;
  susp_nod : two bool;
  connections : list bsr_connection;
  devices : list bsr_device;
  opts : res_opts;
  state_change_flags : Z;
  NEGOTIATION_RESULT_TOUCHED : bool }.

Definition conn0 : bsr_connection :=
  mk_connection (mk2 C_STANDALONE C_STANDALONE) (mk2 R_UNKNOWN R_UNKNOWN) (mk2 false false) None 0 0 0.

Definition pd0 : bsr_peer_device :=
  mk_peer_device 0 0 (-1) (mk2 L_OFF L_OFF) (mk2 D_UNKNOWN D_UNKNOWN) L_OFF (mk2 false false) (mk2 false false)
    (mk2 false false) (mk2 false false) false false false false false false 0 0 0 0.

Definition conn_of (conns : list bsr_connection) (p : bsr_peer_device) : bsr_connection :=
  nth (connection p) conns conn0.

(** *** Field updates *)

Definition set_cstates (c : bsr_connection) (x : two bsr_conn_state) : bsr_connection :=
  mk_connection x (peer_role c) (susp_fen c) (transport_net_conf c) (fencing_policy c) (agreed_pro_version c) (peer_node_id c).
Definition set_peer_roles (c : bsr_connection) (x : two bsr_role) : bsr_connection :=
  mk_connection (cstate c) x (susp_fen c) (transport_net_conf c) (fencing_policy c) (agreed_pro_version c) (peer_node_id c).
Definition set_susp_fens (c : bsr_connection) (x : two bool) : bsr_connection :=
  mk_connection (cstate c) (peer_role c) x (transport_net_conf c) (fencing_policy c) (agreed_pro_version c) (peer_node_id c).

Definition set_repl_states (p : bsr_peer_device) (x : two bsr_repl_state) : bsr_peer_device :=
  mk_peer_device (connection p) (pd_node_id p) (pd_bitmap_index p) x (pd_disk_state p) (negotiation_result p) (resync_susp_user p)
    (resync_susp_peer p) (resync_susp_dependency p) (resync_susp_other_c p) (INITIAL_STATE_SENT p)
    (INITIAL_STATE_RECEIVED p) (RECONCILIATION_RESYNC p) (UNSTABLE_TRIGGER_CP p) (RESYNC_ABORTED p)
    (uuids_received p) (uuid_flags p) (uuid_authoritative_nodes p) (resync_seq p) (al_oos_cnt p).
Definition set_pd_disk_states (p : bsr_peer_device) (x : two bsr_disk_state) : bsr_peer_device :=
  mk_peer_device (connection p) (pd_node_id p) (pd_bitmap_index p) (repl_state p) x (negotiation_result p) (resync_susp_user p)
    (resync_susp_peer p) (resync_susp_dependency p) (resync_susp_other_c p) (INITIAL_STATE_SENT p)
    (INITIAL_STATE_RECEIVED p) (RECONCILIATION_RESYNC p) (UNSTABLE_TRIGGER_CP p) (RESYNC_ABORTED p)
    (uuids_received p) (uuid_flags p) (uuid_authoritative_nodes p) (resync_seq p) (al_oos_cnt p).
Definition set_resync_susps (p : bsr_peer_device) (u pe dep oc : two bool) : bsr_peer_device :=
  mk_peer_device (connection p) (pd_node_id p) (pd_bitmap_index p) (repl_state p) (pd_disk_state p) (negotiation_result p) u pe dep oc
    (INITIAL_STATE_SENT p) (INITIAL_STATE_RECEIVED p) (RECONCILIATION_RESYNC p) (UNSTABLE_TRIGGER_CP p)
    (RESYNC_ABORTED p) (uuids_received p) (uuid_flags p) (uuid_authoritative_nodes p) (resync_seq p) (al_oos_cnt p).
Definition set_pd_flags (p : bsr_peer_device) (reconciliation unstable aborted : bool) (uflags : Z) : bsr_peer_device :=
  mk_peer_device (connection p) (pd_node_id p) (pd_bitmap_index p) (repl_state p) (pd_disk_state p) (negotiation_result p) (resync_susp_user p)
    (resync_susp_peer p) (resync_susp_dependency p) (resync_susp_other_c p) (INITIAL_STATE_SENT p)
    (INITIAL_STATE_RECEIVED p) reconciliation unstable aborted
    (uuids_received p) uflags (uuid_authoritative_nodes p) (resync_seq p) (al_oos_cnt p).

Definition set_disk_states (d : bsr_device) (x : two bsr_disk_state) : bsr_device :=
  mk_device x (susp_quorum d) (open_ro_cnt d) (open_rw_cnt d) (CRASHED_PRIMARY d) (UNREGISTERED d)
    (__NEW_CUR_UUID d) (NEW_CUR_UUID d) (ldev_md d) (peer_devices d).
Definition set_susp_quorums (d : bsr_device) (x : two bool) : bsr_device :=
  mk_device (disk_state d) x (open_ro_cnt d) (open_rw_cnt d) (CRASHED_PRIMARY d) (UNREGISTERED d)
    (__NEW_CUR_UUID d) (NEW_CUR_UUID d) (ldev_md d) (peer_devices d).
Definition set_peer_devices (d : bsr_device) (l : list bsr_peer_device) : bsr_device :=
  mk_device (disk_state d) (susp_quorum d) (open_ro_cnt d) (open_rw_cnt d) (CRASHED_PRIMARY d) (UNREGISTERED d)
    (__NEW_CUR_UUID d) (NEW_CUR_UUID d) (ldev_md d) l.

Definition set_objects (r : bsr_resource) (nod : two bool) (cs : list bsr_connection) (ds : list bsr_device) : bsr_resource :=
  mk_resource (role r) (susp r) nod cs ds (opts r) (state_change_flags r) (NEGOTIATION_RESULT_TOUCHED r).
Definition set_role (r : bsr_resource) (x : two bsr_role) : bsr_resource :=
  mk_resource x (susp r) (susp_nod r) (connections r) (devices r) (opts r) (state_change_flags r) (NEGOTIATION_RESULT_TOUCHED r).
Definition set_susp (r : bsr_resource) (x : two bool) : bsr_resource :=
  mk_resource (role r) x (susp_nod r) (connections r) (devices r) (opts r) (state_change_flags r) (NEGOTIATION_RESULT_TOUCHED r).
Definition set_touched (r : bsr_resource) (b : bool) : bsr_resource :=
  mk_resource (role r) (susp r) (susp_nod r) (connections r) (devices r) (opts r) (state_change_flags r) b.
Definition set_state_change_flags (r : bsr_resource) (f : Z) : bsr_resource :=
  mk_resource (role r) (susp r) (susp_nod r) (connections r) (devices r) (opts r) f (NEGOTIATION_RESULT_TOUCHED r).

(** *** The [__change_*] functions *)

Definition __change_peer_role (c : bsr_connection) (v : bsr_role) := set_peer_roles c (set_new (peer_role c) v).
Definition __change_cstate_state (c : bsr_connection) (v : bsr_conn_state) := set_cstates c (set_new (cstate c) v).
Definition __change_io_susp_fencing (c : bsr_connection) (v : bool) := set_susp_fens c (set_new (susp_fen c) v).
Definition __change_disk_state (d : bsr_device) (v : bsr_disk_state) := set_disk_states d (set_new (disk_state d) v).
Definition __change_io_susp_quorum (d : bsr_device) (v : bool) := set_susp_quorums d (set_new (susp_quorum d) v).
Definition __change_repl_state (p : bsr_peer_device) (v : bsr_repl_state) := set_repl_states p (set_new (repl_state p) v).
Definition __change_peer_disk_state (p : bsr_peer_device) (v : bsr_disk_state) :=
  set_pd_disk_states p (set_new (pd_disk_state p) v).
Definition __change_resync_susp_user (p : bsr_peer_device) (v : bool) :=
  set_resync_susps p (set_new (resync_susp_user p) v) (resync_susp_peer p) (resync_susp_dependency p) (resync_susp_other_c p).
Definition __change_resync_susp_peer (p : bsr_peer_device) (v : bool) :=
  set_resync_susps p (resync_susp_user p) (set_new (resync_susp_peer p) v) (resync_susp_dependency p) (resync_susp_other_c p).
Definition __change_resync_susp_dependency (p : bsr_peer_device) (v : bool) :=
  set_resync_susps p (resync_susp_user p) (resync_susp_peer p) (set_new (resync_susp_dependency p) v) (resync_susp_other_c p).
Definition __change_resync_susp_other_c (p : bsr_peer_device) (v : bool) :=
  set_resync_susps p (resync_susp_user p) (resync_susp_peer p) (resync_susp_dependency p) (set_new (resync_susp_other_c p) v).
Definition __change_io_susp_user (r : bsr_resource) (v : bool) := set_susp r (set_new (susp r) v).

(** ** Quorum and what the meta data say *)

(** [peer_device_by_node_id] *)
Definition peer_device_by_node_id (d : bsr_device) (id : Z) : option bsr_peer_device :=
  List.find (fun p => pd_node_id p =? id) (peer_devices d).

Definition peer_md_of (d : bsr_device) (id : nat) : bsr_peer_md := nth id (md_peers (ldev_md d)) (mk_peer_md (-1) 0 0).

(** [get_ldev]: the reference is dropped again in the same call. *)
Definition get_ldev (d : bsr_device) : bool := D_INCONSISTENT <=? (disk_state d).[NOW].

Record quorum_info := mk_qi { voters : Z; votes : Z; quorum_at : Z }.

(** The counters of [calc_quorum]. *)
Record tally := mk_tally { t_votes : Z; t_outdated : Z; t_unknown : Z }.

Definition count_node (o : res_opts) (d : bsr_device) (which : which_state) (t : tally) (id : nat) : tally :=
  if Z.of_nat id =? node_id o then mk_tally (t_votes t + 1) (t_outdated t) (t_unknown t)
  else
    let peer_md := peer_md_of d id in
    if (bitmap_index peer_md =? -1) && negb (has (peer_md_flags peer_md) MDF_NODE_EXISTS) then t
    else
      let ds := match peer_device_by_node_id d (Z.of_nat id) with
                | Some p => (pd_disk_state p).[which]
                | None => D_UNKNOWN
                end in
      if ds =? D_OUTDATED then mk_tally (t_votes t) (t_outdated t + 1) (t_unknown t)
      else if (ds =? D_UNKNOWN) || (ds <=? D_FAILED) then mk_tally (t_votes t) (t_outdated t) (t_unknown t + 1)
      else mk_tally (t_votes t + 1) (t_outdated t) (t_unknown t).

Definition calc_quorum (o : res_opts) (d : bsr_device) (which : which_state) : bool * quorum_info :=
  let t := foldl (count_node o d which) (mk_tally 0 0 0) (seq 0 BSR_NODE_ID_MAX) in
  let voters := if negb (t_unknown t =? 0) then t_outdated t + t_unknown t + t_votes t else t_votes t in
  let quorum_at :=
    if quorum o =? QOU_MAJORITY then voters / 2 + 1
    else if quorum o =? QOU_ALL then voters
    else quorum o in
  (quorum_at <=? t_votes t, mk_qi voters (t_votes t) quorum_at).

(** One node of [may_be_up_to_date]: does it allow the upgrade? *)
Definition peer_may_be_outdated (d : bsr_device) (id : nat) : bool :=
  let peer_md := peer_md_of d id in
  if Z.of_nat id =? md_node_id (ldev_md d) then true
  else if (bitmap_index peer_md =? -1) && negb (has (peer_md_flags peer_md) MDF_NODE_EXISTS) then true
  else if negb (has (peer_md_flags peer_md) MDF_PEER_FENCING) then true
  else
    let peer_disk_state := match peer_device_by_node_id d (Z.of_nat id) with
                           | Some p => (pd_disk_state p).[NEW]
                           | None => D_UNKNOWN
                           end in
    match peer_disk_state with
    | D_DISKLESS =>
        if negb (has (peer_md_flags peer_md) MDF_PEER_DEVICE_SEEN) then true
        else has (peer_md_flags peer_md) MDF_PEER_OUTDATED
    | D_ATTACHING | D_DETACHING | D_FAILED | D_NEGOTIATING | D_UNKNOWN => has (peer_md_flags peer_md) MDF_PEER_OUTDATED
    | D_INCONSISTENT | D_OUTDATED | D_CONSISTENT | D_UP_TO_DATE => true
    end.

Definition may_be_up_to_date (d : bsr_device) : bool := forallb (peer_may_be_outdated d) (seq 0 BSR_NODE_ID_MAX).

Definition disk_state_from_md (d : bsr_device) : bsr_disk_state :=
  if negb (has (md_flags (ldev_md d)) MDF_CONSISTENT) then D_INCONSISTENT
  else if negb (has (md_flags (ldev_md d)) MDF_WAS_UP_TO_DATE) then D_OUTDATED
  else if may_be_up_to_date d then D_UP_TO_DATE else D_CONSISTENT.

Definition local_disk_may_be_outdated (r : bsr_resource) (d : bsr_device) (which : which_state) : bool :=
  if (role r).[which] =? R_PRIMARY then false
  else if existsb (fun p => ((peer_role (conn_of (connections r) p)).[which] =? R_PRIMARY)
                            && (L_OFF <? (repl_state p).[which])) (peer_devices d)
  then existsb (fun p => match (repl_state p).[which] with
                         | L_WF_SYNC_UUID | L_WF_BITMAP_T | L_STARTING_SYNC_T | L_SYNC_TARGET
                         | L_PAUSED_SYNC_T | L_BEHIND => true
                         | _ => false
                         end) (peer_devices d)
  else true.

(** ** Stability (src/bsr/bsr_main.c, src/bsr/bsr_sender.c) *)

(** [bsr_all_neighbor_secondary_ex], with the mask of authoritative nodes. *)
Definition bsr_all_neighbor_secondary_ex (r : bsr_resource) (which : which_state) (authoritative : Z) : bool * Z :=
  foldl (fun '(all, auth) c =>
           if (C_CONNECTED <=? (cstate c).[which]) && ((peer_role c).[which] =? R_PRIMARY)
           then (false, Z.lor auth (NODE_MASK (peer_node_id c)))
           else (all, auth)) (true, authoritative) (connections r).

(** The peer device of connection [i] ([conn_peer_device]); there is one for
    every volume. *)
Definition conn_peer_device (d : bsr_device) (i : nat) : bsr_peer_device :=
  default pd0 (List.find (fun p => connection p =? i)%nat (peer_devices d)).

(** The loop of [bsr_device_stable_ex] over the connections. *)
Fixpoint unstable_peer (d : bsr_device) (which : which_state) (is_ : list nat) : option bsr_peer_device :=
  match is_ with
  | [] => None
  | i :: is_ =>
      let p := conn_peer_device d i in
      match (repl_state p).[which] with
      | L_BEHIND | L_WF_BITMAP_T | L_SYNC_TARGET | L_PAUSED_SYNC_T => Some p
      | _ => unstable_peer d which is_
      end
  end.

Definition bsr_device_stable_ex (r : bsr_resource) (d : bsr_device) (which : which_state) (authoritative : Z) : bool * Z :=
  if (role r).[which] =? R_PRIMARY then (true, authoritative)
  else
    let '(all_secondary, authoritative) := bsr_all_neighbor_secondary_ex r which authoritative in
    if negb all_secondary then (false, authoritative)
    else
      match unstable_peer d which (seq 0 (length (connections r))) with
      | Some p => (false, Z.lor authoritative (NODE_MASK (pd_node_id p)))
      | None => (true, authoritative)
      end.

Definition bsr_inspect_resync_side (r : bsr_resource) (d : bsr_device) (p : bsr_peer_device)
    (replState : bsr_repl_state) (which : which_state) : bool :=
  if negb (uuids_received p) then false
  else
    let as_target :=
      let '(stable, authoritative) := bsr_device_stable_ex r d which 0 in
      if negb (has (uuid_flags p) UUID_FLAG_STABLE) then false
      else negb (negb stable && negb (has (NODE_MASK (pd_node_id p)) authoritative)) in
    let as_source :=
      let '(stable, _) := bsr_device_stable_ex r d which 0 in
      if negb stable then false
      else negb (negb (has (uuid_flags p) UUID_FLAG_STABLE)
                 && negb (has (NODE_MASK (node_id (opts r))) (uuid_authoritative_nodes p))) in
    match replState with
    | L_STARTING_SYNC_T | L_WF_BITMAP_T | L_SYNC_TARGET | L_PAUSED_SYNC_T | L_VERIFY_T => as_target
    | L_STARTING_SYNC_S | L_WF_BITMAP_S | L_SYNC_SOURCE | L_PAUSED_SYNC_S | L_VERIFY_S => as_source
    | _ => false
    end.

(** ** [sanitize_state] *)

(** What the loop over the peer devices of one device changes. *)
Record san := mk_san { s_conns : list bsr_connection; s_dev : bsr_device }.

Definition s_pd (s : san) (i : nat) : bsr_peer_device := nth i (peer_devices (s_dev s)) pd0.
Definition s_repl (s : san) (i : nat) (w : which_state) : bsr_repl_state := (repl_state (s_pd s i)).[w].
Definition s_pdsk (s : san) (i : nat) (w : which_state) : bsr_disk_state := (pd_disk_state (s_pd s i)).[w].
Definition s_disk (s : san) (w : which_state) : bsr_disk_state := (disk_state (s_dev s)).[w].
Definition s_conn (s : san) (i : nat) : bsr_connection := conn_of (s_conns s) (s_pd s i).

Definition on_dev (s : san) (f : bsr_device -> bsr_device) : san := mk_san (s_conns s) (f (s_dev s)).
Definition on_pd (s : san) (i : nat) (f : bsr_peer_device -> bsr_peer_device) : san :=
  on_dev s (fun d => set_peer_devices d (alter f i (peer_devices d))).

Definition resync_suspended (p : bsr_peer_device) (w : which_state) : bool :=
  (resync_susp_user p).[w] || (resync_susp_peer p).[w] || (resync_susp_dependency p).[w] || (resync_susp_other_c p).[w].

Definition others (s : san) (i : nat) : list nat :=
  filter (fun j => j <> i) (seq 0 (length (peer_devices (s_dev s)))).

(** [set_resync_susp_other_c], called with [start] false.  The first loop of
    the clearing case; [true] when it returned early. *)
Fixpoint clear_other_c (s : san) (i : nat) (js : list nat) : san * bool :=
  match js with
  | [] => (s, false)
  | j :: js =>
      let r := s_repl s j NEW in
      if r =? L_PAUSED_SYNC_S then clear_other_c s i js
      else
        let s := on_pd s j (fun p => __change_resync_susp_other_c p false) in
        if (r =? L_PAUSED_SYNC_T) && negb (resync_suspended (s_pd s j) NEW) then
          let s := on_pd s j (fun p => __change_repl_state p L_SYNC_TARGET) in
          let s := if negb (s_disk s NEW =? D_INCONSISTENT)
                   then on_dev s (fun d => __change_disk_state d D_INCONSISTENT) else s in
          let s := if s_repl s i NEW =? L_BEHIND
                   then on_pd s i (fun p => __change_resync_susp_other_c p true) else s in
          (s, true)
        else clear_other_c s i js
  end.

Definition release_source (s : san) (j : nat) : san :=
  let s := on_pd s j (fun p => __change_resync_susp_other_c p false) in
  if (s_repl s j NEW =? L_PAUSED_SYNC_S) && negb (resync_suspended (s_pd s j) NEW)
  then on_pd s j (fun p => __change_repl_state p L_SYNC_SOURCE) else s.

Definition set_resync_susp_other_c (s : san) (i : nat) (val : bool) : san :=
  if val then foldl (fun s j => on_pd s j (fun p => __change_resync_susp_other_c p true)) s (others s i)
  else
    match clear_other_c s i (others s i) with
    | (s, true) => s
    | (s, false) => foldl release_source s (others s i)
    end.

Definition is_sync_target_other_c (s : san) (i : nat) : bool :=
  existsb (fun j => let r := s_repl s j NEW in (r =? L_SYNC_TARGET) || (r =? L_PAUSED_SYNC_T)) (others s i).

Definition lost_contact_to_peer_data (x : two bsr_disk_state) : bool :=
  let os := x.[OLD] in
  let ns := x.[NEW] in
  ((D_INCONSISTENT <=? os) && negb (os =? D_UNKNOWN) && negb (os =? D_OUTDATED))
  && ((ns <? D_INCONSISTENT) || (ns =? D_UNKNOWN) || (ns =? D_OUTDATED)).

(** The negotiation of the disk state: the first loop, [None] for the jump to
    [stay_negotiating]. *)
Record negotiation := mk_neg { n_all : Z; n_target : Z; n_no_result : Z; up_to_date_neighbor : bool }.

Fixpoint negotiate (ps : list bsr_peer_device) (n : negotiation) : option negotiation :=
  match ps with
  | [] => Some n
  | p :: ps =>
      let nr := negotiation_result p in
      let pdsk := (pd_disk_state p).[NEW] in
      if (pdsk =? D_UNKNOWN) || (pdsk <? D_NEGOTIATING) then negotiate ps n
      else
        let n := mk_neg (n_all n + 1) (n_target n) (n_no_result n)
                   (if pdsk =? D_UP_TO_DATE then true else up_to_date_neighbor n) in
        if nr =? L_NEG_NO_RESULT then
          negotiate ps (mk_neg (n_all n) (n_target n) (n_no_result n + 1) (up_to_date_neighbor n))
        else if nr =? L_NEGOTIATING then None
        else if nr =? L_WF_BITMAP_T then
          negotiate ps (mk_neg (n_all n) (n_target n + 1) (n_no_result n) (up_to_date_neighbor n))
        else negotiate ps n
  end.

(** The second loop: the replication states the negotiation ended with. *)
Definition negotiated_repl (s : san) (i : nat) : san :=
  let nr := negotiation_result (s_pd s i) in
  if ((cstate (s_conn s i)).[NEW] <? C_CONNECTED) || (nr =? L_NEGOTIATING) then s
  else
    let nr := if nr =? L_NEG_NO_RESULT then L_ESTABLISHED else nr in
    if (nr =? L_WF_BITMAP_S) && (s_disk s NEW =? D_INCONSISTENT) then
      let s := on_pd s i (fun p => __change_resync_susp_other_c p true) in
      on_pd s i (fun p => __change_repl_state p L_PAUSED_SYNC_S)
    else on_pd s i (fun p => __change_repl_state p nr).

Definition sanitize_negotiating (s : san) : san :=
  if (s_disk s OLD =? D_NEGOTIATING) && (s_disk s NEW =? D_NEGOTIATING) then
    match negotiate (peer_devices (s_dev s)) (mk_neg 0 0 0 false) with
    | None => s
    | Some n =>
        let ds := if (0 <? n_no_result n) && (n_no_result n =? n_all n) then D_DETACHING
                  else if negb (n_target n =? 0) then D_INCONSISTENT
                  else if up_to_date_neighbor n then D_UP_TO_DATE
                  else disk_state_from_md (s_dev s) in
        let s := on_dev s (fun d => __change_disk_state d ds) in
        foldl negotiated_repl s (seq 0 (length (peer_devices (s_dev s))))
    end
  else s.

(** The limits a replication state puts on the disk states. *)
Definition disk_limits (l : bsr_repl_state) : bsr_disk_state * bsr_disk_state :=
  match l with
  | L_OFF => (D_DISKLESS, D_UP_TO_DATE)
  | L_WF_BITMAP_T | L_PAUSED_SYNC_T | L_STARTING_SYNC_T | L_WF_SYNC_UUID | L_BEHIND => (D_INCONSISTENT, D_OUTDATED)
  | L_VERIFY_S | L_VERIFY_T => (D_UP_TO_DATE, D_UP_TO_DATE)
  | L_ESTABLISHED => (D_DISKLESS, D_UP_TO_DATE)
  | L_WF_BITMAP_S | L_PAUSED_SYNC_S | L_STARTING_SYNC_S | L_AHEAD => (D_OUTDATED, D_UP_TO_DATE)
  | L_SYNC_TARGET => (D_INCONSISTENT, D_INCONSISTENT)
  | L_SYNC_SOURCE => (D_INCONSISTENT, D_UP_TO_DATE)
  end.

Definition peer_disk_limits (l : bsr_repl_state) : bsr_disk_state * bsr_disk_state :=
  match l with
  | L_OFF => (D_INCONSISTENT, D_UNKNOWN)
  | L_WF_BITMAP_T | L_PAUSED_SYNC_T | L_STARTING_SYNC_T | L_WF_SYNC_UUID | L_BEHIND => (D_OUTDATED, D_UP_TO_DATE)
  | L_VERIFY_S | L_VERIFY_T => (D_UP_TO_DATE, D_UP_TO_DATE)
  | L_ESTABLISHED => (D_DISKLESS, D_UP_TO_DATE)
  | L_WF_BITMAP_S | L_PAUSED_SYNC_S | L_STARTING_SYNC_S | L_AHEAD => (D_INCONSISTENT, D_CONSISTENT)
  | L_SYNC_TARGET => (D_OUTDATED, D_UP_TO_DATE)
  | L_SYNC_SOURCE => (D_INCONSISTENT, D_INCONSISTENT)
  end.

(** The body of the loop over the peer devices, up to the limits. *)
Definition sanitize_unconnected (s : san) (i : nat) : san :=
  if s_repl s i NEW <? L_ESTABLISHED then
    let s := on_pd s i (fun p => __change_resync_susp_peer p false) in
    if (D_UNKNOWN <? s_pdsk s i NEW) || (s_pdsk s i NEW <? D_OUTDATED)
    then on_pd s i (fun p => __change_peer_disk_state p D_UNKNOWN) else s
  else s.

Definition sanitize_resync (r : bsr_resource) (s : san) (i : nat) : san :=
  (* clear the aftr_isp when becoming unconfigured *)
  let s := if ((cstate (s_conn s i)).[NEW] =? C_STANDALONE) && (s_disk s NEW =? D_DISKLESS) && ((role r).[NEW] =? R_SECONDARY)
           then on_pd s i (fun p => __change_resync_susp_dependency p false) else s in
  (* abort resync if a disk fails or detaches *)
  let s := if (L_ESTABLISHED <? s_repl s i NEW) && ((s_disk s NEW <=? D_FAILED) || (s_pdsk s i NEW <=? D_FAILED))
           then on_pd s i (fun p => __change_repl_state p L_ESTABLISHED) else s in
  (* restrict to be sync side when it is not able to *)
  let s := if (L_STARTING_SYNC_S <=? s_repl s i NEW) && (s_repl s i NEW <=? L_PAUSED_SYNC_T)
              && ((negb (s_repl s i NEW =? L_STARTING_SYNC_S) && negb (s_repl s i NEW =? L_STARTING_SYNC_T))
                  || (L_ESTABLISHED <=? s_repl s i NOW))
              && negb (bsr_inspect_resync_side (set_objects r (susp_nod r) (s_conns s) (devices r)) (s_dev s) (s_pd s i)
                         (s_repl s i NEW) NOW)
           then on_pd (on_pd s i (fun p => __change_repl_state p L_ESTABLISHED)) i
                  (fun p => set_pd_flags p (RECONCILIATION_RESYNC p) true (RESYNC_ABORTED p) (uuid_flags p))
           else s in
  (* abort resync if the disk state goes unsyncable *)
  let s := if (((s_repl s i NEW =? L_SYNC_TARGET) || (s_repl s i NEW =? L_PAUSED_SYNC_T)) && (s_pdsk s i NEW <=? D_INCONSISTENT))
              || (((s_repl s i NEW =? L_SYNC_SOURCE) || (s_repl s i NEW =? L_PAUSED_SYNC_S)) && (s_disk s NEW <=? D_INCONSISTENT))
           then on_pd (on_pd s i (fun p => __change_repl_state p L_ESTABLISHED)) i
                  (fun p => set_pd_flags p (RECONCILIATION_RESYNC p) (UNSTABLE_TRIGGER_CP p) true (uuid_flags p))
           else s in
  (* resume an aborted resync *)
  let resume l := on_pd (on_pd s i (fun p => __change_repl_state p l)) i
                    (fun p => set_pd_flags p (RECONCILIATION_RESYNC p) (UNSTABLE_TRIGGER_CP p) false (uuid_flags p)) in
  let syncable d := (d =? D_OUTDATED) || (d =? D_CONSISTENT) || (d =? D_UP_TO_DATE) in
  if ((s_disk s OLD <=? D_INCONSISTENT) && (s_pdsk s i OLD <=? D_INCONSISTENT))
     && ((s_disk s NEW <=? D_INCONSISTENT) || (s_pdsk s i NEW <=? D_INCONSISTENT)) && RESYNC_ABORTED (s_pd s i) then
    if syncable (s_disk s NEW) then resume L_SYNC_SOURCE
    else if syncable (s_pdsk s i NEW) then resume L_SYNC_TARGET
    else s
  else s.

(** D_CONSISTENT vanishes when connected (before protocol 110); then the
    limits of the replication state. *)
Definition sanitize_disks (s : san) (i : nat) : san :=
  let s := if (agreed_pro_version (s_conn s i) <? 110) && (L_ESTABLISHED <=? s_repl s i NEW) && (s_repl s i NEW <? L_AHEAD)
           then
             let s := if s_disk s NEW =? D_CONSISTENT then on_dev s (fun d => __change_disk_state d D_UP_TO_DATE) else s in
             if s_pdsk s i NEW =? D_CONSISTENT then on_pd s i (fun p => __change_peer_disk_state p D_UP_TO_DATE) else s
           else s in
  let '(min_disk, max_disk) := disk_limits (s_repl s i NEW) in
  let '(min_peer, max_peer) := peer_disk_limits (s_repl s i NEW) in
  let s := if max_disk <? s_disk s NEW then on_dev s (fun d => __change_disk_state d max_disk) else s in
  let s := if s_disk s NEW <? min_disk then on_dev s (fun d => __change_disk_state d min_disk) else s in
  let s := if max_peer <? s_pdsk s i NEW then on_pd s i (fun p => __change_peer_disk_state p max_peer) else s in
  if (s_pdsk s i NEW <? min_peer) && negb (s_repl s i NEW =? L_STARTING_SYNC_T)
  then on_pd s i (fun p => __change_peer_disk_state p min_peer) else s.

(** Suspend I/O while the fence-peer handler runs. *)
Definition sanitize_fencing (r : bsr_resource) (s : san) (i : nat) : san :=
  if (fencing_policy (s_conn s i) =? FP_STONITH)
     && (((role r).[NEW] =? R_PRIMARY) && (s_repl s i NEW <? L_ESTABLISHED) && (s_pdsk s i NEW =? D_UNKNOWN))
     && (negb ((role r).[OLD] =? R_PRIMARY) || negb (s_pdsk s i OLD =? D_UNKNOWN))
  then mk_san (alter (fun c => __change_io_susp_fencing c true) (connection (s_pd s i)) (s_conns s)) (s_dev s)
  else s.

(** Pausing and resuming of resyncs. *)
Definition sanitize_pause (s : san) (i : nat) : san :=
  let s := if negb (s_repl s i OLD =? L_SYNC_SOURCE) && (s_repl s i NEW =? L_SYNC_SOURCE) && is_sync_target_other_c s i
           then on_pd s i (fun p => __change_resync_susp_other_c p true) else s in
  let s :=
    if resync_suspended (s_pd s i) NEW then
      let s := if s_repl s i NEW =? L_SYNC_SOURCE then on_pd s i (fun p => __change_repl_state p L_PAUSED_SYNC_S) else s in
      if s_repl s i NEW =? L_SYNC_TARGET then on_pd s i (fun p => __change_repl_state p L_PAUSED_SYNC_T) else s
    else
      let s := if s_repl s i NEW =? L_PAUSED_SYNC_S then on_pd s i (fun p => __change_repl_state p L_SYNC_SOURCE) else s in
      if s_repl s i NEW =? L_PAUSED_SYNC_T then on_pd s i (fun p => __change_repl_state p L_SYNC_TARGET) else s in
  let s := if negb (s_repl s i OLD =? L_SYNC_TARGET) && (s_repl s i NEW =? L_SYNC_TARGET)
           then set_resync_susp_other_c s i true else s in
  let s := if ((s_repl s i OLD =? L_WF_BITMAP_T) && (negb (s_repl s i NEW =? L_SYNC_TARGET) && negb (s_repl s i NEW =? L_WF_BITMAP_T)))
              || ((s_repl s i OLD =? L_SYNC_TARGET) && negb (s_repl s i NEW =? L_SYNC_TARGET))
           then set_resync_susp_other_c s i false else s in
  let s := if negb (s_repl s i OLD =? L_STARTING_SYNC_T) && (s_repl s i NEW =? L_STARTING_SYNC_T)
           then set_resync_susp_other_c s i true else s in
  if (s_repl s i OLD =? L_STARTING_SYNC_T) && (negb (s_repl s i NEW =? L_STARTING_SYNC_T) && negb (s_repl s i NEW =? L_WF_BITMAP_T))
  then set_resync_susp_other_c s i false else s.

(** The rest of the body: detached peers, upgrades of the own disk, quorum. *)
Definition sanitize_upgrade (r : bsr_resource) (s : san) (i : nat) : san :=
  let s := if (s_pdsk s i OLD =? D_DISKLESS) && ((s_pdsk s i NEW =? D_FAILED) || (s_pdsk s i NEW =? D_DETACHING))
           then on_pd s i (fun p => __change_peer_disk_state p D_DISKLESS) else s in
  let s := if (s_repl s i NEW =? L_ESTABLISHED) && (s_disk s NEW =? D_OUTDATED) && (D_CONSISTENT <=? s_pdsk s i NEW)
              && uuids_received (s_pd s i) && has (uuid_flags (s_pd s i)) UUID_FLAG_STABLE
              && ((s_repl s i OLD <? L_ESTABLISHED) || has (uuid_flags (s_pd s i)) UUID_FLAG_GOT_STABLE
                  || (s_pdsk s i OLD =? D_OUTDATED))
           then on_dev s (fun d => __change_disk_state d (s_pdsk s i NEW)) else s in
  let s := if (s_repl s i OLD <? L_ESTABLISHED) && (L_ESTABLISHED <=? s_repl s i NEW) && (s_disk s NEW =? D_CONSISTENT)
              && may_be_up_to_date (s_dev s)
           then on_dev s (fun d => __change_disk_state d D_UP_TO_DATE) else s in
  let s := on_pd s i (fun p => set_pd_flags p (RECONCILIATION_RESYNC p) (UNSTABLE_TRIGGER_CP p) (RESYNC_ABORTED p)
                                 (Z.ldiff (uuid_flags p) UUID_FLAG_GOT_STABLE)) in
  if negb (quorum (opts r) =? QOU_OFF) && ((role r).[NEW] =? R_PRIMARY) && get_ldev (s_dev s)
     && lost_contact_to_peer_data (pd_disk_state (s_pd s i))
     && fst (calc_quorum (opts r) (s_dev s) OLD) && negb (fst (calc_quorum (opts r) (s_dev s) NEW))
  then on_dev s (fun d => __change_io_susp_quorum d true) else s.

(** What the loop collects: lost connections and the access to good data. *)
Record acc := mk_acc { lost_connection : bool; good_old : Z; good_new : Z }.

Definition good (d : bsr_disk_state) : Z := if d =? D_UP_TO_DATE then 1 else 0.

Definition sanitize_peer (r : bsr_resource) (sa : san * acc) (i : nat) : san * acc :=
  let '(s, a) := sa in
  let s := sanitize_unconnected s i in
  let lost := ((L_ESTABLISHED <=? s_repl s i OLD) && (s_repl s i NEW <? L_ESTABLISHED)) || lost_connection a in
  let s := sanitize_resync r s i in
  let s := sanitize_disks s i in
  let s := sanitize_fencing r s i in
  let a := mk_acc lost (good_old a + good (s_pdsk s i OLD)) (good_new a + good (s_pdsk s i NEW)) in
  let s := sanitize_pause s i in
  (sanitize_upgrade r s i, a).

(** One device; [nod] is [susp_nod] of the resource. *)
Definition sanitize_device (r : bsr_resource) (maybe_crashed_primary : bool) (connected_primaries : Z)
    (conns : list bsr_connection) (nod : two bool) (d : bsr_device) : list bsr_connection * two bool * bsr_device :=
  let s := mk_san conns d in
  let s := if (s_disk s OLD =? D_DISKLESS) && (s_disk s NEW =? D_DETACHING)
           then on_dev s (fun d => __change_disk_state d D_DISKLESS) else s in
  let s := if has (state_change_flags r) CS_IGN_OUTD_FAIL && (s_disk s OLD <? D_OUTDATED) && (s_disk s NEW =? D_OUTDATED)
           then on_dev s (fun d => __change_disk_state d (s_disk s OLD)) else s in
  let s := sanitize_negotiating s in
  let '(s, a) := foldl (sanitize_peer r) (s, mk_acc false 0 0) (seq 0 (length (peer_devices (s_dev s)))) in
  let a := mk_acc (lost_connection a) (good_old a + good (s_disk s OLD)) (good_new a + good (s_disk s NEW)) in
  let nod := if match on_no_data (opts r) with OND_SUSPEND_IO => true | OND_IO_ERROR => false end
                && (((role r).[NEW] =? R_PRIMARY) && (good_new a =? 0))
                && negb (((role r).[OLD] =? R_PRIMARY) && (good_old a =? 0))
             then set_new nod true else nod in
  let s := if lost_connection a && (s_disk s NEW =? D_NEGOTIATING)
           then on_dev s (fun d => __change_disk_state d (disk_state_from_md d)) else s in
  let s := if maybe_crashed_primary && (connected_primaries =? 0) && (s_disk s NEW =? D_UP_TO_DATE) && ((role r).[NOW] =? R_SECONDARY)
           then on_dev s (fun d => __change_disk_state d D_CONSISTENT) else s in
  (s_conns s, nod, s_dev s).

Fixpoint sanitize_devices (r : bsr_resource) (maybe_crashed_primary : bool) (connected_primaries : Z)
    (conns : list bsr_connection) (nod : two bool) (ds : list bsr_device)
  : list bsr_connection * two bool * list bsr_device :=
  match ds with
  | [] => (conns, nod, [])
  | d :: ds =>
      let '(conns, nod, d) := sanitize_device r maybe_crashed_primary connected_primaries conns nod d in
      let '(conns, nod, ds) := sanitize_devices r maybe_crashed_primary connected_primaries conns nod ds in
      (conns, nod, d :: ds)
  end.

(** The loop over the connections. *)
Definition sanitize_connection (c : bsr_connection) : bsr_connection :=
  if (cstate c).[NEW] <? C_CONNECTED then __change_peer_role c R_UNKNOWN else c.

Definition crashed_primary (flags : Z) (c : bsr_connection) : bool :=
  ((peer_role c).[OLD] =? R_PRIMARY) && ((cstate c).[OLD] =? C_CONNECTED)
  && (((C_TIMEOUT <=? (cstate c).[NEW]) && ((cstate c).[NEW] <=? C_PROTOCOL_ERROR))
      || (((cstate c).[NEW] =? C_DISCONNECTING) && has flags CS_HARD)).

Definition sanitize_state (r : bsr_resource) : bsr_resource :=
  let conns := map sanitize_connection (connections r) in
  let maybe_crashed_primary := existsb (crashed_primary (state_change_flags r)) conns in
  let connected_primaries := Z.of_nat (length (filter (fun c => new (peer_role c) = R_PRIMARY) conns)) in
  let '(conns, nod, ds) := sanitize_devices r maybe_crashed_primary connected_primaries conns (susp_nod r) (devices r) in
  set_objects r nod conns ds.

(** ** Which transitions are valid *)

Fixpoint first_error {A} (f : A -> option bsr_state_rv) (l : list A) : option bsr_state_rv :=
  match l with
  | [] => None
  | x :: l => match f x with Some rv => Some rv | None => first_error f l end
  end.

Definition is_valid_conn_transition (oc nc : bsr_conn_state) : bsr_state_rv :=
  if oc =? nc then SS_NOTHING_TO_DO
  else if (oc =? C_STANDALONE) && (nc =? C_DISCONNECTING) then SS_ALREADY_STANDALONE
  else if (oc =? C_STANDALONE) && negb (nc =? C_UNCONNECTED) then SS_NEED_CONNECTION
  else if (C_TIMEOUT <=? oc) && (oc <=? C_TEAR_DOWN) && negb (nc =? C_UNCONNECTED) && negb (nc =? C_DISCONNECTING)
       then SS_IN_TRANSIENT_STATE
  else if (oc =? C_DISCONNECTING) && negb (nc =? C_STANDALONE) then SS_IN_TRANSIENT_STATE
  else SS_SUCCESS.

(** The peer devices of connection [i], over all volumes. *)
Definition conn_peer_devices (r : bsr_resource) (i : nat) : list bsr_peer_device :=
  concat (map (fun d => filter (fun p => connection p = i) (peer_devices d)) (devices r)).

Definition valid_connection (r : bsr_resource) (ic : nat * bsr_connection) : option bsr_state_rv :=
  let '(i, c) := ic in
  let rv := is_valid_conn_transition (cstate c).[OLD] (cstate c).[NEW] in
  if rv <? SS_SUCCESS then Some rv
  else if existsb (fun p => ((cstate c).[OLD] <? C_CONNECTED) && (L_ESTABLISHED <=? (repl_state p).[NEW])) (conn_peer_devices r i)
       then Some SS_NEED_CONNECTION
  else None.

Definition valid_device (d : bsr_device) : option bsr_state_rv :=
  if (((disk_state d).[NEW] =? D_FAILED) || ((disk_state d).[NEW] =? D_DETACHING)) && ((disk_state d).[OLD] =? D_DISKLESS)
  then Some SS_IS_DISKLESS else None.

Definition indexed {A} (l : list A) : list (nat * A) := combine (seq 0 (length l)) l.

Definition is_valid_transition (r : bsr_resource) : bsr_state_rv :=
  match first_error (valid_connection r) (indexed (connections r)) with
  | Some rv => rv
  | None => default SS_SUCCESS (first_error valid_device (devices r))
  end.

(** *** [__is_valid_soft_transition] *)

(** Becoming primary beside a primary peer. *)
Definition soft_promotion (c : bsr_connection) : option bsr_state_rv :=
  match transport_net_conf c with
  | None => None
  | Some nc =>
      if two_primaries nc then None
      else if (peer_role c).[NEW] =? R_PRIMARY then Some SS_TWO_PRIMARIES else None
  end.

Definition soft_connection (r : bsr_resource) (ic : nat * bsr_connection) : option bsr_state_rv :=
  let '(i, c) := ic in
  let old := (cstate c).[OLD] in
  let nw := (cstate c).[NEW] in
  if (nw =? C_DISCONNECTING) && (old =? C_STANDALONE) then Some SS_ALREADY_STANDALONE
  else if (nw =? C_CONNECTING) && (old <? C_UNCONNECTED) then Some SS_NO_NET_CONFIG
  else if (nw =? C_DISCONNECTING) && (old =? C_UNCONNECTED) then Some SS_IN_TRANSIENT_STATE
  else if negb ((old =? C_CONNECTED) || ((nw =? C_CONNECTED) && (old =? C_CONNECTING)))
          && existsb (fun p => INITIAL_STATE_SENT p && negb (INITIAL_STATE_RECEIVED p)) (conn_peer_devices r i)
       then Some SS_IN_TRANSIENT_STATE
  else
    let two := match transport_net_conf c with Some nc => two_primaries nc | None => false end in
    if ((peer_role c).[NEW] =? R_PRIMARY) && negb ((peer_role c).[OLD] =? R_PRIMARY) && negb two then
      if (role r).[NOW] =? R_PRIMARY then Some SS_TWO_PRIMARIES
      else if existsb (fun d => negb (open_ro_cnt d =? 0)) (devices r) then Some SS_PRIMARY_READER
      else None
    else None.

(** The loop before [allow]: true for the jump, with the flags it cleared. *)
Fixpoint outdate_allowed (ps : list bsr_peer_device) : bool * list bsr_peer_device :=
  match ps with
  | [] => (false, [])
  | p :: ps =>
      if ((repl_state p).[OLD] =? L_SYNC_TARGET) && ((repl_state p).[NEW] =? L_ESTABLISHED) then (true, p :: ps)
      else
        let p := if RECONCILIATION_RESYNC p && ((repl_state p).[NEW] =? L_WF_BITMAP_S)
                 then set_pd_flags p false (UNSTABLE_TRIGGER_CP p) (RESYNC_ABORTED p) (uuid_flags p) else p in
        let '(ok, ps) := outdate_allowed ps in
        (ok, p :: ps)
  end.

Definition any_disk_up_to_date (d : bsr_device) (w : which_state) : bool :=
  ((disk_state d).[w] =? D_UP_TO_DATE) || existsb (fun p => (pd_disk_state p).[w] =? D_UP_TO_DATE) (peer_devices d).

(** The checks of a device that do not look at single peers. *)
Definition soft_disk (r : bsr_resource) (d : bsr_device) : option bsr_state_rv :=
  let old := (disk_state d).[OLD] in
  let nw := (disk_state d).[NEW] in
  let was_primary := (role r).[OLD] =? R_PRIMARY in
  let primary := (role r).[NEW] =? R_PRIMARY in
  if negb (was_primary && negb (any_disk_up_to_date d OLD)) && (primary && negb (any_disk_up_to_date d NEW))
  then Some SS_NO_UP_TO_DATE_DISK
  else if negb (was_primary && (old <=? D_OUTDATED)) && (primary && (nw <=? D_OUTDATED)) then Some SS_NO_UP_TO_DATE_DISK
  else if negb (open_ro_cnt d =? 0) && any_disk_up_to_date d OLD && negb (any_disk_up_to_date d NEW)
  then Some SS_NO_UP_TO_DATE_DISK
  else if primary && negb (quorum (opts r) =? QOU_OFF) && get_ldev d
          && (if was_primary then fst (calc_quorum (opts r) d OLD) else true) && negb (fst (calc_quorum (opts r) d NEW))
  then Some SS_NO_QUORUM
  else None.

(** One peer device; [nr] is [nr_negotiating]. *)
Definition soft_peer (r : bsr_resource) (d : bsr_device) (nr : Z) (p : bsr_peer_device) : option bsr_state_rv :=
  let disk w := (disk_state d).[w] in
  let pdsk w := (pd_disk_state p).[w] in
  let repl w := (repl_state p).[w] in
  let prim w := (role r).[w] =? R_PRIMARY in
  let verify w := (repl w =? L_VERIFY_S) || (repl w =? L_VERIFY_T) in
  let c := conn_of (connections r) p in
  if 1 <? nr then Some SS_IN_TRANSIENT_STATE
  else if (repl NEW =? L_WF_BITMAP_T) && (pdsk NEW =? D_OUTDATED) && (pdsk OLD <? D_OUTDATED) && negb (pdsk OLD =? D_ATTACHING)
  then Some SS_LOWER_THAN_OUTDATED_PEER
  else if (FP_RESOURCE <=? fencing_policy c)
          && negb (prim OLD && (repl OLD <? L_ESTABLISHED) && negb (pdsk OLD <=? D_OUTDATED))
          && (prim NEW && (repl NEW <? L_ESTABLISHED) && negb (pdsk NEW <=? D_OUTDATED))
  then Some SS_PRIMARY_NOP
  else if negb ((L_ESTABLISHED <? repl OLD) && (disk OLD <? D_INCONSISTENT))
          && ((L_ESTABLISHED <? repl NEW) && (disk NEW <? D_INCONSISTENT))
  then Some SS_NO_LOCAL_DISK
  else if negb ((L_ESTABLISHED <? repl OLD) && (pdsk OLD <? D_INCONSISTENT))
          && ((L_ESTABLISHED <? repl NEW) && (pdsk NEW <? D_INCONSISTENT))
  then Some SS_NO_REMOTE_DISK
  else if (D_OUTDATED <? disk OLD) && (disk NEW =? D_OUTDATED) && negb (local_disk_may_be_outdated r d NEW)
  then Some SS_CONNECTED_OUTDATES
  else if negb (verify OLD) && verify NEW
          && match transport_net_conf c with None => true | Some nc => negb (verify_alg nc) end
  then Some SS_NO_VERIFY_ALG
  else if (repl OLD =? L_SYNC_SOURCE) && (repl NEW =? L_WF_BITMAP_S) then Some SS_RESYNC_RUNNING
  else if (repl OLD =? L_SYNC_TARGET) && (repl NEW =? L_WF_BITMAP_T) then Some SS_RESYNC_RUNNING
  else if negb (repl NEW =? repl OLD) && ((repl NEW =? L_STARTING_SYNC_T) || (repl NEW =? L_STARTING_SYNC_S))
          && (L_ESTABLISHED <? repl OLD)
  then Some SS_RESYNC_RUNNING
  else if verify NEW && (repl OLD <? L_ESTABLISHED) then Some SS_NEED_CONNECTION
  else if verify NEW && negb (repl NEW =? repl OLD) && (L_ESTABLISHED <? repl OLD) then Some SS_RESYNC_RUNNING
  else if ((repl NEW =? L_STARTING_SYNC_S) || (repl NEW =? L_STARTING_SYNC_T)) && (repl OLD <? L_ESTABLISHED)
  then Some SS_NEED_CONNECTION
  else if ((repl NEW =? L_SYNC_TARGET) || (repl NEW =? L_SYNC_SOURCE)) && (repl OLD <? L_OFF) then Some SS_NEED_CONNECTION
  else None.

Fixpoint soft_peers (r : bsr_resource) (d : bsr_device) (nr : Z) (ps : list bsr_peer_device) : option bsr_state_rv :=
  match ps with
  | [] => None
  | p :: ps =>
      let nr := if (pd_disk_state p).[NEW] =? D_NEGOTIATING then nr + 1 else nr in
      match soft_peer r d nr p with Some rv => Some rv | None => soft_peers r d nr ps end
  end.

Definition soft_device (r : bsr_resource) (d : bsr_device) : option bsr_state_rv * bsr_device :=
  let old := (disk_state d).[OLD] in
  let nw := (disk_state d).[NEW] in
  if negb ((role r).[OLD] =? R_SECONDARY) && ((role r).[NEW] =? R_SECONDARY) && negb (open_rw_cnt d =? 0)
  then (Some SS_DEVICE_IN_USE, d)
  else if (D_ATTACHING <? nw) && (old =? D_DISKLESS) then (Some SS_IS_DISKLESS, d)
  else
    let '(refused, d) :=
      if (nw =? D_OUTDATED) && (old <? D_OUTDATED) && negb (old =? D_ATTACHING) then
        let '(ok, ps) := outdate_allowed (peer_devices d) in (negb ok, set_peer_devices d ps)
      else (false, d) in
    if refused then (Some SS_LOWER_THAN_OUTDATED, d)
    else
      match soft_disk r d with
      | Some rv => (Some rv, d)
      | None => (soft_peers r d (if nw =? D_NEGOTIATING then 1 else 0) (peer_devices d), d)
      end.

Fixpoint soft_devices (r : bsr_resource) (ds : list bsr_device) : option bsr_state_rv * list bsr_device :=
  match ds with
  | [] => (None, [])
  | d :: ds =>
      match soft_device r d with
      | (Some rv, d) => (Some rv, d :: ds)
      | (None, d) => let '(rv, ds) := soft_devices r ds in (rv, d :: ds)
      end
  end.

Definition is_valid_soft_transition (r : bsr_resource) : bsr_state_rv * bsr_resource :=
  let promotion := negb ((role r).[OLD] =? R_PRIMARY) && ((role r).[NEW] =? R_PRIMARY) in
  match (if promotion then first_error soft_promotion (connections r) else None) with
  | Some rv => (rv, r)
  | None =>
      match first_error (soft_connection r) (indexed (connections r)) with
      | Some rv => (rv, r)
      | None =>
          let '(rv, ds) := soft_devices r (devices r) in
          (default SS_SUCCESS rv, set_objects r (susp_nod r) (connections r) ds)
      end
  end.

(** ** A state change *)

Definition state_has_changed (r : bsr_resource) : bool * bsr_resource :=
  let r := set_objects r (susp_nod r) (connections r)
             (map (fun d => set_peer_devices d
                    (map (fun p => set_pd_flags p (RECONCILIATION_RESYNC p) (UNSTABLE_TRIGGER_CP p) (RESYNC_ABORTED p)
                                     (Z.ldiff (uuid_flags p) UUID_FLAG_GOT_STABLE)) (peer_devices d))) (devices r)) in
  if NEGOTIATION_RESULT_TOUCHED r then (true, set_touched r false)
  else
    let ne (x y : Z) := negb (x =? y) in
    (ne (role r).[OLD] (role r).[NEW] || xorb (susp r).[OLD] (susp r).[NEW] || xorb (susp_nod r).[OLD] (susp_nod r).[NEW]
     || existsb (fun c => ne (cstate c).[OLD] (cstate c).[NEW] || ne (peer_role c).[OLD] (peer_role c).[NEW]
                          || xorb (susp_fen c).[OLD] (susp_fen c).[NEW]) (connections r)
     || existsb (fun d => ne (disk_state d).[OLD] (disk_state d).[NEW] || xorb (susp_quorum d).[OLD] (susp_quorum d).[NEW]
          || existsb (fun p => ne (pd_disk_state p).[OLD] (pd_disk_state p).[NEW] || ne (repl_state p).[OLD] (repl_state p).[NEW]
               || xorb (resync_susp_user p).[OLD] (resync_susp_user p).[NEW]
               || xorb (resync_susp_peer p).[OLD] (resync_susp_peer p).[NEW]
               || xorb (resync_susp_dependency p).[OLD] (resync_susp_dependency p).[NEW]
               || xorb (resync_susp_other_c p).[OLD] (resync_susp_other_c p).[NEW]) (peer_devices d)) (devices r), r).

Definition try_state_change (r : bsr_resource) : bsr_state_rv * bsr_resource :=
  let '(changed, r) := state_has_changed r in
  if negb changed then (SS_NOTHING_TO_DO, r)
  else
    let r := sanitize_state r in
    let rv := is_valid_transition r in
    if (SS_SUCCESS <=? rv) && negb (has (state_change_flags r) CS_HARD) then is_valid_soft_transition r else (rv, r).

(** [___begin_state_change] *)
Definition renew {A} (x : two A) : two A := set_new x (now x).

Definition begin_connection (c : bsr_connection) : bsr_connection :=
  let c := __change_cstate_state c (cstate c).[NOW] in
  let c := __change_peer_role c (peer_role c).[NOW] in
  __change_io_susp_fencing c (susp_fen c).[NOW].

Definition begin_peer_device (p : bsr_peer_device) : bsr_peer_device :=
  let p := __change_peer_disk_state p (pd_disk_state p).[NOW] in
  let p := __change_repl_state p (repl_state p).[NOW] in
  let p := __change_resync_susp_user p (resync_susp_user p).[NOW] in
  let p := __change_resync_susp_peer p (resync_susp_peer p).[NOW] in
  let p := __change_resync_susp_dependency p (resync_susp_dependency p).[NOW] in
  __change_resync_susp_other_c p (resync_susp_other_c p).[NOW].

Definition begin_device (d : bsr_device) : bsr_device :=
  let d := __change_disk_state d (disk_state d).[NOW] in
  let d := __change_io_susp_quorum d (susp_quorum d).[NOW] in
  set_peer_devices d (map begin_peer_device (peer_devices d)).

Definition ___begin_state_change (r : bsr_resource) : bsr_resource :=
  let r := set_role r (renew (role r)) in
  let r := __change_io_susp_user r (susp r).[NOW] in
  set_objects r (renew (susp_nod r)) (map begin_connection (connections r)) (map begin_device (devices r)).

Definition begin_state_change (r : bsr_resource) (flags : Z) : bsr_resource :=
  ___begin_state_change (set_state_change_flags r flags).

(** *** [finish_state_change]

    The effects on the fields modelled here; timers, threads, epochs, the
    after-state-change work and the progress data of resync and verify are
    left out, no state is computed from them. *)

Definition set_finished (p : bsr_peer_device) (neg : bsr_repl_state) (sent received recon aborted : bool) : bsr_peer_device :=
  mk_peer_device (connection p) (pd_node_id p) (pd_bitmap_index p) (repl_state p) (pd_disk_state p) neg (resync_susp_user p)
    (resync_susp_peer p) (resync_susp_dependency p) (resync_susp_other_c p) sent received recon (UNSTABLE_TRIGGER_CP p) aborted
    (uuids_received p) (uuid_flags p) (uuid_authoritative_nodes p) (resync_seq p) (al_oos_cnt p).

Definition all_peer_devices_connected (r : bsr_resource) (i : nat) : bool :=
  forallb (fun p => negb ((repl_state p).[NOW] <? L_ESTABLISHED)) (conn_peer_devices r i).

Definition primary_and_data_present (r : bsr_resource) (d : bsr_device) : bool :=
  (((role r).[NOW] =? R_PRIMARY) || existsb (fun p => (peer_role (conn_of (connections r) p)).[NOW] =? R_PRIMARY) (peer_devices d))
  && any_disk_up_to_date d NOW.

Definition peer_returns_diskless (d : bsr_device) (p : bsr_peer_device) : bool :=
  let os := (pd_disk_state p).[OLD] in
  let ns := (pd_disk_state p).[NEW] in
  get_ldev d && (os =? D_UNKNOWN) && ((ns =? D_DISKLESS) || (ns =? D_FAILED) || (ns =? D_OUTDATED))
  && (bitmap_uuid (peer_md_of d (Z.to_nat (pd_node_id p))) =? 0).

(** The flags of a peer device after the change. *)
Definition finish_peer_device (r : bsr_resource) (d : bsr_device) (p : bsr_peer_device) : bsr_peer_device :=
  let repl w := (repl_state p).[w] in
  let neg := if negb ((disk_state d).[OLD] =? D_NEGOTIATING) && ((disk_state d).[NEW] =? D_NEGOTIATING)
             then L_NEGOTIATING else negotiation_result p in
  let sent := if (repl OLD =? L_OFF) && negb (repl NEW =? L_OFF) && all_peer_devices_connected r (connection p)
              then false else INITIAL_STATE_SENT p in
  let aborted :=
    if (((L_STARTING_SYNC_S <=? repl NEW) && (repl NEW <=? L_WF_BITMAP_T))
        || ((L_SYNC_SOURCE <=? repl NEW) && (repl NEW <=? L_PAUSED_SYNC_T)))
       && (L_ESTABLISHED <=? repl NOW) && negb (bsr_inspect_resync_side r d p (repl NEW) NEW)
    then true else RESYNC_ABORTED p in
  let recon := if (L_ESTABLISHED <? repl OLD) && (repl NEW <=? L_ESTABLISHED) then false else RECONCILIATION_RESYNC p in
  (* the loop over the connections *)
  let down := (cstate (conn_of (connections r) p)).[NEW] <? C_CONNECTED in
  set_finished p neg (if down then false else sent) (if down then false else INITIAL_STATE_RECEIVED p) recon aborted.

(** The flags kept in the meta data for a peer. *)
Definition finish_peer_mdf (r : bsr_resource) (p : bsr_peer_device) (mdf : Z) : Z :=
  let pdsk := (pd_disk_state p).[NEW] in
  let mdf := Z.ldiff mdf (Z.lor (Z.lor MDF_PEER_CONNECTED MDF_PEER_OUTDATED) MDF_PEER_FENCING) in
  let mdf := if L_OFF <? (repl_state p).[NEW] then Z.lor mdf MDF_PEER_CONNECTED else mdf in
  let mdf := if D_INCONSISTENT <=? pdsk then
               let mdf := if pdsk <=? D_OUTDATED then Z.lor mdf MDF_PEER_OUTDATED else mdf in
               if negb (pdsk =? D_UNKNOWN) then Z.lor mdf MDF_PEER_DEVICE_SEEN else mdf
             else mdf in
  if negb (fencing_policy (conn_of (connections r) p) =? 0) then Z.lor mdf MDF_PEER_FENCING else mdf.

Definition finish_peer_md (r : bsr_resource) (l : list bsr_peer_md) (p : bsr_peer_device) : list bsr_peer_md :=
  if negb (pd_bitmap_index p =? -1)
  then alter (fun m => mk_peer_md (bitmap_index m) (bitmap_uuid m) (finish_peer_mdf r p (peer_md_flags m)))
         (Z.to_nat (pd_node_id p)) l
  else l.

(** Does the loss of this peer need a new current UUID? *)
Definition peer_creates_uuid (r : bsr_resource) (d : bsr_device) (p : bsr_peer_device) : bool :=
  let c := conn_of (connections r) p in
  let one_peer_up_to_date := existsb (fun q => (pd_disk_state q).[NEW] =? D_UP_TO_DATE) (peer_devices d) in
  ((lost_contact_to_peer_data (pd_disk_state p) || ((pd_disk_state p).[NEW] =? D_INCONSISTENT))
   && ((((role r).[NEW] =? R_PRIMARY) && negb (UNREGISTERED d)
        && (negb ((repl_state p).[NEW] =? L_AHEAD) && ((cstate c).[NEW] <? C_CONNECTED))
        && (((disk_state d).[NEW] =? D_UP_TO_DATE) || one_peer_up_to_date))
       || ((agreed_pro_version c <? 110) && ((peer_role c).[NEW] =? R_PRIMARY) && (D_UP_TO_DATE <=? (disk_state d).[NEW]))))
  || (peer_returns_diskless d p && ((role r).[NEW] =? R_PRIMARY) && negb (UNREGISTERED d) && ((disk_state d).[NEW] =? D_UP_TO_DATE)).

Definition creates_uuid (r : bsr_resource) (d : bsr_device) : bool :=
  existsb (peer_creates_uuid r d) (peer_devices d)
  || ((D_INCONSISTENT <=? (disk_state d).[OLD]) && ((disk_state d).[NEW] <? D_INCONSISTENT) && ((role r).[NEW] =? R_PRIMARY)
      && existsb (fun q => (pd_disk_state q).[NEW] =? D_UP_TO_DATE) (peer_devices d)).

(** The flags of the meta data. *)
Definition finish_mdf (r : bsr_resource) (d : bsr_device) (flags : Z) : Z :=
  let ds := (disk_state d).[NEW] in
  let mdf := Z.ldiff (Z.ldiff flags (Z.lor MDF_PRIMARY_IND MDF_CRASHED_PRIMARY)) MDF_AL_CLEAN in
  let mdf := if CRASHED_PRIMARY d then Z.lor mdf MDF_CRASHED_PRIMARY else mdf in
  let mdf := if ((role r).[NEW] =? R_PRIMARY) && negb (ds =? D_DETACHING) then Z.lor mdf MDF_PRIMARY_IND else mdf in
  if D_INCONSISTENT <=? ds then
    let mdf := Z.ldiff mdf (Z.lor MDF_CONSISTENT MDF_WAS_UP_TO_DATE) in
    let mdf := if D_INCONSISTENT <? ds then Z.lor mdf MDF_CONSISTENT else mdf in
    if D_OUTDATED <? ds then Z.lor mdf MDF_WAS_UP_TO_DATE else mdf
  else if ((ds =? D_FAILED) || (ds =? D_DETACHING)) && has mdf MDF_WAS_UP_TO_DATE && primary_and_data_present r d
  then Z.ldiff mdf MDF_WAS_UP_TO_DATE
  else mdf.

Definition finish_device (r : bsr_resource) (d : bsr_device) : bsr_device :=
  let md := ldev_md d in
  let md' := if negb ((disk_state d).[NEW] =? D_NEGOTIATING) && get_ldev d
             then mk_md (md_node_id md) (finish_mdf r d (md_flags md)) (foldl (finish_peer_md r) (md_peers md) (peer_devices d))
             else md in
  mk_device (disk_state d) (susp_quorum d) (open_ro_cnt d) (open_rw_cnt d) (CRASHED_PRIMARY d) (UNREGISTERED d)
    (creates_uuid r d || __NEW_CUR_UUID d) (NEW_CUR_UUID d) md' (map (finish_peer_device r d) (peer_devices d)).

Definition finish_state_change (r : bsr_resource) : bsr_resource :=
  set_objects r (susp_nod r) (connections r) (map (finish_device r) (devices r)).

(** The part of [___end_state_change] that makes [NEW] visible. *)
Definition commit {A} (x : two A) : two A := mk2 (new x) (new x).

Definition commit_connection (c : bsr_connection) : bsr_connection :=
  set_susp_fens (set_peer_roles (set_cstates c (commit (cstate c))) (commit (peer_role c))) (commit (susp_fen c)).

Definition set_counters (p : bsr_peer_device) (seq oos : Z) : bsr_peer_device :=
  mk_peer_device (connection p) (pd_node_id p) (pd_bitmap_index p) (repl_state p) (pd_disk_state p) (negotiation_result p) (resync_susp_user p)
    (resync_susp_peer p) (resync_susp_dependency p) (resync_susp_other_c p) (INITIAL_STATE_SENT p) (INITIAL_STATE_RECEIVED p)
    (RECONCILIATION_RESYNC p) (UNSTABLE_TRIGGER_CP p) (RESYNC_ABORTED p) (uuids_received p) (uuid_flags p) (uuid_authoritative_nodes p)
    seq oos.

Definition INT32_MAX : Z := 2147483647.

Definition commit_peer_device (p : bsr_peer_device) : bsr_peer_device :=
  let p := set_pd_disk_states p (commit (pd_disk_state p)) in
  let p := if negb ((repl_state p).[NOW] =? L_AHEAD) && ((repl_state p).[NEW] =? L_AHEAD)
           then set_counters p (if INT32_MAX <=? resync_seq p then 1 else resync_seq p + 1) (al_oos_cnt p)
           else if ((repl_state p).[NOW] =? L_AHEAD) && negb ((repl_state p).[NEW] =? L_AHEAD)
                then set_counters p (resync_seq p) 0 else p in
  let p := set_repl_states p (commit (repl_state p)) in
  set_resync_susps p (commit (resync_susp_user p)) (commit (resync_susp_peer p)) (commit (resync_susp_dependency p))
    (commit (resync_susp_other_c p)).

Definition commit_device (d : bsr_device) : bsr_device :=
  let d := set_susp_quorums (set_disk_states d (commit (disk_state d))) (commit (susp_quorum d)) in
  set_peer_devices d (map commit_peer_device (peer_devices d)).

Definition commit_state (r : bsr_resource) : bsr_resource :=
  let r := set_susp (set_role r (commit (role r))) (commit (susp r)) in
  set_objects r (commit (susp_nod r)) (map commit_connection (connections r)) (map commit_device (devices r)).

(** The scheduled creation of a new current UUID becomes visible last. *)
Definition arm_new_uuid (d : bsr_device) : bsr_device :=
  mk_device (disk_state d) (susp_quorum d) (open_ro_cnt d) (open_rw_cnt d) (CRASHED_PRIMARY d) (UNREGISTERED d)
    false (if __NEW_CUR_UUID d then true else NEW_CUR_UUID d) (ldev_md d) (peer_devices d).

Definition ___end_state_change (r : bsr_resource) (rv : bsr_state_rv) : bsr_state_rv * bsr_resource :=
  let flags := state_change_flags r in
  if has flags CS_ABORT then (rv, r)
  else
    let '(rv, r) := if SS_SUCCESS <=? rv then try_state_change r else (rv, r) in
    if rv <? SS_SUCCESS then (rv, r)
    else if has flags CS_PREPARE then (rv, r)
    else
      let r := commit_state (finish_state_change r) in
      (rv, set_objects r (susp_nod r) (connections r) (map arm_new_uuid (devices r))).

Definition end_state_change (r : bsr_resource) : bsr_state_rv * bsr_resource :=
  let '(rv, r) := ___end_state_change r SS_SUCCESS in (rv, set_state_change_flags r 0).

Definition abort_state_change (r : bsr_resource) : bsr_resource :=
  let '(_, r) := ___end_state_change r SS_UNKNOWN_ERROR in set_state_change_flags r 0.

(** *** The changes themselves *)

Definition change_io_susp_user (r : bsr_resource) (value : bool) (flags : Z) : bsr_state_rv * bsr_resource :=
  end_state_change (__change_io_susp_user (begin_state_change r flags) value).

Definition on_peer_device (r : bsr_resource) (d p : nat) (f : bsr_peer_device -> bsr_peer_device) : bsr_resource :=
  set_objects r (susp_nod r) (connections r)
    (alter (fun d => set_peer_devices d (alter f p (peer_devices d))) d (devices r)).

Definition change_peer_disk_state (r : bsr_resource) (d p : nat) (ds : bsr_disk_state) (flags : Z) : bsr_state_rv * bsr_resource :=
  end_state_change (on_peer_device (begin_state_change r flags) d p (fun p => __change_peer_disk_state p ds)).

Definition change_resync_susp_user (r : bsr_resource) (d p : nat) (value : bool) (flags : Z) : bsr_state_rv * bsr_resource :=
  end_state_change (on_peer_device (begin_state_change r flags) d p (fun p => __change_resync_susp_user p value)).

(** [__change_role], and the local state change it is part of. *)
Definition __change_role (r : bsr_resource) (v : bsr_role) (force : bool) : bsr_resource :=
  let r := set_role r (set_new (role r) v) in
  set_objects r (susp_nod r) (connections r)
    (map (fun d =>
       if (v =? R_PRIMARY) && force then
         if ((disk_state d).[NEW] <? D_UP_TO_DATE) && (D_INCONSISTENT <=? (disk_state d).[NEW])
         then __change_disk_state d D_UP_TO_DATE else d
       else if v =? R_SECONDARY then __change_io_susp_quorum d false else d) (devices r)).

Definition __change_disk_states (r : bsr_resource) (ds : bsr_disk_state) : bsr_resource :=
  set_objects r (susp_nod r) (connections r) (map (fun d => __change_disk_state d ds) (devices r)).

Definition __outdate_myself (r : bsr_resource) : bsr_resource :=
  if (role r).[NOW] =? R_PRIMARY then r
  else set_objects r (susp_nod r) (connections r)
         (map (fun d => if D_OUTDATED <? (disk_state d).[NOW] then __change_disk_state d D_OUTDATED else d) (devices r)).

End State.
