(* ===== verification/StateChange.v ===== *)
(** * State changes (src/bsr/bsr_state.c)

    What a state change can touch, that a refused change leaves no trace, who
    may become primary, quorum, and what the meta data remember. *)

From stdpp Require Import relations.
From S2P Require Import Prelude State.

Module StateChange.
Import State.
Open Scope state_scope.

(** ** What a state change leaves alone *)

Lemma map_alter_same {A B} (g : A -> B) (f : A -> A) i l : (forall x, g (f x) = g x) -> map g (alter f i l) = map g l.
Proof.
  intros Hg. revert i. induction l as [|x l IH]; intros [|i]; [done|done|simpl; by rewrite Hg|].
  change (g x :: map g (alter f i l) = g x :: map g l). by rewrite IH.
Qed.

(** A projection that factors through another. *)
Lemma map_factor {A B C} (f : A -> B) (g : A -> C) (h : B -> C) l l' :
  (forall x, g x = h (f x)) -> map f l' = map f l -> map g l' = map g l.
Proof. intros Hg Hf. rewrite !(map_ext _ _ Hg), <- !(map_map f h). by rewrite Hf. Qed.

Lemma existsb_false {A} (f : A -> bool) l x : existsb f l = false -> x ∈ l -> f x = false.
Proof.
  intros He Hx. apply not_true_is_false. intros Ht. assert (existsb f l = true); [|congruence].
  apply existsb_exists. exists x. split; [by apply list_elem_of_In|done].
Qed.

(** Everything of a peer device but its [NEW] states and the flags a state
    change may touch even when it is refused. *)
Definition frozen_pd (p : bsr_peer_device) :=
  (connection p, pd_node_id p, pd_bitmap_index p, now (repl_state p), now (pd_disk_state p), negotiation_result p,
   (now (resync_susp_user p), now (resync_susp_peer p), now (resync_susp_dependency p), now (resync_susp_other_c p)),
   INITIAL_STATE_SENT p, INITIAL_STATE_RECEIVED p, uuids_received p, uuid_authoritative_nodes p).

Definition frozen_device (d : bsr_device) :=
  (now (disk_state d), now (susp_quorum d), (open_ro_cnt d, open_rw_cnt d),
   (CRASHED_PRIMARY d, UNREGISTERED d, __NEW_CUR_UUID d, NEW_CUR_UUID d), ldev_md d, map frozen_pd (peer_devices d)).

Definition frozen_conn (c : bsr_connection) :=
  (now (cstate c), now (peer_role c), now (susp_fen c), transport_net_conf c, fencing_policy c, agreed_pro_version c, peer_node_id c).

(** The loops over the devices leave the new state and the new peer role of
    the connections alone as well. *)
Definition frozen_conns (l : list bsr_connection) := map (fun c => (frozen_conn c, (cstate c, new (peer_role c)))) l.

Definition frozen_san (s : san) := (frozen_conns (s_conns s), frozen_device (s_dev s)).

Definition tame (f : bsr_peer_device -> bsr_peer_device) : Prop := forall p, frozen_pd (f p) = frozen_pd p.

Lemma frozen_on_pd s i f : tame f -> frozen_san (on_pd s i f) = frozen_san s.
Proof. intros Hf. unfold frozen_san, on_pd, on_dev, frozen_device. simpl. by rewrite map_alter_same by apply Hf. Qed.

Lemma frozen_disk s v : frozen_san (on_dev s (fun d => __change_disk_state d v)) = frozen_san s.
Proof. done. Qed.

Lemma frozen_quorum s v : frozen_san (on_dev s (fun d => __change_io_susp_quorum d v)) = frozen_san s.
Proof. done. Qed.

Create Rewrite HintDb frozen.
#[local] Hint Rewrite frozen_disk frozen_quorum : frozen.
#[local] Hint Rewrite @frozen_on_pd using (intros ?; reflexivity) : frozen.

(** Case analysis on the conditions of a step. *)
Ltac frozen_ifs := repeat (first [progress autorewrite with frozen | case_match]); try done.

Lemma frozen_foldl {A} (f : san -> A -> san) l s : (forall s x, frozen_san (f s x) = frozen_san s) -> frozen_san (foldl f s l) = frozen_san s.
Proof. intros Hf. revert s. induction l as [|x l IH]; intros s; simpl; [done|]. by rewrite IH, Hf. Qed.

Lemma frozen_clear_other_c js s i : frozen_san (fst (clear_other_c s i js)) = frozen_san s.
Proof.
  revert s. induction js as [|j js IH]; intros s; cbn [clear_other_c]; [done|]. cbv zeta.
  case_match; [apply IH|]. case_match; cbn [fst].
  - case_match; case_match; by autorewrite with frozen.
  - rewrite IH. by autorewrite with frozen.
Qed.

Lemma frozen_set_resync_susp_other_c s i v : frozen_san (set_resync_susp_other_c s i v) = frozen_san s.
Proof.
  unfold set_resync_susp_other_c. destruct v.
  - apply frozen_foldl. intros. by autorewrite with frozen.
  - pose proof (frozen_clear_other_c (others s i) s i) as Hc. destruct (clear_other_c _ _ _) as [s' []]; simpl in Hc; [done|].
    rewrite frozen_foldl; [done|]. intros s0 j. unfold release_source. cbv zeta. case_match; by autorewrite with frozen.
Qed.
#[local] Hint Rewrite frozen_set_resync_susp_other_c : frozen.

Lemma frozen_negotiating s : frozen_san (sanitize_negotiating s) = frozen_san s.
Proof.
  unfold sanitize_negotiating. case_match; [|done]. case_match; [|done]. cbv zeta.
  rewrite frozen_foldl; [by autorewrite with frozen|]. intros s0 i. unfold negotiated_repl. cbv zeta.
  case_match; [done|]. case_match; by autorewrite with frozen.
Qed.

Lemma frozen_unconnected s i : frozen_san (sanitize_unconnected s i) = frozen_san s.
Proof. unfold sanitize_unconnected. cbv zeta. frozen_ifs. Qed.

(** A step [let s := a in k s]: forget how [a] came about. *)
Ltac frozen_step :=
  lazymatch goal with
  | |- frozen_san (let x := ?a in @?k x) = frozen_san ?s0 =>
      change (frozen_san (k a) = frozen_san s0);
      let H := fresh "H" in
      assert (frozen_san a = frozen_san s0) as H by (cbv zeta; frozen_ifs; congruence);
      rewrite <- H; clear H; generalize a; clear; intros s; cbv beta
  end.

Lemma frozen_resync r s i : frozen_san (sanitize_resync r s i) = frozen_san s.
Proof. cbv beta delta [sanitize_resync]. do 4 frozen_step. cbv zeta. frozen_ifs. Qed.

Lemma frozen_disks s i : frozen_san (sanitize_disks s i) = frozen_san s.
Proof.
  cbv beta delta [sanitize_disks]. frozen_step. destruct (disk_limits _) as [mi ma], (peer_disk_limits _) as [pmi pma].
  do 3 frozen_step. frozen_ifs.
Qed.

Lemma frozen_fencing r s i : frozen_san (sanitize_fencing r s i) = frozen_san s.
Proof. unfold sanitize_fencing. case_match; [|done]. unfold frozen_san, frozen_conns. simpl. by rewrite map_alter_same. Qed.

Lemma frozen_pause s i : frozen_san (sanitize_pause s i) = frozen_san s.
Proof. cbv beta delta [sanitize_pause]. do 5 frozen_step. frozen_ifs. Qed.

Lemma frozen_upgrade r s i : frozen_san (sanitize_upgrade r s i) = frozen_san s.
Proof. cbv beta delta [sanitize_upgrade]. do 4 frozen_step. frozen_ifs. Qed.

Lemma frozen_peer r s a i : frozen_san (fst (sanitize_peer r (s, a) i)) = frozen_san s.
Proof.
  unfold sanitize_peer. cbn [fst]. by rewrite frozen_upgrade, frozen_pause, frozen_fencing, frozen_disks, frozen_resync, frozen_unconnected.
Qed.

Lemma frozen_peers r is_ sa : frozen_san (fst (foldl (sanitize_peer r) sa is_)) = frozen_san (fst sa).
Proof.
  revert sa. induction is_ as [|i is_ IH]; intros [s a]; [done|]. cbn [foldl]. by rewrite IH, frozen_peer.
Qed.

Lemma frozen_pair s cs d : frozen_san s = frozen_san (mk_san cs d) ->
  frozen_conns (s_conns s) = frozen_conns cs /\ frozen_device (s_dev s) = frozen_device d.
Proof. destruct s as [cs' d']. unfold frozen_san. simpl. intros H. split; [exact (f_equal fst H)|exact (f_equal snd H)]. Qed.

(** The loop of one device: where it starts and where it ends. *)
Definition device_start (r : bsr_resource) (conns : list bsr_connection) (d : bsr_device) : san :=
  let s := mk_san conns d in
  let s := if (s_disk s OLD =? D_DISKLESS) && (s_disk s NEW =? D_DETACHING)
           then on_dev s (fun d => __change_disk_state d D_DISKLESS) else s in
  let s := if has (state_change_flags r) CS_IGN_OUTD_FAIL && (s_disk s OLD <? D_OUTDATED) && (s_disk s NEW =? D_OUTDATED)
           then on_dev s (fun d => __change_disk_state d (s_disk s OLD)) else s in
  sanitize_negotiating s.

Definition device_loop (r : bsr_resource) (s : san) : san * acc :=
  foldl (sanitize_peer r) (s, mk_acc false 0 0) (seq 0 (length (peer_devices (s_dev s)))).

Definition device_end (r : bsr_resource) (crashed : bool) (prim : Z) (s : san) (a : acc) : san :=
  let s := if lost_connection a && (s_disk s NEW =? D_NEGOTIATING)
           then on_dev s (fun d => __change_disk_state d (disk_state_from_md d)) else s in
  if crashed && (prim =? 0) && (s_disk s NEW =? D_UP_TO_DATE) && ((role r).[NOW] =? R_SECONDARY)
  then on_dev s (fun d => __change_disk_state d D_CONSISTENT) else s.

Lemma sanitize_device_eq r crashed prim conns nod d :
  exists nod', now nod' = now nod /\
  let '(s, a) := device_loop r (device_start r conns d) in
  sanitize_device r crashed prim conns nod d =
  (s_conns (device_end r crashed prim s a), nod', s_dev (device_end r crashed prim s a)).
Proof.
  cbv beta delta [sanitize_device]. fold (device_start r conns d). change (foldl _ _ _) with (device_loop r (device_start r conns d)).
  destruct (device_loop r (device_start r conns d)) as [s a]. eexists. split; [|reflexivity]. by case_match.
Qed.

Lemma frozen_dev_md s : frozen_san (on_dev s (fun d => __change_disk_state d (disk_state_from_md d))) = frozen_san s.
Proof. done. Qed.
#[local] Hint Rewrite frozen_dev_md : frozen.

Lemma frozen_start r conns d : frozen_san (device_start r conns d) = frozen_san (mk_san conns d).
Proof. unfold device_start. rewrite frozen_negotiating. frozen_ifs. Qed.

Lemma frozen_loop r s : frozen_san (fst (device_loop r s)) = frozen_san s.
Proof. apply (frozen_peers r _ (s, mk_acc false 0 0)). Qed.

Lemma frozen_end r crashed prim s a : frozen_san (device_end r crashed prim s a) = frozen_san s.
Proof. unfold device_end. frozen_ifs. Qed.

Lemma frozen_sanitize_device r crashed prim conns nod d :
  let '(conns', nod', d') := sanitize_device r crashed prim conns nod d in
  frozen_conns conns' = frozen_conns conns /\ now nod' = now nod /\ frozen_device d' = frozen_device d.
Proof.
  destruct (sanitize_device_eq r crashed prim conns nod d) as (nod' & Hn & He).
  pose proof (frozen_loop r (device_start r conns d)) as Hl. destruct (device_loop _ _) as [s a]. rewrite He. simpl in Hl.
  destruct (frozen_pair (device_end r crashed prim s a) conns d) as [H1 H2]; [by rewrite frozen_end, Hl, frozen_start|]. done.
Qed.

Lemma frozen_sanitize_devices r crashed prim ds conns nod :
  let '(conns', nod', ds') := sanitize_devices r crashed prim conns nod ds in
  frozen_conns conns' = frozen_conns conns /\ now nod' = now nod /\ map frozen_device ds' = map frozen_device ds.
Proof.
  revert conns nod. induction ds as [|d ds IH]; intros conns nod; cbn [sanitize_devices]; [done|].
  pose proof (frozen_sanitize_device r crashed prim conns nod d) as Hd.
  destruct (sanitize_device _ _ _ _ _ _) as [[conns1 nod1] d1]. destruct Hd as (H1 & H2 & H3).
  specialize (IH conns1 nod1). destruct (sanitize_devices _ _ _ _ _ _) as [[conns2 nod2] ds2]. destruct IH as (I1 & I2 & I3).
  cbn [map]. split_and!; congruence.
Qed.

(** What a change of states can not touch before it is committed. *)
Definition frozen (r : bsr_resource) :=
  (now (role r), now (susp r), now (susp_nod r), map frozen_conn (connections r), map frozen_device (devices r), opts r,
   state_change_flags r).

Lemma frozen_conns_conn l : map frozen_conn l = map fst (frozen_conns l).
Proof. unfold frozen_conns. by rewrite map_map. Qed.

Lemma sanitize_frozen r : frozen (sanitize_state r) = frozen r /\ role (sanitize_state r) = role r /\
  map cstate (connections (sanitize_state r)) = map cstate (connections r).
Proof.
  unfold sanitize_state. cbv zeta. set (conns := map sanitize_connection (connections r)).
  assert (map frozen_conn conns = map frozen_conn (connections r)) as Hc.
  { unfold conns. rewrite map_map. apply map_ext. intros c. unfold sanitize_connection. by case_match. }
  pose proof (frozen_sanitize_devices r (existsb (crashed_primary (state_change_flags r)) conns)
    (Z.of_nat (length (filter (fun c => new (peer_role c) = R_PRIMARY) conns))) (devices r) conns (susp_nod r)) as Hd.
  destruct (sanitize_devices _ _ _ _ _ _) as [[conns' nod'] ds']. destruct Hd as (H1 & H2 & H3).
  assert (map frozen_conn conns' = map frozen_conn (connections r)) as Hc' by (rewrite frozen_conns_conn, H1, <- frozen_conns_conn; done).
  split_and!; [|done|].
  - unfold frozen. simpl. by rewrite H2, H3, Hc'.
  - simpl. transitivity (map cstate conns).
    + by apply (map_factor (fun c => (frozen_conn c, (cstate c, new (peer_role c)))) cstate (fun x => x.2.1)).
    + unfold conns. rewrite map_map. apply map_ext. intros c. unfold sanitize_connection. by case_match.
Qed.

(** ** The checks *)

Lemma first_error_none {A} (f : A -> option bsr_state_rv) l : first_error f l = None <-> Forall (fun x => f x = None) l.
Proof.
  induction l as [|x l IH]; simpl; [split; [constructor|done]|]. rewrite Forall_cons. destruct (f x); [|tauto].
  split; [done|]. by intros [? _].
Qed.

Lemma first_error_some {A} (f : A -> option bsr_state_rv) l rv :
  first_error f l = Some rv -> exists x, x ∈ l /\ f x = Some rv.
Proof.
  induction l as [|x l IH]; simpl; [done|]. destruct (f x) as [rv'|] eqn:E.
  - intros [= ->]. exists x. split; [apply elem_of_cons; by left|done].
  - intros H. destruct (IH H) as (y & Hy & He). exists y. split; [apply elem_of_cons; by right|done].
Qed.

Lemma indexed_elem {A} (l : list A) x : x ∈ l -> exists i, (i, x) ∈ indexed l.
Proof.
  intros Hx. apply list_elem_of_In, In_nth_error in Hx as [i Hi]. exists i. apply list_elem_of_In.
  assert (i < length l)%nat as Hl by (apply nth_error_Some; congruence).
  replace (i, x) with (nth i (indexed l) (0%nat, x)).
  - apply nth_In. unfold indexed. rewrite length_combine, length_seq. lia.
  - unfold indexed. rewrite combine_nth by apply length_seq. rewrite seq_nth by done. f_equal. by apply nth_error_nth.
Qed.

(** A refusal is an error code. *)
Definition refusal (o : option bsr_state_rv) : Prop := match o with Some rv => rv < SS_SUCCESS | None => True end.

Ltac refusals := repeat case_match; simplify_eq; simpl; try exact I; try (vm_compute; reflexivity).

Lemma soft_promotion_refusal c : refusal (soft_promotion c).
Proof. unfold soft_promotion. refusals. Qed.

Lemma soft_connection_refusal r ic : refusal (soft_connection r ic).
Proof. unfold soft_connection. refusals. Qed.

Lemma refusal_if (b : bool) (rv : bsr_state_rv) o : rv < SS_SUCCESS -> refusal o -> refusal (if b then Some rv else o).
Proof. by destruct b. Qed.

Lemma soft_peer_refusal r d nr p : refusal (soft_peer r d nr p).
Proof. unfold soft_peer. cbv zeta. repeat (apply refusal_if; [vm_compute; reflexivity|]). exact I. Qed.

Lemma soft_disk_refusal r d : refusal (soft_disk r d).
Proof. unfold soft_disk. cbv zeta. repeat (apply refusal_if; [vm_compute; reflexivity|]). exact I. Qed.

Lemma soft_peers_refusal r d nr ps : refusal (soft_peers r d nr ps).
Proof.
  revert nr. induction ps as [|p ps IH]; intros nr; [exact I|]. cbn [soft_peers]. cbv zeta.
  pose proof (soft_peer_refusal r d (if (pd_disk_state p).[NEW] =? D_NEGOTIATING then nr + 1 else nr) p) as Hp.
  destruct (soft_peer _ _ _ _); [done|]. apply IH.
Qed.

Lemma soft_device_refusal r d : refusal (fst (soft_device r d)).
Proof.
  unfold soft_device. cbv zeta. case_match; [vm_compute; reflexivity|]. case_match; [vm_compute; reflexivity|].
  match goal with |- context [let '(_, _) := ?x in _] => destruct x as [[] d'] end; [vm_compute; reflexivity|].
  pose proof (soft_disk_refusal r d') as Hd. destruct (soft_disk r d'); [done|]. apply soft_peers_refusal.
Qed.

Lemma soft_devices_refusal r ds : refusal (fst (soft_devices r ds)).
Proof.
  induction ds as [|d ds IH]; [exact I|]. cbn [soft_devices]. pose proof (soft_device_refusal r d) as Hd.
  destruct (soft_device r d) as [[rv|] d']; [done|]. destruct (soft_devices r ds) as [rv ds']. done.
Qed.

(** What a soft transition that was not refused passed. *)
Record soft_ok (r : bsr_resource) (ds : list bsr_device) : Prop := mk_soft_ok {
  so_promotion : (role r).[OLD] <> R_PRIMARY -> (role r).[NEW] = R_PRIMARY -> Forall (fun c => soft_promotion c = None) (connections r);
  so_connections : Forall (fun ic => soft_connection r ic = None) (indexed (connections r));
  so_devices : soft_devices r (devices r) = (None, ds) }.

Lemma refusal_first_error {A} (f : A -> option bsr_state_rv) l rv :
  (forall x, refusal (f x)) -> first_error f l = Some rv -> rv < SS_SUCCESS.
Proof. intros Hf He. apply first_error_some in He as (x & _ & Hx). specialize (Hf x). by rewrite Hx in Hf. Qed.

Lemma is_valid_soft_ok r rv r' :
  is_valid_soft_transition r = (rv, r') -> SS_SUCCESS <= rv ->
  rv = SS_SUCCESS /\ exists ds, soft_ok r ds /\ r' = set_objects r (susp_nod r) (connections r) ds.
Proof.
  unfold is_valid_soft_transition. cbv zeta. intros Hv Hrv.
  destruct (if negb ((role r).[OLD] =? R_PRIMARY) && ((role r).[NEW] =? R_PRIMARY) then _ else _) as [rv1|] eqn:E1.
  { exfalso. case_match; [|done]. apply (refusal_first_error _ _ _ soft_promotion_refusal) in E1. injection Hv as -> _. lia. }
  destruct (first_error (soft_connection r) _) as [rv2|] eqn:E2.
  { exfalso. apply (refusal_first_error _ _ _ (soft_connection_refusal r)) in E2. injection Hv as -> _. lia. }
  pose proof (soft_devices_refusal r (devices r)) as Hd. destruct (soft_devices r (devices r)) as [[rv3|] ds] eqn:E3.
  { exfalso. change (default SS_SUCCESS (Some rv3)) with rv3 in Hv. injection Hv as -> _. change (rv < SS_SUCCESS) in Hd. lia. }
  injection Hv as <- <-. split; [done|]. exists ds. split; [|done]. split; [|by apply first_error_none|done].
  intros Ho Hn. apply first_error_none. rewrite Hn in E1. destruct ((role r).[OLD]) eqn:Er; done.
Qed.

(** *** All states of one kind *)

Definition view_pd (w : which_state) (p : bsr_peer_device) :=
  ((repl_state p).[w], (pd_disk_state p).[w], (resync_susp_user p).[w], (resync_susp_peer p).[w],
   (resync_susp_dependency p).[w], (resync_susp_other_c p).[w]).
Definition view_device (w : which_state) (d : bsr_device) :=
  ((disk_state d).[w], (susp_quorum d).[w], map (view_pd w) (peer_devices d)).
Definition view_conn (w : which_state) (c : bsr_connection) := ((cstate c).[w], (peer_role c).[w], (susp_fen c).[w]).
Definition view (w : which_state) (r : bsr_resource) :=
  ((role r).[w], (susp r).[w], (susp_nod r).[w], map (view_conn w) (connections r), map (view_device w) (devices r)).

Lemma frozen_view r r' : frozen r' = frozen r -> view NOW r' = view NOW r.
Proof.
  unfold frozen, view. intros H. injection H as H1 H2 H3 H4 H5 H6 H7. simpl. rewrite H1, H2, H3. f_equal; [f_equal|].
  - by apply (map_factor frozen_conn (view_conn NOW) (fun x => (x.1.1.1.1.1.1, x.1.1.1.1.1.2, x.1.1.1.1.2))).
  - apply (map_factor frozen_device (view_device NOW) (fun x =>
      (x.1.1.1.1.1, x.1.1.1.1.2, map (fun y => (y.1.1.1.1.1.1.1.2, y.1.1.1.1.1.1.2, y.1.1.1.1.2.1.1.1, y.1.1.1.1.2.1.1.2, y.1.1.1.1.2.1.2, y.1.1.1.1.2.2)) x.2)));
      [|done].
    intros d. unfold view_device, frozen_device. simpl. rewrite map_map. f_equal.
Qed.

Lemma state_has_changed_frozen r : frozen (snd (state_has_changed r)) = frozen r /\
  view NEW (snd (state_has_changed r)) = view NEW r.
Proof.
  unfold state_has_changed. cbv zeta. set (r1 := set_objects _ _ _ _).
  assert (map frozen_device (devices r1) = map frozen_device (devices r)) as H1.
  { unfold r1. simpl. rewrite map_map. apply map_ext. intros d. unfold frozen_device. simpl. f_equal. rewrite map_map. by apply map_ext. }
  assert (map (view_device NEW) (devices r1) = map (view_device NEW) (devices r)) as H2.
  { unfold r1. simpl. rewrite map_map. apply map_ext. intros d. unfold view_device. simpl. f_equal. rewrite map_map. by apply map_ext. }
  assert (frozen r1 = frozen r /\ view NEW r1 = view NEW r) as [H3 H4] by (unfold frozen, view; by rewrite H1, H2).
  by destruct (NEGOTIATION_RESULT_TOUCHED r1).
Qed.

Lemma outdate_allowed_same ps : map frozen_pd (snd (outdate_allowed ps)) = map frozen_pd ps /\
  map (view_pd NEW) (snd (outdate_allowed ps)) = map (view_pd NEW) ps.
Proof.
  induction ps as [|p ps [IH1 IH2]]; [done|]. cbn [outdate_allowed]. case_match; [done|]. cbv zeta.
  destruct (outdate_allowed ps) as [ok ps']. simpl in *. rewrite IH1, IH2. by case_match.
Qed.

Lemma soft_device_same r d : frozen_device (snd (soft_device r d)) = frozen_device d /\
  view_device NEW (snd (soft_device r d)) = view_device NEW d.
Proof.
  unfold soft_device. cbv zeta. case_match; [done|]. case_match; [done|].
  match goal with |- context [let '(_, _) := ?x in _] =>
    assert (frozen_device (snd x) = frozen_device d /\ view_device NEW (snd x) = view_device NEW d) as Hx; [|destruct x as [[] d']] end.
  - case_match; [|done]. destruct (outdate_allowed_same (peer_devices d)) as [H3 H4].
    destruct (outdate_allowed _) as [ok ps]. unfold frozen_device, view_device. simpl in *. by rewrite H3, H4.
  - done.
  - destruct (soft_disk r d'); done.
Qed.

Lemma soft_devices_same r ds : map frozen_device (snd (soft_devices r ds)) = map frozen_device ds /\
  map (view_device NEW) (snd (soft_devices r ds)) = map (view_device NEW) ds.
Proof.
  induction ds as [|d ds [IH1 IH2]]; [done|]. cbn [soft_devices]. destruct (soft_device_same r d) as [H1 H2].
  destruct (soft_device r d) as [[rv|] d']; simpl in *; [by rewrite H1, H2|].
  destruct (soft_devices r ds) as [rv ds']. simpl in *. by rewrite H1, H2, IH1, IH2.
Qed.

Lemma soft_same r : let r' := snd (is_valid_soft_transition r) in
  frozen r' = frozen r /\ view NEW r' = view NEW r /\ connections r' = connections r /\ role r' = role r.
Proof.
  unfold is_valid_soft_transition. cbv zeta.
  destruct (if negb ((role r).[OLD] =? R_PRIMARY) && ((role r).[NEW] =? R_PRIMARY) then first_error soft_promotion (connections r) else None);
    [done|]. destruct (first_error (soft_connection r) _); [done|].
  destruct (soft_devices_same r (devices r)) as [H1 H2]. destruct (soft_devices r (devices r)) as [rv ds].
  simpl in H1, H2. unfold frozen, view. cbn. by rewrite H1, H2.
Qed.

Lemma try_frozen r : frozen (snd (try_state_change r)) = frozen r.
Proof.
  unfold try_state_change. destruct (state_has_changed_frozen r) as [H1 _]. destruct (state_has_changed r) as [[] r1]; simpl in *; [|done].
  destruct (sanitize_frozen r1) as [H2 _]. case_match.
  - destruct (soft_same (sanitize_state r1)) as [H3 _]. congruence.
  - simpl. congruence.
Qed.

Lemma finish_view w r : view w (finish_state_change r) = view w r.
Proof.
  unfold finish_state_change, view. simpl. f_equal. rewrite map_map. apply map_ext. intros d.
  unfold view_device, finish_device. simpl. f_equal. rewrite map_map. by apply map_ext.
Qed.

Lemma commit_pd_view w p : view_pd w (commit_peer_device p) = view_pd NEW p.
Proof. unfold commit_peer_device. cbv zeta. repeat case_match; by destruct w. Qed.

Lemma commit_pd_disk p : pd_disk_state (commit_peer_device p) = commit (pd_disk_state p) /\ pd_node_id (commit_peer_device p) = pd_node_id p.
Proof. unfold commit_peer_device. cbv zeta. repeat case_match; done. Qed.

Lemma commit_view w r : view w (commit_state r) = view NEW r.
Proof.
  unfold commit_state, view. simpl. rewrite !map_map. f_equal; [f_equal|].
  - by destruct w.
  - apply map_ext. intros c. by destruct w.
  - apply map_ext. intros d. unfold view_device, commit_device. simpl. rewrite map_map. f_equal; [by destruct w|].
    apply map_ext. intros p. apply commit_pd_view.
Qed.

(** C34. A state change that is refused, only prepared or aborted leaves every visible
    state (role, connection, replication, disk and suspension states of all objects) as
    it was; one that succeeds makes exactly the sanitized new states visible, all at
    once. *)
Theorem state_change_atomic (r : bsr_resource) :
  let '(rv, r') := end_state_change r in
  state_change_flags r' = 0 /\
  if (rv <? SS_SUCCESS) || has (state_change_flags r) CS_PREPARE || has (state_change_flags r) CS_ABORT
  then view NOW r' = view NOW r
  else rv = fst (try_state_change r) /\ view NOW r' = view NEW (snd (try_state_change r)) /\ view NEW r' = view NOW r'.
Proof.
  unfold end_state_change, ___end_state_change. cbv zeta.
  pose proof (frozen_view _ _ (try_frozen r)) as Hf.
  destruct (has (state_change_flags r) CS_ABORT) eqn:Ea; [split; [done|by rewrite orb_true_r]|].
  change (SS_SUCCESS <=? SS_SUCCESS) with true. cbv iota. destruct (try_state_change r) as [rv r1]. simpl in Hf.
  destruct (rv <? SS_SUCCESS) eqn:Er; [rewrite Er; done|].
  destruct (has (state_change_flags r) CS_PREPARE) eqn:Ep; rewrite Er; [done|]. cbn [orb]. split; [done|]. split; [done|].
  set (r2 := commit_state (finish_state_change r1)).
  assert (forall w, view w (set_state_change_flags (set_objects r2 (susp_nod r2) (connections r2) (map arm_new_uuid (devices r2))) 0) = view w r2) as Hw.
  { intros w. unfold view. simpl. f_equal. rewrite map_map. by apply map_ext. }
  rewrite !Hw. unfold r2. by rewrite !commit_view, finish_view.
Qed.

(** ** Promotion *)

Lemma role_val_inj (a b : bsr_role) : role_val a = role_val b -> a = b.
Proof. by destruct a, b. Qed.

(** Not both ends of the connection are primary, unless that is allowed. *)
Definition exclusive (w : which_state) (r : bsr_resource) (c : bsr_connection) : Prop :=
  match transport_net_conf c with
  | Some nc => two_primaries nc = true \/ ~ ((role r).[w] = R_PRIMARY /\ (peer_role c).[w] = R_PRIMARY)
  | None => True
  end.

Definition single_primary (r : bsr_resource) : Prop := forall c, c ∈ connections r -> exclusive NOW r c.

Lemma frozen_exclusive r r' : frozen r' = frozen r -> single_primary r -> single_primary r'.
Proof.
  unfold frozen. intros H. injection H as H1 _ _ H4 _ _ _. intros Hs c' Hc'.
  apply (list_elem_of_fmap_2 frozen_conn) in Hc'. change (frozen_conn <$> connections r') with (map frozen_conn (connections r')) in Hc'.
  rewrite H4 in Hc'. apply list_elem_of_fmap in Hc' as (c & He & Hc). specialize (Hs c Hc). unfold exclusive in *. simpl in *.
  unfold frozen_conn in He. injection He as _ He2 _ He4 _ _ _. by rewrite He4, H1, He2.
Qed.

Lemma soft_exclusive r ds :
  soft_ok r ds -> single_primary r -> forall c, c ∈ connections r -> exclusive NEW r c.
Proof.
  intros [Hp Hc _] Hs c Hin. specialize (Hs c Hin). unfold exclusive in *. destruct (transport_net_conf c) as [nc|] eqn:En; [|done].
  destruct (two_primaries nc) eqn:Et; [by left|]. right. intros [Hr Hpr]. destruct Hs as [|Hs]; [done|].
  destruct (decide ((role r).[OLD] = R_PRIMARY)) as [Ho|Ho].
  - destruct (indexed_elem _ _ Hin) as [i Hi]. rewrite Forall_forall in Hc. specialize (Hc (i, c) Hi). cbn [soft_connection] in Hc.
    assert (((peer_role c).[OLD] =? R_PRIMARY) = false) as Hold.
    { apply Z.eqb_neq. intros He. apply Hs. split; [done|]. by apply role_val_inj. }
    rewrite Hpr, Hold, En, Et, Ho in Hc. cbv zeta in Hc. change (R_PRIMARY =? R_PRIMARY) with true in Hc.
    cbn [negb andb] in Hc. repeat (case_match; [done|]). done.
  - specialize (Hp Ho Hr). rewrite Forall_forall in Hp. specialize (Hp c Hin). unfold soft_promotion in Hp.
    by rewrite En, Et, Hpr in Hp.
Qed.

Lemma unchanged_roles r r' : state_has_changed r = (false, r') ->
  (role r).[NEW] = (role r).[OLD] /\ role r' = role r /\ connections r' = connections r /\
  forall c, c ∈ connections r -> (peer_role c).[NEW] = (peer_role c).[OLD].
Proof.
  unfold state_has_changed. cbv zeta. cbn [NEGOTIATION_RESULT_TOUCHED set_objects].
  destruct (NEGOTIATION_RESULT_TOUCHED r); [done|]. intros H. injection H as H <-. cbn [role susp susp_nod connections devices set_objects] in *.
  rewrite !orb_false_iff in H. destruct H as ((((H1 & _) & _) & H2) & _). split_and!; try done.
  - apply role_val_inj. apply negb_false_iff, Z.eqb_eq in H1. done.
  - intros c Hc. apply role_val_inj. pose proof (existsb_false _ _ c H2 Hc) as Hf. cbv beta in Hf.
    rewrite !orb_false_iff in Hf. destruct Hf as [[_ Hf] _]. apply negb_false_iff, Z.eqb_eq in Hf. done.
Qed.

(** One voluntary change: it may ask for any new states. *)
Definition soft_step (r r' : bsr_resource) : Prop :=
  exists flags r1 rv, has flags CS_HARD = false /\ frozen r1 = frozen (begin_state_change r flags) /\ end_state_change r1 = (rv, r').

(** The state change was committed; [r2] is what was judged. *)
Definition committed (r2 r' : bsr_resource) : Prop :=
  role r' = commit (role r2) /\ connections r' = map commit_connection (connections r2) /\
  devices r' = map (fun d => arm_new_uuid (commit_device (finish_device r2 d))) (devices r2) /\ opts r' = opts r2.

Lemma end_cases r rv r' :
  end_state_change r = (rv, r') ->
  (frozen r' = frozen (set_state_change_flags r 0) \/ 
   SS_SUCCESS <= rv /\ exists r2, try_state_change r = (rv, r2) /\ committed r2 r').
Proof.
  unfold end_state_change, ___end_state_change. cbv zeta. pose proof (try_frozen r) as Hf.
  assert (forall x y, frozen x = frozen y -> frozen (set_state_change_flags x 0) = frozen (set_state_change_flags y 0)) as Hz.
  { intros x y. unfold frozen. simpl. intros H. by injection H as -> -> -> -> -> -> _. }
  destruct (has (state_change_flags r) CS_ABORT); [intros [= <- <-]; by left|].
  change (SS_SUCCESS <=? SS_SUCCESS) with true. cbv iota. destruct (try_state_change r) as [rv1 r1]. simpl in Hf.
  destruct (rv1 <? SS_SUCCESS) eqn:Er; [intros [= <- <-]; left; by apply Hz|].
  destruct (has (state_change_flags r) CS_PREPARE); [intros [= <- <-]; left; by apply Hz|].
  intros H. injection H as <- <-. right. apply Z.ltb_ge in Er. split; [done|]. exists r1. split; [done|].
  split_and!; try done. simpl. by rewrite !map_map.
Qed.

Lemma begin_frozen r f : frozen (begin_state_change r f) = frozen (set_state_change_flags r f).
Proof.
  unfold frozen, begin_state_change, ___begin_state_change. simpl. rewrite !map_map.
  assert (map (fun x => frozen_device (begin_device x)) (devices r) = map frozen_device (devices r)) as ->; [|done].
  apply map_ext. intros d. unfold frozen_device, begin_device. simpl. f_equal. rewrite map_map. by apply map_ext.
Qed.

Lemma frozen_flags r r' : frozen r' = frozen r -> state_change_flags r' = state_change_flags r.
Proof. intros H. exact (f_equal snd H). Qed.

Lemma try_soft r rv r2 :
  try_state_change r = (rv, r2) -> SS_SUCCESS <= rv -> has (state_change_flags r) CS_HARD = false ->
  state_has_changed r = (false, r2) \/
  exists rs ds, frozen rs = frozen r /\ rs = sanitize_state (snd (state_has_changed r)) /\ soft_ok rs ds /\
    r2 = set_objects rs (susp_nod rs) (connections rs) ds.
Proof.
  unfold try_state_change. intros Ht Hrv Hh. destruct (state_has_changed_frozen r) as [Hf _].
  destruct (state_has_changed r) as [[] r1] eqn:Ec; cbn [negb snd] in *; [|injection Ht as _ ->; by left]. right.
  destruct (sanitize_frozen r1) as [Hf' _]. cbv zeta in Ht. rewrite (frozen_flags r (sanitize_state r1)), Hh in Ht by congruence.
  rewrite andb_true_r in Ht. destruct (Z.leb_spec SS_SUCCESS (is_valid_transition (sanitize_state r1))) as [Hv|Hv].
  - destruct (is_valid_soft_ok _ _ _ Ht Hrv) as (_ & ds & Hok & ->). exists (sanitize_state r1), ds. split_and!; try done. congruence.
  - injection Ht as <- _. lia.
Qed.

Lemma committed_single r2 r' :
  committed r2 r' -> (forall c, c ∈ connections r2 -> exclusive NEW r2 c) -> single_primary r'.
Proof.
  intros (Hr & Hc & _) He c Hin. rewrite Hc in Hin. apply list_elem_of_fmap in Hin as (c2 & -> & Hin). specialize (He c2 Hin).
  unfold exclusive in *. rewrite Hr. done.
Qed.

Lemma soft_step_cases r r' :
  soft_step r r' ->
  (exists f, frozen r' = frozen (set_state_change_flags r f)) \/
  (exists r1 r2 f, frozen r1 = frozen (set_state_change_flags r f) /\ committed r2 r' /\
    (state_has_changed r1 = (false, r2) \/
     exists rs ds, frozen rs = frozen r1 /\ soft_ok rs ds /\ r2 = set_objects rs (susp_nod rs) (connections rs) ds)).
Proof.
  intros (flags & r1 & rv & Hh & Hf & He). rewrite begin_frozen in Hf. destruct (end_cases _ _ _ He) as [H|(Hrv & r2 & Ht & Hc)].
  - left. exists 0. rewrite H. unfold frozen in *. simpl in *. by injection Hf as -> -> -> -> -> -> _.
  - right. exists r1, r2, flags. split_and!; [done|done|].
    destruct (try_soft r1 rv r2 Ht Hrv) as [Hs|(rs & ds & H1 & _ & H2 & H3)]; [by rewrite (frozen_flags _ _ Hf)|by left|].
    right. by exists rs, ds.
Qed.

Lemma soft_step_single r r' : soft_step r r' -> single_primary r -> single_primary r'.
Proof.
  intros Hs Hp. destruct (soft_step_cases r r' Hs) as [[f Hf]|(r1 & r2 & f & Hf & Hc & H)].
  { apply (frozen_exclusive _ _ Hf). exact Hp. }
  assert (single_primary r1) as Hp1 by (apply (frozen_exclusive _ _ Hf); exact Hp).
  apply (committed_single r2 r' Hc). destruct H as [H|(rs & ds & Hrs & Hok & ->)].
  - destruct (unchanged_roles r1 r2 H) as (H1 & H2 & H3 & H4). rewrite H3. intros c Hin. specialize (Hp1 c Hin).
    unfold exclusive in *. rewrite H2, H1, (H4 c Hin). done.
  - apply (soft_exclusive rs ds Hok). apply (frozen_exclusive _ _ Hrs). exact Hp1.
Qed.

(** C31. However many voluntary state changes run, each asking for any new states
    whatsoever, a resource that starts without it never ends up primary beside a primary
    peer on a connection that does not allow two primaries. *)
Theorem no_dual_primary (r r' : bsr_resource) : rtc soft_step r r' -> single_primary r -> single_primary r'.
Proof. induction 1 as [r|r r1 r' Hs _ IH]; [done|]. intros Hp. apply IH. by apply (soft_step_single r r1). Qed.

(** *** What a promotion needs *)

Lemma soft_devices_none r ds ds' :
  soft_devices r ds = (None, ds') ->
  length ds' = length ds /\ forall i d d', ds !! i = Some d -> ds' !! i = Some d' -> soft_device r d = (None, d').
Proof.
  revert ds'. induction ds as [|d ds IH]; intros ds'; cbn [soft_devices].
  { intros [= <-]. by split. }
  destruct (soft_device r d) as [[rv|] d1] eqn:Ed; [done|]. destruct (soft_devices r ds) as [rv ds1]. intros [= -> <-].
  destruct (IH ds1 eq_refl) as [Hl Hi]. split; [simpl; lia|]. intros [|i] d0 d' H1 H2; simpl in *; [congruence|by eapply Hi].
Qed.

(** A device that passed, with only a flag cleared. *)
Lemma soft_device_none r d d' :
  soft_device r d = (None, d') ->
  soft_disk r d' = None /\ disk_state d' = disk_state d /\ ldev_md d' = ldev_md d /\
  map pd_disk_state (peer_devices d') = map pd_disk_state (peer_devices d).
Proof.
  unfold soft_device. cbv zeta. case_match; [done|]. case_match; [done|].
  match goal with |- context [let '(_, _) := ?x in _] =>
    assert (disk_state (snd x) = disk_state d /\ ldev_md (snd x) = ldev_md d /\
      map pd_disk_state (peer_devices (snd x)) = map pd_disk_state (peer_devices d)) as Hx; [|destruct x as [[] d1]; [done|]] end.
  - case_match; [|done]. cut (map pd_disk_state (snd (outdate_allowed (peer_devices d))) = map pd_disk_state (peer_devices d)).
    { by destruct (outdate_allowed _). }
    generalize (peer_devices d). intros ps. induction ps as [|p ps IH]; [done|]. cbn [outdate_allowed]. case_match; [done|]. cbv zeta.
    destruct (outdate_allowed ps) as [ok ps']. simpl in *. rewrite IH. by case_match.
  - simpl in Hx. destruct (soft_disk r d1) eqn:Es; [done|]. intros [= _ <-]. done.
Qed.

(** The data a primary works on: not outdated, and up to date somewhere. *)
Definition usable (w : which_state) (d : bsr_device) : Prop :=
  D_OUTDATED < (disk_state d).[w] /\ any_disk_up_to_date d w = true.

Lemma soft_disk_usable r d :
  soft_disk r d = None -> (role r).[OLD] <> R_PRIMARY -> (role r).[NEW] = R_PRIMARY ->
  usable NEW d /\ (quorum (opts r) <> QOU_OFF -> get_ldev d = true -> fst (calc_quorum (opts r) d NEW) = true).
Proof.
  unfold soft_disk. cbv zeta. intros Hs Ho Hn. rewrite Hn in Hs. change (R_PRIMARY =? R_PRIMARY) with true in Hs.
  assert (((role r).[OLD] =? R_PRIMARY) = false) as Ho' by (destruct ((role r).[OLD]); done). rewrite Ho' in Hs.
  cbn [negb andb] in Hs. destruct (any_disk_up_to_date d NEW) eqn:Ea; [|done]. cbn [negb] in Hs.
  destruct (Z.leb_spec ((disk_state d).[NEW]) D_OUTDATED) as [|Hd]; [done|]. rewrite andb_false_r in Hs. split; [done|].
  intros Hq Hg. rewrite (proj2 (Z.eqb_neq _ _) Hq), Hg in Hs. cbn [negb andb] in Hs. by destruct (fst _).
Qed.

(** Setting and clearing other bits does not matter. *)
Lemma has_lor_other x m n : 0 <= n -> 0 <= m -> m <> n -> has (Z.lor x (Z.shiftl 1 m)) (Z.shiftl 1 n) = has x (Z.shiftl 1 n).
Proof. intros. rewrite !has_bit, Z.lor_spec, Z.shiftl_1_l, Z.pow2_bits_false by done. apply orb_false_r. Qed.

Lemma has_lor_same x n : 0 <= n -> has (Z.lor x (Z.shiftl 1 n)) (Z.shiftl 1 n) = true.
Proof. intros. rewrite has_bit, Z.lor_spec, Z.shiftl_1_l, Z.pow2_bits_true by done. apply orb_true_r. Qed.

Lemma has_ldiff_other x y n : 0 <= n -> Z.testbit y n = false -> has (Z.ldiff x y) (Z.shiftl 1 n) = has x (Z.shiftl 1 n).
Proof. intros Hn Hy. rewrite !has_bit, Z.ldiff_spec, Hy by done. apply andb_true_r. Qed.

Lemma has_ldiff_same x y n : 0 <= n -> Z.testbit y n = true -> has (Z.ldiff x y) (Z.shiftl 1 n) = false.
Proof. intros Hn Hy. rewrite has_bit, Z.ldiff_spec, Hy by done. apply andb_false_r. Qed.

Definition md_member (m : bsr_peer_md) := (bitmap_index m, has (peer_md_flags m) MDF_NODE_EXISTS).

Lemma finish_peer_mdf_exists r p x : has (finish_peer_mdf r p x) MDF_NODE_EXISTS = has x MDF_NODE_EXISTS.
Proof.
  unfold finish_peer_mdf, MDF_NODE_EXISTS, MDF_PEER_CONNECTED, MDF_PEER_OUTDATED, MDF_PEER_FENCING, MDF_PEER_DEVICE_SEEN. cbv zeta.
  repeat case_match; rewrite ?has_lor_other by lia; (apply has_ldiff_other; [lia|reflexivity]).
Qed.

Lemma finish_md_member r ps l : map md_member (foldl (finish_peer_md r) l ps) = map md_member l.
Proof.
  revert l. induction ps as [|p ps IH]; intros l; [done|]. cbn [foldl]. rewrite IH. unfold finish_peer_md. case_match; [|done].
  apply map_alter_same. intros m. unfold md_member. simpl. by rewrite finish_peer_mdf_exists.
Qed.

Lemma find_map {A B} (f : B -> bool) (g : A -> B) l : List.find f (map g l) = option_map g (List.find (fun x => f (g x)) l).
Proof. induction l as [|x l IH]; simpl; [done|]. by destruct (f (g x)). Qed.

Lemma find_ext {A} (f g : A -> bool) l : (forall x, f x = g x) -> List.find f l = List.find g l.
Proof. intros Hf. induction l as [|x l IH]; simpl; [done|]. by rewrite Hf, IH. Qed.

(** Quorum only depends on who exists and on the disk states seen. *)
Lemma calc_quorum_ext o d d' w w' :
  (forall id, md_member (peer_md_of d' id) = md_member (peer_md_of d id)) ->
  (forall id, option_map (fun p => (pd_disk_state p).[w']) (peer_device_by_node_id d' id) =
              option_map (fun p => (pd_disk_state p).[w]) (peer_device_by_node_id d id)) ->
  calc_quorum o d' w' = calc_quorum o d w.
Proof.
  intros Hm Hd. unfold calc_quorum.
  assert (forall l t, foldl (count_node o d' w') t l = foldl (count_node o d w) t l) as ->; [|done].
  intros l. induction l as [|id l IH]; intros t; [done|]. cbn [foldl]. rewrite IH. f_equal. unfold count_node.
  case_match; [done|]. cbv zeta. specialize (Hm id). unfold md_member in Hm. injection Hm as -> ->. case_match; [done|].
  specialize (Hd (Z.of_nat id)). destruct (peer_device_by_node_id d' _), (peer_device_by_node_id d _); simpl in Hd; try done.
  by injection Hd as ->.
Qed.

Lemma committed_quorum o r d :
  calc_quorum o (arm_new_uuid (commit_device (finish_device r d))) NOW = calc_quorum o d NEW.
Proof.
  apply calc_quorum_ext.
  - intros id. unfold peer_md_of. rewrite <- !(map_nth md_member). f_equal. simpl. case_match; [|done]. simpl. apply finish_md_member.
  - intros id. unfold peer_device_by_node_id. simpl. rewrite map_map, find_map.
    assert (forall p, pd_node_id (commit_peer_device (finish_peer_device r d p)) = pd_node_id p) as Hid by (intros p; exact (proj2 (commit_pd_disk (finish_peer_device r d p)))).
    rewrite (find_ext _ (fun p => pd_node_id p =? id)) by (intros; by rewrite Hid).
    destruct (List.find _ (peer_devices d)) as [p|]; [|done]. cbn [option_map].
    by rewrite (proj1 (commit_pd_disk (finish_peer_device r d p))).
Qed.

Lemma committed_usable r d : usable NEW d -> usable NOW (arm_new_uuid (commit_device (finish_device r d))).
Proof.
  unfold usable, any_disk_up_to_date. simpl. intros [H1 H2]. split; [done|]. rewrite <- H2. f_equal. rewrite map_map.
  clear. induction (peer_devices d) as [|p ps IH]; [done|]. cbn [map existsb].
  by rewrite IH, (proj1 (commit_pd_disk (finish_peer_device r d p))).
Qed.

(** C32. A voluntary state change that makes the resource primary leaves every device
    with its own disk better than outdated and an up-to-date disk in reach, and, with
    quorum configured and a disk attached, with quorum. *)
Theorem promotion_needs_data (r r' : bsr_resource) (i : nat) (d' : bsr_device) :
  soft_step r r' -> now (role r) <> R_PRIMARY -> now (role r') = R_PRIMARY -> devices r' !! i = Some d' ->
  usable NOW d' /\
  (quorum (opts r') <> QOU_OFF -> forall d, devices r !! i = Some d -> get_ldev d = true ->
   fst (calc_quorum (opts r') d' NOW) = true).
Proof.
  intros Hs Hr Hr' Hd'. destruct (soft_step_cases r r' Hs) as [[f Hf]|(r1 & r2 & f & Hf & Hc & H)].
  { exfalso. apply Hr. rewrite <- Hr'. symmetry. exact (f_equal (fun x => x.1.1.1.1.1.1) Hf). }
  pose proof (f_equal (fun x => x.1.1.1.1.1.1) Hf) as Hr1. simpl in Hr1. destruct Hc as (Hc1 & _ & Hc3 & Hc4).
  rewrite Hc1 in Hr'. destruct H as [H|(rs & ds & Hrs & Hok & ->)].
  { exfalso. destruct (unchanged_roles r1 r2 H) as (H1 & H2 & _). apply Hr. rewrite <- Hr1, <- Hr'. simpl. by rewrite H2. }
  pose proof (f_equal (fun x => x.1.1.1.1.1.1) Hrs) as Hr2. simpl in Hr2, Hr'.
  rewrite Hc3 in Hd'. apply list_lookup_fmap_Some in Hd' as (d2 & -> & Hd2). simpl in Hd2.
  destruct (soft_devices_none _ _ _ (so_devices _ _ Hok)) as [Hlen Hsd].
  destruct (lookup_lt_is_Some_2 (devices rs) i) as [d3 Hd3]; [rewrite <- Hlen; by eapply lookup_lt_Some|].
  destruct (soft_device_none _ _ _ (Hsd i d3 d2 Hd3 Hd2)) as (Hsk & Hds & _).
  destruct (soft_disk_usable rs d2 Hsk) as [Hu Hq]; [simpl; congruence|done|]. split; [by apply committed_usable|].
  rewrite Hc4. intros Hqo d Hd Hg. rewrite committed_quorum. apply Hq; [done|].
  assert (map frozen_device (devices rs) = map frozen_device (devices r)) as Hfd.
  { transitivity (map frozen_device (devices r1)); [exact (f_equal (fun x => x.1.1.2) Hrs)|exact (f_equal (fun x => x.1.1.2) Hf)]. }
  apply (f_equal (lookup i)) in Hfd. rewrite !list_lookup_fmap, Hd, Hd3 in Hfd. simpl in Hfd.
  unfold get_ldev in *. rewrite Hds. simpl in *. injection Hfd as Hfd. 
  assert (now (disk_state d3) = now (disk_state d)) as -> by congruence. done.
Qed.

(** ** Quorum *)

(** How [calc_quorum] counts a node. *)
Inductive node_class := N_absent | N_vote | N_outdated | N_unknown.

Global Instance node_class_eq_dec : EqDecision node_class.
Proof. solve_decision. Defined.

Definition classify (o : res_opts) (d : bsr_device) (w : which_state) (id : nat) : node_class :=
  if Z.of_nat id =? node_id o then N_vote
  else if (bitmap_index (peer_md_of d id) =? -1) && negb (has (peer_md_flags (peer_md_of d id)) MDF_NODE_EXISTS) then N_absent
  else match peer_device_by_node_id d (Z.of_nat id) with
       | None => N_unknown
       | Some p => match (pd_disk_state p).[w] with
                   | D_OUTDATED => N_outdated
                   | D_UNKNOWN | D_DISKLESS | D_ATTACHING | D_DETACHING | D_FAILED => N_unknown
                   | _ => N_vote
                   end
       end.

Definition tallied (f : nat -> node_class) (c : node_class) (l : list nat) : Z := Z.of_nat (length (filter (fun id => f id = c) l)).

Lemma tallied_cons f c id l : tallied f c (id :: l) = (if decide (f id = c) then 1 else 0) + tallied f c l.
Proof. unfold tallied. rewrite filter_cons. case_decide; cbn [length]; lia. Qed.

Lemma count_node_class o d w t id :
  count_node o d w t id =
  mk_tally (t_votes t + if decide (classify o d w id = N_vote) then 1 else 0)
           (t_outdated t + if decide (classify o d w id = N_outdated) then 1 else 0)
           (t_unknown t + if decide (classify o d w id = N_unknown) then 1 else 0).
Proof.
  unfold count_node, classify. cbv zeta. destruct t as [v u k]. simpl.
  destruct (Z.of_nat id =? node_id o); [simpl; by rewrite !Z.add_0_r|].
  destruct (_ && _); [simpl; by rewrite !Z.add_0_r|].
  destruct (peer_device_by_node_id d (Z.of_nat id)) as [p|]; [|simpl; by rewrite !Z.add_0_r].
  destruct ((pd_disk_state p).[w]); simpl; by rewrite !Z.add_0_r.
Qed.

Lemma count_nodes o d w l t :
  let t' := foldl (count_node o d w) t l in
  t_votes t' = t_votes t + tallied (classify o d w) N_vote l /\
  t_outdated t' = t_outdated t + tallied (classify o d w) N_outdated l /\
  t_unknown t' = t_unknown t + tallied (classify o d w) N_unknown l.
Proof.
  revert t. induction l as [|id l IH]; intros t; cbv zeta; [unfold tallied; simpl; lia|].
  cbn [foldl]. destruct (IH (count_node o d w t id)) as (H1 & H2 & H3). rewrite H1, H2, H3, count_node_class, !tallied_cons. simpl. lia.
Qed.

(** Two classifications with the same members and no common vote. *)
Lemma disjoint_votes f g l :
  (forall id, id ∈ l -> (f id = N_absent <-> g id = N_absent)) -> (forall id, id ∈ l -> ~ (f id = N_vote /\ g id = N_vote)) ->
  let members f := tallied f N_vote l + tallied f N_outdated l + tallied f N_unknown l in
  members f = members g /\ tallied f N_vote l + tallied g N_vote l <= members f.
Proof.
  intros Ha Hv. cbv zeta. induction l as [|id l IH]; [done|]. rewrite !tallied_cons.
  destruct IH as [I1 I2]; [intros; apply Ha, elem_of_cons; by right|intros; apply Hv, elem_of_cons; by right|].
  specialize (Ha id ltac:(apply elem_of_cons; by left)). specialize (Hv id ltac:(apply elem_of_cons; by left)).
  destruct Ha as [Ha1 Ha2]. destruct (f id), (g id); simpl; try (split; lia); exfalso;
    first [discriminate (Ha1 eq_refl)|discriminate (Ha2 eq_refl)|by apply Hv].
Qed.

Lemma tallied_pos f c l id : id ∈ l -> f id = c -> 0 < tallied f c l.
Proof.
  intros Hin Hf. assert (id ∈ filter (fun id => f id = c) l) as Hi by (apply list_elem_of_filter; done).
  unfold tallied. destruct (filter _ _); [by apply elem_of_nil in Hi|]. cbn [length]. lia.
Qed.

(** C33. With majority quorum, two nodes that know the same members, count no node in
    common as a vote and each miss some node cannot both have quorum. *)
Theorem quorum_exclusive (o o' : res_opts) (d d' : bsr_device) (w w' : which_state) (u u' : nat) :
  quorum o = QOU_MAJORITY -> quorum o' = QOU_MAJORITY ->
  (forall id, (id < BSR_NODE_ID_MAX)%nat -> (classify o d w id = N_absent <-> classify o' d' w' id = N_absent)) ->
  (forall id, (id < BSR_NODE_ID_MAX)%nat -> ~ (classify o d w id = N_vote /\ classify o' d' w' id = N_vote)) ->
  (u < BSR_NODE_ID_MAX)%nat -> classify o d w u = N_unknown ->
  (u' < BSR_NODE_ID_MAX)%nat -> classify o' d' w' u' = N_unknown ->
  fst (calc_quorum o d w) = false \/ fst (calc_quorum o' d' w') = false.
Proof.
  intros Hq Hq' Ha Hv Hu Hcu Hu' Hcu'. unfold calc_quorum. set (l := seq 0 BSR_NODE_ID_MAX).
  assert (forall id, id ∈ l <-> (id < BSR_NODE_ID_MAX)%nat) as Hl by (intros; unfold l; rewrite elem_of_seq; lia).
  destruct (count_nodes o d w l (mk_tally 0 0 0)) as (V1 & O1 & U1). destruct (count_nodes o' d' w' l (mk_tally 0 0 0)) as (V2 & O2 & U2).
  cbn [t_votes t_outdated t_unknown] in *. rewrite Z.add_0_l in *.
  destruct (disjoint_votes (classify o d w) (classify o' d' w') l) as [M1 M2]; [intros id; rewrite Hl; apply Ha|intros id; rewrite Hl; apply Hv|].
  pose proof (tallied_pos _ _ l u (proj2 (Hl u) Hu) Hcu) as P1. pose proof (tallied_pos _ _ l u' (proj2 (Hl u') Hu') Hcu') as P2.
  rewrite Hq, Hq', V1, O1, U1, V2, O2, U2. cbv zeta. cbn [fst]. change (QOU_MAJORITY =? QOU_MAJORITY) with true. cbv iota.
  rewrite !(proj2 (Z.eqb_neq _ _)) by lia. cbn [negb].
  destruct (Z.leb_spec ((tallied (classify o d w) N_outdated l + tallied (classify o d w) N_unknown l + tallied (classify o d w) N_vote l) / 2 + 1)
    (tallied (classify o d w) N_vote l)) as [Hle|]; [right|by left]. apply Z.leb_gt.
  pose proof (Z.div_mod (tallied (classify o d w) N_outdated l + tallied (classify o d w) N_unknown l + tallied (classify o d w) N_vote l) 2 ltac:(lia)).
  pose proof (Z.mod_pos_bound (tallied (classify o d w) N_outdated l + tallied (classify o d w) N_unknown l + tallied (classify o d w) N_vote l) 2 ltac:(lia)).
  pose proof (Z.div_mod (tallied (classify o' d' w') N_outdated l + tallied (classify o' d' w') N_unknown l + tallied (classify o' d' w') N_vote l) 2 ltac:(lia)).
  pose proof (Z.mod_pos_bound (tallied (classify o' d' w') N_outdated l + tallied (classify o' d' w') N_unknown l + tallied (classify o' d' w') N_vote l) 2 ltac:(lia)).
  lia.
Qed.

(** ** What the meta data remember *)

(** Evaluates the bits of constants. *)
Ltac closed_bits :=
  repeat match goal with
         | |- context [Z.testbit (Z.shiftl 1 ?a) ?b] =>
             let v := eval vm_compute in (Z.testbit (Z.shiftl 1 a) b) in change (Z.testbit (Z.shiftl 1 a) b) with v
         | |- context [Z.testbit (Z.lor ?a ?b) ?c] =>
             let v := eval vm_compute in (Z.testbit (Z.lor a b) c) in change (Z.testbit (Z.lor a b) c) with v
         end;
  rewrite ?andb_true_r, ?orb_false_r, ?andb_false_r, ?orb_true_r; cbn [negb orb andb]; rewrite ?andb_false_r.

Lemma finish_mdf_bits r d x :
  D_INCONSISTENT <= (disk_state d).[NEW] ->
  has (finish_mdf r d x) MDF_CONSISTENT = (D_INCONSISTENT <? (disk_state d).[NEW]) /\
  has (finish_mdf r d x) MDF_WAS_UP_TO_DATE = (D_OUTDATED <? (disk_state d).[NEW]) /\
  has (finish_mdf r d x) MDF_PRIMARY_IND = ((role r).[NEW] =? R_PRIMARY) /\
  has (finish_mdf r d x) MDF_CRASHED_PRIMARY = CRASHED_PRIMARY d.
Proof.
  intros Hd. unfold finish_mdf. cbv zeta. rewrite (proj2 (Z.leb_le _ _) Hd).
  assert (((disk_state d).[NEW] =? D_DETACHING) = false) as -> by (apply Z.eqb_neq; change (disk_val D_INCONSISTENT) with 5 in Hd; change (disk_val D_DETACHING) with 2; lia).
  cbn [negb]. rewrite andb_true_r.
  unfold MDF_CONSISTENT, MDF_WAS_UP_TO_DATE, MDF_PRIMARY_IND, MDF_CRASHED_PRIMARY, MDF_AL_CLEAN.
  destruct (CRASHED_PRIMARY d), ((role r).[NEW] =? R_PRIMARY), (D_INCONSISTENT <? (disk_state d).[NEW]), (D_OUTDATED <? (disk_state d).[NEW]);
    split_and!; rewrite !has_bit, ?Z.lor_spec, ?Z.ldiff_spec, ?Z.lor_spec, ?Z.ldiff_spec by lia; closed_bits; done.
Qed.

(** The flags finish_state_change writes to the meta data give the committed disk
    state back when they are read by disk_state_from_md (consistent and up to date being
    told apart by the peers), and the primary indicator records the role. *)
Theorem md_remembers_disk (r : bsr_resource) (d : bsr_device) :
  get_ldev d = true -> D_INCONSISTENT <= (disk_state d).[NEW] ->
  let d' := arm_new_uuid (commit_device (finish_device r d)) in
  match (disk_state d').[NOW] with
  | D_INCONSISTENT => disk_state_from_md d' = D_INCONSISTENT
  | D_OUTDATED => disk_state_from_md d' = D_OUTDATED
  | _ => disk_state_from_md d' = D_CONSISTENT \/ disk_state_from_md d' = D_UP_TO_DATE
  end /\ has (md_flags (ldev_md d')) MDF_PRIMARY_IND = ((role r).[NEW] =? R_PRIMARY).
Proof.
  intros Hg Hd d'. destruct (finish_mdf_bits r d (md_flags (ldev_md d)) Hd) as (H1 & H2 & H3 & _).
  assert (((disk_state d).[NEW] =? D_NEGOTIATING) = false) as Hn.
  { apply Z.eqb_neq. change (disk_val D_INCONSISTENT) with 5 in Hd. change (disk_val D_NEGOTIATING) with 4. lia. }
  assert (md_flags (ldev_md d') = finish_mdf r d (md_flags (ldev_md d))) as Hm.
  { unfold d', finish_device. simpl. simpl in Hn. by rewrite Hn, Hg. }
  unfold disk_state_from_md. rewrite Hm, H1, H2, H3. split; [|done]. change ((disk_state d').[NOW]) with ((disk_state d).[NEW]).
  destruct ((disk_state d).[NEW]); simpl in *; try done; destruct (may_be_up_to_date d'); auto.
Qed.

(** state_has_changed clears UUID_FLAG_GOT_STABLE of every peer device, so
    sanitize_state, which only runs after it, never sees that flag set. *)
Theorem got_stable_never_seen (r : bsr_resource) (d : bsr_device) (p : bsr_peer_device) :
  d ∈ devices (snd (state_has_changed r)) -> p ∈ peer_devices d -> has (uuid_flags p) UUID_FLAG_GOT_STABLE = false.
Proof.
  unfold state_has_changed. cbv zeta. intros Hd Hp. set (r1 := set_objects r _ _ _) in Hd.
  assert (d ∈ devices r1) as Hd1 by (by destruct (NEGOTIATION_RESULT_TOUCHED r1)). clear Hd. unfold r1 in Hd1. simpl in Hd1.
  apply list_elem_of_fmap in Hd1 as (d0 & -> & _). simpl in Hp. apply list_elem_of_fmap in Hp as (p0 & -> & _).
  by apply (has_ldiff_same _ _ 6).
Qed.

(** ** Witnesses *)

(** Two connected nodes, both up to date and secondary. *)
Definition demo_conn : bsr_connection :=
  mk_connection (mk2 C_CONNECTED C_CONNECTED) (mk2 R_SECONDARY R_SECONDARY) (mk2 false false) (Some (mk_net_conf false false)) 0 114 1.
Definition demo_peer : bsr_peer_device :=
  mk_peer_device 0 1 0 (mk2 L_ESTABLISHED L_ESTABLISHED) (mk2 D_UP_TO_DATE D_UP_TO_DATE) L_OFF (mk2 false false) (mk2 false false)
    (mk2 false false) (mk2 false false) false true false false false true 32 0 0 0.
Definition demo_md (me : Z) : bsr_md :=
  mk_md me (Z.lor MDF_CONSISTENT MDF_WAS_UP_TO_DATE)
    ([mk_peer_md 0 0 MDF_NODE_EXISTS; mk_peer_md 0 0 MDF_NODE_EXISTS; mk_peer_md 0 0 MDF_NODE_EXISTS] ++ replicate 29 (mk_peer_md (-1) 0 0)).
Definition demo_device : bsr_device :=
  mk_device (mk2 D_UP_TO_DATE D_UP_TO_DATE) (mk2 false false) 0 0 false false false false (demo_md 0) [demo_peer].
Definition demo : bsr_resource :=
  mk_resource (mk2 R_SECONDARY R_SECONDARY) (mk2 false false) (mk2 false false) [demo_conn] [demo_device]
    (mk_res_opts 0 QOU_OFF OND_IO_ERROR) 0 false.

(** The local change of [change_role]. *)
Definition demo_promoted : bsr_resource := snd (end_state_change (__change_role (begin_state_change demo 0) R_PRIMARY false)).

Lemma demo_step : soft_step demo demo_promoted.
Proof.
  exists 0, (__change_role (begin_state_change demo 0) R_PRIMARY false), SS_SUCCESS. split_and!; vm_compute; reflexivity.
Qed.

Lemma demo_single : single_primary demo.
Proof. intros c Hc. apply list_elem_of_singleton in Hc as ->. right. by intros [? _]. Qed.

Lemma no_dual_primary_witness : single_primary demo_promoted.
Proof. apply (no_dual_primary demo demo_promoted); [apply rtc_once, demo_step|apply demo_single]. Defined.

Lemma promotion_needs_data_witness :
  exists d', devices demo_promoted !! 0%nat = Some d' /\ usable NOW d'.
Proof.
  eexists. split; [vm_compute; reflexivity|].
  apply (promotion_needs_data demo demo_promoted 0); [apply demo_step|discriminate|vm_compute; reflexivity|vm_compute; reflexivity].
Defined.

(** Three nodes: node 0 is alone, node 1 sees node 2. *)
Definition with_peer (me peer : Z) (ds : bsr_disk_state) : bsr_device :=
  mk_device (mk2 D_UP_TO_DATE D_UP_TO_DATE) (mk2 false false) 0 0 false false false false (demo_md me)
    [set_pd_disk_states (mk_peer_device 0 peer 0 (mk2 L_ESTABLISHED L_ESTABLISHED) (mk2 D_UP_TO_DATE D_UP_TO_DATE) L_OFF
       (mk2 false false) (mk2 false false) (mk2 false false) (mk2 false false) false true false false false true 32 0 0 0) (mk2 ds ds)].

Lemma quorum_exclusive_witness :
  fst (calc_quorum (mk_res_opts 0 QOU_MAJORITY OND_IO_ERROR) (with_peer 0 1 D_UNKNOWN) NOW) = false \/
  fst (calc_quorum (mk_res_opts 1 QOU_MAJORITY OND_IO_ERROR) (with_peer 1 2 D_UP_TO_DATE) NOW) = false.
Proof.
  apply (quorum_exclusive _ _ (with_peer 0 1 D_UNKNOWN) (with_peer 1 2 D_UP_TO_DATE) NOW NOW 1 0);
    [reflexivity|reflexivity| | |unfold BSR_NODE_ID_MAX; lia|vm_compute; reflexivity|unfold BSR_NODE_ID_MAX; lia|vm_compute; reflexivity].
  - intros id Hid. do 32 (destruct id as [|id]; [vm_compute; split; intros; first [assumption|discriminate]|]). unfold BSR_NODE_ID_MAX in Hid. lia.
  - intros id Hid. do 32 (destruct id as [|id]; [vm_compute; intros [? ?]; discriminate|]). unfold BSR_NODE_ID_MAX in Hid. lia.
Defined.

Lemma md_remembers_disk_witness :
  disk_state_from_md (arm_new_uuid (commit_device (finish_device demo (__change_disk_state demo_device D_OUTDATED)))) = D_OUTDATED.
Proof. apply (md_remembers_disk demo (__change_disk_state demo_device D_OUTDATED)); [reflexivity|vm_compute; discriminate]. Defined.

Lemma got_stable_never_seen_witness :
  exists d p, d ∈ devices (snd (state_has_changed demo)) /\ p ∈ peer_devices d /\ has (uuid_flags p) UUID_FLAG_GOT_STABLE = false.
Proof.
  eexists _, _. split; [apply list_elem_of_here|]. split; [apply list_elem_of_here|].
  eapply (got_stable_never_seen demo); apply list_elem_of_here.
Defined.

End StateChange.
