(* ===== verification/StateSanitize.v ===== *)
(** * Sanitized states (src/bsr/bsr_state.c, [sanitize_state])

    What holds of the new states after [sanitize_state]: the peer disks fit the
    replication states, the own disk is known, and a disk whose primary may
    have crashed is not called up to date. *)

From S2P Require Import Prelude State StateChange.

Module StateSanitize.
Import State StateChange.
Open Scope state_scope.

(** ** Sanitized states *)

(** The last step of a device. *)
Lemma crashed_step s :
  s_disk (if s_disk s NEW =? D_UP_TO_DATE then on_dev s (fun d => __change_disk_state d D_CONSISTENT) else s) NEW <> D_UP_TO_DATE.
Proof. destruct (Z.eqb_spec (s_disk s NEW) D_UP_TO_DATE) as [He|He]; [done|]. intros H. by rewrite H in He. Qed.

Lemma device_end_crashed r s a :
  (role r).[NOW] = R_SECONDARY -> s_disk (device_end r true 0 s a) NEW <> D_UP_TO_DATE.
Proof.
  intros Hr. unfold device_end. rewrite Hr. change (true && (0 =? 0)) with true. change (R_SECONDARY =? R_SECONDARY) with true.
  rewrite andb_true_r. apply crashed_step.
Qed.

Lemma sanitize_devices_forall r crashed prim (P : bsr_device -> Prop) ds conns nod :
  (forall conns nod d, d ∈ ds -> P (sanitize_device r crashed prim conns nod d).2) ->
  Forall P (sanitize_devices r crashed prim conns nod ds).2.
Proof.
  revert conns nod. induction ds as [|d ds IH]; intros conns nod HP; cbn [sanitize_devices]; [constructor|].
  pose proof (HP conns nod d ltac:(apply elem_of_cons; by left)) as Hd.
  destruct (sanitize_device r crashed prim conns nod d) as [[c1 n1] d1].
  specialize (IH c1 n1 ltac:(intros; apply HP, elem_of_cons; by right)).
  destruct (sanitize_devices r crashed prim c1 n1 ds) as [[c2 n2] ds2]. by constructor.
Qed.

Lemma sanitize_state_forall r (P : bsr_device -> Prop) :
  let conns := map sanitize_connection (connections r) in
  let crashed := existsb (crashed_primary (state_change_flags r)) conns in
  let prim := Z.of_nat (length (filter (fun c => new (peer_role c) = R_PRIMARY) conns)) in
  (forall conns nod d, d ∈ devices r -> P (sanitize_device r crashed prim conns nod d).2) ->
  Forall P (devices (sanitize_state r)).
Proof.
  intros conns crashed prim HP. pose proof (sanitize_devices_forall r crashed prim P (devices r) conns (susp_nod r) HP) as H.
  unfold sanitize_state. fold conns crashed prim. cbv zeta. destruct (sanitize_devices _ _ _ _ _ _) as [[c n] ds]. exact H.
Qed.

(** C36. When the connection to a primary is lost by a failure and no other primary
    stays connected, no disk of a secondary is called up to date any more. *)
Theorem crashed_primary_consistent (r : bsr_resource) (c : bsr_connection) :
  (role r).[NOW] = R_SECONDARY -> c ∈ connections r -> crashed_primary (state_change_flags r) c = true ->
  (forall c', c' ∈ connections r -> (cstate c').[NEW] = C_CONNECTED -> (peer_role c').[NEW] <> R_PRIMARY) ->
  Forall (fun d => (disk_state d).[NEW] <> D_UP_TO_DATE) (devices (sanitize_state r)).
Proof.
  intros Hr Hc Hcr Hno. apply sanitize_state_forall. set (conns := map sanitize_connection (connections r)). intros conns' nod d _.
  assert (existsb (crashed_primary (state_change_flags r)) conns = true) as ->.
  { apply existsb_exists. exists (sanitize_connection c). split; [by apply in_map, list_elem_of_In|].
    rewrite <- Hcr. unfold sanitize_connection. by case_match. }
  assert (filter (fun c => new (peer_role c) = R_PRIMARY) conns = []) as ->.
  { unfold conns. clear -Hno. induction (connections r) as [|c l IH]; [done|]. cbn [map].
    rewrite filter_cons_False; [apply IH; intros; apply Hno; [apply elem_of_cons; by right|done]|].
    unfold sanitize_connection. case_match eqn:E; [done|]. apply Hno; [apply elem_of_cons; by left|].
    by destruct ((cstate c).[NEW]). }
  destruct (sanitize_device_eq r true (Z.of_nat (length (@nil bsr_connection))) conns' nod d) as (nod' & _ & He).
  destruct (device_loop _ _) as [s a]. rewrite He. by apply device_end_crashed.
Qed.

(** *** Peer disks *)

(** The peer disk states a sanitized replication state goes with. *)
Definition peer_range (l : bsr_repl_state) (ds : bsr_disk_state) : bool :=
  match l with
  | L_OFF => (ds =? D_OUTDATED) || (ds =? D_UNKNOWN)
  | L_ESTABLISHED => true
  | L_STARTING_SYNC_T => D_FAILED <? ds
  | L_WF_BITMAP_T | L_PAUSED_SYNC_T | L_WF_SYNC_UUID | L_BEHIND | L_SYNC_TARGET => D_OUTDATED <=? ds
  | L_VERIFY_S | L_VERIFY_T => ds =? D_UP_TO_DATE
  | L_WF_BITMAP_S | L_PAUSED_SYNC_S | L_STARTING_SYNC_S | L_AHEAD | L_SYNC_SOURCE => (D_INCONSISTENT <=? ds) && (ds <=? D_CONSISTENT)
  end.

Definition range := bsr_repl_state -> bsr_disk_state -> bool.
Definition range_ok (R : range) (s : san) (j : nat) : bool := R (s_repl s j NEW) (s_pdsk s j NEW).
Definition n_peers (s : san) : nat := length (peer_devices (s_dev s)).

Lemma nth_alter {A} (f : A -> A) i j (l : list A) x :
  nth j (alter f i l) x = if decide (j = i /\ (i < length l)%nat) then f (nth i l x) else nth j l x.
Proof.
  revert i j. induction l as [|y l IH]; intros i j.
  - rewrite decide_False by (simpl; lia). by destruct i.
  - destruct i as [|i], j as [|j]; try done.
    change (alter f (S i) (y :: l)) with (y :: alter f i l). cbn [nth length]. rewrite IH. do 2 case_decide; try done; lia.
Qed.

Lemma s_pd_on_pd s i f j :
  s_pd (on_pd s i f) j = if decide (j = i /\ (i < n_peers s)%nat) then f (s_pd s i) else s_pd s j.
Proof. apply nth_alter. Qed.

(** No peer device leaves its range. *)
Definition keeps (R : range) (s s' : san) : Prop :=
  n_peers s' = n_peers s /\ forall j, range_ok R s j = true -> range_ok R s' j = true.

Lemma keeps_refl R s : keeps R s s.
Proof. done. Qed.

Lemma keeps_trans R s1 s2 s3 : keeps R s1 s2 -> keeps R s2 s3 -> keeps R s1 s3.
Proof. intros [H1 H2] [H3 H4]. split; [congruence|auto]. Qed.

Lemma n_peers_on_pd s i f : n_peers (on_pd s i f) = n_peers s.
Proof. apply length_alter. Qed.

(** A peer device may change in a way that suits its replication state. *)
Lemma keeps_on_pd (R : range) s i f :
  (R (new (repl_state (s_pd s i))) (new (pd_disk_state (s_pd s i))) = true ->
   R (new (repl_state (f (s_pd s i)))) (new (pd_disk_state (f (s_pd s i)))) = true) -> keeps R s (on_pd s i f).
Proof.
  intros Hf. split; [apply n_peers_on_pd|]. intros j. unfold range_ok, s_repl, s_pdsk. rewrite s_pd_on_pd.
  case_decide as Hd; [|done]. by destruct Hd as [-> _].
Qed.

Lemma keeps_on_dev R s g : (forall d, peer_devices (g d) = peer_devices d) -> keeps R s (on_dev s g).
Proof.
  intros Hg. assert (forall j, s_pd (on_dev s g) j = s_pd s j) as Hp by (intros; unfold s_pd; simpl; by rewrite Hg).
  split; [unfold n_peers; simpl; by rewrite Hg|]. intros j. unfold range_ok, s_repl, s_pdsk. by rewrite Hp.
Qed.

(** The two states of a resync have the same range. *)
Lemma keeps_flip (R : range) s i l l' :
  s_repl s i NEW = l -> (forall ds, R l ds = true -> R l' ds = true) -> keeps R s (on_pd s i (fun p => __change_repl_state p l')).
Proof. intros Hl Hr. apply keeps_on_pd. simpl. unfold s_repl in Hl. simpl in Hl. rewrite Hl. apply Hr. Qed.

Lemma repl_val_inj (a b : bsr_repl_state) : repl_val a = repl_val b -> a = b.
Proof. by destruct a, b. Qed.

Lemma repl_eqb (a b : bsr_repl_state) : (a =? b) = true -> a = b.
Proof. intros H. by apply repl_val_inj, Z.eqb_eq. Qed.

Ltac keeps_one :=
  first [ exact (keeps_refl _ _) | apply keeps_on_pd; intros; assumption | apply keeps_on_dev; done
        | eapply keeps_flip; [apply repl_eqb; eassumption|let Hr := fresh in intros [] Hr; exact Hr] ].

(** A step [let s := a in k s] with a goal [P (let s := a in k s)]. *)
Ltac keeps_step :=
  lazymatch goal with
  | |- keeps ?R ?s0 (let x := ?a in @?k x) =>
      change (keeps R s0 (k a));
      let H := fresh "H" in
      assert (keeps R s0 a) as H;
      [cbv zeta | apply (keeps_trans R s0 a _ H); clear H; generalize a; clear; intros s; cbv beta]
  end.

Lemma keeps_foldl {A} R (f : san -> A -> san) l s : (forall s x, keeps R s (f s x)) -> keeps R s (foldl f s l).
Proof.
  intros Hf. revert s. induction l as [|x l IH]; intros s; [apply keeps_refl|]. cbn [foldl].
  apply (keeps_trans R s (f s x)); [apply Hf|apply IH].
Qed.

Lemma s_repl_other_c s i b j : s_repl (on_pd s i (fun p => __change_resync_susp_other_c p b)) j NEW = s_repl s j NEW.
Proof. unfold s_repl. rewrite s_pd_on_pd. case_decide as Hd; [|done]. by destruct Hd as [-> _]. Qed.

Lemma keeps_clear_other_c js s i : keeps peer_range s (fst (clear_other_c s i js)).
Proof.
  revert s. induction js as [|j js IH]; intros s; cbn [clear_other_c]; [apply keeps_refl|]. cbv zeta.
  case_match; [apply IH|]. set (s1 := on_pd s j _).
  assert (keeps peer_range s s1) as H1 by (apply keeps_on_pd; done).
  destruct ((s_repl s j NEW =? L_PAUSED_SYNC_T) && _) eqn:E.
  - apply andb_prop in E as [E _]. apply repl_eqb in E. cbn [fst].
    set (s2 := on_pd s1 j _). assert (keeps peer_range s1 s2) as H2.
    { apply (keeps_flip peer_range s1 j L_PAUSED_SYNC_T); [|done]. unfold s1. by rewrite s_repl_other_c. }
    set (s3 := if negb _ then _ else s2). assert (keeps peer_range s2 s3) as H3 by (unfold s3; case_match; keeps_one).
    apply (keeps_trans _ _ _ _ H1), (keeps_trans _ _ _ _ H2), (keeps_trans _ _ _ _ H3). case_match; keeps_one.
  - apply (keeps_trans _ _ _ _ H1), IH.
Qed.

Lemma keeps_set_other_c s i v : keeps peer_range s (set_resync_susp_other_c s i v).
Proof.
  unfold set_resync_susp_other_c. destruct v.
  - apply keeps_foldl. intros. keeps_one.
  - pose proof (keeps_clear_other_c (others s i) s i) as Hc. destruct (clear_other_c _ _ _) as [s1 []]; [done|].
    apply (keeps_trans _ _ _ _ Hc), keeps_foldl. intros s2 j. unfold release_source.
    set (s3 := on_pd s2 j _). apply (keeps_trans _ s2 s3); [unfold s3; keeps_one|].
    destruct ((s_repl s3 j NEW =? L_PAUSED_SYNC_S) && _) eqn:E; [|apply keeps_refl]. apply andb_prop in E as [E _]. keeps_one.
Qed.

Lemma keeps_pause s i : keeps peer_range s (sanitize_pause s i).
Proof.
  cbv beta delta [sanitize_pause].
  keeps_step; [case_match; keeps_one|].
  keeps_step.
  { destruct (resync_suspended (s_pd s i) NEW);
      match goal with |- keeps _ _ (if repl_val (s_repl ?x i NEW) =? _ then _ else _) => apply (keeps_trans _ s x); [|generalize x; intros s1] end;
      case_match; keeps_one. }
  do 3 (keeps_step; [case_match; [apply keeps_set_other_c|apply keeps_refl]|]).
  case_match; [apply keeps_set_other_c|apply keeps_refl].
Qed.

Lemma keeps_upgrade r s i : keeps peer_range s (sanitize_upgrade r s i).
Proof.
  cbv beta delta [sanitize_upgrade].
  keeps_step.
  { destruct (_ && (_ || _)) eqn:E; [|apply keeps_refl]. apply andb_prop in E as [_ E].
    unfold s_pdsk in E. simpl in E. apply keeps_on_pd. simpl.
    destruct (new (pd_disk_state (s_pd s i))); try done; by destruct (new (repl_state (s_pd s i))). }
  do 3 (keeps_step; [try case_match; keeps_one|]). case_match; keeps_one.
Qed.

(** What holds before the limits: of a peer that is not connected, and of one
    about to become the source of a full sync. *)
Definition off_range (l : bsr_repl_state) (ds : bsr_disk_state) : bool :=
  match l with L_OFF => (ds =? D_OUTDATED) || (ds =? D_UNKNOWN) | _ => true end.
Definition pre_range (l : bsr_repl_state) (ds : bsr_disk_state) : bool :=
  match l with L_STARTING_SYNC_T => D_FAILED <? ds | _ => off_range l ds end.

(** Only peer device [i] is touched. *)
Definition only (i : nat) (s s' : san) : Prop := n_peers s' = n_peers s /\ forall j, j <> i -> s_pd s' j = s_pd s j.

Lemma only_refl i s : only i s s.
Proof. done. Qed.

Lemma only_trans i s1 s2 s3 : only i s1 s2 -> only i s2 s3 -> only i s1 s3.
Proof. intros [H1 H2] [H3 H4]. split; [congruence|]. intros j Hj. by rewrite H4, H2. Qed.

Lemma only_on_pd i s f : only i s (on_pd s i f).
Proof. split; [apply n_peers_on_pd|]. intros j Hj. rewrite s_pd_on_pd. by rewrite decide_False by tauto. Qed.

Lemma only_on_dev i s g : (forall d, peer_devices (g d) = peer_devices d) -> only i s (on_dev s g).
Proof. intros Hg. split; [unfold n_peers; simpl; by rewrite Hg|]. intros j _. unfold s_pd. simpl. by rewrite Hg. Qed.

Ltac only_one :=
  first [ exact (only_refl _ _) | apply only_on_pd | apply only_on_dev; done
        | eapply only_trans; [apply only_on_pd|apply only_on_pd] ].

Ltac only_step :=
  lazymatch goal with
  | |- only ?i ?s0 (let x := ?a in @?k x) =>
      change (only i s0 (k a));
      let H := fresh "H" in
      assert (only i s0 a) as H;
      [cbv zeta | apply (only_trans i s0 a _ H); clear H; generalize a; clear; intros s; cbv beta]
  end.

Lemma only_unconnected s i : only i s (sanitize_unconnected s i).
Proof. cbv beta delta [sanitize_unconnected]. case_match; [|only_one]. only_step; [only_one|]. case_match; only_one. Qed.

Lemma only_resync r s i : only i s (sanitize_resync r s i).
Proof.
  cbv beta delta [sanitize_resync]. do 4 (only_step; [case_match; only_one|]). cbv zeta.
  case_match; [|only_one]. case_match; [only_one|]. case_match; only_one.
Qed.

Lemma only_disks s i : only i s (sanitize_disks s i).
Proof.
  cbv beta delta [sanitize_disks]. only_step.
  { case_match; [|only_one].
    match goal with |- only _ _ (if disk_val (s_pdsk ?x i NEW) =? _ then _ else _) => apply (only_trans i s x); [|generalize x; intros s1] end;
      case_match; only_one. }
  destruct (disk_limits _) as [mi ma], (peer_disk_limits _) as [pmi pma].
  do 3 (only_step; [case_match; only_one|]). case_match; only_one.
Qed.

Lemma only_fencing r s i : only i s (sanitize_fencing r s i).
Proof. unfold sanitize_fencing. by case_match. Qed.

(** Values of peer device [i] after a change. *)
Lemma on_pd_at s i f : (i < n_peers s)%nat -> s_pd (on_pd s i f) i = f (s_pd s i).
Proof. intros Hi. rewrite s_pd_on_pd. by rewrite decide_True. Qed.

Lemma unconnected_ok s i : (i < n_peers s)%nat -> range_ok off_range (sanitize_unconnected s i) i = true.
Proof.
  intros Hi. unfold sanitize_unconnected, range_ok. destruct (Z.ltb_spec (s_repl s i NEW) L_ESTABLISHED) as [Hl|Hl].
  - set (s1 := on_pd s i _). assert (i < n_peers s1)%nat as Hi1 by (unfold s1; by rewrite n_peers_on_pd).
    destruct ((D_UNKNOWN <? s_pdsk s1 i NEW) || (s_pdsk s1 i NEW <? D_OUTDATED)) eqn:E.
    + unfold s_repl, s_pdsk. rewrite on_pd_at by done. generalize (s_pd s1 i). intros p. simpl. by destruct (new (repl_state p)).
    + revert E. generalize (s_pdsk s1 i NEW), (s_repl s1 i NEW). by intros [] [].
  - revert Hl. generalize (s_repl s i NEW). by intros [].
Qed.

Lemma range_keep (R : range) s s' i : keeps R s s' -> range_ok R s i = true -> range_ok R s' i = true.
Proof. intros [_ H]. apply H. Qed.

Ltac pre_one :=
  first [ exact (keeps_refl _ _) | apply keeps_on_pd; done | eapply keeps_trans; apply keeps_on_pd; (done || (intros; assumption)) ].

Lemma resync_ok r s i : range_ok off_range s i = true -> range_ok pre_range (sanitize_resync r s i) i = true.
Proof.
  intros Ho. cbv beta delta [sanitize_resync].
  match goal with |- range_ok _ (let x := ?a in @?k x) i = true =>
    change (range_ok pre_range (k a) i = true); assert (range_ok off_range a i = true) as H1;
      [eapply range_keep; [|exact Ho]; case_match; pre_one|revert H1; generalize a; clear; intros s Ho; cbv beta] end.
  match goal with |- range_ok _ (let x := ?a in @?k x) i = true =>
    change (range_ok pre_range (k a) i = true); assert (range_ok pre_range a i = true) as H1 end.
  { destruct ((L_ESTABLISHED <? s_repl s i NEW) && _) eqn:E.
    - destruct (Nat.ltb_spec i (n_peers s)) as [Hi|Hi].
      + unfold range_ok, s_repl, s_pdsk. by rewrite on_pd_at.
      + unfold range_ok, s_repl, s_pdsk in *. rewrite s_pd_on_pd, decide_False by lia. unfold s_pd in *.
        rewrite nth_overflow in * by exact Hi. done.
    - unfold range_ok in *. revert E Ho. generalize (s_disk s NEW <=? D_FAILED), (s_repl s i NEW), (s_pdsk s i NEW).
      by intros [] [] []. }
  revert H1. match goal with |- range_ok _ ?a i = true -> _ => generalize a end. clear. intros s H1. cbv beta.
  eapply range_keep; [|exact H1].
  do 2 (keeps_step; [case_match; pre_one|]). cbv zeta. case_match; [|pre_one]. case_match; [pre_one|]. case_match; pre_one.
Qed.

(** A conditional change of the peer disk state. *)
Lemma pdsk_step s i (c : bool) v :
  (i < n_peers s)%nat -> let s' := if c then on_pd s i (fun p => __change_peer_disk_state p v) else s in
  n_peers s' = n_peers s /\ s_repl s' i NEW = s_repl s i NEW /\ s_pdsk s' i NEW = if c then v else s_pdsk s i NEW.
Proof.
  intros Hi. cbv zeta. destruct c; [|done]. split; [apply n_peers_on_pd|]. unfold s_repl, s_pdsk. by rewrite on_pd_at.
Qed.

(** The limits put peer device [i] into its range. *)
Lemma limits_ok s i (c1 c2 : bool) (g1 g2 : bsr_device -> bsr_device) :
  (i < n_peers s)%nat -> range_ok pre_range s i = true ->
  (forall d, peer_devices (g1 d) = peer_devices d) -> (forall d, peer_devices (g2 d) = peer_devices d) ->
  let s1 := if c1 then on_dev s g1 else s in
  let s2 := if c2 then on_dev s1 g2 else s1 in
  let s3 := if (peer_disk_limits (s_repl s i NEW)).2 <? s_pdsk s2 i NEW
            then on_pd s2 i (fun p => __change_peer_disk_state p (peer_disk_limits (s_repl s i NEW)).2) else s2 in
  let s4 := if (s_pdsk s3 i NEW <? (peer_disk_limits (s_repl s i NEW)).1) && negb (s_repl s3 i NEW =? L_STARTING_SYNC_T)
            then on_pd s3 i (fun p => __change_peer_disk_state p (peer_disk_limits (s_repl s i NEW)).1) else s3 in
  range_ok peer_range s4 i = true.
Proof.
  intros Hi Hp H1 H2 s1 s2 s3 s4.
  assert (n_peers s2 = n_peers s /\ s_pd s2 i = s_pd s i) as [Hn2 Hs2].
  { destruct (only_trans (S i) s s1 s2) as [Hn Ho]; [| |split; [done|apply Ho; lia]].
    - unfold s1. destruct c1; [by apply only_on_dev|apply only_refl].
    - unfold s2. destruct c2; [by apply only_on_dev|apply only_refl]. }
  assert (s_repl s2 i NEW = s_repl s i NEW /\ s_pdsk s2 i NEW = s_pdsk s i NEW) as [Er2 Ed2] by (unfold s_repl, s_pdsk; by rewrite Hs2).
  destruct (pdsk_step s2 i ((peer_disk_limits (s_repl s i NEW)).2 <? s_pdsk s2 i NEW) (peer_disk_limits (s_repl s i NEW)).2) as (Hn3 & Er3 & Ed3); [lia|].
  fold s3 in Hn3, Er3, Ed3.
  destruct (pdsk_step s3 i ((s_pdsk s3 i NEW <? (peer_disk_limits (s_repl s i NEW)).1) && negb (s_repl s3 i NEW =? L_STARTING_SYNC_T))
    (peer_disk_limits (s_repl s i NEW)).1) as (_ & Er4 & Ed4); [lia|]. fold s4 in Er4, Ed4.
  unfold range_ok in *. rewrite Er4, Ed4, Er3, Ed3, Er2, Ed2. revert Hp. generalize (s_repl s i NEW), (s_pdsk s i NEW). by intros [] [].
Qed.

Lemma disks_ok s i : (i < n_peers s)%nat -> range_ok pre_range s i = true -> range_ok peer_range (sanitize_disks s i) i = true.
Proof.
  intros Hi Hp. cbv beta delta [sanitize_disks].
  match goal with |- range_ok _ (let x := ?a in @?k x) i = true =>
    change (range_ok peer_range (k a) i = true); assert (n_peers a = n_peers s /\ range_ok pre_range a i = true) as [H1 H2];
      [|revert H1 H2; generalize a; clear Hp; intros s1 Hn Hp; cbv beta] end.
  - destruct ((agreed_pro_version (s_conn s i) <? 110) && (L_ESTABLISHED <=? s_repl s i NEW) && (s_repl s i NEW <? L_AHEAD)) eqn:E; [|done].
    apply andb_prop in E as [E _]. apply andb_prop in E as [_ E]. cbv zeta.
    set (s1 := if s_disk s NEW =? D_CONSISTENT then _ else s).
    assert (only (S i) s s1) as [Hn1 Ho1] by (unfold s1; case_match; only_one).
    assert (s_pd s1 i = s_pd s i) as Hs1 by (apply Ho1; lia).
    assert (range_ok pre_range s1 i = true) as Hp1 by (unfold range_ok, s_repl, s_pdsk in *; by rewrite Hs1).
    case_match; [|done]. split; [by rewrite n_peers_on_pd|]. unfold range_ok, s_repl, s_pdsk. rewrite on_pd_at by lia. rewrite Hs1.
    revert E. unfold s_repl. generalize (s_pd s i). intros p. simpl. by destruct (new (repl_state p)).
  - pose proof (limits_ok s1 i ((disk_limits (s_repl s1 i NEW)).2 <? s_disk s1 NEW)
      (s_disk (if (disk_limits (s_repl s1 i NEW)).2 <? s_disk s1 NEW then on_dev s1 (fun d => __change_disk_state d (disk_limits (s_repl s1 i NEW)).2) else s1) NEW
        <? (disk_limits (s_repl s1 i NEW)).1)
      (fun d => __change_disk_state d (disk_limits (s_repl s1 i NEW)).2) (fun d => __change_disk_state d (disk_limits (s_repl s1 i NEW)).1)
      ltac:(congruence) Hp ltac:(done) ltac:(done)) as H.
    destruct (disk_limits (s_repl s1 i NEW)) as [mi ma], (peer_disk_limits (s_repl s1 i NEW)) as [pmi pma]. exact H.
Qed.

(** One round of the loop: peer device [i] is in its range afterwards, and the
    others stay in theirs. *)
Lemma peer_round r s a i :
  (i < n_peers s)%nat -> let s' := (sanitize_peer r (s, a) i).1 in
  n_peers s' = n_peers s /\ range_ok peer_range s' i = true /\
  forall j, j <> i -> range_ok peer_range s j = true -> range_ok peer_range s' j = true.
Proof.
  intros Hi. cbv zeta. unfold sanitize_peer. cbn [fst].
  pose proof (only_unconnected s i) as [N1 O1]. pose proof (unconnected_ok s i Hi) as R1.
  generalize dependent (sanitize_unconnected s i). intros s1 N1 O1 R1.
  pose proof (only_resync r s1 i) as [N2 O2]. apply (resync_ok r) in R1.
  generalize dependent (sanitize_resync r s1 i). intros s2 R2 N2 O2.
  pose proof (only_disks s2 i) as [N3 O3]. apply disks_ok in R2; [|lia].
  generalize dependent (sanitize_disks s2 i). intros s3 R3 N3 O3.
  assert (forall j, s_pd (sanitize_fencing r s3 i) j = s_pd s3 j) as O4 by (unfold sanitize_fencing; by case_match).
  pose proof (only_fencing r s3 i) as [N4 _]. generalize dependent (sanitize_fencing r s3 i). intros s4 O4 N4.
  pose proof (keeps_trans _ _ _ _ (keeps_pause s4 i) (keeps_upgrade r (sanitize_pause s4 i) i)) as [N6 K6].
  generalize dependent (sanitize_upgrade r (sanitize_pause s4 i) i). intros s6 N6 K6.
  split_and!; [lia| |].
  - apply K6. unfold range_ok, s_repl, s_pdsk in *. by rewrite O4.
  - intros j Hj Hr. apply K6. unfold range_ok, s_repl, s_pdsk in *. by rewrite O4, O3, O2, O1.
Qed.

Lemma peers_loop r l s a :
  (forall i, i ∈ l -> (i < n_peers s)%nat) -> let s' := (foldl (sanitize_peer r) (s, a) l).1 in
  n_peers s' = n_peers s /\
  forall j, (j ∈ l \/ range_ok peer_range s j = true) -> range_ok peer_range s' j = true.
Proof.
  revert s a. induction l as [|i l IH]; intros s a Hl; cbv zeta.
  { split; [done|]. intros j [Hj|Hj]; [by apply elem_of_nil in Hj|done]. }
  cbn [foldl]. destruct (peer_round r s a i) as (H1 & H2 & H3); [apply Hl, elem_of_cons; by left|].
  destruct (sanitize_peer r (s, a) i) as [s1 a1]. simpl in H1, H2, H3.
  destruct (IH s1 a1) as [I1 I2]; [intros k Hk; rewrite H1; apply Hl, elem_of_cons; by right|].
  split; [congruence|]. intros j Hj. apply I2. destruct (decide (j = i)) as [->|Hji]; [by right|].
  destruct Hj as [Hj|Hj]; [|right; by apply H3]. apply elem_of_cons in Hj as [->|Hj]; [done|by left].
Qed.

Lemma keeps_end R r crashed prim s a : keeps R s (device_end r crashed prim s a).
Proof. cbv beta delta [device_end]. keeps_step; [case_match; keeps_one|]. case_match; keeps_one. Qed.

(** C35. After sanitize_state every peer device has a peer disk state that its new
    replication state allows: outdated or unknown when not connected, up to date while
    verifying, at least outdated for the source of our resync, from inconsistent to
    consistent for its target, and not failed when a full sync starts. *)
Theorem sanitized_peer_disks (r : bsr_resource) :
  Forall (fun d => Forall (fun p => peer_range (repl_state p).[NEW] (pd_disk_state p).[NEW] = true) (peer_devices d))
    (devices (sanitize_state r)).
Proof.
  apply sanitize_state_forall. intros conns nod d _.
  destruct (sanitize_device_eq r (existsb (crashed_primary (state_change_flags r)) (map sanitize_connection (connections r)))
    (Z.of_nat (length (filter (fun c => new (peer_role c) = R_PRIMARY) (map sanitize_connection (connections r))))) conns nod d) as (nod' & _ & He).
  unfold device_loop in He. set (s0 := device_start r conns d) in *.
  destruct (peers_loop r (seq 0 (n_peers s0)) s0 (mk_acc false 0 0)) as [Hn Hr]; [intros i; rewrite elem_of_seq; lia|].
  change (length (peer_devices (s_dev s0))) with (n_peers s0) in He. destruct (foldl (sanitize_peer r) (s0, mk_acc false 0 0) _) as [s a]. rewrite He. cbn [snd fst] in *.
  set (s' := device_end _ _ _ s a).
  assert (keeps peer_range s s') as [Hn' Hk] by apply keeps_end.
  apply Forall_lookup. intros j p Hj.
  assert (s_pd s' j = p) as Hp by (unfold s_pd; by apply nth_lookup_Some).
  assert (range_ok peer_range s' j = true) as Hok.
  { apply Hk, Hr. left. apply elem_of_seq. apply lookup_lt_Some in Hj. change (length (peer_devices (s_dev s'))) with (n_peers s') in Hj. lia. }
  unfold range_ok, s_repl, s_pdsk in Hok. by rewrite Hp in Hok.
Qed.

(** *** The own disk *)

(** D_UNKNOWN is only used for the peer. *)
Definition known (s : san) : Prop := s_disk s NEW <> D_UNKNOWN.

Lemma known_disk s v : v <> D_UNKNOWN -> known (on_dev s (fun d => __change_disk_state d v)).
Proof. done. Qed.

Lemma disk_state_from_md_known d : disk_state_from_md d <> D_UNKNOWN.
Proof. unfold disk_state_from_md. repeat case_match; done. Qed.

Lemma known_pd s i f : known s -> known (on_pd s i f).
Proof. done. Qed.

Ltac known_one := first [ assumption | by apply known_disk | apply known_pd; known_one | case_match; known_one ].

Ltac known_step :=
  lazymatch goal with
  | H : known ?s0 |- known (let x := ?a in @?k x) =>
      change (known (k a)); assert (known a);
      [cbv zeta | clear H; generalize dependent a; clear; intros s H; cbv beta]
  end.

Lemma known_foldl {A} (f : san -> A -> san) l s : (forall s x, known s -> known (f s x)) -> known s -> known (foldl f s l).
Proof. intros Hf. revert s. induction l as [|x l IH]; intros s Hs; [done|]. cbn [foldl]. apply IH, Hf, Hs. Qed.

Lemma known_clear_other_c js s i : known s -> known (fst (clear_other_c s i js)).
Proof.
  revert s. induction js as [|j js IH]; intros s Hs; cbn [clear_other_c]; [done|]. cbv zeta. case_match; [by apply IH|].
  case_match; [|by apply IH]. cbn [fst]. do 2 case_match; done.
Qed.

Lemma known_set_other_c s i v : known s -> known (set_resync_susp_other_c s i v).
Proof.
  intros Hs. unfold set_resync_susp_other_c. destruct v; [by apply known_foldl|].
  pose proof (known_clear_other_c (others s i) s i Hs) as Hc. destruct (clear_other_c _ _ _) as [s1 []]; [done|].
  apply known_foldl; [|done]. intros s2 j H2. unfold release_source. by case_match.
Qed.

Lemma known_unconnected s i : known s -> known (sanitize_unconnected s i).
Proof. intros Hs. unfold sanitize_unconnected. known_one. Qed.

Lemma known_resync r s i : known s -> known (sanitize_resync r s i).
Proof. intros Hs. cbv beta delta [sanitize_resync]. do 4 (known_step; [known_one|]). cbv zeta. known_one. Qed.

Lemma limits_known l : (disk_limits l).1 <> D_UNKNOWN /\ (disk_limits l).2 <> D_UNKNOWN.
Proof. by destruct l. Qed.

Lemma known_disks s i : known s -> known (sanitize_disks s i).
Proof.
  intros Hs. cbv beta delta [sanitize_disks]. known_step; [case_match; [|done]; known_one|].
  destruct (limits_known (s_repl s i NEW)) as [L1 L2]. destruct (disk_limits _) as [mi ma], (peer_disk_limits _) as [pmi pma].
  simpl in L1, L2. cbv zeta. set (s1 := if ma <? s_disk s NEW then _ else s).
  assert (known s1) as H1 by (unfold s1; case_match; [by apply known_disk|done]).
  set (s2 := if s_disk s1 NEW <? mi then _ else s1). assert (known s2) as H2 by (unfold s2; case_match; [by apply known_disk|done]).
  do 2 (case_match; try done).
Qed.

Lemma known_pause s i : known s -> known (sanitize_pause s i).
Proof.
  intros Hs. cbv beta delta [sanitize_pause]. known_step; [known_one|]. known_step; [known_one|].
  do 3 (known_step; [case_match; [by apply known_set_other_c|done]|]). case_match; [by apply known_set_other_c|done].
Qed.

Lemma known_upgrade r s i : known s -> known (sanitize_upgrade r s i).
Proof.
  intros Hs. cbv beta delta [sanitize_upgrade]. known_step; [known_one|].
  known_step.
  { case_match eqn:E; [|done]. rewrite !andb_true_iff in E. destruct E as [[[[_ E] _] _] _].
    apply known_disk. intros Hu. by rewrite Hu in E. }
  do 2 (known_step; [known_one|]). known_one.
Qed.

Lemma known_fencing r s i : known s -> known (sanitize_fencing r s i).
Proof. intros Hs. unfold sanitize_fencing. case_match; exact Hs. Qed.

Lemma known_peers r l sa : known (fst sa) -> known (fst (foldl (sanitize_peer r) sa l)).
Proof.
  revert sa. induction l as [|i l IH]; intros [s a] Hs; [done|]. cbn [foldl]. apply IH. unfold sanitize_peer. cbn [fst] in *.
  by apply known_upgrade, known_pause, known_fencing, known_disks, known_resync, known_unconnected.
Qed.

Lemma known_start r conns d :
  (disk_state d).[OLD] <> D_UNKNOWN -> (disk_state d).[NEW] <> D_UNKNOWN -> known (device_start r conns d).
Proof.
  intros Ho Hn. unfold device_start.
  match goal with |- context [if ?c then on_dev (mk_san conns d) ?g else mk_san conns d] =>
    set (s1 := if c then on_dev (mk_san conns d) g else mk_san conns d) end.
  assert (known s1 /\ s_disk s1 OLD = (disk_state d).[OLD]) as [H1 H1o] by (unfold s1; by case_match).
  match goal with |- context [if ?c then on_dev s1 ?g else s1] => set (s2 := if c then on_dev s1 g else s1) end.
  assert (known s2) as H2 by (unfold s2; case_match; [apply known_disk; congruence|done]).
  unfold sanitize_negotiating. case_match; [|done]. case_match; [|done]. apply known_foldl.
  - intros s i Hs. unfold negotiated_repl. repeat case_match; done.
  - apply known_disk. repeat case_match; try done. apply disk_state_from_md_known.
Qed.

(** sanitize_state never gives the own disk the state D_UNKNOWN, which is only
    meant for peers. *)
Theorem sanitized_own_disk (r : bsr_resource) :
  Forall (fun d => (disk_state d).[OLD] <> D_UNKNOWN /\ (disk_state d).[NEW] <> D_UNKNOWN) (devices r) ->
  Forall (fun d => (disk_state d).[OLD] <> D_UNKNOWN /\ (disk_state d).[NEW] <> D_UNKNOWN) (devices (sanitize_state r)).
Proof.
  intros Hr. apply sanitize_state_forall. intros conns nod d Hd. rewrite Forall_forall in Hr. destruct (Hr d Hd) as [Ho Hn].
  pose proof (frozen_sanitize_device r (existsb (crashed_primary (state_change_flags r)) (map sanitize_connection (connections r)))
    (Z.of_nat (length (filter (fun c => new (peer_role c) = R_PRIMARY) (map sanitize_connection (connections r))))) conns nod d) as Hf.
  destruct (sanitize_device_eq r (existsb (crashed_primary (state_change_flags r)) (map sanitize_connection (connections r)))
    (Z.of_nat (length (filter (fun c => new (peer_role c) = R_PRIMARY) (map sanitize_connection (connections r))))) conns nod d) as (nod' & _ & He).
  pose proof (known_peers r (seq 0 (n_peers (device_start r conns d))) (device_start r conns d, mk_acc false 0 0) (known_start r conns d Ho Hn)) as Hk.
  change (foldl _ _ _) with (device_loop r (device_start r conns d)) in Hk. destruct (device_loop _ _) as [s a]. rewrite He in Hf |- *.
  destruct Hf as (_ & _ & Hf). cbn [snd fst] in *. split.
  - unfold frozen_device in Hf. injection Hf as Hf _. intros Hu. apply Ho. by rewrite <- Hu.
  - change (known (device_end r (existsb (crashed_primary (state_change_flags r)) (map sanitize_connection (connections r)))
      (Z.of_nat (length (filter (fun c => new (peer_role c) = R_PRIMARY) (map sanitize_connection (connections r))))) s a)).
    cbv beta delta [device_end]. known_step; [|known_one]. case_match; [|done]. apply disk_state_from_md_known.
Qed.

(** ** Witnesses *)

(** The connection to the primary breaks. *)
Definition demo_broken : bsr_resource :=
  mk_resource (mk2 R_SECONDARY R_SECONDARY) (mk2 false false) (mk2 false false)
    [mk_connection (mk2 C_CONNECTED C_NETWORK_FAILURE) (mk2 R_PRIMARY R_PRIMARY) (mk2 false false) (Some (mk_net_conf false false)) 0 114 1]
    [demo_device] (mk_res_opts 0 QOU_OFF OND_IO_ERROR) CS_HARD false.

Lemma crashed_primary_consistent_witness :
  Forall (fun d => (disk_state d).[NEW] <> D_UP_TO_DATE) (devices (sanitize_state demo_broken)).
Proof.
  apply (crashed_primary_consistent demo_broken
    (mk_connection (mk2 C_CONNECTED C_NETWORK_FAILURE) (mk2 R_PRIMARY R_PRIMARY) (mk2 false false) (Some (mk_net_conf false false)) 0 114 1)).
  - reflexivity.
  - apply list_elem_of_here.
  - reflexivity.
  - intros c' Hc. apply list_elem_of_singleton in Hc as ->. discriminate.
Defined.

Lemma sanitized_own_disk_witness :
  Forall (fun d => (disk_state d).[OLD] <> D_UNKNOWN /\ (disk_state d).[NEW] <> D_UNKNOWN) (devices (sanitize_state demo_broken)).
Proof. apply (sanitized_own_disk demo_broken). constructor; [split; discriminate|constructor]. Defined.

End StateSanitize.
