(* ===== verification/Uuid.v ===== *)
(** * Generation identifiers (src/bsr/bsr_main.c, src/bsr/bsr_receiver.c)

    Every node keeps in its meta data the UUID of its current data generation,
    for every other node the UUID at which it started to keep a bitmap for
    that node, and a history.  A primary that loses a peer moves its current
    UUID into the bitmap slot of that peer and draws a new one; the end of a
    resync moves them into the history.  Nodes tell each other all of them in
    a packet, and compare them when they meet (Handshake.v). *)

From S2P Require Import Prelude State Hweight.

Module Uuid.
Import State.

Definition UUID_JUST_CREATED : Z := 4.
Definition UUID_PRIMARY : Z := 1.
Definition UUID_NEW_BM_OFFSET : Z := Z.shiftl 1 48.
Definition HISTORY_UUIDS : nat := 32.
Definition HISTORY_UUIDS_V08 : nat := 2.

Definition UUID_FLAG_DISCARD_MY_DATA : Z := Z.shiftl 1 0.
Definition UUID_FLAG_CRASHED_PRIMARY : Z := Z.shiftl 1 1.
Definition UUID_FLAG_INCONSISTENT : Z := Z.shiftl 1 2.
Definition UUID_FLAG_NEW_DATAGEN : Z := Z.shiftl 1 4.
Definition UUID_FLAG_RECONNECT : Z := Z.shiftl 1 8.
Definition UUID_FLAG_CONSISTENT_WITH_PRI : Z := Z.shiftl 1 10.
Definition UUID_FLAG_INIT_SYNCT_BEGIN : Z := Z.shiftl 1 12.
Definition UUID_FLAG_PRIMARY_IO_ERROR : Z := Z.shiftl 1 13.
Definition UUID_FLAG_IN_PROGRESS_SYNC : Z := Z.shiftl 1 14.

Definition MDF_PEER_DIFF_CUR_UUID : Z := Z.shiftl 1 5.
Definition MDF_CRASHED_PRIMARY_WORK_PENDING : Z := Z.shiftl 1 6.
Definition MDF_PEER_INIT_SYNCT_BEGIN : Z := Z.shiftl 1 17.
Definition MDF_PEER_IN_PROGRESS_SYNC : Z := Z.shiftl 1 18.
Definition MDF_PEER_PRIMARY_IO_ERROR : Z := Z.shiftl 1 19.

(** [x & ~UUID_PRIMARY] on a [u64]: the lowest bit only says that the node was primary. *)
Definition strip (x : Z) : Z := Z.land x (lnot_w 64 UUID_PRIMARY).

(** ** Objects

    The states are those of State.v; a peer device and a connection have a
    second record, at the same index, for what only the UUID code uses. *)

Inductive bsr_after_sb_p :=
| ASB_DISCONNECT | ASB_DISCARD_YOUNGER_PRI | ASB_DISCARD_OLDER_PRI | ASB_DISCARD_ZERO_CHG | ASB_DISCARD_LEAST_CHG
| ASB_DISCARD_LOCAL | ASB_DISCARD_REMOTE | ASB_CONSENSUS | ASB_DISCARD_SECONDARY | ASB_CALL_HELPER | ASB_VIOLENTLY.

Global Instance bsr_after_sb_p_eq_dec : EqDecision bsr_after_sb_p.
Proof. solve_decision. Defined.

Record uuid_peer := mk_uuid_peer {
  current_uuid : Z;
  bitmap_uuids : list Z;
  history_uuids : list Z;
  dirty_bits : Z;
  comm_bm_set : Z;
  DISCARD_MY_DATA : bool;
  UUID_DELAY_SEND : bool;
  rs_total : Z }.

Record uuid_conn := mk_uuid_conn {
  RESOLVE_CONFLICTS : bool;
  RECONNECT : bool;
  CONN_DRY_RUN : bool;
  after_sb_0p : bsr_after_sb_p;
  after_sb_1p : bsr_after_sb_p;
  after_sb_2p : bsr_after_sb_p;
  rr_conflict : bsr_after_sb_p;
  always_asbp : bool;
  last_dagtag_sector : Z }.

(** [struct p_uuids110] in host byte order. *)
Record p_uuids110 := mk_uuids110 {
  u_current_uuid : Z;
  u_dirty_bits : Z;
  u_uuid_flags : Z;
  u_node_mask : Z;
  u_bitmap_uuids_mask : Z;
  u_other_uuids : list Z }.

Inductive packet :=
| P_UUIDS110 (p : p_uuids110)
| P_UUIDS (current bitmap : Z) (history : list Z) (dirty flags : Z)
| P_CURRENT_UUID (uuid weak_nodes : Z)
| P_SYNC_UUID (uuid : Z).

(** The user mode helpers the handshake calls. *)
Inductive khelper := initial_split_brain | split_brain | pri_lost | pri_lost_after_sb.

Inductive effect :=
| E_send (peer : nat) (p : packet)
| E_propagate (peer : nat)
| E_clear_bitmap (slot : Z)
| E_set_bitmap (peer : nat)
| E_bm_write
| E_khelper (name : khelper)
| E_md_sync
| E_assert.

(** One volume of a node.  [rsc] gives roles, connections and options; its
    device list is not used.  [bm_set] are the weights of the bitmap slots. *)
Record node := mk_node {
  rsc : bsr_resource;
  dev : bsr_device;
  ldev : bool;
  md_current_uuid : Z;
  md_history_uuids : list Z;
  bitmap_dagtags : list Z;
  exposed_data_uuid : Z;
  dagtag_sector : Z;
  bm_set : list Z;
  peers : list uuid_peer;
  conns : list uuid_conn;
  log : list effect }.

Definition upeer0 : uuid_peer := mk_uuid_peer 0 [] [] 0 0 false false 0.
Definition uconn0 : uuid_conn :=
  mk_uuid_conn false false false ASB_DISCONNECT ASB_DISCONNECT ASB_DISCONNECT ASB_DISCONNECT false 0.

Definition pd_at (n : node) (i : nat) : bsr_peer_device := nth i (peer_devices (dev n)) pd0.
Definition peer_at (n : node) (i : nat) : uuid_peer := nth i (peers n) upeer0.
Definition conn_at (n : node) (i : nat) : bsr_connection := conn_of (connections (rsc n)) (pd_at n i).
Definition uconn_at (n : node) (i : nat) : uuid_conn := nth (connection (pd_at n i)) (conns n) uconn0.
Definition peer_ids (n : node) : list nat := seq 0 (length (peer_devices (dev n))).
Definition my_role (n : node) : bsr_role := (role (rsc n)).[NOW].
Definition my_disk (n : node) : bsr_disk_state := (disk_state (dev n)).[NOW].
Definition my_id (n : node) : Z := node_id (opts (rsc n)).
Definition pd_id (n : node) (i : nat) : nat := Z.to_nat (pd_node_id (pd_at n i)).
Definition u_at (l : list Z) (i : nat) : Z := nth i l 0.

(** *** Field updates *)

Definition upd_dev (f : bsr_device -> bsr_device) (n : node) : node :=
  mk_node (rsc n) (f (dev n)) (ldev n) (md_current_uuid n) (md_history_uuids n) (bitmap_dagtags n)
    (exposed_data_uuid n) (dagtag_sector n) (bm_set n) (peers n) (conns n) (log n).
Definition set_md_current (v : Z) (n : node) : node :=
  mk_node (rsc n) (dev n) (ldev n) v (md_history_uuids n) (bitmap_dagtags n)
    (exposed_data_uuid n) (dagtag_sector n) (bm_set n) (peers n) (conns n) (log n).
Definition set_history (v : list Z) (n : node) : node :=
  mk_node (rsc n) (dev n) (ldev n) (md_current_uuid n) v (bitmap_dagtags n)
    (exposed_data_uuid n) (dagtag_sector n) (bm_set n) (peers n) (conns n) (log n).
Definition set_dagtags (v : list Z) (n : node) : node :=
  mk_node (rsc n) (dev n) (ldev n) (md_current_uuid n) (md_history_uuids n) v
    (exposed_data_uuid n) (dagtag_sector n) (bm_set n) (peers n) (conns n) (log n).
Definition bsr_set_exposed_data_uuid (v : Z) (n : node) : node :=
  mk_node (rsc n) (dev n) (ldev n) (md_current_uuid n) (md_history_uuids n) (bitmap_dagtags n)
    v (dagtag_sector n) (bm_set n) (peers n) (conns n) (log n).
Definition set_weights (v : list Z) (n : node) : node :=
  mk_node (rsc n) (dev n) (ldev n) (md_current_uuid n) (md_history_uuids n) (bitmap_dagtags n)
    (exposed_data_uuid n) (dagtag_sector n) v (peers n) (conns n) (log n).
Definition upd_peer (i : nat) (f : uuid_peer -> uuid_peer) (n : node) : node :=
  mk_node (rsc n) (dev n) (ldev n) (md_current_uuid n) (md_history_uuids n) (bitmap_dagtags n)
    (exposed_data_uuid n) (dagtag_sector n) (bm_set n) (alter f i (peers n)) (conns n) (log n).
Definition emit (e : effect) (n : node) : node :=
  mk_node (rsc n) (dev n) (ldev n) (md_current_uuid n) (md_history_uuids n) (bitmap_dagtags n)
    (exposed_data_uuid n) (dagtag_sector n) (bm_set n) (peers n) (conns n) (log n ++ [e]).

Definition upd_md_peer (id : nat) (f : bsr_peer_md -> bsr_peer_md) : node -> node :=
  upd_dev (fun d =>
    let md := ldev_md d in
    mk_device (disk_state d) (susp_quorum d) (open_ro_cnt d) (open_rw_cnt d) (CRASHED_PRIMARY d) (UNREGISTERED d)
      (__NEW_CUR_UUID d) (NEW_CUR_UUID d) (mk_md (md_node_id md) (md_flags md) (alter f id (md_peers md)))
      (peer_devices d)).

Definition set_bitmap_uuid (v : Z) (m : bsr_peer_md) : bsr_peer_md := mk_peer_md (bitmap_index m) v (peer_md_flags m).
Definition on_peer_md_flags (f : Z -> Z) (m : bsr_peer_md) : bsr_peer_md :=
  mk_peer_md (bitmap_index m) (bitmap_uuid m) (f (peer_md_flags m)).

Definition set_current_uuid (v : Z) (p : uuid_peer) : uuid_peer :=
  mk_uuid_peer v (bitmap_uuids p) (history_uuids p) (dirty_bits p) (comm_bm_set p) (DISCARD_MY_DATA p)
    (UUID_DELAY_SEND p) (rs_total p).
Definition set_bitmap_uuids (v : list Z) (p : uuid_peer) : uuid_peer :=
  mk_uuid_peer (current_uuid p) v (history_uuids p) (dirty_bits p) (comm_bm_set p) (DISCARD_MY_DATA p)
    (UUID_DELAY_SEND p) (rs_total p).
Definition set_history_uuids (v : list Z) (p : uuid_peer) : uuid_peer :=
  mk_uuid_peer (current_uuid p) (bitmap_uuids p) v (dirty_bits p) (comm_bm_set p) (DISCARD_MY_DATA p)
    (UUID_DELAY_SEND p) (rs_total p).
Definition set_dirty_bits (v : Z) (p : uuid_peer) : uuid_peer :=
  mk_uuid_peer (current_uuid p) (bitmap_uuids p) (history_uuids p) v (comm_bm_set p) (DISCARD_MY_DATA p)
    (UUID_DELAY_SEND p) (rs_total p).
Definition set_comm_bm_set (v : Z) (p : uuid_peer) : uuid_peer :=
  mk_uuid_peer (current_uuid p) (bitmap_uuids p) (history_uuids p) (dirty_bits p) v (DISCARD_MY_DATA p)
    (UUID_DELAY_SEND p) (rs_total p).
Definition set_delay_send (v : bool) (p : uuid_peer) : uuid_peer :=
  mk_uuid_peer (current_uuid p) (bitmap_uuids p) (history_uuids p) (dirty_bits p) (comm_bm_set p) (DISCARD_MY_DATA p)
    v (rs_total p).
Definition set_discard_my_data (v : bool) (p : uuid_peer) : uuid_peer :=
  mk_uuid_peer (current_uuid p) (bitmap_uuids p) (history_uuids p) (dirty_bits p) (comm_bm_set p) v
    (UUID_DELAY_SEND p) (rs_total p).

(** [uuid_flags], [uuids_received] and [uuid_authoritative_nodes] of a peer device. *)
Definition upd_pd_uuid (i : nat) (received : bool) (flags auth : Z) : node -> node :=
  upd_dev (fun d => set_peer_devices d (alter (fun p =>
    mk_peer_device (connection p) (pd_node_id p) (pd_bitmap_index p) (repl_state p) (pd_disk_state p)
      (negotiation_result p) (resync_susp_user p) (resync_susp_peer p) (resync_susp_dependency p)
      (resync_susp_other_c p) (INITIAL_STATE_SENT p) (INITIAL_STATE_RECEIVED p) (RECONCILIATION_RESYNC p)
      (UNSTABLE_TRIGGER_CP p) (RESYNC_ABORTED p) received flags auth (resync_seq p) (al_oos_cnt p))
    i (peer_devices d))).

(** ** The UUIDs of this node *)

Definition bsr_current_uuid (n : node) : Z := if ldev n then md_current_uuid n else 0.
Definition md_bitmap_uuid (n : node) (id : nat) : Z := bitmap_uuid (peer_md_of (dev n) id).
Definition bsr_bitmap_uuid (n : node) (i : nat) : Z := if ldev n then md_bitmap_uuid n (pd_id n i) else 0.
Definition bsr_history_uuid (n : node) (k : nat) : Z :=
  if negb (ldev n) || (HISTORY_UUIDS <=? k)%nat then 0 else u_at (md_history_uuids n) k.

Definition bsr_md_test_peer_flag (n : node) (i : nat) (f : Z) : bool :=
  has (peer_md_flags (peer_md_of (dev n) (pd_id n i))) f.
Definition bsr_md_clear_peer_flag (n : node) (i : nat) (f : Z) : node :=
  upd_md_peer (pd_id n i) (on_peer_md_flags (fun x => Z.ldiff x f)) n.

Definition node_exists (n : node) (id : nat) : bool :=
  let m := peer_md_of (dev n) id in negb ((bitmap_index m =? -1) && negb (has (peer_md_flags m) MDF_NODE_EXISTS)).

(** The second result is what [*old_val] is set to, if it is set. *)
Definition _bsr_uuid_push_history (val : Z) (n : node) : node * option Z :=
  if val =? UUID_JUST_CREATED then (n, None)
  else
    let val := strip val in
    if existsb (Z.eqb val) (md_history_uuids n) then (n, None)
    else (set_history (val :: removelast (md_history_uuids n)) n, Some (List.last (md_history_uuids n) 0)).

Definition push_history (val : Z) (n : node) : node := (_bsr_uuid_push_history val n).1.

Definition _bsr_uuid_pull_history (val : option Z) (n : node) : Z * node :=
  (u_at (md_history_uuids n) 0, set_history (tail (md_history_uuids n) ++ [default 0 val]) n).

Definition __bsr_uuid_set_current (val : Z) (n : node) : node :=
  let val := if my_role n =? R_PRIMARY then Z.lor val UUID_PRIMARY else strip val in
  bsr_set_exposed_data_uuid val (set_md_current val n).

Definition set_md_bitmap (id : nat) (val dagtag : Z) (n : node) : node :=
  set_dagtags (alter (fun _ => dagtag) id (bitmap_dagtags n)) (upd_md_peer id (set_bitmap_uuid val) n).

Definition __bsr_uuid_set_bitmap (i : nat) (val : Z) (n : node) : node :=
  set_md_bitmap (pd_id n i) val (if val =? 0 then 0 else dagtag_sector n) n.

Definition bsr_uuid_set_bitmap (i : nat) (uuid : Z) (n : node) : node :=
  let previous_uuid := bsr_bitmap_uuid n i in
  __bsr_uuid_set_bitmap i uuid (if previous_uuid =? 0 then n else push_history previous_uuid n).

(** [peer_device_by_node_id], as an index. *)
Definition pd_by_id (n : node) (id : nat) : option nat :=
  List.find (fun i => pd_node_id (pd_at n i) =? Z.of_nat id) (peer_ids n).

(** [do_it] of [rotate_current_into_bitmap]. *)
Definition rotates (n : node) (weak_nodes : Z) (id : nat) : bool :=
  match pd_by_id n id with
  | Some i =>
    let pdsk := (pd_disk_state (pd_at n i)).[NOW] in
    (pdsk <=? D_UNKNOWN) && negb (pdsk =? D_NEGOTIATING)
    || has (NODE_MASK (Z.of_nat id)) weak_nodes
    || ((cstate (conn_at n i)).[NEW] <? C_CONNECTED) && (pdsk =? D_INCONSISTENT)
  | None => true
  end.

Definition rotate_slot (weak_nodes dagtag : Z) (nm : node * Z) (id : nat) : node * Z :=
  let '(n, got) := nm in
  if Z.of_nat id =? md_node_id (ldev_md (dev n)) then nm
  else if negb (node_exists n id)
          && negb ((md_current_uuid n =? UUID_JUST_CREATED) && bool_decide (connections (rsc n) = [])) then nm
  else if negb (md_bitmap_uuid n id =? 0) then nm
  else if rotates n weak_nodes id then
    let v := if md_current_uuid n =? UUID_JUST_CREATED then 0 else md_current_uuid n in
    (if v =? 0 then upd_md_peer id (set_bitmap_uuid v) n else set_md_bitmap id v dagtag n,
     Z.lor got (NODE_MASK (Z.of_nat id)))
  else nm.

Definition rotate_current_into_bitmap (weak_nodes dagtag : Z) (n : node) : node * Z :=
  foldl (rotate_slot weak_nodes dagtag) (n, 0) (seq 0 BSR_NODE_ID_MAX).

Definition initial_resync_nodes (n : node) : Z :=
  foldl (fun nodes p => if ((pd_disk_state p).[NOW] =? D_INCONSISTENT) && ((repl_state p).[NOW] =? L_ESTABLISHED)
                        then Z.lor nodes (NODE_MASK (pd_node_id p)) else nodes) 0 (peer_devices (dev n)).

Definition bsr_weak_nodes_device (n : node) : Z :=
  lnot_w 64 (foldl (fun not_weak p =>
    let pdsk := (pd_disk_state p).[NOW] in
    if (pdsk <=? D_FAILED) || (pdsk =? D_UNKNOWN) || (pdsk =? D_OUTDATED) then not_weak
    else Z.lor not_weak (NODE_MASK (pd_node_id p))) (NODE_MASK (my_id n)) (peer_devices (dev n))).


(** ** What a node says about itself *)

Definition get_ldev_if_state (n : node) (min : bsr_disk_state) : bool := ldev n && (min <=? my_disk n).
Definition get_ldev (n : node) : bool := get_ldev_if_state n D_INCONSISTENT.

Definition _bsr_bm_total_weight (n : node) (slot : Z) : Z := u_at (bm_set n) (Z.to_nat slot).
Definition bsr_bm_total_weight (n : node) (i : nat) : Z :=
  let slot := pd_bitmap_index (pd_at n i) in
  if (slot =? -1) || negb (get_ldev_if_state n D_NEGOTIATING) then 0 else _bsr_bm_total_weight n slot.

(** [bsr_bm_clear_many_bits(device, slot, 0, BSR_END_OF_BITMAP)], as far as the weight shows it. *)
Definition clear_slot (slot : Z) (n : node) : node :=
  emit (E_clear_bitmap slot) (set_weights (alter (fun _ => 0) (Z.to_nat slot) (bm_set n)) n).

Definition is_sync_source (n : node) (i : nat) : bool :=
  match (repl_state (pd_at n i)).[NOW] with L_SYNC_SOURCE | L_PAUSED_SYNC_S | L_WF_BITMAP_S => true | _ => false end.

Definition is_consistent_with_primary (n : node) (which : which_state) : bool :=
  ((disk_state (dev n)).[which] =? D_UP_TO_DATE)
  && existsb (fun id =>
       match pd_by_id n id with
       | Some i => ((peer_role (conn_at n i)).[which] =? R_PRIMARY) && (L_ESTABLISHED <=? (repl_state (pd_at n i)).[which])
                   && uuids_received (pd_at n i) && (bsr_bm_total_weight n i =? 0)
       | None => false
       end) (seq 0 BSR_NODE_ID_MAX).

(** [__bitmap_uuid]: -1 for a peer that is not at our generation. *)
Definition __bitmap_uuid (id : nat) (n : node) : node * Z :=
  let v := md_bitmap_uuid n id in
  match pd_by_id n id with
  | Some i =>
    let c := current_uuid (peer_at n i) in
    if (v =? 0) && negb (c =? 0) && negb (strip c =? strip (bsr_current_uuid n)) then
      (if (cstate (conn_at n i)).[NOW] =? C_CONNECTED
       then upd_md_peer id (on_peer_md_flags (Z.lor MDF_PEER_DIFF_CUR_UUID)) n else n, U64_MAX)
    else (n, v)
  | None => (n, v)
  end.

Definition existing_nodes (n : node) : list nat := List.filter (node_exists n) (seq 0 BSR_NODE_ID_MAX).
Definition mask_of (ids : list nat) : Z := foldl (fun m id => Z.lor m (NODE_MASK (Z.of_nat id))) 0 ids.

Definition bitmap_uuids_of (ids : list nat) (n : node) : node * list Z :=
  foldl (fun '(n, l) id => let '(n, v) := __bitmap_uuid id n in (n, l ++ [v])) (n, []) ids.

Definition flag (b : bool) (f : Z) : Z := if b then f else 0.

(** The flags [_bsr_send_uuids110] adds, those of stability aside. *)
Definition uuid_flags110 (n : node) (i : nat) (which : which_state) : Z :=
  Z.lor (flag (DISCARD_MY_DATA (peer_at n i)) UUID_FLAG_DISCARD_MY_DATA)
  (Z.lor (flag (CRASHED_PRIMARY (dev n) && bsr_md_test_peer_flag n i MDF_CRASHED_PRIMARY_WORK_PENDING
                && negb (is_sync_source n i)) UUID_FLAG_CRASHED_PRIMARY)
  (Z.lor (flag (negb (has (md_flags (ldev_md (dev n))) MDF_CONSISTENT)) UUID_FLAG_INCONSISTENT)
  (Z.lor (flag (RECONNECT (uconn_at n i)) UUID_FLAG_RECONNECT)
  (Z.lor (flag (bsr_md_test_peer_flag n i MDF_PEER_PRIMARY_IO_ERROR) UUID_FLAG_PRIMARY_IO_ERROR)
  (Z.lor (flag (bsr_md_test_peer_flag n i MDF_PEER_IN_PROGRESS_SYNC) UUID_FLAG_IN_PROGRESS_SYNC)
  (Z.lor (flag (is_consistent_with_primary n which) UUID_FLAG_CONSISTENT_WITH_PRI)
         (flag (bsr_md_test_peer_flag n i MDF_PEER_INIT_SYNCT_BEGIN) UUID_FLAG_INIT_SYNCT_BEGIN))))))).

Definition bsr_send_current_uuid (i : nat) (uuid weak : Z) : node -> node := emit (E_send i (P_CURRENT_UUID uuid weak)).

(** The packet of [_bsr_send_uuids110]; a failed [bsr_prepare_command] sends nothing. *)
Definition uuids110 (i : nat) (flags node_mask : Z) (which : which_state) (n : node) : node * p_uuids110 :=
  let cur := bsr_current_uuid n in
  let ids := existing_nodes n in
  let '(n, bitmaps) := bitmap_uuids_of ids n in
  let other := bitmaps ++ map (bsr_history_uuid n) (seq 0 HISTORY_UUIDS) in
  let weight := bsr_bm_total_weight n i in
  let n := upd_peer i (set_comm_bm_set weight) n in
  let '(stable, authoritative) := bsr_device_stable_ex (rsc n) (dev n) which 0 in
  let n := if negb stable && negb (node_mask =? 0) then emit E_assert n else n in
  (n, mk_uuids110 cur weight
        (Z.lor flags (Z.lor (uuid_flags110 n i which) (flag stable UUID_FLAG_STABLE)))
        (if stable then node_mask else authoritative) (mask_of ids) other).

Definition _bsr_send_uuids110 (i : nat) (flags node_mask : Z) (which : which_state) (n : node) : node :=
  if negb (get_ldev_if_state n D_NEGOTIATING) then bsr_send_current_uuid i (exposed_data_uuid n) (bsr_weak_nodes_device n) n
  else let '(n, p) := uuids110 i flags node_mask which n in emit (E_send i (P_UUIDS110 p)) n.

Definition _bsr_send_uuids (i : nat) (flags : Z) (n : node) : node :=
  if negb (get_ldev_if_state n D_NEGOTIATING) then n
  else
    let n := upd_peer i (set_comm_bm_set (bsr_bm_total_weight n i)) n in
    let flags :=
      Z.lor flags
      (Z.lor (flag (DISCARD_MY_DATA (peer_at n i)) UUID_FLAG_DISCARD_MY_DATA)
      (Z.lor (flag (CRASHED_PRIMARY (dev n) && bsr_md_test_peer_flag n i MDF_CRASHED_PRIMARY_WORK_PENDING) UUID_FLAG_CRASHED_PRIMARY)
      (Z.lor (flag (negb (has (md_flags (ldev_md (dev n))) MDF_CONSISTENT)) UUID_FLAG_INCONSISTENT)
      (Z.lor (flag (bsr_md_test_peer_flag n i MDF_PEER_PRIMARY_IO_ERROR) UUID_FLAG_PRIMARY_IO_ERROR)
             (flag (bsr_md_test_peer_flag n i MDF_PEER_IN_PROGRESS_SYNC) UUID_FLAG_IN_PROGRESS_SYNC))))) in
    emit (E_send i (P_UUIDS (bsr_current_uuid n) (bsr_bitmap_uuid n i) (map (bsr_history_uuid n) (seq 0 HISTORY_UUIDS_V08))
                      (bsr_bm_total_weight n i) flags)) n.

Definition bsr_send_uuids (i : nat) (flags node_mask : Z) (which : which_state) (n : node) : node :=
  if 110 <=? agreed_pro_version (conn_at n i) then _bsr_send_uuids110 i flags node_mask which n
  else _bsr_send_uuids i flags n.

(** ** What it hears *)

Definition update_bitmap_slot_of_peer (i id : nat) (v : Z) (n : node) : node :=
  let n :=
    if negb (u_at (bitmap_uuids (peer_at n i)) id =? 0) && (v =? 0) then
      match pd_by_id n id with
      | Some i2 =>
        let id2 := Z.to_nat (peer_node_id (conn_at n i)) in
        upd_peer i2 (fun p => set_bitmap_uuids (<[id2 := 0]> (bitmap_uuids p)) p) n
      | None => n
      end
    else n in
  upd_peer i (fun p => set_bitmap_uuids (<[id := v]> (bitmap_uuids p)) p) n.

(** One node of the loop of [receive_uuids110]: [l] are the UUIDs not yet used. *)
Definition take_bitmap_uuid (i : nat) (mask : Z) (nl : node * list Z) (id : nat) : node * list Z :=
  let '(n, l) := nl in
  if has mask (NODE_MASK (Z.of_nat id)) then
    let n := if get_ldev n && (bitmap_index (peer_md_of (dev n) id) =? -1)
             then upd_md_peer id (on_peer_md_flags (Z.lor MDF_NODE_EXISTS)) n else n in
    (update_bitmap_slot_of_peer i id (List.hd 0 l) n, tail l)
  else (update_bitmap_slot_of_peer i id 0 n, l).

(** [receive_uuids110] up to the call of [__receive_uuids]: an error number, or the node.  [size] is the payload
    in bytes, [recv] and [ignored] the results of [bsr_recv_into] and [ignore_remaining_packet].  The first use of
    the flags reads them in network byte order, here as on a little-endian machine. *)
Definition unpack_uuids110 (i : nat) (size recv ignored : Z) (p : p_uuids110) (n : node) : Z + node :=
  let n := upd_peer i (fun q => set_dirty_bits (u_dirty_bits p) (set_current_uuid (u_current_uuid p) q)) n in
  let auth := if has (u_uuid_flags p) (Z.shiftl 1 61) then 0 else u_node_mask p in
  let n := upd_pd_uuid i (uuids_received (pd_at n i)) (u_uuid_flags p) auth n in
  let mask := u_bitmap_uuids_mask p in
  if negb (Z.land mask (lnot_w 64 (NODE_MASK (Z.of_nat BSR_NODE_ID_MAX) - 1)) =? 0) then inl (- EIO)
  else
    let bitmaps := hweight64 mask in
    if size / 8 <? bitmaps then inl (- EIO)
    else
      let history := Z.min (size / 8 - bitmaps) (Z.of_nat HISTORY_UUIDS) in
      let rest := size - (bitmaps + history) * 8 in
      if negb (recv =? 0) then inl recv
      else if negb (rest =? 0) && (ignored =? 0) then inl (- EIO)
      else
        let '(n, l) := foldl (take_bitmap_uuid i mask) (n, u_other_uuids p) (seq 0 BSR_NODE_ID_MAX) in
        let h := firstn (Z.to_nat history) l in
        let n := upd_peer i (set_history_uuids (h ++ repeat 0 (HISTORY_UUIDS - length h))) n in
        inr (upd_pd_uuid i true (uuid_flags (pd_at n i)) (uuid_authoritative_nodes (pd_at n i)) n).

(** ** New generations *)

(** The peers hear about a new generation. *)
Definition announce (forced younger : bool) (weak_nodes : Z) (n : node) (i : nat) : node :=
  if L_ESTABLISHED <=? (repl_state (pd_at n i)).[NOW] then
    let flags := flag (negb forced && (negb younger || negb ((pd_disk_state (pd_at n i)).[NOW] =? D_INCONSISTENT)))
                   UUID_FLAG_NEW_DATAGEN in
    bsr_send_uuids i flags weak_nodes NOW (upd_peer i (set_delay_send false) n)
  else if (cstate (conn_at n i)).[NOW] =? C_CONNECTED then upd_peer i (set_delay_send true) n
  else n.

(** [rnd] is the number [get_random_bytes] gives. *)
Definition __bsr_uuid_new_current (rnd : Z) (forced send younger : bool) (n : node) : node :=
  let '(n', got) := rotate_current_into_bitmap (if forced then initial_resync_nodes n else 0) (dagtag_sector n) n in
  if got =? 0 then n'
  else
    let n := __bsr_uuid_set_current rnd n' in
    let weak_nodes := bsr_weak_nodes_device n in
    let n := emit E_md_sync n in
    if send then foldl (announce forced younger weak_nodes) n (peer_ids n) else n.

Definition bsr_uuid_new_current (rnd : Z) (forced younger : bool) (n : node) : node :=
  if get_ldev_if_state n D_UP_TO_DATE then __bsr_uuid_new_current rnd forced true younger n
  else
    let u := strip rnd in
    let n := bsr_set_exposed_data_uuid u n in
    let weak_nodes := bsr_weak_nodes_device n in
    foldl (fun n i => upd_peer i (set_current_uuid u) (bsr_send_current_uuid i u weak_nodes n)) n (peer_ids n).

Definition bsr_uuid_new_current_by_user (rnd : Z) (n : node) : node :=
  if get_ldev n then __bsr_uuid_new_current rnd false false false n else n.

(** [E_propagate] is the request to queue [propagate_uuids_work], which has no effect while it is queued. *)
Definition bsr_propagate_uuids (nodes : Z) (n : node) : node :=
  foldl (fun n i => if has nodes (NODE_MASK (pd_node_id (pd_at n i))) && (L_ESTABLISHED <=? (repl_state (pd_at n i)).[NOW])
                    then emit (E_propagate i) n else n) n (peer_ids n).

(** A resync target keeps its generation; it takes over the new one at the end. *)
Definition keeps_current (n : node) (weak_nodes : Z) (i : nat) : bool :=
  match (repl_state (pd_at n i)).[NOW] with
  | L_SYNC_TARGET => negb (rs_total (peer_at n i) =? 0)
  | L_PAUSED_SYNC_T | L_BEHIND => true
  | L_WF_BITMAP_T => has (NODE_MASK (my_id n)) weak_nodes
  | _ => false
  end.

Definition bsr_uuid_received_new_current (i : nat) (val weak_nodes : Z) (n : node) : node :=
  let dagtag := last_dagtag_sector (uconn_at n i) in
  let set_current := negb (existsb (keeps_current n weak_nodes) (peer_ids n)) in
  let n := foldl (fun n t => if keeps_current n weak_nodes t then upd_peer t (set_current_uuid val) n else n) n (peer_ids n) in
  let set_current := set_current && negb ((my_disk n =? D_OUTDATED) && has (NODE_MASK (my_id n)) weak_nodes) in
  if set_current then
    let '(n, got) := rotate_current_into_bitmap weak_nodes dagtag n in
    let n := __bsr_uuid_set_current val n in
    bsr_propagate_uuids got (bsr_send_current_uuid i val (bsr_weak_nodes_device n) n)
  else bsr_propagate_uuids 0 n.

Definition receive_current_uuid (i : nat) (uuid weak_nodes : Z) (n : node) : node :=
  let n := upd_peer i (set_current_uuid uuid) n in
  if (peer_role (conn_at n i)).[NOW] =? R_UNKNOWN then n
  else if uuid =? bsr_current_uuid n then
    if negb (bsr_current_uuid n =? 0) && ldev n && negb (md_bitmap_uuid n (pd_id n i) =? 0)
    then bsr_uuid_set_bitmap i 0 n else n
  else if get_ldev_if_state n D_UP_TO_DATE then
    if (peer_role (conn_at n i)).[NOW] =? R_PRIMARY then bsr_uuid_received_new_current i uuid weak_nodes n else n
  else if (my_disk n =? D_DISKLESS) && (my_role n =? R_PRIMARY)
       then bsr_set_exposed_data_uuid (current_uuid (peer_at n i)) n else n.

(** [bsr_gen_and_send_sync_uuid] of the source of a resync, with protocol versions below 110. *)
Definition bsr_gen_and_send_sync_uuid (rnd : Z) (i : nat) (n : node) : node :=
  let n := if my_disk n =? D_UP_TO_DATE then n else emit E_assert n in
  let uuid := bsr_bitmap_uuid n i in
  let uuid := if negb (uuid =? 0) && negb (uuid =? UUID_JUST_CREATED) then u64 (uuid + UUID_NEW_BM_OFFSET) else rnd in
  emit (E_send i (P_SYNC_UUID uuid)) (emit E_md_sync (bsr_uuid_set_bitmap i uuid n)).

(** ** The end of a resync *)

(** One slot of [__set_bitmap_slots]; [old] collects [old_peer_md]. *)
Definition set_slot (from : option nat) (do_nodes : Z) (s : node * list (nat * (Z * Z)) * Z) (id : nat) :
  node * list (nat * (Z * Z)) * Z :=
  let '(n, old, modified) := s in
  if (Z.of_nat id =? md_node_id (ldev_md (dev n))) || negb (has do_nodes (NODE_MASK (Z.of_nat id))) then s
  else
    let v := match from with Some i => u_at (bitmap_uuids (peer_at n i)) id | None => 0 end in
    let o := md_bitmap_uuid n id in
    if o =? v then s
    else
      (set_md_bitmap id v (if v =? 0 then 0 else dagtag_sector n) (push_history o n),
       old ++ [(id, (o, u_at (bitmap_dagtags n) id))], Z.lor modified (NODE_MASK (Z.of_nat id))).

Definition __set_bitmap_slots (from : option nat) (do_nodes : Z) (n : node) (old : list (nat * (Z * Z))) :
  node * list (nat * (Z * Z)) * Z :=
  foldl (set_slot from do_nodes) (n, old, 0) (seq 0 BSR_NODE_ID_MAX).

Definition __test_bitmap_slots_of_peer (i : nat) (n : node) : Z :=
  foldl (fun m id =>
    match pd_by_id n id with
    | Some f =>
      if negb (u_at (bitmap_uuids (peer_at n i)) id =? 0)
         && negb (strip (current_uuid (peer_at n i)) =? strip (current_uuid (peer_at n f)))
      then Z.lor m (NODE_MASK (Z.of_nat id)) else m
    | None => m
    end) 0 (seq 0 BSR_NODE_ID_MAX).

(** The result, and what [old_peer_md], [removed_history] (0 before) and [before_uuid] are set to. *)
Record finished := mk_finished { f_newer : Z; f_old : list (nat * (Z * Z)); f_removed : Z; f_before : Z }.

Definition bsr_uuid_resync_finished (i : nat) (n : node) : node * finished :=
  let slots := __test_bitmap_slots_of_peer i n in
  let '(n, old, newer) := __set_bitmap_slots (Some i) slots n [] in
  let '(n, old, _) := __set_bitmap_slots None (lnot_w 64 slots) n old in
  let '(n, removed) := _bsr_uuid_push_history (bsr_current_uuid n) n in
  (__bsr_uuid_set_current (current_uuid (peer_at n i)) n, mk_finished newer old (default 0 removed) (md_current_uuid n)).

Definition rollback_slot (do_nodes : Z) (old : list (nat * (Z * Z))) (nm : node * Z) (id : nat) : node * Z :=
  let '(n, modified) := nm in
  if (Z.of_nat id =? md_node_id (ldev_md (dev n))) || negb (has do_nodes (NODE_MASK (Z.of_nat id))) then nm
  else if md_bitmap_uuid n id =? 0 then nm
  else
    match List.find (fun e => (e.1 =? id)%nat) old with
    | Some (_, (v, t)) => (set_md_bitmap id v t n, Z.lor modified (NODE_MASK (Z.of_nat id)))
    | None => nm
    end.

Definition __rollback_bitmap_slots (do_nodes : Z) (old : list (nat * (Z * Z))) (n : node) : node * Z :=
  foldl (rollback_slot do_nodes old) (n, 0) (seq 0 BSR_NODE_ID_MAX).

(** [bsr_resync_finished] calls it with what [bsr_uuid_resync_finished] gave. *)
Definition bsr_uuid_resync_finished_rollback (f : finished) (n : node) : node * Z :=
  let n := (_bsr_uuid_pull_history (Some (f_removed f)) n).2 in
  let '(n, newer) := __rollback_bitmap_slots (f_newer f) (f_old f) n in
  (bsr_set_exposed_data_uuid (f_before f) (set_md_current (f_before f) n), newer).

(** ** Resyncs of others *)

Definition isForgettableReplState (l : bsr_repl_state) : bool :=
  negb ((l <? L_ESTABLISHED) || match l with
                                | L_SYNC_SOURCE | L_AHEAD | L_WF_BITMAP_S | L_STARTING_SYNC_S | L_STARTING_SYNC_T => true
                                | _ => false
                                end).

Definition forget_bitmap (id : nat) (n : node) : node :=
  let slot := bitmap_index (peer_md_of (dev n) id) in
  if _bsr_bm_total_weight n slot =? 0 then n else clear_slot slot n.

(** One node of [bsr_uuid_detect_finished_resyncs], and [write_bm]. *)
Definition detect_slot (i : nat) (nw : node * bool) (id : nat) : node * bool :=
  let '(n, write_bm) := nw in
  if (Z.of_nat id =? md_node_id (ldev_md (dev n))) || negb (node_exists n id) then nw
  else
    let diff := has (peer_md_flags (peer_md_of (dev n) id)) MDF_PEER_DIFF_CUR_UUID in
    if (u_at (bitmap_uuids (peer_at n i)) id =? 0) && (negb (md_bitmap_uuid n id =? 0) || diff)
       && (strip (current_uuid (peer_at n i)) =? strip (bsr_current_uuid n))
    then
      let n :=
        if (md_bitmap_uuid n id =? 0) && diff then n
        else
          let n := upd_md_peer id (set_bitmap_uuid 0) (push_history (md_bitmap_uuid n id) n) in
          if (id =? pd_id n i)%nat then n
          else if bitmap_index (peer_md_of (dev n) id) =? -1 then n
          else match pd_by_id n id with
               | Some f =>
                 if isForgettableReplState (repl_state (pd_at n f)).[NOW]
                    && negb (bsr_md_test_peer_flag n i MDF_PEER_PRIMARY_IO_ERROR)
                 then forget_bitmap id n else n
               | None => n
               end in
      (upd_md_peer id (on_peer_md_flags (fun x => Z.ldiff x MDF_PEER_DIFF_CUR_UUID)) n, true)
    else nw.

(** The bitmap of the peer turns out to be void. *)
Definition drop_bitmap (i : nat) (n : node) : node :=
  let id := pd_id n i in
  let n := if md_bitmap_uuid n id =? 0 then n else push_history (md_bitmap_uuid n id) n in
  if negb (bitmap_index (peer_md_of (dev n) id) =? -1) && negb (bsr_md_test_peer_flag n i MDF_PEER_PRIMARY_IO_ERROR)
  then forget_bitmap id n else n.

Definition same_generation (n : node) (i : nat) : bool := strip (current_uuid (peer_at n i)) =? strip (bsr_current_uuid n).

Definition bsr_uuid_detect_finished_resyncs (i : nat) (n : node) : node :=
  let '(n, write_bm) := foldl (detect_slot i) (n, false) (seq 0 BSR_NODE_ID_MAX) in
  let p := pd_at n i in
  let n :=
    if negb (bsr_bm_total_weight n i =? 0) && (dirty_bits (peer_at n i) =? 0)
       && isForgettableReplState (repl_state p).[NOW] && (D_OUTDATED <? my_disk n)
       && negb (((pd_disk_state p).[NOW] =? D_CONSISTENT) && has (uuid_flags p) UUID_FLAG_GOT_STABLE)
       && (my_disk n =? (pd_disk_state p).[NOW])
       && negb (has (uuid_authoritative_nodes p) (NODE_MASK (my_id n))) && same_generation n i
    then drop_bitmap i n else n in
  let '(n, filled) :=
    if negb (bsr_bm_total_weight n i =? 0) && has (uuid_flags p) UUID_FLAG_CONSISTENT_WITH_PRI
       && is_consistent_with_primary n NOW && same_generation n i
    then (drop_bitmap i n, negb (dirty_bits (peer_at n i) =? 0)) else (n, false) in
  if write_bm || filled then
    emit E_bm_write (bsr_propagate_uuids (if filled then U64_MAX else lnot_w 64 (NODE_MASK (pd_node_id p))) n)
  else n.

End Uuid.
