(* ===== verification/UuidExchange.v ===== *)
(** * The UUIDs packet (src/bsr/bsr_main.c, src/bsr/bsr_receiver.c)

    What [_bsr_send_uuids110] packs, [receive_uuids110] unpacks: the receiver's
    view of the peer is what the sender has in its meta data. *)

From S2P Require Import Prelude Hweight State Uuid.

Module UuidExchange.
Import State Uuid.

(** ** The mask of nodes *)

Lemma node_mask_testbit id k : 0 <= k -> (id < 64)%nat -> Z.testbit (NODE_MASK (Z.of_nat id)) k = (k =? Z.of_nat id).
Proof.
  intros Hk Hi. unfold NODE_MASK. rewrite testbit_u64, Z.shiftl_1_l, Z.pow2_bits_eqb by lia.
  rewrite Z.eqb_sym. destruct (Z.eqb_spec k (Z.of_nat id)), (Z.ltb_spec k 64); done || lia.
Qed.

Lemma mask_fold ids m k : 0 <= k -> (forall id, In id ids -> (id < 64)%nat) ->
  Z.testbit (foldl (fun m id => Z.lor m (NODE_MASK (Z.of_nat id))) m ids) k
  = Z.testbit m k || existsb (fun id => k =? Z.of_nat id) ids.
Proof.
  intros Hk. revert m. induction ids as [|id ids IH]; intros m Hi; cbn [foldl existsb]; [by rewrite orb_false_r|].
  rewrite IH by auto using in_cons. rewrite Z.lor_spec, node_mask_testbit by auto using in_eq. by rewrite orb_assoc.
Qed.

Lemma mask_testbit ids k : 0 <= k -> (forall id, In id ids -> (id < 64)%nat) ->
  Z.testbit (mask_of ids) k = existsb (fun id => k =? Z.of_nat id) ids.
Proof. intros. unfold mask_of. rewrite mask_fold by done. by rewrite Z.testbit_0_l. Qed.

Lemma existsb_filter_seq (f : nat -> bool) lo n k :
  existsb (fun id => Z.of_nat k =? Z.of_nat id) (List.filter f (seq lo n)) = (lo <=? k)%nat && (k <? lo + n)%nat && f k.
Proof.
  revert lo. induction n as [|n IH]; intros lo; cbn [seq List.filter].
  - destruct (Nat.leb_spec lo k), (Nat.ltb_spec k (lo + 0)); done || lia.
  - destruct (f lo) eqn:E; cbn [existsb]; rewrite IH;
      destruct (Z.eqb_spec (Z.of_nat k) (Z.of_nat lo)) as [Hk|Hk], (Nat.leb_spec (S lo) k), (Nat.leb_spec lo k),
        (Nat.ltb_spec k (S lo + n)), (Nat.ltb_spec k (lo + S n)); cbn [andb orb]; try done; try lia;
      (assert (k = lo) as -> by lia; by rewrite E).
Qed.

Lemma count_true_filter (f : nat -> bool) lo n :
  count_true (fun k => f (Z.to_nat k)) (Z.of_nat lo) n = Z.of_nat (length (List.filter f (seq lo n))).
Proof.
  revert lo. induction n as [|n IH]; intros lo; cbn [count_true seq List.filter]; [done|].
  rewrite Nat2Z.id. replace (Z.of_nat lo + 1) with (Z.of_nat (S lo)) by lia. rewrite IH.
  destruct (f lo); cbn [length b2z]; lia.
Qed.

Section mask.
Context (n : node).

Lemma existing_eq : existing_nodes n = List.filter (node_exists n) (seq 0 BSR_NODE_ID_MAX).
Proof. done. Qed.

Lemma existing_range id : In id (existing_nodes n) -> (id < BSR_NODE_ID_MAX)%nat.
Proof. unfold existing_nodes. rewrite filter_In, in_seq. generalize BSR_NODE_ID_MAX. intros m [H _]. lia. Qed.

Lemma existing_lt id : In id (existing_nodes n) -> (id < 64)%nat.
Proof. intros H%existing_range. unfold BSR_NODE_ID_MAX in H. lia. Qed.

Lemma mask_has id : (id < BSR_NODE_ID_MAX)%nat -> has (mask_of (existing_nodes n)) (NODE_MASK (Z.of_nat id)) = node_exists n id.
Proof.
  intros Hi. unfold BSR_NODE_ID_MAX in Hi.
  assert (NODE_MASK (Z.of_nat id) = Z.shiftl 1 (Z.of_nat id)) as ->.
  { unfold NODE_MASK. apply u64_id. rewrite Z.shiftl_1_l. split; [lia|]. apply Z.pow_lt_mono_r; lia. }
  rewrite has_bit, mask_testbit by (lia || apply existing_lt). unfold existing_nodes. rewrite existsb_filter_seq.
  unfold BSR_NODE_ID_MAX. by rewrite (proj2 (Nat.ltb_lt _ _) (Hi : (id < 0 + 32)%nat)).
Qed.

Lemma mask_high k : 32 <= k -> Z.testbit (mask_of (existing_nodes n)) k = false.
Proof.
  intros Hk. rewrite mask_testbit by (lia || apply existing_lt). apply not_true_is_false. intros (id & H & He)%existsb_exists.
  apply existing_range in H. unfold BSR_NODE_ID_MAX in H. lia.
Qed.
End mask.


(** ** Packing *)

(** The value the packet has for a slot. *)
Definition sent (n : node) (id : nat) : Z := (__bitmap_uuid id n).2.

Lemma sent_cases n id : sent n id = md_bitmap_uuid n id \/ (md_bitmap_uuid n id = 0 /\ sent n id = U64_MAX).
Proof.
  unfold sent, __bitmap_uuid. cbv zeta. destruct (pd_by_id n id); [|by left].
  destruct (Z.eqb_spec (md_bitmap_uuid n id) 0); [|by left]. cbn [andb]. destruct (_ && _); [by right|by left].
Qed.

(** Packing only marks slots in the meta data. *)
Record flagged (n n' : node) : Prop := mk_flagged {
  fl_bitmap : forall k, md_bitmap_uuid n' k = md_bitmap_uuid n k;
  fl_pds : peer_devices (dev n') = peer_devices (dev n);
  fl_disk : disk_state (dev n') = disk_state (dev n);
  fl_rsc : rsc n' = rsc n;
  fl_ldev : ldev n' = ldev n;
  fl_current : md_current_uuid n' = md_current_uuid n;
  fl_history : md_history_uuids n' = md_history_uuids n;
  fl_weights : bm_set n' = bm_set n;
  fl_peers : peers n' = peers n }.

Lemma flagged_refl n : flagged n n.
Proof. by split. Qed.

Lemma flagged_trans n1 n2 n3 : flagged n1 n2 -> flagged n2 n3 -> flagged n1 n3.
Proof. intros F G. split; intros; (etransitivity; [apply G|apply F]). Qed.

Lemma nth_alter_u {A B} (g : A -> B) (f : A -> A) id k l d :
  (forall x, g (f x) = g x) -> g (nth k (alter f id l) d) = g (nth k l d).
Proof.
  intros Hg. rewrite !nth_lookup. destruct (decide (id = k)) as [->|].
  - rewrite list_lookup_alter_eq. by destruct (l !! k); cbn.
  - by rewrite list_lookup_alter_ne.
Qed.

Lemma flagged_upd n id g : flagged n (upd_md_peer id (on_peer_md_flags g) n).
Proof. split; try done. intros k. unfold md_bitmap_uuid, peer_md_of. cbn. by apply (nth_alter_u bitmap_uuid). Qed.

Lemma flagged_bitmap_uuid n id : flagged n (__bitmap_uuid id n).1.
Proof.
  unfold __bitmap_uuid. cbv zeta. destruct (pd_by_id n id); [|apply flagged_refl].
  destruct (_ && _); [|apply flagged_refl]. cbn [fst]. destruct (_ =? _); [apply flagged_upd|apply flagged_refl].
Qed.

Lemma flagged_pd_by_id n n' id : flagged n n' -> pd_by_id n' id = pd_by_id n id.
Proof. intros F. unfold pd_by_id, peer_ids, pd_at. by rewrite (fl_pds _ _ F). Qed.

Lemma flagged_sent n n' id : flagged n n' -> sent n' id = sent n id.
Proof.
  intros F. unfold sent, __bitmap_uuid. cbv zeta. rewrite (flagged_pd_by_id _ _ _ F), (fl_bitmap _ _ F).
  destruct (pd_by_id n id); [|done]. unfold peer_at, bsr_current_uuid.
  rewrite (fl_peers _ _ F), (fl_ldev _ _ F), (fl_current _ _ F). by destruct (_ && _).
Qed.

Lemma bitmap_uuids_of_spec ids n :
  flagged n (bitmap_uuids_of ids n).1 /\ (bitmap_uuids_of ids n).2 = map (sent n) ids.
Proof.
  unfold bitmap_uuids_of.
  assert (forall m l, flagged n m ->
    flagged n (foldl (fun '(n, l) id => let '(n, v) := __bitmap_uuid id n in (n, l ++ [v])) (m, l) ids).1 /\
    (foldl (fun '(n, l) id => let '(n, v) := __bitmap_uuid id n in (n, l ++ [v])) (m, l) ids).2 = l ++ map (sent n) ids) as H.
  2: by apply (H n []), flagged_refl.
  induction ids as [|id ids IH]; intros m l F; cbn [foldl map]; [by rewrite app_nil_r|].
  pose proof (flagged_bitmap_uuid m id) as F'. pose proof (flagged_sent n m id F) as Hs. unfold sent at 1 in Hs.
  destruct (__bitmap_uuid id m) as [m' v]. cbn [fst snd] in *. subst v.
  destruct (IH m' (l ++ [sent n id]) (flagged_trans _ _ _ F F')) as [H1 H2]. split; [done|]. by rewrite H2, <- app_assoc.
Qed.

(** ** Unpacking *)

(** What the receiver keeps while it takes the slots one by one. *)
Record heard (i : nat) (n n' : node) : Prop := mk_heard {
  he_pds : peer_devices (dev n') = peer_devices (dev n);
  he_rsc : rsc n' = rsc n;
  he_peers : length (peers n') = length (peers n);
  he_slots : length (bitmap_uuids (peer_at n' i)) = length (bitmap_uuids (peer_at n i));
  he_rest : set_bitmap_uuids [] (peer_at n' i) = set_bitmap_uuids [] (peer_at n i) }.

Lemma heard_trans i n1 n2 n3 : heard i n1 n2 -> heard i n2 n3 -> heard i n1 n3.
Proof. intros [] []. split; congruence. Qed.

Lemma heard_upd_md i id f n : heard i n (upd_md_peer id f n).
Proof. by split. Qed.

Lemma peer_at_upd i k f n : (i < length (peers n))%nat ->
  peer_at (upd_peer k f n) i = if decide (k = i) then f (peer_at n i) else peer_at n i.
Proof.
  intros Hi. unfold peer_at. cbn. rewrite !nth_lookup. destruct (decide (k = i)) as [->|].
  - rewrite list_lookup_alter_eq. by destruct (lookup_lt_is_Some_2 _ _ Hi) as [p ->].
  - by rewrite list_lookup_alter_ne.
Qed.

Lemma length_peers_upd k f n : length (peers (upd_peer k f n)) = length (peers n).
Proof. apply length_alter. Qed.

Lemma heard_slot i k id v n : (i < length (peers n))%nat ->
  heard i n (upd_peer k (fun p => set_bitmap_uuids (<[id := v]> (bitmap_uuids p)) p) n).
Proof.
  intros Hi. split; try done; [by apply length_peers_upd|..]; rewrite peer_at_upd by done;
    destruct (decide (k = i)); [|done| |done]; [apply length_insert|done].
Qed.

Lemma u_at_insert l id v x : (id < length l)%nat -> u_at (<[id := v]> l) x = if decide (x = id) then v else u_at l x.
Proof.
  intros Hl. unfold u_at. rewrite !nth_lookup. destruct (decide (x = id)) as [->|].
  - by rewrite list_lookup_insert_eq.
  - by rewrite list_lookup_insert_ne.
Qed.

Lemma update_slot_spec i id v n : (i < length (peers n))%nat -> (id < length (bitmap_uuids (peer_at n i)))%nat ->
  peer_node_id (conn_at n i) = pd_node_id (pd_at n i) ->
  heard i n (update_bitmap_slot_of_peer i id v n) /\
  forall x, u_at (bitmap_uuids (peer_at (update_bitmap_slot_of_peer i id v n) i)) x =
            if decide (x = id) then v else u_at (bitmap_uuids (peer_at n i)) x.
Proof.
  intros Hi Hid Hn. unfold update_bitmap_slot_of_peer. cbv zeta. set (m := if _ && _ then _ else n).
  assert (heard i n m /\ forall x, x <> id -> u_at (bitmap_uuids (peer_at m i)) x = u_at (bitmap_uuids (peer_at n i)) x)
    as [Hm Hx].
  { unfold m. destruct (_ && _); [|by split]. destruct (pd_by_id n id) as [i2|] eqn:Ef; [|by split].
    split; [by apply heard_slot|]. intros x Hne. rewrite peer_at_upd by done. destruct (decide (i2 = i)) as [->|]; [|done].
    apply find_some in Ef as [_ Ef]. apply Z.eqb_eq in Ef. cbn [bitmap_uuids set_bitmap_uuids].
    rewrite Hn, Ef, Nat2Z.id, u_at_insert by done. by rewrite decide_False. }
  assert (i < length (peers m))%nat as Hi' by (by rewrite (he_peers _ _ _ Hm)).
  split; [by eapply heard_trans, heard_slot|]. intros x. rewrite peer_at_upd, decide_True by done. cbn [bitmap_uuids set_bitmap_uuids].
  rewrite u_at_insert by (by rewrite (he_slots _ _ _ Hm)). destruct (decide (x = id)); [done|by apply Hx].
Qed.


(** The receiving side is set up. *)
Record listening (n : node) (i : nat) : Prop := mk_listening {
  li_peer : (i < length (peers n))%nat;
  li_slots : length (bitmap_uuids (peer_at n i)) = BSR_NODE_ID_MAX;
  li_node : peer_node_id (conn_at n i) = pd_node_id (pd_at n i) }.

Lemma heard_listening i n n' : heard i n n' -> listening n i -> listening n' i.
Proof.
  intros [E1 E2 E3 E4 _] []. split; [by rewrite E3|by rewrite E4|]. unfold conn_at, pd_at, conn_of in *. by rewrite E2, E1.
Qed.

Section take.
Context (i : nat) (mask : Z) (ex : nat -> bool) (v : nat -> Z) (rest : list Z).
Context (Hmask : forall id, (id < BSR_NODE_ID_MAX)%nat -> has mask (NODE_MASK (Z.of_nat id)) = ex id).

Lemma take_fold lo cnt n : listening n i -> (lo + cnt <= BSR_NODE_ID_MAX)%nat ->
  let r := foldl (take_bitmap_uuid i mask) (n, map v (List.filter ex (seq lo cnt)) ++ rest) (seq lo cnt) in
  r.2 = rest /\ heard i n r.1 /\
  forall x, u_at (bitmap_uuids (peer_at r.1 i)) x =
    if (lo <=? x)%nat && (x <? lo + cnt)%nat then (if ex x then v x else 0) else u_at (bitmap_uuids (peer_at n i)) x.
Proof.
  revert lo n. induction cnt as [|cnt IH]; intros lo n L Hc; cbn [seq List.filter map foldl].
  { split; [done|split; [by split|]]. intros x. destruct (Nat.leb_spec lo x), (Nat.ltb_spec x (lo + 0)); done || lia. }
  assert (exists n1, take_bitmap_uuid i mask
            (n, (map v (if ex lo then lo :: List.filter ex (seq (S lo) cnt) else List.filter ex (seq (S lo) cnt))) ++ rest) lo
          = (n1, map v (List.filter ex (seq (S lo) cnt)) ++ rest) /\ heard i n n1 /\
          forall x, u_at (bitmap_uuids (peer_at n1 i)) x =
            if decide (x = lo) then (if ex lo then v lo else 0) else u_at (bitmap_uuids (peer_at n i)) x) as (n1 & -> & H1 & Hx1).
  { unfold take_bitmap_uuid. rewrite Hmask by lia. destruct (ex lo).
    - cbn [map app List.hd tail]. set (m := if _ && _ then _ else n).
      assert (heard i n m /\ peer_at m i = peer_at n i) as [Hm Hp] by (unfold m; destruct (_ && _); by split).
      pose proof (heard_listening _ _ _ Hm L) as [L1 L2 L3].
      destruct (update_slot_spec i lo (v lo) m L1 ltac:(rewrite L2; lia) L3) as [Hh Hs].
      eexists. split; [done|]. split; [by eapply heard_trans|]. intros x. by rewrite Hs, Hp.
    - destruct L as [L1 L2 L3]. destruct (update_slot_spec i lo 0 n L1 ltac:(rewrite L2; lia) L3) as [Hh Hs].
      by eexists. }
  destruct (IH (S lo) n1 (heard_listening _ _ _ H1 L) ltac:(lia)) as (Hr & Hh & Hx).
  split; [done|]. split; [by eapply heard_trans|]. intros x. rewrite Hx, Hx1.
  destruct (Nat.leb_spec (S lo) x), (Nat.leb_spec lo x), (Nat.ltb_spec x (S lo + cnt)), (Nat.ltb_spec x (lo + S cnt)),
    (decide (x = lo)) as [->|]; cbn [andb]; done || lia.
Qed.
End take.

Lemma map_nth_seq (f : nat -> Z) m k : (k < m)%nat -> u_at (map f (seq 0 m)) k = f k.
Proof. intros Hk. unfold u_at. rewrite nth_lookup, list_lookup_fmap, lookup_seq_lt by done. done. Qed.

Lemma mask_in_u n : in_u 64 (mask_of (existing_nodes n)).
Proof.
  apply in_u_of_testbit; [lia| |].
  - unfold mask_of. assert (forall l m, 0 <= m -> 0 <= foldl (fun m id => Z.lor m (NODE_MASK (Z.of_nat id))) m l) as H.
    { induction l as [|id l IH]; intros m Hm; [done|]. cbn. apply IH, Z.lor_nonneg. split; [done|].
      apply Z.mod_pos_bound. lia. }
    by apply H.
  - intros k Hk. apply mask_high. lia.
Qed.

Lemma mask_weight n : hweight64 (mask_of (existing_nodes n)) = Z.of_nat (length (existing_nodes n)).
Proof.
  rewrite hweight64_count by apply mask_in_u. unfold existing_nodes at 2. rewrite <- (count_true_filter _ 0 BSR_NODE_ID_MAX).
  change 64%nat with (BSR_NODE_ID_MAX + 32)%nat. rewrite count_true_app.
  rewrite (count_true_ext _ (fun _ => false) (0 + _)), (proj2 (count_true_zero (fun _ => false) _ _)) by
    (done || (intros k Hk; apply mask_high; unfold BSR_NODE_ID_MAX in Hk; lia)).
  rewrite Z.add_0_r. apply count_true_ext. intros k Hk. unfold BSR_NODE_ID_MAX in Hk.
  rewrite <- (Z2Nat.id k) at 1 by lia. rewrite <- mask_has by (unfold BSR_NODE_ID_MAX; lia).
  unfold NODE_MASK. rewrite u64_id.
  - by rewrite has_bit by lia.
  - rewrite Z.shiftl_1_l. split; [lia|]. apply Z.pow_lt_mono_r; lia.
Qed.


(** ** The packet, and what is left of it *)

Lemma flagged_weight n n' i : flagged n n' -> bsr_bm_total_weight n' i = bsr_bm_total_weight n i.
Proof.
  intros F. unfold bsr_bm_total_weight, get_ldev_if_state, _bsr_bm_total_weight, my_disk, pd_at.
  by rewrite (fl_pds _ _ F), (fl_ldev _ _ F), (fl_disk _ _ F), (fl_weights _ _ F).
Qed.

Lemma packet_fields j flags node_mask which n :
  let p := (uuids110 j flags node_mask which n).2 in
  u_current_uuid p = bsr_current_uuid n /\ u_dirty_bits p = bsr_bm_total_weight n j /\
  u_bitmap_uuids_mask p = mask_of (existing_nodes n) /\
  u_other_uuids p = map (sent n) (existing_nodes n) ++ map (bsr_history_uuid n) (seq 0 HISTORY_UUIDS).
Proof.
  unfold uuids110. destruct (bitmap_uuids_of_spec (existing_nodes n) n) as [F E].
  destruct (bitmap_uuids_of (existing_nodes n) n) as [m l]. cbn [fst snd] in F, E. cbv zeta.
  destruct (bsr_device_stable_ex _ _ _ _) as [st au]. cbn [snd u_current_uuid u_dirty_bits u_bitmap_uuids_mask u_other_uuids].
  split; [done|split; [by apply flagged_weight|split; [done|]]]. rewrite E. f_equal. apply map_ext. intros k.
  unfold bsr_history_uuid. by rewrite (fl_ldev _ _ F), (fl_history _ _ F).
Qed.

Lemma pd_at_upd i k r f au n : pd_at (upd_pd_uuid i r f au n) k = pd_at n k \/
  (k = i /\ connection (pd_at (upd_pd_uuid i r f au n) k) = connection (pd_at n k) /\
   pd_node_id (pd_at (upd_pd_uuid i r f au n) k) = pd_node_id (pd_at n k)).
Proof.
  unfold pd_at. cbn. rewrite !nth_lookup. destruct (decide (i = k)) as [->|].
  - right. rewrite list_lookup_alter_eq. by destruct (peer_devices (dev n) !! k).
  - left. by rewrite list_lookup_alter_ne.
Qed.

Lemma pd_at_upd_eq i r f au n : (i < length (peer_devices (dev n)))%nat ->
  uuid_flags (pd_at (upd_pd_uuid i r f au n) i) = f /\ uuids_received (pd_at (upd_pd_uuid i r f au n) i) = r.
Proof.
  intros Hi. unfold pd_at. cbn. rewrite !nth_lookup, list_lookup_alter_eq.
  by destruct (lookup_lt_is_Some_2 _ _ Hi) as [q ->].
Qed.

Lemma listening_upd_pd i r f au n : listening n i -> listening (upd_pd_uuid i r f au n) i.
Proof.
  intros []. split; [done..|]. unfold conn_at, conn_of in *.
  by destruct (pd_at_upd i i r f au n) as [->|(_ & -> & ->)].
Qed.

Lemma listening_upd_peer i f n : (forall p, bitmap_uuids (f p) = bitmap_uuids p) -> listening n i -> listening (upd_peer i f n) i.
Proof.
  intros Hf []. split; [by rewrite length_peers_upd| |done]. rewrite peer_at_upd, decide_True by done. by rewrite Hf.
Qed.

Lemma node_mask_low mask : (forall k, 32 <= k -> Z.testbit mask k = false) ->
  Z.land mask (lnot_w 64 (NODE_MASK (Z.of_nat BSR_NODE_ID_MAX) - 1)) = 0.
Proof.
  intros Hm. apply Z.bits_inj'. intros k Hk. rewrite Z.land_spec, Z.bits_0. destruct (Z.leb_spec 32 k); [by rewrite Hm|].
  assert (lnot_w 64 (NODE_MASK (Z.of_nat BSR_NODE_ID_MAX) - 1) = Z.shiftl (Z.ones 32) 32) as -> by reflexivity.
  rewrite Z.shiftl_spec_low by lia. apply andb_false_r.
Qed.

Section unpack.
Context (a : node) (i : nat) (p : p_uuids110) (ex : nat -> bool) (v : nat -> Z) (hist : list Z).
Context (L : listening a i) (Hpd : (i < length (peer_devices (dev a)))%nat).
Context (Hmask : forall id, (id < BSR_NODE_ID_MAX)%nat -> has (u_bitmap_uuids_mask p) (NODE_MASK (Z.of_nat id)) = ex id).
Context (Hlow : forall k, 32 <= k -> Z.testbit (u_bitmap_uuids_mask p) k = false).
Context (Hweight : hweight64 (u_bitmap_uuids_mask p) = Z.of_nat (length (List.filter ex (seq 0 BSR_NODE_ID_MAX)))).
Context (Hother : u_other_uuids p = map v (List.filter ex (seq 0 BSR_NODE_ID_MAX)) ++ hist).
Context (Hhist : length hist = HISTORY_UUIDS).

(** The receiver before it takes the slots. *)
Definition opened : node :=
  let n := upd_peer i (fun q => set_dirty_bits (u_dirty_bits p) (set_current_uuid (u_current_uuid p) q)) a in
  upd_pd_uuid i (uuids_received (pd_at n i)) (u_uuid_flags p)
    (if has (u_uuid_flags p) (Z.shiftl 1 61) then 0 else u_node_mask p) n.

Lemma unpack_runs :
  unpack_uuids110 i (8 * Z.of_nat (length (u_other_uuids p))) 0 0 p a =
  let '(n, l) := foldl (take_bitmap_uuid i (u_bitmap_uuids_mask p)) (opened, u_other_uuids p) (seq 0 BSR_NODE_ID_MAX) in
  let n := upd_peer i (set_history_uuids (firstn HISTORY_UUIDS l ++ repeat 0 (HISTORY_UUIDS - length (firstn HISTORY_UUIDS l)))) n in
  inr (upd_pd_uuid i true (uuid_flags (pd_at n i)) (uuid_authoritative_nodes (pd_at n i)) n).
Proof.
  unfold unpack_uuids110. cbv zeta. fold opened. rewrite node_mask_low by done. cbn [negb Z.eqb].
  assert (Z.of_nat (length (u_other_uuids p)) = hweight64 (u_bitmap_uuids_mask p) + Z.of_nat HISTORY_UUIDS) as Hl
    by (rewrite Hother, Hweight, length_app, length_map, Hhist; lia).
  rewrite (Z.mul_comm 8), Z.div_mul, Hl by done. generalize dependent (hweight64 (u_bitmap_uuids_mask p)). intros m _ _.
  rewrite (proj2 (Z.ltb_ge _ _)) by lia. replace (Z.min _ (Z.of_nat HISTORY_UUIDS)) with (Z.of_nat HISTORY_UUIDS) by lia.
  rewrite Nat2Z.id. replace (_ * 8 - _) with 0 by lia. done.
Qed.

Lemma unpack_ok : exists a', unpack_uuids110 i (8 * Z.of_nat (length (u_other_uuids p))) 0 0 p a = inr a' /\
  current_uuid (peer_at a' i) = u_current_uuid p /\ dirty_bits (peer_at a' i) = u_dirty_bits p /\
  history_uuids (peer_at a' i) = hist /\
  (forall k, (k < BSR_NODE_ID_MAX)%nat -> u_at (bitmap_uuids (peer_at a' i)) k = if ex k then v k else 0) /\
  uuid_flags (pd_at a' i) = u_uuid_flags p /\ uuids_received (pd_at a' i) = true.
Proof.
  rewrite unpack_runs, Hother.
  assert (listening opened i) as L0 by (by apply listening_upd_pd, listening_upd_peer).
  destruct (take_fold i _ ex v hist Hmask 0 BSR_NODE_ID_MAX opened L0 (Nat.le_refl _)) as (Hr & Hh & Hs).
  destruct (foldl _ _ _) as [n1 l1]. cbn [fst snd] in Hr, Hh, Hs. subst l1. eexists. split; [done|].
  assert (peer_at opened i = set_dirty_bits (u_dirty_bits p) (set_current_uuid (u_current_uuid p) (peer_at a i))) as Hn0.
  { unfold opened. cbv zeta. change (peer_at (upd_pd_uuid i ?r ?f ?u ?n) i) with (peer_at n i).
    rewrite peer_at_upd by apply L. by rewrite decide_True. }
  pose proof (he_rest _ _ _ Hh) as Hrest. rewrite Hn0 in Hrest. pose proof (f_equal current_uuid Hrest) as Hcur.
  pose proof (f_equal dirty_bits Hrest) as Hdirty. cbn in Hcur, Hdirty.
  pose proof (heard_listening _ _ _ Hh L0) as [L1 _ _].
  set (h := set_history_uuids _).
  change (peer_at (upd_pd_uuid i ?r ?f ?u ?n) i) with (peer_at n i). rewrite peer_at_upd, decide_True by done.
  cbn [h set_history_uuids current_uuid dirty_bits history_uuids bitmap_uuids].
  split; [done|split; [done|]]. split; [|split].
  - rewrite firstn_all2 by (by rewrite Hhist). rewrite Hhist, Nat.sub_diag. apply app_nil_r.
  - intros k Hk. rewrite Hs. by rewrite (proj2 (Nat.ltb_lt _ _)) by done.
  - assert (length (peer_devices (dev n1)) = length (peer_devices (dev a))) as Hlen.
    { rewrite (he_pds _ _ _ Hh). unfold opened. cbn. apply length_alter. }
    destruct (pd_at_upd_eq i true (uuid_flags (pd_at (upd_peer i h n1) i))
                (uuid_authoritative_nodes (pd_at (upd_peer i h n1) i)) (upd_peer i h n1) ltac:(cbn; lia)) as [-> ->].
    split; [|done]. change (pd_at (upd_peer i h n1) i) with (pd_at n1 i).
    assert (pd_at n1 i = pd_at opened i) as -> by (unfold pd_at; by rewrite (he_pds _ _ _ Hh)).
    by apply pd_at_upd_eq.
Qed.
End unpack.

(** C25. What _bsr_send_uuids110 puts into a packet, receive_uuids110 takes out again:
    the receiver accepts the packet and stores the sender's current UUID, dirty bits,
    flags and all 32 history UUIDs; the bitmap UUID of every node the sender knows is
    stored in its slot (0 may arrive as -1), and the slots of all other nodes are 0. *)
Theorem uuids_exchanged a i b j flags node_mask which :
  listening a i -> (i < length (peer_devices (dev a)))%nat ->
  let p := (uuids110 j flags node_mask which b).2 in
  exists a', unpack_uuids110 i (8 * Z.of_nat (length (u_other_uuids p))) 0 0 p a = inr a' /\
    current_uuid (peer_at a' i) = bsr_current_uuid b /\
    dirty_bits (peer_at a' i) = bsr_bm_total_weight b j /\
    (forall k, (k < HISTORY_UUIDS)%nat -> u_at (history_uuids (peer_at a' i)) k = bsr_history_uuid b k) /\
    (forall k, (k < BSR_NODE_ID_MAX)%nat ->
       let slot := u_at (bitmap_uuids (peer_at a' i)) k in
       let uuid := if node_exists b k then md_bitmap_uuid b k else 0 in
       slot = uuid \/ (uuid = 0 /\ slot = U64_MAX)) /\
    uuid_flags (pd_at a' i) = u_uuid_flags p /\ uuids_received (pd_at a' i) = true.
Proof.
  intros L Hpd p. destruct (packet_fields j flags node_mask which b) as (Ec & Ed & Em & Eo). fold p in Ec, Ed, Em, Eo.
  pose proof (mask_has b) as M1. pose proof (mask_high b) as M2. pose proof (mask_weight b) as M3.
  rewrite <- Em in M1, M2, M3. rewrite existing_eq in M3, Eo.
  destruct (unpack_ok a i p (node_exists b) (sent b) _ L Hpd M1 M2 M3 Eo) as (a' & -> & Hc & Hd & Hh & Hs & Hf & Hu).
  { by rewrite length_map, length_seq. }
  exists a'. split; [done|]. split; [congruence|]. split; [congruence|]. rewrite Hh. split; [|split; [|done]].
  - intros k Hk. by apply map_nth_seq.
  - intros k Hk. rewrite Hs by done. destruct (node_exists b k); [apply sent_cases|by left].
Qed.

End UuidExchange.
