(* ===== verification/Handshake.v ===== *)
(** * The handshake (src/bsr/bsr_receiver.c)

    When two nodes meet they compare their UUIDs: who has the newer data, is
    a bitmap there to resynchronise with, or did both write on their own?
    The result, "goodness", is a number whose sign says who is the source:
    see the table above [bsr_uuid_compare] in the source. *)

From S2P Require Import Prelude State Uuid.

Module Handshake.
Import State Uuid.

(** What the handshake asks other parts: whether the demotion of a primary
    succeeds, the settings and answers of fast sync, the result of setting
    the whole bitmap, and the weights the bitmap has after either. *)
Record env := mk_env {
  e_demoted : bool;
  e_fast_sync : bool;
  e_mounted : bool;
  e_oos_set : bool;
  e_bsync : bool;
  e_oos_weight : Z;
  e_bm_bits : Z;
  e_bitmap_io : Z }.

(** The bitmap UUID the peer has for this node. *)
Definition my_slot (n : node) (i : nat) : Z := u_at (bitmap_uuids (peer_at n i)) (Z.to_nat (my_id n)).

(** ** Recovery from a split brain *)

Section with_env.
Context (e : env).

Definition bsr_asb_recover_0p (i : nat) (n : node) : Z :=
  let self := Z.land (bsr_bitmap_uuid n i) UUID_PRIMARY in
  let peer := Z.land (my_slot n i) UUID_PRIMARY in
  let ch_peer := dirty_bits (peer_at n i) in
  let ch_self := comm_bm_set (peer_at n i) in
  let toss := if RESOLVE_CONFLICTS (uconn_at n i) then -2 else 2 in
  let least_chg := if ch_self <? ch_peer then -2 else if ch_peer <? ch_self then 2 else toss in
  let zero_chg (zero_only : bool) :=
    if (ch_peer =? 0) && (ch_self =? 0) then toss
    else if ch_peer =? 0 then 2
    else if ch_self =? 0 then -2
    else if zero_only then -100 else least_chg in
  let older_pri :=
    if (self =? 0) && (peer =? 1) then 2 else if (self =? 1) && (peer =? 0) then -2 else zero_chg false in
  match after_sb_0p (uconn_at n i) with
  | ASB_CONSENSUS | ASB_DISCARD_SECONDARY | ASB_CALL_HELPER | ASB_VIOLENTLY | ASB_DISCONNECT => -100
  | ASB_DISCARD_YOUNGER_PRI =>
    if (self =? 0) && (peer =? 1) then -2 else if (self =? 1) && (peer =? 0) then 2 else older_pri
  | ASB_DISCARD_OLDER_PRI => older_pri
  | ASB_DISCARD_ZERO_CHG => zero_chg true
  | ASB_DISCARD_LEAST_CHG => least_chg
  | ASB_DISCARD_LOCAL => -2
  | ASB_DISCARD_REMOTE => 2
  end.

(** [change_role(resource, R_SECONDARY, ...)] and what follows it. *)
Definition demote (hg : Z) (n : node) : node * Z :=
  if e_demoted e then
    (mk_node (set_role (rsc n) (mk2 R_SECONDARY R_SECONDARY)) (dev n) (ldev n) (md_current_uuid n) (md_history_uuids n)
       (bitmap_dagtags n) (exposed_data_uuid n) (dagtag_sector n) (bm_set n) (peers n) (conns n) (log n), hg)
  else (emit (E_khelper pri_lost_after_sb) n, -100).

Definition bsr_asb_recover_1p (i : nat) (n : node) : node * Z :=
  let hg := bsr_asb_recover_0p i n in
  match after_sb_1p (uconn_at n i) with
  | ASB_DISCARD_YOUNGER_PRI | ASB_DISCARD_OLDER_PRI | ASB_DISCARD_LEAST_CHG | ASB_DISCARD_LOCAL
  | ASB_DISCARD_REMOTE | ASB_DISCARD_ZERO_CHG | ASB_DISCONNECT => (n, -100)
  | ASB_CONSENSUS =>
    (n, if (hg =? 2) && (my_role n =? R_PRIMARY) then hg
        else if (hg =? -2) && (my_role n =? R_SECONDARY) then hg else -100)
  | ASB_VIOLENTLY => (n, hg)
  | ASB_DISCARD_SECONDARY => (n, if my_role n =? R_PRIMARY then 2 else -2)
  | ASB_CALL_HELPER => if (hg =? -2) && (my_role n =? R_PRIMARY) then demote hg n else (n, hg)
  end.

Definition bsr_asb_recover_2p (i : nat) (n : node) : node * Z :=
  let hg := bsr_asb_recover_0p i n in
  match after_sb_2p (uconn_at n i) with
  | ASB_DISCARD_YOUNGER_PRI | ASB_DISCARD_OLDER_PRI | ASB_DISCARD_LEAST_CHG | ASB_DISCARD_LOCAL
  | ASB_DISCARD_REMOTE | ASB_CONSENSUS | ASB_DISCARD_SECONDARY | ASB_DISCARD_ZERO_CHG | ASB_DISCONNECT => (n, -100)
  | ASB_VIOLENTLY => (n, hg)
  | ASB_CALL_HELPER => if hg =? -2 then demote hg n else (n, hg)
  end.

(** [convert_after_sb]: what the setting of the peer has to be here. *)
Definition convert_after_sb (peer : bsr_after_sb_p) : bsr_after_sb_p :=
  match peer with
  | ASB_DISCARD_REMOTE => ASB_DISCARD_LOCAL
  | ASB_DISCARD_LOCAL => ASB_DISCARD_REMOTE
  | p => p
  end.

(** ** Comparing UUIDs *)

Definition peer_hist (n : node) (i k : nat) : Z := u_at (history_uuids (peer_at n i)) k.
Definition version (n : node) (i : nat) : Z := agreed_pro_version (conn_at n i).

(** A result and the rule that gave it; [None] leaves the decision to later rules (-2000). *)
Definition verdict : Type := option (Z * Z).

Definition uuid_fixup_resync_end (i : nat) (n : node) : node * verdict :=
  let id := Z.to_nat (my_id n) in
  if (my_slot n i =? 0) && negb (bsr_bitmap_uuid n i =? 0) then
    if version n i <? 91 then (n, Some (-1091, 30))
    else if (strip (bsr_bitmap_uuid n i) =? strip (peer_hist n i 0))
            && (strip (bsr_history_uuid n 0) =? strip (peer_hist n i 0)) then
      (upd_md_peer (pd_id n i) (set_bitmap_uuid 0) (push_history (md_bitmap_uuid n (pd_id n i)) n), Some (2, 34))
    else (n, Some (2, 36))
  else if (bsr_bitmap_uuid n i =? 0) && negb (my_slot n i =? 0) then
    if version n i <? 91 then (n, Some (-1091, 30))
    else if (strip (bsr_history_uuid n 0) =? strip (my_slot n i))
            && (strip (bsr_history_uuid n 1) =? strip (peer_hist n i 0)) then
      (upd_peer i (fun p => set_bitmap_uuids (<[id := 0]> (bitmap_uuids p))
                              (set_history_uuids (u_at (bitmap_uuids p) id :: removelast (history_uuids p)) p)) n,
       Some (-2, 35))
    else (n, Some (-2, 37))
  else (n, None).

Definition uuid_fixup_resync_start1 (i : nat) (n : node) : node * verdict :=
  let id := Z.to_nat (my_id n) in
  let self := strip (bsr_current_uuid n) in
  let peer := strip (peer_hist n i 0) in
  if (self =? peer) && (if version n i <? 96 then strip (bsr_history_uuid n 0) =? strip (peer_hist n i 1)
                        else u64 (peer + UUID_NEW_BM_OFFSET) =? strip (my_slot n i)) then
    if version n i <? 91 then (n, Some (-1091, 51))
    else
      (upd_peer i (fun p => set_bitmap_uuids (<[id := u_at (history_uuids p) 0]> (bitmap_uuids p))
                              (set_history_uuids (tail (history_uuids p) ++ [0]) p)) n, Some (-2, 51))
  else (n, None).

Definition uuid_fixup_resync_start2 (i : nat) (n : node) : node * verdict :=
  let self := strip (bsr_history_uuid n 0) in
  let peer := strip (current_uuid (peer_at n i)) in
  if (self =? peer) && (if version n i <? 96 then strip (bsr_history_uuid n 1) =? strip (peer_hist n i 0)
                        else u64 (self + UUID_NEW_BM_OFFSET) =? strip (bsr_bitmap_uuid n i)) then
    if version n i <? 91 then (n, Some (-1091, 71))
    else let '(u, n) := _bsr_uuid_pull_history None n in (__bsr_uuid_set_bitmap i u n, Some (2, 71))
  else (n, None).

(** Rules 38 and 40: both are at the same generation. *)
Definition compare_equal (i : nat) (n : node) : Z * Z :=
  let crashed := has (uuid_flags (pd_at n i)) UUID_FLAG_CRASHED_PRIMARY in
  if has (uuid_flags (pd_at n i)) UUID_FLAG_RECONNECT && RECONNECT (uconn_at n i) then (0, 38)
  else if is_sync_source n i then (0, 40)
  else if CRASHED_PRIMARY (dev n) && bsr_md_test_peer_flag n i MDF_CRASHED_PRIMARY_WORK_PENDING then
    if crashed && RESOLVE_CONFLICTS (uconn_at n i) then (-1, 40) else (1, 40)
  else if crashed then (-1, 40) else (0, 40).

(** Rules 80 to 100. *)
Definition compare_rest (i : nat) (n : node) : Z * Z :=
  let peer := strip (current_uuid (peer_at n i)) in
  let mine := map (fun k => strip (bsr_history_uuid n k)) (seq 0 HISTORY_UUIDS) in
  let theirs := map (fun k => strip (peer_hist n i k)) (seq 0 HISTORY_UUIDS) in
  if existsb (Z.eqb peer) mine then (3, 80)
  else if (strip (bsr_bitmap_uuid n i) =? strip (my_slot n i)) && negb (strip (bsr_bitmap_uuid n i) =? 0) then (100, 90)
  else if existsb (fun self => existsb (Z.eqb self) theirs) mine then (-100, 100)
  else (-1000, 100).

(** The result, [*rule_nr] and what [*peer_node_id] is set to. *)
Definition bsr_uuid_compare (i : nat) (n : node) : node * (Z * Z * option nat) :=
  let self := strip (bsr_current_uuid n) in
  let peer := strip (current_uuid (peer_at n i)) in
  let self := if self =? 0 then UUID_JUST_CREATED else self in
  let peer := if peer =? 0 then UUID_JUST_CREATED else peer in
  if (self =? UUID_JUST_CREATED) && (peer =? UUID_JUST_CREATED) then (n, (0, 10, None))
  else if self =? UUID_JUST_CREATED then (n, (-3, 20, None))
  else if peer =? UUID_JUST_CREATED then (n, (3, 30, None))
  else if self =? peer then
    let '(n, v) := if version n i <? 110 then uuid_fixup_resync_end i n else (n, None) in
    (n, (match v with Some r => r | None => compare_equal i n end, None))
  else if self =? strip (my_slot n i) then (n, (-2, 50, None))
  else match List.find (fun k => self =? strip (u_at (bitmap_uuids (peer_at n i)) k)) (seq 0 BSR_NODE_ID_MAX) with
  | Some k => (n, (-4, 52, Some k))
  | None =>
    let '(n, v) := if version n i <? 110 then uuid_fixup_resync_start1 i n else (n, None) in
    match v with
    | Some r => (n, (r, None))
    | None =>
      if existsb (fun k => strip (bsr_current_uuid n) =? strip (peer_hist n i k)) (seq 0 HISTORY_UUIDS)
      then (n, (-3, 60, None))
      else if strip (bsr_bitmap_uuid n i) =? strip (current_uuid (peer_at n i)) then (n, (2, 70, None))
      else match List.find (fun k => negb (Z.of_nat k =? pd_node_id (pd_at n i))
                                     && negb (Z.of_nat k =? md_node_id (ldev_md (dev n)))
                                     && (strip (md_bitmap_uuid n k) =? strip (current_uuid (peer_at n i))))
                   (seq 0 BSR_NODE_ID_MAX) with
      | Some k => (n, (4, 72, Some k))
      | None =>
        let '(n, v) := if version n i <? 110 then uuid_fixup_resync_start2 i n else (n, None) in
        (n, (match v with Some r => r | None => compare_rest i n end, None))
      end
    end
  end.

(** ** From goodness to states *)

Definition is_resync_running (n : node) : bool :=
  existsb (fun p => match (repl_state p).[NOW] with L_SYNC_TARGET | L_PAUSED_SYNC_T => true | _ => false end)
    (peer_devices (dev n)).

Definition inspect (n : node) (i : nat) (side : bsr_repl_state) : bool :=
  bsr_inspect_resync_side (rsc n) (dev n) (pd_at n i) side NOW.

Definition set_weight (i : nat) (w : Z) (n : node) : node :=
  set_weights (alter (fun _ => w) (Z.to_nat (pd_bitmap_index (pd_at n i))) (bm_set n)) n.

(** The whole bitmap is set before a full sync, or the blocks in use with fast sync. *)
Definition bitmap_mod_after_handshake (i : nat) (hg : Z) (n : node) : node * Z :=
  if (hg =? 4) || (hg =? -4) then (n, 0)
  else if 3 <=? Z.abs hg then
    if (hg =? -3) && (bsr_current_uuid n =? UUID_JUST_CREATED)
       && (is_resync_running n || negb (inspect n i L_SYNC_TARGET)) then (n, 0)
    else if ((hg =? 3) && has (uuid_flags (pd_at n i)) UUID_FLAG_INIT_SYNCT_BEGIN)
            || ((hg =? -3) && bsr_md_test_peer_flag n i MDF_PEER_INIT_SYNCT_BEGIN) then (n, 0)
    else
      let fast := e_fast_sync e && negb ((0 <? hg) && negb (e_mounted e)) in
      if fast && e_oos_set e then (set_weight i (e_oos_weight e) n, 0)
      else if negb fast || e_bsync e then
        let n := emit (E_set_bitmap i) (set_weight i (e_bm_bits e) n) in
        (n, if e_bitmap_io e =? 0 then 0 else -1)
      else (n, 0)
  else (n, 0).

(** No resync: the bitmap is void, unless an I/O error of a primary left bits in it. *)
Definition settle_equal (i : nat) (n : node) : node * bsr_repl_state :=
  let void n := clear_slot (pd_bitmap_index (pd_at n i)) (bsr_uuid_set_bitmap i 0 n) in
  if negb (bsr_bitmap_uuid n i =? 0) then (void n, L_ESTABLISHED)
  else if bsr_bm_total_weight n i =? 0 then (n, L_ESTABLISHED)
  else if bsr_md_test_peer_flag n i MDF_PEER_PRIMARY_IO_ERROR then (n, L_WF_BITMAP_S)
  else if has (uuid_flags (pd_at n i)) UUID_FLAG_PRIMARY_IO_ERROR then (n, L_WF_BITMAP_T)
  else if bsr_md_test_peer_flag n i MDF_PEER_IN_PROGRESS_SYNC || has (uuid_flags (pd_at n i)) UUID_FLAG_IN_PROGRESS_SYNC
  then (void n, L_ESTABLISHED)
  else (n, L_ESTABLISHED).

Definition goodness_to_repl_state (i : nat) (p_role : bsr_role) (hg : Z) (n : node) : node * bsr_repl_state :=
  if ((hg =? 1) || (hg =? -1)) && ((my_role n =? R_PRIMARY) || (p_role =? R_PRIMARY)) then
    (n, if p_role =? R_SECONDARY then L_WF_BITMAP_S
        else if my_role n =? R_SECONDARY then L_WF_BITMAP_T else L_ESTABLISHED)
  else
    let '(n, rv) := if 0 <? hg then (n, L_WF_BITMAP_S) else if hg <? 0 then (n, L_WF_BITMAP_T) else settle_equal i n in
    (if bsr_md_test_peer_flag n i MDF_PEER_IN_PROGRESS_SYNC
     then bsr_md_clear_peer_flag n i MDF_PEER_IN_PROGRESS_SYNC else n, rv).

(** The disk state, read from the meta data while it is being negotiated. *)
Definition known_disk (n : node) : bsr_disk_state :=
  if my_disk n =? D_NEGOTIATING then disk_state_from_md (dev n) else my_disk n.

Definition disk_states_to_goodness (p_disk : bsr_disk_state) (hg rule_nr : Z) (n : node) : Z :=
  if (negb (hg =? 0) && negb (rule_nr =? 40)) || (p_disk =? D_UNKNOWN) then hg
  else
    let d := known_disk n in
    if ((d =? D_INCONSISTENT) && (D_INCONSISTENT <? p_disk)) || ((p_disk =? D_INCONSISTENT) && (D_INCONSISTENT <? d))
    then (if D_INCONSISTENT <? d then 2 else -2) else hg.

Definition various_states_to_goodness (i : nat) (p_disk : bsr_disk_state) (p_role : bsr_role) (hg : Z) (n : node) : node * Z :=
  if negb (hg =? 0) || ((bsr_bm_total_weight n i =? 0) && (dirty_bits (peer_at n i) =? 0)) then (n, hg)
  else
    let d := known_disk n in
    if (my_role n =? R_PRIMARY) || (p_role =? R_PRIMARY) then (n, if my_role n =? R_PRIMARY then 2 else -2)
    else if (p_disk =? D_CONSISTENT) || (d =? D_CONSISTENT) then (n, hg)
    else if negb (p_disk =? D_UNKNOWN) && negb (p_disk =? d) && ((D_OUTDATED <=? p_disk) || (D_OUTDATED <=? d))
    then (n, if p_disk <? d then 2 else -2)
    else if (my_disk n =? D_UP_TO_DATE) && (p_disk =? D_UP_TO_DATE) && (dirty_bits (peer_at n i) =? 0)
    then (drop_bitmap i n, hg)
    else (n, hg).

(** [None] is -1: the connection is dropped. *)
Definition bsr_attach_handshake (i : nat) (p_disk : bsr_disk_state) (n : node) : node * option bsr_repl_state :=
  let '(n, (hg, rule_nr, _)) := bsr_uuid_compare i n in
  if (hg <? -4) || (4 <? hg) then (n, None)
  else
    let n := (bitmap_mod_after_handshake i hg n).1 in
    let hg := disk_states_to_goodness p_disk hg rule_nr n in
    let '(n, rv) := goodness_to_repl_state i (peer_role (conn_at n i)).[NOW] hg n in (n, Some rv).

(** The split brain part of [bsr_sync_handshake]. *)
Definition recover_split_brain (i : nat) (p_role : bsr_role) (hg : Z) (n : node) : node * Z :=
  let n := if Z.abs hg =? 100 then emit (E_khelper initial_split_brain) n else n in
  if (hg =? 100) || ((hg =? -100) && always_asbp (uconn_at n i)) then
    let pcount := b2z (my_role n =? R_PRIMARY) + b2z (p_role =? R_PRIMARY) in
    let '(n, hg') := if pcount =? 0 then (n, bsr_asb_recover_0p i n)
                     else if pcount =? 1 then bsr_asb_recover_1p i n else bsr_asb_recover_2p i n in
    (n, if (Z.abs hg' <? 100) && (hg =? -100) then hg' + (if 0 <? hg' then 1 else -1) else hg')
  else (n, hg).

(** [DISCARD_MY_DATA] on one side solves a split brain, and turns a resync around. *)
Definition manual_recovery (i : nat) (hg : Z) (n : node) : node * option Z :=
  let mine := DISCARD_MY_DATA (peer_at n i) in
  let theirs := has (uuid_flags (pd_at n i)) UUID_FLAG_DISCARD_MY_DATA in
  let p_role := (peer_role (conn_at n i)).[NOW] in
  if hg =? -100 then
    if mine && theirs then (n, None)
    else (n, Some (if mine then -2 else if theirs then 2 else hg))
  else if ((hg <=? -2) || (2 <=? hg)) && ((my_role n =? R_PRIMARY) || (p_role =? R_PRIMARY)) then
    let hg := if (p_role =? R_PRIMARY) && mine && negb theirs then -2 else hg in
    if (my_role n =? R_PRIMARY) && negb mine && theirs then
      (upd_dev (fun d => mk_device (disk_state d) (susp_quorum d) (open_ro_cnt d) (open_rw_cnt d) (CRASHED_PRIMARY d)
                           (UNREGISTERED d) (__NEW_CUR_UUID d) true (ldev_md d) (peer_devices d)) n, Some 2)
    else (n, Some hg)
  else (if mine then upd_peer i (set_discard_my_data false) n else n, Some hg).

(** The reasons to drop the connection after all. *)
Definition handshake_refused (i : nat) (hg : Z) (n : node) : bool :=
  ((hg <=? -2) && (my_role n =? R_PRIMARY) && (D_CONSISTENT <=? my_disk n)
   && match rr_conflict (uconn_at n i) with ASB_CALL_HELPER | ASB_DISCONNECT => true | _ => false end)
  || ((hg =? 3) && (my_disk n <? D_OUTDATED) && negb (bsr_current_uuid n =? UUID_JUST_CREATED) && inspect n i L_SYNC_SOURCE)
  || ((hg =? -3) && has (uuid_flags (pd_at n i)) UUID_FLAG_INCONSISTENT && inspect n i L_SYNC_TARGET)
  || CONN_DRY_RUN (uconn_at n i).

Definition bsr_sync_handshake (i : nat) (p_role : bsr_role) (p_disk : bsr_disk_state) (n : node) :
  node * option bsr_repl_state :=
  let '(n, (hg, rule_nr, _)) := bsr_uuid_compare i n in
  if hg <=? -1000 then (n, None)
  else
    let hg := disk_states_to_goodness p_disk hg rule_nr n in
    let '(n, hg) := various_states_to_goodness i p_disk p_role hg n in
    let '(n, hg) := recover_split_brain i p_role hg n in
    let '(n, hg) := manual_recovery i hg n in
    match hg with
    | None => (n, None)
    | Some hg =>
      if hg =? -100 then (emit (E_khelper split_brain) n, None)
      else if handshake_refused i hg n then
        (if (hg <=? -2) && (my_role n =? R_PRIMARY) && (D_CONSISTENT <=? my_disk n)
            && bool_decide (rr_conflict (uconn_at n i) = ASB_CALL_HELPER) then emit (E_khelper pri_lost) n else n, None)
      else
        let '(n, r) := bitmap_mod_after_handshake i hg n in
        if negb (r =? 0) then (n, None)
        else let '(n, rv) := goodness_to_repl_state i p_role hg n in (n, Some rv)
    end.

End with_env.
End Handshake.
