(* ===== verification/HandshakeAgree.v ===== *)
(** * Two nodes that shake hands agree (src/bsr/bsr_receiver.c)

    The comparison of UUIDs runs on both nodes, each with its own UUIDs and
    with those the other has sent.  Here both are put side by side. *)

From S2P Require Import Prelude State Uuid Handshake.

Module HandshakeAgree.
Import State Uuid Handshake.

(** ** One node sees another *)

(** What a peer is told about a slot: the UUID, or -1 in place of 0. *)
Definition seen (s v : Z) : Prop := s = v \/ (v = 0 /\ s = U64_MAX).

Definition idx (n : node) : nat := Z.to_nat (my_id n).

Definition crashed (n : node) (i : nat) : bool :=
  CRASHED_PRIMARY (dev n) && bsr_md_test_peer_flag n i MDF_CRASHED_PRIMARY_WORK_PENDING.

(** Peer device [i] of [a] shows what [b] has sent: this is what
    [unpack_uuids110] leaves (see [uuids_exchanged] below); [b] knows [a] as its
    peer device [j].  The connection is being set up, so no resync runs on it.
    -1 is no generation of a node. *)
Record sees (a : node) (i : nat) (b : node) (j : nat) : Prop := mk_sees {
  se_ldev : ldev a = true;
  se_version : 110 <= version a i;
  se_id : pd_node_id (pd_at a i) = my_id b;
  se_md_id : md_node_id (ldev_md (dev a)) = my_id a;
  se_range : 0 <= my_id a < Z.of_nat BSR_NODE_ID_MAX;
  se_other : my_id a <> my_id b;
  se_current : current_uuid (peer_at a i) = bsr_current_uuid b;
  se_history : forall k, (k < HISTORY_UUIDS)%nat -> peer_hist a i k = bsr_history_uuid b k;
  se_slots : forall k, (k < BSR_NODE_ID_MAX)%nat -> seen (u_at (bitmap_uuids (peer_at a i)) k) (md_bitmap_uuid b k);
  se_own : md_bitmap_uuid a (idx a) = 0;
  se_stored : forall k, strip (md_bitmap_uuid a k) <> strip U64_MAX;
  se_real : strip (bsr_current_uuid a) <> strip U64_MAX;
  se_no_sync : is_sync_source a i = false;
  se_reconnect : has (uuid_flags (pd_at a i)) UUID_FLAG_RECONNECT = RECONNECT (uconn_at b j);
  se_crashed : has (uuid_flags (pd_at a i)) UUID_FLAG_CRASHED_PRIMARY = crashed b j;
  se_resolve : RESOLVE_CONFLICTS (uconn_at a i) = negb (RESOLVE_CONFLICTS (uconn_at b j)) }.

Definition meets (a : node) (i : nat) (b : node) (j : nat) : Prop := sees a i b j /\ sees b j a i.

Lemma meets_sym a i b j : meets a i b j -> meets b j a i.
Proof. by intros []. Qed.

(** ** The comparison, in terms of the two nodes *)

(** The generation of a node. *)
Definition gen (n : node) : Z := let s := strip (bsr_current_uuid n) in if s =? 0 then UUID_JUST_CREATED else s.

(** [b] keeps a bitmap for [a], or for another node, since the generation of [a], or has it in its history. *)
Definition slot_since (b a : node) : bool := strip (md_bitmap_uuid b (idx a)) =? gen a.
Definition other_since (b a : node) : bool :=
  existsb (fun k => negb (k =? idx a)%nat && negb (k =? idx b)%nat && (strip (md_bitmap_uuid b k) =? gen a))
    (seq 0 BSR_NODE_ID_MAX).
Definition history_has (b a : node) : bool :=
  existsb (fun k => gen a =? strip (bsr_history_uuid b k)) (seq 0 HISTORY_UUIDS).
Definition knows (b a : node) : bool := slot_since b a || other_since b a || history_has b a.

Definition same_ancestor (a b : node) : bool :=
  (strip (md_bitmap_uuid a (idx b)) =? strip (md_bitmap_uuid b (idx a))) && negb (strip (md_bitmap_uuid a (idx b)) =? 0).
Definition common_history (a b : node) : bool :=
  existsb (fun k => existsb (fun l => strip (bsr_history_uuid a k) =? strip (bsr_history_uuid b l)) (seq 0 HISTORY_UUIDS))
    (seq 0 HISTORY_UUIDS).

Definition target_goodness (b a : node) : option Z :=
  if slot_since b a then Some 2 else if other_since b a then Some 4 else if history_has b a then Some 3 else None.

Definition goodness (a b : node) : Z :=
  match target_goodness b a with
  | Some g => - g
  | None =>
    match target_goodness a b with
    | Some g => g
    | None => if same_ancestor a b then 100 else if common_history a b then -100 else -1000
    end
  end.

Lemma existsb_ext {A} (f g : A -> bool) l : (forall x, In x l -> f x = g x) -> existsb f l = existsb g l.
Proof. induction l as [|x l IH]; intros H; [done|]. cbn. rewrite H, IH; auto using in_eq, in_cons. Qed.

Lemma existsb_map {A B} (f : B -> bool) (g : A -> B) l : existsb f (map g l) = existsb (fun x => f (g x)) l.
Proof. induction l as [|x l IH]; [done|]. cbn. by rewrite IH. Qed.

Lemma find_none_existsb {A} (f : A -> bool) l : List.find f l = None <-> existsb f l = false.
Proof. induction l as [|x l IH]; [done|]. cbn. destruct (f x); [done|apply IH]. Qed.

Lemma strip_0 : strip 0 = 0. Proof. done. Qed.

Lemma seen_eq s v g : seen s v -> g <> 0 -> g <> strip U64_MAX -> (g =? strip s) = (strip v =? g).
Proof.
  intros [->|[-> ->]] H0 H1; [apply Z.eqb_sym|]. rewrite strip_0.
  by destruct (Z.eqb_spec g (strip U64_MAX)), (Z.eqb_spec 0 g).
Qed.

Section pair.
Context (a : node) (i : nat) (b : node) (j : nat) (H : meets a i b j).

Lemma idx_of : Z.of_nat (idx a) = my_id a.
Proof. unfold idx. destruct H as [S _]. pose proof (se_range _ _ _ _ S). lia. Qed.

Lemma idx_other : idx a <> idx b.
Proof.
  unfold idx. destruct H as [S S']. pose proof (se_range _ _ _ _ S). pose proof (se_range _ _ _ _ S').
  pose proof (se_other _ _ _ _ S). lia.
Qed.

Lemma idx_lt : (idx a < BSR_NODE_ID_MAX)%nat.
Proof. unfold idx. destruct H as [S _]. pose proof (se_range _ _ _ _ S). lia. Qed.

Lemma pd_id_other : pd_id a i = idx b.
Proof. unfold pd_id, idx. destruct H as [S _]. by rewrite (se_id _ _ _ _ S). Qed.

Lemma real_gen g : g = gen a -> g <> UUID_JUST_CREATED -> g = strip (bsr_current_uuid a) /\ g <> 0 /\ g <> strip U64_MAX.
Proof.
  unfold gen. intros -> HJ. destruct H as [S _]. pose proof (se_real _ _ _ _ S).
  destruct (Z.eqb_spec (strip (bsr_current_uuid a)) 0); [done|]. done.
Qed.
End pair.

Section compare.
Context (a : node) (i : nat) (b : node) (j : nat) (H : meets a i b j).
Context (HA : gen a <> UUID_JUST_CREATED) (HB : gen b <> UUID_JUST_CREATED).

Let S1 : sees a i b j := proj1 H.
Let S2 : sees b j a i := proj2 H.

Lemma rule_50 : (gen a =? strip (my_slot a i)) = slot_since b a.
Proof.
  destruct (real_gen a i b j H _ eq_refl HA) as (_ & H0 & H1).
  unfold slot_since. apply seen_eq; [|done..]. apply (se_slots _ _ _ _ S1). by apply (idx_lt a i b j).
Qed.

Lemma rule_52 :
  slot_since b a = false ->
  existsb (fun k => gen a =? strip (u_at (bitmap_uuids (peer_at a i)) k)) (seq 0 BSR_NODE_ID_MAX) = other_since b a.
Proof.
  intros Hs. destruct (real_gen a i b j H _ eq_refl HA) as (_ & H0 & H1).
  apply existsb_ext. intros k Hk%in_seq. rewrite (seen_eq _ _ _ (se_slots _ _ _ _ S1 k ltac:(lia)) H0 H1).
  destruct (Nat.eqb_spec k (idx a)) as [->|]; [done|].
  destruct (Nat.eqb_spec k (idx b)) as [->|]; [|done].
  rewrite (se_own _ _ _ _ S2), strip_0. by destruct (Z.eqb_spec 0 (gen a)).
Qed.

Lemma rule_60 :
  existsb (fun k => strip (bsr_current_uuid a) =? strip (peer_hist a i k)) (seq 0 HISTORY_UUIDS) = history_has b a.
Proof.
  destruct (real_gen a i b j H _ eq_refl HA) as (Hg & _ & _).
  apply existsb_ext. intros k Hk%in_seq. rewrite (se_history _ _ _ _ S1) by lia. by rewrite Hg.
Qed.

Lemma peer_gen : strip (current_uuid (peer_at a i)) = gen b.
Proof. rewrite (se_current _ _ _ _ S1). symmetry. by apply (real_gen b j a i (meets_sym _ _ _ _ H)). Qed.

Lemma my_bitmap : bsr_bitmap_uuid a i = md_bitmap_uuid a (idx b).
Proof. unfold bsr_bitmap_uuid. by rewrite (se_ldev _ _ _ _ S1), (pd_id_other a i b j H). Qed.

Lemma rule_70 : (strip (bsr_bitmap_uuid a i) =? strip (current_uuid (peer_at a i))) = slot_since a b.
Proof. by rewrite my_bitmap, peer_gen. Qed.

Lemma rule_72 :
  existsb (fun k => negb (Z.of_nat k =? pd_node_id (pd_at a i)) && negb (Z.of_nat k =? md_node_id (ldev_md (dev a)))
                    && (strip (md_bitmap_uuid a k) =? strip (current_uuid (peer_at a i)))) (seq 0 BSR_NODE_ID_MAX)
  = other_since a b.
Proof.
  apply existsb_ext. intros k _. rewrite peer_gen, (se_id _ _ _ _ S1), (se_md_id _ _ _ _ S1).
  rewrite <- (idx_of a i b j H), <- (idx_of b j a i (meets_sym _ _ _ _ H)).
  f_equal. f_equal; f_equal; destruct (Z.eqb_spec (Z.of_nat k) (Z.of_nat (idx b))), (Nat.eqb_spec k (idx b));
    destruct (Z.eqb_spec (Z.of_nat k) (Z.of_nat (idx a))), (Nat.eqb_spec k (idx a)); lia || done.
Qed.

Lemma rule_80 :
  existsb (Z.eqb (strip (current_uuid (peer_at a i)))) (map (fun k => strip (bsr_history_uuid a k)) (seq 0 HISTORY_UUIDS))
  = history_has a b.
Proof. by rewrite peer_gen, existsb_map. Qed.

Lemma rule_90 :
  (strip (bsr_bitmap_uuid a i) =? strip (my_slot a i)) && negb (strip (bsr_bitmap_uuid a i) =? 0) = same_ancestor a b.
Proof.
  rewrite my_bitmap. unfold same_ancestor. pose proof (se_stored _ _ _ _ S1 (idx b)) as Hst.
  destruct (Z.eqb_spec (strip (md_bitmap_uuid a (idx b))) 0) as [->|Hn]; [by rewrite !andb_false_r|].
  rewrite !andb_true_r. unfold my_slot. fold (idx a).
  rewrite (seen_eq _ _ _ (se_slots _ _ _ _ S1 (idx a) (idx_lt a i b j H)) Hn Hst). apply Z.eqb_sym.
Qed.

Lemma rule_100 :
  existsb (fun self => existsb (Z.eqb self) (map (fun k => strip (peer_hist a i k)) (seq 0 HISTORY_UUIDS)))
    (map (fun k => strip (bsr_history_uuid a k)) (seq 0 HISTORY_UUIDS)) = common_history a b.
Proof.
  assert (map (fun k => strip (peer_hist a i k)) (seq 0 HISTORY_UUIDS)
          = map (fun k => strip (bsr_history_uuid b k)) (seq 0 HISTORY_UUIDS)) as ->.
  { apply map_ext_in. intros k Hk%in_seq. rewrite (se_history _ _ _ _ S1) by lia. done. }
  rewrite existsb_map. apply existsb_ext. intros k _. by rewrite existsb_map.
Qed.

Lemma compare_goodness :
  gen a <> gen b -> (bsr_uuid_compare i a).1 = a /\ (bsr_uuid_compare i a).2.1.1 = goodness a b.
Proof.
  intros Hne. unfold bsr_uuid_compare. cbv zeta.
  change (if strip (bsr_current_uuid a) =? 0 then UUID_JUST_CREATED else strip (bsr_current_uuid a)) with (gen a).
  assert ((if strip (current_uuid (peer_at a i)) =? 0 then UUID_JUST_CREATED else strip (current_uuid (peer_at a i))) = gen b) as ->.
  { unfold gen. by rewrite (se_current _ _ _ _ S1). }
  rewrite (proj2 (Z.eqb_neq _ _) HA), (proj2 (Z.eqb_neq _ _) HB), (proj2 (Z.eqb_neq _ _) Hne), rule_50.
  assert ((version a i <? 110) = false) as Hv by (apply Z.ltb_ge, (se_version _ _ _ _ S1)). rewrite Hv.
  unfold goodness, target_goodness. cbn [andb]. destruct (slot_since b a) eqn:E50; [done|].
  pose proof (rule_52 E50) as H52. destruct (List.find _ (seq 0 BSR_NODE_ID_MAX)) eqn:F52.
  { destruct (other_since b a) eqn:E; [done|]. apply find_none_existsb in H52. congruence. }
  apply find_none_existsb in F52. rewrite F52 in H52. rewrite <- H52, rule_60. destruct (history_has b a); [done|].
  rewrite rule_70. destruct (slot_since a b); [done|].
  pose proof rule_72 as H72. destruct (List.find _ (seq 0 BSR_NODE_ID_MAX)) eqn:F72.
  { destruct (other_since a b) eqn:E; [done|]. apply find_none_existsb in H72. congruence. }
  apply find_none_existsb in F72. rewrite F72 in H72. rewrite <- H72. cbn [fst snd].
  rewrite Hv. cbn [fst snd]. split; [done|]. unfold compare_rest. cbv zeta. rewrite rule_80, rule_90, rule_100.
  by destruct (history_has a b), (same_ancestor a b), (common_history a b).
Qed.
End compare.

(** ** Opposite results *)

(** A result below 100 makes one of the nodes the source: the other one must
    say the opposite.  The others say the same on both nodes. *)
Definition opposite (x y : Z) : Prop := if Z.abs x <? 100 then y = - x else y = x.

Lemma opposite_neg x y : Z.abs x < 100 -> y = - x -> opposite x y.
Proof. intros Hx ->. unfold opposite. by rewrite (proj2 (Z.ltb_lt _ _) Hx). Qed.

Lemma opposite_same x : 100 <= Z.abs x -> opposite x x.
Proof. intros Hx. unfold opposite. by rewrite (proj2 (Z.ltb_ge _ _) Hx). Qed.

Lemma opposite_small x y : opposite x y -> Z.abs x < 100 -> y = - x.
Proof. unfold opposite. intros Ho Hx. by rewrite (proj2 (Z.ltb_lt _ _) Hx) in Ho. Qed.

Lemma opposite_big x y : opposite x y -> 100 <= Z.abs x -> y = x.
Proof. unfold opposite. intros Ho Hx. by rewrite (proj2 (Z.ltb_ge _ _) Hx) in Ho. Qed.

Lemma same_ancestor_sym a b : same_ancestor a b = same_ancestor b a.
Proof.
  unfold same_ancestor. rewrite Z.eqb_sym.
  by destruct (Z.eqb_spec (strip (md_bitmap_uuid b (idx a))) (strip (md_bitmap_uuid a (idx b)))) as [->|].
Qed.

Lemma common_history_sym a b : common_history a b = common_history b a.
Proof.
  apply eq_bool_prop_intro. unfold common_history. rewrite !Is_true_true, !existsb_exists.
  split; intros (x & Hx & (y & Hy & Hxy)%existsb_exists); exists y; (split; [done|]); apply existsb_exists; exists x;
    by rewrite Z.eqb_sym.
Qed.

Lemma target_knows b a : is_Some (target_goodness b a) <-> knows b a = true.
Proof.
  unfold target_goodness, knows.
  destruct (slot_since b a), (other_since b a), (history_has b a); cbn; rewrite is_Some_alt; by split.
Qed.

Lemma target_range b a g : target_goodness b a = Some g -> g = 2 \/ g = 4 \/ g = 3.
Proof. unfold target_goodness. destruct (slot_since b a), (other_since b a), (history_has b a); intros [=]; lia. Qed.

Lemma goodness_opposite a b : opposite (goodness a b) (goodness b a) \/
  (goodness a b < 0 /\ goodness b a < 0 /\ knows a b = true /\ knows b a = true).
Proof.
  unfold goodness. rewrite <- !target_knows.
  destruct (target_goodness b a) as [g|] eqn:E1, (target_goodness a b) as [g'|] eqn:E2.
  - right. apply target_range in E1, E2. repeat split; try lia; eauto.
  - left. apply target_range in E1. apply opposite_neg; lia.
  - left. apply target_range in E2. apply opposite_neg; lia.
  - left. rewrite (same_ancestor_sym b a), (common_history_sym b a).
    destruct (same_ancestor a b), (common_history a b); by apply opposite_same.
Qed.

Section equal.
Context (a : node) (i : nat) (b : node) (j : nat) (H : meets a i b j).

Lemma equal_opposite : (compare_equal j b).1 = - (compare_equal i a).1.
Proof.
  destruct H as [S1 S2]. unfold compare_equal.
  rewrite (se_reconnect _ _ _ _ S1), (se_reconnect _ _ _ _ S2), (se_no_sync _ _ _ _ S1), (se_no_sync _ _ _ _ S2),
    (se_crashed _ _ _ _ S1), (se_crashed _ _ _ _ S2), (se_resolve _ _ _ _ S1).
  fold (crashed a i) (crashed b j).
  by destruct (RECONNECT (uconn_at a i)), (RECONNECT (uconn_at b j)), (crashed a i), (crashed b j),
    (RESOLVE_CONFLICTS (uconn_at b j)).
Qed.

Lemma equal_range : Z.abs (compare_equal i a).1 <= 1.
Proof.
  unfold compare_equal.
  repeat match goal with |- context [if ?c then _ else _] => destruct c end; cbn; lia.
Qed.

Lemma compare_at :
  bsr_uuid_compare i a =
  (a, if (gen a =? UUID_JUST_CREATED) && (gen b =? UUID_JUST_CREATED) then (0, 10, None)
      else if gen a =? UUID_JUST_CREATED then (-3, 20, None)
      else if gen b =? UUID_JUST_CREATED then (3, 30, None)
      else if gen a =? gen b then (compare_equal i a, None)
      else (bsr_uuid_compare i a).2)
  /\ (gen a <> UUID_JUST_CREATED -> gen b <> UUID_JUST_CREATED -> gen a <> gen b ->
      (bsr_uuid_compare i a).2.1.1 = goodness a b).
Proof.
  split; [|intros HA HB Hne; by apply (compare_goodness a i b j H)].
  destruct (Z.eqb_spec (gen a) UUID_JUST_CREATED) as [HA|HA], (Z.eqb_spec (gen b) UUID_JUST_CREATED) as [HB|HB]; cbn [andb].
  4: { destruct (Z.eqb_spec (gen a) (gen b)) as [Heq|Hne].
       2: { destruct (compare_goodness a i b j H HA HB Hne) as [E _]. by destruct (bsr_uuid_compare i a); cbn in *; subst. }
       revert Heq. generalize HA HB.
       unfold bsr_uuid_compare. cbv zeta. destruct H as [S1 _]. rewrite (se_current _ _ _ _ S1).
       fold (gen a) (gen b). intros HA' HB' Heq.
       rewrite (proj2 (Z.eqb_neq _ _) HA'), (proj2 (Z.eqb_neq _ _) HB'), Heq, Z.eqb_refl.
       rewrite (proj2 (Z.ltb_ge _ _) (se_version _ _ _ _ S1)). done. }
  all: unfold bsr_uuid_compare; cbv zeta; destruct H as [S1 _]; rewrite (se_current _ _ _ _ S1);
    fold (gen a) (gen b); rewrite ?HA, ?HB; try rewrite (proj2 (Z.eqb_neq _ _) HA); try rewrite (proj2 (Z.eqb_neq _ _) HB); done.
Qed.
End equal.

Lemma compare_both a i b j : meets a i b j ->
  opposite (bsr_uuid_compare i a).2.1.1 (bsr_uuid_compare j b).2.1.1 \/
  ((bsr_uuid_compare i a).2.1.1 < 0 /\ (bsr_uuid_compare j b).2.1.1 < 0 /\ knows a b = true /\ knows b a = true).
Proof.
  intros H. pose proof (meets_sym _ _ _ _ H) as H'.
  destruct (compare_at a i b j H) as [Ea Ga], (compare_at b j a i H') as [Eb Gb].
  destruct (Z.eqb_spec (gen a) UUID_JUST_CREATED) as [HA|HA], (Z.eqb_spec (gen b) UUID_JUST_CREATED) as [HB|HB]; cbn [andb] in *.
  4: rewrite Z.eqb_sym in Eb; destruct (Z.eqb_spec (gen a) (gen b)) as [Heq|Hne].
  5: rewrite Ga, Gb by done; apply goodness_opposite.
  all: left; rewrite Ea, Eb; apply opposite_neg; cbn; try lia.
  - pose proof (equal_range a i). lia.
  - apply (equal_opposite a i b j H).
Qed.


(** ** The whole handshake *)

(** What else the two nodes know of each other: roles, disk states, the number
    of bits in the bitmaps, and settings that [receive_protocol] has compared.
    No I/O error of a primary is on record, and the recovery from a split brain
    does not have to ask a helper to demote a primary. *)
Record tells (a : node) (i : nat) (b : node) (j : nat) : Prop := mk_tells {
  te_role : my_role a <> R_UNKNOWN;
  te_peer_role : (peer_role (conn_at a i)).[NOW] = my_role b;
  te_disk : my_disk a <> D_NEGOTIATING /\ my_disk a <> D_UNKNOWN;
  te_dirty : dirty_bits (peer_at a i) = bsr_bm_total_weight b j;
  te_comm : comm_bm_set (peer_at a i) = bsr_bm_total_weight a i;
  te_sb_0p : after_sb_0p (uconn_at b j) = convert_after_sb (after_sb_0p (uconn_at a i));
  te_sb_1p : after_sb_1p (uconn_at b j) = convert_after_sb (after_sb_1p (uconn_at a i));
  te_sb_2p : after_sb_2p (uconn_at b j) = convert_after_sb (after_sb_2p (uconn_at a i));
  te_no_helper : after_sb_1p (uconn_at a i) <> ASB_CALL_HELPER /\ after_sb_2p (uconn_at a i) <> ASB_CALL_HELPER;
  te_always : always_asbp (uconn_at a i) = always_asbp (uconn_at b j);
  te_primary : Z.land (my_slot a i) UUID_PRIMARY = Z.land (bsr_bitmap_uuid b j) UUID_PRIMARY;
  te_discard : has (uuid_flags (pd_at a i)) UUID_FLAG_DISCARD_MY_DATA = DISCARD_MY_DATA (peer_at b j);
  te_no_error : bsr_md_test_peer_flag a i MDF_PEER_PRIMARY_IO_ERROR = false;
  te_no_peer_error : has (uuid_flags (pd_at a i)) UUID_FLAG_PRIMARY_IO_ERROR = false }.

(** Neither node takes the generation of the other for an old one of its own
    while the other does the same, and two primaries are not at the same generation. *)
Record shakes (a : node) (i : nat) (b : node) (j : nat) : Prop := mk_shakes {
  sh_meets : meets a i b j;
  sh_tells : tells a i b j;
  sh_told : tells b j a i;
  sh_order : knows a b && knows b a = false;
  sh_primaries : my_role a = R_PRIMARY -> my_role b = R_PRIMARY -> gen a <> gen b }.

Lemma shakes_sym a i b j : shakes a i b j -> shakes b j a i.
Proof. intros [M T T' O P]. split; [by apply meets_sym|done|done|by rewrite andb_comm|]. intros ? ? ?. by apply P. Qed.

(** One node the source and the other the target, or no resync on either. *)
Definition matched (ra rb : bsr_repl_state) : Prop :=
  (ra = L_WF_BITMAP_S /\ rb = L_WF_BITMAP_T) \/ (ra = L_WF_BITMAP_T /\ rb = L_WF_BITMAP_S) \/
  (ra = L_ESTABLISHED /\ rb = L_ESTABLISHED).

Lemma land_primary x : Z.land x UUID_PRIMARY = 0 \/ Z.land x UUID_PRIMARY = 1.
Proof.
  assert (Z.land x UUID_PRIMARY = x mod 2) as -> by apply (Z.land_ones x 1 ltac:(lia)).
  pose proof (Z.mod_pos_bound x 2). lia.
Qed.

Section recovery.
Context (a : node) (i : nat) (b : node) (j : nat) (T1 : tells a i b j) (T2 : tells b j a i) (M : meets a i b j).

Lemma asb_0p_range : bsr_asb_recover_0p i a = -100 \/ bsr_asb_recover_0p i a = 2 \/ bsr_asb_recover_0p i a = -2.
Proof.
  unfold bsr_asb_recover_0p. cbv zeta.
  destruct (after_sb_0p (uconn_at a i)); repeat match goal with |- context [if ?c then _ else _] => destruct c end; auto.
Qed.

Lemma asb_0p_opposite : opposite (bsr_asb_recover_0p i a) (bsr_asb_recover_0p j b).
Proof.
  unfold bsr_asb_recover_0p. cbv zeta.
  rewrite (te_primary _ _ _ _ T1), (te_primary _ _ _ _ T2), (te_dirty _ _ _ _ T1), (te_dirty _ _ _ _ T2),
    (te_comm _ _ _ _ T1), (te_comm _ _ _ _ T2), (te_sb_0p _ _ _ _ T1), (se_resolve _ _ _ _ (proj1 M)).
  generalize (bsr_bm_total_weight a i) (bsr_bm_total_weight b j). intros x y.
  destruct (land_primary (bsr_bitmap_uuid a i)) as [->| ->], (land_primary (bsr_bitmap_uuid b j)) as [->| ->];
  destruct (after_sb_0p (uconn_at a i)); cbn [convert_after_sb Z.eqb andb Pos.eqb]; try done;
  destruct (Z.eqb_spec x 0), (Z.eqb_spec y 0), (Z.ltb_spec x y), (Z.ltb_spec y x), (RESOLVE_CONFLICTS (uconn_at b j));
    cbn [andb negb]; done || lia.
Qed.

Lemma asb_1p_opposite e e' :
  xorb (my_role a =? R_PRIMARY) (my_role b =? R_PRIMARY) = true ->
  (bsr_asb_recover_1p e i a).1 = a /\ opposite (bsr_asb_recover_1p e i a).2 (bsr_asb_recover_1p e' j b).2.
Proof.
  intros Hx. pose proof asb_0p_opposite as H0. pose proof asb_0p_range as Hr. unfold bsr_asb_recover_1p.
  rewrite (te_sb_1p _ _ _ _ T1). destruct (te_no_helper _ _ _ _ T1) as [Hn _].
  pose proof (te_role _ _ _ _ T1). pose proof (te_role _ _ _ _ T2).
  destruct Hr as [Hr|[Hr|Hr]]; rewrite Hr in *; unfold opposite in H0; cbn [Z.abs Z.ltb Z.compare Pos.compare Pos.compare_cont] in H0; rewrite H0;
  destruct (after_sb_1p (uconn_at a i)), (my_role a), (my_role b); cbn in Hx |- *; try done.
Qed.

Lemma asb_2p_opposite e e' :
  (bsr_asb_recover_2p e i a).1 = a /\ opposite (bsr_asb_recover_2p e i a).2 (bsr_asb_recover_2p e' j b).2.
Proof.
  pose proof asb_0p_opposite as H0. unfold bsr_asb_recover_2p. rewrite (te_sb_2p _ _ _ _ T1).
  destruct (te_no_helper _ _ _ _ T1) as [_ Hn].
  by destruct (after_sb_2p (uconn_at a i)).
Qed.
End recovery.


(** The stages of [bsr_sync_handshake] one after the other. *)
Section stages.
Context (a : node) (i : nat) (b : node) (j : nat) (Sh : shakes a i b j).
Let M : meets a i b j := sh_meets _ _ _ _ Sh.
Let T1 : tells a i b j := sh_tells _ _ _ _ Sh.
Let T2 : tells b j a i := sh_told _ _ _ _ Sh.

Definition hg_uuid (n : node) (k : nat) : Z := (bsr_uuid_compare k n).2.1.1.
Definition rule (n : node) (k : nat) : Z := (bsr_uuid_compare k n).2.1.2.

Lemma uuid_opposite : opposite (hg_uuid a i) (hg_uuid b j).
Proof.
  destruct (compare_both a i b j M) as [?|(_ & _ & Ha & Hb)]; [done|].
  pose proof (sh_order _ _ _ _ Sh) as Ho. by rewrite Ha, Hb in Ho.
Qed.

Lemma compare_node : (bsr_uuid_compare i a).1 = a.
Proof. destruct (compare_at a i b j M) as [-> _]. done. Qed.

(** Rule 40 is the only one with results 1 and -1. *)
Lemma rule_40 : gen a <> gen b -> rule a i <> 40.
Proof.
  unfold rule, bsr_uuid_compare. cbv zeta. destruct M as [S1 _]. rewrite (se_current _ _ _ _ S1).
  fold (gen a) (gen b). intros Hne. rewrite (proj2 (Z.eqb_neq _ _) Hne).
  pose proof (proj2 (Z.ltb_ge _ _) (se_version _ _ _ _ S1)) as Hv. rewrite Hv.
  destruct ((gen a =? _) && _); [done|]. destruct (gen a =? UUID_JUST_CREATED); [done|].
  destruct (gen b =? UUID_JUST_CREATED); [done|]. destruct (gen a =? strip (my_slot a i)); [done|].
  destruct (List.find _ _); [done|]. destruct (existsb _ _); [done|]. destruct (strip _ =? strip _); [done|].
  destruct (List.find _ _); [done|]. rewrite Hv. cbn [fst snd]. unfold compare_rest. cbv zeta.
  destruct (existsb _ _); [done|]. destruct ((_ =? _) && _); [done|]. by destruct (existsb _ _).
Qed.

Lemma equal_rule : gen a = gen b -> hg_uuid a i <> 0 -> rule a i = 40.
Proof.
  intros Heq. unfold hg_uuid, rule. destruct (compare_at a i b j M) as [-> _]. rewrite Heq, Z.eqb_refl.
  destruct (gen b =? UUID_JUST_CREATED); [done|]. cbn [andb snd fst]. unfold compare_equal.
  repeat (case_match; try done).
Qed.

Lemma undecided_zero : negb (hg_uuid a i =? 0) && negb (rule a i =? 40) = false -> gen a <> gen b -> hg_uuid a i = 0.
Proof. intros Hs Hne. pose proof (rule_40 Hne). destruct (Z.eqb_spec (hg_uuid a i) 0); [done|]. by destruct (Z.eqb_spec (rule a i) 40). Qed.

End stages.

Lemma opposite_sym x y : opposite x y -> opposite y x.
Proof. unfold opposite. destruct (Z.ltb_spec (Z.abs x) 100); intros ->; case_match; lia. Qed.

Lemma opposite_zero x y : opposite x y -> x = 0 <-> y = 0.
Proof. unfold opposite. destruct (Z.ltb_spec (Z.abs x) 100); intros ->; lia. Qed.

Section stages2.
Context (a : node) (i : nat) (b : node) (j : nat) (Sh : shakes a i b j).
Let Sh' : shakes b j a i := shakes_sym _ _ _ _ Sh.
Let T1 : tells a i b j := sh_tells _ _ _ _ Sh.
Let T2 : tells b j a i := sh_told _ _ _ _ Sh.

(** Whether the disk states have a say, on both nodes alike. *)
Definition undecided (n : node) (k : nat) : bool := (hg_uuid n k =? 0) || (rule n k =? 40).

Lemma undecided_same : undecided a i = undecided b j.
Proof.
  pose proof (opposite_zero _ _ (uuid_opposite a i b j Sh)) as Hz. unfold undecided.
  destruct (Z.eqb_spec (hg_uuid a i) 0) as [Ha|Ha], (Z.eqb_spec (hg_uuid b j) 0) as [Hb|Hb]; try tauto.
  destruct (decide (gen a = gen b)) as [Heq|Hne].
  - rewrite (equal_rule a i b j Sh Heq Ha), (equal_rule b j a i Sh' (eq_sym Heq) Hb). done.
  - pose proof (rule_40 a i b j Sh Hne). pose proof (rule_40 b j a i Sh' (fun E => Hne (eq_sym E))).
    by destruct (Z.eqb_spec (rule a i) 40), (Z.eqb_spec (rule b j) 40).
Qed.

Lemma known_disk_now : known_disk a = my_disk a.
Proof. unfold known_disk. destruct (te_disk _ _ _ _ T1) as [H _]. by destruct (my_disk a). Qed.

Definition hg_disk (n : node) (k : nat) (p_disk : bsr_disk_state) : Z :=
  disk_states_to_goodness p_disk (hg_uuid n k) (rule n k) n.

Lemma hg_disk_eq : hg_disk a i (my_disk b) =
  if undecided a i && (((my_disk a =? D_INCONSISTENT) && (D_INCONSISTENT <? my_disk b))
                       || ((my_disk b =? D_INCONSISTENT) && (D_INCONSISTENT <? my_disk a)))
  then (if D_INCONSISTENT <? my_disk a then 2 else -2) else hg_uuid a i.
Proof.
  unfold hg_disk, disk_states_to_goodness, undecided. rewrite known_disk_now.
  destruct (te_disk _ _ _ _ T2) as [_ Hu].
  assert ((my_disk b =? D_UNKNOWN) = false) as -> by (by destruct (my_disk b)).
  by destruct (hg_uuid a i =? 0), (rule a i =? 40).
Qed.
End stages2.

Section stages3.
Context (a : node) (i : nat) (b : node) (j : nat) (Sh : shakes a i b j).
Let Sh' : shakes b j a i := shakes_sym _ _ _ _ Sh.
Let T1 : tells a i b j := sh_tells _ _ _ _ Sh.
Let T2 : tells b j a i := sh_told _ _ _ _ Sh.

Lemma disk_opposite : opposite (hg_disk a i (my_disk b)) (hg_disk b j (my_disk a)).
Proof.
  rewrite (hg_disk_eq a i b j Sh), (hg_disk_eq b j a i Sh'), <- (undecided_same a i b j Sh).
  pose proof (uuid_opposite a i b j Sh) as Ho. generalize dependent (hg_uuid a i). generalize (hg_uuid b j). intros hb ha Ho.
  destruct (undecided a i); [|done]. cbn [andb].
  by destruct (my_disk a), (my_disk b).
Qed.

Definition hg_states (n : node) (k : nat) (p_disk : bsr_disk_state) (p_role : bsr_role) : Z :=
  (various_states_to_goodness k p_disk p_role (hg_disk n k p_disk) n).2.

(** With nothing decided, the roles come first, then the disk states. *)
Definition by_states (ra rb : bsr_role) (da db : bsr_disk_state) : Z :=
  if (ra =? R_PRIMARY) || (rb =? R_PRIMARY) then (if ra =? R_PRIMARY then 2 else -2)
  else if (db =? D_CONSISTENT) || (da =? D_CONSISTENT) then 0
  else if negb (db =? da) && ((D_OUTDATED <=? db) || (D_OUTDATED <=? da)) then (if db <? da then 2 else -2) else 0.

Lemma hg_states_eq : hg_states a i (my_disk b) (my_role b) =
  if negb (hg_disk a i (my_disk b) =? 0) || ((bsr_bm_total_weight a i =? 0) && (bsr_bm_total_weight b j =? 0))
  then hg_disk a i (my_disk b) else by_states (my_role a) (my_role b) (my_disk a) (my_disk b).
Proof.
  unfold hg_states, various_states_to_goodness, by_states. rewrite (known_disk_now a i b j Sh), (te_dirty _ _ _ _ T1).
  destruct (te_disk _ _ _ _ T2) as [_ Hu].
  assert ((my_disk b =? D_UNKNOWN) = false) as -> by (by destruct (my_disk b)).
  destruct (Z.eqb_spec (hg_disk a i (my_disk b)) 0) as [E|]; cbn [negb orb andb]; [|done]. rewrite E.
  repeat (case_match; try done).
Qed.

Lemma gens_differ : my_role a = R_PRIMARY -> my_role b = R_PRIMARY -> hg_disk a i (my_disk b) <> 0.
Proof.
  intros Ha Hb. pose proof (sh_primaries _ _ _ _ Sh Ha Hb) as Hne. rewrite (hg_disk_eq a i b j Sh).
  assert (hg_uuid a i <> 0) as Hz.
  { unfold hg_uuid. destruct (compare_at a i b j (sh_meets _ _ _ _ Sh)) as [E G].
    destruct (Z.eqb_spec (gen a) UUID_JUST_CREATED) as [HA|HA], (Z.eqb_spec (gen b) UUID_JUST_CREATED) as [HB|HB].
    4: rewrite G by done; unfold goodness.
    1-3: rewrite E; cbn [andb snd fst]; lia.
    destruct (target_goodness b a) eqn:E1; [apply target_range in E1; lia|].
    destruct (target_goodness a b) eqn:E2; [apply target_range in E2; lia|]. by repeat case_match. }
  by repeat case_match.
Qed.

End stages3.

Lemma by_states_opposite ra rb da db :
  (ra = R_PRIMARY -> rb = R_PRIMARY -> False) -> opposite (by_states ra rb da db) (by_states rb ra db da).
Proof.
  intros Hp. unfold by_states.
  assert (negb ((ra =? R_PRIMARY) && (rb =? R_PRIMARY)) = true) as Hr by (destruct ra, rb; done || by exfalso; apply Hp).
  destruct (ra =? R_PRIMARY), (rb =? R_PRIMARY); try done. cbn [orb].
  generalize (disk_val da) (disk_val db). intros x y.
  destruct (Z.eqb_spec y x), (Z.eqb_spec x y), (Z.eqb_spec x D_CONSISTENT), (Z.eqb_spec y D_CONSISTENT),
    (Z.leb_spec D_OUTDATED x), (Z.leb_spec D_OUTDATED y), (Z.ltb_spec x y), (Z.ltb_spec y x); cbn [orb andb negb]; done || lia.
Qed.

Lemma states_opposite a i b j : shakes a i b j ->
  opposite (hg_states a i (my_disk b) (my_role b)) (hg_states b j (my_disk a) (my_role a)).
Proof.
  intros Sh. pose proof (disk_opposite a i b j Sh) as Ho. pose proof (opposite_zero _ _ Ho) as Hz.
  rewrite (hg_states_eq a i b j Sh), (hg_states_eq b j a i (shakes_sym _ _ _ _ Sh)), (andb_comm (bsr_bm_total_weight b j =? 0)).
  destruct (Z.eqb_spec (hg_disk a i (my_disk b)) 0) as [E|], (Z.eqb_spec (hg_disk b j (my_disk a)) 0); try tauto.
  cbn [negb orb]. destruct ((_ =? 0) && _); [done|].
  apply by_states_opposite. intros Ha Hb. by apply (gens_differ a i b j Sh).
Qed.



(** The results a stage can have: a small one, a split brain, or no relation at all. *)
Definition sane (h : Z) : Prop := Z.abs h <= 4 \/ Z.abs h = 100.

Lemma hg_uuid_range a i b j : meets a i b j -> hg_uuid a i <= -1000 \/ sane (hg_uuid a i).
Proof.
  intros M. unfold hg_uuid, sane. destruct (compare_at a i b j M) as [E G].
  destruct (Z.eqb_spec (gen a) UUID_JUST_CREATED) as [HA|HA], (Z.eqb_spec (gen b) UUID_JUST_CREATED) as [HB|HB].
  1-3: rewrite E; cbn [andb fst snd]; lia.
  destruct (Z.eqb_spec (gen a) (gen b)).
  { rewrite E. cbn [andb fst snd]. pose proof (equal_range a i). lia. }
  rewrite G by done. unfold goodness.
  destruct (target_goodness b a) eqn:E1; [apply target_range in E1; lia|].
  destruct (target_goodness a b) eqn:E2; [apply target_range in E2; lia|].
  destruct (same_ancestor a b), (common_history a b); lia.
Qed.

Lemma hg_states_range a i b j : shakes a i b j -> hg_uuid a i > -1000 -> sane (hg_states a i (my_disk b) (my_role b)).
Proof.
  intros Sh Hr. destruct (hg_uuid_range a i b j (sh_meets _ _ _ _ Sh)) as [?|Hs]; [lia|].
  rewrite (hg_states_eq a i b j Sh), (hg_disk_eq a i b j Sh). unfold by_states.
  repeat match goal with |- sane (if ?c then _ else _) => destruct c end; first [done|left; lia].
Qed.

(** *** The stages on a node whose history, weights and log have changed meanwhile *)
Definition redo (h w : list Z) (l : list effect) (n : node) : node :=
  mk_node (rsc n) (dev n) (ldev n) (md_current_uuid n) h (bitmap_dagtags n) (exposed_data_uuid n) (dagtag_sector n)
    w (peers n) (conns n) l.

Definition redone (n n' : node) : Prop := exists h w l, n' = redo h w l n.

Lemma redone_refl n : redone n n.
Proof. exists (md_history_uuids n), (bm_set n), (log n). by destruct n. Qed.

Lemma redone_trans n1 n2 n3 : redone n1 n2 -> redone n2 n3 -> redone n1 n3.
Proof. intros (h & w & l & ->) (h' & w' & l' & ->). by exists h', w', l'. Qed.

Lemma redone_emit e n : redone n (emit e n).
Proof. by exists (md_history_uuids n), (bm_set n), (log n ++ [e]). Qed.

Lemma redone_push v n : redone n (push_history v n).
Proof.
  unfold push_history, _bsr_uuid_push_history. cbv zeta.
  destruct (_ =? _); [apply redone_refl|]. destruct (existsb _ _); [apply redone_refl|].
  by eexists _, (bm_set n), (log n).
Qed.

Lemma redone_forget id n : redone n (forget_bitmap id n).
Proof.
  unfold forget_bitmap. cbv zeta. destruct (_ =? _); [apply redone_refl|].
  by eexists (md_history_uuids n), _, _.
Qed.

Lemma redone_drop i n : redone n (drop_bitmap i n).
Proof.
  unfold drop_bitmap. cbv zeta.
  assert (redone n (if md_bitmap_uuid n (pd_id n i) =? 0 then n else push_history (md_bitmap_uuid n (pd_id n i)) n)) as H
    by (destruct (_ =? 0); [apply redone_refl|apply redone_push]).
  destruct (_ && _); [|done]. by eapply redone_trans, redone_forget.
Qed.

Lemma various_redone i d r h n : redone n (various_states_to_goodness i d r h n).1.
Proof.
  unfold various_states_to_goodness. cbv zeta.
  repeat match goal with |- redone _ (if ?c then _ else _).1 => destruct c end; cbn [fst];
    first [apply redone_refl|apply redone_drop].
Qed.

Lemma recover_redone e i r h n n' : redone n n' -> after_sb_1p (uconn_at n i) <> ASB_CALL_HELPER ->
  after_sb_2p (uconn_at n i) <> ASB_CALL_HELPER ->
  redone n (recover_split_brain e i r h n').1 /\ (recover_split_brain e i r h n').2 = (recover_split_brain e i r h n).2.
Proof.
  intros (hh & w & l & ->) H1 H2. unfold recover_split_brain. cbv zeta.
  assert (redone n (if Z.abs h =? 100 then emit (E_khelper initial_split_brain) (redo hh w l n) else redo hh w l n)) as Hr
    by (destruct (_ =? 100); by eexists _, _, _).
  destruct Hr as (h1 & w1 & l1 & ->).
  assert (exists h2 w2 l2, (if Z.abs h =? 100 then emit (E_khelper initial_split_brain) n else n) = redo h2 w2 l2 n)
    as (h2 & w2 & l2 & ->).
  { destruct (_ =? 100); [by eexists _, _, _|apply redone_refl]. }
  change (uconn_at (redo h1 w1 l1 n) i) with (uconn_at n i). change (uconn_at (redo h2 w2 l2 n) i) with (uconn_at n i).
  destruct ((h =? 100) || _); cbn [fst snd]; [|by split; [eexists _, _, _|]].
  change (my_role (redo h1 w1 l1 n)) with (my_role n). change (my_role (redo h2 w2 l2 n)) with (my_role n).
  unfold bsr_asb_recover_1p, bsr_asb_recover_2p. cbv zeta.
  change (uconn_at (redo h1 w1 l1 n) i) with (uconn_at n i). change (uconn_at (redo h2 w2 l2 n) i) with (uconn_at n i).
  destruct (_ =? 0); [split; [by eexists _, _, _|done]|].
  destruct (_ =? 1).
  - destruct (after_sb_1p (uconn_at n i)); try done; (split; [by eexists _, _, _|done]).
  - destruct (after_sb_2p (uconn_at n i)); try done; (split; [by eexists _, _, _|done]).
Qed.


Lemma asb_range e i r h n : after_sb_1p (uconn_at n i) <> ASB_CALL_HELPER -> after_sb_2p (uconn_at n i) <> ASB_CALL_HELPER ->
  sane h -> Z.abs (recover_split_brain e i r h n).2 <= 4 \/ (recover_split_brain e i r h n).2 = -100.
Proof.
  intros H1 H2 Hs. unfold recover_split_brain. cbv zeta.
  set (m := if Z.abs h =? 100 then _ else n).
  assert (uconn_at m i = uconn_at n i) as Hu by (unfold m; by destruct (_ =? 100)).
  rewrite Hu. destruct (Z.eqb_spec h 100) as [->|]; cbn [orb].
  2: destruct (Z.eqb_spec h (-100)) as [->|]; cbn [andb]; [destruct (always_asbp _)|]; [|cbn [snd]; lia|unfold sane in Hs; cbn [snd]; lia].
  all: pose proof (asb_0p_range m i) as Hr; unfold bsr_asb_recover_1p, bsr_asb_recover_2p; cbv zeta; rewrite Hu;
    destruct (_ =? 0); [|destruct (_ =? 1); [destruct (after_sb_1p (uconn_at n i))|destruct (after_sb_2p (uconn_at n i))]];
    try done; cbn [snd]; destruct Hr as [Hr|[Hr|Hr]]; rewrite ?Hr; cbn; repeat case_match; lia.
Qed.

Lemma recover_opposite e e' a i b j ha hb : shakes a i b j -> sane ha -> opposite ha hb ->
  opposite (recover_split_brain e i (my_role b) ha a).2 (recover_split_brain e' j (my_role a) hb b).2.
Proof.
  intros [M T1 T2 _ _] Hs Ho. pose proof (te_always _ _ _ _ T1) as Hal.
  destruct (decide (Z.abs ha = 100)) as [H100|H100].
  2: { unfold sane in Hs. unfold opposite in Ho. destruct (Z.ltb_spec (Z.abs ha) 100); [|lia]. subst hb.
       unfold recover_split_brain.
       rewrite (proj2 (Z.eqb_neq (Z.abs ha) 100)), (proj2 (Z.eqb_neq (Z.abs (- ha)) 100)),
         (proj2 (Z.eqb_neq ha 100)), (proj2 (Z.eqb_neq (- ha) 100)), (proj2 (Z.eqb_neq ha (-100))),
         (proj2 (Z.eqb_neq (- ha) (-100))) by lia. cbn [orb andb snd]. by apply opposite_neg. }
  assert (hb = ha) as ->. { unfold opposite in Ho. destruct (Z.ltb_spec (Z.abs ha) 100); [lia|done]. }
  unfold recover_split_brain. rewrite H100. cbv zeta.
  change (100 =? 100) with true. cbv iota.
  set (a' := emit _ a). set (b' := emit _ b).
  change (uconn_at a' i) with (uconn_at a i). change (uconn_at b' j) with (uconn_at b j).
  change (my_role a') with (my_role a). change (my_role b') with (my_role b). rewrite <- Hal.
  destruct ((ha =? 100) || ((ha =? -100) && _)) eqn:Ec; [|cbn [snd]; apply opposite_same; lia].
  rewrite (Z.add_comm (b2z (my_role b =? R_PRIMARY))). cbn [snd].
  assert (forall g g', opposite g g' -> g = -100 \/ g = 2 \/ g = -2 ->
    opposite (if (Z.abs g <? 100) && (ha =? -100) then g + (if 0 <? g then 1 else -1) else g)
             (if (Z.abs g' <? 100) && (ha =? -100) then g' + (if 0 <? g' then 1 else -1) else g')) as Hadj.
  { intros g g' Hg Hr. destruct Hr as [->|[->| ->]]; 
      (apply opposite_small in Hg as ->; [|done]) || (apply opposite_big in Hg as ->; [|done]); cbn; by destruct (ha =? -100). }
  assert (tells a' i b' j) as T1' by (destruct T1; by split).
  assert (tells b' j a' i) as T2' by (destruct T2; by split).
  assert (meets a' i b' j) as M' by (destruct M as [[] []]; by split; split).
  pose proof (asb_0p_range a' i) as Hr.
  destruct (Z.eqb_spec (b2z (my_role a =? R_PRIMARY) + b2z (my_role b =? R_PRIMARY)) 0) as [E0|E0].
  { apply Hadj; [by apply asb_0p_opposite|done]. }
  destruct (Z.eqb_spec (b2z (my_role a =? R_PRIMARY) + b2z (my_role b =? R_PRIMARY)) 1) as [E1|E1].
  - assert (xorb (my_role a' =? R_PRIMARY) (my_role b' =? R_PRIMARY) = true) as Hx.
    { change (my_role a') with (my_role a). change (my_role b') with (my_role b).
      by destruct (my_role a =? R_PRIMARY), (my_role b =? R_PRIMARY). }
    destruct (asb_1p_opposite a' i b' j T1' T2' M' e e' Hx) as [_ Hop].
    rewrite (surjective_pairing (bsr_asb_recover_1p e i a')), (surjective_pairing (bsr_asb_recover_1p e' j b')). cbn [snd].
    apply Hadj; [done|]. destruct (te_no_helper _ _ _ _ T1') as [Hn _]. unfold bsr_asb_recover_1p.
    destruct (after_sb_1p (uconn_at a' i)); try done; cbn [snd]; repeat case_match; cbn [snd]; auto.
  - destruct (asb_2p_opposite a' i b' j T1' T2' M' e e') as [_ Hop].
    rewrite (surjective_pairing (bsr_asb_recover_2p e i a')), (surjective_pairing (bsr_asb_recover_2p e' j b')). cbn [snd].
    apply Hadj; [done|]. destruct (te_no_helper _ _ _ _ T1') as [_ Hn]. unfold bsr_asb_recover_2p.
    destruct (after_sb_2p (uconn_at a' i)); try done; cbn [snd]; auto.
Qed.

Lemma manual_opposite a i b j ha hb x y : shakes a i b j -> opposite ha hb ->
  (manual_recovery i ha a).2 = Some x -> (manual_recovery j hb b).2 = Some y -> opposite x y.
Proof.
  intros [M T1 T2 _ _] Ho. unfold manual_recovery. cbv zeta.
  rewrite (te_discard _ _ _ _ T1), (te_discard _ _ _ _ T2), (te_peer_role _ _ _ _ T1), (te_peer_role _ _ _ _ T2),
    (orb_comm (my_role b =? R_PRIMARY)).
  destruct (Z.eqb_spec ha (-100)) as [->|Hn].
  { apply opposite_big in Ho as ->; [|done]. cbn. destruct (DISCARD_MY_DATA (peer_at a i)), (DISCARD_MY_DATA (peer_at b j)); cbn; by intros [= <-] [= <-]. }
  assert (hb <> -100) as Hn'. { unfold opposite in Ho. destruct (Z.ltb_spec (Z.abs ha) 100); lia. }
  rewrite (proj2 (Z.eqb_neq _ _) Hn').
  assert (((hb <=? -2) || (2 <=? hb)) = ((ha <=? -2) || (2 <=? ha))) as ->.
  { unfold opposite in Ho. destruct (Z.ltb_spec (Z.abs ha) 100); subst hb; [|done].
    destruct (Z.leb_spec ha (-2)), (Z.leb_spec 2 ha), (Z.leb_spec (- ha) (-2)), (Z.leb_spec 2 (- ha)); done || lia. }
  destruct (((ha <=? -2) || (2 <=? ha)) && _) eqn:Ec; cbn [snd]; [|by intros [= <-] [= <-]].
  destruct (my_role a =? R_PRIMARY), (my_role b =? R_PRIMARY), (DISCARD_MY_DATA (peer_at a i)),
    (DISCARD_MY_DATA (peer_at b j)); cbn [andb negb snd]; by intros [= <-] [= <-].
Qed.


(** *** The state that follows *)

Definition outcome (ra rb : bsr_role) (hg : Z) : bsr_repl_state :=
  if ((hg =? 1) || (hg =? -1)) && ((ra =? R_PRIMARY) || (rb =? R_PRIMARY)) then
    if rb =? R_SECONDARY then L_WF_BITMAP_S else if ra =? R_SECONDARY then L_WF_BITMAP_T else L_ESTABLISHED
  else if 0 <? hg then L_WF_BITMAP_S else if hg <? 0 then L_WF_BITMAP_T else L_ESTABLISHED.

Lemma outcome_matched ra rb hg : ra <> R_UNKNOWN -> rb <> R_UNKNOWN -> matched (outcome ra rb hg) (outcome rb ra (- hg)).
Proof.
  intros Ha Hb. unfold outcome, matched.
  destruct (Z.eqb_spec hg 1), (Z.eqb_spec hg (-1)), (Z.eqb_spec (- hg) 1), (Z.eqb_spec (- hg) (-1)),
    (Z.ltb_spec 0 hg), (Z.ltb_spec hg 0), (Z.ltb_spec 0 (- hg)), (Z.ltb_spec (- hg) 0); try lia;
    destruct ra, rb; cbn; try done; auto.
Qed.

Lemma settle_established i n : bsr_md_test_peer_flag n i MDF_PEER_PRIMARY_IO_ERROR = false ->
  has (uuid_flags (pd_at n i)) UUID_FLAG_PRIMARY_IO_ERROR = false -> (settle_equal i n).2 = L_ESTABLISHED.
Proof. intros H1 H2. unfold settle_equal. rewrite H1, H2. by repeat case_match. Qed.

Lemma goodness_outcome i r hg n : bsr_md_test_peer_flag n i MDF_PEER_PRIMARY_IO_ERROR = false ->
  has (uuid_flags (pd_at n i)) UUID_FLAG_PRIMARY_IO_ERROR = false ->
  (goodness_to_repl_state i r hg n).2 = outcome (my_role n) r hg.
Proof.
  intros H1 H2. unfold goodness_to_repl_state, outcome. destruct ((_ || _) && _); [done|].
  destruct (0 <? hg); [done|]. destruct (hg <? 0); [done|].
  rewrite (surjective_pairing (settle_equal i n)). cbn [snd]. by apply settle_established.
Qed.

Lemma bitmap_mod_keeps e i hg n : redone n (bitmap_mod_after_handshake e i hg n).1.
Proof.
  unfold bitmap_mod_after_handshake. cbv zeta.
  repeat match goal with |- redone _ (if ?c then _ else _).1 => destruct c end; cbn [fst];
    first [apply redone_refl|by eexists _, _, _].
Qed.

(** What the last stages look at. *)
Record same_state (n n' : node) (i : nat) : Prop := mk_same_state {
  ss_role : my_role n' = my_role n;
  ss_flags : uuid_flags (pd_at n' i) = uuid_flags (pd_at n i);
  ss_md : forall f, bsr_md_test_peer_flag n' i f = bsr_md_test_peer_flag n i f }.

Lemma redone_state n n' i : redone n n' -> same_state n n' i.
Proof. intros (h & w & l & ->). by split. Qed.

Lemma manual_state i hg n : same_state n (manual_recovery i hg n).1 i.
Proof.
  unfold manual_recovery. cbv zeta.
  repeat match goal with |- same_state _ (if ?c then _ else _).1 _ => destruct c end; cbn [fst]; try (by split).
  destruct (DISCARD_MY_DATA _); by split.
Qed.

Lemma same_state_trans n1 n2 n3 i : same_state n1 n2 i -> same_state n2 n3 i -> same_state n1 n3 i.
Proof. intros [A B C] [D E F]. split; [congruence..|]. intros f. by rewrite F, C. Qed.

Lemma manual_redone i hg n n' : redone n n' -> (manual_recovery i hg n').2 = (manual_recovery i hg n).2.
Proof.
  intros (h & w & l & ->). unfold manual_recovery. cbv zeta.
  change (peer_at (redo h w l n) i) with (peer_at n i). change (pd_at (redo h w l n) i) with (pd_at n i).
  change (conn_at (redo h w l n) i) with (conn_at n i). change (my_role (redo h w l n)) with (my_role n).
  repeat match goal with |- context [(if ?c then _ else _).2] => destruct c end; done.
Qed.

Section final.
Context (e : env) (a : node) (i : nat) (b : node) (j : nat) (Sh : shakes a i b j).
Let T1 : tells a i b j := sh_tells _ _ _ _ Sh.

Definition hg_final (n : node) (k : nat) (d : bsr_disk_state) (r : bsr_role) : option Z :=
  (manual_recovery k (recover_split_brain e k r (hg_states n k d r) n).2 n).2.

Lemma handshake_outcome rv :
  (bsr_sync_handshake e i (my_role b) (my_disk b) a).2 = Some rv ->
  hg_uuid a i > -1000 /\
  exists hg, hg_final a i (my_disk b) (my_role b) = Some hg /\ hg <> -100 /\ rv = outcome (my_role a) (my_role b) hg.
Proof.
  unfold bsr_sync_handshake, hg_final, hg_states, hg_disk.
  rewrite (surjective_pairing (bsr_uuid_compare i a)), (compare_node a i b j Sh).
  rewrite (surjective_pairing (bsr_uuid_compare i a).2), (surjective_pairing (bsr_uuid_compare i a).2.1).
  fold (hg_uuid a i) (rule a i). destruct (Z.leb_spec (hg_uuid a i) (-1000)); [done|]. cbv zeta.
  set (hd := disk_states_to_goodness _ _ _ a).
  pose proof (various_redone i (my_disk b) (my_role b) hd a) as Hv.
  destruct (various_states_to_goodness i (my_disk b) (my_role b) hd a) as [nv hv]. cbn [fst snd] in Hv |- *.
  destruct (te_no_helper _ _ _ _ T1) as [N1 N2].
  destruct (recover_redone e i (my_role b) hv a nv Hv N1 N2) as [Hr Hr2]. rewrite <- Hr2.
  destruct (recover_split_brain e i (my_role b) hv nv) as [nr hr]. cbn [fst snd] in Hr |- *.
  rewrite <- (manual_redone i hr a nr Hr). pose proof (manual_state i hr nr) as Hm.
  destruct (manual_recovery i hr nr) as [nm [hg|]]; cbn [fst snd] in Hm |- *; [|done].
  destruct (Z.eqb_spec hg (-100)); [done|]. destruct (handshake_refused i hg nm); [done|].
  pose proof (bitmap_mod_keeps e i hg nm) as Hb. destruct (bitmap_mod_after_handshake e i hg nm) as [nb r].
  cbn [fst] in Hb. destruct (negb (r =? 0)); [done|].
  rewrite (surjective_pairing (goodness_to_repl_state i (my_role b) hg nb)). cbn [snd]. intros [= <-].
  split; [lia|]. exists hg. split; [done|split; [done|]].
  destruct (same_state_trans _ _ _ i (same_state_trans _ _ _ i (redone_state _ _ i Hr) Hm) (redone_state _ _ i Hb)) as [R F D].
  rewrite <- R. apply goodness_outcome; [rewrite D; apply T1|rewrite F; apply T1].
Qed.
End final.

Lemma final_opposite e e' a i b j x y : shakes a i b j -> hg_uuid a i > -1000 ->
  hg_final e a i (my_disk b) (my_role b) = Some x -> hg_final e' b j (my_disk a) (my_role a) = Some y -> opposite x y.
Proof.
  intros Sh Hr. apply (manual_opposite a i b j _ _ _ _ Sh), recover_opposite; [done|by eapply hg_states_range|by apply states_opposite].
Qed.

Lemma final_small e a i b j x : shakes a i b j -> hg_uuid a i > -1000 ->
  hg_final e a i (my_disk b) (my_role b) = Some x -> x <> -100 -> Z.abs x < 100.
Proof.
  intros Sh Hr. destruct (te_no_helper _ _ _ _ (sh_tells _ _ _ _ Sh)) as [N1 N2]. unfold hg_final.
  pose proof (asb_range e i (my_role b) _ a N1 N2 (hg_states_range a i b j Sh Hr)) as Hs.
  destruct (recover_split_brain _ _ _ _ _) as [n h]. cbn [snd] in *. unfold manual_recovery. cbv zeta.
  destruct (Z.eqb_spec h (-100)) as [->|].
  - repeat case_match; cbn [snd]; intros [= <-] ?; lia.
  - repeat case_match; cbn [snd]; intros [= <-] ?; lia.
Qed.


(** ** The theorems *)

(** C11. bsr_uuid_compare on two nodes that have exchanged their UUIDs never makes both
    of them the source; unless each knows the other's generation (as a bitmap or history
    UUID) the two results are opposite: equal with the other sign below 100, and the
    same verdict (split brain, unrelated data) from 100 on. It changes neither node.
    This is for protocol 110 or later on both sides, different node ids, no resync
    running on the connection (is_sync_source false), and -1 not used as a generation.
    *)
Theorem uuid_compare_opposite a i b j : meets a i b j ->
  let ha := (bsr_uuid_compare i a).2.1.1 in
  let hb := (bsr_uuid_compare j b).2.1.1 in
  (bsr_uuid_compare i a).1 = a /\
  ~ (0 < ha < 100 /\ 0 < hb < 100) /\
  (knows a b && knows b a = false -> opposite ha hb).
Proof.
  intros M ha hb. split; [by destruct (compare_at a i b j M) as [-> _]|].
  destruct (compare_both a i b j M) as [Ho|(Ha & Hb & Ka & Kb)].
  - split; [|done]. intros [? ?]. apply opposite_small in Ho; lia.
  - split; [lia|]. by rewrite Ka, Kb.
Qed.


End HandshakeAgree.
