(* ===== verification/HandshakeLife.v ===== *)
(** * Generations and resyncs (src/bsr/bsr_main.c, src/bsr/bsr_receiver.c)

    What the handshake finds after nodes have written on their own: the
    operations of Uuid.v and the comparison of Handshake.v together. *)

From S2P Require Import Prelude State Uuid UuidExchange Handshake HandshakeAgree.

Module HandshakeLife.
Import State Uuid UuidExchange Handshake HandshakeAgree.

(** ** UUIDs without the primary bit *)

Lemma strip_testbit x k : 0 <= k -> Z.testbit (strip x) k = (0 <? k) && (k <? 64) && Z.testbit x k.
Proof.
  intros Hk. unfold strip. rewrite Z.land_spec. unfold lnot_w. rewrite Z.lxor_spec, testbit_ones by lia.
  change UUID_PRIMARY with (2 ^ 0). rewrite Z.pow2_bits_eqb by lia.
  destruct (Z.eqb_spec 0 k), (Z.ltb_spec 0 k), (Z.ltb_spec k 64), (Z.leb_spec 0 k), (Z.testbit x k); done || lia.
Qed.

Lemma strip_strip x : strip (strip x) = strip x.
Proof. apply Z.bits_inj'. intros k Hk. rewrite !strip_testbit by done. by destruct (0 <? k), (k <? 64), (Z.testbit x k). Qed.

Lemma strip_primary x : strip (Z.lor x UUID_PRIMARY) = strip x.
Proof.
  apply Z.bits_inj'. intros k Hk. rewrite !strip_testbit, Z.lor_spec by done.
  change UUID_PRIMARY with (2 ^ 0). rewrite Z.pow2_bits_eqb by lia.
  destruct (Z.ltb_spec 0 k), (Z.eqb_spec 0 k); cbn; rewrite ?orb_false_r; done || lia.
Qed.

(** ** The meta data decide *)

Record same_md (n n' : node) : Prop := mk_same_md {
  sm_ldev : ldev n' = ldev n;
  sm_id : my_id n' = my_id n;
  sm_current : md_current_uuid n' = md_current_uuid n;
  sm_history : md_history_uuids n' = md_history_uuids n;
  sm_bitmap : forall k, md_bitmap_uuid n' k = md_bitmap_uuid n k }.

Lemma same_md_gen n n' : same_md n n' -> gen n' = gen n.
Proof. intros [E1 E2 E3 E4 E5]. unfold gen, bsr_current_uuid. by rewrite E1, E3. Qed.

Lemma same_md_history n n' k : same_md n n' -> bsr_history_uuid n' k = bsr_history_uuid n k.
Proof. intros [E1 E2 E3 E4 E5]. unfold bsr_history_uuid. by rewrite E1, E4. Qed.

Lemma same_md_idx n n' : same_md n n' -> idx n' = idx n.
Proof. intros S. unfold idx. by rewrite (sm_id _ _ S). Qed.

(** ** [rotate_current_into_bitmap] *)

(** Slots that were empty may hold the current UUID now; nothing else has changed. *)
Record rotated (n n' : node) : Prop := mk_rotated {
  ro_rsc : rsc n' = rsc n;
  ro_ldev : ldev n' = ldev n;
  ro_current : md_current_uuid n' = md_current_uuid n;
  ro_history : md_history_uuids n' = md_history_uuids n;
  ro_pds : peer_devices (dev n') = peer_devices (dev n);
  ro_md_id : md_node_id (ldev_md (dev n')) = md_node_id (ldev_md (dev n));
  ro_len : length (md_peers (ldev_md (dev n'))) = length (md_peers (ldev_md (dev n)));
  ro_exists : forall k, node_exists n' k = node_exists n k;
  ro_slots : forall k, md_bitmap_uuid n' k = md_bitmap_uuid n k \/
                       (md_bitmap_uuid n k = 0 /\ md_bitmap_uuid n' k = md_current_uuid n) }.

Lemma rotated_refl n : rotated n n.
Proof. split; try done. by left. Qed.

Lemma rotated_trans n1 n2 n3 : rotated n1 n2 -> rotated n2 n3 -> rotated n1 n3.
Proof.
  intros A B. split.
  1-7: etransitivity; [apply B|apply A].
  - intros k. etransitivity; [apply B|apply A].
  - intros k. destruct (ro_slots _ _ A k) as [E|[E E']], (ro_slots _ _ B k) as [F|[F F']].
    + left. congruence.
    + right. rewrite <- E, F', (ro_current _ _ A). done.
    + right. split; [done|congruence].
    + right. split; [done|]. by rewrite F', (ro_current _ _ A).
Qed.

Lemma md_peer_upd n id f k : (forall m, bitmap_index (f m) = bitmap_index m /\ peer_md_flags (f m) = peer_md_flags m) ->
  node_exists (upd_md_peer id f n) k = node_exists n k.
Proof.
  intros Hf. unfold node_exists, peer_md_of. cbn. rewrite !nth_lookup. destruct (decide (id = k)) as [->|].
  - rewrite list_lookup_alter_eq. destruct (_ !! k) as [m|]; cbn; [|done]. by destruct (Hf m) as [-> ->].
  - by rewrite list_lookup_alter_ne.
Qed.

Lemma md_bitmap_upd n id v k : (id < length (md_peers (ldev_md (dev n))))%nat ->
  md_bitmap_uuid (upd_md_peer id (set_bitmap_uuid v) n) k = if decide (k = id) then v else md_bitmap_uuid n k.
Proof.
  intros Hl. unfold md_bitmap_uuid, peer_md_of. cbn. rewrite !nth_lookup. destruct (decide (k = id)) as [->|].
  - rewrite list_lookup_alter_eq. by destruct (lookup_lt_is_Some_2 _ _ Hl) as [m ->].
  - by rewrite list_lookup_alter_ne.
Qed.

Lemma rotated_set n id v : (id < length (md_peers (ldev_md (dev n))))%nat -> md_bitmap_uuid n id = 0 ->
  v = 0 \/ v = md_current_uuid n -> rotated n (upd_md_peer id (set_bitmap_uuid v) n).
Proof.
  intros Hl H0 Hv. split; try done; [cbn; apply length_alter|intros k; by apply md_peer_upd|].
  intros k. rewrite md_bitmap_upd by done. destruct (decide (k = id)) as [->|]; [|by left].
  destruct Hv as [->| ->]; [left|right]; done.
Qed.

Lemma rotate_slot_rotated w dt n got id : (id < length (md_peers (ldev_md (dev n))))%nat ->
  rotated n (rotate_slot w dt (n, got) id).1.
Proof.
  intros Hl. unfold rotate_slot. destruct (_ =? md_node_id _); [apply rotated_refl|].
  destruct (negb _ && negb _); [apply rotated_refl|].
  destruct (Z.eqb_spec (md_bitmap_uuid n id) 0); [|apply rotated_refl]. cbn [negb].
  destruct (rotates n w id); [|apply rotated_refl]. cbv zeta. cbn [fst].
  destruct (md_current_uuid n =? UUID_JUST_CREATED); [by apply rotated_set; auto|].
  destruct (_ =? 0); [by apply rotated_set; auto|].
  pose proof (rotated_set n id (md_current_uuid n) Hl e (or_intror eq_refl)) as []. by split.
Qed.


Lemma rotated_rotates n n' w id : rotated n n' -> rotates n' w id = rotates n w id.
Proof.
  intros R. unfold rotates, pd_by_id, peer_ids, conn_at, conn_of, pd_at. by rewrite (ro_pds _ _ R), (ro_rsc _ _ R).
Qed.

(** The slot of a node the current UUID has to be kept for. *)
Record away (n : node) (w : Z) (id : nat) : Prop := mk_away {
  aw_other : Z.of_nat id <> md_node_id (ldev_md (dev n));
  aw_exists : node_exists n id = true;
  aw_slot : md_bitmap_uuid n id = 0;
  aw_rotates : rotates n w id = true }.

Lemma rotate_slot_got w dt n got id k : 0 <= k -> Z.testbit got k = true -> Z.testbit (rotate_slot w dt (n, got) id).2 k = true.
Proof.
  intros Hk Hg. unfold rotate_slot. repeat case_match; cbn [snd]; try done. all: by rewrite Z.lor_spec, Hg.
Qed.

Lemma rotate_fold_got w dt ids n got k : 0 <= k -> Z.testbit got k = true ->
  Z.testbit (foldl (rotate_slot w dt) (n, got) ids).2 k = true.
Proof.
  intros Hk. revert n got. induction ids as [|id ids IH]; intros n got Hg; [done|]. cbn [foldl].
  pose proof (rotate_slot_got w dt n got id k Hk Hg). destruct (rotate_slot w dt (n, got) id). by apply IH.
Qed.

Lemma rotate_hits w dt n got id : (id < length (md_peers (ldev_md (dev n))))%nat -> (id < 64)%nat ->
  md_current_uuid n <> UUID_JUST_CREATED -> md_current_uuid n <> 0 -> away n w id ->
  md_bitmap_uuid (rotate_slot w dt (n, got) id).1 id = md_current_uuid n /\
  Z.testbit (rotate_slot w dt (n, got) id).2 (Z.of_nat id) = true.
Proof.
  intros Hl H64 Hj H0 [A1 A2 A3 A4]. unfold rotate_slot.
  rewrite (proj2 (Z.eqb_neq _ _) A1), A2, A3, A4, (proj2 (Z.eqb_neq _ _) Hj), (proj2 (Z.eqb_neq _ _) H0). cbn [negb andb Z.eqb fst snd].
  split; [|by rewrite Z.lor_spec, node_mask_testbit, Z.eqb_refl, orb_true_r by lia].
  change (md_bitmap_uuid (set_md_bitmap id ?v ?t ?n) id) with (md_bitmap_uuid (upd_md_peer id (set_bitmap_uuid v) n) id).
  rewrite md_bitmap_upd by done. by rewrite decide_True.
Qed.

Lemma rotate_slot_other w dt n got id k : (id < length (md_peers (ldev_md (dev n))))%nat -> k <> id ->
  md_bitmap_uuid (rotate_slot w dt (n, got) id).1 k = md_bitmap_uuid n k.
Proof.
  intros Hl Hk. unfold rotate_slot. cbv zeta.
  repeat match goal with |- context [(if ?c then _ else _).1] => destruct c end; try done. cbn [fst].
  destruct (_ =? 0).
  - rewrite md_bitmap_upd by done. by rewrite decide_False.
  - unfold set_md_bitmap. change (md_bitmap_uuid (set_dagtags ?t ?m) k) with (md_bitmap_uuid m k).
    rewrite md_bitmap_upd by done. by rewrite decide_False.
Qed.

Lemma rotate_fold w dt ids n got :
  (forall id, In id ids -> id < length (md_peers (ldev_md (dev n))) /\ id < 64)%nat ->
  md_current_uuid n <> UUID_JUST_CREATED -> md_current_uuid n <> 0 ->
  let r := foldl (rotate_slot w dt) (n, got) ids in
  rotated n r.1 /\
  forall id, In id ids -> away n w id -> md_bitmap_uuid r.1 id = md_current_uuid n /\ r.2 <> 0.
Proof.
  intros Hl Hj H0. revert n got Hl Hj H0. induction ids as [|x ids IH]; intros n got Hl Hj H0; cbn [foldl].
  { split; [apply rotated_refl|done]. }
  destruct (Hl x (or_introl eq_refl)) as [Hx Hx'].
  pose proof (rotate_slot_rotated w dt n got x Hx) as R. pose proof (rotate_hits w dt n got x Hx Hx' Hj H0) as Hh.
  pose proof (fun k => rotate_slot_other w dt n got x k Hx) as Ho.
  destruct (rotate_slot w dt (n, got) x) as [m g]. cbn [fst snd] in R, Hh, Ho.
  destruct (IH m g) as [R' Hi].
  { intros id Hid. rewrite (ro_len _ _ R). apply Hl. by right. }
  { by rewrite (ro_current _ _ R). } { by rewrite (ro_current _ _ R). }
  split; [by eapply rotated_trans|]. intros id Hid A.
  destruct (decide (id = x)) as [->|Hne].
  - destruct (Hh A) as [Hs Hg]. split.
    + destruct (ro_slots _ _ R' x) as [E|[E _]]; [by rewrite E|]. congruence.
    + intros E. pose proof (rotate_fold_got w dt ids m g (Z.of_nat x) ltac:(lia) Hg) as Hb. by rewrite E, Z.testbit_0_l in Hb.
  - destruct Hid as [->|Hid]; [done|]. destruct A as [A1 A2 A3 A4].
    rewrite <- (ro_current _ _ R). apply Hi; [done|]. split.
    + by rewrite (ro_md_id _ _ R).
    + by rewrite (ro_exists _ _ R).
    + by rewrite Ho.
    + by rewrite (rotated_rotates _ _ _ _ R).
Qed.


(** ** A new generation *)

Lemma same_md_refl n : same_md n n.
Proof. by split. Qed.

Lemma same_md_trans n1 n2 n3 : same_md n1 n2 -> same_md n2 n3 -> same_md n1 n3.
Proof. intros A B. split; intros; (etransitivity; [apply B|apply A]). Qed.

Lemma same_md_sym n n' : same_md n n' -> same_md n' n.
Proof. intros A. by split; intros; symmetry; apply A. Qed.

Lemma flagged_same_md n n' : flagged n n' -> same_md n n'.
Proof. intros []. split; try done. unfold my_id. by f_equal; f_equal. Qed.

Lemma same_md_upd_peer i f n : same_md n (upd_peer i f n).
Proof. by split. Qed.

Lemma same_md_emit e n : same_md n (emit e n).
Proof. by split. Qed.

Lemma uuids110_same_md i f m w n : same_md n (uuids110 i f m w n).1.
Proof.
  unfold uuids110. destruct (bitmap_uuids_of_spec (existing_nodes n) n) as [F _].
  destruct (bitmap_uuids_of (existing_nodes n) n) as [n' l]. cbn [fst] in F. cbv zeta.
  destruct (bsr_device_stable_ex _ _ _ _) as [st au]. cbn [fst].
  apply (same_md_trans _ n'); [by apply flagged_same_md|]. destruct (_ && _); by split.
Qed.

Lemma send_same_md i f m w n : same_md n (bsr_send_uuids i f m w n).
Proof.
  unfold bsr_send_uuids, _bsr_send_uuids110, _bsr_send_uuids. cbv zeta. destruct (110 <=? _).
  - destruct (negb _); [apply same_md_emit|]. pose proof (uuids110_same_md i f m w n) as H.
    destruct (uuids110 i f m w n) as [n' p]. by eapply same_md_trans, same_md_emit.
  - destruct (negb _); [apply same_md_refl|]. by split.
Qed.

Lemma announce_same_md forced younger w ids n : same_md n (foldl (announce forced younger w) n ids).
Proof.
  revert n. induction ids as [|i ids IH]; intros n; [apply same_md_refl|]. cbn [foldl].
  eapply same_md_trans, IH. unfold announce. cbv zeta. destruct (_ <=? _).
  - eapply same_md_trans, send_same_md. apply same_md_upd_peer.
  - destruct (_ =? _); [apply same_md_upd_peer|apply same_md_refl].
Qed.

(** A node with an up-to-date disk whose peer [id] is away. *)
Record writes_alone (n : node) (forced : bool) (id : nat) : Prop := mk_writes_alone {
  wa_disk : get_ldev_if_state n D_UP_TO_DATE = true;
  wa_peers : length (md_peers (ldev_md (dev n))) = BSR_NODE_ID_MAX;
  wa_id : (id < BSR_NODE_ID_MAX)%nat;
  wa_gen : gen n <> UUID_JUST_CREATED;
  wa_away : away n (if forced then initial_resync_nodes n else 0) id }.

Lemma gen_current n : ldev n = true -> gen n <> UUID_JUST_CREATED -> md_current_uuid n <> UUID_JUST_CREATED /\
  md_current_uuid n <> 0 /\ strip (md_current_uuid n) = gen n.
Proof.
  unfold gen, bsr_current_uuid. intros -> Hg. destruct (Z.eqb_spec (strip (md_current_uuid n)) 0) as [E|E]; [done|].
  split_and!; [|intros E'; by rewrite E' in E|done]. intros E'. by rewrite E' in Hg.
Qed.

Lemma new_current_md rnd forced younger n id : writes_alone n forced id ->
  let n' := bsr_uuid_new_current rnd forced younger n in
  ldev n' = true /\ my_id n' = my_id n /\ strip (md_current_uuid n') = strip rnd /\
  md_history_uuids n' = md_history_uuids n /\ md_bitmap_uuid n' id = md_current_uuid n /\
  forall k, md_bitmap_uuid n' k = md_bitmap_uuid n k \/ md_bitmap_uuid n' k = md_current_uuid n.
Proof.
  intros [Hd Hp Hid Hg Ha]. unfold bsr_uuid_new_current. rewrite Hd.
  apply andb_true_iff in Hd as [Hl _]. destruct (gen_current n Hl Hg) as (Hj & H0 & _).
  unfold __bsr_uuid_new_current, rotate_current_into_bitmap. set (w := if forced then _ else _) in *.
  destruct (rotate_fold w (dagtag_sector n) (seq 0 BSR_NODE_ID_MAX) n 0) as [R Hh]; [|done..|].
  { intros k Hk%in_seq. rewrite Hp. unfold BSR_NODE_ID_MAX in *. lia. }
  destruct (Hh id) as [Hs Hgot]; [apply in_seq; lia|done|].
  destruct (foldl _ (n, 0) _) as [m got]. cbn [fst snd] in R, Hs, Hgot. rewrite (proj2 (Z.eqb_neq _ _) Hgot). cbv zeta.
  set (m1 := emit E_md_sync _).
  pose proof (announce_same_md forced younger (bsr_weak_nodes_device (__bsr_uuid_set_current rnd m)) (peer_ids m1) m1) as S.
  destruct S as [S1 S2 S3 S4 S5]. rewrite S1, S2, S3, S4, S5.
  split; [exact (eq_trans (ro_ldev _ _ R) Hl)|]. split; [unfold my_id; by rewrite (ro_rsc _ _ R : rsc m1 = rsc n)|]. split.
  { cbn. destruct (_ =? _); [apply strip_primary|apply strip_strip]. }
  split; [apply R|]. split; [done|]. intros k. rewrite S5.
  destruct (ro_slots _ _ R k) as [E|[_ E]]; [left|right]; exact E.
Qed.


(** A number that is no UUID this node has ever had. *)
Record unknown_to (u : Z) (n : node) : Prop := mk_unknown {
  un_real : strip u <> 0 /\ strip u <> UUID_JUST_CREATED;
  un_slots : forall k, strip (md_bitmap_uuid n k) <> strip u;
  un_history : forall k, strip (bsr_history_uuid n k) <> strip u;
  un_gen : gen n <> strip u }.

Lemma gen_new n' u : ldev n' = true -> strip (md_current_uuid n') = strip u -> strip u <> 0 -> gen n' = strip u.
Proof. intros Hl Hs H0. unfold gen, bsr_current_uuid. rewrite Hl, Hs. by rewrite (proj2 (Z.eqb_neq _ _) H0). Qed.

(** A node that only has UUIDs other than [gen a] does not know [a]. *)
Lemma not_known a b : (forall k, strip (md_bitmap_uuid b k) <> gen a) -> (forall k, strip (bsr_history_uuid b k) <> gen a) ->
  target_goodness b a = None.
Proof.
  intros Hs Hh. unfold target_goodness, slot_since. rewrite (proj2 (Z.eqb_neq _ _) (Hs _)).
  assert (other_since b a = false) as ->.
  { apply not_true_is_false. intros (k & _ & Hk)%existsb_exists. apply andb_true_iff in Hk as [_ Hk]. by apply Z.eqb_eq, Hs in Hk. }
  assert (history_has b a = false) as ->; [|done].
  apply not_true_is_false. intros (k & _ & Hk)%existsb_exists. apply Z.eqb_eq, eq_sym, Hh in Hk. done.
Qed.

Section writers.
Context (rnd : Z) (forced younger : bool) (a b : node).
Context (Wa : writes_alone a forced (idx b)) (Hgen : gen a = gen b) (Un : unknown_to rnd b).
Let a' := bsr_uuid_new_current rnd forced younger a.

Lemma new_gen : gen a' = strip rnd.
Proof. destruct (new_current_md rnd forced younger a _ Wa) as (H1 & _ & H3 & _). apply gen_new; [done..|apply Un]. Qed.

Lemma old_slot : strip (md_bitmap_uuid a' (idx b)) = gen b.
Proof.
  destruct (new_current_md rnd forced younger a _ Wa) as (_ & _ & _ & _ & H5 & _). unfold a'. rewrite H5, <- Hgen.
  destruct Wa as [Hd _ _ Hg _]. apply andb_true_iff in Hd as [Hl _]. by apply gen_current.
Qed.

Lemma lone_writer : target_goodness a' b = Some 2 /\ target_goodness b a' = None.
Proof.
  split.
  - unfold target_goodness, slot_since. by rewrite old_slot, Z.eqb_refl.
  - apply not_known; rewrite new_gen; apply Un.
Qed.
End writers.

Lemma new_slots rnd forced younger n id u : writes_alone n forced id -> unknown_to u n ->
  let n' := bsr_uuid_new_current rnd forced younger n in
  (forall k, strip (md_bitmap_uuid n' k) <> strip u) /\ (forall k, strip (bsr_history_uuid n' k) <> strip u).
Proof.
  intros W [U1 U2 U3 U4] n'. destruct (new_current_md rnd forced younger n id W) as (H1 & _ & _ & H4 & _ & H6). fold n' in H1, H4, H6.
  destruct W as [Hd _ _ Hg _]. apply andb_true_iff in Hd as [Hl _]. split.
  - intros k. destruct (H6 k) as [->| ->]; [done|]. destruct (gen_current n Hl Hg) as (_ & _ & ->). done.
  - intros k. specialize (U3 k). unfold bsr_history_uuid in *. by rewrite H1, H4, <- Hl.
Qed.

Lemma same_md_goodness a a1 b b1 : same_md a a1 -> same_md b b1 -> goodness a1 b1 = goodness a b.
Proof.
  intros A B.
  assert (forall m m1 n n1, same_md m m1 -> same_md n n1 -> target_goodness m1 n1 = target_goodness m n) as T.
  { intros m m1 n n1 M N. unfold target_goodness, slot_since, other_since, history_has.
    rewrite (same_md_gen _ _ N), (same_md_idx _ _ N), (same_md_idx _ _ M), (sm_bitmap _ _ M).
    erewrite (existsb_ext (fun k => negb _ && _ && _)) by (intros k _; by rewrite (sm_bitmap _ _ M)).
    erewrite (existsb_ext (fun k => gen n =? _)) by (intros k _; by rewrite (same_md_history _ _ k M)). done. }
  unfold goodness. rewrite (T b b1 a a1), (T a a1 b b1) by done. unfold same_ancestor, common_history.
  rewrite (same_md_idx _ _ A), (same_md_idx _ _ B), (sm_bitmap _ _ A), (sm_bitmap _ _ B).
  do 2 (case_match; [done|]). destruct (_ && _); [done|].
  erewrite existsb_ext; [done|]. intros k _. apply existsb_ext. intros l _.
  by rewrite (same_md_history _ _ k A), (same_md_history _ _ l B).
Qed.

(** C12. Two nodes share a generation and one of them writes without the other
    (bsr_uuid_new_current): when they meet again, bsr_uuid_compare makes the writer the
    source of a bitmap based resync and the other one its target. If both have written,
    both find the split brain (100). *)
Theorem writers_meet rnd rnd' forced younger a b :
  gen a = gen b -> writes_alone a forced (idx b) -> unknown_to rnd b ->
  let a' := bsr_uuid_new_current rnd forced younger a in
  let b' := bsr_uuid_new_current rnd' forced younger b in
  (forall a1 i b1 j, meets a1 i b1 j -> same_md a' a1 -> same_md b b1 ->
     (bsr_uuid_compare i a1).2.1.1 = 2 /\ (bsr_uuid_compare j b1).2.1.1 = -2) /\
  (writes_alone b forced (idx a) -> unknown_to rnd' a -> strip rnd <> strip rnd' ->
   forall a1 i b1 j, meets a1 i b1 j -> same_md a' a1 -> same_md b' b1 ->
     (bsr_uuid_compare i a1).2.1.1 = 100 /\ (bsr_uuid_compare j b1).2.1.1 = 100).
Proof.
  intros Hgen Wa Un a' b'. pose proof (new_gen rnd forced younger a b Wa Un) as Ga.
  assert (gen b <> UUID_JUST_CREATED) as Gb by (rewrite <- Hgen; apply Wa). destruct (un_real _ _ Un) as [R0 R1].
  split.
  - intros a1 i b1 j M A B.
    assert (gen a1 = strip rnd) as Ga1 by (by rewrite (same_md_gen _ _ A)).
    assert (gen b1 = gen b) as Gb1 by (by apply same_md_gen).
    pose proof (un_gen _ _ Un) as Hne.
    rewrite (proj2 (compare_goodness a1 i b1 j M ltac:(congruence) ltac:(congruence) ltac:(congruence))).
    rewrite (proj2 (compare_goodness b1 j a1 i (meets_sym _ _ _ _ M) ltac:(congruence) ltac:(congruence) ltac:(congruence))).
    rewrite (same_md_goodness _ _ _ _ A B), (same_md_goodness _ _ _ _ B A). unfold goodness.
    destruct (lone_writer rnd forced younger a b Wa Hgen Un) as [E1 E2]. fold a' in E1, E2. by rewrite E1, E2.
  - intros Wb Un' Hne a1 i b1 j M A B. pose proof (new_gen rnd' forced younger b a Wb Un') as Gb'.
    destruct (un_real _ _ Un') as [R0' R1'].
    assert (gen a1 = strip rnd) as Ga1 by (by rewrite (same_md_gen _ _ A)).
    assert (gen b1 = strip rnd') as Gb1 by (by rewrite (same_md_gen _ _ B)).
    rewrite (proj2 (compare_goodness a1 i b1 j M ltac:(congruence) ltac:(congruence) ltac:(congruence))).
    rewrite (proj2 (compare_goodness b1 j a1 i (meets_sym _ _ _ _ M) ltac:(congruence) ltac:(congruence) ltac:(congruence))).
    rewrite (same_md_goodness _ _ _ _ A B), (same_md_goodness _ _ _ _ B A). unfold goodness.
    destruct (new_slots rnd forced younger a _ rnd' Wa Un') as [Sa Ha]. fold a' in Sa, Ha.
    destruct (new_slots rnd' forced younger b _ rnd Wb Un) as [Sb Hb]. fold b' in Sb, Hb. fold a' in Ga. fold b' in Gb'.
    rewrite <- Ga in Sb, Hb. rewrite <- Gb' in Sa, Ha. rewrite !not_known by done.
    rewrite (same_ancestor_sym b' a'). assert (same_ancestor a' b' = true) as ->; [|done].
    unfold same_ancestor.
    assert (idx a' = idx a) as Ia by (unfold idx, a'; by rewrite (proj1 (proj2 (new_current_md rnd forced younger a _ Wa)))).
    assert (idx b' = idx b) as Ib by (unfold idx, b'; by rewrite (proj1 (proj2 (new_current_md rnd' forced younger b _ Wb)))).
    rewrite Ia, Ib. unfold a', b'. rewrite old_slot by done. rewrite (old_slot rnd' forced younger b a Wb) by done.
    rewrite Hgen, Z.eqb_refl. cbn. apply negb_true_iff, Z.eqb_neq. unfold gen. destruct (Z.eqb_spec (strip (bsr_current_uuid b)) 0); done.
Qed.


(** ** Unrelated data

    The histories of two nodes are compared entry by entry, free entries too. *)

Lemma free_entries a i k l : (k < HISTORY_UUIDS)%nat -> (l < HISTORY_UUIDS)%nat ->
  bsr_history_uuid a k = 0 -> peer_hist a i l = 0 -> (compare_rest i a).1 <> -1000.
Proof.
  intros Hk Hl Ek El. unfold compare_rest. cbv zeta. destruct (existsb _ _); [done|]. destruct (_ && _); [done|].
  assert (forall f m, (m < HISTORY_UUIDS)%nat -> In (f m : Z) (map f (seq 0 HISTORY_UUIDS))) as Hin
    by (intros f m Hm; apply in_map, in_seq; lia).
  assert (existsb (fun self => existsb (Z.eqb self) (map (fun k => strip (peer_hist a i k)) (seq 0 HISTORY_UUIDS)))
            (map (fun k => strip (bsr_history_uuid a k)) (seq 0 HISTORY_UUIDS)) = true) as ->; [|done].
  apply existsb_exists. eexists. split; [apply (Hin (fun k => strip (bsr_history_uuid a k)) k Hk)|].
  apply existsb_exists. eexists. split; [apply (Hin (fun k => strip (peer_hist a i k)) l Hl)|].
  by rewrite Ek, El.
Qed.

(** C38. With protocol 110 or later, when both nodes have a free entry in their UUID
    history, bsr_uuid_compare never finds unrelated data (-1000), which the table above
    it promises for nodes without any UUID in common: rule 100 compares free entries as
    well. *)
Theorem unrelated_not_reported a i k l : 110 <= version a i -> (k < HISTORY_UUIDS)%nat -> (l < HISTORY_UUIDS)%nat ->
  bsr_history_uuid a k = 0 -> peer_hist a i l = 0 -> (bsr_uuid_compare i a).2.1.1 <> -1000.
Proof.
  intros Hv Hk Hl Ek El. pose proof (free_entries a i k l Hk Hl Ek El) as Hr.
  assert ((compare_equal i a).1 <> -1000) as He by (pose proof (equal_range a i); lia).
  unfold bsr_uuid_compare. cbv zeta. pose proof (proj2 (Z.ltb_ge _ _) Hv) as Hlt. rewrite Hlt.
  destruct (_ && _); [done|]. destruct (_ =? UUID_JUST_CREATED); [done|]. destruct (_ =? UUID_JUST_CREATED); [done|].
  destruct (_ =? _); [done|]. destruct (_ =? _); [done|]. destruct (List.find _ _); [done|]. destruct (existsb _ _); [done|].
  destruct (_ =? _); [done|]. destruct (List.find _ _); [done|]. by rewrite Hlt.
Qed.

(** ** Two nodes to look at

    Nodes 0 and 1 shared generation 32 until node 0, primary, lost node 1 and
    went on alone with generation 64. *)

Definition demo_conn (peer : Z) (r : bsr_role) : bsr_connection :=
  mk_connection (mk2 C_CONNECTED C_CONNECTED) (mk2 r r) (mk2 false false) None 0 115 peer.
Definition demo_rsc (me peer : Z) (r pr : bsr_role) : bsr_resource :=
  mk_resource (mk2 r r) (mk2 false false) (mk2 false false) [demo_conn peer pr] [] (mk_res_opts me 0 OND_IO_ERROR) 0 false.
Definition demo_pd (peer : Z) : bsr_peer_device :=
  mk_peer_device 0 peer 0 (mk2 L_OFF L_OFF) (mk2 D_UNKNOWN D_UNKNOWN) L_OFF (mk2 false false) (mk2 false false)
    (mk2 false false) (mk2 false false) true true false false false false 0 0 0 0.
Definition demo_md (me : Z) (slots : list bsr_peer_md) : bsr_md :=
  mk_md me (Z.lor MDF_CONSISTENT MDF_WAS_UP_TO_DATE) (slots ++ repeat (mk_peer_md (-1) 0 0) (BSR_NODE_ID_MAX - length slots)).
Definition demo_dev (me peer : Z) (slots : list bsr_peer_md) : bsr_device :=
  mk_device (mk2 D_UP_TO_DATE D_UP_TO_DATE) (mk2 false false) 0 0 false false false false (demo_md me slots) [demo_pd peer].
Definition demo (me peer : Z) (r pr : bsr_role) (cur weight : Z) (slots : list bsr_peer_md) (resolve : bool) : node :=
  mk_node (demo_rsc me peer r pr) (demo_dev me peer slots) true cur (repeat 0 HISTORY_UUIDS) (repeat 0 BSR_NODE_ID_MAX) cur 0
    [weight] [mk_uuid_peer 0 (repeat 0 BSR_NODE_ID_MAX) (repeat 0 HISTORY_UUIDS) 0 0 false false 0]
    [mk_uuid_conn resolve false false ASB_DISCARD_ZERO_CHG ASB_CONSENSUS ASB_DISCONNECT ASB_DISCONNECT false 0] [].

Definition free_slot : bsr_peer_md := mk_peer_md (-1) 0 0.
Definition slot0 (u : Z) : bsr_peer_md := mk_peer_md 0 u 0.
Definition node0 : node := demo 0 1 R_PRIMARY R_SECONDARY 33 5 [free_slot; slot0 0] true.
Definition node1 : node := demo 1 0 R_SECONDARY R_PRIMARY 32 0 [slot0 0; free_slot] false.
Definition wrote0 : node := bsr_uuid_new_current 64 false false node0.

(** What [a] knows after [b] has sent its UUIDs. *)
Definition told (b a : node) : node :=
  let a := upd_peer 0 (set_comm_bm_set (bsr_bm_total_weight a 0)) a in
  let p := (uuids110 0 0 0 NOW b).2 in
  match unpack_uuids110 0 (8 * Z.of_nat (length (u_other_uuids p))) 0 0 p a with inr a' => a' | inl _ => a end.
Definition met0 : node := told node1 wrote0.
Definition met1 : node := told wrote0 node1.

Example demo_result : (bsr_uuid_compare 0 met0).2 = (2, 70, None) /\ (bsr_uuid_compare 0 met1).2 = (-2, 50, None).
Proof. by split; vm_compute. Qed.

Lemma below (f : nat -> bool) m : forallb f (seq 0 m) = true -> forall k, (k < m)%nat -> f k = true.
Proof. intros H k Hk. rewrite forallb_forall in H. apply H, in_seq. lia. Qed.

Definition seenb (s v : Z) : bool := (s =? v) || ((v =? 0) && (s =? U64_MAX)).
Lemma seenb_seen s v : seenb s v = true -> seen s v.
Proof. unfold seenb, seen. lia. Qed.

Lemma slots_not n u : strip u <> 0 -> forallb (fun m => negb (strip (bitmap_uuid m) =? strip u)) (md_peers (ldev_md (dev n))) = true ->
  forall k, strip (md_bitmap_uuid n k) <> strip u.
Proof.
  intros H0 H k. unfold md_bitmap_uuid, peer_md_of. rewrite forallb_forall in H.
  destruct (nth_in_or_default k (md_peers (ldev_md (dev n))) (mk_peer_md (-1) 0 0)) as [Hin| ->].
  - by apply H, negb_true_iff, Z.eqb_neq in Hin.
  - intros E. apply H0. by rewrite <- E.
Qed.

Lemma history_not n u : strip u <> 0 -> forallb (fun h => negb (strip h =? strip u)) (md_history_uuids n) = true ->
  forall k, strip (bsr_history_uuid n k) <> strip u.
Proof.
  intros H0 H k. unfold bsr_history_uuid, u_at. rewrite forallb_forall in H. destruct (_ || _); [intros E; apply H0; by rewrite <- E|].
  destruct (nth_in_or_default k (md_history_uuids n) 0) as [Hin| ->].
  - by apply H, negb_true_iff, Z.eqb_neq in Hin.
  - intros E. apply H0. by rewrite <- E.
Qed.

(** [sees] by evaluation. *)
Ltac look :=
  split; [by vm_compute|by vm_compute|by vm_compute|by vm_compute|by vm_compute|by vm_compute|by vm_compute
    |let k := fresh in let Hk := fresh in intros k Hk; apply Z.eqb_eq; revert k Hk; apply below; by vm_compute
    |let k := fresh in let Hk := fresh in intros k Hk; apply seenb_seen; revert k Hk; apply below; by vm_compute
    |by vm_compute|apply slots_not; by vm_compute|by vm_compute|by vm_compute|by vm_compute|by vm_compute|by vm_compute].

Lemma demo_meets : meets met0 0 met1 0.
Proof. split; look. Qed.

Lemma demo_shakes : shakes met0 0 met1 0.
Proof.
  split; [apply demo_meets| | |by vm_compute|by vm_compute].
  - split; by vm_compute.
  - split; by vm_compute.
Qed.

Lemma demo_alone : writes_alone node0 false (idx node1).
Proof. split; [by vm_compute|by vm_compute|vm_compute; lia|by vm_compute|split; by vm_compute]. Qed.

Lemma demo_unknown : unknown_to 64 node1.
Proof. split; [by vm_compute|apply slots_not; by vm_compute|apply history_not; by vm_compute|by vm_compute]. Qed.

(** Node 0 receives what node 1 sends. *)
Lemma uuids_exchanged_witness :
  let p := (uuids110 0 0 0 NOW node1).2 in
  exists a', unpack_uuids110 0 (8 * Z.of_nat (length (u_other_uuids p))) 0 0 p wrote0 = inr a' /\
    current_uuid (peer_at a' 0) = 32.
Proof.
  intros p. destruct (uuids_exchanged wrote0 0 node1 0 0 0 NOW) as (a' & Ha & Hc & _).
  - split; by vm_compute.
  - vm_compute; lia.
  - exists a'. split; [exact Ha|]. by rewrite Hc.
Defined.

(** One node is the source and the other the target. *)
Lemma uuid_compare_opposite_witness :
  opposite (bsr_uuid_compare 0 met0).2.1.1 (bsr_uuid_compare 0 met1).2.1.1.
Proof.
  destruct (uuid_compare_opposite met0 0 met1 0 demo_meets) as (_ & _ & H). apply H. by vm_compute.
Defined.

Definition demo_env : env := mk_env true false false true true 0 0 0.


(** Node 0 wrote alone, so it becomes the source. *)
Lemma writers_meet_witness :
  (bsr_uuid_compare 0 met0).2.1.1 = 2 /\ (bsr_uuid_compare 0 met1).2.1.1 = -2.
Proof.
  apply (proj1 (writers_meet 64 128 false false node0 node1 ltac:(by vm_compute) demo_alone demo_unknown)).
  - apply demo_meets.
  - split; try by vm_compute. intros [|[|k]]; by vm_compute.
  - split; try by vm_compute. intros [|[|k]]; by vm_compute.
Defined.

Lemma unrelated_not_reported_witness : (bsr_uuid_compare 0 met0).2.1.1 <> -1000.
Proof. apply (unrelated_not_reported met0 0 0 0); [by vm_compute|vm_compute; lia|vm_compute; lia|by vm_compute|by vm_compute]. Defined.

End HandshakeLife.
