(* ===== verification/ActLog.v ===== *)
(** * The activity log (src/bsr/bsr_actlog.c)

    The areas ("extents" of 4 MiB) that may have writes in flight are the
    labels of an LRU cache.  Before a write goes to a cold extent, the change
    of the cache is written as a transaction to a ring of 4 KiB blocks in the
    meta data, from which the active extents are found again after a crash
    (AlReplay.v).  The checksum of a block is a parameter of the model. *)

From S2P Require Import Prelude LruCache.

Module ActLog.
Import LruCache.

Definition AL_UPDATES_PER_TRANSACTION : nat := 64.
Definition AL_CONTEXT_PER_TRANSACTION : nat := 919.
Definition BSR_AL_EXTENTS_MAX : Z := 65534.
Definition BSR_AL_EXTENTS_MIN : Z := 67.
Definition BSR_AL_MAGIC : Z := 1774937506.
Definition AL_TR_UPDATE : Z := 0.
Definition AL_TR_INITIALIZED : Z := 65535.
Definition U16_MAX : Z := 65535.
Definition AL_EXTENT_SHIFT : Z := 22.
Definition BM_BLOCK_SHIFT : Z := 12.
Definition AL_EXT_PER_BM_SECT : Z := 32.
Definition ECONNABORTED : Z := 103.
Definition EBUSY : Z := 16.
Definition EWOULDBLOCK : Z := 11.
Definition ENODEV : Z := 19.

(** [struct al_transaction_on_disk], the numbers in host byte order. *)
Record al_transaction_on_disk := mk_al_tr {
  t_magic : Z;
  t_tr_number : Z;
  t_crc32c : Z;
  t_type : Z;
  t_n_updates : Z;
  t_context_size : Z;
  t_context_start_slot_nr : Z;
  t_update_slot_nr : list Z;
  t_update_extent_nr : list Z;
  t_context : list Z }.

Definition set_crc (c : Z) (t : al_transaction_on_disk) : al_transaction_on_disk :=
  mk_al_tr (t_magic t) (t_tr_number t) c (t_type t) (t_n_updates t) (t_context_size t) (t_context_start_slot_nr t)
    (t_update_slot_nr t) (t_update_extent_nr t) (t_context t).

(** [struct bm_extent] without its cache element. *)
Record bm_extent := mk_bme {
  rs_left : Z;
  rs_failed : Z;
  bme_flags : Z }.

(** The resync extents of one peer: a cache, and what each element carries. *)
Record rs_peer := mk_rs_peer {
  rs_version : Z;
  resync_lru : lru_cache;
  bmes : list bm_extent;
  resync_wenr : Z;
  resync_locked : Z }.

Definition set_bme_flags (v : Z) (x : bm_extent) : bm_extent := mk_bme (rs_left x) (rs_failed x) v.

Definition BME_NO_WRITES : Z := 0.
Definition BME_LOCKED : Z := 1.
Definition BME_PRIORITY : Z := 2.

(** The part of a device the activity log uses.  [al_start] is [md_offset + al_offset],
    [al_disk] the blocks from there on; [al_hints] are the ranges of bits marked for the next
    [bsr_bm_write_hinted], [bm_written] those it has written; [al_errs] counts error messages. *)
Record al_device := mk_al_device {
  act_log : lru_cache;
  al_tr_number : Z;
  al_tr_cycle : Z;
  al_stripes : Z;
  al_stripe_size_4k : Z;
  al_size_4k : Z;
  al_start : Z;
  al_updates : bool;
  al_disk : list al_transaction_on_disk;
  al_hints : list (Z * Z);
  bm_written : list (Z * Z);
  rs_peers : list rs_peer;
  al_errs : Z }.

Definition set_al (d : al_device) (al : lru_cache) : al_device :=
  mk_al_device al (al_tr_number d) (al_tr_cycle d) (al_stripes d) (al_stripe_size_4k d) (al_size_4k d) (al_start d)
    (al_updates d) (al_disk d) (al_hints d) (bm_written d) (rs_peers d) (al_errs d).
Definition set_rs_peers (d : al_device) (ps : list rs_peer) : al_device :=
  mk_al_device (act_log d) (al_tr_number d) (al_tr_cycle d) (al_stripes d) (al_stripe_size_4k d) (al_size_4k d) (al_start d)
    (al_updates d) (al_disk d) (al_hints d) (bm_written d) ps (al_errs d).
Definition al_error (d : al_device) : al_device :=
  mk_al_device (act_log d) (al_tr_number d) (al_tr_cycle d) (al_stripes d) (al_stripe_size_4k d) (al_size_4k d) (al_start d)
    (al_updates d) (al_disk d) (al_hints d) (bm_written d) (rs_peers d) (al_errs d + 1).

(** The element at an index. *)
Definition elem (lc : lru_cache) (i : nat) : lc_element := default (mk_element 0 LC_FREE LC_FREE) (elements lc !! i).

(** ** Resync extents in the way *)

Definition bme (p : rs_peer) (i : nat) : bm_extent := nth i (bmes p) (mk_bme 0 0 0).
Definition bme_test (p : rs_peer) (i : nat) (bit : Z) : bool := Z.testbit (bme_flags (bme p i)) bit.

(** Is there a resync extent of some peer (up to protocol 112) that takes no writes?  An extent the
    resync only waits for is given up.  The results: found, [wake_up], the peers. *)
Fixpoint find_active_resync_extent (enr : Z) (ps : list rs_peer) : option (bool * bool * list rs_peer) :=
  match ps with
  | [] => Some (false, false, [])
  | p :: ps =>
    let next (p : rs_peer) (wake : bool) :=
      '(found, w, ps) ← find_active_resync_extent enr ps; Some (found, wake || w, p :: ps) in
    if rs_version p <=? 112 then
      match lc_find (resync_lru p) (enr / AL_EXT_PER_BM_SECT) with
      | Some i =>
        if bme_test p i BME_NO_WRITES then
          if resync_wenr p =? lc_number (elem (resync_lru p) i) then
            '(r, lc) ← lc_put (resync_lru p) i;
            if r =? 0 then
              next (mk_rs_peer (rs_version p) lc (alter (set_bme_flags 0) i (bmes p)) LC_FREE (u32 (resync_locked p - 1))) true
            else Some (true, false, mk_rs_peer (rs_version p) lc (bmes p) LC_FREE (resync_locked p) :: ps)
          else Some (true, false, p :: ps)
        else next p false
      | None => next p false
      end
    else next p false
  end.

Definition set_bme_priority (enr : Z) (wake : bool) (ps : list rs_peer) : bool * list rs_peer :=
  foldr (fun p '(w, ps) =>
    match (if rs_version p <=? 112 then lc_find (resync_lru p) (enr / AL_EXT_PER_BM_SECT) else None) with
    | Some i =>
      if bme_test p i BME_NO_WRITES && negb (bme_test p i BME_PRIORITY) then
        (true, mk_rs_peer (rs_version p) (resync_lru p) (alter (fun x => set_bme_flags (Z.setbit (bme_flags x) BME_PRIORITY) x) i (bmes p))
                 (resync_wenr p) (resync_locked p) :: ps)
      else (w, p :: ps)
    | None => (w, p :: ps)
    end) (wake, []) ps.

(** ** References *)

Definition __al_get (mon nonblock : bool) (enr : Z) (d : al_device) : option (option nat * al_device) :=
  '(found, wake, ps) ← find_active_resync_extent enr (rs_peers d);
  if (found : bool) then Some (None, set_rs_peers d (set_bme_priority enr wake ps).2)
  else
    '(r, al) ← (if nonblock then lc_try_get else lc_get) mon (act_log d) enr;
    Some (r, set_al (set_rs_peers d ps) al).

Definition _al_get_nonblock (mon : bool) (enr : Z) (d : al_device) := __al_get mon true enr d.
Definition _al_get (mon : bool) (enr : Z) (d : al_device) := __al_get mon false enr d.

(** The extents of an interval. *)
Definition al_first (sector : Z) : Z := Z.shiftr sector (AL_EXTENT_SHIFT - 9).
Definition al_last (sector size : Z) : Z :=
  if size =? 0 then al_first sector else Z.shiftr (sector + Z.shiftr size 9 - 1) (AL_EXTENT_SHIFT - 9).
Definition extents (first last : Z) : list Z := map (fun k => first + Z.of_nat k) (seq 0 (Z.to_nat (last - first + 1))).

Definition bsr_al_begin_io_fastpath (mon : bool) (sector size : Z) (d : al_device) : option (bool * al_device) :=
  let first := al_first sector in
  if negb (first =? al_last sector size) then Some (false, d)
  else '(r, d) ← _al_get_nonblock mon (u32 first) d; Some (bool_decide (is_Some r), d).

Definition put_one (d : al_device) (enr : Z) : option (bool * al_device) :=
  match lc_find (act_log d) (u32 enr) with
  | Some i =>
    if refcnt (elem (act_log d) i) <=? 0 then Some (false, al_error d)
    else '(r, al) ← lc_put (act_log d) i; Some (r =? 0, set_al d al)
  | None => Some (false, al_error d)
  end.

Fixpoint put_actlog (enrs : list Z) (d : al_device) : option (bool * al_device) :=
  match enrs with
  | [] => Some (false, d)
  | enr :: enrs => '(w, d) ← put_one d enr; '(w', d) ← put_actlog enrs d; Some (w || w', d)
  end.

Definition bsr_al_complete_io (sector size : Z) (d : al_device) : option (bool * al_device) :=
  put_actlog (extents (al_first sector) (al_last sector size)) d.

(** ** Transactions *)

Definition al_extent_to_bm_bit (al_enr : Z) : Z := Z.shiftl al_enr (AL_EXTENT_SHIFT - BM_BLOCK_SHIFT).

(** The 4 KiB block of a transaction in the activity log area. *)
Definition al_stripe_block (stripes stripe_size t : Z) : Z := u32 (u32 (t mod stripes * stripe_size) + t / stripes).

Definition al_tr_number_to_on_disk_sector (d : al_device) : Z :=
  al_start d + u32 (al_stripe_block (al_stripes d) (al_stripe_size_4k d) (al_tr_number d mod al_size_4k d) * 8).

Section with_crc.
Context (crc32c : al_transaction_on_disk -> Z).

(** The bits whose last changes have to reach the disk before [e] is relabelled. *)
Definition writeout_hint (e : lc_element) : list (Z * Z) :=
  if lc_number e =? LC_FREE then []
  else [(al_extent_to_bm_bit (lc_number e), al_extent_to_bm_bit (u32 (lc_number e + 1)) - 1)].

Definition pad (n : nat) (x : Z) (l : list Z) : list Z := l ++ repeat x (n - length l).

(** The block [__al_write_transaction] builds; [mx] is the number of context slots. *)
Definition al_buffer (d : al_device) (mx : nat) : al_transaction_on_disk :=
  let al := act_log d in
  let changes := to_be_changed al in
  let t := mk_al_tr BSR_AL_MAGIC (al_tr_number d) 0 AL_TR_UPDATE (u16 (Z.of_nat (length changes)))
             (u16 (Z.of_nat (nr_elements al))) (u16 (al_tr_cycle d))
             (pad AL_UPDATES_PER_TRANSACTION U16_MAX (map (fun i => u16 (Z.of_nat i)) changes))
             (pad AL_UPDATES_PER_TRANSACTION LC_FREE (map (fun i => lc_new_number (elem al i)) changes))
             (pad AL_CONTEXT_PER_TRANSACTION LC_FREE
                (map (fun k => lc_number (elem al (Z.to_nat (al_tr_cycle d) + k))) (seq 0 mx))) in
  set_crc (crc32c t) t.

(** [bm_err] and [io_err]: [bsr_bm_write_hinted] and the write of the block fail.  [None] is [BUG_ON] or
    an element index out of range. *)
Definition __al_write_transaction (bm_err io_err : bool) (d : al_device) : option (Z * al_device) :=
  let al := act_log d in
  let changes := to_be_changed al in
  if (AL_UPDATES_PER_TRANSACTION <? length changes)%nat then None
  else
    let mx := Z.to_nat (Z.min (Z.of_nat AL_CONTEXT_PER_TRANSACTION) (s32 (Z.of_nat (nr_elements al) - al_tr_cycle d))) in
    if (nr_elements al <? Z.to_nat (al_tr_cycle d) + mx)%nat && (0 <? mx)%nat then None
    else
      let buffer := al_buffer d mx in
      let hints := concat (map (fun i => writeout_hint (elem al i)) changes) in
      let cycle := u32 (al_tr_cycle d + Z.of_nat AL_CONTEXT_PER_TRANSACTION) in
      let cycle := if Z.of_nat (nr_elements al) <=? cycle then 0 else cycle in
      let sector := al_tr_number_to_on_disk_sector d in
      let with_disk nr disk written :=
        mk_al_device al nr cycle (al_stripes d) (al_stripe_size_4k d) (al_size_4k d) (al_start d) (al_updates d) disk hints
          written (rs_peers d) (al_errs d) in
      if bm_err then Some (- EIO, with_disk (al_tr_number d) (al_disk d) (bm_written d))
      else
        let written := hints ++ bm_written d in
        if negb (al_updates d) then Some (0, with_disk (al_tr_number d) (al_disk d) written)
        else if io_err then Some (- EIO, with_disk (al_tr_number d) (al_disk d) written)
        else Some (0, with_disk (u32 (al_tr_number d + 1)) (<[Z.to_nat ((sector - al_start d) / 8) := buffer]> (al_disk d)) written).

(** What else can stop a transaction: the local disk or the I/O buffer is gone. *)
Record al_env := mk_al_env { ev_ldev : bool; ev_disk : bool; ev_buffer : bool; ev_bm_err : bool; ev_io_err : bool }.
Definition al_env_ok : al_env := mk_al_env true true true false false.

Definition al_write_transaction (e : al_env) (d : al_device) : option (Z * al_device) :=
  if negb (ev_ldev e) then Some (- EIO, al_error d)
  else if negb (ev_disk e) then Some (- EIO, al_error d)
  else if negb (ev_buffer e) then Some (- ENODEV, al_error d)
  else __al_write_transaction (ev_bm_err e) (ev_io_err e) d.

Definition bsr_al_try_lock_for_transaction (d : al_device) : bool * al_device :=
  let '(b, al) := lc_try_lock_for_transaction (act_log d) in (b, set_al d al).
Definition bsr_al_try_lock (d : al_device) : option (bool * al_device) :=
  '(b, al) ← lc_try_lock (act_log d); Some (b, set_al d al).

(** The steps of [bsr_al_begin_io_commit] between which others run: taking the lock, the write, the commit. *)
Definition commit_write (e : al_env) (d : al_device) : option (Z * al_device) :=
  if al_updates d then al_write_transaction e d else Some (0, d).
Definition commit_done (mon : bool) (d : al_device) : option al_device :=
  al ← lc_committed mon (act_log d); Some (set_al d al).
Definition al_unlock (d : al_device) : al_device := set_al d (lc_unlock (act_log d)).

(** [bsr_al_begin_io_commit] when nobody runs in between; without the lock it waits for its holder. *)
Definition bsr_al_begin_io_commit (mon : bool) (e : al_env) (d : al_device) : option al_device :=
  let '(locked, d) := bsr_al_try_lock_for_transaction d in
  if locked then
    if negb (pending_changes (act_log d) =? 0) then
      '(_, d) ← commit_write e d; d ← commit_done mon d; Some (al_unlock d)
    else Some (al_unlock d)
  else Some d.

(** [bsr_al_initialize]: the result of the last write. *)
Fixpoint rewrite_ring (n : nat) (errs : list (bool * bool)) (d : al_device) : option (Z * al_device) :=
  match n with
  | O => Some (0, d)
  | S n =>
    let '(b, i) := List.hd (false, false) errs in
    '(err, d) ← __al_write_transaction b i d;
    if negb (err =? 0) then Some (err, d) else rewrite_ring n (tail errs) d
  end.

Definition bsr_al_initialize (mon : bool) (errs : list (bool * bool)) (d : al_device) : option (Z * al_device) :=
  let '(b, i) := List.hd (false, false) errs in
  '(_, d) ← __al_write_transaction b i d;
  d ← commit_done mon d;
  rewrite_ring (Z.to_nat (al_stripes d * al_stripe_size_4k d) - 1) (tail errs) d.

(** [bsr_al_begin_io_for_peer] from extent [enr] on. *)
Inductive for_peer := FP_done (err : Z) (d : al_device) | FP_waits (enr : Z) (d : al_device).

Fixpoint for_peer_get (mon connected : bool) (got todo : list Z) (need : bool) (d : al_device) : option (for_peer * bool) :=
  match todo with
  | [] => Some (FP_done 0 d, need)
  | enr :: todo =>
    '(r, d) ← _al_get mon (u32 enr) d;
    match r with
    | Some i => for_peer_get mon connected (got ++ [enr]) todo (need || negb (lc_number (elem (act_log d) i) =? enr)) d
    | None =>
      if connected then Some (FP_waits enr d, need)
      else '(_, d) ← put_actlog got d; Some (FP_done (- ECONNABORTED) d, false)
    end
  end.

Definition bsr_al_begin_io_for_peer (mon connected : bool) (e : al_env) (sector size : Z) (d : al_device) : option for_peer :=
  '(r, need) ← for_peer_get mon connected [] (extents (al_first sector) (al_last sector size)) false d;
  match r with
  | FP_done 0 d => if (need : bool) then d ← bsr_al_begin_io_commit mon e d; Some (FP_done 0 d) else Some r
  | _ => Some r
  end.

End with_crc.

(** ** Several extents at once *)

Fixpoint resync_in_way (wake : bool) (enrs : list Z) (d : al_device) : option (option Z * al_device) :=
  match enrs with
  | [] => Some (None, d)
  | enr :: enrs =>
    '(found, w, ps) ← find_active_resync_extent (u32 enr) (rs_peers d);
    if (found : bool) then
      let '(w', ps) := set_bme_priority (u32 enr) (wake || (w : bool)) ps in
      Some (Some (- (if w' then EBUSY else EWOULDBLOCK)), set_rs_peers d ps)
    else resync_in_way (wake || (w : bool)) enrs (set_rs_peers d ps)
  end.

Fixpoint check_out (mon : bool) (enrs : list Z) (d : al_device) : option al_device :=
  match enrs with
  | [] => Some d
  | enr :: enrs =>
    '(r, al) ← lc_get_cumulative mon (act_log d) (u32 enr);
    check_out mon enrs (if bool_decide (is_Some r) then set_al d al else al_error (set_al d al))
  end.

(** [fake] is [g_fake_al_used]. *)
Definition bsr_al_begin_io_nonblock (mon : bool) (fake : Z) (sector size : Z) (d : al_device) : option (Z * al_device) :=
  let al := act_log d in
  let first := al_first sector in
  let last := al_last sector size in
  let nr := Z.of_nat (nr_elements al) in
  let available :=
    if nr <? used al + fake then 0
    else Z.min (nr - (used al + fake)) (max_pending_changes al - pending_changes al) in
  if available <? 1 + last - first then
    Some (- ENOBUFS, if pending_changes al =? 0 then set_al d (set_starving al true) else d)
  else
    '(busy, d) ← resync_in_way false (extents first last) d;
    match busy with
    | Some err => Some (err, d)
    | None =>
      d ← check_out mon (extents first last) (set_al d (set_starving (act_log d) false));
      Some (0, d)
    end.

(** ** Another size *)

(** The loop of [bsr_al_shrink]; [false]: it waits for the references of an element. *)
Fixpoint shrink_from (idx : list nat) (d : al_device) : option (bool * al_device) :=
  match idx with
  | [] => Some (true, d)
  | i :: idx =>
    if lc_number (elem (act_log d) i) =? LC_FREE then shrink_from idx d
    else if negb (refcnt (elem (act_log d) i) =? 0) then Some (false, d)
    else al ← lc_del (act_log d) i; shrink_from idx (set_al d al)
  end.

(** The lock is held: else an assertion fails. *)
Definition bsr_al_shrink (d : al_device) : option (bool * al_device) :=
  shrink_from (seq 0 (nr_elements (act_log d))) (if LC_LOCKED (flags (act_log d)) then d else al_error d).

Definition in_use_refs (lc : lru_cache) : Z := foldr (fun e n => u32 (n + refcnt e)) 0 (elements lc).

(** A device that is attached has an activity log; [alloc]: [lc_create] gets its memory. *)
Definition bsr_check_al_size (alloc : bool) (al_extents : Z) (d : al_device) : Z * al_device :=
  if Z.of_nat (nr_elements (act_log d)) =? al_extents then (0, d)
  else
    match lc_create alloc (Z.of_nat AL_UPDATES_PER_TRANSACTION) al_extents with
    | None => (- ENOMEM, al_error d)
    | Some n => if in_use_refs (act_log d) =? 0 then (0, set_al d n) else (- EBUSY, al_error d)
    end.

Definition bsr_al_extents_max (al_size_4k : Z) : Z :=
  let sufficient_on_disk :=
    (BSR_AL_EXTENTS_MAX + Z.of_nat AL_CONTEXT_PER_TRANSACTION - 1) / Z.of_nat AL_CONTEXT_PER_TRANSACTION in
  if sufficient_on_disk <? al_size_4k then BSR_AL_EXTENTS_MAX
  else u32 ((al_size_4k - 1) * Z.of_nat AL_CONTEXT_PER_TRANSACTION).

(** The number of extents [sanitize_disk_conf] leaves. *)
Definition sanitize_al_extents (al_size_4k al_extents : Z) : Z :=
  Z.min (Z.max al_extents BSR_AL_EXTENTS_MIN) (bsr_al_extents_max al_size_4k).

(** [check_activity_log_stripe_size]: stripes, blocks per stripe and blocks of the whole log. *)
Definition check_activity_log_stripe_size (stripes stripe_size : Z) : Z + Z * Z * Z :=
  let '(stripes, stripe_size) := if (stripes =? 0) && (stripe_size =? 0) then (1, 8) else (stripes, stripe_size) in
  if (stripes =? 0) || (stripe_size =? 0) then inl (- EINVAL)
  else
    let al_size_4k := u32 (stripes * stripe_size) in
    if 4194304 <? al_size_4k then inl (- EINVAL)
    else if al_size_4k <? 8 then inl (- EINVAL)
    else inr (stripes, stripe_size, al_size_4k).

End ActLog.
