(* ===== verification/AlReplay.v ===== *)
(** * Replay of the activity log (src/bsr-utils/user/shared/bsrmeta.c)

    After a crash of a primary, [bsrmeta apply-al] reads the ring of
    transactions, reconstructs the set of active extents and marks them out of
    sync for every peer in the on-disk bitmap. *)

From stdpp Require Import sorting.
From S2P Require Import Prelude LruCache ActLog.

Module AlReplay.
Import LruCache ActLog.

Definition AL_EXTENTS_MAX : nat := 65534.
Definition ENODATA : Z := 61.
Definition buffer_size : Z := 32 * 1024 * 1024.
Definition BM_BYTES_PER_AL_EXT : Z := Z.shiftl 1 (22 - 12 - 3).
Definition MDF_PRIMARY_IND : Z := Z.shiftl 1 1.
Definition MDF_AL_CLEAN : Z := Z.shiftl 1 7.

Definition no_tr : al_transaction_on_disk := mk_al_tr 0 0 0 0 0 0 0 [] [] [].

Definition al_tr_number_to_on_disk_slot (stripes stripe_size b mx : Z) : Z := al_stripe_block stripes stripe_size (b mod mx).

Section with_crc.
Context (crc32c : al_transaction_on_disk -> Z).

(** [is_valid] of a block. *)
Definition v84_al_disk_to_cpu (t : al_transaction_on_disk) : bool :=
  (t_magic t =? BSR_AL_MAGIC) && (t_crc32c t =? crc32c (set_crc 0 t)).

(** A transaction to replay. *)
Definition is_update (t : al_transaction_on_disk) : bool := v84_al_disk_to_cpu t && negb (t_type t =? AL_TR_INITIALIZED).

Record al_cursor := mk_cursor { cur_i : Z; cur_tr : Z }.
Record al_scan := mk_scan { found_valid : Z; found_valid_updates : Z; oldest : al_cursor; newest : al_cursor }.

Definition scan_block (al_cpu : list al_transaction_on_disk) (s : al_scan) (b : nat) : al_scan :=
  let t := nth b al_cpu no_tr in
  if negb (v84_al_disk_to_cpu t) then s
  else if t_type t =? AL_TR_INITIALIZED then mk_scan (found_valid s + 1) (found_valid_updates s) (oldest s) (newest s)
  else
    let here := mk_cursor (Z.of_nat b) (t_tr_number t) in
    let n := found_valid_updates s + 1 in
    if n =? 1 then mk_scan (found_valid s + 1) n here here
    else mk_scan (found_valid s + 1) n
           (if s32 (t_tr_number t - cur_tr (oldest s)) <? 0 then here else oldest s)
           (if 0 <? s32 (t_tr_number t - cur_tr (newest s)) then here else newest s).

(** [hot_extent[slot] = extent]; a slot out of range is only reported. *)
Definition set_hot (slot extent : Z) (hot : list Z) : list Z :=
  if Z.of_nat AL_EXTENTS_MAX <=? slot then hot else <[Z.to_nat slot := extent]> hot.

Definition replay_context (t : al_transaction_on_disk) (hot : list Z) : list Z :=
  foldl (fun hot i =>
    let slot := t_context_start_slot_nr t + Z.of_nat i in
    let extent := nth i (t_context t) 0 in
    if (extent =? U32_MAX) && (t_context_size t <=? slot) then hot else set_hot slot extent hot)
    hot (seq 0 AL_CONTEXT_PER_TRANSACTION).

Definition replay_updates (t : al_transaction_on_disk) (hot : list Z) : list Z :=
  foldl (fun hot i =>
    let slot := nth i (t_update_slot_nr t) 0 in
    if (t_n_updates t <=? Z.of_nat i) && (slot =? U16_MAX) then hot
    else set_hot slot (nth i (t_update_extent_nr t) 0) hot)
    hot (seq 0 AL_UPDATES_PER_TRANSACTION).

Definition replay_block (al_cpu : list al_transaction_on_disk) (hot : list Z) (idx : nat) : list Z :=
  let t := nth idx al_cpu no_tr in
  if negb (v84_al_disk_to_cpu t) || (t_type t =? AL_TR_INITIALIZED) then hot
  else replay_updates t (replay_context t hot).

(** The result of [replay_al_84] and the hot extents. *)
Definition replay_al_84 (stripes stripe_size : Z) (al_disk : list al_transaction_on_disk) (hot : list Z) : Z * list Z :=
  let mx := u32 (stripes * stripe_size) in
  let al_cpu := map (fun b => nth (Z.to_nat (al_tr_number_to_on_disk_slot stripes stripe_size (Z.of_nat b) mx)) al_disk no_tr)
                  (seq 0 (Z.to_nat mx)) in
  let s := foldl (scan_block al_cpu) (mk_scan 0 0 (mk_cursor 0 0) (mk_cursor 0 0)) (seq 0 (Z.to_nat mx)) in
  if found_valid s =? 0 then (- ENODATA, hot)
  else if found_valid_updates s =? 0 then
    if found_valid s =? mx then (0, hot)
    else if negb (v84_al_disk_to_cpu (nth 0 al_cpu no_tr)) && (found_valid s =? mx - 1) then (0, hot)
    else (- EINVAL, hot)
  else
    let last := if cur_i (newest s) <? cur_i (oldest s) then cur_i (newest s) + mx else cur_i (newest s) in
    (found_valid_updates s,
     foldl (fun hot b => replay_block al_cpu hot (b mod Z.to_nat mx)) hot
       (seq (Z.to_nat (cur_i (oldest s))) (Z.to_nat (last - cur_i (oldest s) + 1)))).

(** ** The bitmap *)

(** [pread] and [pwrite] on the bytes of the bitmap. *)
Definition pread (pos len : Z) (bm : list Z) : list Z := firstn (Z.to_nat len) (skipn (Z.to_nat pos) bm).
Definition pwrite (pos : Z) (buf bm : list Z) : list Z :=
  firstn (Z.to_nat pos) bm ++ buf ++ skipn (Z.to_nat pos + length buf) bm.
Definition memset (pos : Z) (v : Z) (len : Z) (buf : list Z) : list Z :=
  firstn (Z.to_nat pos) buf ++ firstn (length buf - Z.to_nat pos) (repeat v (Z.to_nat len)) ++ skipn (Z.to_nat (pos + len)) buf.

(** The local variables of [apply_al]: [ap_any] is [i != 0], [ap_buf] the part of the buffer that is written back. *)
Record apply_st := mk_apply { ap_bm : list Z; ap_buf : list Z; ap_pos : Z; ap_chunk : Z; ap_any : bool }.

(** One hot extent; positions are [size_t], so the difference [off] wraps.
    [None]: an assertion fails and the program aborts. *)
Definition apply_extent (es bm_bytes : Z) (extent : Z) (s : apply_st) : option apply_st :=
  let bm_pos := u32 (extent * es) in
  if bm_bytes <=? bm_pos then Some (mk_apply (ap_bm s) (ap_buf s) (ap_pos s) (ap_chunk s) true)
  else
    let s :=
      if negb (ap_any s) || (ap_pos s + ap_chunk s <=? bm_pos + es) then
        let bm := if ap_any s then pwrite (ap_pos s) (ap_buf s) (ap_bm s) else ap_bm s in
        let pos := Z.land bm_pos (lnot_w 64 4095) in
        let chunk := Z.min (bm_bytes - pos) buffer_size in
        mk_apply bm (pread pos chunk bm) pos chunk true
      else s in
    let off := u64 (bm_pos - ap_pos s) in
    if negb (off <=? u64 (ap_chunk s - es)) then None
    else if negb (off mod 8 =? 0) then None
    else Some (mk_apply (ap_bm s) (memset off 255 es (ap_buf s)) (ap_pos s) (ap_chunk s) true).

Fixpoint apply_loop (es bm_bytes : Z) (hot : list Z) (s : apply_st) : option apply_st :=
  match hot with
  | [] => Some s
  | x :: hot => if x =? U32_MAX then Some s else s ← apply_extent es bm_bytes x s; apply_loop es bm_bytes hot s
  end.

(** [bm_bytes] is the size of the bitmap aligned to the sector size of the meta data device. *)
Definition apply_al (max_peers bm_bytes : Z) (hot bm : list Z) : option (list Z) :=
  s ← apply_loop (u32 (BM_BYTES_PER_AL_EXT * max_peers)) bm_bytes hot (mk_apply bm [] 0 0 false);
  Some (if ap_any s then pwrite (ap_pos s) (ap_buf s) (ap_bm s) else ap_bm s).

(** ** The command *)

Definition initialize_al (mx : Z) : list al_transaction_on_disk :=
  let t := mk_al_tr BSR_AL_MAGIC 0 0 AL_TR_INITIALIZED 0 0 0 (repeat 0 AL_UPDATES_PER_TRANSACTION)
             (repeat 0 AL_UPDATES_PER_TRANSACTION) (repeat 0 AL_CONTEXT_PER_TRANSACTION) in
  repeat (set_crc (crc32c t) t) (Z.to_nat mx).

(** The meta data [bsrmeta] works on. *)
Record meta := mk_meta {
  m_flags : Z; m_max_peers : Z; m_al_stripes : Z; m_al_stripe_size_4k : Z; m_bm_bytes : Z;
  m_al : list al_transaction_on_disk; m_bm : list Z }.

Definition need_to_apply_al (m : meta) : bool := negb (Z.land (m_flags m) MDF_PRIMARY_IND =? 0).

(** [qsort] with [cmp_u32]. *)
Definition sort_u32 : list Z -> list Z := merge_sort Z.le.

(** [meta_apply_al] on version 9 meta data: the exit code and the meta data.
    [None] is [abort], or, at the start, an activity log larger than the buffer
    it is read into (at most [buffer_size] bytes are read, and [replay_al_84]
    would go on behind them; [create-md] makes no such log). *)
Definition meta_apply_al (m : meta) : option (Z * meta) :=
  if buffer_size <? 4096 * u32 (m_al_stripes m * m_al_stripe_size_4k m) then None else
  let '(err, hot) := replay_al_84 (m_al_stripes m) (m_al_stripe_size_4k m) (m_al m) (repeat U32_MAX AL_EXTENTS_MAX) in
  if (err <? 0) && need_to_apply_al m then Some (if err =? - ENODATA then 1 else 2, m)
  else
    bm ← (if (0 <? err) && need_to_apply_al m
          then apply_al (m_max_peers m) (m_bm_bytes m) (sort_u32 hot) (m_bm m) else Some (m_bm m));
    let al := if err =? 0 then m_al m else initialize_al (u32 (m_al_stripes m * m_al_stripe_size_4k m)) in
    Some (0, mk_meta (Z.lor (m_flags m) MDF_AL_CLEAN) (m_max_peers m) (m_al_stripes m) (m_al_stripe_size_4k m) (m_bm_bytes m) al bm).

End with_crc.
End AlReplay.
