(* ===== verification/AlReplayOk.v ===== *)
(** * What a replay finds (src/bsr-utils/user/shared/bsrmeta.c)

    The cursors of [replay_al_84] find the oldest and the newest transaction
    of the ring, and the replay gives every slot the value the newest
    transaction that mentions it gives it. *)

From stdpp Require Import sorting.
From S2P Require Import Prelude LruCache ActLog AlReplay.

Module AlReplayOk.
Import LruCache ActLog AlReplay.

(** The sizes of the arrays are only ever used as numbers. *)
Lemma context_size_eq : Z.of_nat AL_CONTEXT_PER_TRANSACTION = 919. Proof. done. Qed.
Lemma updates_size_eq : Z.of_nat AL_UPDATES_PER_TRANSACTION = 64. Proof. done. Qed.
Lemma extents_max_eq : Z.of_nat AL_EXTENTS_MAX = 65534. Proof. by vm_compute. Qed.
#[global] Opaque AL_CONTEXT_PER_TRANSACTION AL_UPDATES_PER_TRANSACTION AL_EXTENTS_MAX.

(** ** One transaction *)

(** The writes to the hot extents, one after the other. *)
Definition hot_writes (ws : list (option (Z * Z))) (hot : list Z) : list Z :=
  foldl (fun hot o => match o with Some (slot, x) => set_hot slot x hot | None => hot end) hot ws.

Definition pick (s : Z) (acc : option Z) (o : option (Z * Z)) : option Z :=
  match o with Some (slot, x) => if slot =? s then Some x else acc | None => acc end.
(** The last write to slot [s]. *)
Definition last_write (ws : list (option (Z * Z))) (s : Z) : option Z := foldl (pick s) None ws.

Lemma last_write_snoc ws o s : last_write (ws ++ [o]) s = pick s (last_write ws s) o.
Proof. unfold last_write. by rewrite foldl_app. Qed.

Lemma length_set_hot slot x hot : length (set_hot slot x hot) = length hot.
Proof. unfold set_hot. case_match; [done|]. apply length_insert. Qed.

Lemma length_hot_writes ws hot : length (hot_writes ws hot) = length hot.
Proof.
  revert hot. induction ws as [|[[sl x]|] ws IH]; intros hot; [done| |apply IH].
  cbn. unfold hot_writes in IH. by rewrite IH, length_set_hot.
Qed.

Lemma hot_writes_lookup ws hot s :
  Forall (fun o => forall slot x, o = Some (slot, x) -> 0 <= slot) ws -> length hot = AL_EXTENTS_MAX -> (s < AL_EXTENTS_MAX)%nat ->
  hot_writes ws hot !! s = match last_write ws (Z.of_nat s) with Some x => Some x | None => hot !! s end.
Proof.
  intros Hf Hl Hs. induction ws as [|o ws IH] using rev_ind; [done|].
  apply Forall_app in Hf as [Hf Ho]. rewrite Forall_singleton in Ho. rewrite last_write_snoc.
  unfold hot_writes. rewrite foldl_app. cbn [foldl]. fold (hot_writes ws hot). specialize (IH Hf).
  destruct o as [[slot x]|]; cbn [pick]; [|done]. specialize (Ho _ _ eq_refl). unfold set_hot.
  destruct (Z.eqb_spec slot (Z.of_nat s)) as [->|Hne].
  - rewrite (proj2 (Z.leb_gt _ _)) by lia. rewrite Nat2Z.id. apply list_lookup_insert_eq. rewrite length_hot_writes. lia.
  - destruct (Z.leb_spec (Z.of_nat AL_EXTENTS_MAX) slot); [done|]. by rewrite list_lookup_insert_ne by lia.
Qed.

Definition context_write (t : al_transaction_on_disk) (i : nat) : option (Z * Z) :=
  let slot := t_context_start_slot_nr t + Z.of_nat i in
  let extent := nth i (t_context t) 0 in
  if (extent =? U32_MAX) && (t_context_size t <=? slot) then None else Some (slot, extent).

Definition update_write (t : al_transaction_on_disk) (i : nat) : option (Z * Z) :=
  let slot := nth i (t_update_slot_nr t) 0 in
  if (t_n_updates t <=? Z.of_nat i) && (slot =? U16_MAX) then None else Some (slot, nth i (t_update_extent_nr t) 0).

(** What a transaction writes, the context first. *)
Definition tr_writes (t : al_transaction_on_disk) : list (option (Z * Z)) :=
  map (context_write t) (seq 0 AL_CONTEXT_PER_TRANSACTION) ++ map (update_write t) (seq 0 AL_UPDATES_PER_TRANSACTION).

(** The value a transaction gives to a slot, if it mentions it. *)
Definition tr_effect (t : al_transaction_on_disk) (s : nat) : option Z := last_write (tr_writes t) (Z.of_nat s).

Lemma fold_writes (g : nat -> option (Z * Z)) (f : list Z -> nat -> list Z) l hot :
  (forall hot i, f hot i = match g i with Some (slot, x) => set_hot slot x hot | None => hot end) ->
  foldl f hot l = hot_writes (map g l) hot.
Proof. intros Hf. revert hot. induction l as [|i l IH]; intros hot; [done|]. cbn. by rewrite Hf, IH. Qed.

Lemma hot_writes_app a b hot : hot_writes (a ++ b) hot = hot_writes b (hot_writes a hot).
Proof. apply foldl_app. Qed.

Lemma replay_context_writes t hot : replay_context t hot = hot_writes (map (context_write t) (seq 0 AL_CONTEXT_PER_TRANSACTION)) hot.
Proof. unfold replay_context. apply (fold_writes (context_write t)). intros h i. unfold context_write. by destruct (_ && _). Qed.

Lemma replay_updates_writes t hot : replay_updates t hot = hot_writes (map (update_write t) (seq 0 AL_UPDATES_PER_TRANSACTION)) hot.
Proof. unfold replay_updates. apply (fold_writes (update_write t)). intros h i. unfold update_write. by destruct (_ && _). Qed.

Lemma replay_writes t hot : replay_updates t (replay_context t hot) = hot_writes (tr_writes t) hot.
Proof. unfold tr_writes. by rewrite hot_writes_app, replay_updates_writes, replay_context_writes. Qed.

(** Slot numbers are not negative. *)
Record slots_ok (t : al_transaction_on_disk) : Prop := mk_slots_ok {
  so_start : 0 <= t_context_start_slot_nr t;
  so_updates : forall i, 0 <= nth i (t_update_slot_nr t) 0 }.

Lemma tr_writes_ok t : slots_ok t -> Forall (fun o => forall slot x, o = Some (slot, x) -> 0 <= slot) (tr_writes t).
Proof.
  intros [H1 H2]. apply Forall_app. split; apply Forall_forall; intros o (i & -> & _)%list_elem_of_fmap slot x.
  - unfold context_write. case_match; [done|]. intros [= <- _]. lia.
  - unfold update_write. case_match; [done|]. intros [= <- _]. apply H2.
Qed.

(** ** A run of transactions *)

(** The newest transaction of [l] (newest first) that mentions slot [s] decides. *)
Fixpoint hot_of (l : list al_transaction_on_disk) (s : nat) : option Z :=
  match l with
  | [] => None
  | t :: l => match tr_effect t s with Some x => Some x | None => hot_of l s end
  end.

Lemma replay_run l hot s : Forall slots_ok l -> length hot = AL_EXTENTS_MAX -> (s < AL_EXTENTS_MAX)%nat ->
  foldr (fun t hot => replay_updates t (replay_context t hot)) hot l !! s =
  match hot_of l s with Some x => Some x | None => hot !! s end.
Proof.
  intros Hf Hl Hs. induction Hf as [|t l Ht _ IH]; [done|]. cbn [foldr hot_of]. rewrite replay_writes.
  rewrite hot_writes_lookup; [| by apply tr_writes_ok| |done].
  - unfold tr_effect. destruct (last_write _ _); [done|]. exact IH.
  - clear -Hl. induction l as [|t l IH]; [done|]. cbn. by rewrite replay_writes, length_hot_writes.
Qed.

(** ** The ring *)

Lemma s32_diff a b : - 2 ^ 31 <= a - b < 2 ^ 31 -> s32 (u32 a - u32 b) = a - b.
Proof.
  intros H. unfold s32, u32, wrap.
  replace (a mod 2 ^ 32 - b mod 2 ^ 32 + 2 ^ 31) with (a - b + 2 ^ 31 + (b / 2 ^ 32 - a / 2 ^ 32) * 2 ^ 32).
  - rewrite Z.mod_add by done. rewrite Z.mod_small by lia. lia.
  - pose proof (Z.div_mod a (2 ^ 32)). pose proof (Z.div_mod b (2 ^ 32)). lia.
Qed.

Section ring.
Context (stripes stripe_size : Z).
Let mx := stripes * stripe_size.
Context (Hstripes : 0 < stripes) (Hsize : 0 < stripe_size) (Hmx : mx < 2 ^ 31).

Lemma mx_pos : 0 < mx.
Proof. unfold mx. nia. Qed.

Lemma u32_mx : u32 mx = mx.
Proof. apply u32_id. pose proof mx_pos. lia. Qed.

Lemma stripe_block_eq t : 0 <= t < mx -> al_stripe_block stripes stripe_size t = t mod stripes * stripe_size + t / stripes /\
  0 <= al_stripe_block stripes stripe_size t < mx.
Proof.
  intros Ht. pose proof (Z.mod_pos_bound t stripes Hstripes). assert (0 <= t / stripes) by (apply Z.div_pos; lia). pose proof mx_pos.
  assert (t / stripes < stripe_size) by (apply Z.div_lt_upper_bound; [lia|fold mx; lia]).
  assert (t mod stripes * stripe_size + stripe_size <= mx) by (unfold mx; nia).
  assert (0 <= t mod stripes * stripe_size) by nia.
  unfold al_stripe_block. rewrite (u32_id (t mod stripes * stripe_size)), u32_id by lia. lia.
Qed.

Lemma stripe_block_inj t u : 0 <= t < mx -> 0 <= u < mx ->
  al_stripe_block stripes stripe_size t = al_stripe_block stripes stripe_size u -> t = u.
Proof.
  intros Ht Hu. destruct (stripe_block_eq t Ht) as [-> _], (stripe_block_eq u Hu) as [-> _]. intros E.
  pose proof (Z.mod_pos_bound t stripes Hstripes). pose proof (Z.mod_pos_bound u stripes Hstripes).
  assert (0 <= t / stripes < stripe_size) by (split; [apply Z.div_pos; lia|apply Z.div_lt_upper_bound; [lia|fold mx; lia]]).
  assert (0 <= u / stripes < stripe_size) by (split; [apply Z.div_pos; lia|apply Z.div_lt_upper_bound; [lia|fold mx; lia]]).
  assert (t mod stripes = u mod stripes /\ t / stripes = u / stripes) as [E1 E2] by (apply (Z.div_mod_unique stripe_size); [left; lia|left; lia|lia]).
  rewrite (Z.div_mod t stripes), (Z.div_mod u stripes), E1, E2 by lia. done.
Qed.

Definition blk (p : Z) : nat := Z.to_nat (al_stripe_block stripes stripe_size p).

Context (crc32c : al_transaction_on_disk -> Z).

(** The blocks of [img] hold the transactions [l] (newest first), the last of which has the number before [t1]; no other
    block has a transaction. *)
Record ring (img : list al_transaction_on_disk) (t1 : Z) (l : list al_transaction_on_disk) : Prop := mk_ring {
  r_len : Z.of_nat (length l) <= mx;
  r_at : forall k t, l !! k = Some t -> nth (blk ((t1 - 1 - Z.of_nat k) mod mx)) img no_tr = t;
  r_tr : forall k t, l !! k = Some t -> is_update crc32c t = true /\ t_tr_number t = u32 (t1 - 1 - Z.of_nat k) /\ slots_ok t;
  r_else : forall p, 0 <= p < mx -> Z.of_nat (length l) <= (t1 - 1 - p) mod mx -> is_update crc32c (nth (blk p) img no_tr) = false }.

Section scan.
Context (img : list al_transaction_on_disk) (t1 : Z) (l : list al_transaction_on_disk) (R : ring img t1 l).

Let m := Z.of_nat (length l).
Definition age (p : Z) : Z := (t1 - 1 - p) mod mx.
Let cpu := map (fun b => nth (Z.to_nat (al_tr_number_to_on_disk_slot stripes stripe_size (Z.of_nat b) (u32 mx))) img no_tr)
             (seq 0 (Z.to_nat (u32 mx))).

Lemma age_range p : 0 <= age p < mx.
Proof. apply Z.mod_pos_bound, mx_pos. Qed.

Lemma age_pos p : 0 <= p < mx -> (t1 - 1 - age p) mod mx = p.
Proof.
  intros Hp. unfold age. rewrite <- (Z.mod_small p mx) at 2 by done. rewrite Zminus_mod_idemp_r. f_equal. lia.
Qed.

Lemma age_at k : 0 <= k < mx -> age ((t1 - 1 - k) mod mx) = k.
Proof. intros Hk. unfold age. rewrite Zminus_mod_idemp_r, <- (Z.mod_small k mx) by done. f_equal. rewrite Z.mod_small by done. lia. Qed.

Lemma cpu_at p : 0 <= p < mx -> nth (Z.to_nat p) cpu no_tr = nth (blk p) img no_tr.
Proof.
  intros Hp. unfold cpu. rewrite u32_mx.
  rewrite (nth_indep _ _ (nth (Z.to_nat (al_tr_number_to_on_disk_slot stripes stripe_size (Z.of_nat 0) mx)) img no_tr))
    by (rewrite length_map, length_seq; lia).
  rewrite (map_nth (fun b => nth (Z.to_nat (al_tr_number_to_on_disk_slot stripes stripe_size (Z.of_nat b) mx)) img no_tr)).
  rewrite seq_nth by lia. unfold al_tr_number_to_on_disk_slot, blk. by rewrite Nat.add_0_l, Z2Nat.id, Z.mod_small by lia.
Qed.

(** A block is a transaction exactly if its age is below the length of the run. *)
Lemma cpu_young p : 0 <= p < mx -> age p < m -> exists t, l !! Z.to_nat (age p) = Some t /\ nth (Z.to_nat p) cpu no_tr = t /\
  is_update crc32c t = true /\ t_tr_number t = u32 (t1 - 1 - age p).
Proof.
  intros Hp Ha. pose proof (age_range p). destruct (lookup_lt_is_Some_2 l (Z.to_nat (age p))) as [t Ht]; [lia|].
  exists t. destruct (r_tr _ _ _ R _ _ Ht) as (U & N & _). pose proof (r_at _ _ _ R _ _ Ht) as A.
  rewrite Z2Nat.id in N, A by lia. rewrite age_pos in A by done. by rewrite cpu_at.
Qed.

Lemma cpu_old p : 0 <= p < mx -> m <= age p -> is_update crc32c (nth (Z.to_nat p) cpu no_tr) = false.
Proof. intros Hp Ha. rewrite cpu_at by done. by apply (r_else _ _ _ R). Qed.

(** The cursors after the first [B] blocks. *)
Definition scanned (B : Z) (s : al_scan) : Prop :=
  0 <= found_valid_updates s <= found_valid s /\
  (found_valid_updates s = 0 /\ (forall p, 0 <= p < B -> m <= age p) \/
   0 < found_valid_updates s /\ exists po pn, 0 <= po < B /\ 0 <= pn < B /\ age po < m /\ age pn < m /\
     oldest s = mk_cursor po (u32 (t1 - 1 - age po)) /\ newest s = mk_cursor pn (u32 (t1 - 1 - age pn)) /\
     forall p, 0 <= p < B -> age p < m -> age pn <= age p <= age po).

Lemma scan_step s b : Z.of_nat b < mx -> scanned (Z.of_nat b) s -> scanned (Z.of_nat (S b)) (scan_block crc32c cpu s b).
Proof.
  intros Hb [Hf Hs]. unfold scan_block.
  assert (nth b cpu no_tr = nth (Z.to_nat (Z.of_nat b)) cpu no_tr) as -> by (by rewrite Nat2Z.id). set (p := Z.of_nat b) in *.
  assert (forall x, x < Z.of_nat (S b) -> x < p \/ x = p) as Hsplit by lia.
  destruct (Z.ltb_spec (age p) m) as [Ha|Ha].
  - destruct (cpu_young p ltac:(lia) Ha) as (t & _ & -> & U & ->). unfold is_update in U.
    apply andb_true_iff in U as [-> ->%negb_true_iff]. cbn [negb]. destruct Hs as [[E Hs]|(Hp & po & pn & Ho & Hn & Ao & An & Eo & En & Hs)].
    + rewrite (proj2 (Z.eqb_eq _ 1)) by lia. split; cbn [found_valid found_valid_updates oldest newest]; [lia|]. right. split; [lia|]. exists p, p. split_and!; try lia; [done|done|].
      intros x Hx Ax. destruct (Hsplit x) as [Hlt| ->]; [lia| |lia]. specialize (Hs x). lia.
    + rewrite (proj2 (Z.eqb_neq _ _)) by lia. split; cbn [found_valid found_valid_updates oldest newest]; [lia|]. right. split; [lia|]. rewrite Eo, En. cbn [cur_tr].
      pose proof (age_range p). pose proof (age_range po). pose proof (age_range pn). rewrite !s32_diff by lia.
      exists (if age po <? age p then p else po), (if age p <? age pn then p else pn).
      destruct (Z.ltb_spec (age po) (age p)), (Z.ltb_spec (age p) (age pn)),
        (Z.ltb_spec (t1 - 1 - age p - (t1 - 1 - age po)) 0), (Z.ltb_spec 0 (t1 - 1 - age p - (t1 - 1 - age pn))); try lia;
      (split_and!; try lia; [done|done|]; intros x Hx Ax; destruct (Hsplit x) as [Hlt| ->]; try lia; specialize (Hs x); lia).
  - pose proof (cpu_old p ltac:(lia) Ha) as U. unfold is_update in U.
    assert (scanned (Z.of_nat (S b)) s /\ scanned (Z.of_nat (S b)) (mk_scan (found_valid s + 1) (found_valid_updates s) (oldest s) (newest s)))
      as [S1 S2].
    { split; (split; [cbn [found_valid found_valid_updates oldest newest]; lia|]); (destruct Hs as [[E Hs]|(Hp & po & pn & Ho & Hn & Ao & An & Eo & En & Hs)]; [left|right]).
      all: split; [done|].
      1,3: intros x Hx; destruct (Hsplit x) as [Hlt| ->]; [lia|apply Hs; lia|lia].
      all: exists po, pn; split_and!; try lia; [done|done|]; intros x Hx Ax; destruct (Hsplit x) as [Hlt| ->]; [lia|apply Hs; lia|lia]. }
    destruct (v84_al_disk_to_cpu _ _); cbn [negb]; [|done]. cbn in U. apply negb_false_iff in U. by rewrite U.
Qed.

Lemma scan_all s B : Z.of_nat B <= mx -> scanned 0 s -> scanned (Z.of_nat B) (foldl (scan_block crc32c cpu) s (seq 0 B)).
Proof.
  intros HB Hs. induction B as [|B IH]; [done|]. rewrite seq_S, foldl_app. cbn [foldl]. rewrite Nat.add_0_l.
  apply scan_step; [lia|]. apply IH. lia.
Qed.

Lemma foldl_ext_in {A C} (f g : A -> C -> A) a ls : (forall a x, x ∈ ls -> f a x = g a x) -> foldl f a ls = foldl g a ls.
Proof.
  revert a. induction ls as [|x ls IH]; intros a H; [done|]. cbn. rewrite H by (left). apply IH. intros b y Hy. apply H. by right.
Qed.

(** From the oldest block to the newest one the transactions are those of the run, the oldest first. *)
Lemma run_blocks po : 0 <= po < mx -> age po = m - 1 ->
  map (fun b => nth (b mod Z.to_nat mx) cpu no_tr) (seq (Z.to_nat po) (length l)) = reverse l.
Proof.
  intros Hp Ha. apply list_eq. intros j. pose proof mx_pos. destruct (decide (j < length l)%nat) as [Hj|Hj].
  2:{ rewrite !lookup_ge_None_2; [done|rewrite length_reverse; lia|rewrite length_map, length_seq; lia]. }
  rewrite list_lookup_fmap, lookup_seq_lt by done. cbn [fmap option_fmap option_map].
  pose proof (r_len _ _ _ R) as Hlen.
  assert (Z.of_nat ((Z.to_nat po + j) mod Z.to_nat mx) = (po + Z.of_nat j) mod mx) as E
    by (rewrite Nat2Z.inj_mod, Nat2Z.inj_add, !Z2Nat.id by lia; done).
  pose proof (Z.mod_pos_bound (po + Z.of_nat j) mx mx_pos) as Hr.
  assert (age ((po + Z.of_nat j) mod mx) = m - 1 - Z.of_nat j) as Ea.
  { rewrite <- (age_pos po Hp), Ha. rewrite Zplus_mod_idemp_l.
    replace (t1 - 1 - (m - 1) + Z.of_nat j) with (t1 - 1 - (m - 1 - Z.of_nat j)) by lia. apply age_at. lia. }
  destruct (cpu_young ((po + Z.of_nat j) mod mx) Hr ltac:(lia)) as (t & Ht & Hn & _).
  rewrite <- E, Nat2Z.id in Hn. rewrite Hn. symmetry. rewrite Ea in Ht. rewrite reverse_lookup by done.
  rewrite <- Ht. f_equal. lia.
Qed.

Lemma foldl_map {A C D} (f : A -> C -> A) (g : D -> C) a ls : foldl f a (map g ls) = foldl (fun a x => f a (g x)) a ls.
Proof. revert a. induction ls as [|x ls IH]; intros a; [done|]. apply IH. Qed.

Lemma foldl_reverse {A C} (f : A -> C -> A) a ls : foldl f a (reverse ls) = foldr (fun x a => f a x) a ls.
Proof. induction ls as [|x ls IH]; [done|]. rewrite reverse_cons, foldl_app, IH. done. Qed.

(** The replay of a run: every slot gets the value of the newest transaction that mentions it. *)
Lemma replay_ring hot s : length hot = AL_EXTENTS_MAX -> (s < AL_EXTENTS_MAX)%nat ->
  let r := replay_al_84 crc32c stripes stripe_size img hot in
  (l <> [] -> 0 < r.1) /\ r.2 !! s = match hot_of l s with Some x => Some x | None => hot !! s end.
Proof.
  intros Hh Hs. unfold replay_al_84. fold mx. fold cpu. cbv zeta. pose proof mx_pos. rewrite u32_mx.
  pose proof (scan_all (mk_scan 0 0 (mk_cursor 0 0) (mk_cursor 0 0)) (Z.to_nat mx) ltac:(lia)) as Hsc.
  match type of Hsc with _ -> scanned _ ?x => set (sc := x) in * end. rewrite Z2Nat.id in Hsc by lia.
  destruct Hsc as [Hf Hsc]. { split; [done|]. left. split; [done|]. lia. }
  pose proof (r_len _ _ _ R) as Hlen.
  assert (forall k, 0 <= k < m -> 0 <= (t1 - 1 - k) mod mx < mx) as Hpos by (intros; apply Z.mod_pos_bound; lia).
  destruct Hsc as [[E Ho]|(Hp & po & pn & Bo & Bn & Ao & An & Eo & En & Hb)].
  - assert (l = []) as Hl.
    { apply nil_length_inv. destruct (Z.ltb_spec 0 m) as [Hm|Hm]; [|unfold m in Hm; lia].
      specialize (Ho ((t1 - 1 - 0) mod mx) (Hpos 0 ltac:(lia))). rewrite age_at in Ho; lia. }
    assert (hot_of l s = None) as -> by (by rewrite Hl).
    split; [done|]. rewrite E, Z.eqb_refl. destruct (found_valid sc =? 0); [done|]. destruct (found_valid sc =? mx); [done|].
    by destruct (_ && _).
  - rewrite !(proj2 (Z.eqb_neq _ 0)) by lia. split; [done|]. cbn [snd]. rewrite Eo, En. cbn [cur_i].
    pose proof (age_range po) as Rpo.
    assert (age po = m - 1) as Epo.
    { specialize (Hb ((t1 - 1 - (m - 1)) mod mx) (Hpos (m - 1) ltac:(lia))). rewrite age_at in Hb; lia. }
    assert (age pn = 0) as Epn.
    { specialize (Hb ((t1 - 1 - 0) mod mx) (Hpos 0 ltac:(lia))). rewrite age_at in Hb; pose proof (age_range pn); lia. }
    assert ((if pn <? po then pn + mx else pn) - po + 1 = m) as Ecount.
    { pose proof (age_pos po Bo) as P1. pose proof (age_pos pn Bn) as P2. rewrite Epo in P1. rewrite Epn in P2.
      assert ((pn - po) mod mx = m - 1) as D.
      { rewrite <- P1, <- P2, <- Zminus_mod. etransitivity; [|apply (Z.mod_small (m - 1) mx); lia]. f_equal. lia. }
      destruct (Z.ltb_spec pn po).
      - rewrite <- (Z.mod_add _ 1) in D by lia. rewrite Z.mod_small in D by lia. lia.
      - rewrite Z.mod_small in D by lia. lia. }
    rewrite Ecount. unfold m. rewrite Nat2Z.id.
    rewrite <- replay_run; [|apply Forall_lookup_2; intros k t Ht; by destruct (r_tr _ _ _ R _ _ Ht) as (_ & _ & ?)|done|done].
    f_equal. rewrite <- foldl_reverse, <- (run_blocks po Bo Epo), foldl_map. apply foldl_ext_in. intros h b Hbin.
    apply elem_of_seq in Hbin. unfold replay_block.
    assert (is_update crc32c (nth (b mod Z.to_nat mx) cpu no_tr) = true) as U.
    { assert (nth (b mod Z.to_nat mx) cpu no_tr ∈ reverse l) as Hin.
      { rewrite <- (run_blocks po Bo Epo). apply list_elem_of_fmap. exists b. split; [done|]. by apply elem_of_seq. }
      rewrite elem_of_reverse in Hin. apply list_elem_of_lookup in Hin as (k & Hk). apply (r_tr _ _ _ R _ _ Hk). }
    unfold is_update in U. apply andb_true_iff in U as [-> U]. apply negb_true_iff in U. by rewrite U.
Qed.

End scan.
End ring.

End AlReplayOk.
