(* ===== verification/AlCrash.v ===== *)
(** * Crashes (src/bsr/bsr_actlog.c, src/bsr-utils/user/shared/bsrmeta.c)

    The activity log as a step relation: threads take and put references,
    one of them at a time writes a transaction.  Whenever the node crashes, the
    replay of the ring finds every extent of the cache. *)

From S2P Require Import Prelude LruCache CalmCache ActLog AlReplay AlReplayOk.

Module AlCrash.
Import LruCache CalmCache ActLog AlReplay AlReplayOk.

(** ** What a transaction says *)

Lemma last_write_app a b s : last_write (a ++ b) s = match last_write b s with Some x => Some x | None => last_write a s end.
Proof.
  induction b as [|o b IH] using rev_ind; [by rewrite app_nil_r|]. rewrite app_assoc, !last_write_snoc, IH.
  destruct o as [[slot x]|]; [|done]. cbn. by destruct (slot =? s).
Qed.

Lemma last_write_none n s : last_write (repeat None n) s = None.
Proof.
  induction n as [|n IH]; [done|]. change (repeat None (S n)) with ([None] ++ repeat (@None (Z * Z)) n). by rewrite last_write_app, IH.
Qed.

Lemma last_write_context st (g : nat -> option (Z * Z)) n s :
  (forall i, (i < n)%nat -> g i = None \/ exists x, g i = Some (st + Z.of_nat i, x)) ->
  last_write (map g (seq 0 n)) s =
    if (st <=? s) && (s <? st + Z.of_nat n) then snd <$> g (Z.to_nat (s - st)) else None.
Proof.
  induction n as [|n IH]; intros Hg.
  - destruct (Z.leb_spec st s), (Z.ltb_spec s (st + Z.of_nat 0)); done || lia.
  - rewrite seq_S, map_app. cbn [map Nat.add]. rewrite last_write_snoc, IH by (intros i Hi; apply Hg; lia).
    destruct (Z.eqb_spec s (st + Z.of_nat n)) as [->|Hne].
    + rewrite (proj2 (Z.leb_le _ _)), (proj2 (Z.ltb_ge _ _)), (proj2 (Z.ltb_lt _ _)) by lia. cbn [andb].
      replace (Z.to_nat (st + Z.of_nat n - st)) with n by lia.
      destruct (Hg n ltac:(lia)) as [->|[x ->]]; [done|]. cbn. by rewrite Z.eqb_refl.
    + assert (pick s (if (st <=? s) && (s <? st + Z.of_nat n) then snd <$> g (Z.to_nat (s - st)) else None) (g n) =
              if (st <=? s) && (s <? st + Z.of_nat n) then snd <$> g (Z.to_nat (s - st)) else None) as ->.
      { destruct (Hg n ltac:(lia)) as [->|[x ->]]; [done|]. cbn [pick]. by rewrite (proj2 (Z.eqb_neq _ _)) by lia. }
      destruct (Z.leb_spec st s), (Z.ltb_spec s (st + Z.of_nat n)), (Z.ltb_spec s (st + Z.of_nat (S n))); done || lia.
Qed.

Lemma last_write_some (f : nat -> Z) cs s :
  last_write (map (fun c => Some (Z.of_nat c, f c)) cs) (Z.of_nat s) = if decide (s ∈ cs) then Some (f s) else None.
Proof.
  induction cs as [|c cs IH] using rev_ind; [done|]. rewrite map_app. cbn [map]. rewrite last_write_snoc, IH. cbn [pick].
  destruct (Z.eqb_spec (Z.of_nat c) (Z.of_nat s)) as [E|E].
  - apply Nat2Z.inj in E as ->. rewrite decide_True by (apply elem_of_app; right; by left). done.
  - assert (c <> s) by congruence. destruct (decide (s ∈ cs)) as [Hin|Hin].
    + by rewrite decide_True by (apply elem_of_app; by left).
    + rewrite decide_False; [done|]. intros [?|?%list_elem_of_singleton]%elem_of_app; [done|congruence].
Qed.

Lemma lookup_repeat {A} (x : A) n i : (i < n)%nat -> repeat x n !! i = Some x.
Proof. revert i. induction n as [|n IH]; intros [|i] Hi; [lia|lia|done|]. apply IH. lia. Qed.

Lemma nth_nonneg l i : Forall (fun x => 0 <= x) l -> 0 <= nth i l 0.
Proof. revert i. induction l as [|x l IH]; intros [|i] H; try done; inversion_clear H; [done|]. by apply IH. Qed.

Lemma nth_pad n x l i : (i < n)%nat -> (length l <= n)%nat -> nth i (pad n x l) 0 = nth i l x.
Proof.
  intros Hi Hl. unfold pad. destruct (decide (i < length l)%nat).
  - rewrite app_nth1 by done. apply nth_indep. done.
  - rewrite app_nth2, nth_repeat_lt by lia. by rewrite nth_overflow by lia.
Qed.

Lemma s32_small x : - 2 ^ 31 <= x < 2 ^ 31 -> s32 x = x.
Proof. intros H. unfold s32, wrap. rewrite Z.mod_small; lia. Qed.

Section buffer.
Context (crc32c : al_transaction_on_disk -> Z) (d : al_device) (mx : nat).
Let al := act_log d.
Let c := al_tr_cycle d.
Let nr := Z.of_nat (nr_elements al).
Context (Hinv : inv al) (Hlen : (length (to_be_changed al) <= AL_UPDATES_PER_TRANSACTION)%nat)
  (Hnr : nr <= 65534) (Hc : 0 <= c <= 65534)
  (Hmx : mx = Z.to_nat (Z.min (Z.of_nat AL_CONTEXT_PER_TRANSACTION) (s32 (nr - c)))).
Let buf := al_buffer crc32c d mx.

Lemma mx_eq : Z.of_nat mx = Z.max 0 (Z.min 919 (nr - c)).
Proof. rewrite Hmx, context_size_eq, s32_small by lia. lia. Qed.

Lemma changing i : i ∈ to_be_changed al -> (i < nr_elements al)%nat.
Proof. intros Hi. apply (ls_all _ (iv_lists _ Hinv)). by exists L_to_be_changed. Qed.

Lemma buffer_updates : map (update_write buf) (seq 0 AL_UPDATES_PER_TRANSACTION) =
  map (fun i => Some (Z.of_nat i, lc_new_number (elem al i))) (to_be_changed al) ++
  repeat None (AL_UPDATES_PER_TRANSACTION - length (to_be_changed al)).
Proof.
  apply list_eq. intros j. destruct (decide (j < AL_UPDATES_PER_TRANSACTION)%nat) as [Hj|Hj].
  2:{ rewrite !lookup_ge_None_2; [done| |rewrite length_map, length_seq; lia].
      rewrite length_app, length_map, repeat_length. lia. }
  rewrite list_lookup_fmap, lookup_seq_lt by done. cbn [fmap option_fmap option_map Nat.add]. unfold update_write.
  change (t_update_slot_nr buf) with (pad AL_UPDATES_PER_TRANSACTION U16_MAX (map (fun i => u16 (Z.of_nat i)) (to_be_changed al))).
  change (t_update_extent_nr buf) with (pad AL_UPDATES_PER_TRANSACTION LC_FREE (map (fun i => lc_new_number (elem al i)) (to_be_changed al))).
  change (t_n_updates buf) with (u16 (Z.of_nat (length (to_be_changed al)))).
  rewrite !nth_pad by (rewrite ?length_map; done). pose proof updates_size_eq.
  assert (u16 (Z.of_nat (length (to_be_changed al))) = Z.of_nat (length (to_be_changed al))) as -> by (apply wrap_id; split; lia).
  destruct (to_be_changed al !! j) as [i|] eqn:Ei.
  - pose proof (lookup_lt_Some _ _ _ Ei). rewrite lookup_app_l by (rewrite length_map; lia). rewrite list_lookup_fmap, Ei. cbn [fmap option_fmap option_map].
    rewrite (proj2 (Z.leb_gt _ _)) by lia. cbn [andb]. do 3 f_equal.
    + rewrite (nth_lookup_Some _ _ _ (u16 (Z.of_nat i))); [|by rewrite list_lookup_fmap, Ei]. apply wrap_id.
      pose proof (changing i (list_elem_of_lookup_2 _ _ _ Ei)). unfold nr in Hnr. unfold in_u. lia.
    + by rewrite (nth_lookup_Some _ _ _ (lc_new_number (elem al i))); [|rewrite list_lookup_fmap, Ei].
  - apply lookup_ge_None in Ei. rewrite lookup_app_r by (rewrite length_map; lia). rewrite length_map.
    rewrite !(nth_overflow (map _ _)) by (rewrite length_map; lia). rewrite (proj2 (Z.leb_le _ _)) by lia. cbn [andb].
    rewrite Z.eqb_refl. symmetry. apply lookup_repeat. lia.
Qed.

Lemma buffer_context i : (i < AL_CONTEXT_PER_TRANSACTION)%nat ->
  context_write buf i = if (i <? mx)%nat then Some (c + Z.of_nat i, lc_number (elem al (Z.to_nat c + i))) else None.
Proof.
  intros Hi. unfold context_write. pose proof mx_eq as Em. pose proof context_size_eq.
  assert (t_context_start_slot_nr buf = c) as ->. { change (t_context_start_slot_nr buf) with (u16 c). apply wrap_id. unfold in_u. lia. }
  assert (t_context_size buf = nr) as ->. { change (t_context_size buf) with (u16 nr). apply wrap_id. unfold in_u, nr in *. lia. }
  change (t_context buf) with (pad AL_CONTEXT_PER_TRANSACTION LC_FREE (map (fun k => lc_number (elem al (Z.to_nat c + k))) (seq 0 mx))).
  rewrite nth_pad by (rewrite ?length_map, ?length_seq; lia). destruct (Nat.ltb_spec i mx) as [Hlt|Hge].
  - rewrite (nth_lookup_Some _ _ _ (lc_number (elem al (Z.to_nat c + i)))) by (rewrite list_lookup_fmap, lookup_seq_lt by done; done).
    rewrite (proj2 (Z.leb_gt nr _)) by lia. by rewrite andb_false_r.
  - rewrite nth_overflow by (rewrite length_map, length_seq; lia). change LC_FREE with U32_MAX. rewrite Z.eqb_refl.
    by rewrite (proj2 (Z.leb_le nr _)) by lia.
Qed.

(** The block gives a changing slot its new label, the slots of the window their labels, and says nothing of the others. *)
Lemma buffer_effect s : (s < nr_elements al)%nat -> tr_effect buf s =
  if decide (s ∈ to_be_changed al) then Some (lc_new_number (elem al s))
  else if (c <=? Z.of_nat s) && (Z.of_nat s <? c + 919) then Some (lc_number (elem al s)) else None.
Proof.
  intros Hs. unfold tr_effect, tr_writes. rewrite last_write_app, buffer_updates, last_write_app, last_write_none, last_write_some.
  destruct (decide _); [done|]. rewrite (last_write_context c).
  2:{ intros i Hi. rewrite buffer_context by done. destruct (i <? mx)%nat; [right; by eexists|by left]. }
  pose proof mx_eq as Em. rewrite context_size_eq. unfold nr in *.
  destruct (Z.leb_spec c (Z.of_nat s)), (Z.ltb_spec (Z.of_nat s) (c + 919)); try done. cbn [andb].
  pose proof context_size_eq. rewrite buffer_context by lia. rewrite (proj2 (Nat.ltb_lt _ _)) by lia. cbn. do 3 f_equal. lia.
Qed.

Lemma buffer_slots_ok : slots_ok buf.
Proof.
  split.
  - change (t_context_start_slot_nr buf) with (u16 c). apply Z.mod_pos_bound. done.
  - intros i. change (t_update_slot_nr buf) with (pad AL_UPDATES_PER_TRANSACTION U16_MAX (map (fun i => u16 (Z.of_nat i)) (to_be_changed al))).
    apply nth_nonneg. unfold pad. apply Forall_app. split.
    + apply Forall_forall. intros x (y & -> & _)%list_elem_of_fmap. apply Z.mod_pos_bound. done.
    + apply Forall_forall. intros x Hx. apply list_elem_of_In, repeat_spec in Hx as ->. done.
Qed.

Lemma buffer_update : is_update crc32c buf = true /\ t_tr_number buf = al_tr_number d.
Proof.
  split; [|done]. unfold is_update, v84_al_disk_to_cpu. unfold buf, al_buffer. cbv zeta. cbn [t_magic set_crc t_crc32c t_type].
  by rewrite !Z.eqb_refl.
Qed.
End buffer.

(** ** The ring moves on *)

Section ring.
Context (stripes stripe_size : Z).
Let mx := stripes * stripe_size.
Context (Hstripes : 0 < stripes) (Hsize : 0 < stripe_size) (Hmx : mx < 2 ^ 31).
Context (crc32c : al_transaction_on_disk -> Z).
Context (img : list al_transaction_on_disk) (T : Z) (l : list al_transaction_on_disk).
Context (Himg : Z.of_nat (length img) = mx) (R : ring stripes stripe_size crc32c img T l).
Abbreviation blk := (blk stripes stripe_size).

Lemma ring_pos_bound x : 0 <= x mod mx < mx.
Proof. apply Z.mod_pos_bound. unfold mx. nia. Qed.

Lemma nth_here b : nth (blk (T mod mx)) (<[blk (T mod mx) := b]> img) no_tr = b.
Proof.
  apply nth_lookup_Some, list_lookup_insert_eq. unfold AlReplayOk.blk. pose proof (ring_pos_bound T) as H.
  destruct (stripe_block_eq stripes stripe_size Hstripes Hsize Hmx _ H) as [_ B]. fold mx in B. lia.
Qed.

Lemma nth_there b p : 0 <= p < mx -> p <> T mod mx -> nth (blk p) (<[blk (T mod mx) := b]> img) no_tr = nth (blk p) img no_tr.
Proof.
  intros Hp Hne. rewrite !nth_lookup, list_lookup_insert_ne; [done|]. unfold AlReplayOk.blk. intros E.
  pose proof (ring_pos_bound T) as H. apply Hne. symmetry.
  apply (stripe_block_inj stripes stripe_size Hstripes Hsize Hmx); [done|done|].
  destruct (stripe_block_eq stripes stripe_size Hstripes Hsize Hmx _ H) as [_ B1].
  destruct (stripe_block_eq stripes stripe_size Hstripes Hsize Hmx _ Hp) as [_ B2]. lia.
Qed.

(** A block [k] transactions back is not the one that is written next. *)
Lemma older_block k : 0 <= k < mx - 1 -> (T - 1 - k) mod mx <> T mod mx.
Proof.
  intros Hk E. pose proof (ring_pos_bound 0).
  assert ((T - (T - 1 - k)) mod mx = 0) as D by (rewrite Zminus_mod, E, Z.sub_diag; apply Zmod_0_l).
  replace (T - (T - 1 - k)) with (k + 1) in D by lia. rewrite Z.mod_small in D; lia.
Qed.

Lemma age_before p : 0 <= p < mx -> p <> T mod mx -> (T - 1 - p) mod mx = (T - p) mod mx - 1.
Proof.
  intros Hp Hne. pose proof (ring_pos_bound (T - p)) as H.
  assert ((T - p) mod mx <> 0) as H0.
  { intros E. apply Hne. rewrite <- (Z.mod_small p mx) by done.
    replace (T mod mx) with ((T - p + p) mod mx) by (f_equal; lia). rewrite Zplus_mod, E, Z.add_0_l, Zmod_mod. done. }
  replace (T - 1 - p) with (T - p - 1) by lia. rewrite <- Zminus_mod_idemp_l. apply Z.mod_small. lia.
Qed.

Lemma ring_write b : is_update crc32c b = true -> t_tr_number b = u32 T -> slots_ok b ->
  ring stripes stripe_size crc32c (<[blk (T mod mx) := b]> img) (T + 1) (b :: take (Z.to_nat mx - 1) l).
Proof.
  intros U N Sl. pose proof (ring_pos_bound 0). split.
  - cbn [length]. rewrite length_take. fold mx. lia.
  - fold mx. intros [|k] t; cbn [lookup list_lookup].
    + intros [= <-]. replace (T + 1 - 1 - Z.of_nat 0) with T by lia. apply nth_here.
    + intros (Ht & Hk)%lookup_take_Some. replace (T + 1 - 1 - Z.of_nat (S k)) with (T - 1 - Z.of_nat k) by lia.
      rewrite nth_there; [by apply (r_at _ _ _ _ _ _ R)|apply ring_pos_bound|apply older_block; lia].
  - intros [|k] t; cbn [lookup list_lookup].
    + intros [= <-]. replace (T + 1 - 1 - Z.of_nat 0) with T by lia. done.
    + intros (Ht & Hk)%lookup_take_Some. replace (T + 1 - 1 - Z.of_nat (S k)) with (T - 1 - Z.of_nat k) by lia.
      by apply (r_tr _ _ _ _ _ _ R).
  - fold mx. intros p Hp. cbn [length]. rewrite length_take. replace (T + 1 - 1 - p) with (T - p) by lia. intros Ha.
    pose proof (ring_pos_bound (T - p)). pose proof (r_len _ _ _ _ _ _ R) as Hl. fold mx in Hl.
    assert (p <> T mod mx) as Hne.
    { intros ->. rewrite Zminus_mod_idemp_r, Z.sub_diag, Zmod_0_l in Ha. lia. }
    rewrite nth_there by done. apply (r_else _ _ _ _ _ _ R p Hp). fold mx. rewrite age_before by done. lia.
Qed.

Lemma ring_torn b : is_update crc32c b = false ->
  ring stripes stripe_size crc32c (<[blk (T mod mx) := b]> img) T (take (Z.to_nat mx - 1) l).
Proof.
  intros U. pose proof (ring_pos_bound 0). split.
  - rewrite length_take. fold mx. lia.
  - fold mx. intros k t (Ht & Hk)%lookup_take_Some.
    rewrite nth_there; [by apply (r_at _ _ _ _ _ _ R)|apply ring_pos_bound|apply older_block; lia].
  - intros k t (Ht & Hk)%lookup_take_Some. by apply (r_tr _ _ _ _ _ _ R).
  - fold mx. intros p Hp. rewrite length_take. intros Ha. destruct (decide (p = T mod mx)) as [->|Hne]; [by rewrite nth_here|].
    rewrite nth_there by done. apply (r_else _ _ _ _ _ _ R p Hp). fold mx. pose proof (ring_pos_bound (T - 1 - p)).
    pose proof (ring_pos_bound (T - p)). rewrite age_before in * by done. lia.
Qed.
End ring.

(** ** How long ago a slot was written

    The windows of the context go round; after [rounds nr] transactions all slots have been in one. *)

Definition rounds (nr : Z) : Z := (nr + 918) / 919.
(** The transactions until slot [i] is in the window again, the next one starting at [c]. *)
Definition due (nr i c : Z) : Z :=
  if c / 919 <=? i / 919 then i / 919 - c / 919 + 1 else rounds nr - c / 919 + i / 919 + 1.

Definition next_cycle (nr c : Z) : Z := if nr <=? c + 919 then 0 else c + 919.

Section due.
Context (nr i c : Z) (Hi : 0 <= i < nr) (Hc : 0 <= c < nr) (Hq : 919 * (c / 919) = c).

Lemma rounds_bounds : 919 * (rounds nr - 1) < nr <= 919 * rounds nr.
Proof. unfold rounds. pose proof (Z.div_mod (nr + 918) 919). pose proof (Z.mod_pos_bound (nr + 918) 919). lia. Qed.

Lemma slot_window : 919 * (i / 919) <= i < 919 * (i / 919) + 919.
Proof. pose proof (Z.div_mod i 919). pose proof (Z.mod_pos_bound i 919). lia. Qed.

Lemma next_cycle_div : next_cycle nr c / 919 = (if nr <=? c + 919 then 0 else c / 919 + 1).
Proof.
  unfold next_cycle. destruct (Z.leb_spec nr (c + 919)); [done|]. replace (c + 919) with (c + 1 * 919) by lia. by rewrite Z.div_add by lia.
Qed.

Lemma due_start : due nr i 0 <= rounds nr.
Proof.
  pose proof rounds_bounds. pose proof slot_window. unfold due. change (0 / 919) with 0.
  destruct (Z.leb_spec 0 (i / 919)); lia.
Qed.

Lemma due_next : due nr i (next_cycle nr c) <= rounds nr.
Proof.
  pose proof rounds_bounds. pose proof slot_window. unfold due. rewrite next_cycle_div.
  destruct (Z.leb_spec nr (c + 919)).
  - destruct (Z.leb_spec 0 (i / 919)); lia.
  - destruct (Z.leb_spec (c / 919 + 1) (i / 919)); lia.
Qed.

Lemma due_later : ~ (c <= i < c + 919) -> due nr i (next_cycle nr c) = due nr i c - 1.
Proof.
  intros Hw. pose proof rounds_bounds. pose proof slot_window. unfold due. rewrite next_cycle_div.
  destruct (Z.leb_spec nr (c + 919)).
  - destruct (Z.leb_spec 0 (i / 919)), (Z.leb_spec (c / 919) (i / 919)); lia.
  - destruct (Z.leb_spec (c / 919 + 1) (i / 919)), (Z.leb_spec (c / 919) (i / 919)); lia.
Qed.
End due.

(** One block of the ring may be torn. *)
Lemma extents_max_rounds mx nr : 8 <= mx <= 4194304 -> 0 < nr <= bsr_al_extents_max mx -> nr <= 65534 /\ rounds nr <= mx - 1.
Proof.
  intros Hmx Hnr. unfold bsr_al_extents_max, BSR_AL_EXTENTS_MAX in Hnr. rewrite context_size_eq in Hnr.
  change ((65534 + 919 - 1) / 919) with 72 in Hnr. pose proof (rounds_bounds nr).
  destruct (Z.ltb_spec 72 mx); [lia|]. rewrite u32_id in Hnr by lia. lia.
Qed.

Lemma hot_of_more l i v n n' : hot_of (take n l) i = Some v -> (n <= n')%nat -> hot_of (take n' l) i = Some v.
Proof.
  revert n n'. induction l as [|t l IH]; intros [|n] n' H Hn; [done|done|done|]. destruct n' as [|n']; [lia|].
  cbn [take hot_of] in *. destruct (tr_effect t i); [exact H|]. apply (IH n); [exact H|lia].
Qed.

(** A transaction not too long ago says that slot [i] has label [v]. *)
Definition covered (nr c : Z) (hist : list al_transaction_on_disk) (i : nat) (v : Z) : Prop :=
  c < nr /\ exists n, hot_of (take n hist) i = Some v /\ Z.of_nat n + due nr (Z.of_nat i) c <= rounds nr + 1.

Lemma covered_bound nr c hist i v : 0 <= c -> 919 * (c / 919) = c -> 0 <= Z.of_nat i < nr -> covered nr c hist i v ->
  hot_of (take (Z.to_nat (rounds nr)) hist) i = Some v.
Proof.
  intros H0 Hq Hi (Hc & n & Hn & Hd). apply (hot_of_more _ _ _ n); [done|].
  pose proof (rounds_bounds nr). pose proof (slot_window (Z.of_nat i)).
  unfold due in Hd. destruct (Z.leb_spec (c / 919) (Z.of_nat i / 919)); lia.
Qed.

(** ** The cache keeps its labels *)

Lemma get_flags mon lc enr mc mu r lc' : __lc_get mon lc enr mc mu = Some (r, lc') ->
  LC_LOCKED (flags lc') = LC_LOCKED (flags lc) /\ max_pending_changes lc' = max_pending_changes lc.
Proof. intros E. apply (get_limits _ _ _ _ _ _ _ E). Qed.

Lemma put_flags lc i r lc' : lc_put lc i = Some (r, lc') ->
  LC_LOCKED (flags lc') = LC_LOCKED (flags lc) /\ max_pending_changes lc' = max_pending_changes lc.
Proof. intros E. apply (put_limits _ _ _ _ E). Qed.

(** Who holds the lock of the cache: nobody, a thread before its write, or one after it. *)
Inductive phase := Idle | Locked | Written.

(** The label of a slot on the disk. *)
Definition label (ph : phase) (e : lc_element) : Z := match ph with Written => lc_new_number e | _ => lc_number e end.

(** No reference count overflows with [k] more references. *)
Definition room (k : Z) (al : lru_cache) : Prop := forall i e, elements al !! i = Some e -> refcnt e < 2 ^ 32 - k.

(** The cache afterwards: labels are kept or gone. *)
Record kept (ph : phase) (al al' : lru_cache) : Prop := mk_kept {
  kp_inv : inv al';
  kp_idle : idle al';
  kp_size : nr_elements al' = nr_elements al;
  kp_max : max_pending_changes al' = max_pending_changes al;
  kp_lock : LC_LOCKED (flags al) = true -> LC_LOCKED (flags al') = true;
  kp_label : forall i e', elements al' !! i = Some e' -> exists e, elements al !! i = Some e /\
    (label ph e' = label ph e \/ label ph e' = LC_FREE) }.

Lemma kept_refl ph al : inv al -> idle al -> kept ph al al.
Proof. intros H1 H2. split; try done. intros i e He. exists e. auto. Qed.

Lemma kept_trans ph al1 al2 al3 : kept ph al1 al2 -> kept ph al2 al3 -> kept ph al1 al3.
Proof.
  intros [] []. split; try done; try congruence; [auto|]. intros i e3 H3. destruct (kp_label1 i e3 H3) as (e2 & H2 & L2).
  destruct (kp_label0 i e2 H2) as (e1 & H1 & L1). exists e1. split; [done|]. destruct L2 as [-> | ->]; auto.
Qed.

(** An element is replaced by one with the same labels. *)
Lemma kept_insert ph al al' i e e' : inv al' -> idle al' -> max_pending_changes al' = max_pending_changes al ->
  (LC_LOCKED (flags al) = true -> LC_LOCKED (flags al') = true) ->
  elements al !! i = Some e -> elements al' = <[i := e']> (elements al) ->
  (label ph e' = label ph e \/ label ph e' = LC_FREE) -> kept ph al al'.
Proof.
  intros Hi Hid Hm Hl He E L. split; try done.
  - unfold nr_elements. by rewrite E, length_insert.
  - intros j x. rewrite E. destruct (decide (j = i)) as [->|Hne].
    + rewrite list_lookup_insert_eq by (by eapply lookup_lt_Some). intros [= <-]. by exists e.
    + rewrite list_lookup_insert_ne by done. intros Hx. exists x. auto.
Qed.

Lemma kept_get ph mon al enr mc mu r al' k : inv al -> idle al -> (ph <> Idle -> LC_LOCKED (flags al) = true) ->
  enr <> LC_FREE -> room (k + 1) al -> 0 <= k -> __lc_get mon al enr mc mu = Some (r, al') -> kept ph al al' /\ room k al'.
Proof.
  intros Hinv Hid Hl Hf Hr Hk H. destruct (get_flags _ _ _ _ _ _ _ H) as [F1 F2].
  destruct (lc_get_cases mon al enr mc mu Hinv Hid) as (r' & lc' & E & I1 & I2 & G); [|done|].
  { intros i e He. specialize (Hr i e He). lia. }
  rewrite H in E. injection E as <- <-.
  assert (forall i e e', elements al !! i = Some e -> refcnt e' <= refcnt e + 1 -> elements al' = <[i := e']> (elements al) -> room k al') as Hroom.
  { intros i e e' He Hrc E j x. rewrite E. destruct (decide (j = i)) as [->|Hne].
    - rewrite list_lookup_insert_eq by (by eapply lookup_lt_Some). intros [= <-]. specialize (Hr i e He). lia.
    - rewrite list_lookup_insert_ne by done. intros Hx. specialize (Hr j x Hx). lia. }
  destruct r as [i|].
  - destruct G as (_ & e & He & [(N & N' & _ & E)|[(_ & N & N' & E)|(_ & _ & _ & R0 & L & _ & _ & _ & E)]]).
    + split; [|eapply (Hroom i e); [exact He| |exact E]; cbn [refcnt]; lia]. apply (kept_insert ph al al' i e _ I1 I2 F2 ltac:(by rewrite F1) He E).
      left. destruct ph; cbn; congruence.
    + split; [|eapply (Hroom i e); [exact He| |exact E]; cbn [refcnt]; lia]. apply (kept_insert ph al al' i e _ I1 I2 F2 ltac:(by rewrite F1) He E).
      left. destruct ph; cbn; congruence.
    + split; [|eapply (Hroom i e); [exact He| |exact E]; cbn [refcnt]; lia]. apply (kept_insert ph al al' i e _ I1 I2 F2 ltac:(by rewrite F1) He E).
      left. destruct ph; [done| |]; rewrite Hl in L by done; done.
  - destruct G as [[E _] _]. split.
    + split; try done; [unfold nr_elements; by rewrite E|by rewrite F1|]. intros j x. rewrite E. intros Hx. exists x. auto.
    + intros j x. rewrite E. intros Hx. specialize (Hr j x Hx). lia.
Qed.

Lemma kept_put ph al i r al' k : inv al -> idle al -> lc_put al i = Some (r, al') -> room k al -> kept ph al al' /\ room k al'.
Proof.
  intros Hinv Hid H Hr. destruct (put_flags _ _ _ _ H) as [F1 F2].
  assert (exists e, elements al !! i = Some e /\ refcnt e <> 0 /\ lc_number e = lc_new_number e) as (e & He & R0 & N).
  { unfold lc_put in H. rewrite paranoia_entry in H by done. cbn [mbind option_bind] in H.
    change (elements (set_paranoia al true)) with (elements al) in H. destruct (elements al !! i) as [e|] eqn:He; [|done].
    cbn [mbind option_bind] in H. exists e. destruct (Z.eqb_spec (refcnt e) 0); [done|]. cbn [orb] in H.
    destruct (Z.eqb_spec (lc_number e) (lc_new_number e)); done. }
  destruct (elem_state al i e Hinv He) as (w & _ & Hs & _).
  destruct (lc_put_cases al i e Hinv Hid He) as (lc' & E & I1 & I2 & [G _]); [lia|done|].
  rewrite H in E. injection E as -> ->. split.
  - apply (kept_insert ph al lc' i e _ I1 I2 F2 ltac:(by rewrite F1) He G). left. by destruct ph.
  - intros j x. rewrite G. destruct (decide (j = i)) as [->|Hne].
    + rewrite list_lookup_insert_eq by (by eapply lookup_lt_Some). intros [= <-]. specialize (Hr i e He). cbn. lia.
    + rewrite list_lookup_insert_ne by done. apply Hr.
Qed.

(** ** The invariant *)

(** A log area that [check_activity_log_stripe_size] accepts (without an overflow). *)
Record geometry (d : al_device) : Prop := mk_geometry {
  ge_stripes : 0 < al_stripes d;
  ge_stripe_size : 0 < al_stripe_size_4k d;
  ge_product : al_size_4k d = al_stripes d * al_stripe_size_4k d;
  ge_range : 8 <= al_size_4k d <= 4194304 }.

Definition size (d : al_device) : Z := Z.of_nat (nr_elements (act_log d)).

(** What the threads that do not write leave alone. *)
Record same_disk (d d' : al_device) : Prop := mk_same_disk {
  sd_number : al_tr_number d' = al_tr_number d;
  sd_cycle : al_tr_cycle d' = al_tr_cycle d;
  sd_stripes : al_stripes d' = al_stripes d;
  sd_stripe_size : al_stripe_size_4k d' = al_stripe_size_4k d;
  sd_size : al_size_4k d' = al_size_4k d;
  sd_start : al_start d' = al_start d;
  sd_updates : al_updates d' = al_updates d;
  sd_disk : al_disk d' = al_disk d }.

Lemma same_disk_refl d : same_disk d d.
Proof. by split. Qed.
Lemma same_disk_trans d1 d2 d3 : same_disk d1 d2 -> same_disk d2 d3 -> same_disk d1 d3.
Proof. intros [] []. split; congruence. Qed.

Section run.
Context (crc32c : al_transaction_on_disk -> Z).

(** [T] counts the transactions without wrapping around, [hist] are those since the start, newest first. *)
Record al_ok (ph : phase) (d : al_device) (T : Z) (hist : list al_transaction_on_disk) : Prop := mk_al_ok {
  ok_geo : geometry d;
  ok_updates : al_updates d = true;
  ok_inv : inv (act_log d);
  ok_idle : idle (act_log d);
  ok_max : max_pending_changes (act_log d) = Z.of_nat AL_UPDATES_PER_TRANSACTION;
  ok_size : size d <= bsr_al_extents_max (al_size_4k d);
  ok_lock : ph <> Idle -> LC_LOCKED (flags (act_log d)) = true;
  ok_cycle : 0 <= al_tr_cycle d <= 65534 /\ 919 * (al_tr_cycle d / 919) = al_tr_cycle d;
  ok_number : al_tr_number d = u32 T /\ al_tr_number d mod al_size_4k d = T mod al_size_4k d;
  ok_disk : Z.of_nat (length (al_disk d)) = al_size_4k d;
  ok_ring : ring (al_stripes d) (al_stripe_size_4k d) crc32c (al_disk d) T (take (Z.to_nat (al_size_4k d)) hist);
  ok_cover : forall i e, elements (act_log d) !! i = Some e -> label ph e <> LC_FREE ->
    covered (size d) (al_tr_cycle d) hist i (label ph e) }.

Lemma ok_kept ph d d' T hist : al_ok ph d T hist -> same_disk d d' -> kept ph (act_log d) (act_log d') -> al_ok ph d' T hist.
Proof.
  intros [] [] []. assert (size d' = size d) as Es by (unfold size; by rewrite kp_size0).
  split; rewrite ?Es, ?sd_number0, ?sd_cycle0, ?sd_stripes0, ?sd_stripe_size0, ?sd_size0, ?sd_updates0, ?sd_disk0, ?kp_max0; try done.
  - destruct ok_geo0. split; by rewrite ?sd_stripes0, ?sd_stripe_size0, ?sd_size0.
  - auto.
  - intros i e' He' Hl. destruct (kp_label0 i e' He') as (e & He & [E|E]); [|done]. rewrite E in *. by apply ok_cover0.
Qed.

Lemma ok_bounds ph d T hist : al_ok ph d T hist -> 0 < size d <= 65534 /\ rounds (size d) <= al_size_4k d - 1.
Proof.
  intros []. pose proof (iv_size _ ok_inv0). destruct (extents_max_rounds (al_size_4k d) (size d)); [apply ok_geo0|unfold size in *; lia|].
  unfold size in *. lia.
Qed.

Lemma ok_changes ph d T hist : al_ok ph d T hist -> (length (to_be_changed (act_log d)) <= AL_UPDATES_PER_TRANSACTION)%nat.
Proof. intros []. destruct (iv_counts _ ok_inv0) as [_ C1 C2]. lia. Qed.

(** *** The write of a transaction *)

Definition this_block (d : al_device) : nat := Z.to_nat ((al_tr_number_to_on_disk_sector d - al_start d) / 8).

Lemma this_block_eq ph d T hist : al_ok ph d T hist -> this_block d = blk (al_stripes d) (al_stripe_size_4k d) (T mod al_size_4k d).
Proof.
  intros []. destruct ok_geo0 as [G1 G2 G3 G4]. unfold this_block, al_tr_number_to_on_disk_sector, blk.
  rewrite (proj2 ok_number0). pose proof (Z.mod_pos_bound T (al_size_4k d)) as B. rewrite G3 in *.
  destruct (stripe_block_eq (al_stripes d) (al_stripe_size_4k d) G1 G2 ltac:(lia) _ (B ltac:(lia))) as [_ B2].
  rewrite u32_id by lia. f_equal. rewrite Z.add_simpl_l. by apply Z.div_mul.
Qed.

Lemma not_changing al i e : inv al -> elements al !! i = Some e -> i ∉ to_be_changed al -> lc_number e = lc_new_number e.
Proof.
  intros Hinv He Hn. destruct (elem_state al i e Hinv He) as (w & Hw & _ & Hs).
  destruct w; [apply Hs| |apply Hs|done]. destruct Hs as (_ & -> & ->). done.
Qed.

Lemma label_lookup ph d i e : elements (act_log d) !! i = Some e -> label ph (elem (act_log d) i) = label ph e.
Proof. intros He. unfold elem. by rewrite He. Qed.

(** The write covers every slot with its label after the transaction. *)
Lemma write_covers ph d T hist mx i e : al_ok ph d T hist ->
  mx = Z.to_nat (Z.min (Z.of_nat AL_CONTEXT_PER_TRANSACTION) (s32 (size d - al_tr_cycle d))) ->
  elements (act_log d) !! i = Some e -> lc_new_number e <> LC_FREE ->
  covered (size d) (if size d <=? al_tr_cycle d + 919 then 0 else al_tr_cycle d + 919) (al_buffer crc32c d mx :: hist) i (lc_new_number e).
Proof.
  intros Hok Emx He Hl. destruct (ok_bounds _ _ _ _ Hok) as [Hs _]. destruct (ok_cycle _ _ _ _ Hok) as [Hc Hq].
  pose proof (lookup_lt_Some _ _ _ He) as Hlt. assert (0 <= Z.of_nat i < size d) as Hi by (unfold size, nr_elements; lia).
  fold (next_cycle (size d) (al_tr_cycle d)). set (c' := next_cycle _ _).
  assert (c' < size d) as Hc' by (unfold c', next_cycle; destruct (Z.leb_spec (size d) (al_tr_cycle d + 919)); lia).
  assert (due (size d) (Z.of_nat i) c' <= rounds (size d)) as Hdue.
  { destruct (Z.ltb_spec (al_tr_cycle d) (size d)); [apply due_next; lia|].
    unfold c', next_cycle. rewrite (proj2 (Z.leb_le _ _)) by lia. apply due_start; lia. }
  pose proof (buffer_effect crc32c d mx (ok_inv _ _ _ _ Hok) (ok_changes _ _ _ _ Hok) ltac:(unfold size in *; lia) ltac:(lia) Emx i Hlt) as Ef.
  split; [done|]. destruct (decide (i ∈ to_be_changed (act_log d))) as [Hin|Hin].
  - exists 1%nat. cbn [take hot_of]. rewrite Ef. split; [|lia]. unfold elem. by rewrite He.
  - pose proof (not_changing _ _ _ (ok_inv _ _ _ _ Hok) He Hin) as En.
    destruct (Z.leb_spec (al_tr_cycle d) (Z.of_nat i)), (Z.ltb_spec (Z.of_nat i) (al_tr_cycle d + 919)); cbn [andb] in Ef.
    1:{ exists 1%nat. cbn [take hot_of]. rewrite Ef. split; [|lia]. unfold elem. rewrite He. cbn. by rewrite En. }
    all: destruct (ok_cover _ _ _ _ Hok i e He) as (Hcs & n & Hn & Hd); [destruct ph; cbn; congruence|].
    all: exists (S n); cbn [take hot_of]; rewrite Ef; split; [rewrite Hn; f_equal; destruct ph; cbn; congruence|].
    all: unfold c'; rewrite due_later by lia; lia.
Qed.

(** The number of the next transaction does not make the ring jump. *)
Definition no_jump (d : al_device) : Prop := (al_size_4k d | 2 ^ 32) \/ al_tr_number d + 1 < 2 ^ 32.

Lemma next_number d T : 0 < al_size_4k d -> no_jump d -> al_tr_number d = u32 T -> al_tr_number d mod al_size_4k d = T mod al_size_4k d ->
  u32 (al_tr_number d + 1) = u32 (T + 1) /\ u32 (al_tr_number d + 1) mod al_size_4k d = (T + 1) mod al_size_4k d.
Proof.
  intros Hm Hj E1 E2. assert (u32 (al_tr_number d + 1) = u32 (T + 1)) as E by (rewrite E1; unfold u32, wrap; apply Zplus_mod_idemp_l).
  split; [done|]. destruct Hj as [Hd|Hlt].
  - rewrite E. unfold u32, wrap. by apply Z.mod_mod_divide.
  - rewrite u32_id by (rewrite E1; rewrite E1 in Hlt; pose proof (Z.mod_pos_bound T (2 ^ 32)); unfold u32, wrap in *; lia).
    by rewrite <- Zplus_mod_idemp_l, E2, Zplus_mod_idemp_l.
Qed.

Lemma write_ok ph d T hist : al_ok ph d T hist -> ph <> Idle -> no_jump d ->
  exists d' buf, __al_write_transaction crc32c false false d = Some (0, d') /\ act_log d' = act_log d /\
    al_ok Written d' (T + 1) (buf :: hist).
Proof.
  intros Hok Hph Hj.
  destruct (ok_bounds _ _ _ _ Hok) as [Hs _]. destruct (ok_cycle _ _ _ _ Hok) as [Hc Hq].
  unfold __al_write_transaction. rewrite (proj2 (Nat.ltb_ge _ _)) by (by eapply ok_changes). cbv zeta. fold (size d).
  set (mx := Z.to_nat (Z.min _ _)). assert (Z.of_nat mx = Z.max 0 (Z.min 919 (size d - al_tr_cycle d))) as Emx.
  { unfold mx. rewrite context_size_eq, s32_small by lia. lia. }
  assert ((nr_elements (act_log d) <? Z.to_nat (al_tr_cycle d) + mx)%nat && (0 <? mx)%nat = false) as ->.
  { destruct (Nat.ltb_spec 0 mx); [|by rewrite andb_false_r]. rewrite (proj2 (Nat.ltb_ge _ _)); [done|]. unfold size in *. lia. }
  rewrite (ok_updates _ _ _ _ Hok). cbn [negb]. eexists _, (al_buffer crc32c d mx). split; [reflexivity|]. split; [done|].
  set (cycle := if size d <=? _ then 0 else _).
  assert (cycle = if size d <=? al_tr_cycle d + 919 then 0 else al_tr_cycle d + 919) as Ec
    by (unfold cycle; rewrite context_size_eq, u32_id by lia; done).
  pose proof (this_block_eq _ _ _ _ Hok) as Eb. unfold this_block in Eb. pose proof (ok_geo _ _ _ _ Hok) as [G1 G2 G3 G4].
  destruct (next_number d T ltac:(lia) Hj) as [N1 N2]; [apply Hok|apply Hok|].
  destruct Hok as [O1 O2 O3 O4 O5 O6 O7 O8 O9 O10 O11 O12] eqn:EH. clear EH.
  split; cbn [act_log al_tr_number al_tr_cycle al_stripes al_stripe_size_4k al_size_4k al_updates al_disk]; try done.
  - intros _. by apply O7.
  - rewrite Ec. destruct (Z.leb_spec (size d) (al_tr_cycle d + 919)); [done|]. split; [lia|].
    replace (al_tr_cycle d + 919) with (al_tr_cycle d + 1 * 919) by lia. rewrite Z.div_add; lia.
  - by rewrite length_insert.
  - rewrite Eb. replace (take _ (_ :: hist)) with (al_buffer crc32c d mx :: take (Z.to_nat (al_size_4k d) - 1) (take (Z.to_nat (al_size_4k d)) hist)).
    2:{ rewrite take_take, Nat.min_l by lia. destruct (Z.to_nat (al_size_4k d)) as [|n] eqn:E; [lia|]. by replace (S n - 1)%nat with n by lia. }
    rewrite G3 in *. apply ring_write; [done|done|lia|done|done|apply buffer_update| |].
    + destruct (buffer_update crc32c d mx) as [_ ->]. by apply O9.
    + eapply buffer_slots_ok.
  - intros i e He Hl. rewrite Ec. apply (write_covers ph d T hist); done.
Qed.

(** ** References *)

Record calm (ph : phase) (al : lru_cache) : Prop := mk_calm {
  ca_inv : inv al; ca_idle : idle al; ca_lock : ph <> Idle -> LC_LOCKED (flags al) = true }.

Lemma calm_kept ph al al' : calm ph al -> kept ph al al' -> calm ph al'.
Proof. intros [] []. split; auto. Qed.

(** What an operation that writes no transaction does. *)
Definition quiet (ph : phase) (d d' : al_device) : Prop := same_disk d d' /\ kept ph (act_log d) (act_log d').

Lemma quiet_refl ph d : calm ph (act_log d) -> quiet ph d d.
Proof. intros []. split; [apply same_disk_refl|by apply kept_refl]. Qed.

Lemma quiet_trans ph d1 d2 d3 : quiet ph d1 d2 -> quiet ph d2 d3 -> quiet ph d1 d3.
Proof. intros [A1 B1] [A2 B2]. split; [by eapply same_disk_trans|by eapply kept_trans]. Qed.

Lemma quiet_calm ph d d' : quiet ph d d' -> calm ph (act_log d) -> calm ph (act_log d').
Proof. intros [_ K] C. by eapply calm_kept. Qed.

Lemma quiet_al ph d al : kept ph (act_log d) al -> quiet ph d (set_al d al).
Proof. by split. Qed.

Lemma quiet_peers ph d ps : calm ph (act_log d) -> quiet ph d (set_rs_peers d ps).
Proof. intros []. split; [done|by apply kept_refl]. Qed.

Lemma quiet_error ph d d' : quiet ph d d' -> quiet ph d (al_error d').
Proof. intros [[] K]. by split. Qed.

Lemma al_get_quiet ph mon nonblock enr d r d' k : calm ph (act_log d) -> enr <> LC_FREE -> room (k + 1) (act_log d) -> 0 <= k ->
  __al_get mon nonblock enr d = Some (r, d') -> quiet ph d d' /\ room k (act_log d').
Proof.
  intros C Hf Hr Hk. unfold __al_get. destruct (find_active_resync_extent _ _) as [[[found w] ps]|]; [|done]. cbn [mbind option_bind].
  destruct found.
  - intros [= _ <-]. split; [by apply quiet_peers|]. intros i e He. specialize (Hr i e He). lia.
  - destruct C. intros H. assert (exists al, __lc_get mon (act_log d) enr (negb nonblock) false = Some (r, al) /\ d' = set_al (set_rs_peers d ps) al)
      as (al & Hg & ->).
    { destruct nonblock; unfold lc_try_get, lc_get in H; cbn [negb];
        (destruct (__lc_get _ _ _ _ _) as [[r1 al1]|]; [|done]); cbn in H; injection H as <- <-; by eexists. }
    destruct (kept_get ph _ _ _ _ _ _ _ k ca_inv0 ca_idle0 ca_lock0 Hf Hr Hk Hg) as [K R]. by split; [split|].
Qed.

Lemma put_actlog_quiet ph enrs d b d' k : calm ph (act_log d) -> put_actlog enrs d = Some (b, d') -> room k (act_log d) ->
  quiet ph d d' /\ room k (act_log d').
Proof.
  revert d b d'. induction enrs as [|enr enrs IH]; intros d b d' C; cbn [put_actlog].
  { intros [= _ <-]. split; [by apply quiet_refl|done]. }
  intros H Hr. destruct (put_one d enr) as [[w d1]|] eqn:E1; [|done]. cbn [mbind option_bind] in H.
  destruct (put_actlog enrs d1) as [[w' d2]|] eqn:E2; [|done]. injection H as _ <-.
  assert (quiet ph d d1 /\ room k (act_log d1)) as [Q1 R1].
  { unfold put_one in E1. destruct (lc_find _ _) as [i|].
    - destruct (refcnt _ <=? 0).
      + injection E1 as _ <-. split; [by apply quiet_error, quiet_refl|done].
      + destruct (lc_put (act_log d) i) as [[r al]|] eqn:Ep; [|done]. injection E1 as _ <-. destruct C.
        destruct (kept_put ph _ _ _ _ k ca_inv0 ca_idle0 Ep Hr). by split; [apply quiet_al|].
    - injection E1 as _ <-. split; [by apply quiet_error, quiet_refl|done]. }
  destruct (IH d1 _ _ (quiet_calm _ _ _ Q1 C) E2 R1) as [Q2 R2]. split; [by eapply quiet_trans|done].
Qed.

Lemma for_peer_quiet ph mon conn got todo need d r n : calm ph (act_log d) -> Forall (fun x => u32 x <> LC_FREE) todo ->
  room (Z.of_nat (length todo)) (act_log d) -> for_peer_get mon conn got todo need d = Some (r, n) ->
  quiet ph d (match r with FP_done _ d' | FP_waits _ d' => d' end).
Proof.
  intros C Hf. revert got need d C. induction Hf as [|enr todo Hx _ IH]; intros got need d C Hr; cbn [for_peer_get].
  { intros [= <- _]. by apply quiet_refl. }
  unfold _al_get. destruct (__al_get mon false (u32 enr) d) as [[o d1]|] eqn:E; [|done]. cbn [mbind option_bind].
  destruct (al_get_quiet ph _ _ _ _ _ _ (Z.of_nat (length todo)) C Hx ltac:(cbn [length] in Hr; by replace (Z.of_nat (length todo) + 1) with (Z.of_nat (S (length todo))) by lia) ltac:(lia) E) as [Q R].
  pose proof (quiet_calm _ _ _ Q C) as C1. destruct o as [i|].
  - intros H. eapply quiet_trans; [exact Q|]. by eapply IH.
  - destruct conn; [by intros [= <- _]|]. destruct (put_actlog got d1) as [[w d2]|] eqn:E2; [|done]. intros [= <- _].
    destruct (put_actlog_quiet ph _ _ _ _ _ C1 E2 R). by eapply quiet_trans.
Qed.

Lemma resync_quiet ph wake enrs d r d' : calm ph (act_log d) -> resync_in_way wake enrs d = Some (r, d') ->
  quiet ph d d' /\ act_log d' = act_log d.
Proof.
  revert wake d. induction enrs as [|enr enrs IH]; intros wake d C; cbn [resync_in_way].
  { intros [= _ <-]. split; [by apply quiet_refl|done]. }
  destruct (find_active_resync_extent _ _) as [[[found w] ps]|]; [|done]. cbn [mbind option_bind]. destruct found.
  - destruct (set_bme_priority _ _ _) as [w' ps']. intros [= _ <-]. split; [by apply quiet_peers|done].
  - intros H. destruct (IH _ (set_rs_peers d ps) C H) as [Q E]. split; [|done]. by eapply quiet_trans; [apply quiet_peers|].
Qed.

Lemma check_out_quiet ph mon enrs d d' : calm ph (act_log d) -> Forall (fun x => u32 x <> LC_FREE) enrs ->
  room (Z.of_nat (length enrs)) (act_log d) -> check_out mon enrs d = Some d' -> quiet ph d d'.
Proof.
  intros C Hf. revert d C. induction Hf as [|enr enrs Hx _ IH]; intros d C Hr; cbn [check_out].
  { intros [= <-]. by apply quiet_refl. }
  unfold lc_get_cumulative. destruct (__lc_get _ _ _ _ _) as [[r al]|] eqn:E; [|done]. cbn [mbind option_bind]. intros H.
  pose proof C as []. cbn [length] in Hr. replace (Z.of_nat (S (length enrs))) with (Z.of_nat (length enrs) + 1) in Hr by lia.
  destruct (kept_get ph _ _ _ _ _ _ _ (Z.of_nat (length enrs)) ca_inv0 ca_idle0 ca_lock0 Hx Hr ltac:(lia) E) as [K R].
  destruct (bool_decide _).
  - eapply quiet_trans; [by apply quiet_al|]. apply IH; [by eapply calm_kept|done|done].
  - eapply quiet_trans; [by apply quiet_error, quiet_al|]. apply IH; [by eapply calm_kept|done|done].
Qed.

Lemma kept_starving ph al b : inv al -> idle al -> kept ph al (set_starving al b).
Proof.
  intros Hi Hid. split; try done; [|intros i e He; exists e; auto]. revert Hi. apply inv_core; done.
Qed.

Lemma nonblock_quiet ph mon fake sector sz d err d' : calm ph (act_log d) ->
  Forall (fun x => u32 x <> LC_FREE) (extents (al_first sector) (al_last sector sz)) ->
  room (Z.of_nat (length (extents (al_first sector) (al_last sector sz)))) (act_log d) ->
  bsr_al_begin_io_nonblock mon fake sector sz d = Some (err, d') -> quiet ph d d'.
Proof.
  intros C Hf Hr. pose proof C as []. unfold bsr_al_begin_io_nonblock. cbv zeta. destruct (_ <? _).
  - intros [= _ <-]. destruct (_ =? _); [by apply quiet_al, kept_starving|by apply quiet_refl].
  - destruct (resync_in_way _ _ _) as [[busy d1]|] eqn:E; [|done]. cbn [mbind option_bind].
    destruct (resync_quiet ph _ _ _ _ _ C E) as [Q1 E1]. destruct busy as [e|]; [by intros [= _ <-]|].
    destruct (check_out _ _ _) as [d2|] eqn:E2; [|done]. intros [= _ <-]. pose proof (quiet_calm _ _ _ Q1 C) as C1. pose proof C1 as [].
    eapply quiet_trans; [exact Q1|]. assert (quiet ph d1 (set_al d1 (set_starving (act_log d1) false))) as Q2 by (by apply quiet_al, kept_starving).
    eapply quiet_trans; [exact Q2|]. eapply check_out_quiet; [by eapply quiet_calm|done| |done].
    cbn. by rewrite E1.
Qed.

End run.

End AlCrash.
