(* ===== verification/AlRun.v ===== *)
(** * Runs of the activity log (src/bsr/bsr_actlog.c, src/bsr/bsr_nl.c)

    The step relation of the threads that use the activity log, the images a
    crash can leave, and what [bsrmeta apply-al] makes of them. *)

From stdpp Require Import sorting.
From S2P Require Import Prelude LruCache ActLog AlReplay AlReplayOk AlCrash.

Module AlRun.
Import LruCache ActLog AlReplay AlReplayOk AlCrash.

Section run.
Context (crc32c : al_transaction_on_disk -> Z).

(** The extents of a request are labels, and no reference count overflows. *)
Definition begins (enrs : list Z) (d : al_device) : Prop :=
  Forall (fun x => u32 x <> LC_FREE) enrs /\ room (Z.of_nat (length enrs)) (act_log d).

Definition for_peer_state (r : for_peer) : al_device := match r with FP_done _ d | FP_waits _ d => d end.

(** The ring does not jump in the next [n] transactions. *)
Definition no_jump_for (n : Z) (d : al_device) : Prop := (al_size_4k d | 2 ^ 32) \/ al_tr_number d + n < 2 ^ 32.

(** One step of one thread.  The phase says how far the thread with the lock has come; [bsr_al_begin_io_commit] is the steps
    lock, write, committed and unlock, and [bsr_al_shrink] any number of [st_shrink], with any steps of other threads in between.  No I/O on the meta data fails. *)
Inductive al_step : phase -> al_device -> phase -> al_device -> Prop :=
| st_fastpath ph d d' mon sector sz b : begins [al_first sector] d ->
    bsr_al_begin_io_fastpath mon sector sz d = Some (b, d') -> al_step ph d ph d'
| st_nonblock ph d d' mon fake sector sz err : begins (extents (al_first sector) (al_last sector sz)) d ->
    bsr_al_begin_io_nonblock mon fake sector sz d = Some (err, d') -> al_step ph d ph d'
| st_for_peer ph d mon connected got todo need r n : begins todo d ->
    for_peer_get mon connected got todo need d = Some (r, n) -> al_step ph d ph (for_peer_state r)
| st_complete ph d d' sector sz b : bsr_al_complete_io sector sz d = Some (b, d') -> al_step ph d ph d'
| st_lock d d' : bsr_al_try_lock_for_transaction d = (true, d') -> al_step Idle d Locked d'
| st_busy ph d d' : bsr_al_try_lock_for_transaction d = (false, d') -> al_step ph d ph d'
| st_lock_clean d d' : bsr_al_try_lock d = Some (true, d') -> al_step Idle d Locked d'
| st_write d d' err : no_jump d -> commit_write crc32c al_env_ok d = Some (err, d') -> al_step Locked d Written d'
| st_committed d d' mon : commit_done mon d = Some d' -> al_step Written d Locked d'
| st_unlock d : al_step Locked d Idle (al_unlock d)
| st_initialize d d' mon err : no_jump_for (al_size_4k d) d ->
    bsr_al_initialize crc32c mon [] d = Some (err, d') -> al_step Locked d Locked d'
| st_shrink d d' idx b : shrink_from idx d = Some (b, d') -> al_step Locked d Locked d'
| st_resize d alloc n : al_step Locked d Idle (al_unlock (bsr_check_al_size alloc (sanitize_al_extents (al_size_4k d) n) d).2).

(** A device right after [attach]: the log area is initialised, the cache is new.  The number and the cycle are those of an
    earlier life of the device. *)
Record attached (d : al_device) : Prop := mk_attached {
  at_geo : geometry d;
  at_updates : al_updates d = true;
  at_cache : exists n, lc_create true (Z.of_nat AL_UPDATES_PER_TRANSACTION) (sanitize_al_extents (al_size_4k d) n) = Some (act_log d);
  at_number : 0 <= al_tr_number d < 2 ^ 32;
  at_cycle : 0 <= al_tr_cycle d <= 65534 /\ 919 * (al_tr_cycle d / 919) = al_tr_cycle d;
  at_disk : al_disk d = initialize_al crc32c (al_size_4k d) }.

Inductive al_reach : phase -> al_device -> Prop :=
| al_start d : attached d -> al_reach Idle d
| al_next ph d ph' d' : al_reach ph d -> al_step ph d ph' d' -> al_reach ph' d'.

(** What is on the disk after a crash: the blocks that were written, and the next one may be torn. *)
Inductive crash_image (d : al_device) : list al_transaction_on_disk -> Prop :=
| crash_whole : crash_image d (al_disk d)
| crash_torn b : v84_al_disk_to_cpu crc32c b = false -> crash_image d (<[this_block d := b]> (al_disk d)).

(** ** The invariant holds *)

Definition good (ph : phase) (d : al_device) : Prop := exists T hist, al_ok crc32c ph d T hist.

Lemma good_quiet ph d d' : good ph d -> quiet ph d d' -> good ph d'.
Proof. intros (T & hist & H) [S K]. exists T, hist. by eapply ok_kept. Qed.

Lemma good_calm ph d : good ph d -> calm ph (act_log d).
Proof. intros (T & hist & []). by split. Qed.

Lemma extents_range mx n : 8 <= mx <= 4194304 -> 0 < sanitize_al_extents mx n <= bsr_al_extents_max mx /\ bsr_al_extents_max mx <= 65534.
Proof.
  intros Hmx. unfold sanitize_al_extents, BSR_AL_EXTENTS_MIN. assert (7 * 919 <= bsr_al_extents_max mx <= 65534); [|lia].
  unfold bsr_al_extents_max, BSR_AL_EXTENTS_MAX. rewrite context_size_eq. change ((65534 + 919 - 1) / 919) with 72.
  destruct (Z.ltb_spec 72 mx); [lia|]. rewrite u32_id by lia. lia.
Qed.

(** A new cache has no labels. *)
Lemma fresh_cache alloc mx n al : 8 <= mx <= 4194304 ->
  lc_create alloc (Z.of_nat AL_UPDATES_PER_TRANSACTION) (sanitize_al_extents mx n) = Some al ->
  inv al /\ idle al /\ max_pending_changes al = Z.of_nat AL_UPDATES_PER_TRANSACTION /\
  Z.of_nat (nr_elements al) = sanitize_al_extents mx n /\ forall i e, elements al !! i = Some e -> lc_number e = LC_FREE.
Proof.
  intros Hmx. destruct (extents_range mx n Hmx) as [H1 H2]. unfold lc_create. destruct (Z.ltb_spec LC_MAX_ACTIVE (sanitize_al_extents mx n)); [done|].
  destruct alloc; [|done]. intros [= <-]. split_and!; [apply fresh_inv; [lia|pose proof updates_size_eq; lia]|done|done| |].
  - unfold nr_elements, fresh. cbn [elements]. rewrite length_replicate. lia.
  - intros i e. unfold fresh. cbn [elements]. intros [-> _]%lookup_replicate. done.
Qed.

Lemma init_not_update mx p : is_update crc32c (nth p (initialize_al crc32c mx) no_tr) = false.
Proof.
  unfold initialize_al. set (t := set_crc _ _).
  destruct (nth_in_or_default p (repeat t (Z.to_nat mx)) no_tr) as [Hin|E].
  - apply repeat_spec in Hin. rewrite Hin. unfold is_update. by rewrite andb_false_r.
  - rewrite E. done.
Qed.

Lemma attached_good d : attached d -> good Idle d.
Proof.
  intros [G U (n & C) N Y D]. pose proof G as [G1 G2 G3 G4]. destruct (fresh_cache _ _ _ _ G4 C) as (I1 & I2 & I3 & I4 & I5).
  exists (al_tr_number d), []. split; try done.
  - unfold size. rewrite I4. apply (extents_range _ n G4).
  - split; [|done]. symmetry. by apply u32_id.
  - rewrite D. unfold initialize_al. rewrite repeat_length. lia.
  - rewrite take_nil. split; [cbn; lia|done|done|]. intros p _ _. rewrite D. apply init_not_update.
  - intros i e He Hl. destruct Hl. by apply (I5 i e).
Qed.

Lemma locked_good d : good Idle d -> good Locked (set_al d (set_locked (act_log d) true)).
Proof.
  intros (T & hist & []). exists T, hist. split; try done; try (destruct ok_geo0; by split).
  revert ok_inv0. by apply inv_core.
Qed.

Lemma unlock_good ph d : good ph d -> ph <> Written -> good Idle (al_unlock d).
Proof.
  intros (T & hist & []) Hph. exists T, hist. split; try done; try (destruct ok_geo0; by split).
  - revert ok_inv0. by apply inv_core.
  - intros i e He Hl. destruct ph; [by apply ok_cover0|by apply ok_cover0|done].
Qed.

Lemma committed_good mon d d' : good Written d -> commit_done mon d = Some d' -> good Locked d'.
Proof.
  intros (T & hist & Hok) H. pose proof Hok as []. unfold commit_done in H.
  destruct (lc_committed_cases mon (act_log d) ok_inv0 ok_idle0) as (al & E & I1 & I2 & C1 & C2 & C3 & C4 & C5 & C6 & C7 & C8).
  rewrite E in H. cbn in H. injection H as <-. exists T, hist.
  assert (nr_elements al = nr_elements (act_log d)) as En by (unfold nr_elements; by rewrite C1, length_fmap).
  assert (max_pending_changes al = max_pending_changes (act_log d)) as Em.
  { unfold lc_committed in E. rewrite paranoia_entry in E by done. cbn in E. injection E as <-. cbn.
    assert (forall l lc, max_pending_changes (commit_all mon l lc) = max_pending_changes lc) as ->; [|done].
    induction l as [|x l IH]; intros lc; [done|]. cbn. by rewrite IH. }
  split; unfold size; cbn [act_log set_al al_tr_number al_tr_cycle al_stripes al_stripe_size_4k al_size_4k al_updates al_disk];
    rewrite ?En, ?Em; try done; try (destruct ok_geo0; by split).
  - intros _. rewrite C6. by apply ok_lock0.
  - intros i e. rewrite C1, list_lookup_fmap. destruct (elements (act_log d) !! i) as [x|] eqn:Ex; [|done]. cbn. intros [= <-]. cbn.
    by apply (ok_cover0 i x).
Qed.

Lemma write_good ph d err d' : good ph d -> ph <> Idle -> no_jump d -> __al_write_transaction crc32c false false d = Some (err, d') ->
  good Written d' /\ act_log d' = act_log d /\ al_size_4k d' = al_size_4k d /\ al_tr_number d' = u32 (al_tr_number d + 1) /\ err = 0.
Proof.
  intros (T & hist & Hok) Hph Hj H. destruct (write_ok crc32c ph d T hist Hok Hph Hj) as (d1 & buf & E & Ea & Hok1).
  rewrite H in E. injection E as -> ->. split_and!; [by eexists _, _|done| | |done].
  all: unfold __al_write_transaction in H; cbv zeta in H; destruct (_ <? _)%nat; [done|]; destruct (_ && _); [done|];
       destruct (negb _) eqn:Eu; [by rewrite (ok_updates _ _ _ _ _ Hok) in Eu|]; by injection H as <-.
Qed.

(** Without pending changes the phases before and after the write are the same. *)
Lemma written_good d : good Written d -> to_be_changed (act_log d) = [] -> good Locked d.
Proof.
  intros (T & hist & Hok) Hc. pose proof Hok as []. exists T, hist. split; try done; [by intros _; apply ok_lock0|].
  intros i e He Hl. pose proof (not_changing _ i e ok_inv0 He ltac:(rewrite Hc; apply not_elem_of_nil)) as En.
  specialize (ok_cover0 i e He). cbn in *. rewrite En in *. by apply ok_cover0.
Qed.

Lemma jump_less n d d' : no_jump_for (n + 1) d -> 0 <= al_tr_number d -> 0 <= n -> al_size_4k d' = al_size_4k d ->
  al_tr_number d' = u32 (al_tr_number d + 1) -> no_jump_for n d' /\ 0 <= al_tr_number d'.
Proof.
  intros [Hd|Hlt] H0 Hn E1 E2; unfold no_jump_for; rewrite E1, E2; pose proof (Z.mod_pos_bound (al_tr_number d + 1) (2 ^ 32));
    (split; [|unfold u32, wrap; lia]); [by left|]. right. rewrite u32_id; lia.
Qed.

Lemma rewrite_good n d err d' : good Locked d -> to_be_changed (act_log d) = [] -> no_jump_for (Z.of_nat n) d -> 0 <= al_tr_number d ->
  rewrite_ring crc32c n [] d = Some (err, d') -> good Locked d'.
Proof.
  revert d. induction n as [|n IH]; intros d G Hc Hj H0; cbn [rewrite_ring List.hd tail]; [by intros [= _ <-]|].
  destruct (__al_write_transaction _ _ _ _) as [[e d1]|] eqn:E; [|done]. cbn [mbind option_bind].
  destruct (write_good Locked d e d1 G ltac:(done)) as (G1 & A1 & S1 & N1 & ->); [destruct Hj; [by left|right; lia]|done|]. cbn [negb Z.eqb].
  replace (Z.of_nat (S n)) with (Z.of_nat n + 1) in Hj by lia. destruct (jump_less (Z.of_nat n) d d1 Hj H0 ltac:(lia) S1 N1) as [J1 J2].
  apply IH; [apply written_good; [done|by rewrite A1]|by rewrite A1|done|done].
Qed.

Lemma number_range ph d : good ph d -> 0 <= al_tr_number d.
Proof. intros (T & hist & Hok). rewrite (proj1 (ok_number _ _ _ _ _ Hok)). apply Z.mod_pos_bound. done. Qed.

Lemma initialize_good mon d err d' : good Locked d -> no_jump_for (al_size_4k d) d ->
  bsr_al_initialize crc32c mon [] d = Some (err, d') -> good Locked d'.
Proof.
  intros G Hj. unfold bsr_al_initialize. cbn [List.hd tail].
  destruct (__al_write_transaction _ _ _ _) as [[e d1]|] eqn:E; [|done]. cbn [mbind option_bind]. pose proof (number_range _ _ G) as H0.
  assert (8 <= al_size_4k d /\ al_size_4k d = al_stripes d * al_stripe_size_4k d) as [B P] by (destruct G as (? & ? & [[] _ _ _ _ _ _ _ _ _ _ _]); lia).
  destruct (write_good Locked d e d1 G ltac:(done)) as (G1 & A1 & S1 & N1 & ->); [destruct Hj; [by left|right; lia]|done|].
  destruct (commit_done mon d1) as [d2|] eqn:E2; [|done]. cbn [mbind option_bind]. pose proof (committed_good mon d1 d2 G1 E2) as G2.
  assert (to_be_changed (act_log d2) = [] /\ al_size_4k d2 = al_size_4k d1 /\ al_tr_number d2 = al_tr_number d1) as (C2 & S2 & N2).
  { unfold commit_done in E2. destruct (good_calm _ _ G1) as [I1 I2 _].
    destruct (lc_committed_cases mon (act_log d1) I1 I2) as (al & Ea & _ & _ & _ & C & _). rewrite Ea in E2. cbn in E2. by injection E2 as <-. }
  replace (al_size_4k d) with (al_size_4k d - 1 + 1) in Hj by lia.
  destruct (jump_less (al_size_4k d - 1) d d1 Hj H0 ltac:(lia) S1 N1) as [J1 J2].
  assert (al_size_4k d2 = al_stripes d2 * al_stripe_size_4k d2) as P2 by (destruct G2 as (? & ? & [[] _ _ _ _ _ _ _ _ _ _ _]); lia).
  apply rewrite_good; [done|done| |by rewrite N2]. rewrite <- P2, S2, S1.
  replace (Z.of_nat (Z.to_nat (al_size_4k d) - 1)) with (al_size_4k d - 1) by lia. unfold no_jump_for. by rewrite S2, N2.
Qed.

Lemma shrink_quiet idx d b d' : calm Locked (act_log d) -> shrink_from idx d = Some (b, d') -> quiet Locked d d'.
Proof.
  revert d. induction idx as [|i idx IH]; intros d C; cbn [shrink_from]; [intros [= _ <-]; by apply quiet_refl|].
  destruct (_ =? LC_FREE) eqn:Ef; [by apply IH|]. destruct (negb _) eqn:Er; [intros [= _ <-]; by apply quiet_refl|].
  apply negb_false_iff, Z.eqb_eq in Er. destruct C as [I1 I2 I3].
  assert (exists e, elements (act_log d) !! i = Some e) as [e He].
  { unfold elem in Ef. destruct (elements (act_log d) !! i) as [e|]; [by eexists|]. by cbn in Ef. }
  unfold elem in Er. rewrite He in Er. cbn in Er. destruct (lc_del_cases (act_log d) i e I1 I2 He Er) as (al & E & J1 & J2 & J3 & _).
  rewrite E. cbn [mbind option_bind]. intros H.
  assert (kept Locked (act_log d) al) as K.
  { unfold lc_del in E. rewrite paranoia_entry in E by done. cbn [mbind option_bind] in E.
    change (elements (set_paranoia (act_log d) true)) with (elements (act_log d)) in E. rewrite He in E. cbn [mbind option_bind] in E.
    rewrite Er in E. cbn [Z.eqb negb] in E. injection E as E.
    apply (kept_insert Locked (act_log d) al i e (mk_element 0 LC_FREE LC_FREE)); try done; [by rewrite <- E|by rewrite <- E|by right]. }
  eapply quiet_trans; [by apply quiet_al|]. apply IH; [|done]. apply (calm_kept _ (act_log d)); [by split|done].
Qed.

Lemma resize_good d alloc n : good Locked d -> good Idle (al_unlock (bsr_check_al_size alloc (sanitize_al_extents (al_size_4k d) n) d).2).
Proof.
  intros G. unfold bsr_check_al_size. destruct (_ =? _); [by apply (unlock_good Locked)|].
  assert (good Locked (al_error d)) as Ge by (eapply good_quiet; [done|]; by apply quiet_error, quiet_refl, good_calm).
  destruct (lc_create _ _ _) as [al|] eqn:E; [|by apply (unlock_good Locked)]. destruct (_ =? 0); [|by apply (unlock_good Locked)].
  apply (unlock_good Idle); [|done]. destruct G as (T & hist & []). pose proof ok_geo0 as [G1 G2 G3 G4].
  destruct (fresh_cache _ _ _ _ G4 E) as (I1 & I2 & I3 & I4 & I5). exists T, hist. split; try done; try (by split).
  - unfold size. cbn [snd act_log set_al al_size_4k]. rewrite I4. apply (extents_range _ n G4).
  - intros i e He Hl. destruct Hl. by apply (I5 i e).
Qed.

Lemma step_good ph d ph' d' : good ph d -> al_step ph d ph' d' -> good ph' d'.
Proof.
  intros G H. pose proof (good_calm _ _ G) as C. destruct H as [ph d d' mon sector sz b [B1 B2] H|ph d d' mon fake sector sz err [B1 B2] H
    |ph d mon conn got todo need r n [B1 B2] H|ph d d' sector sz b H|d d' H|ph d d' H|d d' H|d d' err Hj H|d d' mon H|d|d d' mon err Hj H|d d' idx b H|d alloc n].
  - eapply good_quiet; [done|]. unfold bsr_al_begin_io_fastpath in H. cbv zeta in H. destruct (negb _); [injection H as _ <-; by apply quiet_refl|].
    unfold _al_get_nonblock in H. destruct (__al_get _ _ _ _) as [[r d1]|] eqn:E; [|done]. injection H as _ <-.
    apply (al_get_quiet ph _ _ _ _ _ _ 0 C) in E as [Q _]; [done|by inversion B1|done|done].
  - eapply good_quiet; [done|]. by eapply nonblock_quiet.
  - eapply good_quiet; [done|]. by eapply for_peer_quiet.
  - eapply good_quiet; [done|]. unfold bsr_al_complete_io in H. assert (room (2 ^ 32 - 2 ^ 33) (act_log d)) as R.
    { intros i e He. destruct (elem_state _ i e (ca_inv _ _ C) He) as (w & _ & Hs & _). lia. }
    apply (put_actlog_quiet ph _ _ _ _ _ C H R).
  - unfold bsr_al_try_lock_for_transaction in H. cbn in H. injection H as _ <-. by apply locked_good.
  - unfold bsr_al_try_lock_for_transaction in H. cbn in H. injection H as Hl <-. apply negb_false_iff in Hl.
    eapply good_quiet; [done|]. apply quiet_al. destruct C. split; try done; [revert ca_inv0; by apply inv_core|].
    intros i e He. exists e. auto.
  - unfold bsr_al_try_lock in H. assert (d' = set_al d (set_locked (act_log d) true)) as ->; [|by apply locked_good].
    unfold lc_try_lock in H. destruct (flags (act_log d)) as [[] [] [] []] eqn:Ef; cbn in H; try done. by injection H as <-.
  - unfold commit_write in H. destruct G as (T & hist & Hok). rewrite (ok_updates _ _ _ _ _ Hok) in H.
    refine (proj1 (write_good Locked d err d' _ _ Hj H)); [by eexists _, _|done].
  - by eapply committed_good.
  - by apply (unlock_good Locked).
  - by eapply initialize_good.
  - eapply good_quiet; [done|]. by eapply shrink_quiet.
  - by apply resize_good.
Qed.

Lemma reach_good ph d : al_reach ph d -> good ph d.
Proof. induction 1; [by apply attached_good|by eapply step_good]. Qed.

(** The replay of a crash image finds every slot of the cache that is not just being changed. *)
Lemma replay_finds ph d img i e : al_reach ph d -> crash_image d img ->
  elements (act_log d) !! i = Some e -> lc_number e <> LC_FREE -> lc_number e = lc_new_number e ->
  let r := replay_al_84 crc32c (al_stripes d) (al_stripe_size_4k d) img (repeat U32_MAX AL_EXTENTS_MAX) in
  0 < r.1 /\ r.2 !! i = Some (lc_number e).
Proof.
  intros (T & hist & Hok)%reach_good Him He Hl Hn r. destruct (ok_bounds _ _ _ _ _ Hok) as [Hs Hr]. pose proof Hok as [].
  pose proof ok_geo0 as [G1 G2 G3 G4]. destruct ok_cycle0 as [Hc Hq]. pose proof (lookup_lt_Some _ _ _ He) as Hlt.
  assert (covered (size d) (al_tr_cycle d) hist i (lc_number e)) as Hcov.
  { replace (lc_number e) with (label ph e) in * by (destruct ph; cbn; congruence). by apply ok_cover0. }
  apply covered_bound in Hcov; [|lia|done|unfold size, nr_elements; lia].
  assert (exists l, ring (al_stripes d) (al_stripe_size_4k d) crc32c img T l /\ hot_of l i = Some (lc_number e)) as (l & R & Hh).
  { destruct Him as [|b Hb].
    - exists (take (Z.to_nat (al_size_4k d)) hist). split; [done|]. eapply hot_of_more; [done|lia].
    - exists (take (Z.to_nat (al_size_4k d) - 1) (take (Z.to_nat (al_size_4k d)) hist)). rewrite (this_block_eq _ _ _ _ _ Hok). split.
      + rewrite G3 in *. apply ring_torn; [done|done|lia|done|done|]. unfold is_update. by rewrite Hb.
      + rewrite take_take, Nat.min_l by lia. eapply hot_of_more; [done|lia]. }
  destruct (replay_ring (al_stripes d) (al_stripe_size_4k d) G1 G2 ltac:(lia) crc32c img T l R (repeat U32_MAX AL_EXTENTS_MAX) i) as [R1 R2].
  { apply repeat_length. }
  { pose proof extents_max_eq. unfold size, nr_elements in *. lia. }
  rewrite Hh in R2. split; [|exact R2]. apply R1. intros ->. done.
Qed.

(** C13. Whatever threads do with the activity log (requests taking and putting
    references, one at a time writing a transaction, the log being shrunk, resized or
    rewritten, in any interleaving), a crash at any moment, also in the middle of the
    write of a block, leaves a ring from which replay_al_84 finds every extent that is
    active or cached, in its slot. I/O on the meta data must not fail, and the
    transaction number must not wrap unless the size of the ring divides 2^32. *)
Theorem al_crash_safe ph d img i e : al_reach ph d -> crash_image d img ->
  elements (act_log d) !! i = Some e -> lc_number e <> LC_FREE -> lc_number e = lc_new_number e ->
  let r := replay_al_84 crc32c (al_stripes d) (al_stripe_size_4k d) img (repeat U32_MAX AL_EXTENTS_MAX) in
  0 < r.1 /\ r.2 !! i = Some (lc_number e).
Proof. apply replay_finds. Qed.

End run.

(** ** The log area *)

(** Blocks stay in the area and do not collide. *)
Definition in_area (stripes stripe_size n : Z) : Prop :=
  forall t u, 0 <= t < n -> 0 <= u < n ->
    0 <= al_stripe_block stripes stripe_size t < n /\
    (al_stripe_block stripes stripe_size t = al_stripe_block stripes stripe_size u -> t = u).

(** With a product over 32 bits the log leaves its area. *)
Lemma stripe_overflow stripes stripe_size n : 0 < stripes < 2 ^ 32 -> 0 < stripe_size < 2 ^ 32 -> 2 ^ 32 <= stripes * stripe_size ->
  8 <= n <= 4194304 -> ~ in_area stripes stripe_size n.
Proof.
  intros H1 H2 Hp Hn A. destruct (Z.ltb_spec stripe_size n) as [Hlt|Hge].
  - set (t := n / stripe_size + 1). pose proof (Z.div_mod n stripe_size). pose proof (Z.mod_pos_bound n stripe_size).
    assert (2 <= stripe_size) by nia. assert (0 <= n / stripe_size) by (apply Z.div_pos; lia).
    assert (n / stripe_size <= n / 2) by (apply Z.div_le_compat_l; lia). pose proof (Z.div_mod n 2). pose proof (Z.mod_pos_bound n 2).
    assert (t < stripes) by (unfold t; nia). assert (0 <= t < n) as Ht by (unfold t; lia).
    destruct (A t t Ht Ht) as [B _]. unfold al_stripe_block in B. rewrite Z.mod_small, Z.div_small in B by lia.
    rewrite Z.add_0_r, !u32_id in B by (rewrite ?u32_id; unfold t in *; nia). unfold t in B. nia.
  - assert (1 < stripes) by nia. destruct (A 1 1 ltac:(lia) ltac:(lia)) as [B _]. unfold al_stripe_block in B.
    rewrite Z.mod_small, Z.div_small in B by lia. rewrite Z.mul_1_l, Z.add_0_r, !u32_id in B by (rewrite ?u32_id; lia). lia.
Qed.

(** C24. Stripe settings that check_activity_log_stripe_size accepts give a log of 8 to
    4194304 blocks; transactions go to different blocks of that area exactly if the
    product of the settings fits 32 bits (it is checked after the overflow); and the
    number of extents sanitize_disk_conf allows is small enough that all slots are in
    the contexts of the blocks that remain when one is torn. *)
Theorem al_blocks_in_area stripes stripe_size s ss n : 0 <= stripes < 2 ^ 32 -> 0 <= stripe_size < 2 ^ 32 ->
  check_activity_log_stripe_size stripes stripe_size = inr (s, ss, n) ->
  8 <= n <= 4194304 /\
  (in_area s ss n <-> s * ss < 2 ^ 32) /\
  (forall x, 0 < sanitize_al_extents n x <= 65534 /\ rounds (sanitize_al_extents n x) <= n - 1).
Proof.
  intros H1 H2 Hc. unfold check_activity_log_stripe_size in Hc.
  assert (0 < s < 2 ^ 32 /\ 0 < ss < 2 ^ 32 /\ n = u32 (s * ss) /\ 8 <= n <= 4194304) as (Hs & Hss & Hn & Hr).
  { destruct (decide (stripes = 0 /\ stripe_size = 0)) as [[-> ->]|Hz]; [cbn in Hc; by injection Hc as <- <- <-|].
    assert ((stripes =? 0) && (stripe_size =? 0) = false) as E by lia. rewrite E in Hc.
    destruct ((stripes =? 0) || (stripe_size =? 0)) eqn:E2; [done|].
    destruct (Z.ltb_spec 4194304 (u32 (stripes * stripe_size))); [done|]. destruct (Z.ltb_spec (u32 (stripes * stripe_size)) 8); [done|].
    injection Hc as <- <- <-. lia. }
  split; [done|]. split.
  - split.
    + intros A. destruct (Z.ltb_spec (s * ss) (2 ^ 32)); [done|]. by destruct (stripe_overflow s ss n Hs Hss).
    + intros Hlt t u Ht Hu. rewrite u32_id in Hn by nia. rewrite Hn in *. split.
      * by destruct (stripe_block_eq s ss ltac:(lia) ltac:(lia) ltac:(lia) t Ht) as [_ B].
      * intros E. apply (stripe_block_inj s ss); done || lia.
  - intros x. destruct (extents_range n x Hr) as [E1 E2]. split; [lia|]. by apply (extents_max_rounds n).
Qed.

(** ** A request for a locked cache *)

(** bsr_al_begin_io_nonblock for a cold extent while another thread has the cache
    locked for a transaction reports success without having taken a reference; only an
    error message is printed. *)
Theorem al_nonblock_locked mon sector sz d : inv (act_log d) -> idle (act_log d) -> no_overflow (act_log d) ->
  rs_peers d = [] -> al_first sector = al_last sector sz -> 0 <= al_first sector < U32_MAX ->
  LC_LOCKED (flags (act_log d)) = true -> absent (act_log d) (al_first sector) ->
  used (act_log d) < Z.of_nat (nr_elements (act_log d)) -> pending_changes (act_log d) < max_pending_changes (act_log d) ->
  exists d', bsr_al_begin_io_nonblock mon 0 sector sz d = Some (0, d') /\
    elements (act_log d') = elements (act_log d) /\ al_errs d' = al_errs d + 1.
Proof.
  intros Hi Hid Ho Hp Ef Hr Hl Ha Hu Hm. unfold bsr_al_begin_io_nonblock. cbv zeta. rewrite Ef. rewrite Ef in Hr, Ha.
  rewrite (proj2 (Z.ltb_ge _ (used (act_log d) + 0))) by lia. rewrite (proj2 (Z.ltb_ge _ _)) by lia.
  assert (extents (al_last sector sz) (al_last sector sz) = [al_last sector sz]) as ->.
  { unfold extents. rewrite Z.sub_diag. change (Z.to_nat (0 + 1)) with 1%nat. cbn [seq map]. f_equal. lia. }
  cbn [resync_in_way]. rewrite Hp. cbn [find_active_resync_extent mbind option_bind orb]. cbn [check_out].
  unfold lc_get_cumulative. cbn [act_log set_al set_rs_peers]. rewrite u32_id by (unfold U32_MAX in *; lia).
  destruct (lc_get_cases mon (set_starving (act_log d) false) (al_last sector sz) true true) as (r & lc & -> & _ & _ & G).
  { revert Hi. by apply inv_core. }
  { done. }
  { done. }
  { unfold LC_FREE. lia. }
  cbn [mbind option_bind]. eexists. split; [reflexivity|]. destruct r as [i|].
  - exfalso. destruct G as (_ & e & He & [(_ & N & _)|[(_ & N & _)|(_ & _ & _ & _ & L & _)]]).
    + by apply (Ha i e).
    + by apply (Ha i e).
    + cbn in L. congruence.
  - destruct G as [[E _] _]. rewrite bool_decide_false by (by intros []). by split.
Qed.

(** ** A run to look at

    A write to the first extent of a new device: its reference, the transaction, the commit. *)

Definition demo_crc (t : al_transaction_on_disk) : Z := t_tr_number t + t_n_updates t.
Definition demo_cache : lru_cache := default (fresh 1 1 stats0) (lc_create true (Z.of_nat AL_UPDATES_PER_TRANSACTION) (sanitize_al_extents 8 67)).
Definition w0 : al_device := mk_al_device demo_cache 5 0 1 8 8 16 true (initialize_al demo_crc 8) [] [] [] 0.
Definition w1 : al_device := default w0 (snd <$> bsr_al_begin_io_nonblock false 0 0 4096 w0).
Definition w2 : al_device := (bsr_al_try_lock_for_transaction w1).2.
Definition w3 : al_device := default w2 (snd <$> commit_write demo_crc al_env_ok w2).
Definition w4 : al_device := default w3 (commit_done false w3).

Lemma demo_attached : attached demo_crc w0.
Proof.
  split; [split; vm_compute; done|done|exists 67; by vm_compute|by vm_compute|by vm_compute|done].
Qed.

Lemma elements_all (f : lc_element -> bool) al : forallb f (elements al) = true -> forall i e, elements al !! i = Some e -> f e = true.
Proof. intros H i e He. rewrite forallb_forall in H. apply H, list_elem_of_In. by eapply list_elem_of_lookup_2. Qed.

Lemma demo_begins : begins (extents (al_first 0) (al_last 0 4096)) w0.
Proof.
  split; [by repeat constructor|]. intros i e He. apply Z.ltb_lt. revert i e He. apply elements_all. by vm_compute.
Qed.

Lemma demo_locked : al_reach demo_crc Locked w2.
Proof.
  apply (al_next demo_crc Idle w1); [|apply st_lock; by vm_compute].
  apply (al_next demo_crc Idle w0); [apply al_start, demo_attached|].
  apply (st_nonblock demo_crc Idle w0 w1 false 0 0 4096 0); [apply demo_begins|by vm_compute].
Qed.

Lemma w4_reach : al_reach demo_crc Locked w4.
Proof.
  apply (al_next demo_crc Written w3); [|apply (st_committed demo_crc w3 w4 false); by vm_compute].
  apply (al_next demo_crc Locked w2); [apply demo_locked|apply (st_write demo_crc w2 w3 0); [left; by exists (2 ^ 29)|by vm_compute]].
Qed.

Lemma demo_calm : calm Locked (act_log w2).
Proof. apply (good_calm demo_crc), reach_good, demo_locked. Qed.

Lemma al_crash_safe_witness :
  (replay_al_84 demo_crc 1 8 (al_disk w4) (repeat U32_MAX AL_EXTENTS_MAX)).2 !! 66%nat = Some 0.
Proof.
  apply (al_crash_safe demo_crc Locked w4 (al_disk w4) 66 (mk_element 1 0 0)); [apply w4_reach|constructor|by vm_compute|done|done].
Defined.

Lemma al_blocks_in_area_witness : in_area 2 8 16.
Proof. apply (al_blocks_in_area 2 8 2 8 16); [lia|lia|by vm_compute|lia]. Defined.

(** Extent 1 is cold while the transaction for extent 0 is being written. *)
Lemma al_nonblock_locked_witness : exists d', bsr_al_begin_io_nonblock false 0 8192 4096 w2 = Some (0, d') /\
  elements (act_log d') = elements (act_log w2) /\ al_errs d' = al_errs w2 + 1.
Proof.
  apply (al_nonblock_locked false 8192 4096 w2);
    [exact (ca_inv _ _ demo_calm)|exact (ca_idle _ _ demo_calm)| |by vm_compute|by vm_compute|by vm_compute|by vm_compute| |by vm_compute|by vm_compute].
  - intros i e He. apply Z.ltb_lt. revert i e He. apply elements_all. by vm_compute.
  - intros i e He. apply Z.eqb_neq, negb_true_iff. revert i e He.
    apply (elements_all (fun e => negb (lc_new_number e =? al_first 8192))). by vm_compute.
Defined.

End AlRun.
