(* ===== verification/AlApply.v ===== *)
(** * Marking the active extents (src/bsr-utils/user/shared/bsrmeta.c)

    [apply_al] works on the bitmap in chunks, with one read, several changes
    and one write each.  The result is the bitmap with all bytes of the hot
    extents set. *)

From stdpp Require Import sorting.
From S2P Require Import Prelude LruCache ActLog AlReplay AlReplayOk AlCrash AlRun.

Module AlApply.
Import LruCache ActLog AlReplay AlReplayOk AlCrash AlRun.

(** ** Bytes *)

Definition within (pos len : Z) (k : nat) : bool := (pos <=? Z.of_nat k) && (Z.of_nat k <? pos + len).

Lemma within_spec pos len k : BoolSpec (pos <= Z.of_nat k < pos + len) (~ (pos <= Z.of_nat k < pos + len)) (within pos len k).
Proof. unfold within. destruct (Z.leb_spec pos (Z.of_nat k)), (Z.ltb_spec (Z.of_nat k) (pos + len)); constructor; lia. Qed.

Lemma pwrite_lookup pos buf bm k : 0 <= pos -> pos + Z.of_nat (length buf) <= Z.of_nat (length bm) ->
  pwrite pos buf bm !! k = if within pos (Z.of_nat (length buf)) k then buf !! (k - Z.to_nat pos)%nat else bm !! k.
Proof.
  intros H0 Hl. unfold pwrite. destruct (within_spec pos (Z.of_nat (length buf)) k) as [Hw|Hw].
  - rewrite lookup_app_r; rewrite length_take; [|lia]. rewrite lookup_app_l by lia. f_equal. lia.
  - destruct (decide (k < Z.to_nat pos)%nat).
    + rewrite lookup_app_l by (rewrite length_take; lia). by apply lookup_take_lt.
    + rewrite lookup_app_r; rewrite length_take; [|lia]. rewrite lookup_app_r by lia. rewrite lookup_drop. f_equal. lia.
Qed.

Lemma length_pwrite pos buf bm : 0 <= pos -> pos + Z.of_nat (length buf) <= Z.of_nat (length bm) -> length (pwrite pos buf bm) = length bm.
Proof. intros H0 Hl. unfold pwrite. rewrite !length_app, length_take, length_drop. lia. Qed.

Lemma length_pread pos len bm : 0 <= pos -> 0 <= len -> pos + len <= Z.of_nat (length bm) -> Z.of_nat (length (pread pos len bm)) = len.
Proof. intros. unfold pread. rewrite length_take, length_drop. lia. Qed.

Lemma pread_lookup pos len bm k : 0 <= pos -> within pos len k = true -> pread pos len bm !! (k - Z.to_nat pos)%nat = bm !! k.
Proof.
  intros H0. destruct (within_spec pos len k) as [Hw|]; [|done]. intros _. unfold pread.
  rewrite lookup_take_lt by lia. rewrite lookup_drop. f_equal. lia.
Qed.

Lemma length_memset pos v len buf : 0 <= pos -> 0 <= len -> pos + len <= Z.of_nat (length buf) -> length (memset pos v len buf) = length buf.
Proof. intros. unfold memset. rewrite !length_app, !length_take, length_drop, repeat_length. lia. Qed.

Lemma memset_lookup pos v len buf k : 0 <= pos -> 0 <= len -> pos + len <= Z.of_nat (length buf) ->
  memset pos v len buf !! k = if within pos len k then Some v else buf !! k.
Proof.
  intros H0 H1 Hl. unfold memset. rewrite (firstn_all2 (repeat v _)) by (rewrite repeat_length; lia).
  destruct (within_spec pos len k) as [Hw|Hw].
  - rewrite lookup_app_r; rewrite length_take; [|lia]. rewrite lookup_app_l by (rewrite repeat_length; lia). apply lookup_repeat. lia.
  - destruct (decide (k < Z.to_nat pos)%nat).
    + rewrite lookup_app_l by (rewrite length_take; lia). by apply lookup_take_lt.
    + rewrite lookup_app_r; rewrite length_take; [|lia]. rewrite lookup_app_r by (rewrite repeat_length; lia).
      rewrite repeat_length, lookup_drop. f_equal. lia.
Qed.

(** ** The loop *)

Section apply.
Context (max_peers bm_bytes : Z).
Context (Hpeers : 1 <= max_peers <= 31) (Hbytes : 0 <= bm_bytes < 2 ^ 62).
Let es := 128 * max_peers.

(** The extent lies in the bitmap or not at all, and its position fits 32 bits. *)
Definition fits (x : Z) : Prop := 0 <= x /\ x * es < 2 ^ 32 /\ (x * es < bm_bytes -> x * es + es <= bm_bytes).

(** The bitmap as the rest of the loop will leave it, the buffer over the disk. *)
Definition view (s : apply_st) (k : nat) : option Z :=
  if within (ap_pos s) (ap_chunk s) k then ap_buf s !! (k - Z.to_nat (ap_pos s))%nat else ap_bm s !! k.

Record loop_ok (s : apply_st) (low : Z) : Prop := mk_loop_ok {
  lo_pos : 0 <= ap_pos s <= low;
  lo_chunk : 0 <= ap_chunk s;
  lo_buf : Z.of_nat (length (ap_buf s)) = ap_chunk s;
  lo_align : ap_pos s mod 8 = 0;
  lo_end : ap_pos s + ap_chunk s <= bm_bytes;
  lo_bm : Z.of_nat (length (ap_bm s)) = bm_bytes;
  lo_first : ap_any s = false -> ap_chunk s = 0 }.

Lemma flush_view s low k : loop_ok s low -> pwrite (ap_pos s) (ap_buf s) (ap_bm s) !! k = view s k.
Proof. intros []. rewrite pwrite_lookup by lia. unfold view. by rewrite lo_buf0. Qed.

Lemma page_start p : 0 <= p < 2 ^ 32 -> Z.land p (lnot_w 64 4095) = p - p mod 4096.
Proof.
  intros Hp. change 4096 with (2 ^ 12). pose proof (Z.div_mod p (2 ^ 12)). replace (p - p mod 2 ^ 12) with (p / 2 ^ 12 * 2 ^ 12) by lia.
  rewrite <- Z.shiftr_div_pow2, <- Z.shiftl_mul_pow2 by lia. apply Z.bits_inj'. intros n Hn.
  rewrite Z.land_spec, Z.shiftl_spec, testbit_lnot_w by (unfold in_u; lia). change 4095 with (Z.ones 12). rewrite testbit_ones by lia.
  rewrite (proj2 (Z.leb_le 0 n)) by lia. cbn [andb]. destruct (Z.ltb_spec n 12).
  - rewrite (Z.testbit_neg_r _ (n - 12)) by lia. cbn [negb]. by rewrite !andb_false_r.
  - rewrite Z.shiftr_spec by lia. replace (n - 12 + 12) with n by lia. cbn [negb]. rewrite andb_true_r.
    destruct (Z.ltb_spec n 64); [by rewrite andb_true_r|]. rewrite andb_false_r. symmetry.
    apply (testbit_in_u 64); unfold in_u; lia.
Qed.

(** Setting an extent in a buffer that holds it. *)
Lemma set_in_buffer s low p : loop_ok s low -> ap_pos s <= p -> p + es <= ap_pos s + ap_chunk s -> ap_any s = true ->
  let s' := mk_apply (ap_bm s) (memset (p - ap_pos s) 255 es (ap_buf s)) (ap_pos s) (ap_chunk s) true in
  loop_ok s' p /\ forall k, view s' k = if within p es k then Some 255 else view s k.
Proof.
  intros [] H1 H2 Ha s'. assert (0 < es) by (unfold es; lia). split.
  - split; cbn; try done; [lia|]. rewrite length_memset; lia.
  - intros k. unfold view, s'. cbn [ap_pos ap_chunk ap_buf ap_bm].
    destruct (within_spec (ap_pos s) (ap_chunk s) k), (within_spec p es k); try lia.
    + rewrite memset_lookup by lia. destruct (within_spec (p - ap_pos s) es (k - Z.to_nat (ap_pos s))); [done|lia].
    + rewrite memset_lookup by lia. destruct (within_spec (p - ap_pos s) es (k - Z.to_nat (ap_pos s))); [lia|done].
    + done.
Qed.

(** The buffer is written back and the chunk around [p] is read. *)
Definition reload (p : Z) (s : apply_st) : apply_st :=
  let bm := if ap_any s then pwrite (ap_pos s) (ap_buf s) (ap_bm s) else ap_bm s in
  let pos := Z.land p (lnot_w 64 4095) in
  let chunk := Z.min (bm_bytes - pos) buffer_size in
  mk_apply bm (pread pos chunk bm) pos chunk true.

Lemma apply_extent_unfold x s : apply_extent es bm_bytes x s =
  let p := u32 (x * es) in
  if bm_bytes <=? p then Some (mk_apply (ap_bm s) (ap_buf s) (ap_pos s) (ap_chunk s) true)
  else
    let s := if negb (ap_any s) || (ap_pos s + ap_chunk s <=? p + es) then reload p s else s in
    let off := u64 (p - ap_pos s) in
    if negb (off <=? u64 (ap_chunk s - es)) then None
    else if negb (off mod 8 =? 0) then None
    else Some (mk_apply (ap_bm s) (memset off 255 es (ap_buf s)) (ap_pos s) (ap_chunk s) true).
Proof. reflexivity. Qed.

Lemma reload_ok s low p : loop_ok s low -> 0 <= p < 2 ^ 32 -> p + es <= bm_bytes ->
  loop_ok (reload p s) p /\ p + es <= ap_pos (reload p s) + ap_chunk (reload p s) /\ forall k, view (reload p s) k = view s k.
Proof.
  intros L Hp Hin. pose proof L as []. assert (128 <= es <= 3968) by (unfold es; lia). pose proof (Z.mod_pos_bound p 4096 ltac:(done)).
  assert (ap_pos (reload p s) = p - p mod 4096 /\ ap_chunk (reload p s) = Z.min (bm_bytes - (p - p mod 4096)) buffer_size) as [Ep Ec]
    by (unfold reload; cbn [ap_pos ap_chunk]; by rewrite page_start).
  assert (ap_bm (reload p s) = pwrite (ap_pos s) (ap_buf s) (ap_bm s)) as Eb.
  { cbn. destruct (ap_any s) eqn:Ea; [done|]. apply list_eq. intros k. rewrite (flush_view s low k L). unfold view. rewrite lo_first0 by done.
    destruct (within_spec (ap_pos s) 0 k); [lia|done]. }
  assert (length (ap_bm (reload p s)) = length (ap_bm s)) as El by (rewrite Eb; apply length_pwrite; lia).
  assert (4096 * (p / 4096) = p - p mod 4096) as D by (pose proof (Z.div_mod p 4096); lia). unfold buffer_size in Ec.
  assert (ap_buf (reload p s) = pread (ap_pos (reload p s)) (ap_chunk (reload p s)) (ap_bm (reload p s))) as Ebuf by done.
  split_and!.
  - split; rewrite ?El, ?Ep; try lia; [|rewrite <- D; replace (4096 * (p / 4096)) with (512 * (p / 4096) * 8) by lia; by apply Z.mod_mul|done].
    rewrite Ebuf. apply length_pread; lia.
  - lia.
  - intros k. unfold view at 1. rewrite <- (flush_view s low k L), <- Eb.
    destruct (within (ap_pos (reload p s)) (ap_chunk (reload p s)) k) eqn:Ew; [|done]. rewrite Ebuf. apply pread_lookup; [lia|done].
Qed.

Lemma extent_align x : u32 (x * es) mod 8 = 0.
Proof.
  unfold u32, wrap. rewrite Z.mod_mod_divide by (by exists (2 ^ 29)).
  unfold es. replace (x * (128 * max_peers)) with (x * max_peers * 16 * 8) by lia. by apply Z.mod_mul.
Qed.

(** The assertions, when the buffer holds the extent. *)
Lemma off_ok s low x : let p := u32 (x * es) in
  loop_ok s low -> ap_pos s <= p -> p + es <= ap_pos s + ap_chunk s ->
  u64 (p - ap_pos s) = p - ap_pos s /\ (p - ap_pos s <=? u64 (ap_chunk s - es)) = true /\ (p - ap_pos s) mod 8 = 0.
Proof.
  intros p [] H1 H2. assert (128 <= es <= 3968) by (unfold es; lia).
  assert (0 <= p < 2 ^ 32) by (apply Z.mod_pos_bound; done).
  rewrite !u64_id by lia. rewrite (proj2 (Z.leb_le _ _)) by lia. split_and!; [done..|].
  rewrite Zminus_mod, lo_align0. unfold p. by rewrite extent_align.
Qed.

(** One extent, not below the ones before. *)
Lemma apply_extent_at s low x p : u32 (x * es) = p -> (p < bm_bytes -> p + es <= bm_bytes) -> loop_ok s low -> low <= p ->
  exists s', apply_extent es bm_bytes x s = Some s' /\ loop_ok s' p /\ ap_any s' = true /\
    forall k, (k < Z.to_nat bm_bytes)%nat -> view s' k = if within p es k then Some 255 else view s k.
Proof.
  intros Ep F2 L Hlow. pose proof L as []. assert (128 <= es <= 3968) by (unfold es; lia).
  assert (0 <= p < 2 ^ 32) by (rewrite <- Ep; apply Z.mod_pos_bound; done). rewrite apply_extent_unfold, Ep. cbv zeta.
  destruct (Z.leb_spec bm_bytes p) as [Hout|Hin].
  { eexists. split; [done|]. split; [split; cbn; try done; lia|]. split; [done|]. intros k Hk.
    destruct (within_spec p es k); [lia|done]. }
  specialize (F2 Hin). set (s1 := if negb (ap_any s) || (ap_pos s + ap_chunk s <=? p + es) then reload p s else s).
  assert (loop_ok s1 p /\ ap_pos s1 <= p /\ p + es <= ap_pos s1 + ap_chunk s1 /\ ap_any s1 = true /\ forall k, view s1 k = view s k)
    as (L1 & B1 & B2 & A1 & V1).
  { unfold s1. destruct (negb (ap_any s) || _) eqn:Ec.
    - destruct (reload_ok s low p L) as (L1 & B2 & V1); [lia..|]. split_and!; try done. apply L1.
    - apply orb_false_iff in Ec as [Ea%negb_false_iff Ec%Z.leb_gt]. split_and!; try done; try lia. split; try done; lia. }
  clearbody s1. destruct (off_ok s1 p x L1) as (E1 & E2 & E3); [by rewrite Ep..|]. rewrite Ep in E1, E2, E3.
  rewrite E1, E2, E3. cbn [negb Z.eqb].
  destruct (set_in_buffer s1 p p L1 B1 B2 A1) as [L2 V2]. eexists. split; [reflexivity|]. split; [exact L2|]. split; [done|].
  intros k _. by rewrite V2, V1.
Qed.

(** Whatever the list of extents, a byte this far into the bitmap is not
    changed: positions are below 2^32. *)
Definition far (s : apply_st) : Prop := loop_ok s (2 ^ 32) /\ (es <= ap_chunk s \/ ap_pos s + ap_chunk s = 0).

Definition whole (x : Z) : Prop := u32 (x * es) < bm_bytes -> u32 (x * es) + es <= bm_bytes.

Lemma loop_ok_low s low low' : low <= low' -> loop_ok s low -> loop_ok s low'.
Proof. intros H []. split; try done. lia. Qed.

Lemma apply_extent_far s x s' : whole x -> far s -> apply_extent es bm_bytes x s = Some s' ->
  far s' /\ forall k, 2 ^ 32 + es <= Z.of_nat k -> view s' k = view s k.
Proof.
  intros Hw [L Hc]. pose proof L as []. assert (128 <= es <= 3968) by (unfold es; lia).
  set (p := u32 (x * es)). assert (0 <= p < 2 ^ 32) by (apply Z.mod_pos_bound; done). unfold whole in Hw. fold p in Hw.
  rewrite apply_extent_unfold. cbv zeta. fold p. destruct (Z.leb_spec bm_bytes p) as [Hout|Hin].
  { intros [= <-]. split; [|done]. split; [|exact Hc]. by split. }
  specialize (Hw Hin). set (s1 := if negb (ap_any s) || (ap_pos s + ap_chunk s <=? p + es) then reload p s else s). intros E.
  assert (loop_ok s1 (2 ^ 32) /\ es <= ap_chunk s1 /\ p + es <= ap_pos s1 + ap_chunk s1 /\ ap_any s1 = true /\ forall k, view s1 k = view s k)
    as (L1 & B1 & B2 & A1 & V1).
  { unfold s1. destruct (negb (ap_any s) || _) eqn:Ec.
    - destruct (reload_ok s (2 ^ 32) p L) as (L1 & B2 & V1); [lia..|]. pose proof (lo_pos _ _ L1).
      split_and!; try done; [apply (loop_ok_low _ p); [lia|done]|lia].
    - apply orb_false_iff in Ec as [Ea%negb_false_iff Ec%Z.leb_gt]. split_and!; try done; lia. }
  clearbody s1. pose proof (lo_pos _ _ L1). pose proof (lo_end _ _ L1). destruct (Z.le_gt_cases (ap_pos s1) p) as [Hle|Hlt].
  - destruct (off_ok s1 (2 ^ 32) x L1) as (E1 & E2 & E3); [done..|]. fold p in E1, E2, E3. rewrite E1, E2, E3 in E. cbn [negb Z.eqb] in E.
    injection E as <-. destruct (set_in_buffer s1 (2 ^ 32) p L1 Hle B2 A1) as [L2 V2]. split.
    + split; [by apply (loop_ok_low _ p); [lia|]|by left].
    + intros k Hk. rewrite V2, V1. destruct (within_spec p es k); [lia|done].
  - exfalso. rewrite (u64_id (ap_chunk s1 - es)) in E by lia. rewrite (proj2 (Z.leb_gt (u64 (p - ap_pos s1)) _)) in E; [done|].
    unfold u64, wrap. rewrite <- (Z_mod_plus_full _ 1), Z.mod_small by lia. lia.
Qed.

Lemma apply_loop_far hot : forall s s', Forall (fun x => x <> U32_MAX -> whole x) hot -> far s -> apply_loop es bm_bytes hot s = Some s' ->
  far s' /\ forall k, 2 ^ 32 + es <= Z.of_nat k -> view s' k = view s k.
Proof.
  induction hot as [|x hot IH]; intros s s' Hh F; cbn [apply_loop]; [by intros [= <-]|].
  inversion_clear Hh as [|? ? Hx Hh']. destruct (Z.eqb_spec x U32_MAX) as [->|Hne]; [by intros [= <-]|].
  destruct (apply_extent es bm_bytes x s) as [s1|] eqn:E1; [|done]. cbn [mbind option_bind]. intros E.
  destruct (apply_extent_far s x s1 (Hx Hne) F E1) as [F1 V1]. destruct (IH s1 s' Hh' F1 E) as [F2 V2].
  split; [done|]. intros k Hk. by rewrite V2, V1.
Qed.

(** Is byte [k] part of a hot extent? *)
Definition marked (hot : list Z) (k : nat) : bool := existsb (fun x => negb (x =? U32_MAX) && within (x * es) es k) hot.

Definition hot_ok (x : Z) : Prop := x = U32_MAX \/ fits x.

Lemma fits_small x : fits x -> x < 2 ^ 25.
Proof. intros (F0 & F1 & _). unfold es in *. nia. Qed.

Lemma apply_loop_ok hot : forall s low, StronglySorted Z.le hot -> Forall hot_ok hot -> loop_ok s low ->
  Forall (fun x => x <> U32_MAX -> low <= x * es) hot ->
  exists s' low', apply_loop es bm_bytes hot s = Some s' /\ loop_ok s' low' /\
    forall k, (k < Z.to_nat bm_bytes)%nat -> view s' k = if marked hot k then Some 255 else view s k.
Proof.
  induction hot as [|x hot IH]; intros s low Hs Hh L Hlow; cbn [apply_loop]; [by exists s, low|].
  inversion_clear Hs as [|? ? Hs' Hx]. inversion_clear Hh as [|? ? Hhx Hh']. inversion_clear Hlow as [|? ? Hlx Hlow'].
  destruct (Z.eqb_spec x U32_MAX) as [->|Hne].
  - exists s, low. split_and!; [done|done|]. intros k _. assert (marked (U32_MAX :: hot) k = false) as ->; [|done].
    cbn. apply not_true_iff_false. intros (y & Hy & Hm)%existsb_exists. apply andb_true_iff in Hm as [Hm%negb_true_iff%Z.eqb_neq _].
    apply list_elem_of_In in Hy. rewrite Forall_forall in Hx, Hh'. specialize (Hx y Hy). destruct (Hh' y Hy) as [->|F%fits_small]; [done|].
    unfold U32_MAX in *. lia.
  - destruct Hhx as [?|F]; [done|]. pose proof F as (F0 & F1 & F2). assert (0 < es) by (unfold es; lia).
    destruct (apply_extent_at s low x (x * es)) as (s1 & -> & L1 & _ & V1); [apply u32_id; nia|done|done|auto|].
    cbn [mbind option_bind]. destruct (IH s1 (x * es)) as (s2 & low2 & -> & L2 & V2); [done|done|done| |].
    { eapply Forall_impl; [exact Hx|]. intros y Hy _. cbn in Hy. nia. }
    exists s2, low2. split_and!; [done|done|]. intros k Hk. rewrite V2, V1 by done. cbn [marked existsb].
    rewrite (proj2 (Z.eqb_neq x U32_MAX)) by done. cbn [negb andb]. fold (marked hot k). by destruct (marked hot k), (within (x * es) es k).
Qed.

Lemma es_eq : u32 (BM_BYTES_PER_AL_EXT * max_peers) = es.
Proof. change BM_BYTES_PER_AL_EXT with 128. apply u32_id. lia. Qed.

Lemma start_ok bm : Z.of_nat (length bm) = bm_bytes -> loop_ok (mk_apply bm [] 0 0 false) 0.
Proof. intros Hl. split; cbn; done || lia. Qed.

Lemma view_start bm k : view (mk_apply bm [] 0 0 false) k = bm !! k.
Proof. unfold view. cbn [ap_pos ap_chunk ap_buf ap_bm]. destruct (within_spec 0 0 k); [lia|done]. Qed.

Lemma flushed s low : loop_ok s low -> forall k,
  (if ap_any s then pwrite (ap_pos s) (ap_buf s) (ap_bm s) else ap_bm s) !! k = view s k.
Proof.
  intros L k. destruct (ap_any s) eqn:Ea; [by eapply flush_view|]. unfold view. rewrite (lo_first _ _ L Ea).
  destruct (within_spec (ap_pos s) 0 k); [lia|done].
Qed.

Lemma apply_al_ok hot bm : Z.of_nat (length bm) = bm_bytes -> StronglySorted Z.le hot -> Forall hot_ok hot ->
  exists bm', apply_al max_peers bm_bytes hot bm = Some bm' /\
    forall k, (k < length bm)%nat -> bm' !! k = if marked hot k then Some 255 else bm !! k.
Proof.
  intros Hl Hs Hh. unfold apply_al. rewrite es_eq.
  destruct (apply_loop_ok hot (mk_apply bm [] 0 0 false) 0 Hs Hh (start_ok bm Hl)) as (s & low & -> & L & V).
  { eapply Forall_impl; [exact Hh|]. intros x [->|(F0 & _)] Hx; [done|]. unfold es. nia. }
  cbn [mbind option_bind]. eexists. split; [done|]. intros k Hk. rewrite (flushed s low L), V by lia. by rewrite view_start.
Qed.

End apply.

(** ** The whole way *)

Lemma single_overflow max_peers bm_bytes x rest bm :
  1 <= max_peers <= 31 -> bm_bytes < 2 ^ 62 -> Z.of_nat (length bm) = bm_bytes ->
  2 ^ 32 <= x * (128 * max_peers) -> x < U32_MAX -> x * (128 * max_peers) + 128 * max_peers <= bm_bytes ->
  exists bm', apply_al max_peers bm_bytes (x :: U32_MAX :: rest) bm = Some bm' /\
    forall k, within (x * (128 * max_peers)) (128 * max_peers) k = true -> bm' !! k = bm !! k.
Proof.
  intros Hp Hb Hl Hx Hx' Hin. unfold apply_al. rewrite es_eq by done. set (es := 128 * max_peers) in *. cbn [apply_loop].
  rewrite (proj2 (Z.eqb_neq x _)) by lia. pose proof (Z.mod_pos_bound (x * es) (2 ^ 32) ltac:(done)) as Hm.
  pose proof (Z.div_mod (x * es) (2 ^ 32) ltac:(done)) as Hd. assert (1 <= x * es / 2 ^ 32) by (apply Z.div_le_lower_bound; lia).
  destruct (apply_extent_at max_peers bm_bytes Hp ltac:(lia) (mk_apply bm [] 0 0 false) 0 x _ eq_refl) as (s1 & E & L & A & V).
  { unfold u32, wrap. fold es. lia. }
  { by apply (start_ok max_peers); [lia|]. }
  { unfold u32, wrap. fold es. lia. }
  fold es in E, V. rewrite E. cbn [mbind option_bind]. rewrite Z.eqb_refl. cbn [mbind option_bind]. eexists. split; [reflexivity|]. intros k Hk.
  rewrite (flushed max_peers bm_bytes s1 _ L). destruct (within_spec (x * es) es k) as [Hw|]; [|done].
  rewrite V by lia. rewrite (view_start max_peers). destruct (within_spec (u32 (x * es)) es k); [|done]. unfold u32, wrap in *. unfold es in *. lia.
Qed.

(** C39. Positions in the bitmap are computed in 32 bits: whatever the hot extents (each
    whole in the bitmap at its computed position), when apply_al returns, no byte of the
    bitmap from 2^32 + 128 * max_peers on has changed, so active extents there (with 31
    peers from about 4 TiB on) are not marked. When the only hot extent lies beyond
    2^32, apply_al does return and leaves the bytes of that extent as they were. *)
Theorem apply_al_overflow max_peers bm_bytes hot bm :
  1 <= max_peers <= 31 -> bm_bytes < 2 ^ 62 -> Z.of_nat (length bm) = bm_bytes ->
  Forall (fun x => x <> U32_MAX -> whole max_peers bm_bytes x) hot ->
  (forall bm', apply_al max_peers bm_bytes hot bm = Some bm' ->
     forall k, 2 ^ 32 + 128 * max_peers <= Z.of_nat k -> bm' !! k = bm !! k) /\
  (forall x rest, hot = x :: U32_MAX :: rest ->
     2 ^ 32 <= x * (128 * max_peers) -> x < U32_MAX -> x * (128 * max_peers) + 128 * max_peers <= bm_bytes ->
     exists bm', apply_al max_peers bm_bytes hot bm = Some bm' /\
       forall k, within (x * (128 * max_peers)) (128 * max_peers) k = true -> bm' !! k = bm !! k).
Proof.
  intros Hp Hb Hl Hh. split; [|intros x rest ->; by apply single_overflow].
  intros bm' E k Hk. unfold apply_al in E. rewrite es_eq in E by done.
  destruct (apply_loop _ _ hot _) as [s|] eqn:El; [|done]. cbn [mbind option_bind] in E. injection E as <-.
  destruct (apply_loop_far max_peers bm_bytes Hp ltac:(lia) hot (mk_apply bm [] 0 0 false) s Hh) as [[L _] V]; [|exact El|].
  - split; [|by right]. apply (loop_ok_low max_peers bm_bytes _ 0); [lia|]. apply (start_ok max_peers); [lia|done].
  - rewrite (flushed max_peers bm_bytes s _ L), V by done. apply (view_start max_peers).
Qed.

Section crash.
Context (crc32c : al_transaction_on_disk -> Z).

End crash.

(** A bitmap for two peers and two extents. *)
Definition demo_meta : meta := mk_meta MDF_PRIMARY_IND 2 1 8 512 (al_disk w4) (repeat 0 512).

Lemma demo_hot_ok : Forall (hot_ok 2 512) (replay_al_84 demo_crc 1 8 (al_disk w4) (repeat U32_MAX AL_EXTENTS_MAX)).2.
Proof.
  assert (forallb (fun x => (x =? U32_MAX) || (x =? 0))
            (replay_al_84 demo_crc 1 8 (al_disk w4) (repeat U32_MAX AL_EXTENTS_MAX)).2 = true) as H by (by vm_compute).
  rewrite forallb_forall in H. apply Forall_forall. intros x Hx. apply list_elem_of_In, H, orb_true_iff in Hx as [Hx|Hx]; apply Z.eqb_eq in Hx.
  - by left.
  - right. rewrite Hx. by vm_compute.
Qed.


(** With 31 peers, extent 1082402 of a volume of about 4.2 TiB. *)
Lemma apply_al_overflow_witness : exists bm', apply_al 31 (2 ^ 33) [1082402; U32_MAX] (repeat 0 (Z.to_nat (2 ^ 33))) = Some bm' /\
  forall k, within (1082402 * (128 * 31)) (128 * 31) k = true -> bm' !! k = repeat 0 (Z.to_nat (2 ^ 33)) !! k.
Proof.
  apply (proj2 (apply_al_overflow 31 (2 ^ 33) [1082402; U32_MAX] (repeat 0 (Z.to_nat (2 ^ 33))) ltac:(lia) ltac:(lia)
    ltac:(rewrite repeat_length; apply Z2Nat.id; lia)
    ltac:(apply Forall_cons; split; [intros _; unfold whole; by vm_compute|apply Forall_singleton; done])) 1082402 []); [done|by vm_compute|by vm_compute|by vm_compute].
Defined.

(** 31 peers, a volume of 4 MiB and 4 KiB: the bitmap ends within the last extent, and [apply_al] aborts. *)
Example partial_extent_aborts : apply_al 31 4608 [1] (repeat 0 4608) = None.
Proof. by vm_compute. Qed.

End AlApply.
