(* ===== verification/SyncBits.v ===== *)
(** * In sync or not (src/bsr/bsr_actlog.c)

    Which blocks a peer misses: requests, acknowledgements and resync mark
    ranges of sectors in sync or out of sync.  [__bsr_change_sync] and
    [bsr_set_sync] round the sectors to bits, [update_sync_bits] changes the
    bitmap extent by extent and keeps the counts of the resync extents that are
    cached.  The change of the bitmap and of the cached count are one step here. *)

From S2P Require Import Prelude LruCache Bitmap BitmapApi State ActLog.

Module SyncBits.
Import LruCache Bitmap BitmapApi State ActLog.

(** ** State *)

Inductive update_sync_bits_mode := RECORD_RS_FAILED | SET_OUT_OF_SYNC | SET_IN_SYNC.

Global Instance update_sync_bits_mode_eq_dec : EqDecision update_sync_bits_mode.
Proof. solve_decision. Defined.

(** Conversion to a signed 64-bit [long], and the comparisons of times. *)
Definition s64 (x : Z) : Z := wrap 64 (x + 2 ^ 63) - 2 ^ 63.
Definition time_after (a b : Z) : bool := s64 (b - a) <? 0.
Definition time_after_eq (a b : Z) : bool := 0 <=? s64 (a - b).

(** What a peer device has for resync: its extents, its slot of the bitmap, the
    progress marks and the blocks that failed. *)
Record sync_peer := mk_sp {
  sp_rs : rs_peer;
  sp_index : Z;
  sp_repl : bsr_repl_state;
  sp_rs_failed : Z;
  sp_rs_done : bool;
  sp_last_writeout : Z;
  sp_last_mark : nat;
  sp_mark_time : list Z;
  sp_mark_left : list Z }.

Definition sp_set_rs (p : sync_peer) (r : rs_peer) : sync_peer :=
  mk_sp r (sp_index p) (sp_repl p) (sp_rs_failed p) (sp_rs_done p) (sp_last_writeout p) (sp_last_mark p)
    (sp_mark_time p) (sp_mark_left p).
Definition sp_set_failed (p : sync_peer) (n : Z) : sync_peer :=
  mk_sp (sp_rs p) (sp_index p) (sp_repl p) n (sp_rs_done p) (sp_last_writeout p) (sp_last_mark p)
    (sp_mark_time p) (sp_mark_left p).
Definition sp_set_done (p : sync_peer) : sync_peer :=
  mk_sp (sp_rs p) (sp_index p) (sp_repl p) (sp_rs_failed p) true (sp_last_writeout p) (sp_last_mark p)
    (sp_mark_time p) (sp_mark_left p).
Definition sp_set_marks (p : sync_peer) (n : nat) (time left : list Z) : sync_peer :=
  mk_sp (sp_rs p) (sp_index p) (sp_repl p) (sp_rs_failed p) (sp_rs_done p) (sp_last_writeout p) n time left.

Definition set_lru (r : rs_peer) (lc : lru_cache) : rs_peer :=
  mk_rs_peer (rs_version r) lc (bmes r) (resync_wenr r) (resync_locked r).
Definition upd_bme (r : rs_peer) (i : nat) (f : bm_extent -> bm_extent) : rs_peer :=
  mk_rs_peer (rs_version r) (resync_lru r) (alter f i (bmes r)) (resync_wenr r) (resync_locked r).

(** [bsr_attach_peer_device]: [plan] and [alloc] say that the memory for the plan of the resync controller and
    for the extents is there. *)
Definition bsr_attach_peer_device (plan alloc : bool) (r : rs_peer) : Z * rs_peer :=
  if negb plan then (- ENOMEM, r)
  else match lc_create alloc 1 61 with
       | Some lc => (0, mk_rs_peer (rs_version r) lc (repeat (mk_bme 0 0 0) (nr_elements lc)) (resync_wenr r) (resync_locked r))
       | None => (- ENOMEM, r)
       end.

(** The rest of the node as this code sees it: [jiffies], the tick rate, whether [get_ldev] and
    [get_ldev_if_state(D_NEGOTIATING)] succeed, the capacity, the role, memory, and for the
    wake-up of writers the extents in use and the congestion limit. *)
Record sync_env := mk_se {
  se_now : Z;
  se_HZ : Z;
  se_ldev : bool;
  se_negotiated : bool;
  se_capacity : Z;
  se_primary : bool;
  se_alloc : bool;
  se_al_used : Z;
  se_cong_extents : Z;
  se_monitor : bool }.

(** Effects: [w_update_peers] queued for an extent, [RS_PROGRESS] posted, [al_wait] woken. *)
Inductive sync_effect := S_update_peers (enr : Z) | S_progress | S_wake | S_message.

(** ** Sectors, bits and extents *)

Definition BM_EXT_SHIFT : Z := 27.
Definition BM_BIT_TO_EXT (b : Z) : Z := Z.shiftr b (BM_EXT_SHIFT - BM_BLOCK_SHIFT).
Definition BM_BLOCKS_PER_BM_EXT_MASK : Z := Z.shiftl 1 (BM_EXT_SHIFT - BM_BLOCK_SHIFT) - 1.
Definition BSR_MAX_BATCH_BIO_SIZE : Z := 64 / 2 * Z.shiftl 1 AL_EXTENT_SHIFT.
Definition BSR_SYNC_MARKS : nat := 8.

Definition bm_e_weight (bm : bsr_bitmap) (idx enr : Z) : option Z :=
  let start := u64 (Z.shiftl enr (BM_EXT_SHIFT - BM_BLOCK_SHIFT)) in
  let end_ := u64 (Z.shiftl (enr + 1) (BM_EXT_SHIFT - BM_BLOCK_SHIFT) - 1) in
  '(r, _, _) ← bsr_bm_count_bits (Some bm) idx start end_;
  Some (s32 (u32 r)).

Definition is_sync_source (s : bsr_repl_state) : bool :=
  match s with L_SYNC_SOURCE | L_PAUSED_SYNC_S | L_WF_BITMAP_S => true | _ => false end.
Definition is_sync_target_state (s : bsr_repl_state) : bool :=
  match s with L_SYNC_TARGET | L_PAUSED_SYNC_T => true | _ => false end.

(** ** One extent *)

Definition adjust_count (mode : update_sync_bits_mode) (count : Z) (x : bm_extent) : bm_extent :=
  match mode with
  | SET_IN_SYNC => mk_bme (s32 (rs_left x - count)) (rs_failed x) (bme_flags x)
  | SET_OUT_OF_SYNC => mk_bme (s32 (rs_left x + count)) (rs_failed x) (bme_flags x)
  | RECORD_RS_FAILED => mk_bme (rs_left x) (s32 (rs_failed x + count)) (bme_flags x)
  end.

(** The new values of the element at [i], and whether its label is to be committed. *)
Definition update_bme (env : sync_env) (bm : bsr_bitmap) (idx : Z) (mode : update_sync_bits_mode) (enr count : Z)
    (e : lc_element) (r : rs_peer) (i : nat) : option rs_peer :=
  if lc_number e =? enr then
    let r := upd_bme r i (adjust_count mode count) in
    if rs_left (bme r i) <? rs_failed (bme r i) then
      w ← bm_e_weight bm idx enr; Some (upd_bme r i (fun x => mk_bme w (rs_failed x) (bme_flags x)))
    else Some r
  else
    w ← bm_e_weight bm idx enr;
    let r := upd_bme r i (fun _ => mk_bme w (if decide (mode = RECORD_RS_FAILED) then count else 0) 0) in
    lc ← lc_committed (se_monitor env) (resync_lru r);
    Some (set_lru r lc).

(** An extent with no more bits than failed: a source tells the peers. *)
Definition report_extent (env : sync_env) (p : sync_peer) (i : nat) (r : rs_peer) : bool * sync_peer * list sync_effect :=
  if rs_left (bme r i) <=? rs_failed (bme r i) then
    if se_primary env || is_sync_source (sp_repl p) then
      (true, sp_set_rs p (upd_bme r i (fun x => mk_bme (rs_left x) 0 (bme_flags x))),
       [if se_alloc env then S_update_peers (lc_number (elem (resync_lru r) i)) else S_message])
    else (true, sp_set_rs p r, [])
  else (false, sp_set_rs p r, []).

(** [None] is [BUG_ON] in the cache.  The result: whether the extent has no more bits than failed. *)
Definition update_rs_extent (env : sync_env) (bm : bsr_bitmap) (p : sync_peer) (enr count : Z)
    (mode : update_sync_bits_mode) : option (bool * sync_peer * list sync_effect) :=
  '(found, lc) ← (if decide (mode = SET_OUT_OF_SYNC) then Some (lc_find (resync_lru (sp_rs p)) enr, resync_lru (sp_rs p))
                  else lc_get (se_monitor env) (resync_lru (sp_rs p)) enr);
  match found with
  | Some i =>
    r ← update_bme env bm (sp_index p) mode enr count (elem lc i) (set_lru (sp_rs p) lc) i;
    r ← (if decide (mode = SET_OUT_OF_SYNC) then Some r
         else '(_, lc) ← lc_put (resync_lru r) i; Some (set_lru r lc));
    Some (report_extent env p i r)
  | None => Some (false, sp_set_rs p (set_lru (sp_rs p) lc), if decide (mode = SET_OUT_OF_SYNC) then [] else [S_message])
  end.

(** ** A range of bits *)

Definition bsr_advance_rs_marks (env : sync_env) (still_to_go : Z) (p : sync_peer) : sync_peer :=
  let last := nth (sp_last_mark p) (sp_mark_time p) 0 in
  let next := ((sp_last_mark p + 1) mod BSR_SYNC_MARKS)%nat in
  if time_after_eq (se_now env) (u64 (last + 3 * se_HZ env)) then
    if negb (nth (sp_last_mark p) (sp_mark_left p) 0 =? still_to_go) &&
       match sp_repl p with L_PAUSED_SYNC_T | L_PAUSED_SYNC_S => false | _ => true end
    then sp_set_marks p next (<[next := se_now env]> (sp_mark_time p)) (<[next := still_to_go]> (sp_mark_left p))
    else p
  else p.

Definition lazy_bitmap_update_due (env : sync_env) (p : sync_peer) : bool :=
  time_after (se_now env) (u64 (sp_last_writeout p + 2 * se_HZ env)).

Definition maybe_schedule_on_disk_bitmap_update (env : sync_env) (rs_done : bool) (p : sync_peer)
    : sync_peer * list sync_effect :=
  if rs_done then
    if (rs_version (sp_rs p) <=? 95) || is_sync_target_state (sp_repl p) then
      if sp_rs_done p then (p, []) else (sp_set_done p, [S_progress])
    else (p, [S_progress])
  else if negb (lazy_bitmap_update_due env p) then (p, [])
  else (p, [S_progress]).

Definition bsr_bm_total_weight (env : sync_env) (bm : bsr_bitmap) (idx : Z) : option Z :=
  if idx =? -1 then Some 0
  else if negb (se_negotiated env) then Some 0
  else _bsr_bm_total_weight (Some bm) idx.

Definition sync_op (mode : update_sync_bits_mode) :=
  match mode with
  | RECORD_RS_FAILED => bsr_bm_count_bits
  | SET_IN_SYNC => bsr_bm_clear_bits
  | SET_OUT_OF_SYNC => bsr_bm_set_bits
  end.

(** The loop over the resync extents of the range: the bits changed, the extents that became clean. *)
Fixpoint sync_loop (fuel : nat) (env : sync_env) (mode : update_sync_bits_mode) (sbnr ebnr count cleared : Z)
    (bm : bsr_bitmap) (p : sync_peer) (log : list sync_effect) : option (Z * Z * bsr_bitmap * sync_peer * list sync_effect) :=
  match fuel with
  | O => None
  | S fuel =>
    if ebnr <? sbnr then Some (count, cleared, bm, p, log)
    else
      let tbnr := Z.min ebnr (Z.lor sbnr BM_BLOCKS_PER_BM_EXT_MASK) in
      '(c, b, _) ← sync_op mode (Some bm) (sp_index p) sbnr tbnr;
      bm ← b;
      let c := s32 c in
      if c =? 0 then sync_loop fuel env mode (u64 (tbnr + 1)) ebnr count cleared bm p log
      else
        '(clean, p, log') ← update_rs_extent env bm p (u32 (BM_BIT_TO_EXT sbnr)) c mode;
        sync_loop fuel env mode (u64 (tbnr + 1)) ebnr (u64 (count + c)) (u32 (cleared + b2z clean)) bm p (log ++ log')
  end.

(** One more than the number of resync extents of a range. *)
Definition extent_fuel (sbnr ebnr : Z) : nat := S (Z.to_nat (BM_BIT_TO_EXT ebnr - BM_BIT_TO_EXT sbnr + 1)).

(** What follows the loop. *)
Definition sync_progress (env : sync_env) (mode : update_sync_bits_mode) (count cleared : Z) (bm : bsr_bitmap) (p : sync_peer)
    : option (sync_peer * list sync_effect) :=
  if negb (count =? 0) then
    if decide (mode = SET_OUT_OF_SYNC) then Some (p, [S_wake])
    else
      let p := if decide (mode = RECORD_RS_FAILED) then sp_set_failed p (u64 (sp_rs_failed p + count)) else p in
      still_to_go ← bsr_bm_total_weight env bm (sp_index p);
      let rs_is_done := still_to_go <=? sp_rs_failed p in
      let rs_is_done :=
        if (113 <=? rs_version (sp_rs p)) && rs_is_done && match sp_repl p with L_SYNC_SOURCE => true | _ => false end
        then false else rs_is_done in
      let p := if decide (mode = SET_IN_SYNC) then bsr_advance_rs_marks env still_to_go p else p in
      if (bool_decide (mode = SET_IN_SYNC) && negb (cleared =? 0)) || rs_is_done then
        let '(p, log) := maybe_schedule_on_disk_bitmap_update env rs_is_done p in Some (p, log ++ [S_wake])
      else Some (p, [S_wake])
  else
    match sp_repl p, mode with
    | L_AHEAD, SET_OUT_OF_SYNC => Some (p, if se_al_used env <? se_cong_extents env then [S_wake] else [])
    | _, _ => Some (p, [])
    end.

Definition update_sync_bits (env : sync_env) (bm : bsr_bitmap) (p : sync_peer) (sbnr ebnr : Z) (mode : update_sync_bits_mode)
    : option (Z * bsr_bitmap * sync_peer * list sync_effect) :=
  '(count, cleared, bm, p, log) ← sync_loop (extent_fuel sbnr ebnr) env mode sbnr ebnr 0 0 bm p [];
  '(p, log') ← sync_progress env mode count cleared bm p;
  Some (count, bm, p, log ++ log').

(** ** A range of sectors *)

Definition plausible_request_size (size : Z) : bool :=
  (0 <? size) && (size <=? BSR_MAX_BATCH_BIO_SIZE) && (Z.land size 511 =? 0).

(** The bits of a range for one peer: first and last, or none. *)
Definition change_sync_bits (capacity sector size : Z) (mode : update_sync_bits_mode) : option (Z * Z) :=
  let esector := u64 (sector + Z.shiftr size 9 - 1) in
  if negb (sector <? capacity) then None
  else
    let esector := if negb (esector <? capacity) then capacity - 1 else esector in
    let lbnr := BM_SECT_TO_BIT (capacity - 1) in
    if decide (mode = SET_IN_SYNC) then
      if esector <? BM_SECT_PER_BIT - 1 then None
      else
        let ebnr := if esector =? capacity - 1 then lbnr else BM_SECT_TO_BIT (esector - (BM_SECT_PER_BIT - 1)) in
        Some (BM_SECT_TO_BIT (u64 (sector + BM_SECT_PER_BIT - 1)), ebnr)
    else Some (BM_SECT_TO_BIT sector, BM_SECT_TO_BIT esector).

Definition __bsr_change_sync (env : sync_env) (bm : bsr_bitmap) (p : sync_peer) (sector size : Z) (mode : update_sync_bits_mode)
    : option (Z * bsr_bitmap * sync_peer * list sync_effect) :=
  if bool_decide (mode = SET_OUT_OF_SYNC) && (size =? 0) then Some (0, bm, p, [])
  else if negb (plausible_request_size size) then Some (0, bm, p, [S_message])
  else if negb (se_ldev env) then Some (0, bm, p, [])
  else
    match change_sync_bits (se_capacity env) sector size mode with
    | None => Some (0, bm, p, [])
    | Some (sbnr, ebnr) => update_sync_bits env bm p sbnr ebnr mode
    end.

Definition bsr_set_in_sync env bm p sector size := __bsr_change_sync env bm p sector size SET_IN_SYNC.
Definition bsr_set_out_of_sync env bm p sector size := __bsr_change_sync env bm p sector size SET_OUT_OF_SYNC.
Definition bsr_rs_failed_io env bm p sector size := __bsr_change_sync env bm p sector size RECORD_RS_FAILED.

(** ** Several slots at once *)

(** The bits of [bsr_set_sync]: those to set, and those to clear if there are any. *)
Definition set_sync_bits (capacity sector esector : Z) : Z * Z * option (Z * Z) :=
  let clear_start := BM_SECT_TO_BIT (u64 (sector + BM_SECT_PER_BIT - 1)) in
  let clear :=
    if esector =? capacity - 1 then Some (clear_start, BM_SECT_TO_BIT esector)
    else
      let clear_end := BM_SECT_TO_BIT (u64 (esector + 1)) in
      if clear_end =? 0 then None else Some (clear_start, clear_end - 1) in
  (BM_SECT_TO_BIT sector, BM_SECT_TO_BIT esector,
   match clear with Some (s, e) => if s <=? e then clear else None | None => None end).

Definition test_and_clear_bit (n mask : Z) : bool * Z := (Z.testbit mask n, Z.clearbit mask n).

(** The peer devices. *)
Fixpoint set_sync_peers (env : sync_env) (bits : Z) (r : Z * Z * option (Z * Z)) (mask set_bits : Z) (bm : bsr_bitmap)
    (ps : list sync_peer) : option (Z * Z * bsr_bitmap * list sync_peer * list sync_effect) :=
  match ps with
  | [] => Some (mask, set_bits, bm, [], [])
  | p :: ps =>
    let go mask set_bits bm p log :=
      '(mask, set_bits, bm, ps, log') ← set_sync_peers env bits r mask set_bits bm ps;
      Some (mask, set_bits, bm, p :: ps, log ++ log') in
    if sp_index p =? -1 then go mask set_bits bm p []
    else
      let '(hit, mask) := test_and_clear_bit (sp_index p) mask in
      if negb hit then go mask set_bits bm p []
      else
        let '(set_start, set_end, clear) := r in
        if Z.testbit bits (sp_index p) then
          '(count, bm, p, log) ← update_sync_bits env bm p set_start set_end SET_OUT_OF_SYNC;
          go mask (if 0 <? count then Z.lor set_bits (Z.shiftl 1 (sp_index p)) else set_bits) bm p log
        else
          match clear with
          | Some (s, e) => '(_, bm, p, log) ← update_sync_bits env bm p s e SET_IN_SYNC; go mask set_bits bm p log
          | None => go mask set_bits bm p []
          end
  end.

(** [for_each_set_bit]: the slots without a peer device. *)
Fixpoint set_sync_slots (bits : Z) (r : Z * Z * option (Z * Z)) (mask : Z) (slots : list Z) (bm : bsr_bitmap) : option bsr_bitmap :=
  match slots with
  | [] => Some bm
  | idx :: slots =>
    if negb (Z.testbit mask idx) then set_sync_slots bits r mask slots bm
    else
      let '(set_start, set_end, clear) := r in
      bm ← (if Z.testbit bits idx then '(_, b, _) ← bsr_bm_set_bits (Some bm) idx set_start set_end; b
            else match clear with
                 | Some (s, e) => '(_, b, _) ← bsr_bm_clear_bits (Some bm) idx s e; b
                 | None => Some bm
                 end);
      set_sync_slots bits r mask slots bm
  end.

Definition all_slots : list Z := map Z.of_nat (seq 0 64).

Definition bsr_set_sync (env : sync_env) (bm : bsr_bitmap) (ps : list sync_peer) (sector size bits mask : Z)
    : option (Z * bsr_bitmap * list sync_peer * list sync_effect) :=
  if (size <=? 0) || negb (Z.land size 511 =? 0) then Some (0, bm, ps, [S_message])
  else if negb (se_ldev env) then Some (0, bm, ps, [])
  else
    let mask := Z.land mask (u64 (s32 (s32 (Z.shiftl 1 (bm_max_peers bm)) - 1))) in
    let esector := u64 (sector + Z.shiftr size 9 - 1) in
    if negb (sector <? se_capacity env) then Some (0, bm, ps, [])
    else
      let esector := if negb (esector <? se_capacity env) then se_capacity env - 1 else esector in
      let r := set_sync_bits (se_capacity env) sector esector in
      '(mask, set_bits, bm, ps, log) ← set_sync_peers env bits r mask 0 bm ps;
      bm ← set_sync_slots bits r mask all_slots bm;
      Some (set_bits, bm, ps, log).

Definition bsr_set_all_out_of_sync env bm ps sector size :=
  bsr_set_sync env bm ps sector size BSR_END_OF_BITMAP BSR_END_OF_BITMAP.

(** ** The bitmap of the file system *)

(** [SetOOSFromBitmap]: the bits of the buffer in order, [start] the first bit of the current run. *)
Fixpoint oos_runs (env : sync_env) (buffer : list bool) (pos : Z) (start : option Z) (count : Z) (bm : bsr_bitmap) (p : sync_peer)
    : option (Z * bsr_bitmap * sync_peer) :=
  match buffer with
  | [] =>
    match start with
    | Some s => '(c, bm, p, _) ← update_sync_bits env bm p s (u64 (pos - 1)) SET_OUT_OF_SYNC; Some (u64 (count + c), bm, p)
    | None => Some (count, bm, p)
    end
  | b :: buffer =>
    match start, b with
    | None, true => oos_runs env buffer (pos + 1) (Some pos) count bm p
    | Some s, false =>
      '(c, bm, p, _) ← update_sync_bits env bm p s (pos - 1) SET_OUT_OF_SYNC;
      oos_runs env buffer (pos + 1) None (u64 (count + c)) bm p
    | _, _ => oos_runs env buffer (pos + 1) start count bm p
    end
  end.

Definition byte_bits (b : Z) : list bool := map (fun k => Z.testbit b (Z.of_nat k)) (seq 0 8).

Definition SetOOSFromBitmap (env : sync_env) (buffer : list Z) (bm : bsr_bitmap) (p : sync_peer) : option (Z * bsr_bitmap * sync_peer) :=
  oos_runs env (concat (map byte_bits buffer)) 0 None 0 bm p.

End SyncBits.
