(* ===== verification/SyncBitsOk.v ===== *)
(** * Counting and clearing extents (src/bsr/bsr_actlog.c)

    What [update_sync_bits] does to the bitmap and to the resync extents. *)

From stdpp Require Import relations.
From S2P Require Import Prelude LruCache CalmCache Bitmap BitmapApi State ActLog SyncBits.

Module SyncBitsOk.
Import Bitmap BitmapApi State LruCache CalmCache ActLog SyncBits.

(** ** The weight of an extent *)

Definition weight (bm : bsr_bitmap) (idx x : Z) : Z :=
  if x <? 0 then 0 else count_true (bm_bit bm idx) (32768 * x) (Z.to_nat (last_bit bm (32768 * x + 32767) + 1 - 32768 * x)).

Lemma weight_bounds bm idx x : 0 <= weight bm idx x <= 32768.
Proof. unfold weight. destruct (x <? 0); [lia|]. pose proof (count_true_bounds (bm_bit bm idx) (32768 * x) (Z.to_nat (last_bit bm (32768 * x + 32767) + 1 - 32768 * x))). unfold last_bit in *. lia. Qed.

Lemma bm_e_weight_ok bm idx x : wf bm -> 0 <= idx < bm_max_peers bm -> 0 <= x < 2 ^ 32 -> bm_e_weight bm idx x = Some (weight bm idx x).
Proof.
  intros Hwf Hi Hx. unfold bm_e_weight, bsr_bm_count_bits, bm_op. change (BM_EXT_SHIFT - BM_BLOCK_SHIFT) with 15.
  rewrite !Z.shiftl_mul_pow2 by done. rewrite !u64_id by lia. rewrite __bm_op_wf by done.
  destruct (____bm_op_reads bm idx (x * 2 ^ 15) ((x + 1) * 2 ^ 15 - 1) BM_OP_COUNT []) as (r & out & -> & ->);
    [done|apply count_args; lia|done|]. cbn [mbind option_bind].
  unfold op_count. change (fun b => Bitmap.tally BM_OP_COUNT (bm_bit bm idx b) (inp BM_OP_COUNT [] (b - x * 2 ^ 15))) with (bm_bit bm idx).
  replace (x * 2 ^ 15) with (32768 * x) by lia. replace ((x + 1) * 2 ^ 15 - 1) with (32768 * x + 32767) by lia.
  assert (count_true (bm_bit bm idx) (32768 * x) (Z.to_nat (last_bit bm (32768 * x + 32767) + 1 - 32768 * x)) = weight bm idx x) as ->.
  { unfold weight. by rewrite (proj2 (Z.ltb_ge _ _)) by lia. }
  pose proof (weight_bounds bm idx x). f_equal. rewrite u32_id by lia. apply s32_id. lia.
Qed.

Lemma weight_written op bm idx s E bm' x :
  fills op -> written op bm idx s E [] bm' -> 0 <= idx < bm_max_peers bm -> 0 <= x -> 32768 * x <= s -> E <= 32768 * x + 32767 -> E < bm_bits bm ->
  weight bm' idx x = weight bm idx x + (if decide (op = BM_OP_CLEAR) then -1 else 1) * op_count op bm idx s E [].
Proof.
  intros Hf Hw Hi Hx Hs HE Hb. pose proof Hw as [Wb _ _ (Wn & _) _]. unfold weight, last_bit. rewrite Wn.
  rewrite (proj2 (Z.ltb_ge _ _)) by lia. destruct (Z.le_gt_cases s E) as [Hle|Hgt].
  - apply (count_true_change (bm_bit bm' idx) (bm_bit bm idx) (fun b => Bitmap.tally op (bm_bit bm idx b) (inp op [] (b - s)))); [lia|lia| |].
    + intros b Hb'. rewrite Wb by lia. unfold op_bit. split_cmp; rewrite ?andb_false_r; try done; lia.
    + intros b Hb'. rewrite Wb by lia. unfold op_bit. rewrite Z.eqb_refl. split_cmp; try lia. cbn [andb].
      destruct Hf as [-> | ->]; cbn; by destruct (bm_bit bm idx b).
  - rewrite op_count_empty by done. rewrite Z.mul_0_r, Z.add_0_r. apply count_true_ext. intros b Hb'. rewrite Wb by lia.
    unfold op_bit. split_cmp; rewrite ?andb_false_r; done || lia.
Qed.

Lemma weight_written_other op bm idx s E bm' p y :
  written op bm idx s E [] bm' -> 0 <= p < bm_max_peers bm ->
  p <> idx \/ 32768 * y + 32767 < s \/ E < 32768 * y ->
  weight bm' p y = weight bm p y.
Proof.
  intros [Wb _ _ (Wn & _) _] Hp Ho. unfold weight, last_bit. rewrite Wn. destruct (Z.ltb_spec y 0); [done|]. apply count_true_ext. intros b Hb. rewrite Wb by lia.
  unfold op_bit. destruct (Z.eqb_spec p idx) as [->|]; [|done]. split_cmp; rewrite ?andb_false_r; done || lia.
Qed.

(** ** Resync extents *)

Lemma bme_upd r i f j : (i < length (bmes r))%nat -> bme (upd_bme r i f) j = if decide (j = i) then f (bme r i) else bme r j.
Proof.
  intros Hl. unfold bme, upd_bme. cbn [bmes]. rewrite !nth_lookup. destruct (decide (j = i)) as [->|].
  - rewrite list_lookup_alter_eq. apply lookup_lt_is_Some in Hl as [x Hx]. by rewrite Hx.
  - by rewrite list_lookup_alter_ne.
Qed.

(** The cache of resync extents outside of the critical sections. *)
Record rs_ok (r : rs_peer) : Prop := mk_rs_ok {
  rk_calm : calm (resync_lru r);
  rk_over : no_overflow (resync_lru r);
  rk_len : length (bmes r) = nr_elements (resync_lru r) }.

(** After [bsr_attach_peer_device]. *)
Lemma attach_ok r r' : bsr_attach_peer_device true true r = (0, r') ->
  rs_ok r' /\ rs_version r' = rs_version r /\ resync_wenr r' = resync_wenr r /\ LC_LOCKED (flags (resync_lru r')) = false /\
  (forall i e, elements (resync_lru r') !! i = Some e -> e = mk_element 0 LC_FREE LC_FREE) /\ forall i, bme_flags (bme r' i) = 0.
Proof.
  unfold bsr_attach_peer_device. destruct (lc_create true 1 61) as [lc|] eqn:E; [|done]. cbn [negb]. intros [= <-].
  assert (lc = fresh 61 1 stats0) as -> by (unfold lc_create in E; cbn [Z.ltb LC_MAX_ACTIVE] in E; by injection E). clear E.
  assert (forall i e, elements (fresh 61 1 stats0) !! i = Some e -> e = mk_element 0 LC_FREE LC_FREE) as Hf by (by intros i e [-> _]%lookup_replicate).
  split_and!; try done.
  - split; [split; [by apply fresh_inv|done|]|..]; try (intros i e He; by rewrite (Hf i e He)). done.
  - intros i. unfold bme. cbn [bmes]. destruct (nth_in_or_default i (repeat (mk_bme 0 0 0) (nr_elements (fresh 61 1 stats0))) (mk_bme 0 0 0)) as [Hin| ->]; [|done].
    apply repeat_spec in Hin. by rewrite Hin.
Qed.

(** The cached counts are the weights [W]. *)
Record left_ok (W : Z -> Z) (r : rs_peer) : Prop := mk_left_ok {
  lk_roomy : roomy (resync_lru r);
  lk_left : forall i e, elements (resync_lru r) !! i = Some e -> lc_number e <> LC_FREE -> rs_left (bme r i) = W (lc_number e) }.

(** What an update of the count of extent [enr] leaves: the extents as they were, or an unused
    one changed to [enr]. *)
Definition updated (enr : Z) (r r' : rs_peer) : Prop :=
  rs_version r' = rs_version r /\ resync_wenr r' = resync_wenr r /\ resync_locked r' = resync_locked r /\
  LC_LOCKED (flags (resync_lru r')) = LC_LOCKED (flags (resync_lru r)) /\
  (elements (resync_lru r') = elements (resync_lru r) /\
     (forall j, bme_flags (bme r' j) = bme_flags (bme r j)) /\
     (forall j e, elements (resync_lru r) !! j = Some e -> lc_number e <> enr -> rs_left (bme r' j) = rs_left (bme r j)) \/
   exists i e, elements (resync_lru r) !! i = Some e /\ refcnt e = 0 /\ absent (resync_lru r) enr /\
     elements (resync_lru r') = <[i := mk_element 0 enr enr]> (elements (resync_lru r)) /\
     bme_flags (bme r' i) = 0 /\ forall j, j <> i -> bme r' j = bme r j).

Lemma updated_left enr W W' r r' : left_ok W r -> updated enr r r' -> LC_STARVING (flags (resync_lru r')) = false ->
  same_limits (resync_lru r) (resync_lru r') ->
  (forall i e, elements (resync_lru r') !! i = Some e -> lc_number e = enr -> rs_left (bme r' i) = W' enr) ->
  (forall x, x <> enr -> W' x = W x) -> left_ok W' r'.
Proof.
  intros [[R1 R2 R3 (u & eu & Hu & Hr)] L] (_ & _ & _ & _ & U) Hs [Hl Hm] He HW. split.
  - split; [done|congruence|congruence|]. destruct U as [(-> & _)|(i & e & Hi & Hr' & _ & -> & _)]; [by exists u, eu|].
    exists i, (mk_element 0 enr enr). split; [|done]. apply list_lookup_insert_eq. by eapply lookup_lt_Some.
  - intros i e Hi Hf. destruct (decide (lc_number e = enr)) as [E|Hne]; [rewrite E; by apply (He i e)|]. rewrite (HW _ Hne).
    destruct U as [(E & _ & U)|(j & ej & Hj & _ & _ & E & _ & U)]; rewrite E in Hi.
    + rewrite (U i e Hi Hne). by apply L.
    + apply list_lookup_insert_Some in Hi as [(-> & <- & _)|[Hij Hi]]; [done|]. rewrite U by done. by apply L.
Qed.

Definition mode_delta (mode : update_sync_bits_mode) (count : Z) : Z :=
  match mode with SET_IN_SYNC => - count | SET_OUT_OF_SYNC => count | RECORD_RS_FAILED => 0 end.

(** Only the element at [i] carries something else. *)
Record bme_changed (i : nat) (r r' : rs_peer) : Prop := mk_bc {
  bc_version : rs_version r' = rs_version r;
  bc_wenr : resync_wenr r' = resync_wenr r;
  bc_locked : resync_locked r' = resync_locked r;
  bc_len : length (bmes r') = length (bmes r);
  bc_other : forall j, j <> i -> bme r' j = bme r j }.

Lemma bc_trans i a b c : bme_changed i a b -> bme_changed i b c -> bme_changed i a c.
Proof. intros [A1 A2 A3 A4 A5] [B1 B2 B3 B4 B5]. split; try congruence. intros j Hj. by rewrite B5, A5. Qed.

Lemma bc_upd i f r : (i < length (bmes r))%nat -> bme_changed i r (upd_bme r i f).
Proof. intros Hl. split; try done; [apply length_alter|]. intros j Hj. rewrite bme_upd by done. by rewrite decide_False. Qed.

Lemma bc_lru i r lc : bme_changed i r (set_lru r lc).
Proof. by split. Qed.

Section extent.
Context (env : sync_env) (bm : bsr_bitmap) (idx enr : Z).
Context (Hwf : wf bm) (Hidx : 0 <= idx < bm_max_peers bm) (Henr : 0 <= enr < LC_FREE).

Lemma enr_weight : bm_e_weight bm idx enr = Some (weight bm idx enr).
Proof. apply bm_e_weight_ok; [done..|]. unfold LC_FREE, U32_MAX in Henr. lia. Qed.

Lemma update_bme_hit mode count e r i : (i < length (bmes r))%nat -> lc_number e = enr -> 0 <= count <= 32768 ->
  exists r', update_bme env bm idx mode enr count e r i = Some r' /\ resync_lru r' = resync_lru r /\ bme_changed i r r' /\
    bme_flags (bme r' i) = bme_flags (bme r i) /\
    (0 <= rs_left (bme r i) <= 32768 -> rs_left (bme r i) + mode_delta mode count = weight bm idx enr ->
     rs_left (bme r' i) = weight bm idx enr).
Proof.
  intros Hl He Hc. unfold update_bme. rewrite He, Z.eqb_refl. cbv zeta. set (r1 := upd_bme r i (adjust_count mode count)).
  pose proof (bc_upd i (adjust_count mode count) r Hl) as B1. fold r1 in B1.
  assert (bme r1 i = adjust_count mode count (bme r i)) as E1 by (unfold r1; rewrite bme_upd by done; by rewrite decide_True).
  assert (bme_flags (bme r1 i) = bme_flags (bme r i)) as F1 by (rewrite E1; by destruct mode).
  destruct (_ <? _).
  - rewrite enr_weight. cbn [mbind option_bind]. eexists. split; [reflexivity|]. split; [done|].
    assert (i < length (bmes r1))%nat as Hl1 by (rewrite (bc_len _ _ _ B1); done).
    split; [eapply bc_trans; [exact B1|by apply bc_upd]|]. rewrite bme_upd by done. rewrite decide_True by done. done.
  - eexists. split; [reflexivity|]. split; [done|]. split; [done|]. split; [done|]. intros Hr Hw. rewrite E1.
    destruct mode; cbn [adjust_count rs_left mode_delta] in *; rewrite ?s32_id by lia; lia.
Qed.

Lemma update_bme_new mode count e r i : (i < length (bmes r))%nat -> lc_number e <> enr -> inv (resync_lru r) -> idle (resync_lru r) ->
  exists r', update_bme env bm idx mode enr count e r i = Some r' /\ bme_changed i r r' /\
    bme_flags (bme r' i) = 0 /\ rs_left (bme r' i) = weight bm idx enr /\
    calm (resync_lru r') /\ same_limits (resync_lru r) (resync_lru r') /\ flags (resync_lru r') = flags (resync_lru r) /\
    elements (resync_lru r') = commit_elem <$> elements (resync_lru r).
Proof.
  intros Hl He Hi Hid. unfold update_bme. rewrite (proj2 (Z.eqb_neq _ _)) by done. rewrite enr_weight. cbn [mbind option_bind].
  set (x := mk_bme _ _ _). destruct (commit_calm (se_monitor env) (resync_lru (upd_bme r i (fun _ => x))) Hi Hid) as (lc & E & C & L & F & El).
  rewrite E. cbn [mbind option_bind]. eexists. split; [reflexivity|].
  split; [eapply bc_trans; [by apply bc_upd|apply bc_lru]|].
  assert (bme (set_lru (upd_bme r i (fun _ => x)) lc) i = x) as ->.
  { change (bme (set_lru (upd_bme r i (fun _ => x)) lc) i) with (bme (upd_bme r i (fun _ => x)) i). rewrite bme_upd by done. by rewrite decide_True. }
  done.
Qed.

Lemma report_extent_ok p i r : (i < length (bmes r))%nat ->
  exists cl r' log, report_extent env p i r = (cl, sp_set_rs p r', log) /\ resync_lru r' = resync_lru r /\ bme_changed i r r' /\
    rs_left (bme r' i) = rs_left (bme r i) /\ bme_flags (bme r' i) = bme_flags (bme r i).
Proof.
  intros Hl. unfold report_extent. destruct (_ <=? _); [destruct (_ || _)|]; do 3 eexists; (split; [reflexivity|]); try done.
  split; [done|]. split; [by apply bc_upd|]. rewrite bme_upd by done. by rewrite decide_True.
Qed.

(** The cache after the update: the elements are as before, with one of them perhaps relabelled. *)
Lemma rs_ok_same r r' : rs_ok r -> calm (resync_lru r') -> elements (resync_lru r') = elements (resync_lru r) ->
  length (bmes r') = length (bmes r) -> rs_ok r'.
Proof.
  intros [K1 K2 K3] C E L. split; [done| |unfold nr_elements in *; congruence]. intros i e. rewrite E. apply K2.
Qed.

Lemma rs_ok_insert r r' i e' : rs_ok r -> calm (resync_lru r') -> elements (resync_lru r') = <[i := e']> (elements (resync_lru r)) ->
  refcnt e' < 2 ^ 32 - 1 -> length (bmes r') = length (bmes r) -> rs_ok r'.
Proof.
  intros [K1 K2 K3] C E Hr L. split; [done| |unfold nr_elements in *; rewrite E, length_insert; congruence].
  intros j e. rewrite E. intros Hj. apply list_lookup_insert_Some in Hj as [(-> & <- & _)|[_ Hj]]; [done|by apply (K2 j)].
Qed.

(** The update of an extent that is in the cache: [r1] is the cache with one reference more or the same. *)
Lemma extent_hit mode count p i e : rs_ok (sp_rs p) -> 0 <= count <= 32768 ->
  elements (resync_lru (sp_rs p)) !! i = Some e -> lc_number e = enr ->
  forall r1, bme_changed i (sp_rs p) r1 -> bme_flags (bme r1 i) = bme_flags (bme (sp_rs p) i) ->
  calm (resync_lru r1) -> elements (resync_lru r1) = elements (resync_lru (sp_rs p)) ->
  same_limits (resync_lru (sp_rs p)) (resync_lru r1) ->
  (LC_STARVING (flags (resync_lru (sp_rs p))) = false -> LC_STARVING (flags (resync_lru r1)) = false) ->
  (0 <= rs_left (bme (sp_rs p) i) <= 32768 -> rs_left (bme (sp_rs p) i) + mode_delta mode count = weight bm idx enr ->
   rs_left (bme r1 i) = weight bm idx enr) ->
  exists cl r' log, report_extent env p i r1 = (cl, sp_set_rs p r', log) /\ rs_ok r' /\ updated enr (sp_rs p) r' /\
    (forall W, left_ok W (sp_rs p) -> 0 <= W enr <= 32768 -> W enr + mode_delta mode count = weight bm idx enr ->
     left_ok (fun x => if x =? enr then weight bm idx enr else W x) r').
Proof.
  intros K Hc Hi He r1 B1 F1 C1 E1 L1 S1 Hw. assert (i < length (bmes r1))%nat as Hl.
  { rewrite (bc_len _ _ _ B1), (rk_len _ K). by eapply lookup_lt_Some. }
  destruct (report_extent_ok p i r1 Hl) as (cl & r' & log & -> & El & B & Hrl & Hfl). exists cl, r', log. split; [done|].
  pose proof (bc_trans _ _ _ _ B1 B) as [X1 X2 X3 X4 X5].
  assert (updated enr (sp_rs p) r') as U.
  { split; [done|]. split; [done|]. split; [done|]. split; [rewrite El; apply L1|]. left. rewrite El. split; [done|]. split.
    - intros j. destruct (decide (j = i)) as [->|]; [congruence|]. by rewrite X5.
    - intros j x Hj Hx. rewrite X5; [done|]. congruence. }
  split; [apply (rs_ok_same (sp_rs p)); rewrite ?El; done|]. split; [done|].
  intros W HW Wb Wd. apply (updated_left enr W _ (sp_rs p)); try done.
  - rewrite El. apply S1, HW.
  - by rewrite El.
  - intros j x. rewrite El, E1, Z.eqb_refl. intros Hj Hx.
    assert (j = i) as ->. { apply (label_unique _ j i x e (cm_inv _ (rk_calm _ K))); [done..| |];
      rewrite <- ?(cm_quiet _ (rk_calm _ K) j x Hj), <- ?(cm_quiet _ (rk_calm _ K) i e Hi); lia. }
    rewrite Hrl. pose proof (lk_left _ _ HW i e Hi ltac:(lia)) as Hleft. rewrite He in Hleft. apply Hw; rewrite Hleft; done.
  - intros x Hx. by rewrite (proj2 (Z.eqb_neq _ _)).
Qed.

(** The update of an extent that takes an unused element. *)
Lemma extent_new p i e : rs_ok (sp_rs p) -> elements (resync_lru (sp_rs p)) !! i = Some e -> refcnt e = 0 ->
  absent (resync_lru (sp_rs p)) enr ->
  forall r1, bme_changed i (sp_rs p) r1 -> bme_flags (bme r1 i) = 0 -> rs_left (bme r1 i) = weight bm idx enr ->
  calm (resync_lru r1) -> elements (resync_lru r1) = <[i := mk_element 0 enr enr]> (elements (resync_lru (sp_rs p))) ->
  same_limits (resync_lru (sp_rs p)) (resync_lru r1) -> LC_STARVING (flags (resync_lru r1)) = false ->
  exists cl r' log, report_extent env p i r1 = (cl, sp_set_rs p r', log) /\ rs_ok r' /\ updated enr (sp_rs p) r' /\
    (forall W, left_ok W (sp_rs p) -> left_ok (fun x => if x =? enr then weight bm idx enr else W x) r').
Proof.
  intros K Hi Hr Ha r1 B1 F1 W1 C1 E1 L1 S1. assert (i < length (bmes r1))%nat as Hl.
  { rewrite (bc_len _ _ _ B1), (rk_len _ K). by eapply lookup_lt_Some. }
  destruct (report_extent_ok p i r1 Hl) as (cl & r' & log & -> & El & B & Hrl & Hfl). exists cl, r', log. split; [done|].
  pose proof (bc_trans _ _ _ _ B1 B) as [X1 X2 X3 X4 X5].
  assert (updated enr (sp_rs p) r') as U.
  { split; [done|]. split; [done|]. split; [done|]. split; [rewrite El; apply L1|]. right. exists i, e. rewrite El. split_and!; try done. congruence. }
  split; [apply (rs_ok_insert (sp_rs p) _ i (mk_element 0 enr enr)); rewrite ?El; done|]. split; [done|].
  intros W HW. apply (updated_left enr W _ (sp_rs p)); try done.
  - by rewrite El.
  - by rewrite El.
  - intros j x. rewrite El, E1, Z.eqb_refl. intros Hj Hx. apply list_lookup_insert_Some in Hj as [(<- & _ & _)|[_ Hj]]; [congruence|].
    destruct (Ha j x Hj). by rewrite <- (cm_quiet _ (rk_calm _ K) j x Hj).
  - intros x Hx. by rewrite (proj2 (Z.eqb_neq _ _)).
Qed.

(** The extent is not in the cache, and stays out of it. *)
Lemma extent_absent p lc : rs_ok (sp_rs p) -> calm lc -> elements lc = elements (resync_lru (sp_rs p)) ->
  same_limits (resync_lru (sp_rs p)) lc ->
  rs_ok (set_lru (sp_rs p) lc) /\ updated enr (sp_rs p) (set_lru (sp_rs p) lc).
Proof. intros K C E [L _]. split; [by apply (rs_ok_same (sp_rs p))|]. repeat (split; [done|]). by left. Qed.

Lemma update_oos_ok count p : let mode := SET_OUT_OF_SYNC in rs_ok (sp_rs p) -> sp_index p = idx -> 0 <= count <= 32768 ->
  exists cl r' log, update_rs_extent env bm p enr count mode = Some (cl, sp_set_rs p r', log) /\ rs_ok r' /\ updated enr (sp_rs p) r' /\
    (forall W, left_ok W (sp_rs p) -> 0 <= W enr <= 32768 -> W enr + mode_delta mode count = weight bm idx enr ->
     left_ok (fun x => if x =? enr then weight bm idx enr else W x) r').
Proof.
  intros mode K Hp Hc. pose proof (rk_calm _ K) as C. unfold update_rs_extent. rewrite Hp. subst mode.
  destruct (decide (SET_OUT_OF_SYNC = SET_OUT_OF_SYNC)) as [_|]; [|done].
  cbn [mbind option_bind]. pose proof (find_calm _ enr C ltac:(lia)) as Hf. destruct (lc_find _ enr) as [i|].
  - destruct Hf as (e & He & Hn & Hn'). assert (i < length (bmes (set_lru (sp_rs p) (resync_lru (sp_rs p)))))%nat as Hl.
    { cbn. rewrite (rk_len _ K). by eapply lookup_lt_Some. }
    assert (elem (resync_lru (sp_rs p)) i = e) as -> by (unfold elem; by rewrite He).
    destruct (update_bme_hit SET_OUT_OF_SYNC count e _ i Hl Hn Hc) as (r1 & -> & E1 & B1 & F1 & W1). cbn [mbind option_bind].
    destruct (extent_hit SET_OUT_OF_SYNC count p i e K Hc He Hn r1) as (cl & r' & log & -> & H);
      try (rewrite E1; done || (split; done)); [eapply bc_trans; [apply bc_lru|exact B1]|done|exact W1|]. by exists cl, r', log.
  - exists false, (set_lru (sp_rs p) (resync_lru (sp_rs p))), []. split; [done|].
    destruct (extent_absent p (resync_lru (sp_rs p)) K C eq_refl (conj eq_refl eq_refl)) as [A B]. split; [done|]. split; [done|].
    intros W HW _ _. apply (updated_left enr W _ (sp_rs p)); try done; [apply HW| |intros x Hx; by rewrite (proj2 (Z.eqb_neq _ _))].
    intros j x Hj Hx. cbn in Hj. destruct (Hf j x Hj). by rewrite <- (cm_quiet _ C j x Hj).
Qed.

Lemma update_get_ok mode count p : mode <> SET_OUT_OF_SYNC -> rs_ok (sp_rs p) -> sp_index p = idx -> 0 <= count <= 32768 ->
  exists cl r' log, update_rs_extent env bm p enr count mode = Some (cl, sp_set_rs p r', log) /\ rs_ok r' /\ updated enr (sp_rs p) r' /\
    (forall W, left_ok W (sp_rs p) -> 0 <= W enr <= 32768 -> W enr + mode_delta mode count = weight bm idx enr ->
     left_ok (fun x => if x =? enr then weight bm idx enr else W x) r').
Proof.
  intros Hm K Hp Hc. pose proof (rk_calm _ K) as C. unfold update_rs_extent. rewrite Hp.
  destruct (decide (mode = SET_OUT_OF_SYNC)) as [|_]; [done|].
  destruct (get_calm (se_monitor env) _ enr true C (rk_over _ K) ltac:(lia)) as (r & lc & Eg & Hi & Hid & L & G).
  unfold lc_get. rewrite Eg. cbn [mbind option_bind]. destruct r as [i|].
  - destruct G as (Hs & e & He & G). pose proof (elem_refcnt _ i e (cm_inv _ C) He) as Hr.
    assert (i < length (bmes (set_lru (sp_rs p) lc)))%nat as Hl by (cbn; rewrite (rk_len _ K); by eapply lookup_lt_Some).
    pose proof (lookup_lt_Some _ _ _ He) as Hlt.
    destruct G as [(Hn & El)|(_ & Ha & Hr0 & El)].
    + assert (calm lc) as Cl by (by apply (calm_insert _ _ i _ C Hi Hid El)).
      assert (elements lc !! i = Some (mk_element (refcnt e + 1) enr enr)) as Hei by (rewrite El; by apply list_lookup_insert_eq).
      assert (elem lc i = mk_element (refcnt e + 1) enr enr) as -> by (unfold elem; by rewrite Hei).
      destruct (update_bme_hit mode count (mk_element (refcnt e + 1) enr enr) (set_lru (sp_rs p) lc) i Hl eq_refl Hc) as (r1 & -> & E1 & B1 & F1 & W1).
      cbn [mbind option_bind]. change (resync_lru (set_lru (sp_rs p) lc)) with lc in E1.
      destruct (put_calm lc i _ Cl Hei ltac:(cbn; lia)) as (lc2 & Ep & C2 & L2 & S2 & El2). rewrite E1, Ep. cbn [mbind option_bind].
      destruct (extent_hit mode count p i e K Hc He Hn (set_lru r1 lc2)) as (cl & r' & log & -> & H); try done.
      * eapply bc_trans; [apply bc_lru|]. eapply bc_trans; [exact B1|apply bc_lru].
      * change (resync_lru (set_lru r1 lc2)) with lc2. rewrite El2, El, list_insert_insert_eq. cbn.
         rewrite Z.add_simpl_r, list_insert_id; [done|]. rewrite He. f_equal. pose proof (cm_quiet _ C i e He). destruct e. cbn in *. congruence.
      * by eapply same_limits_trans.
      * intros _. by apply S2.
      * by exists cl, r', log.
    + assert (elem lc i = mk_element 1 (lc_number e) enr) as -> by (unfold elem; rewrite El, list_lookup_insert_eq by done; done).
      assert (lc_number e <> enr) as Hne by (rewrite (cm_quiet _ C i e He); by apply (Ha i)).
      destruct (update_bme_new mode count (mk_element 1 (lc_number e) enr) (set_lru (sp_rs p) lc) i Hl Hne Hi Hid)
        as (r1 & -> & B1 & F1 & W1 & C1 & L1 & Fl1 & E1).
      cbn [mbind option_bind]. change (resync_lru (set_lru (sp_rs p) lc)) with lc in *.
      rewrite (commit_elements _ lc i e enr C He El) in E1.
      assert (elements (resync_lru r1) !! i = Some (mk_element 1 enr enr)) as Hei by (rewrite E1; by apply list_lookup_insert_eq).
      destruct (put_calm _ i _ C1 Hei ltac:(done)) as (lc2 & Ep & C2 & L2 & S2 & El2). rewrite Ep. cbn [mbind option_bind].
      destruct (extent_new p i e K He Hr0 Ha (set_lru r1 lc2)) as (cl & r' & log & -> & Hk & Hu & Hw); try done.
      * eapply bc_trans; [apply bc_lru|]. eapply bc_trans; [exact B1|apply bc_lru].
      * change (resync_lru (set_lru r1 lc2)) with lc2. by rewrite El2, E1, list_insert_insert_eq.
      * eapply same_limits_trans; [exact L|]. by eapply same_limits_trans.
      * apply S2. by rewrite Fl1.
      * exists cl, r', log. split; [done|]. split; [done|]. split; [done|]. intros W HW _ _. by apply Hw.
  - destruct G as (El & _ & G). exists false, (set_lru (sp_rs p) lc), [S_message]. split; [done|].
    assert (calm lc) as Cl. { split; [done..|]. intros j x. rewrite El. apply (cm_quiet _ C). }
    destruct (extent_absent p lc K Cl El L) as [A B]. split; [done|]. split; [done|]. intros W HW. by destruct (G eq_refl), HW.
Qed.

Lemma update_rs_extent_ok mode count p : rs_ok (sp_rs p) -> sp_index p = idx -> 0 <= count <= 32768 ->
  exists cl r' log, update_rs_extent env bm p enr count mode = Some (cl, sp_set_rs p r', log) /\ rs_ok r' /\ updated enr (sp_rs p) r' /\
    (forall W, left_ok W (sp_rs p) -> 0 <= W enr <= 32768 -> W enr + mode_delta mode count = weight bm idx enr ->
     left_ok (fun x => if x =? enr then weight bm idx enr else W x) r').
Proof. destruct (decide (mode = SET_OUT_OF_SYNC)) as [->|]; [apply update_oos_ok|by apply update_get_ok]. Qed.

End extent.

(** ** The loop *)

Definition mode_op (mode : update_sync_bits_mode) : bitmap_operations :=
  match mode with RECORD_RS_FAILED => BM_OP_COUNT | SET_IN_SYNC => BM_OP_CLEAR | SET_OUT_OF_SYNC => BM_OP_SET end.

(** The bitmap after the bits from [s] to [E] of a slot were handled. *)
Definition wrote (mode : update_sync_bits_mode) (bm : bsr_bitmap) (idx s E : Z) (bm' : bsr_bitmap) : Prop :=
  match mode with RECORD_RS_FAILED => bm' = bm | _ => written (mode_op mode) bm idx s E [] bm' end.

Lemma mode_fills mode : mode = RECORD_RS_FAILED \/ fills (mode_op mode).
Proof. destruct mode; [by left|right; by left|right; by right]. Qed.

Lemma sync_op_ok mode bm idx s t : wf bm -> 0 <= idx < bm_max_peers bm -> 0 <= s -> 0 <= t < 2 ^ 64 ->
  exists bm' out, sync_op mode (Some bm) idx s t = Some (op_count (mode_op mode) bm idx s (last_bit bm t) [], Some bm', out) /\
    wrote mode bm idx s (last_bit bm t) bm'.
Proof.
  intros Hwf Hi Hs Ht. destruct mode; cbn [sync_op mode_op wrote]; unfold bsr_bm_count_bits, bsr_bm_set_bits, bsr_bm_clear_bits, bm_op;
    rewrite __bm_op_wf by done.
  - destruct (____bm_op_reads bm idx s t BM_OP_COUNT []) as (r & out & -> & ->); [done|by apply count_args|done|]. by exists bm, out.
  - destruct (____bm_op_writes bm idx s t BM_OP_SET []) as (bm' & -> & H); [done|apply fill_args; [by left|done..]|done|]. by exists bm', [].
  - destruct (____bm_op_writes bm idx s t BM_OP_CLEAR []) as (bm' & -> & H); [done|apply fill_args; [by right|done..]|done|]. by exists bm', [].
Qed.

Lemma wrote_fixed mode bm idx s E bm' : wf bm -> wrote mode bm idx s E bm' ->
  wf bm' /\ bm_bits bm' = bm_bits bm /\ bm_max_peers bm' = bm_max_peers bm.
Proof. intros Hwf. destruct mode; cbn [wrote]; [by intros ->|intros [_ _ W (F1 & F2 & _) _]; done..]. Qed.

Lemma wrote_empty mode bm idx s s' E bm' : E < s -> E < s' -> wrote mode bm idx s E bm' -> wrote mode bm idx s' E bm'.
Proof.
  intros H1 H2. destruct mode; cbn [wrote]; [done|intros [Wb Wp Ww Wf Ws]; cbv zeta in Ws; rewrite op_count_empty in Ws by done..].
  all: split; [|done|done|done|cbv zeta; by rewrite op_count_empty]; intros p b Hp Hb; rewrite Wb by done; unfold op_bit.
  all: split_cmp; rewrite ?andb_false_r; done || lia.
Qed.

Lemma wrote_compose mode bm idx a m E bm1 bm2 : 0 <= idx < bm_max_peers bm -> 0 <= a <= m + 1 -> m <= E ->
  wrote mode bm idx a m bm1 -> wrote mode bm1 idx (m + 1) E bm2 ->
  wrote mode bm idx a E bm2 /\
  op_count (mode_op mode) bm idx a E [] = op_count (mode_op mode) bm idx a m [] + op_count (mode_op mode) bm1 idx (m + 1) E [].
Proof.
  intros Hi Ha Hm H1 H2. destruct (mode_fills mode) as [->|Hf].
  - cbn [wrote] in *. subst bm1 bm2. split; [done|]. unfold op_count. cbn [mode_op].
    replace (Z.to_nat (E + 1 - a)) with (Z.to_nat (m + 1 - a) + Z.to_nat (E + 1 - (m + 1)))%nat by lia.
    rewrite count_true_app. by replace (a + Z.of_nat (Z.to_nat (m + 1 - a))) with (m + 1) by lia.
  - assert (written (mode_op mode) bm idx a m [] bm1 /\ written (mode_op mode) bm1 idx (m + 1) E [] bm2) as [W1 W2].
    { destruct mode; [by destruct Hf|done..]. }
    split; [destruct mode; [by destruct Hf| |]; by apply (written_compose _ bm idx a m E bm1 bm2)|].
    rewrite (op_count_split _ bm idx a m E) by (done || lia). f_equal. apply count_true_ext. intros i Hb.
    rewrite (w_bits _ _ _ _ _ _ _ W1) by lia. unfold op_bit. split_cmp; by rewrite ?andb_false_r.
Qed.

(** The same for ranges that may reach beyond the last bit. *)
Lemma wrote_next mode bm idx s t e bm1 bm2 : wf bm -> 0 <= idx < bm_max_peers bm -> 0 <= s <= t -> t <= e ->
  wrote mode bm idx s (last_bit bm t) bm1 -> wrote mode bm1 idx (t + 1) (last_bit bm e) bm2 ->
  wrote mode bm idx s (last_bit bm e) bm2 /\
  op_count (mode_op mode) bm idx s (last_bit bm e) [] =
    op_count (mode_op mode) bm idx s (last_bit bm t) [] + op_count (mode_op mode) bm1 idx (t + 1) (last_bit bm e) [].
Proof.
  intros Hwf Hi Hs Ht W1 W2. pose proof (wf_bits _ Hwf). destruct (Z.lt_ge_cases t (bm_bits bm)) as [Hlt|Hge].
  - replace (last_bit bm t) with t in * by (unfold last_bit; lia). apply (wrote_compose mode bm idx s t _ bm1 bm2); try done; unfold last_bit; lia.
  - assert (last_bit bm t = bm_bits bm - 1 /\ last_bit bm e = bm_bits bm - 1) as [E1 E2] by (unfold last_bit; lia). rewrite E1, E2 in *.
    rewrite (op_count_empty _ bm1) by lia. rewrite Z.add_0_r. split; [|done].
    set (s' := Z.min s (bm_bits bm)). assert (wrote mode bm idx s' (bm_bits bm - 1) bm1) as W1'.
    { destruct (Z.le_gt_cases s (bm_bits bm)); [by replace s' with s by (unfold s'; lia)|]. apply (wrote_empty _ _ _ s); [lia|unfold s'; lia|done]. }
    destruct (wrote_compose mode bm idx s' (bm_bits bm - 1) (bm_bits bm - 1) bm1 bm2) as [W _]; try done; [unfold s'; lia| |].
    { apply (wrote_empty _ _ _ (t + 1)); [lia..|done]. }
    destruct (Z.le_gt_cases s (bm_bits bm)) as [Hle|]; [by replace s with s' by (unfold s'; lia)|]. apply (wrote_empty _ _ _ s'); [unfold s'; lia|lia|done].
Qed.

(** The weights of the extents when a part of extent [x] was handled. *)
Lemma wrote_weight mode bm idx s E bm' x : wrote mode bm idx s E bm' -> 0 <= idx < bm_max_peers bm -> 0 <= x -> 32768 * x <= s ->
  E <= 32768 * x + 32767 -> E < bm_bits bm ->
  weight bm idx x + mode_delta mode (op_count (mode_op mode) bm idx s E []) = weight bm' idx x /\
  forall y, y <> x -> weight bm' idx y = weight bm idx y.
Proof.
  intros H Hi Hx Hs HE Hb. destruct (mode_fills mode) as [->|Hf]; [cbn in H; subst bm'; cbn [mode_delta]; split; [lia|done]|].
  assert (written (mode_op mode) bm idx s E [] bm') as W by (destruct mode; [by destruct Hf|done..]). split.
  - rewrite (weight_written _ bm idx s E bm' x Hf W) by done. destruct mode; [by destruct Hf|..]; cbn [mode_delta mode_op]; case_decide; done || lia.
  - intros y Hy. apply (weight_written_other _ bm idx s E bm' idx y W Hi). lia.
Qed.

Definition updates : relation rs_peer := rtc (fun r r' => exists enr, updated enr r r').

Lemma left_ok_ext W W' r : (forall x, W x = W' x) -> left_ok W r -> left_ok W' r.
Proof. intros E [R L]. split; [done|]. intros i e Hi Hf. rewrite <- E. by apply L. Qed.

Lemma bit_to_ext b : 0 <= b -> BM_BIT_TO_EXT b = b / 32768.
Proof. intros. unfold BM_BIT_TO_EXT. change (BM_EXT_SHIFT - BM_BLOCK_SHIFT) with 15. by rewrite Z.shiftr_div_pow2. Qed.

Lemma lor_mask b : 0 <= b -> Z.lor b BM_BLOCKS_PER_BM_EXT_MASK = 32768 * (b / 32768) + 32767.
Proof.
  intros Hb. change BM_BLOCKS_PER_BM_EXT_MASK with (Z.ones 15). by rewrite lor_ones by done.
Qed.

Lemma op_count_bounds op bm idx a E : a <= E + 1 -> 0 <= op_count op bm idx a E [] <= E + 1 - a.
Proof. intros H. unfold op_count. pose proof (count_true_bounds (fun b => Bitmap.tally op (bm_bit bm idx b) (inp op [] (b - a))) a (Z.to_nat (E + 1 - a))). lia. Qed.

(** What the loop does to the resync extents of a peer. *)
Definition extents_follow (idx : Z) (bm bm' : bsr_bitmap) (r r' : rs_peer) : Prop :=
  rs_ok r' /\ updates r r' /\ (left_ok (weight bm idx) r -> left_ok (weight bm' idx) r').

Section loop.
Context (env : sync_env) (mode : update_sync_bits_mode) (idx ebnr : Z).
Context (He : ebnr < 2 ^ 47 - 2 ^ 15).

(** One round: the part of the range in one extent. *)
Lemma sync_round bm p s t c bm1 : wf bm -> 0 <= idx < bm_max_peers bm -> sp_index p = idx -> rs_ok (sp_rs p) -> 0 <= s ->
  t = Z.min ebnr (32768 * (s / 32768) + 32767) -> s <= t ->
  wrote mode bm idx s (last_bit bm t) bm1 -> c = op_count (mode_op mode) bm idx s (last_bit bm t) [] ->
  exists cl r' log, (if c =? 0 then Some (false, p, []) else update_rs_extent env bm1 p (s / 32768) c mode) = Some (cl, sp_set_rs p r', log) /\
    extents_follow idx bm bm1 (sp_rs p) r'.
Proof.
  intros Hwf Hi Hp K Hs Et Hst W Ec. destruct (wrote_fixed _ _ _ _ _ _ Hwf W) as (Hwf1 & Eb & Em).
  assert (0 <= s / 32768) by (apply Z.div_pos; lia). pose proof (Z.div_mod s 32768 ltac:(done)). pose proof (Z.mod_pos_bound s 32768 ltac:(done)).
  destruct (wrote_weight mode bm idx s (last_bit bm t) bm1 (s / 32768) W Hi) as [Hw Ho]; [lia..|unfold last_bit; lia|unfold last_bit; lia|].
  rewrite <- Ec in Hw. destruct (Z.eqb_spec c 0) as [E0|Hc].
  - exists false, (sp_rs p), []. split; [by destruct p|]. split; [done|]. split; [apply rtc_refl|]. apply left_ok_ext. intros x.
    destruct (decide (x = s / 32768)) as [->|Hx]; [|by rewrite Ho]. rewrite <- Hw, E0. destruct mode; cbn [mode_delta]; lia.
  - assert (s <= last_bit bm t + 1) as Hle.
    { destruct (Z.le_gt_cases s (last_bit bm t)); [lia|]. by rewrite op_count_empty in Ec by lia. }
    pose proof (op_count_bounds (mode_op mode) bm idx s (last_bit bm t) Hle).
    destruct (update_rs_extent_ok env bm1 idx (s / 32768) Hwf1 ltac:(lia)) with (mode := mode) (count := c) (p := p) as (cl & r' & log & E & K' & U & L).
    { unfold LC_FREE, U32_MAX. split; [lia|]. apply Z.div_lt_upper_bound; lia. }
    { done. }
    { done. }
    { unfold last_bit in *. lia. }
    exists cl, r', log. split; [done|]. split; [done|]. split; [apply rtc_once; by exists (s / 32768)|]. intros HL.
    apply (left_ok_ext (fun x => if x =? s / 32768 then weight bm1 idx (s / 32768) else weight bm idx x)).
    + intros x. destruct (Z.eqb_spec x (s / 32768)) as [->|Hx]; [done|by rewrite Ho].
    + apply L; [done|apply weight_bounds|done].
Qed.

Lemma sync_loop_ok fuel bm p s count cleared log : wf bm -> 0 <= idx < bm_max_peers bm -> sp_index p = idx -> rs_ok (sp_rs p) ->
  0 <= s -> (0 < fuel)%nat -> (s <= ebnr -> ebnr / 32768 - s / 32768 + 2 <= Z.of_nat fuel) -> 0 <= count -> count + Z.max 0 (ebnr + 1 - s) < 2 ^ 63 ->
  exists cl bm' r' log', sync_loop fuel env mode s ebnr count cleared bm p log =
      Some (count + op_count (mode_op mode) bm idx s (last_bit bm ebnr) [], cl, bm', sp_set_rs p r', log') /\
    wrote mode bm idx s (last_bit bm ebnr) bm' /\ extents_follow idx bm bm' (sp_rs p) r'.
Proof.
  revert bm p s count cleared log. induction fuel as [|fuel IH]; intros bm p s count cleared log Hwf Hi Hp K Hs Hf Hfuel Hc Hb; [lia|].
  cbn [sync_loop]. destruct (Z.ltb_spec ebnr s) as [Hlt|Hge].
  { rewrite op_count_empty by (unfold last_bit; lia). rewrite Z.add_0_r. exists cleared, bm, (sp_rs p), log. split; [by destruct p|].
    split; [|by split; [|split; [apply rtc_refl|]]]. destruct mode; [done|apply written_refl; [done|unfold last_bit; lia]..]. }
  rewrite lor_mask by done. set (t := Z.min _ _).
  pose proof (Z.div_mod s 32768 ltac:(done)). pose proof (Z.mod_pos_bound s 32768 ltac:(done)).
  assert (s <= t /\ t <= ebnr) as [Hst Hte] by (unfold t; lia).
  assert (t + 1 <= ebnr -> ebnr / 32768 - (t + 1) / 32768 + 2 <= Z.of_nat fuel) as Hnext.
  { intros Hle. assert (t = 32768 * (s / 32768) + 32767) as -> by (unfold t in *; lia).
    replace (32768 * (s / 32768) + 32767 + 1) with ((s / 32768 + 1) * 32768) by lia. rewrite Z.div_mul by done. lia. }
  assert (0 < fuel)%nat as Hf' by (pose proof (Z.div_le_mono s ebnr 32768 ltac:(done) ltac:(lia)); lia).
  rewrite Hp. destruct (sync_op_ok mode bm idx s t Hwf Hi Hs ltac:(lia)) as (bm1 & out & -> & W). cbn [mbind option_bind].
  set (c := op_count _ _ _ _ _ _).
  assert (0 <= c <= 32768 /\ c <= t + 1 - s) as [Hc' Hct].
  { unfold c. destruct (Z.le_gt_cases s (last_bit bm t)); [|rewrite op_count_empty by lia; lia].
    pose proof (op_count_bounds (mode_op mode) bm idx s (last_bit bm t)). unfold last_bit, t in *. lia. }
  rewrite (s32_id c) by lia. rewrite bit_to_ext by done.
  assert (0 <= s / 32768 < 2 ^ 32) as Hx by (split; [apply Z.div_pos; lia|apply Z.div_lt_upper_bound; lia]).
  rewrite (u32_id (s / 32768)) by done. rewrite (u64_id (t + 1)) by lia.
  destruct (sync_round bm p s t c bm1 Hwf Hi Hp K Hs eq_refl Hst W eq_refl) as (cl & r1 & log1 & E1 & K1 & U1 & L1).
  destruct (wrote_fixed _ _ _ _ _ _ Hwf W) as (Hwf1 & Eb & Em).
  assert (forall cleared log, exists cl bm' r' log', sync_loop fuel env mode (t + 1) ebnr (count + c) cleared bm1 (sp_set_rs p r1) log =
      Some (count + op_count (mode_op mode) bm idx s (last_bit bm ebnr) [], cl, bm', sp_set_rs p r', log') /\
    wrote mode bm idx s (last_bit bm ebnr) bm' /\ extents_follow idx bm bm' (sp_rs p) r') as Hrest.
  { intros cleared' log2.
    destruct (IH bm1 (sp_set_rs p r1) (t + 1) (count + c) cleared' log2) as (cl2 & bm2 & r2 & log3 & E2 & W2 & K2 & U2 & L2);
      [done|by rewrite Em|done|done|lia|lia|by apply Hnext|lia|lia|].
    assert (last_bit bm1 ebnr = last_bit bm ebnr) as EL by (unfold last_bit; by rewrite Eb). rewrite EL in *.
    destruct (wrote_next mode bm idx s t ebnr bm1 bm2) as [Hw Hcount]; [done..|].
    exists cl2, bm2, r2, log3. split; [|split; [done|split; [done|split; [by etrans|intros; by apply L2, L1]]]].
    rewrite E2, Hcount. fold c. by rewrite Z.add_assoc. }
  destruct (Z.eqb_spec c 0) as [E0|Hn0].
  - injection E1 as <- Er <-. rewrite E0, Z.add_0_r, <- Er in Hrest. apply Hrest.
  - rewrite E1. cbn [mbind option_bind]. rewrite (u64_id (count + c)) by lia. apply Hrest.
Qed.

End loop.

Lemma total_weight_ok env bm idx : wf bm -> 0 <= idx < bm_max_peers bm -> exists w, bsr_bm_total_weight env bm idx = Some w.
Proof.
  intros Hwf Hi. unfold bsr_bm_total_weight. destruct (idx =? -1); [by eexists|]. destruct (negb _); [by eexists|].
  unfold _bsr_bm_total_weight. pose proof (wf_pages_nonempty bm Hwf). pose proof (wf_set _ Hwf). pose proof (wf_peers _ Hwf).
  destruct (bm_pages bm); [done|]. apply lookup_lt_is_Some. unfold BSR_PEERS_MAX in *. lia.
Qed.

(** What the rest of [update_sync_bits] leaves alone. *)
Definition same_peer (p p' : sync_peer) : Prop := sp_index p' = sp_index p /\ sp_repl p' = sp_repl p.

Lemma sync_progress_ok env mode count cleared bm p : wf bm -> 0 <= sp_index p < bm_max_peers bm ->
  exists p' log, sync_progress env mode count cleared bm p = Some (p', log) /\ sp_rs p' = sp_rs p /\ same_peer p p'.
Proof.
  intros Hwf Hi. unfold sync_progress. destruct (negb (count =? 0)).
  - destruct (decide (mode = SET_OUT_OF_SYNC)); [by do 2 eexists|]. set (p1 := if decide (mode = RECORD_RS_FAILED) then _ else p).
    assert (sp_rs p1 = sp_rs p /\ same_peer p p1) as [E1 [E2 E3]] by (unfold p1; by destruct (decide (mode = RECORD_RS_FAILED))).
    destruct (total_weight_ok env bm (sp_index p1)) as [w ->]; [done|congruence|]. cbn [mbind option_bind].
    set (p2 := if decide (mode = SET_IN_SYNC) then _ else p1).
    assert (sp_rs p2 = sp_rs p /\ same_peer p p2) as [F1 [F2 F3]].
    { unfold p2. destruct (decide (mode = SET_IN_SYNC)); [|done]. unfold bsr_advance_rs_marks. destruct (time_after_eq _ _); [|done]. by destruct (_ && _). }
    set (dn := if _ && _ && _ then false else _). destruct (_ || _); [|by do 2 eexists].
    unfold maybe_schedule_on_disk_bitmap_update. destruct dn; [destruct (_ || _); [destruct (sp_rs_done p2)|]|destruct (negb _)]; by do 2 eexists.
  - destruct (sp_repl p) eqn:E, mode; by do 2 eexists.
Qed.

(** [update_sync_bits] for a slot of the bitmap: it always returns, with the number of bits it changed. *)
Lemma update_sync_bits_ok env mode bm p s e : wf bm -> 0 <= sp_index p < bm_max_peers bm -> rs_ok (sp_rs p) ->
  0 <= s < 2 ^ 62 -> -1 <= e < 2 ^ 47 - 2 ^ 15 ->
  exists bm' p' log, update_sync_bits env bm p s e mode = Some (op_count (mode_op mode) bm (sp_index p) s (last_bit bm e) [], bm', p', log) /\
    wrote mode bm (sp_index p) s (last_bit bm e) bm' /\ extents_follow (sp_index p) bm bm' (sp_rs p) (sp_rs p') /\ same_peer p p'.
Proof.
  intros Hwf Hi K Hs He. unfold update_sync_bits.
  destruct (sync_loop_ok env mode (sp_index p) e ltac:(lia) (extent_fuel s e) bm p s 0 0 []) as (cl & bm' & r' & log & -> & W & F);
    try done; try (unfold extent_fuel; lia).
  { intros Hle. unfold extent_fuel. rewrite !bit_to_ext by lia. pose proof (Z.div_le_mono s e 32768 ltac:(done) Hle). lia. }
  cbn [mbind option_bind]. destruct (wrote_fixed _ _ _ _ _ _ Hwf W) as (Hwf' & _ & Em).
  destruct (sync_progress_ok env mode (0 + op_count (mode_op mode) bm (sp_index p) s (last_bit bm e) []) cl bm' (sp_set_rs p r'))
    as (p' & log' & -> & E1 & E2); [done|cbn; by rewrite Em|].
  cbn [mbind option_bind]. exists bm', p', (log ++ log'). rewrite E1. done.
Qed.

End SyncBitsOk.
