(* ===== verification/SyncRange.v ===== *)
(** * Ranges of sectors (src/bsr/bsr_actlog.c, src/bsr/bsr_main.c)

    [__bsr_change_sync], [bsr_set_sync] and [SetOOSFromBitmap]: a block is
    marked out of sync when a sector of it is concerned, and in sync only when
    all its sectors are. *)

From stdpp Require Import relations.
From S2P Require Import Prelude LruCache CalmCache Bitmap BitmapApi State ActLog SyncBits SyncBitsOk.

Module SyncRange.
Import LruCache CalmCache Bitmap BitmapApi State ActLog SyncBits SyncBitsOk.

(** ** Blocks of a range of sectors *)

(** A sector from [first] to [last] is in block [b]. *)
Definition touches (first last b : Z) : Prop := exists s, first <= s <= last /\ s / 8 = b.

(** All sectors of block [b] of a device are from [first] to [last]. *)
Definition covered (capacity first last b : Z) : Prop := forall s, s / 8 = b -> 0 <= s < capacity -> first <= s <= last.

Definition within (r : Z * Z) (b : Z) : bool := (r.1 <=? b) && (b <=? r.2).

Lemma within_iff r b : within r b = true <-> r.1 <= b <= r.2.
Proof. unfold within. rewrite andb_true_iff, !Z.leb_le. done. Qed.

Lemma touches_within first last b : 0 <= first <= last -> touches first last b <-> within (first / 8, last / 8) b = true.
Proof.
  intros H. rewrite within_iff. cbn [fst snd]. split.
  - intros (s & Hs & <-). split; apply Z.div_le_mono; lia.
  - intros Hb. destruct (Z.le_gt_cases first (8 * b)) as [Hle|Hgt].
    + exists (8 * b). split; [|by rewrite Z.mul_comm, Z.div_mul]. split; [lia|]. pose proof (Z.div_mod last 8 ltac:(done)). pose proof (Z.mod_pos_bound last 8 ltac:(done)). lia.
    + exists first. split; [lia|]. assert (b <= first / 8) by (apply Z.div_le_lower_bound; lia). lia.
Qed.

Lemma covered_within capacity first last b : 0 <= first <= last -> last < capacity -> 0 <= b <= (capacity - 1) / 8 ->
  covered capacity first last b <->
  within ((first + 7) / 8, if last =? capacity - 1 then last / 8 else (last + 1) / 8 - 1) b = true.
Proof.
  intros H Hl Hb. rewrite within_iff. cbn [fst snd].
  pose proof (Z.div_mod (capacity - 1) 8 ltac:(done)). pose proof (Z.mod_pos_bound (capacity - 1) 8 ltac:(done)).
  pose proof (Z.div_mod (first + 7) 8 ltac:(done)). pose proof (Z.mod_pos_bound (first + 7) 8 ltac:(done)).
  pose proof (Z.div_mod (last + 1) 8 ltac:(done)). pose proof (Z.mod_pos_bound (last + 1) 8 ltac:(done)). split.
  - intros Hc. assert (8 * b / 8 = b) as E by (by rewrite Z.mul_comm, Z.div_mul). pose proof (Hc (8 * b) E ltac:(lia)) as Hfst. split; [lia|].
    destruct (Z.eqb_spec last (capacity - 1)) as [->|Hn]; [lia|].
    destruct (Z.le_gt_cases (8 * b + 8) capacity) as [Hle|Hgt].
    + pose proof (Hc (8 * b + 7) ltac:(symmetry; apply (Z.div_unique _ 8 b 7); lia) ltac:(lia)). lia.
    + pose proof (Hc (capacity - 1) ltac:(symmetry; apply (Z.div_unique _ 8 b (capacity - 1 - 8 * b)); lia) ltac:(lia)). lia.
  - intros Hb' s <- Hs. pose proof (Z.div_mod s 8 ltac:(done)). pose proof (Z.mod_pos_bound s 8 ltac:(done)).
    split; [lia|]. destruct (Z.eqb_spec last (capacity - 1)); lia.
Qed.

(** ** Bits of a slot *)

(** The bit [b] after a slot was set ([true]) or cleared in a range. *)
Definition marked (v : bool) (r : option (Z * Z)) (b : Z) (old : bool) : bool :=
  match r with Some r => if within r b then v else old | None => old end.

Definition same_shape (bm bm' : bsr_bitmap) : Prop := bm_bits bm' = bm_bits bm /\ bm_max_peers bm' = bm_max_peers bm.

Lemma same_shape_trans a b c : same_shape a b -> same_shape b c -> same_shape a c.
Proof. intros [? ?] [? ?]. split; congruence. Qed.

(** [bm'] is [bm] with slot [idx] changed as given. *)
Record slot_marked (v : bool) (r : option (Z * Z)) (idx : Z) (bm bm' : bsr_bitmap) : Prop := mk_slot_marked {
  sm_wf : wf bm';
  sm_counts : Bitmap.counts_ok bm';
  sm_shape : same_shape bm bm';
  sm_bits : forall p b, 0 <= p < bm_max_peers bm -> 0 <= b < bm_bits bm ->
    bm_bit bm' p b = if p =? idx then marked v r b (bm_bit bm p b) else bm_bit bm p b }.

Definition set_mode (v : bool) : update_sync_bits_mode := if v then SET_OUT_OF_SYNC else SET_IN_SYNC.

Lemma written_marked v bm idx s e bm' : wf bm -> Bitmap.counts_ok bm -> 0 <= idx < bm_max_peers bm -> 0 <= s ->
  written (mode_op (set_mode v)) bm idx s (last_bit bm e) [] bm' -> slot_marked v (Some (s, e)) idx bm bm'.
Proof.
  intros Hwf Hc Hi Hs W. pose proof W as [Wb _ Ww (F1 & F2 & _) _]. split; [done| |done|].
  - apply (written_counts (mode_op (set_mode v)) bm idx s (last_bit bm e) [] bm'); try done; [by destruct v|unfold last_bit; lia].
  - intros p b Hp Hb. rewrite Wb by lia. unfold op_bit, marked, within. cbn [fst snd]. destruct (Z.eqb_spec p idx) as [->|]; [|done].
    unfold last_bit. split_cmp; try done; try lia. by destruct v.
Qed.

Lemma weight_ext bm bm' p : same_shape bm bm' -> (forall b, 0 <= b < bm_bits bm -> bm_bit bm' p b = bm_bit bm p b) ->
  forall x, weight bm' p x = weight bm p x.
Proof.
  intros [E _] Hb x. unfold weight, last_bit. rewrite E. destruct (Z.ltb_spec x 0); [done|]. apply count_true_ext.
  intros b Hb'. apply Hb. lia.
Qed.

(** ** One peer *)

(** The peer after operations that changed the bitmap. *)
Definition follows (bm bm' : bsr_bitmap) (p p' : sync_peer) : Prop :=
  same_peer p p' /\ rs_ok (sp_rs p') /\ updates (sp_rs p) (sp_rs p') /\
  (0 <= sp_index p -> left_ok (weight bm (sp_index p)) (sp_rs p) -> left_ok (weight bm' (sp_index p)) (sp_rs p')).

Lemma update_sync_marked env v bm p s e : wf bm -> Bitmap.counts_ok bm -> 0 <= sp_index p < bm_max_peers bm -> rs_ok (sp_rs p) ->
  0 <= s < 2 ^ 62 -> -1 <= e < 2 ^ 47 - 2 ^ 15 ->
  exists n bm' p' log, update_sync_bits env bm p s e (set_mode v) = Some (n, bm', p', log) /\
    n = op_count (mode_op (set_mode v)) bm (sp_index p) s (last_bit bm e) [] /\
    slot_marked v (Some (s, e)) (sp_index p) bm bm' /\ follows bm bm' p p'.
Proof.
  intros Hwf Hc Hi K Hs He. destruct (update_sync_bits_ok env (set_mode v) bm p s e Hwf Hi K Hs He) as (bm' & p' & log & -> & W & F & P).
  eexists _, bm', p', log. split; [reflexivity|]. split; [done|]. destruct F as (F1 & F2 & F3). split; [|done].
  apply written_marked; [done..|lia|]. by destruct v.
Qed.

(** All bits of a slot. *)
Definition total (bm : bsr_bitmap) (idx : Z) : Z := count_true (bm_bit bm idx) 0 (Z.to_nat (bm_bits bm)).

Lemma wrote_total mode bm idx s e bm' : wf bm -> 0 <= idx < bm_max_peers bm -> 0 <= s -> wrote mode bm idx s (last_bit bm e) bm' ->
  total bm' idx = total bm idx + mode_delta mode (op_count (mode_op mode) bm idx s (last_bit bm e) []).
Proof.
  intros Hwf Hi Hs W. destruct (mode_fills mode) as [->|Hf]; [cbn in *; subst; lia|].
  assert (written (mode_op mode) bm idx s (last_bit bm e) [] bm') as W' by (destruct mode; [by destruct Hf|done..]).
  unfold total. destruct (w_fixed _ _ _ _ _ _ _ W') as (-> & _).
  rewrite (written_weight _ _ _ _ _ _ _ W'); [|by destruct Hf as [-> | ->]|done|done|unfold last_bit; lia].
  destruct mode; [by destruct Hf|..]; cbn [mode_delta mode_op]; case_decide; done || lia.
Qed.

(** The bitmap has one bit for each block of the device. *)
Definition fits (bm : bsr_bitmap) (capacity : Z) : Prop := 8 <= capacity < 2 ^ 49 /\ bm_bits bm = (capacity - 1) / 8 + 1.

(** The last sector of a request, which may reach beyond the device. *)
Definition last_sector (capacity sector size : Z) : Z := Z.min (sector + size / 512 - 1) (capacity - 1).

Lemma sect_to_bit x : BM_SECT_TO_BIT x = x / 8.
Proof. unfold BM_SECT_TO_BIT. by rewrite Z.shiftr_div_pow2. Qed.

Lemma sectors_pos size : 0 < size -> Z.land size 511 = 0 -> 1 <= size / 512 /\ Z.shiftr size 9 = size / 512.
Proof.
  intros H Hl. change 511 with (Z.ones 9) in Hl. rewrite Z.land_ones in Hl by done. rewrite Z.shiftr_div_pow2 by done. change (2 ^ 9) with 512 in *.
  pose proof (Z.div_mod size 512 ltac:(done)). split; [nia|done].
Qed.

(** The rounding of [__bsr_change_sync]. *)
Definition block_range (capacity first last : Z) (mode : update_sync_bits_mode) : Z * Z :=
  match mode with
  | SET_IN_SYNC => ((first + 7) / 8, if last =? capacity - 1 then last / 8 else (last + 1) / 8 - 1)
  | _ => (first / 8, last / 8)
  end.

Lemma change_sync_bits_ok capacity sector size mode : 8 <= capacity < 2 ^ 49 -> 0 <= sector < capacity ->
  0 < size <= BSR_MAX_BATCH_BIO_SIZE -> Z.land size 511 = 0 ->
  let last := last_sector capacity sector size in
  match change_sync_bits capacity sector size mode with
  | Some r => r = block_range capacity sector last mode
  | None => mode = SET_IN_SYNC /\ (block_range capacity sector last mode).2 < 0
  end.
Proof.
  intros Hc Hs Hz Hl last. destruct (sectors_pos size ltac:(lia) Hl) as [H1 H9].
  change BSR_MAX_BATCH_BIO_SIZE with 134217728 in Hz. assert (size / 512 <= 262144) by (apply Z.div_le_upper_bound; lia).
  unfold change_sync_bits. rewrite H9, (u64_id (sector + size / 512 - 1)) by lia. rewrite (proj2 (Z.ltb_lt _ _)) by lia. cbn [negb].
  assert ((if negb (sector + size / 512 - 1 <? capacity) then capacity - 1 else sector + size / 512 - 1) = last) as ->.
  { unfold last, last_sector. destruct (Z.ltb_spec (sector + size / 512 - 1) capacity); cbn [negb]; lia. }
  assert (sector <= last <= capacity - 1) as Hlast by (unfold last, last_sector; lia). rewrite !sect_to_bit. change BM_SECT_PER_BIT with 8.
  destruct (decide (mode = SET_IN_SYNC)) as [->|Hm]; [|by destruct mode]. cbn [block_range]. rewrite (u64_id (sector + 8 - 1)) by lia.
  destruct (Z.ltb_spec last (8 - 1)) as [Hlt|Hge].
  - split; [done|]. cbn. destruct (Z.eqb_spec last (capacity - 1)); [lia|].
    assert ((last + 1) / 8 = 0) as -> by (apply Z.div_small; lia). lia.
  - f_equal; [f_equal; lia|]. destruct (Z.eqb_spec last (capacity - 1)) as [->|]; [done|].
    replace (last + 1) with (last - (8 - 1) + 1 * 8) by lia. rewrite Z.div_add by done. lia.
Qed.

(** What a range means for a block. *)
Definition concerns (capacity first last : Z) (mode : update_sync_bits_mode) (b : Z) : Prop :=
  match mode with SET_IN_SYNC => covered capacity first last b | _ => touches first last b end.

Lemma concerns_within capacity first last mode b : 0 <= first <= last -> last < capacity -> 0 <= b <= (capacity - 1) / 8 ->
  concerns capacity first last mode b <-> within (block_range capacity first last mode) b = true.
Proof. intros H Hl Hb. destruct mode; [by apply touches_within..|by apply covered_within]. Qed.

(** A bit of the slot after the change. *)
Definition bit_after (mode : update_sync_bits_mode) (concerned old : Prop) : Prop :=
  match mode with SET_OUT_OF_SYNC => old \/ concerned | SET_IN_SYNC => old /\ ~ concerned | RECORD_RS_FAILED => old end.

(** A block that counts in the result: its bit is to be changed, or, for a
    failure, is set. *)
Definition counts (mode : update_sync_bits_mode) (concerned old : Prop) : Prop :=
  concerned /\ match mode with SET_OUT_OF_SYNC => ~ old | SET_IN_SYNC | RECORD_RS_FAILED => old end.

Lemma mode_count mode bm idx s e : 0 <= s ->
  op_count (mode_op mode) bm idx s (last_bit bm e) [] =
  count_true (fun b => within (s, e) b && match mode with SET_OUT_OF_SYNC => negb (bm_bit bm idx b) | _ => bm_bit bm idx b end)
    0 (Z.to_nat (bm_bits bm)).
Proof.
  intros Hs. unfold op_count. symmetry. destruct (Z.le_gt_cases s (last_bit bm e)) as [Hle|Hgt].
  - rewrite (count_true_change _ (fun _ => false) (fun b => Bitmap.tally (mode_op mode) (bm_bit bm idx b) (inp (mode_op mode) [] (b - s))) 1
      0 (Z.to_nat (bm_bits bm)) s (Z.to_nat (last_bit bm e + 1 - s))).
    + rewrite (proj2 (count_true_zero (fun _ => false) _ _)) by done. lia.
    + done.
    + unfold last_bit in *. lia.
    + intros b Hb. unfold within, last_bit in *. cbn [fst snd]. split_cmp; (done || lia).
    + intros b Hb. unfold within, last_bit in *. cbn [fst snd]. destruct mode; cbn [mode_op Bitmap.tally]; split_cmp;
        cbn [andb]; (lia || by destruct (bm_bit bm idx b)).
  - replace (Z.to_nat (last_bit bm e + 1 - s)) with 0%nat by lia. cbn [count_true]. apply count_true_zero. intros b Hb.
    unfold within, last_bit in *. cbn [fst snd]. split_cmp; (done || lia).
Qed.

Lemma wrote_bit mode bm idx s e bm' b : 0 <= idx < bm_max_peers bm -> 0 <= b < bm_bits bm -> wrote mode bm idx s (last_bit bm e) bm' ->
  bm_bit bm' idx b = true <-> bit_after mode (within (s, e) b = true) (bm_bit bm idx b = true).
Proof.
  intros Hi Hb W. destruct mode; cbn [wrote bit_after] in *; [by subst|rewrite (w_bits _ _ _ _ _ _ _ W) by lia..];
    unfold op_bit, within, last_bit; rewrite Z.eqb_refl; cbn [fst snd mode_op]; destruct (bm_bit bm idx b);
    split_cmp; cbn; intuition (discriminate || lia).
Qed.

Lemma bit_after_ext mode (c c' o : Prop) : (c <-> c') -> bit_after mode c o <-> bit_after mode c' o.
Proof. intros E. destruct mode; cbn; tauto. Qed.

Lemma wrote_other mode bm idx s e bm' q b : 0 <= q < bm_max_peers bm -> 0 <= b -> q <> idx -> wrote mode bm idx s e bm' ->
  bm_bit bm' q b = bm_bit bm q b.
Proof.
  intros Hq Hb Hn W. destruct mode; cbn [wrote] in W; [by subst|rewrite (w_bits _ _ _ _ _ _ _ W) by lia..];
    unfold op_bit; by rewrite (proj2 (Z.eqb_neq _ _)) by done.
Qed.

Lemma wrote_counts mode bm idx s e bm' : wf bm -> Bitmap.counts_ok bm -> 0 <= idx < bm_max_peers bm -> 0 <= s ->
  wrote mode bm idx s (last_bit bm e) bm' -> Bitmap.counts_ok bm'.
Proof.
  intros Hwf Hc Hi Hs W. destruct mode; cbn [wrote] in W; [by subst|..];
    (eapply written_counts; [exact Hwf|exact W|done|done|done|unfold last_bit; lia|done]).
Qed.

Lemma block_range_bounds capacity first last mode : 0 <= first <= last -> last < capacity -> capacity < 2 ^ 49 ->
  let r := block_range capacity first last mode in 0 <= r.1 < 2 ^ 62 /\ -1 <= r.2 < 2 ^ 47 - 2 ^ 15.
Proof.
  intros Hf Hl Hc r. assert (0 <= first / 8 <= last / 8 /\ 0 <= (first + 7) / 8 < 2 ^ 47 /\ 0 <= (last + 1) / 8 <= last / 8 + 1 /\ last / 8 < 2 ^ 46) as H.
  { repeat split; try (apply Z.div_pos; lia); try (apply Z.div_le_mono; lia); try (apply Z.div_lt_upper_bound; lia).
    transitivity ((last + 1 * 8) / 8); [apply Z.div_le_mono; lia|]. by rewrite Z.div_add. }
  destruct mode; cbn; [lia..|]. destruct (last =? capacity - 1); cbn; lia.
Qed.

(** ** Several slots *)

Lemma Forall2_impl_in {A B} (R S : A -> B -> Prop) l k : Forall2 R l k -> (forall x y, x ∈ l -> R x y -> S x y) -> Forall2 S l k.
Proof. induction 1 as [|x y l k H _ IH]; intros Hs; constructor; [apply Hs; [by left|done]|apply IH; intros; apply Hs; [by right|done]]. Qed.

Section slots.
Context (env : sync_env) (bits : Z) (r : Z * Z * option (Z * Z)).

(** The range a slot is set or cleared in. *)
Definition slot_range (idx : Z) : option (Z * Z) := if Z.testbit bits idx then Some (r.1.1, r.1.2) else r.2.
Definition slot_after (idx b : Z) (old : bool) : bool := marked (Z.testbit bits idx) (slot_range idx) b old.

Definition range_ok (q : Z * Z) : Prop := 0 <= q.1 < 2 ^ 62 /\ 0 <= q.2 < 2 ^ 47 - 2 ^ 15.
Context (Hset : range_ok r.1) (Hclear : forall q, r.2 = Some q -> range_ok q).

Lemma slot_range_ok idx q : slot_range idx = Some q -> range_ok q.
Proof. unfold slot_range. destruct (Z.testbit bits idx); [intros [= <-]; done|apply Hclear]. Qed.

(** The bitmap when some slots have been handled. *)
Record handled (some : Z -> bool) (bm bm' : bsr_bitmap) : Prop := mk_handled {
  hd_wf : wf bm';
  hd_counts : Bitmap.counts_ok bm';
  hd_shape : same_shape bm bm';
  hd_bits : forall p b, 0 <= p < bm_max_peers bm -> 0 <= b < bm_bits bm ->
    bm_bit bm' p b = if some p then slot_after p b (bm_bit bm p b) else bm_bit bm p b }.

Lemma handled_none some bm : wf bm -> Bitmap.counts_ok bm -> (forall p, 0 <= p < bm_max_peers bm -> some p = false) -> handled some bm bm.
Proof. intros Hwf Hc Hn. split; [done..|]. intros p b Hp _. by rewrite Hn. Qed.

Lemma handled_step some some' idx bm bm1 bm2 : slot_marked (Z.testbit bits idx) (slot_range idx) idx bm bm1 -> handled some bm1 bm2 ->
  some idx = false -> (forall p, 0 <= p < bm_max_peers bm -> some' p = (p =? idx) || some p) -> handled some' bm bm2.
Proof.
  intros [M1 M2 M3 M4] [H1 H2 H3 H4] Hn Hs. split; [done..|by eapply same_shape_trans|]. intros p b Hp Hb. destruct M3 as [E1 E2].
  rewrite H4 by lia. rewrite M4, Hs by done. destruct (Z.eqb_spec p idx) as [->|]; [by rewrite Hn|done].
Qed.

Lemma slot_direct bm idx : wf bm -> Bitmap.counts_ok bm -> 0 <= idx < bm_max_peers bm ->
  exists bm', (if Z.testbit bits idx then '(_, b, _) ← bsr_bm_set_bits (Some bm) idx r.1.1 r.1.2; b
               else match r.2 with Some (s, e) => '(_, b, _) ← bsr_bm_clear_bits (Some bm) idx s e; b | None => Some bm end) = Some bm' /\
    slot_marked (Z.testbit bits idx) (slot_range idx) idx bm bm'.
Proof.
  intros Hwf Hc Hi. pose proof (slot_range_ok idx) as Hr. unfold slot_range in *. destruct (Z.testbit bits idx).
  - destruct (Hr _ eq_refl) as [R1 R2]. cbn in R1, R2.
    destruct (sync_op_ok SET_OUT_OF_SYNC bm idx r.1.1 r.1.2 Hwf Hi) as (bm' & out & E & W); [lia|lia|]. cbn [sync_op] in E. rewrite E.
    cbn [mbind option_bind]. exists bm'. split; [done|]. apply (written_marked true); try done. lia.
  - destruct r.2 as [[s e]|]; [|exists bm; split; [done|]; split; [done..|]; intros p b _ _; cbn; by destruct (p =? idx)].
    destruct (Hr _ eq_refl) as [R1 R2]. cbn in R1, R2.
    destruct (sync_op_ok SET_IN_SYNC bm idx s e Hwf Hi) as (bm' & out & E & W); [lia|lia|]. cbn [sync_op] in E. rewrite E.
    cbn [mbind option_bind]. exists bm'. split; [done|]. apply (written_marked false); try done. lia.
Qed.

Lemma set_sync_slots_ok mask slots bm : wf bm -> Bitmap.counts_ok bm -> NoDup slots ->
  (forall idx, Z.testbit mask idx = true -> 0 <= idx < bm_max_peers bm) ->
  exists bm', set_sync_slots bits r mask slots bm = Some bm' /\ handled (fun p => Z.testbit mask p && bool_decide (p ∈ slots)) bm bm'.
Proof.
  intros Hwf Hc Hnd Hm. revert bm Hwf Hc Hm. induction Hnd as [|idx slots Hn Hnd IH]; intros bm Hwf Hc Hm; cbn [set_sync_slots].
  { exists bm. split; [done|]. apply handled_none; [done..|]. intros p _. rewrite bool_decide_eq_false_2 by apply not_elem_of_nil. apply andb_false_r. }
  destruct (Z.testbit mask idx) eqn:Et; cbn [negb].
  - destruct (slot_direct bm idx Hwf Hc (Hm _ Et)) as (bm1 & E & M). destruct r as [[ss se] cl]. cbn [fst snd] in E. rewrite E. cbn [mbind option_bind].
    pose proof M as [M1 M2 [M3 M4] _]. destruct (IH bm1 M1 M2) as (bm2 & -> & H); [intros q Hq; rewrite M4; by apply Hm|].
    exists bm2. split; [done|]. apply (handled_step _ _ idx bm bm1 bm2 M H).
    + rewrite bool_decide_eq_false_2 by done. apply andb_false_r.
    + intros p Hp. destruct (Z.eqb_spec p idx) as [->|Hpi]; [rewrite Et, bool_decide_eq_true_2 by (by left); done|].
      cbn. f_equal. apply bool_decide_ext. rewrite elem_of_cons. tauto.
  - destruct (IH bm Hwf Hc Hm) as (bm' & -> & [H1 H2 H3 H4]). exists bm'. split; [done|]. split; [done..|]. intros p b Hp Hb. rewrite H4 by done.
    destruct (Z.eqb_spec p idx) as [->|Hpi]; [by rewrite Et|]. replace (bool_decide (p ∈ idx :: slots)) with (bool_decide (p ∈ slots)); [done|].
    apply bool_decide_ext. rewrite elem_of_cons. tauto.
Qed.

(** The peer devices. *)
Definition has_slot (k : Z) (ps : list sync_peer) : bool := existsb (fun p => sp_index p =? k) ps.

Fixpoint distinct_slots (ps : list sync_peer) : Prop :=
  match ps with
  | [] => True
  | p :: ps => (sp_index p = -1 \/ has_slot (sp_index p) ps = false) /\ distinct_slots ps
  end.

Definition peer_ok (bm : bsr_bitmap) (p : sync_peer) : Prop := (sp_index p = -1 \/ 0 <= sp_index p < bm_max_peers bm) /\ rs_ok (sp_rs p).

Lemma follows_refl bm p : rs_ok (sp_rs p) -> follows bm bm p p.
Proof. intros K. split; [done|]. split; [done|]. split; [apply rtc_refl|done]. Qed.

(** Changes of other slots do not matter. *)
Lemma follows_after bm bm1 bm2 p p' : follows bm bm1 p p' -> (0 <= sp_index p -> forall x, weight bm2 (sp_index p) x = weight bm1 (sp_index p) x) ->
  follows bm bm2 p p'.
Proof. intros (F1 & F2 & F3 & F4) E. split_and!; [done..|]. intros Hi HL. eapply left_ok_ext; [|by apply F4]. intros x. by rewrite E. Qed.

Lemma follows_before bm bm1 bm2 p p' : follows bm1 bm2 p p' -> (0 <= sp_index p -> forall x, weight bm1 (sp_index p) x = weight bm (sp_index p) x) ->
  follows bm bm2 p p'.
Proof. intros (F1 & F2 & F3 & F4) E. split_and!; [done..|]. intros Hi HL. apply F4; [done|]. eapply left_ok_ext; [|exact HL]. intros x. by rewrite E. Qed.

(** A peer whose slot is to be handled. *)
Lemma slot_update bm p : wf bm -> Bitmap.counts_ok bm -> 0 <= sp_index p < bm_max_peers bm -> rs_ok (sp_rs p) -> forall s e,
  slot_range (sp_index p) = Some (s, e) ->
  exists n bm' p' log, update_sync_bits env bm p s e (set_mode (Z.testbit bits (sp_index p))) = Some (n, bm', p', log) /\
    n = op_count (mode_op (set_mode (Z.testbit bits (sp_index p)))) bm (sp_index p) s (last_bit bm e) [] /\
    slot_marked (Z.testbit bits (sp_index p)) (slot_range (sp_index p)) (sp_index p) bm bm' /\ follows bm bm' p p'.
Proof.
  intros Hwf Hc Hi K s e Hr. destruct (slot_range_ok _ _ Hr) as [R1 R2].
  destruct (update_sync_marked env (Z.testbit bits (sp_index p)) bm p s e Hwf Hc Hi K ltac:(done) ltac:(cbn in R2; lia))
    as (n & bm' & p' & log & E & En & M & F). exists n, bm', p', log. by rewrite Hr.
Qed.

Definition peers_handled (mask : Z) (ps ps' : list sync_peer) (bm bm' : bsr_bitmap) : Prop :=
  handled (fun k => Z.testbit mask k && has_slot k ps) bm bm' /\ Forall2 (follows bm bm') ps ps'.

Lemma peers_skip mask p ps ps' bm bm' : rs_ok (sp_rs p) -> distinct_slots (p :: ps) -> 0 <= sp_index p < bm_max_peers bm \/ sp_index p = -1 ->
  (0 <= sp_index p -> Z.testbit mask (sp_index p) = false) ->
  peers_handled mask ps ps' bm bm' -> peers_handled mask (p :: ps) (p :: ps') bm bm'.
Proof.
  intros K [Hd _] Hi Hm [[H1 H2 H3 H4] F]. split.
  - split; [done..|]. intros k b Hk Hb. rewrite H4 by done. cbn [has_slot existsb]. destruct (Z.eqb_spec (sp_index p) k) as [<-|]; [|done].
    rewrite Hm by lia. done.
  - constructor; [|done]. apply (follows_after bm bm); [by apply follows_refl|]. intros H0. apply weight_ext; [done|]. intros b Hb.
    rewrite H4 by lia. by rewrite Hm.
Qed.

Lemma peers_step mask p p' ps ps' bm bm1 bm' : distinct_slots (p :: ps) -> Forall (peer_ok bm) ps -> 0 <= sp_index p < bm_max_peers bm ->
  Z.testbit mask (sp_index p) = true ->
  slot_marked (Z.testbit bits (sp_index p)) (slot_range (sp_index p)) (sp_index p) bm bm1 -> follows bm bm1 p p' ->
  peers_handled (Z.clearbit mask (sp_index p)) ps ps' bm1 bm' -> peers_handled mask (p :: ps) (p' :: ps') bm bm'.
Proof.
  intros [Hd _] Hps Hi Hm M Fp [H F]. destruct Hd as [?|Hd]; [lia|]. pose proof M as [_ _ M3 M4]. pose proof M3 as [E1 E2].
  assert (forall k, 0 <= k -> Z.testbit (Z.clearbit mask (sp_index p)) k = Z.testbit mask k && negb (sp_index p =? k)) as Hcl.
  { intros k Hk. rewrite Z.clearbit_eqb by lia. done. }
  split.
  - apply (handled_step _ _ (sp_index p) bm bm1 bm' M H).
    + rewrite Hcl, Z.eqb_refl by lia. by rewrite andb_false_r.
    + intros k Hk. rewrite Hcl by lia. cbn [has_slot existsb]. rewrite (Z.eqb_sym k). destruct (Z.eqb_spec (sp_index p) k) as [<-|]; [by rewrite Hm|].
      by rewrite andb_true_r.
  - constructor.
    + apply (follows_after bm bm1); [done|]. intros _. apply weight_ext; [apply H|]. intros b Hb. rewrite (hd_bits _ _ _ H) by lia.
      rewrite Hcl, Z.eqb_refl by lia. by rewrite andb_false_r.
    + apply (Forall2_impl_in _ _ _ _ F). intros q q' Hq Hf. apply (follows_before bm bm1); [done|].
      intros H0. apply weight_ext; [done|]. intros b Hb. destruct (proj1 (Forall_forall _ _) Hps q Hq) as [Hqi _]. rewrite M4; [|lia|done].
      destruct (Z.eqb_spec (sp_index q) (sp_index p)) as [Eq|]; [|done]. exfalso. revert Hd. apply not_false_iff_true, existsb_exists.
      exists q. split; [by apply list_elem_of_In|by apply Z.eqb_eq].
Qed.

(** Bits of slot [k] that [bsr_set_sync] sets newly. *)
Definition new_bits (bm : bsr_bitmap) (k : Z) : Z := op_count BM_OP_SET bm k r.1.1 (last_bit bm r.1.2) [].

Lemma new_bits_marked v q idx bm bm1 k : slot_marked v q idx bm bm1 -> 0 <= k < bm_max_peers bm -> k <> idx -> new_bits bm1 k = new_bits bm k.
Proof.
  intros [_ _ [E _] M] Hk Hn. unfold new_bits, op_count, last_bit. rewrite E. apply count_true_ext. destruct Hset as [R1 R2]. intros b Hb.
  rewrite M by lia. by rewrite (proj2 (Z.eqb_neq _ _)) by done.
Qed.

(** What the loop over the peer devices returns. *)
Definition set_result (mask : Z) (ps : list sync_peer) (bm : bsr_bitmap) (set_bits mask' set_bits' : Z) : Prop := forall k, 0 <= k < bm_max_peers bm ->
  Z.testbit mask' k = Z.testbit mask k && negb (has_slot k ps) /\
  Z.testbit set_bits' k = Z.testbit set_bits k || (Z.testbit mask k && has_slot k ps && Z.testbit bits k && (0 <? new_bits bm k)).

Lemma result_skip mask p ps bm sb mask' sb' : (0 <= sp_index p -> Z.testbit mask (sp_index p) = false) ->
  set_result mask ps bm sb mask' sb' -> set_result mask (p :: ps) bm sb mask' sb'.
Proof.
  intros Hm H k Hk. destruct (H k Hk) as [-> ->]. cbn [has_slot existsb]. destruct (Z.eqb_spec (sp_index p) k) as [<-|]; [|done].
  by rewrite Hm by lia.
Qed.

Lemma result_step mask p ps bm bm1 sb sb1 mask' sb' : 0 <= sp_index p < bm_max_peers bm -> distinct_slots (p :: ps) ->
  Z.testbit mask (sp_index p) = true ->
  slot_marked (Z.testbit bits (sp_index p)) (slot_range (sp_index p)) (sp_index p) bm bm1 ->
  (forall k, 0 <= k -> Z.testbit sb1 k = Z.testbit sb k || ((sp_index p =? k) && Z.testbit bits k && (0 <? new_bits bm k))) ->
  set_result (Z.clearbit mask (sp_index p)) ps bm1 sb1 mask' sb' -> set_result mask (p :: ps) bm sb mask' sb'.
Proof.
  intros Hi [Hd _] Hm M Hsb H k Hk. destruct Hd as [?|Hd]; [lia|]. pose proof (sm_shape _ _ _ _ _ M) as [_ E2].
  destruct (H k) as [-> ->]; [by rewrite E2|]. rewrite Hsb by lia. rewrite Z.clearbit_eqb by lia. cbn [has_slot existsb].
  destruct (Z.eqb_spec (sp_index p) k) as [<-|Hne].
  - rewrite Hm. fold (has_slot (sp_index p) ps). rewrite Hd. cbn. by rewrite orb_false_r.
  - rewrite (new_bits_marked _ _ _ _ _ _ M Hk) by done. cbn. by rewrite andb_true_r, orb_false_r.
Qed.

Lemma clearbit_same m i : 0 <= i -> Z.testbit m i = false -> Z.clearbit m i = m.
Proof.
  intros Hi Hm. apply Z.bits_inj'. intros k Hk. rewrite Z.clearbit_eqb by lia. destruct (Z.eqb_spec i k) as [<-|]; [by rewrite Hm|].
  apply andb_true_r.
Qed.

(** The result of the loop over [ps], and of one round with the loop over the rest. *)
Definition loop_ok (ps : list sync_peer) (mask sb : Z) (bm : bsr_bitmap)
    (res : option (Z * Z * bsr_bitmap * list sync_peer * list sync_effect)) : Prop :=
  exists mask' sb' bm' ps' log, res = Some (mask', sb', bm', ps', log) /\
    peers_handled mask ps ps' bm bm' /\ set_result mask ps bm sb mask' sb' /\ (forall k, Z.testbit mask k = false -> Z.testbit mask' k = false).

Section round.
Context (p : sync_peer) (ps : list sync_peer) (mask sb : Z) (bm : bsr_bitmap).
Context (Hwf : wf bm) (Hc : Bitmap.counts_ok bm) (Hps : Forall (peer_ok bm) ps) (K : rs_ok (sp_rs p)) (Hd : distinct_slots (p :: ps)).
Context (IH : forall mask sb bm, wf bm -> Bitmap.counts_ok bm -> Forall (peer_ok bm) ps -> loop_ok ps mask sb bm (set_sync_peers env bits r mask sb bm ps)).

Lemma round_skip : 0 <= sp_index p < bm_max_peers bm \/ sp_index p = -1 -> (0 <= sp_index p -> Z.testbit mask (sp_index p) = false) ->
  loop_ok (p :: ps) mask sb bm
    ('(mask, set_bits, bm, ps, log') ← set_sync_peers env bits r mask sb bm ps; Some (mask, set_bits, bm, p :: ps, [] ++ log')).
Proof.
  intros Hi Hm. destruct (IH mask sb bm Hwf Hc Hps) as (m' & sb' & bm' & ps' & log & -> & H & R & C). cbn [mbind option_bind].
  do 5 eexists. split; [reflexivity|]. split; [by apply peers_skip|]. split; [by apply result_skip|done].
Qed.

Lemma round_step bm1 p1 sb1 log1 : 0 <= sp_index p < bm_max_peers bm -> Z.testbit mask (sp_index p) = true ->
  slot_marked (Z.testbit bits (sp_index p)) (slot_range (sp_index p)) (sp_index p) bm bm1 -> follows bm bm1 p p1 ->
  (forall k, 0 <= k -> Z.testbit sb1 k = Z.testbit sb k || ((sp_index p =? k) && Z.testbit bits k && (0 <? new_bits bm k))) ->
  loop_ok (p :: ps) mask sb bm
    ('(mask, set_bits, bm, ps, log') ← set_sync_peers env bits r (Z.clearbit mask (sp_index p)) sb1 bm1 ps;
     Some (mask, set_bits, bm, p1 :: ps, log1 ++ log')).
Proof.
  intros Hi Hm M F Hsb. pose proof M as [M1 M2 [E1 E2] _].
  destruct (IH (Z.clearbit mask (sp_index p)) sb1 bm1 M1 M2) as (m' & sb' & bm' & ps' & log & -> & H & R & C).
  { eapply Forall_impl; [exact Hps|]. intros q [Hq Kq]. split; [by rewrite E2|done]. }
  cbn [mbind option_bind]. do 5 eexists. split; [reflexivity|]. split; [by apply (peers_step mask p p1 ps ps' bm bm1 bm')|].
  split; [by apply (result_step mask p ps bm bm1 sb sb1)|]. intros k Hk. apply C.
  destruct (Z.le_gt_cases 0 k); [|by rewrite Z.testbit_neg_r]. rewrite Z.clearbit_eqb by lia. by rewrite Hk.
Qed.

End round.

Lemma set_sync_peers_ok ps mask sb bm : wf bm -> Bitmap.counts_ok bm -> Forall (peer_ok bm) ps -> distinct_slots ps ->
  loop_ok ps mask sb bm (set_sync_peers env bits r mask sb bm ps).
Proof.
  intros Hwf Hc Hps Hd. revert mask sb bm Hwf Hc Hps. induction ps as [|p ps IH]; intros mask sb bm Hwf Hc Hps; cbn [set_sync_peers].
  { eexists mask, sb, bm, [], []. split; [done|]. split; [split; [|constructor]|split].
    - apply handled_none; [done..|]. intros k _. apply andb_false_r.
    - intros k _. cbn. by rewrite andb_true_r, andb_false_r, orb_false_r.
    - done. }
  inversion Hps as [|? ? [Hi K] Hps']; subst. specialize (IH (proj2 Hd)).
  destruct (Z.eqb_spec (sp_index p) (-1)) as [E|Hne]; [apply round_skip; (done || lia)|].
  assert (0 <= sp_index p < bm_max_peers bm) as Hi' by tauto. unfold test_and_clear_bit.
  destruct (Z.testbit mask (sp_index p)) eqn:Et; cbn [negb]; [|rewrite clearbit_same by (done || lia); apply round_skip; tauto].
  pose proof (round_step p ps mask sb bm Hps' Hd IH) as Hstep. pose proof (slot_update bm p Hwf Hc Hi' K) as Hup.
  assert (forall k, Z.testbit bits (sp_index p) = false -> Z.testbit sb k = Z.testbit sb k || ((sp_index p =? k) && Z.testbit bits k && (0 <? new_bits bm k))) as Hsame.
  { intros k Hb. destruct (Z.eqb_spec (sp_index p) k) as [<-|]; [rewrite Hb|]; by rewrite orb_false_r. }
  rewrite (surjective_pairing r), (surjective_pairing r.1). cbn [fst snd].
  unfold slot_range, new_bits in *. destruct (Z.testbit bits (sp_index p)) eqn:Eb.
  - destruct (Hup _ _ eq_refl) as (n & bm1 & p1 & log1 & E & En & M & F). cbn [set_mode] in E. rewrite E. cbn [mbind option_bind].
    rewrite <- !surjective_pairing. apply Hstep; try done. intros k Hk. destruct F as [[-> _] _]. cbn [mode_op set_mode] in En. rewrite En.
    destruct (Z.eqb_spec (sp_index p) k) as [<-|Hne']; [rewrite Eb; destruct (0 <? _); [|by rewrite orb_false_r]|destruct (0 <? _); [|by rewrite orb_false_r]];
      rewrite Z.lor_spec, Z.shiftl_1_l, Z.pow2_bits_eqb by lia; [by rewrite Z.eqb_refl|by rewrite (proj2 (Z.eqb_neq _ _))].
  - destruct r.2 as [[s e]|] eqn:Er2.
    + destruct (Hup _ _ eq_refl) as (n & bm1 & p1 & log1 & E & En & M & F). cbn [set_mode] in E. rewrite E. cbn [mbind option_bind].
      rewrite <- Er2, <- !surjective_pairing. apply Hstep; try done. intros k _. by apply Hsame.
    + rewrite <- Er2, <- !surjective_pairing. apply (Hstep bm p sb []); [done|done| |by apply follows_refl|intros k _; by apply Hsame].
      split; [done..|]. intros q b _ _. cbn. by destruct (q =? sp_index p).
Qed.

End slots.

Lemma set_sync_bits_ok capacity first last : 8 <= capacity < 2 ^ 49 -> 0 <= first <= last -> last < capacity ->
  let r := set_sync_bits capacity first last in
  r.1 = block_range capacity first last SET_OUT_OF_SYNC /\ range_ok r.1 /\ (forall q, r.2 = Some q -> range_ok q) /\
  (forall b old, 0 <= b -> marked false r.2 b old = old && negb (within (block_range capacity first last SET_IN_SYNC) b)).
Proof.
  intros Hc Hf Hl r. destruct (block_range_bounds capacity first last SET_OUT_OF_SYNC Hf Hl ltac:(lia)) as [A1 A2].
  destruct (block_range_bounds capacity first last SET_IN_SYNC Hf Hl ltac:(lia)) as [B1 B2].
  assert (r = (first / 8, last / 8,
    let q := block_range capacity first last SET_IN_SYNC in if q.1 <=? q.2 then Some q else None)) as ->.
  { unfold r, set_sync_bits. rewrite !sect_to_bit, !u64_id by (change BM_SECT_PER_BIT with 8; lia). change BM_SECT_PER_BIT with 8.
    replace (first + 8 - 1) with (first + 7) by lia. cbn [block_range fst snd]. f_equal.
    destruct (Z.eqb_spec last (capacity - 1)); [done|]. destruct (Z.eqb_spec ((last + 1) / 8) 0) as [->|]; [|done].
    rewrite (proj2 (Z.leb_gt _ _)); [done|]. cbn in B1. lia. }
  cbn [fst snd]. set (q := block_range capacity first last SET_IN_SYNC) in *. split; [done|].
  split; [split; cbn in *; [lia|split; [apply Z.div_pos; lia|lia]]|]. split.
  - cbv zeta. destruct (Z.leb_spec q.1 q.2); [|done]. intros q' [= <-]. split; lia.
  - intros b old Hb. cbv zeta. unfold within. destruct (Z.leb_spec q.1 q.2) as [Hle|Hgt]; cbn [marked].
    + unfold within. destruct (_ && _); by rewrite ?andb_false_r, ?andb_true_r.
    + assert ((q.1 <=? b) && (b <=? q.2) = false) as -> by (rewrite andb_false_iff, !Z.leb_gt; lia). by rewrite andb_true_r.
Qed.

(** The slots of the mask. *)
Lemma slot_mask mask n k : 1 <= n <= 31 -> 0 <= k ->
  Z.testbit (Z.land mask (u64 (s32 (s32 (Z.shiftl 1 n) - 1)))) k = Z.testbit mask k && (k <? n).
Proof.
  intros Hn Hk. rewrite Z.land_spec. f_equal. rewrite Z.shiftl_1_l.
  assert (u64 (s32 (s32 (2 ^ n) - 1)) = Z.ones n) as ->; [|rewrite testbit_ones by lia; split_cmp; done || lia].
  assert (n = 31 \/ n < 31) as [->|Hn'] by lia; [by vm_compute|].
  assert (0 < 2 ^ n <= 2 ^ 30) by (split; [apply Z.pow_pos_nonneg; lia|apply Z.pow_le_mono_r; lia]).
  rewrite (s32_id (2 ^ n)) by lia. rewrite s32_id, u64_id by lia. rewrite Z.ones_equiv. lia.
Qed.

Lemma new_bits_pos r bm k : 0 <= r.1.1 -> 0 < new_bits r bm k <-> exists b, within r.1 b = true /\ b < bm_bits bm /\ bm_bit bm k b = false.
Proof.
  intros Hr. unfold new_bits, op_count. set (f := fun b => _). set (n := Z.to_nat _). pose proof (count_true_bounds f r.1.1 n) as Hb. split.
  - intros Hp. destruct (existsb (fun i => f (r.1.1 + Z.of_nat i)) (seq 0 n)) eqn:E.
    + apply existsb_exists in E as (i & Hi & Hf). apply in_seq in Hi. exists (r.1.1 + Z.of_nat i). rewrite within_iff.
      unfold f, n, last_bit in *. cbn in Hf. split; [lia|]. split; [lia|]. by destruct (bm_bit bm k (r.1.1 + Z.of_nat i)).
    + exfalso. assert (count_true f r.1.1 n = 0); [|lia]. apply count_true_zero. intros i Hi. apply not_true_iff_false. intros Hf.
      revert E. apply not_false_iff_true, existsb_exists. exists (Z.to_nat (i - r.1.1)). split; [apply in_seq; lia|].
      by replace (r.1.1 + Z.of_nat (Z.to_nat (i - r.1.1))) with i by lia.
  - intros (b & Hw & Hlt & Hf). apply within_iff in Hw. destruct (Z.eq_dec (count_true f r.1.1 n) 0) as [E|]; [|lia].
    rewrite count_true_zero in E. specialize (E b). unfold f, n, last_bit in E. cbn in E. rewrite Hf in E. discriminate E. lia.
Qed.

(** ** The bitmap of the file system *)

Lemma follows_trans bm bm1 bm2 p p1 p2 : follows bm bm1 p p1 -> follows bm1 bm2 p1 p2 -> follows bm bm2 p p2.
Proof.
  intros ([A1 A2] & A3 & A4 & A5) ([B1 B2] & B3 & B4 & B5). rewrite A1 in *. split; [split; congruence|]. split; [done|].
  split; [by etrans|]. intros Hi HL. by apply B5, A5.
Qed.

(** The bits of [f] are set in slot [idx]; [n] of them are new. *)
Record slot_joined (f : Z -> bool) (idx n : Z) (bm bm' : bsr_bitmap) : Prop := mk_slot_joined {
  sj_wf : wf bm';
  sj_counts : Bitmap.counts_ok bm';
  sj_shape : same_shape bm bm';
  sj_total : total bm' idx = total bm idx + n;
  sj_bits : forall p b, 0 <= p < bm_max_peers bm -> 0 <= b < bm_bits bm -> bm_bit bm' p b = bm_bit bm p b || ((p =? idx) && f b) }.

Lemma joined_none idx bm : wf bm -> Bitmap.counts_ok bm -> slot_joined (fun _ => false) idx 0 bm bm.
Proof. intros Hwf Hc. split; [done..|lia|]. intros p b _ _. by rewrite andb_false_r, orb_false_r. Qed.

Lemma joined_trans f g h idx n m bm bm1 bm2 : slot_joined f idx n bm bm1 -> slot_joined g idx m bm1 bm2 ->
  (forall b, 0 <= b < bm_bits bm -> h b = f b || g b) -> slot_joined h idx (n + m) bm bm2.
Proof.
  intros [A1 A2 A3 A4 A5] [B1 B2 B3 B4 B5] Hh. split; [done..|by eapply same_shape_trans|lia|]. intros p b Hp Hb. destruct A3 as [E1 E2].
  rewrite B5 by lia. rewrite A5, Hh by done. by destruct (bm_bit bm p b), (p =? idx), (f b).
Qed.

Lemma joined_ext f g idx n bm bm' : slot_joined f idx n bm bm' -> (forall b, 0 <= b < bm_bits bm -> g b = f b) -> slot_joined g idx n bm bm'.
Proof. intros [A1 A2 A3 A4 A5] E. split; [done..|]. intros p b Hp Hb. by rewrite A5, E. Qed.

Lemma run_joined env bm p s e : wf bm -> Bitmap.counts_ok bm -> 0 <= sp_index p < bm_max_peers bm -> rs_ok (sp_rs p) ->
  0 <= s <= e -> e < 2 ^ 47 - 2 ^ 15 ->
  exists n bm' p' log, update_sync_bits env bm p s e SET_OUT_OF_SYNC = Some (n, bm', p', log) /\ 0 <= n <= e + 1 - s /\
    slot_joined (within (s, e)) (sp_index p) n bm bm' /\ follows bm bm' p p'.
Proof.
  intros Hwf Hc Hi K Hs He. destruct (update_sync_bits_ok env SET_OUT_OF_SYNC bm p s e Hwf Hi K ltac:(lia) ltac:(lia)) as (bm' & p' & log & -> & W & (F1 & F2 & F3) & P).
  eexists _, bm', p', log. split; [reflexivity|]. split; [|split; [|done]].
  - destruct (Z.le_gt_cases s (last_bit bm e)); [|rewrite op_count_empty by done; lia].
    pose proof (op_count_bounds (mode_op SET_OUT_OF_SYNC) bm (sp_index p) s (last_bit bm e)). unfold last_bit in *. lia.
  - destruct (written_marked true bm (sp_index p) s e bm' Hwf Hc Hi ltac:(lia) W) as [M1 M2 M3 M4]. split; [done..| |].
    + apply (wrote_total SET_OUT_OF_SYNC); (done || lia).
    + intros q b Hq Hb. rewrite M4 by done. cbn [marked]. destruct (q =? sp_index p), (bm_bit bm q b), (within (s, e) b); done.
Qed.

(** The bits from [pos] on, and the run that is not yet marked. *)
Definition fs_bits (buffer : list bool) (pos : Z) (start : option Z) (b : Z) : bool :=
  (if decide (pos <= b) then default false (buffer !! Z.to_nat (b - pos)) else false) ||
  match start with Some s => within (s, pos - 1) b | None => false end.

Lemma fs_bits_cons x buffer pos start b : fs_bits (x :: buffer) pos start b = (x && (b =? pos)) || fs_bits buffer (pos + 1) None b ||
  match start with Some s => within (s, pos - 1) b | None => false end.
Proof.
  unfold fs_bits. rewrite orb_false_r. f_equal. destruct (Z.eqb_spec b pos) as [->|Hn].
  - rewrite decide_True, decide_False, Z.sub_diag by lia. cbn. by rewrite andb_true_r, orb_false_r.
  - rewrite andb_false_r. cbn [orb]. destruct (decide (pos <= b)); [|by rewrite decide_False by lia]. rewrite decide_True by lia.
    by replace (Z.to_nat (b - pos)) with (S (Z.to_nat (b - (pos + 1)))) by lia.
Qed.

Lemma run_grows s pos b : s <= pos -> within (s, pos) b = (b =? pos) || within (s, pos - 1) b.
Proof. intros. unfold within. cbn. split_cmp; done. Qed.

Lemma oos_runs_ok env buffer pos start count bm p : wf bm -> Bitmap.counts_ok bm -> 0 <= sp_index p < bm_max_peers bm -> rs_ok (sp_rs p) ->
  0 <= pos -> pos + Z.of_nat (length buffer) < 2 ^ 47 - 2 ^ 15 -> (forall s, start = Some s -> 0 <= s < pos) ->
  0 <= count <= default pos start ->
  exists n bm' p', oos_runs env buffer pos start count bm p = Some (count + n, bm', p') /\
    slot_joined (fs_bits buffer pos start) (sp_index p) n bm bm' /\ follows bm bm' p p'.
Proof.
  revert pos start count bm p. induction buffer as [|x buffer IH]; intros pos start count bm p Hwf Hc Hi K H0 Hlen Hst Hcnt; cbn [oos_runs length] in *.
  - destruct start as [s|].
    + specialize (Hst s eq_refl). rewrite u64_id by lia. destruct (run_joined env bm p s (pos - 1) Hwf Hc Hi K ltac:(lia) ltac:(lia)) as (n & bm' & p' & log & -> & Hn & J & F).
      cbn [mbind option_bind]. exists n, bm', p'. cbn in Hcnt. rewrite u64_id by lia. split; [done|]. split; [|done].
      apply (joined_ext _ _ _ _ _ _ J). intros b Hb. unfold fs_bits. rewrite lookup_nil. by destruct (decide _).
    + exists 0, bm, p. rewrite Z.add_0_r. split; [done|]. split; [|by apply follows_refl].
      apply (joined_ext _ _ _ _ _ _ (joined_none _ _ Hwf Hc)). intros b Hb. unfold fs_bits. rewrite lookup_nil. by destruct (decide _).
  - assert (forall start', (forall s, start' = Some s -> 0 <= s < pos + 1) -> 0 <= count <= default (pos + 1) start' ->
      (forall b, 0 <= b -> fs_bits (x :: buffer) pos start b = fs_bits buffer (pos + 1) start' b) ->
      exists n bm' p', oos_runs env buffer (pos + 1) start' count bm p = Some (count + n, bm', p') /\
        slot_joined (fs_bits (x :: buffer) pos start) (sp_index p) n bm bm' /\ follows bm bm' p p') as Hnext.
    { intros start' H1 H2 H3. destruct (IH (pos + 1) start' count bm p Hwf Hc Hi K) as (n & bm' & p' & E & J & F); [lia|lia|done|done|].
      exists n, bm', p'. split; [done|]. split; [|done]. apply (joined_ext _ _ _ _ _ _ J). intros b Hb. apply H3. lia. }
    destruct start as [s|]; [specialize (Hst s eq_refl); cbn in Hcnt|]; destruct x.
    + apply Hnext; [intros ? [= <-]; lia|cbn; lia|]. intros b Hb. rewrite fs_bits_cons. unfold fs_bits. rewrite orb_false_r.
      replace (pos + 1 - 1) with pos by lia. rewrite (run_grows s pos) by lia. set (y := if decide _ then _ else _).
      destruct (b =? pos), y, (within _ b); done.
    + destruct (run_joined env bm p s (pos - 1) Hwf Hc Hi K ltac:(lia) ltac:(lia)) as (n & bm1 & p1 & log & -> & Hn & J & F). cbn [mbind option_bind].
      rewrite u64_id by lia. pose proof J as [J1 J2 [J3 J4] _ _]. pose proof F as ([F1 _] & F2 & _).
      destruct (IH (pos + 1) None (count + n) bm1 p1) as (m & bm2 & p2 & -> & J' & F'); try done; [by rewrite F1, J4|lia|lia|cbn; lia|].
      exists (n + m), bm2, p2. rewrite Z.add_assoc. split; [done|]. split; [|by eapply follows_trans]. rewrite F1 in J'.
      apply (joined_trans _ _ _ _ _ _ _ _ _ J J'). intros b Hb. rewrite fs_bits_cons. cbn [andb orb]. apply orb_comm.
    + apply Hnext; [intros ? [= <-]; lia|cbn in *; lia|]. intros b Hb. rewrite fs_bits_cons. unfold fs_bits. rewrite !orb_false_r.
      replace (pos + 1 - 1) with pos by lia. unfold within. cbn. rewrite orb_comm. f_equal. split_cmp; done.
    + apply Hnext; [done|cbn in *; lia|]. intros b Hb. rewrite fs_bits_cons. cbn [andb orb]. apply orb_false_r.
Qed.

(** Bit [b] of a buffer of bytes. *)
Definition buffer_bit (buffer : list Z) (b : Z) : bool := Z.testbit (nth (Z.to_nat (b / 8)) buffer 0) (b mod 8).

Lemma buffer_bits buffer b : 0 <= b -> default false (concat (map byte_bits buffer) !! Z.to_nat b) = buffer_bit buffer b.
Proof.
  unfold buffer_bit. revert b. induction buffer as [|x buffer IH]; intros b Hb; cbn [map concat].
  - rewrite lookup_nil. destruct (Z.to_nat (b / 8)); cbn; by rewrite Z.bits_0.
  - destruct (Z.lt_ge_cases b 8) as [Hlt|Hge].
    + rewrite lookup_app_l by (cbn; lia). rewrite Z.div_small, Z.mod_small by lia. cbn [nth Z.to_nat].
      unfold byte_bits. rewrite list_lookup_fmap, lookup_seq_lt by lia. cbn. f_equal. lia.
    + rewrite lookup_app_r by (cbn; lia). replace (Z.to_nat b - length (byte_bits x))%nat with (Z.to_nat (b - 1 * 8)) by (cbn; lia).
      rewrite IH by lia. replace (b / 8) with ((b - 1 * 8) / 8 + 1) by (rewrite <- Z.div_add by done; f_equal; lia).
      assert (0 <= (b - 1 * 8) / 8) by (apply Z.div_pos; lia). replace (Z.to_nat ((b - 1 * 8) / 8 + 1)) with (S (Z.to_nat ((b - 1 * 8) / 8))) by lia.
      cbn [nth]. f_equal. replace b with (b - 1 * 8 + 1 * 8) at 2 by lia. by rewrite Z.mod_add.
Qed.

(** C23. SetOOSFromBitmap, which walks the bitmap of the file system by runs of set
    bits, joins that bitmap to the bits of the slot, as bit by bit marking would, and
    returns the number of bits that were not set before. *)
Theorem fs_bitmap_marked env bm p buffer : wf bm -> Bitmap.counts_ok bm -> 0 <= sp_index p < bm_max_peers bm -> rs_ok (sp_rs p) ->
  Z.of_nat (length buffer) < 2 ^ 43 ->
  exists n bm' p', SetOOSFromBitmap env buffer bm p = Some (n, bm', p') /\
    slot_joined (buffer_bit buffer) (sp_index p) n bm bm' /\ follows bm bm' p p'.
Proof.
  intros Hwf Hc Hi K Hl. unfold SetOOSFromBitmap.
  assert (length (concat (map byte_bits buffer)) = (8 * length buffer)%nat) as El by (clear; induction buffer; cbn; lia).
  destruct (oos_runs_ok env (concat (map byte_bits buffer)) 0 None 0 bm p Hwf Hc Hi K) as (n & bm' & p' & E & J & F); [lia|lia|done|done|].
  exists n, bm', p'. split; [done|]. split; [|done]. apply (joined_ext _ _ _ _ _ _ J). intros b Hb. unfold fs_bits.
  rewrite decide_True, Z.sub_0_r, orb_false_r by lia. symmetry. apply buffer_bits. lia.
Qed.

(** C22. __bsr_change_sync, for a plausible request: marking out of sync sets the bits
    of all blocks the sectors touch, marking in sync clears only blocks that are covered
    completely (the last one of the device may be short), recording a failure changes no
    bit; in each mode it returns the number of blocks of that range whose bit was to
    change (clear before marking out of sync, set before marking in sync) or, for a
    failure, was set; other slots stay, and rs_left of every cached resync extent
    remains the number of bits set in that extent as long as the cache of extents is not
    exhausted. *)
Theorem change_sync_exact env bm p sector size mode : let capacity := se_capacity env in
  wf bm -> Bitmap.counts_ok bm -> fits bm capacity -> 0 <= sp_index p < bm_max_peers bm -> rs_ok (sp_rs p) ->
  se_ldev env = true -> plausible_request_size size = true -> 0 <= sector < capacity ->
  exists n bm' p' log, __bsr_change_sync env bm p sector size mode = Some (n, bm', p', log) /\
    wf bm' /\ Bitmap.counts_ok bm' /\ total bm' (sp_index p) = total bm (sp_index p) + mode_delta mode n /\
    (exists counted, n = count_true counted 0 (Z.to_nat (bm_bits bm)) /\ forall b, 0 <= b < bm_bits bm ->
       counted b = true <->
       counts mode (concerns capacity sector (last_sector capacity sector size) mode b) (bm_bit bm (sp_index p) b = true)) /\
    (forall b, 0 <= b < bm_bits bm ->
       bm_bit bm' (sp_index p) b = true <->
       bit_after mode (concerns capacity sector (last_sector capacity sector size) mode b) (bm_bit bm (sp_index p) b = true)) /\
    (forall q b, 0 <= q < bm_max_peers bm -> 0 <= b -> q <> sp_index p -> bm_bit bm' q b = bm_bit bm q b) /\
    rs_ok (sp_rs p') /\ (left_ok (weight bm (sp_index p)) (sp_rs p) -> left_ok (weight bm' (sp_index p)) (sp_rs p')).
Proof.
  intros capacity Hwf Hc [Hcap Hbits] Hi K Hl Hsz Hs. unfold __bsr_change_sync. rewrite Hsz, Hl. cbn [negb].
  unfold plausible_request_size in Hsz. apply andb_true_iff in Hsz as [Hsz Hal]. apply andb_true_iff in Hsz as [Hz1%Z.ltb_lt Hz2%Z.leb_le].
  apply Z.eqb_eq in Hal. rewrite (proj2 (Z.eqb_neq size 0)), andb_false_r by lia. fold capacity.
  destruct (sectors_pos size Hz1 Hal) as [H1 _].
  assert (0 <= sector <= last_sector capacity sector size /\ last_sector capacity sector size < capacity) as [Hlast Hlast'] by (unfold last_sector; lia).
  pose proof (change_sync_bits_ok capacity sector size mode ltac:(unfold capacity; lia) Hs ltac:(lia) Hal) as Hr. cbv zeta in Hr. set (last := last_sector _ _ _) in *.
  assert (forall b, 0 <= b < bm_bits bm -> concerns capacity sector last mode b <-> within (block_range capacity sector last mode) b = true) as Hcon.
  { intros b Hb. apply concerns_within; [done..|]. fold capacity in Hbits. lia. }
  destruct (change_sync_bits capacity sector size mode) as [[s e]|].
  - destruct (block_range_bounds capacity sector last mode Hlast Hlast' ltac:(unfold capacity; lia)) as [B1 B2]. rewrite <- Hr in *. cbn [fst snd] in *.
    destruct (update_sync_bits_ok env mode bm p s e Hwf Hi K B1 B2) as (bm' & p' & log & -> & W & (K' & _ & L) & _).
    eexists _, bm', p', log. split; [reflexivity|]. split; [apply (wrote_fixed _ _ _ _ _ _ Hwf W)|].
    split; [apply (wrote_counts mode bm (sp_index p) s e); (done || lia)|]. split; [apply wrote_total; (done || lia)|].
    split; [|split; [|split; [|done]]].
    + rewrite (mode_count mode bm (sp_index p) s e) by lia. eexists. split; [reflexivity|]. intros b Hb. cbn beta.
      unfold counts. rewrite andb_true_iff, (Hcon b Hb). destruct mode; rewrite ?negb_true_iff, <- ?not_true_iff_false; done.
    + intros b Hb. rewrite (wrote_bit mode bm (sp_index p) s e bm' b Hi Hb W). apply bit_after_ext. symmetry. by apply Hcon.
    + intros q b Hq Hb Hn. by apply (wrote_other mode bm (sp_index p) s (last_bit bm e)).
  - destruct Hr as [-> Hneg]. exists 0, bm, p, []. split; [done|]. split; [done|]. split; [done|]. split; [cbn; lia|]. split; [|split; [|done]].
    { exists (fun _ => false). split; [symmetry; by apply count_true_zero|]. intros b Hb. split; [done|].
      intros [Hx _]. apply (Hcon b Hb), within_iff in Hx. lia. }
    intros b Hb. cbn [bit_after]. rewrite (Hcon b Hb), within_iff. split; [|tauto]. intros H. split; [done|]. lia.
Qed.

(** Peer devices first, then the slots that are left. *)
Lemma handled_both bits r m m' (slots : list Z) ps bm bm1 bm2 : (forall k, 0 <= k < bm_max_peers bm -> k ∈ slots) ->
  handled bits r (fun k => Z.testbit m k && has_slot k ps) bm bm1 ->
  handled bits r (fun k => Z.testbit m' k && bool_decide (k ∈ slots)) bm1 bm2 ->
  (forall k, 0 <= k < bm_max_peers bm -> Z.testbit m' k = Z.testbit m k && negb (has_slot k ps)) ->
  handled bits r (fun k => Z.testbit m k) bm bm2.
Proof.
  intros Hp [P1 P2 P3 P4] [Q1 Q2 Q3 Q4] Hm. split; [done..|by eapply same_shape_trans|]. intros k b Hk Hb. destruct P3 as [E1 E2].
  rewrite Q4 by lia. rewrite P4, Hm by done. rewrite bool_decide_eq_true_2, andb_true_r by auto.
  destruct (Z.testbit m k), (has_slot k ps); done.
Qed.

Definition slots_mask (bm : bsr_bitmap) (mask : Z) : Z := Z.land mask (u64 (s32 (s32 (Z.shiftl 1 (bm_max_peers bm)) - 1))).

Section set_sync.
Context (env : sync_env) (bm : bsr_bitmap) (ps : list sync_peer) (sector size bits mask capacity last : Z).
Context (Ecap : capacity = se_capacity env) (Elast : last = last_sector capacity sector size).
Context (Hwf : wf bm) (Hc : Bitmap.counts_ok bm) (Hfit : fits bm capacity) (Hmp : bm_max_peers bm <= 31).
Context (Hps : Forall (peer_ok bm) ps) (Hd : distinct_slots ps) (Hl : se_ldev env = true).
Context (Hsz : 0 < size < 2 ^ 31) (Hal : Z.land size 511 = 0) (Hs : 0 <= sector < capacity).

Lemma last_ok : 0 <= sector <= last /\ last < capacity.
Proof. destruct (sectors_pos size ltac:(lia) Hal) as [H1 _]. rewrite Elast. unfold last_sector. lia. Qed.

(** After the checks. *)
Lemma set_sync_start m' sb bm1 bm2 ps' log :
  set_sync_peers env bits (set_sync_bits capacity sector last) (slots_mask bm mask) 0 bm ps = Some (m', sb, bm1, ps', log) ->
  set_sync_slots bits (set_sync_bits capacity sector last) m' all_slots bm1 = Some bm2 ->
  bsr_set_sync env bm ps sector size bits mask = Some (sb, bm2, ps', log).
Proof.
  intros E1 E2.
  destruct Hfit as [Hcap _]. destruct (sectors_pos size ltac:(lia) Hal) as [H1 H9]. assert (size / 512 < 2 ^ 31) by (apply Z.div_lt_upper_bound; lia).
  unfold bsr_set_sync, slots_mask. rewrite (proj2 (Z.leb_gt size 0)), Hal, Hl, Z.eqb_refl by lia. cbn [negb orb]. rewrite <- Ecap.
  rewrite (proj2 (Z.ltb_lt sector capacity)) by lia. cbn [negb]. rewrite H9, (u64_id (sector + size / 512 - 1)) by lia.
  assert ((if negb (sector + size / 512 - 1 <? capacity) then capacity - 1 else sector + size / 512 - 1) = last) as ->.
  2: { fold (slots_mask bm mask). rewrite E1. unfold mbind, option_bind. by rewrite E2. }
  rewrite Elast. unfold last_sector. destruct (Z.ltb_spec (sector + size / 512 - 1) capacity); cbn [negb]; lia.
Qed.

Lemma slots_mask_in k : 0 <= k < bm_max_peers bm -> Z.testbit (slots_mask bm mask) k = Z.testbit mask k.
Proof. intros Hk. pose proof (wf_peers _ Hwf). unfold slots_mask. rewrite slot_mask by lia. split_cmp. apply andb_true_r. Qed.

Lemma slots_mask_out k : bm_max_peers bm <= k -> Z.testbit (slots_mask bm mask) k = false.
Proof. intros Hk. pose proof (wf_peers _ Hwf). unfold slots_mask. rewrite slot_mask by lia. split_cmp. apply andb_false_r. Qed.

Lemma all_slots_nodup : NoDup all_slots.
Proof. apply (NoDup_fmap_2 Z.of_nat), NoDup_seq. Qed.

Lemma all_slots_in k : 0 <= k < bm_max_peers bm -> k ∈ all_slots.
Proof. intros Hk. apply list_elem_of_fmap. exists (Z.to_nat k). split; [lia|]. apply elem_of_seq. lia. Qed.

Lemma set_sync_core r : r = set_sync_bits capacity sector last ->
  exists set_bits bm' ps' log, bsr_set_sync env bm ps sector size bits mask = Some (set_bits, bm', ps', log) /\
    handled bits r (fun k => Z.testbit mask k) bm bm' /\
    (forall k, 0 <= k < bm_max_peers bm -> Z.testbit set_bits k = Z.testbit mask k && has_slot k ps && Z.testbit bits k && (0 <? new_bits r bm k)) /\
    Forall2 (follows bm bm') ps ps'.
Proof.
  intros Er. pose proof (wf_peers _ Hwf) as Hpe. destruct last_ok as [Hlast Hlast'].
  pose proof set_sync_start as Hstart. rewrite <- Er in Hstart. destruct (set_sync_bits_ok capacity sector last (proj1 Hfit) Hlast Hlast') as (_ & R2 & R3 & _). rewrite <- Er in R2, R3.
  pose proof all_slots_nodup as Hnd. pose proof all_slots_in as Hall. set (slots := all_slots) in *. clearbody slots.
  pose proof slots_mask_in as Hin. pose proof slots_mask_out as Hout. set (m := slots_mask bm mask) in *. clearbody m.
  destruct (set_sync_peers_ok env bits r R2 R3 ps m 0 bm Hwf Hc Hps Hd) as (m' & sb & bm1 & ps' & log & Ep & [P F] & R & Cm).
  pose proof P as [P1 P2 [P3 P3'] P4].
  destruct (set_sync_slots_ok bits r R2 R3 m' slots bm1 P1 P2 Hnd) as (bm2 & Es & Q).
  { intros k Hk. destruct (Z.lt_ge_cases k 0) as [?|H0]; [by rewrite Z.testbit_neg_r in Hk|]. split; [done|]. rewrite P3'.
    apply Z.lt_nge. intros Hge. rewrite Cm in Hk; [done|]. by apply Hout. }
  exists sb, bm2, ps', log. split; [by apply (Hstart m' sb bm1 bm2 ps' log)|].
  assert (handled bits r (fun k => Z.testbit m k) bm bm2) as [T1 T2 T3 T4].
  { apply (handled_both bits r m m' slots ps bm bm1 bm2 Hall P Q). intros k Hk. by apply R. }
  split; [split; [done..|]; intros k b Hk Hb; rewrite T4 by done; by rewrite Hin|]. split.
  - intros k Hk. destruct (R k Hk) as [_ ->]. by rewrite Z.bits_0, Hin.
  - apply (Forall2_impl_in _ _ _ _ F). intros p p' Hp Hf. apply (follows_after bm bm1); [done|]. intros H0. destruct Q as [_ _ Q3 Q4].
    apply weight_ext; [done|]. intros b Hb. destruct (proj1 (Forall_forall _ _) Hps p Hp) as [Hpi _]. rewrite Q4 by lia.
    destruct (R (sp_index p)) as [-> _]; [lia|]. assert (has_slot (sp_index p) ps = true) as ->; [|by rewrite andb_false_r].
    apply existsb_exists. exists p. split; [by apply list_elem_of_In|by apply Z.eqb_refl].
Qed.

End set_sync.

(** C21. bsr_set_sync for a range of sectors, which may reach beyond the device: for
    each slot in the mask every block with a sector of the range becomes out of sync if
    the bit of the slot is set, and otherwise exactly the blocks that lie in the range
    with all their sectors become in sync; all other bits stay. It returns the slots
    with a peer device in which a bit was newly set, keeps the weights of the bitmap,
    and the cached counts of the peers follow. *)
Theorem set_sync_exact env bm ps sector size bits mask : let capacity := se_capacity env in
  let last := last_sector capacity sector size in
  wf bm -> Bitmap.counts_ok bm -> fits bm capacity -> bm_max_peers bm <= 31 -> Forall (peer_ok bm) ps -> distinct_slots ps ->
  se_ldev env = true -> 0 < size < 2 ^ 31 -> Z.land size 511 = 0 -> 0 <= sector < capacity ->
  exists set_bits bm' ps' log, bsr_set_sync env bm ps sector size bits mask = Some (set_bits, bm', ps', log) /\
    wf bm' /\ Bitmap.counts_ok bm' /\
    (forall k b, 0 <= k < bm_max_peers bm -> 0 <= b < bm_bits bm ->
       bm_bit bm' k b = true <->
       if Z.testbit mask k then
         if Z.testbit bits k then bm_bit bm k b = true \/ touches sector last b else bm_bit bm k b = true /\ ~ covered capacity sector last b
       else bm_bit bm k b = true) /\
    (forall k, 0 <= k < bm_max_peers bm ->
       Z.testbit set_bits k = true <->
       Z.testbit mask k = true /\ Z.testbit bits k = true /\ has_slot k ps = true /\
       exists b, touches sector last b /\ bm_bit bm k b = false) /\
    Forall2 (follows bm bm') ps ps'.
Proof.
  intros capacity last Hwf Hc Hfit Hmp Hps Hd Hl Hsz Hal Hs.
  destruct (set_sync_core env bm ps sector size bits mask capacity last eq_refl eq_refl Hwf Hc Hfit Hmp Hps Hd Hl Hsz Hal Hs _ eq_refl)
    as (sb & bm' & ps' & log & E & [H1 H2 H3 H4] & R & F).
  destruct (last_ok sector size capacity last eq_refl Hsz Hal Hs) as [Hlast Hlast']. destruct Hfit as [Hcap Hbits].
  destruct (set_sync_bits_ok capacity sector last Hcap Hlast Hlast') as (R1 & R2 & _ & R4).
  exists sb, bm', ps', log. split; [done|]. split; [done|]. split; [done|]. split; [|split; [|done]].
  - intros k b Hk Hb. rewrite H4 by done. destruct (Z.testbit mask k); [|done]. unfold slot_after, slot_range.
    rewrite <- !surjective_pairing. destruct (Z.testbit bits k).
    + rewrite touches_within by done. cbn [marked]. rewrite R1. cbn [block_range]. destruct (within _ b); intuition congruence.
    + rewrite R4, andb_true_iff, negb_true_iff by lia. rewrite (covered_within capacity sector last b) by (done || lia). cbn [block_range].
      by rewrite not_true_iff_false.
  - intros k Hk. rewrite R by done. rewrite !andb_true_iff, Z.ltb_lt, new_bits_pos by apply R2. rewrite R1.
    assert (forall b, touches sector last b -> b < bm_bits bm) as Hin.
    { intros b (x & Hx & <-). pose proof (Z.div_le_mono x (capacity - 1) 8 ltac:(done) ltac:(lia)). lia. }
    split.
    + intros [[[? ?] ?] (b & Hw & ? & ?)]. split_and!; [done..|]. exists b. split; [by apply touches_within|done].
    + intros (? & ? & ? & b & Ht & ?). split_and!; [done..|]. exists b. split_and!; [by apply touches_within in Ht|by apply Hin|done].
Qed.

(** ** A small device

    100 blocks and two slots; the second has a peer device whose extents are new. *)

Definition demo_env : sync_env := mk_se 1000 250 true true 800 false true 0 0 false.
Definition demo_rs : rs_peer := (bsr_attach_peer_device true true (mk_rs_peer 112 (fresh 1 1 stats0) [] LC_FREE 0)).2.
Definition demo_peer : sync_peer := mk_sp demo_rs 1 L_ESTABLISHED 0 false 0 0 (repeat 0 8) (repeat 0 8).

Lemma demo_rs_ok : rs_ok demo_rs.
Proof. by apply (attach_ok (mk_rs_peer 112 (fresh 1 1 stats0) [] LC_FREE 0) demo_rs). Qed.

Lemma demo_fits : fits BitmapApi.demo 800.
Proof. split; [lia|reflexivity]. Qed.

Lemma demo_zero p b : 0 <= p < 2 -> 0 <= b < 100 -> bm_bit BitmapApi.demo p b = false.
Proof.
  intros Hp Hb. assert (forallb (fun k => negb (bm_bit BitmapApi.demo 0 (Z.of_nat k)) && negb (bm_bit BitmapApi.demo 1 (Z.of_nat k))) (seq 0 100) = true) as H
    by (vm_compute; reflexivity).
  rewrite forallb_forall in H. specialize (H (Z.to_nat b) ltac:(apply in_seq; lia)). rewrite Z2Nat.id in H by lia.
  apply andb_true_iff in H as [H0%negb_true_iff H1%negb_true_iff]. assert (p = 0 \/ p = 1) as [-> | ->] by lia; done.
Qed.

(** A write of 4 KiB that starts in the middle of block 2 touches blocks 2 and 3. *)
Lemma change_sync_exact_witness :
  exists n bm' p' log, bsr_set_out_of_sync demo_env BitmapApi.demo demo_peer 20 4096 = Some (n, bm', p', log) /\
    bm_bit bm' 1 2 = true /\ bm_bit bm' 1 3 = true /\ bm_bit bm' 1 4 = false /\ bm_bit bm' 0 2 = false.
Proof.
  destruct (change_sync_exact demo_env BitmapApi.demo demo_peer 20 4096 SET_OUT_OF_SYNC) as (n & bm' & p' & log & E & _ & _ & _ & _ & B & O & _);
    [exact BitmapApi.demo_wf|exact BitmapApi.demo_counts|exact demo_fits|by split|exact demo_rs_ok|done|done|by split|].
  exists n, bm', p', log. split; [exact E|]. clear E. change (bm_bits BitmapApi.demo) with 100 in B. change (sp_index demo_peer) with 1 in *. split_and!.
  - apply B; [lia|]. right. by exists 20.
  - apply B; [lia|]. right. by exists 24.
  - apply not_true_iff_false. rewrite B by lia. intros [H|(x & [_ H] & E4)]; [by rewrite demo_zero in H|].
    change (last_sector (se_capacity demo_env) 20 4096) with 27 in H. pose proof (Z.div_le_mono x 27 8 ltac:(done) H) as Hd. rewrite E4 in Hd. by vm_compute in Hd.
  - rewrite O by done. by apply demo_zero.
Defined.

Lemma set_sync_exact_witness :
  exists set_bits bm' ps' log, bsr_set_all_out_of_sync demo_env BitmapApi.demo [demo_peer] 20 4096 = Some (set_bits, bm', ps', log) /\
    bm_bit bm' 0 2 = true /\ bm_bit bm' 1 3 = true /\ Z.testbit set_bits 1 = true /\ Z.testbit set_bits 0 = false.
Proof.
  destruct (set_sync_exact demo_env BitmapApi.demo [demo_peer] 20 4096 BSR_END_OF_BITMAP BSR_END_OF_BITMAP) as (sb & bm' & ps' & log & E & _ & _ & B & S & _);
    [exact BitmapApi.demo_wf|exact BitmapApi.demo_counts|exact demo_fits|done| |split; [by right|done]|done|done|done|by split|].
  { apply Forall_singleton. split; [by right|exact demo_rs_ok]. }
  exists sb, bm', ps', log. split; [exact E|]. clear E. change (bm_bits BitmapApi.demo) with 100 in B. split_and!.
  - apply B; [by split|lia|]. right. by exists 20.
  - apply B; [by split|lia|]. right. by exists 24.
  - apply S; [by split|]. split_and!; [done..|]. exists 2. split; [by exists 20|by apply demo_zero].
  - apply not_true_iff_false. rewrite S by (by split). by intros (_ & _ & ? & _).
Defined.

Lemma fs_bitmap_marked_witness :
  exists n bm' p', SetOOSFromBitmap demo_env [12; 1] BitmapApi.demo demo_peer = Some (n, bm', p') /\ bm_bit bm' 1 3 = true /\ bm_bit bm' 1 4 = false.
Proof.
  destruct (fs_bitmap_marked demo_env BitmapApi.demo demo_peer [12; 1]) as (n & bm' & p' & E & [_ _ _ _ J] & _);
    [exact BitmapApi.demo_wf|exact BitmapApi.demo_counts|by split|exact demo_rs_ok|done|].
  exists n, bm', p'. split; [exact E|]. clear E. split; (rewrite J; [by rewrite demo_zero|by split|by split]).
Defined.

End SyncRange.
