(* ===== verification/RsExtent.v ===== *)
(** * Resync extents (src/bsr/bsr_actlog.c)

    A resync reads and writes one extent of 128 MiB at a time.  With peers up
    to protocol 112 it must not meet application writes there:
    [bsr_try_rs_begin_io] stops new writes to the extent, waits until the
    activity log has no reference in it, and only then locks it. *)

From S2P Require Import Prelude LruCache Bitmap BitmapApi State ActLog SyncBits.

Module RsExtent.
Import Bitmap BitmapApi State LruCache ActLog SyncBits.

Definition EAGAIN : Z := 11.
Definition EINTR : Z := 4.
Definition BM_SECT_TO_EXT (sector : Z) : Z := Z.shiftr sector (BM_EXT_SHIFT - 9).
Definition BM_EXT_TO_SECT (enr : Z) : Z := Z.shiftl enr (BM_EXT_SHIFT - 9).

Definition set_wenr (r : rs_peer) (v : Z) : rs_peer := mk_rs_peer (rs_version r) (resync_lru r) (bmes r) v (resync_locked r).
Definition set_resync_locked (r : rs_peer) (v : Z) : rs_peer := mk_rs_peer (rs_version r) (resync_lru r) (bmes r) (resync_wenr r) v.

Definition bme_set_bit (r : rs_peer) (i : nat) (bit : Z) : rs_peer := upd_bme r i (fun x => set_bme_flags (Z.setbit (bme_flags x) bit) x).
Definition bme_clear_bit (r : rs_peer) (i : nat) (bit : Z) : rs_peer := upd_bme r i (fun x => set_bme_flags (Z.clearbit (bme_flags x) bit) x).
Definition bme_zero (r : rs_peer) (i : nat) : rs_peer := upd_bme r i (set_bme_flags 0).

(** [lc_put] of a resync extent, and what follows the last reference.  The error of [lc_put] is for null pointers. *)
Definition bme_put (r : rs_peer) (i : nat) : option (Z * rs_peer) :=
  '(n, lc) ← lc_put (resync_lru r) i;
  let r := set_lru r lc in
  Some (n, if n =? 0 then set_resync_locked (bme_zero r i) (u32 (resync_locked r - 1)) else r).

(** A new label gets the count of its bits, and is committed. *)
Definition bme_init (mon : bool) (bm : bsr_bitmap) (idx enr : Z) (r : rs_peer) (i : nat) : option rs_peer :=
  w ← bm_e_weight bm idx enr;
  let r := upd_bme r i (fun x => mk_bme w 0 (bme_flags x)) in
  lc ← lc_committed mon (resync_lru r);
  Some (set_lru r lc).

(** Are writes active in one of the [AL_EXT_PER_BM_SECT] extents of the activity log? *)
Definition al_in_use (al : lru_cache) (enr : Z) : bool :=
  existsb (fun i => lc_is_used al (u32 (enr * AL_EXT_PER_BM_SECT + Z.of_nat i))) (seq 0 32).

(** ** Taking an extent without sleeping *)

(** The results: the code, whether the assertions held, the extents. *)
Definition rs_result : Type := Z * bool * rs_peer.

(** The extent another call waited for is given up. *)
Definition kick_waiting (enr : Z) (r : rs_peer) : option (bool * rs_peer) :=
  if negb (resync_wenr r =? LC_FREE) && negb (resync_wenr r =? enr) then
    match lc_find (resync_lru r) (resync_wenr r) with
    | Some i =>
      let ok := negb (bme_test r i BME_LOCKED) && bme_test r i BME_NO_WRITES in
      '(_, r) ← bme_put (set_wenr (bme_clear_bit r i BME_NO_WRITES) LC_FREE) i;
      Some (ok, r)
    | None => Some (false, r)
    end
  else Some (true, r).

(** [try_again] with an extent. *)
Definition rs_try_again (throttle : bool) (enr : Z) (ok : bool) (r : rs_peer) (i : nat) : option rs_result :=
  if throttle || (bme_test r i BME_PRIORITY && (refcnt (elem (resync_lru r) i) =? 1)) then
    let ok := ok && negb (bme_test r i BME_LOCKED) && bme_test r i BME_NO_WRITES in
    '(_, r) ← bme_put (set_wenr (bme_clear_bit (bme_clear_bit r i BME_NO_WRITES) i BME_PRIORITY) LC_FREE) i;
    Some (- EAGAIN, ok, r)
  else Some (- EAGAIN, ok, set_wenr r (u32 enr)).

(** [check_al] *)
Definition rs_check_al (al : lru_cache) (throttle : bool) (enr : Z) (ok : bool) (r : rs_peer) (i : nat) : option rs_result :=
  if (rs_version r <=? 112) && al_in_use al enr then rs_try_again throttle enr ok r i
  else Some (0, ok, set_wenr (bme_set_bit r i BME_LOCKED) LC_FREE).

(** An extent that is in the cache. *)
Definition rs_try_hit (al : lru_cache) (throttle : bool) (enr : Z) (ok : bool) (r : rs_peer) (i : nat) : option rs_result :=
  if bme_test r i BME_LOCKED then Some (0, ok, set_wenr r LC_FREE)
  else if negb (bme_test r i BME_NO_WRITES) then
    rs_check_al al throttle enr ok (set_resync_locked (bme_set_bit r i BME_NO_WRITES) (u32 (resync_locked r + 1))) i
  else
    let lc := upd (resync_lru r) i (fun e => mk_element (u32 (refcnt e - 1)) (lc_number e) (lc_new_number e)) in
    rs_check_al al throttle enr (ok && (0 <? refcnt (elem lc i))) (set_lru r lc) i.

(** An extent that is not. *)
Definition rs_try_new (mon : bool) (bm : bsr_bitmap) (idx : Z) (al : lru_cache) (throttle : bool) (enr : Z) (ok : bool) (r : rs_peer)
    : option rs_result :=
  if u32 (Z.of_nat (nr_elements (resync_lru r)) - 3) <? resync_locked r then Some (- EAGAIN, ok, r)
  else
    '(e, lc) ← lc_get mon (resync_lru r) (u32 enr);
    let r := set_lru r lc in
    match e with
    | None => if LC_LOCKED (flags lc) then None else Some (- EAGAIN, ok, r)
    | Some i =>
      '(ok, r) ← (if negb (lc_number (elem lc i) =? enr) then
                    r ← bme_init mon bm idx (u32 enr) r i; Some (ok && negb (bme_test r i BME_LOCKED), r)
                  else Some (ok, r));
      let r := bme_set_bit r i BME_NO_WRITES in
      let ok := ok && (refcnt (elem (resync_lru r) i) =? 1) in
      rs_check_al al throttle enr ok (set_resync_locked r (u32 (resync_locked r + 1))) i
    end.

(** [slow]: what [bsr_rs_should_slow_down] says. *)
Definition bsr_try_rs_begin_io (mon : bool) (bm : bsr_bitmap) (idx : Z) (al : lru_cache) (throttle slow : bool) (sector : Z) (r : rs_peer)
    : option rs_result :=
  let enr := BM_SECT_TO_EXT sector in
  let throttle := throttle && slow in
  if throttle && negb (resync_wenr r =? enr) then Some (- EAGAIN, true, r)
  else
    '(ok, r) ← kick_waiting enr r;
    '(e, lc) ← lc_try_get mon (resync_lru r) (u32 enr);
    let r := set_lru r lc in
    match e with
    | Some i => rs_try_hit al throttle enr ok r i
    | None => rs_try_new mon bm idx al throttle enr ok r
    end.

(** ** Taking an extent, waiting for it *)

(** [_bme_get]; [None] is the [BUG_ON]. *)
Definition _bme_get (mon : bool) (bm : bsr_bitmap) (idx enr : Z) (r : rs_peer) : option (option nat * rs_peer) :=
  if Z.of_nat (nr_elements (resync_lru r)) / 2 <? resync_locked r then Some (None, r)
  else
    '(e, lc) ← lc_get mon (resync_lru r) enr;
    let r := set_lru r lc in
    match e with
    | None => if LC_LOCKED (flags lc) then None else Some (None, r)
    | Some i =>
      r ← (if negb (lc_number (elem lc i) =? enr) then bme_init mon bm idx enr r i else Some r);
      let r := if refcnt (elem (resync_lru r) i) =? 1 then set_resync_locked r (u32 (resync_locked r + 1)) else r in
      Some (Some i, bme_set_bit r i BME_NO_WRITES)
    end.

Definition _is_in_al (al : lru_cache) (enr : Z) : bool := lc_is_used al enr.

(** [bsr_rs_begin_io] when nobody runs in between: done, or the [i]th extent of the activity log it has to wait for. *)
Inductive rs_begin := RB_done (r : rs_peer) | RB_no_extent (r : rs_peer) | RB_waits (i : nat) (r : rs_peer).

Definition bsr_rs_begin_io (mon : bool) (bm : bsr_bitmap) (idx : Z) (al : lru_cache) (sector : Z) (r : rs_peer) : option rs_begin :=
  let enr := BM_SECT_TO_EXT sector in
  '(e, r) ← _bme_get mon bm idx (u32 enr) r;
  match e with
  | None => Some (RB_no_extent r)
  | Some i =>
    if bme_test r i BME_LOCKED then Some (RB_done r)
    else match List.find (fun k => _is_in_al al (u32 (u32 enr * AL_EXT_PER_BM_SECT + Z.of_nat k))) (seq 0 32) with
         | Some k => Some (RB_waits k r)
         | None => Some (RB_done (bme_set_bit r i BME_LOCKED))
         end
  end.

(** A signal, or stepping aside for a write that has priority. *)
Definition rs_begin_abort (r : rs_peer) (i : nat) : option rs_peer := '(_, r) ← bme_put r i; Some r.

(** ** Giving extents back *)

(** The result: whether there was nothing to complain about. *)
Definition bsr_rs_complete_io (sector : Z) (r : rs_peer) : option (bool * rs_peer) :=
  match lc_find (resync_lru r) (u32 (BM_SECT_TO_EXT sector)) with
  | None => Some (false, r)
  | Some i => if refcnt (elem (resync_lru r) i) =? 0 then Some (false, r) else '(_, r) ← bme_put r i; Some (true, r)
  end.

(** [ldev]: the disk is detaching or better. *)
Definition bsr_rs_cancel_all (ldev : bool) (r : rs_peer) : rs_peer :=
  let r := if ldev then mk_rs_peer (rs_version r) (lc_reset (resync_lru r)) (map (fun _ => mk_bme 0 0 0) (bmes r)) (resync_wenr r) (resync_locked r)
           else r in
  set_wenr (set_resync_locked r 0) LC_FREE.

(** The loop of [bsr_rs_del_all]. *)
Fixpoint rs_del (idx : list nat) (ok : bool) (r : rs_peer) : option rs_result :=
  match idx with
  | [] => Some (0, ok && (used (resync_lru r) =? 0), r)
  | i :: idx =>
    let n := lc_number (elem (resync_lru r) i) in
    if n =? LC_FREE then rs_del idx ok r
    else
      '(ok, r) ← (if n =? resync_wenr r then
                    let ok := ok && negb (bme_test r i BME_LOCKED) && bme_test r i BME_NO_WRITES in
                    let r := set_wenr (bme_clear_bit r i BME_NO_WRITES) LC_FREE in
                    '(_, lc) ← lc_put (resync_lru r) i; Some (ok, set_lru r lc)
                  else Some (ok, r));
      if negb (refcnt (elem (resync_lru r) i) =? 0) then Some (- EAGAIN, ok, r)
      else
        let ok := ok && negb (bme_test r i BME_LOCKED) && negb (bme_test r i BME_NO_WRITES) in
        lc ← lc_del (resync_lru r) i;
        rs_del idx ok (set_lru r lc)
  end.

Definition bsr_rs_del_all (ldev : bool) (r : rs_peer) : option rs_result :=
  if ldev then rs_del (seq 0 (nr_elements (resync_lru r))) true r else Some (0, true, r).

Definition bsr_sector_has_priority (sector : Z) (r : rs_peer) : bool :=
  match lc_find (resync_lru r) (u32 (BM_SECT_TO_EXT sector)) with
  | Some i => bme_test r i BME_PRIORITY
  | None => false
  end.

(** ** Telling the peers *)

(** [extent_in_sync]; [uptodate]: the disk of the peer is up to date. *)
Definition extent_in_sync (env : sync_env) (bm : bsr_bitmap) (al : lru_cache) (p : sync_peer) (uptodate : bool) (enr : Z) : option (bool * sync_peer) :=
  match sp_repl p with
  | L_ESTABLISHED | L_AHEAD | L_OFF =>
    w ← bsr_bm_total_weight env bm (sp_index p);
    if w =? 0 then Some (true, p)
    else w ← bm_e_weight bm (sp_index p) enr; Some (w =? 0, p)
  | L_SYNC_SOURCE | L_SYNC_TARGET =>
    '(err, _, r) ← bsr_try_rs_begin_io (se_monitor env) bm (sp_index p) al false false (BM_EXT_TO_SECT enr) (sp_rs p);
    if err =? 0 then
      i ← lc_find (resync_lru r) enr;
      let rv := rs_left (bme r i) =? 0 in
      '(_, r) ← bsr_rs_complete_io (BM_EXT_TO_SECT enr) r;
      Some (rv, sp_set_rs p r)
    else Some (false, sp_set_rs p r)
  | L_PAUSED_SYNC_T => Some (uptodate, p)
  | _ => Some (false, p)
  end.

End RsExtent.
