(* ===== verification/RsExtentInv.v ===== *)
(** * The invariant of the resync extents (src/bsr/bsr_actlog.c)

    An extent is unused, locked, or half locked: new writes are stopped, but
    there is still activity.  At most one extent is half locked, and
    [resync_wenr] remembers it.  Every operation keeps this and reaches
    neither a BUG nor a failed assertion. *)

From stdpp Require Import relations.
From S2P Require Import Prelude LruCache CalmCache Bitmap BitmapApi State ActLog SyncBits SyncBitsOk RsExtent.

Module RsExtentInv.
Import Bitmap BitmapApi State LruCache CalmCache ActLog SyncBits SyncBitsOk RsExtent.

Abbreviation NW r i := (bme_test r i BME_NO_WRITES).
Abbreviation LK r i := (bme_test r i BME_LOCKED).
Abbreviation els r := (elements (resync_lru r)).

(** References and flags of one extent. *)
Record bme_ok (wenr : Z) (e : lc_element) (nw lk : bool) : Prop := mk_bme_ok {
  bo_refs : nw = true <-> 0 < refcnt e;
  bo_locked : lk = true -> nw = true;
  bo_half : nw = true -> lk = false -> lc_number e = wenr /\ refcnt e = 1 }.

(** Nobody locks this cache. *)
Definition unlocked (r : rs_peer) : Prop := LC_LOCKED (flags (resync_lru r)) = false.

Record rs_inv (r : rs_peer) : Prop := mk_rs_inv {
  ri_ok : rs_ok r;
  ri_unlocked : unlocked r;
  ri_elem : forall i e, els r !! i = Some e -> bme_ok (resync_wenr r) e (NW r i) (LK r i);
  ri_wenr : resync_wenr r <> LC_FREE -> exists i e, els r !! i = Some e /\ lc_number e = resync_wenr r /\ NW r i = true /\ LK r i = false }.

(** The extents that are locked. *)
Definition locks (r : rs_peer) (x : Z) : Prop := exists i e, els r !! i = Some e /\ LK r i = true /\ lc_number e = x.

(** ** Flags *)

Lemma test_upd r i f j bit : (i < length (bmes r))%nat ->
  bme_test (upd_bme r i f) j bit = if decide (j = i) then Z.testbit (bme_flags (f (bme r i))) bit else bme_test r j bit.
Proof. intros Hl. unfold bme_test. rewrite bme_upd by done. by destruct (decide (j = i)). Qed.

Lemma test_set r i b j bit : (i < length (bmes r))%nat -> 0 <= b ->
  bme_test (bme_set_bit r i b) j bit = if decide (j = i) then (b =? bit) || bme_test r i bit else bme_test r j bit.
Proof.
  intros Hl Hb. unfold bme_set_bit. rewrite test_upd by done. destruct (decide (j = i)); [|done]. cbn.
  destruct (Z.lt_ge_cases bit 0); [|by rewrite Z.setbit_eqb by done]. rewrite Z.testbit_neg_r by done. unfold bme_test.
  rewrite Z.testbit_neg_r by done. by rewrite (proj2 (Z.eqb_neq _ _)) by lia.
Qed.

Lemma test_clear r i b j bit : (i < length (bmes r))%nat -> 0 <= b ->
  bme_test (bme_clear_bit r i b) j bit = if decide (j = i) then bme_test r i bit && negb (b =? bit) else bme_test r j bit.
Proof.
  intros Hl Hb. unfold bme_clear_bit. rewrite test_upd by done. destruct (decide (j = i)); [|done]. cbn.
  destruct (Z.lt_ge_cases bit 0); [|by rewrite Z.clearbit_eqb by done]. unfold bme_test. by rewrite !Z.testbit_neg_r by done.
Qed.

Lemma test_zero r i j bit : (i < length (bmes r))%nat -> bme_test (bme_zero r i) j bit = if decide (j = i) then false else bme_test r j bit.
Proof. intros Hl. unfold bme_zero. rewrite test_upd by done. destruct (decide (j = i)); [cbn; apply Z.bits_0|done]. Qed.

Lemma len_upd r i f : length (bmes (upd_bme r i f)) = length (bmes r).
Proof. apply length_alter. Qed.

(** ** Changing one extent *)

Lemma rs_index r i e : rs_ok r -> els r !! i = Some e -> (i < length (bmes r))%nat.
Proof. intros K He. rewrite (rk_len _ K). by eapply lookup_lt_Some. Qed.

(** The other extents are what they were. *)
Definition others_same (i : nat) (r r' : rs_peer) : Prop :=
  forall j, j <> i -> els r' !! j = els r !! j /\ NW r' j = NW r j /\ LK r' j = LK r j.

(** No other extent is half locked. *)
Definition none_half (i : nat) (r : rs_peer) : Prop :=
  forall j e, j <> i -> els r !! j = Some e -> (NW r j = true <-> 0 < refcnt e) /\ LK r j = NW r j.

Lemma inv_none_half r i e : rs_inv r -> els r !! i = Some e -> resync_wenr r = LC_FREE \/ lc_number e = resync_wenr r -> none_half i r.
Proof.
  intros [K _ E W] He Hw j x Hj Hx. destruct (E j x Hx) as [O1 O2 O3]. split; [done|]. destruct (LK r j) eqn:EL; [by rewrite O2|].
  destruct (NW r j) eqn:EN; [|done]. destruct (O3 eq_refl eq_refl) as [Hn Hr]. exfalso. destruct Hw as [Hw|Hw].
  - apply (referenced_labelled _ j x (cm_inv _ (rk_calm _ K)) Hx); [lia|]. rewrite <- (cm_quiet _ (rk_calm _ K) j x Hx). congruence.
  - apply Hj. pose proof (cm_quiet _ (rk_calm _ K)) as Q. apply (label_unique _ j i x e (cm_inv _ (rk_calm _ K)) Hx He).
    + apply (referenced_labelled _ j x (cm_inv _ (rk_calm _ K)) Hx). lia.
    + rewrite <- (Q j x Hx), <- (Q i e He). congruence.
Qed.

Lemma none_half_same i r r' : none_half i r -> others_same i r r' -> none_half i r'.
Proof. intros H S j x Hj Hx. destruct (S j Hj) as (E1 & E2 & E3). rewrite E1 in Hx. rewrite E2, E3. by apply H. Qed.

Lemma inv_one_extent i e r : rs_ok r -> unlocked r -> none_half i r -> els r !! i = Some e -> bme_ok (resync_wenr r) e (NW r i) (LK r i) ->
  (resync_wenr r <> LC_FREE -> lc_number e = resync_wenr r /\ NW r i = true /\ LK r i = false) -> rs_inv r.
Proof.
  intros K U N He O W. split; [done|done| |].
  - intros j x Hx. destruct (decide (j = i)) as [->|Hj]; [by replace x with e by congruence|]. destruct (N j x Hj Hx) as [N1 N2].
    split; [done|by rewrite N2|]. rewrite N2. congruence.
  - intros Hw. exists i, e. destruct (W Hw) as (? & ? & ?). done.
Qed.

Lemma others_trans i a b c : others_same i a b -> others_same i b c -> others_same i a c.
Proof. intros A B j Hj. destruct (A j Hj) as (? & ? & ?), (B j Hj) as (? & ? & ?). split_and!; congruence. Qed.

Lemma others_upd i r f : (i < length (bmes r))%nat -> others_same i r (upd_bme r i f).
Proof. intros Hl j Hj. rewrite !test_upd by done. rewrite !decide_False by done. by split_and!. Qed.

Lemma others_set i r b : (i < length (bmes r))%nat -> others_same i r (bme_set_bit r i b).
Proof. apply others_upd. Qed.

Lemma others_clear i r b : (i < length (bmes r))%nat -> others_same i r (bme_clear_bit r i b).
Proof. apply others_upd. Qed.

Lemma others_wenr i r r' v : others_same i r r' -> others_same i r (set_wenr r' v).
Proof. done. Qed.

Lemma others_lru i r lc e : elements lc = <[i := e]> (els r) -> others_same i r (set_lru r lc).
Proof. intros E j Hj. cbn. rewrite E, list_lookup_insert_ne by done. done. Qed.

Lemma others_locks i r r' x : others_same i r r' -> locks r' x -> locks r x \/ exists e, els r' !! i = Some e /\ LK r' i = true /\ lc_number e = x.
Proof.
  intros S (j & e & He & Hk & Hx). destruct (decide (j = i)) as [->|Hj]; [right; by exists e|]. left. destruct (S j Hj) as (E1 & _ & E3).
  exists j, e. split_and!; congruence.
Qed.

(** A change of the cache at [i], the flags as they were. *)
Lemma rs_ok_lru r lc i e' : rs_ok r -> calm lc -> elements lc = <[i := e']> (els r) -> refcnt e' < 2 ^ 32 - 1 -> rs_ok (set_lru r lc).
Proof. intros K C E Hr. by apply (rs_ok_insert r (set_lru r lc) i e'). Qed.

Lemma rs_ok_upd r i f : rs_ok r -> rs_ok (upd_bme r i f).
Proof. intros [K1 K2 K3]. split; [done..|]. by rewrite len_upd. Qed.

Lemma rs_ok_wenr r v : rs_ok r -> rs_ok (set_wenr r v).
Proof. intros [K1 K2 K3]. by split. Qed.

Lemma rs_ok_count r v : rs_ok r -> rs_ok (set_resync_locked r v).
Proof. intros [K1 K2 K3]. by split. Qed.

Create HintDb rs.
#[export] Hint Resolve rs_ok_upd rs_ok_wenr rs_ok_count : rs.

Lemma bme_put_ok r i e : rs_ok r -> els r !! i = Some e -> 0 < refcnt e ->
  exists r', bme_put r i = Some (refcnt e - 1, r') /\ rs_ok r' /\ els r' !! i = Some (mk_element (refcnt e - 1) (lc_number e) (lc_number e)) /\
    others_same i r r' /\ resync_wenr r' = resync_wenr r /\ rs_version r' = rs_version r /\ (unlocked r -> unlocked r') /\
    NW r' i = (if decide (refcnt e = 1) then false else NW r i) /\ LK r' i = (if decide (refcnt e = 1) then false else LK r i).
Proof.
  intros K He Hr. pose proof (rs_index _ _ _ K He) as Hl. destruct (put_calm _ i e (rk_calm _ K) He Hr) as (lc & E & C & [Ll _] & _ & El).
  unfold bme_put. rewrite E. cbn [mbind option_bind]. eexists. split; [reflexivity|].
  assert (rs_ok (set_lru r lc)) as K' by (apply (rs_ok_lru r lc i _ K C El); cbn; pose proof (rk_over _ K i e He); lia).
  assert (elements lc !! i = Some (mk_element (refcnt e - 1) (lc_number e) (lc_number e))) as Hi by (rewrite El; apply list_lookup_insert_eq; by eapply lookup_lt_Some).
  assert (unlocked r -> LC_LOCKED (flags lc) = false) as U by (unfold unlocked; congruence).
  pose proof (others_lru i r lc _ El) as O. destruct (decide (refcnt e = 1)) as [E1|Hn].
  - rewrite E1. cbn [Z.sub Z.eqb]. change (1 - 1 =? 0) with true. cbv iota. split; [by apply rs_ok_count, rs_ok_upd|]. split; [by rewrite E1 in Hi|].
    split; [|split; [done|split; [done|split; [done|]]]].
    + eapply others_trans; [exact O|]. by apply (others_upd i (set_lru r lc)).
    + change (bme_test (bme_zero (set_lru r lc) i) i BME_NO_WRITES = false /\ bme_test (bme_zero (set_lru r lc) i) i BME_LOCKED = false).
      rewrite !test_zero by done. by rewrite !decide_True.
  - rewrite (proj2 (Z.eqb_neq _ _)) by lia. done.
Qed.

(** ** Giving back *)

Lemma complete_ok sector r i : rs_inv r -> lc_find (resync_lru r) (u32 (BM_SECT_TO_EXT sector)) = Some i -> LK r i = true -> u32 (BM_SECT_TO_EXT sector) <> LC_FREE ->
  exists r', bsr_rs_complete_io sector r = Some (true, r') /\ rs_inv r' /\ rs_version r' = rs_version r /\ (forall x, locks r' x -> locks r x).
Proof.
  intros [K U E W] Hf Hk Hx. pose proof (find_calm _ _ (rk_calm _ K) Hx) as Hs. rewrite Hf in Hs. destruct Hs as (e & He & Hn & _).
  destruct (E i e He) as [O1 O2 O3]. assert (0 < refcnt e) as Hr by (apply O1, O2, Hk). unfold bsr_rs_complete_io. rewrite Hf.
  assert (elem (resync_lru r) i = e) as -> by (unfold elem; by rewrite He). rewrite (proj2 (Z.eqb_neq _ _)) by lia.
  destruct (bme_put_ok r i e K He Hr) as (r' & -> & K' & He' & O & Ew & Ev & Eu & En & El). cbn [mbind option_bind]. exists r'. split; [done|].
  assert (resync_wenr r <> lc_number e \/ resync_wenr r = LC_FREE) as Hw.
  { destruct (decide (resync_wenr r = LC_FREE)) as [|Hwf]; [by right|]. left. intros Hc. destruct (W Hwf) as (j & x & Hj & Hxw & _ & Hlk).
    assert (j = i) as ->; [|congruence]. pose proof (cm_quiet _ (rk_calm _ K)) as Q.
    apply (label_unique _ j i x e (cm_inv _ (rk_calm _ K)) Hj He); [rewrite <- (Q j x Hj)|rewrite <- (Q j x Hj), <- (Q i e He)]; congruence. }
  split; [|split; [done|]].
  - split; [done|by apply Eu| |].
    + intros j x Hj. rewrite Ew. destruct (decide (j = i)) as [->|Hji].
      * rewrite He' in Hj. injection Hj as <-. rewrite En, El. destruct (decide (refcnt e = 1)) as [E1|Hne].
        -- rewrite E1. split; cbn; intuition (lia || discriminate).
        -- rewrite Hk, (O2 Hk). split; cbn; intuition (lia || discriminate).
      * destruct (O j Hji) as (A1 & A2 & A3). rewrite A1 in Hj. rewrite A2, A3. by apply E.
    + rewrite Ew. intros Hwf. destruct (W Hwf) as (j & x & Hj & Hxw & Hnw & Hlk). assert (j <> i) as Hji by congruence.
      destruct (O j Hji) as (A1 & A2 & A3). exists j, x. by rewrite A1, A2, A3.
  - intros x Hl. destruct (others_locks i r r' x O Hl) as [|(e' & Hi' & Hk' & Hx')]; [done|]. rewrite He' in Hi'. injection Hi' as <-.
    exists i, e. done.
Qed.

Lemma cancel_ok r : rs_inv r -> let r' := bsr_rs_cancel_all true r in rs_inv r' /\ rs_version r' = rs_version r /\ forall x, ~ locks r' x.
Proof.
  intros [[C O L] _ E W] r'. pose proof (iv_size _ (cm_inv _ C)) as Hs.
  assert (forall i e, els r' !! i = Some e -> e = mk_element 0 LC_FREE LC_FREE) as Hfree.
  { intros i e. cbn. intros H. by apply lookup_replicate in H as [-> _]. }
  assert (forall i bit, bme_test r' i bit = false) as Hz.
  { intros i bit. unfold bme_test, bme, r'. cbn. rewrite nth_lookup, list_lookup_fmap. destruct (bmes r !! i); cbn; apply Z.bits_0. }
  assert (inv (lc_reset (resync_lru r))) as Hi by (apply fresh_inv; [unfold LC_MAX_ACTIVE in *; lia|apply (iv_max _ (cm_inv _ C))]).
  split; [|split; [done|]].
  - split.
    + split; [split; [done|done|]|..].
      * intros i e He. by rewrite (Hfree i e He).
      * intros i e He. by rewrite (Hfree i e He).
      * cbn. rewrite length_map, L. unfold nr_elements. cbn. by rewrite length_replicate.
    + done.
    + intros i e He. rewrite !Hz, (Hfree i e He). split; cbn; intuition (lia || discriminate).
    + done.
  - intros x (i & e & _ & Hk & _). by rewrite Hz in Hk.
Qed.

(** The only reference of an extent that is not locked is dropped; [r0] is [r] with other flags of this extent. *)
Lemma drop_half r r0 i e : none_half i r -> others_same i r r0 -> rs_ok r0 -> unlocked r0 -> els r0 !! i = Some e -> refcnt e = 1 -> resync_wenr r0 = LC_FREE ->
  exists r', bme_put r0 i = Some (0, r') /\ rs_inv r' /\ rs_version r' = rs_version r0 /\ resync_wenr r' = LC_FREE /\
    NW r' i = false /\ others_same i r r' /\ els r' !! i = Some (mk_element 0 (lc_number e) (lc_number e)) /\ (forall x, locks r' x -> locks r x).
Proof.
  intros N S K U He Hr Hw. destruct (bme_put_ok r0 i e K He ltac:(lia)) as (r' & E & K' & He' & O & Ew & Ev & Eu & En & El).
  rewrite Hr in E, He'. rewrite decide_True in En, El by done. exists r'. split; [done|]. pose proof (others_trans _ _ _ _ S O) as S'.
  split; [|split_and!; [done|congruence|done|done|done|]].
  - apply (inv_one_extent i _ r' K' (Eu U) (none_half_same i r r' N S') He').
    + rewrite En, El. split; cbn; intuition (lia || discriminate).
    + rewrite Ew, Hw. done.
  - intros x Hl. destruct (others_locks i r r' x S' Hl) as [|(e' & _ & Hk & _)]; [done|]. congruence.
Qed.

(** No reference count is close to an overflow. *)
Definition ref_room (r : rs_peer) : Prop := forall i e, els r !! i = Some e -> refcnt e < 2 ^ 32 - 2.

Lemma others_room i r r' e : ref_room r -> others_same i r r' -> els r' !! i = Some e -> refcnt e < 2 ^ 32 - 2 -> ref_room r'.
Proof. intros R S He Hr j x Hx. destruct (decide (j = i)) as [->|Hj]; [congruence|]. apply (R j). by destruct (S j Hj) as [<- _]. Qed.

(** The extent [resync_wenr] remembers. *)
Lemma waiting_extent r : rs_inv r -> resync_wenr r <> LC_FREE ->
  exists i e, els r !! i = Some e /\ lc_find (resync_lru r) (resync_wenr r) = Some i /\ lc_number e = resync_wenr r /\ refcnt e = 1 /\
    NW r i = true /\ LK r i = false /\ none_half i r.
Proof.
  intros H Hw. pose proof H as [K _ E W]. destruct (W Hw) as (i & e & He & Hn & Hnw & Hlk). destruct (E i e He) as [_ _ O3].
  exists i, e. split; [done|]. split; [rewrite <- Hn; apply (find_calm_at _ i e (rk_calm _ K) He); congruence|].
  split; [done|]. split; [by apply O3|]. split; [done|]. split; [done|]. apply (inv_none_half r i e H He). by right.
Qed.

Lemma kick_ok enr r : rs_inv r -> exists r', kick_waiting enr r = Some (true, r') /\ rs_inv r' /\ rs_version r' = rs_version r /\
  (resync_wenr r' = LC_FREE \/ resync_wenr r' = enr) /\ (forall x, locks r' x -> locks r x) /\ (ref_room r -> ref_room r').
Proof.
  intros H. unfold kick_waiting. destruct (Z.eqb_spec (resync_wenr r) LC_FREE) as [Ew|Hw]; cbn [negb andb]; [exists r; split_and!; auto|].
  destruct (Z.eqb_spec (resync_wenr r) enr) as [Ee|He]; cbn [negb]; [exists r; split_and!; auto|].
  destruct (waiting_extent r H Hw) as (i & e & Hi & -> & Hn & Hr & Hnw & Hlk & Hh). pose proof (rs_index _ _ _ (ri_ok _ H) Hi) as Hl.
  destruct (drop_half r (set_wenr (bme_clear_bit r i BME_NO_WRITES) LC_FREE) i e Hh) as (r' & -> & H' & V & W & _ & O & He' & L); try done.
  - by apply others_wenr, others_clear.
  - apply rs_ok_wenr, rs_ok_upd, H.
  - apply H.
  - cbn [mbind option_bind]. rewrite Hlk, Hnw. exists r'. split_and!; auto. intros R. by apply (others_room i r r' _ R O He').
Qed.

(** ** Taking an extent *)

(** The extent [enr] is taken, with one reference, but not yet locked, and no other extent is waited for. *)
Record claimed (enr : Z) (r : rs_peer) (i : nat) : Prop := mk_claimed {
  cl_ok : rs_ok r;
  cl_unlocked : unlocked r;
  cl_elem : els r !! i = Some (mk_element 1 enr enr);
  cl_nw : NW r i = true;
  cl_lk : LK r i = false;
  cl_half : none_half i r }.

(** What a call may lock, and its answer: 0 for a locked extent. *)
Definition may_lock (al : lru_cache) (enr err : Z) (r r' : rs_peer) : Prop :=
  rs_version r' = rs_version r /\
  (forall x, locks r' x -> locks r x \/ x = enr /\ (rs_version r <= 112 -> al_in_use al enr = false)) /\
  (err = 0 /\ locks r' enr \/ err = - EAGAIN).

Lemma may_lock_refl al enr r r' : rs_version r' = rs_version r -> (forall x, locks r' x -> locks r x) -> may_lock al enr (- EAGAIN) r r'.
Proof. intros V L. split; [done|]. split; [|by right]. intros x Hx. left. by apply L. Qed.

Lemma may_lock_from al enr err r r1 r' : rs_version r1 = rs_version r -> (forall x, locks r1 x -> locks r x) ->
  may_lock al enr err r1 r' -> may_lock al enr err r r'.
Proof. intros V L (V' & M & A). split; [congruence|]. split; [|done]. intros x Hx. rewrite <- V. destruct (M x Hx); auto. Qed.

Lemma check_al_ok al throttle enr r0 r i : claimed enr r i -> 0 <= enr < LC_FREE -> rs_version r = rs_version r0 ->
  (forall x, locks r x -> locks r0 x) ->
  exists err r', rs_check_al al throttle enr true r i = Some (err, true, r') /\ rs_inv r' /\ may_lock al enr err r0 r'.
Proof.
  intros [K U He Hnw Hlk Hh] Henr Hv HL. pose proof (rs_index _ _ _ K He) as Hl. unfold rs_check_al.
  assert (elem (resync_lru r) i = mk_element 1 enr enr) as Ee by (unfold elem; by rewrite He).
  destruct ((rs_version r <=? 112) && al_in_use al enr) eqn:Eu.
  - unfold rs_try_again. rewrite Ee. destruct (throttle || _).
    + set (r1 := set_wenr _ LC_FREE). assert (others_same i r r1) as O.
      { apply others_wenr. eapply others_trans; apply others_clear; [done|unfold bme_clear_bit; by rewrite len_upd]. }
      destruct (drop_half r r1 i (mk_element 1 enr enr) Hh O) as (r' & -> & H' & V & W & _ & _ & _ & L); try done; [by apply rs_ok_wenr, rs_ok_upd, rs_ok_upd|].
      cbn [mbind option_bind]. rewrite Hlk, Hnw. exists (- EAGAIN), r'. split; [done|]. split; [done|]. apply may_lock_refl; [rewrite V; done|auto].
    + exists (- EAGAIN), (set_wenr r (u32 enr)). rewrite u32_id by (unfold LC_FREE, U32_MAX in Henr; lia). split; [done|]. split.
      * apply (inv_one_extent i (mk_element 1 enr enr)); [by apply rs_ok_wenr|done|done|done| |done].
        change (NW (set_wenr r enr) i) with (NW r i). change (LK (set_wenr r enr) i) with (LK r i). rewrite Hnw, Hlk.
        split; cbn; intuition (lia || discriminate).
      * by apply may_lock_refl.
  - exists 0, (set_wenr (bme_set_bit r i BME_LOCKED) LC_FREE). split; [done|].
    pose proof (others_set i r BME_LOCKED Hl) as O.
    assert (LK (bme_set_bit r i BME_LOCKED) i = true) as Hk by (rewrite test_set, decide_True by done; done).
    assert (NW (bme_set_bit r i BME_LOCKED) i = true) as Hn by (rewrite test_set, decide_True by done; done). split.
    + apply (inv_one_extent i (mk_element 1 enr enr)); [by apply rs_ok_wenr, rs_ok_upd|done|by apply (none_half_same i r)|done| |done].
      change (NW (set_wenr (bme_set_bit r i BME_LOCKED) LC_FREE) i) with (NW (bme_set_bit r i BME_LOCKED) i).
      change (LK (set_wenr (bme_set_bit r i BME_LOCKED) LC_FREE) i) with (LK (bme_set_bit r i BME_LOCKED) i). rewrite Hn, Hk.
      split; cbn; intuition (lia || discriminate).
    + split; [done|]. split; [|left; split; [done|]; by exists i, (mk_element 1 enr enr)].
      intros x Hx. destruct (others_locks i r (bme_set_bit r i BME_LOCKED) x O Hx) as [H1|(e & H1 & _ & <-)]; [left; by apply HL|].
      right. change (els (bme_set_bit r i BME_LOCKED)) with (els r) in H1. rewrite He in H1. injection H1 as <-. split; [done|].
      intros Hver. rewrite <- Hv in Hver. rewrite (proj2 (Z.leb_le _ _)) in Eu by lia. done.
Qed.

(** An extent in the cache gets a reference: [lc] is the cache with it. *)
Lemma try_hit_ok al throttle enr r i e lc : rs_inv r -> ref_room r -> 0 <= enr < LC_FREE -> resync_wenr r = LC_FREE \/ resync_wenr r = enr ->
  els r !! i = Some e -> lc_number e = enr -> inv lc -> idle lc -> same_limits (resync_lru r) lc -> elements lc = <[i := mk_element (refcnt e + 1) enr enr]> (els r) ->
  exists err r', rs_try_hit al throttle enr true (set_lru r lc) i = Some (err, true, r') /\ rs_inv r' /\ may_lock al enr err r r'.
Proof.
  intros H R Henr Hw He Hn Hi Hid [Ll _] El. pose proof H as [K U E W]. pose proof (rs_index _ _ _ K He) as Hl. pose proof (R i e He) as Hre.
  assert (calm lc) as C by (by apply (calm_insert _ lc i _ (rk_calm _ K) Hi Hid El)).
  assert (rs_ok (set_lru r lc)) as K' by (apply (rs_ok_lru r lc i _ K C El); cbn; lia).
  assert (none_half i r) as Hh by (apply (inv_none_half r i e H He); destruct Hw; [by left|right; congruence]).
  assert (elements lc !! i = Some (mk_element (refcnt e + 1) enr enr)) as Hei by (rewrite El; apply list_lookup_insert_eq; by eapply lookup_lt_Some).
  assert (LC_LOCKED (flags lc) = false) as U' by (unfold unlocked in U; congruence).
  pose proof (others_lru i r lc _ El) as O. pose proof (elem_refcnt _ i e (cm_inv _ (rk_calm _ K)) He) as Hr0.
  destruct (E i e He) as [O1 O2 O3]. unfold rs_try_hit. change (LK (set_lru r lc) i) with (LK r i). change (NW (set_lru r lc) i) with (NW r i).
  destruct (LK r i) eqn:Hlk; [|destruct (NW r i) eqn:Hnw; cbn [negb]].
  - exists 0, (set_wenr (set_lru r lc) LC_FREE). split; [done|]. split.
    + apply (inv_one_extent i (mk_element (refcnt e + 1) enr enr)); [by apply rs_ok_wenr|done|by apply (none_half_same i r)|done| |done].
      change (bme_ok LC_FREE (mk_element (refcnt e + 1) enr enr) (NW r i) (LK r i)). rewrite Hlk, O2 by done. split; cbn; intuition (lia || discriminate).
    + split; [done|]. split; [|left; split; [done|]; by exists i, (mk_element (refcnt e + 1) enr enr)].
      intros x Hx. left. destruct (others_locks i r (set_lru r lc) x O Hx) as [|(e' & He' & _ & <-)]; [done|].
      cbn in He'. rewrite Hei in He'. injection He' as <-. by exists i, e.
  - destruct (O3 eq_refl eq_refl) as [_ Hr1]. destruct (unref_calm lc i _ C Hei) as [C2 El2]; [cbn; lia|]. cbv zeta in C2, El2.
    change (resync_lru (set_lru r lc)) with lc. set (lc2 := upd lc i _) in *. cbn [refcnt lc_number] in El2. rewrite Z.add_simpl_r, Hr1 in El2.
    assert (elements lc2 !! i = Some (mk_element 1 enr enr)) as Hei2 by (rewrite El2; apply list_lookup_insert_eq; by eapply lookup_lt_Some).
    assert (elem lc2 i = mk_element 1 enr enr) as -> by (unfold elem; by rewrite Hei2).
    pose proof (others_trans _ _ _ _ O (others_lru i (set_lru r lc) lc2 _ El2)) as O'.
    apply check_al_ok; [|done|done|]. 
    + split; [|done|done|done|done|by apply (none_half_same i r)]. apply (rs_ok_lru (set_lru r lc) lc2 i _ K' C2 El2). done.
    + intros x Hx. destruct (others_locks i r _ x O' Hx) as [|(e' & _ & Hk & _)]; [done|]. exfalso. change (LK r i = true) in Hk. congruence.
  - assert (refcnt e = 0) as Hr1 by (destruct (decide (0 < refcnt e)) as [Hp|]; [apply O1 in Hp; done|lia]).
    assert (others_same i r (bme_set_bit (set_lru r lc) i BME_NO_WRITES)) as O' by (eapply others_trans; [exact O|by apply others_set]).
    apply check_al_ok; [|done|done|].
    + split.
      * by apply rs_ok_count, rs_ok_upd.
      * done.
      * change (elements lc !! i = Some (mk_element 1 enr enr)). by rewrite Hei, Hr1.
      * change (NW (bme_set_bit (set_lru r lc) i BME_NO_WRITES) i = true). rewrite test_set, decide_True by done. done.
      * change (LK (bme_set_bit (set_lru r lc) i BME_NO_WRITES) i = false). rewrite test_set, decide_True by done. done.
      * by apply (none_half_same i r).
    + intros x Hx. destruct (others_locks i r (bme_set_bit (set_lru r lc) i BME_NO_WRITES) x O' Hx) as [|(e' & _ & Hk & _)]; [done|].
      rewrite test_set, decide_True in Hk by done. exfalso. change (LK r i = true) in Hk. congruence.
Qed.

(** The cache of extents with another cache that has the same elements. *)
Lemma inv_same_elements r lc : rs_inv r -> inv lc -> idle lc -> same_limits (resync_lru r) lc -> elements lc = els r -> rs_inv (set_lru r lc).
Proof.
  intros [K U E W] Hi Hid [Ll _] El. split.
  - apply (rs_ok_same r); [done| |done|done]. split; [done|done|]. intros i e. cbn. rewrite El. apply (cm_quiet _ (rk_calm _ K)).
  - unfold unlocked in *. cbn. congruence.
  - intros i e. cbn. rewrite El. apply E.
  - cbn. rewrite El. apply W.
Qed.

(** A new label for an unused element: [lc] is the cache with its reference. *)
Lemma bme_init_ok mon bm idx enr r i e lc : wf bm -> 0 <= idx < bm_max_peers bm -> 0 <= enr < 2 ^ 32 -> rs_ok r -> els r !! i = Some e ->
  inv lc -> idle lc -> same_limits (resync_lru r) lc -> elements lc = <[i := mk_element 1 (lc_number e) enr]> (els r) ->
  exists r', bme_init mon bm idx enr (set_lru r lc) i = Some r' /\ rs_ok r' /\ els r' !! i = Some (mk_element 1 enr enr) /\
    (unlocked r -> unlocked r') /\ rs_version r' = rs_version r /\ others_same i r r' /\
    (forall b, bme_test r' i b = bme_test r i b) /\ (i < length (bmes r'))%nat.
Proof.
  intros Hwf Hidx Henr K He Hi Hid [L _] El. pose proof (rs_index _ _ _ K He) as Hl. pose proof (lookup_lt_Some _ _ _ He) as Hlt.
  unfold bme_init. rewrite bm_e_weight_ok by done. cbn [mbind option_bind].
  destruct (commit_calm mon lc Hi Hid) as (lc1 & Ec & C1 & [L1 _] & _ & El1). change (resync_lru (upd_bme (set_lru r lc) i _)) with lc. rewrite Ec.
  cbn [mbind option_bind]. rewrite (commit_elements _ lc i e enr (rk_calm _ K) He El) in El1. set (f := fun x : bm_extent => _).
  set (r1 := set_lru (upd_bme (set_lru r lc) i f) lc1). exists r1. split; [done|].
  split; [apply (rs_ok_insert r r1 i (mk_element 1 enr enr)); [done|done|done|done|apply length_alter]|].
  split; [change (els r1) with (elements lc1); rewrite El1; by apply list_lookup_insert_eq|].
  split; [intros U; unfold unlocked in *; change (LC_LOCKED (flags lc1) = false); congruence|]. split; [done|]. split; [|split].
  - intros j Hj. destruct (others_upd i (set_lru r lc) f Hl j Hj) as (_ & H2 & H3). split_and!; [|exact H2|exact H3].
    change (els r1) with (elements lc1). by rewrite El1, list_lookup_insert_ne.
  - intros b. change (bme_test (upd_bme (set_lru r lc) i f) i b = bme_test r i b). rewrite test_upd, decide_True by done. done.
  - unfold r1. cbn. by rewrite length_alter.
Qed.

Lemma try_new_ok mon bm idx al throttle enr r : wf bm -> 0 <= idx < bm_max_peers bm -> rs_inv r -> 0 <= enr < LC_FREE ->
  resync_wenr r = LC_FREE \/ resync_wenr r = enr -> LC_STARVING (flags (resync_lru r)) = true \/ absent (resync_lru r) enr ->
  exists err r', rs_try_new mon bm idx al throttle enr true r = Some (err, true, r') /\ rs_inv r' /\ may_lock al enr err r r'.
Proof.
  intros Hwf Hidx H Henr Hw Ha. pose proof H as [K U E W]. assert (enr < 2 ^ 32) as Henr' by (unfold LC_FREE, U32_MAX in Henr; lia).
  unfold rs_try_new. destruct (_ <? _); [exists (- EAGAIN), r; split; [done|split; [done|by apply may_lock_refl]]|].
  rewrite (u32_id enr) by lia. destruct (get_calm mon (resync_lru r) enr true (rk_calm _ K) (rk_over _ K) ltac:(lia)) as (o & lc & Eg & Hi & Hid & L & G).
  unfold lc_get. rewrite Eg. cbn [mbind option_bind]. destruct o as [i|].
  2: { destruct G as (El & _). unfold unlocked in U. destruct L as [L1 L2]. rewrite L1, U. exists (- EAGAIN), (set_lru r lc). split; [done|].
       split; [by apply inv_same_elements|]. apply may_lock_refl; [done|]. intros x (j & e & Hj & Hk & Hx). cbn in Hj. rewrite El in Hj. by exists j, e. }
  assert (absent (resync_lru r) enr) as Ha'.
  { destruct Ha as [Hs|]; [|done]. rewrite (get_not_starving _ _ _ _ _ _ _ (cm_inv _ (rk_calm _ K)) (cm_idle _ (rk_calm _ K)) Eg) in Hs. done. }
  destruct G as (_ & e & He & [(Hn & _)|(_ & _ & Hr0 & El)]); [exfalso; apply (Ha' i e He); by rewrite <- (cm_quiet _ (rk_calm _ K) i e He)|].
  pose proof (rs_index _ _ _ K He) as Hl. pose proof (lookup_lt_Some _ _ _ He) as Hlt. destruct (E i e He) as [O1 O2 O3].
  assert (NW r i = false) as Hnw by (destruct (NW r i); [destruct (proj1 O1 eq_refl); lia|done]).
  assert (LK r i = false) as Hlk by (destruct (LK r i); [by rewrite O2 in Hnw|done]).
  assert (elem lc i = mk_element 1 (lc_number e) enr) as -> by (unfold elem; by rewrite El, list_lookup_insert_eq).
  assert (lc_number e <> enr) as Hne by (rewrite (cm_quiet _ (rk_calm _ K) i e He); by apply (Ha' i)).
  cbn [lc_number]. rewrite (proj2 (Z.eqb_neq _ _)) by done. cbn [negb].
  destruct (bme_init_ok mon bm idx enr r i e lc Hwf Hidx ltac:(lia) K He Hi Hid L El) as (r1 & -> & K1 & Hei & Hu & Ev & O & Hflags & Hl1).
  cbn [mbind option_bind].
  assert (elem (resync_lru (bme_set_bit r1 i BME_NO_WRITES)) i = mk_element 1 enr enr) as -> by (unfold elem; change (resync_lru _) with (resync_lru r1); by rewrite Hei).
  rewrite Hflags, Hlk. cbn [negb andb refcnt Z.eqb Pos.eqb].
  pose proof (others_trans _ _ _ _ O (others_set i r1 BME_NO_WRITES Hl1)) as O'. apply check_al_ok; [|done|done|].
  - split.
    + by apply rs_ok_count, rs_ok_upd.
    + by apply Hu.
    + exact Hei.
    + change (NW (bme_set_bit r1 i BME_NO_WRITES) i = true). rewrite test_set, decide_True by done. done.
    + change (LK (bme_set_bit r1 i BME_NO_WRITES) i = false). rewrite test_set, decide_True, Hflags by done. done.
    + apply (none_half_same i r); [|done]. apply (inv_none_half r i e H He). destruct Hw as [|Hw]; [by left|]. right.
      exfalso. destruct (W ltac:(lia)) as (j & x & Hj & Hx & _). apply (Ha' j x Hj). rewrite <- (cm_quiet _ (rk_calm _ K) j x Hj). congruence.
  - intros x Hx. destruct (others_locks i r (bme_set_bit r1 i BME_NO_WRITES) x O' Hx) as [|(e' & _ & Hk & _)]; [done|].
    rewrite test_set, decide_True, Hflags, Hlk in Hk by done. done.
Qed.

(** [bsr_try_rs_begin_io] returns, no assertion fails, and it locks an extent only when the activity log has nothing in it. *)
Lemma try_ok mon bm idx al throttle slow sector r : let enr := BM_SECT_TO_EXT sector in
  wf bm -> 0 <= idx < bm_max_peers bm -> rs_inv r -> ref_room r -> 0 <= enr < LC_FREE ->
  exists err r', bsr_try_rs_begin_io mon bm idx al throttle slow sector r = Some (err, true, r') /\ rs_inv r' /\ may_lock al enr err r r'.
Proof.
  intros enr Hwf Hidx H R Henr. unfold bsr_try_rs_begin_io. fold enr. destruct (_ && negb _).
  { exists (- EAGAIN), r. split; [done|]. split; [done|]. by apply may_lock_refl. }
  destruct (kick_ok enr r H) as (r1 & -> & H1 & V & Hw & L & R1). cbn [mbind option_bind]. specialize (R1 R). pose proof H1 as [K1 _ _ _].
  rewrite (u32_id enr) by (unfold LC_FREE, U32_MAX in Henr; lia).
  destruct (get_calm mon (resync_lru r1) enr false (rk_calm _ K1) (rk_over _ K1) ltac:(lia)) as (o & lc & Eg & Hi & Hid & Lm & G).
  unfold lc_try_get. rewrite Eg. cbn [mbind option_bind]. destruct o as [i|].
  - destruct G as (_ & e & He & [(Hn & El)|(? & _)]); [|done].
    destruct (try_hit_ok al (throttle && slow) enr r1 i e lc H1 R1 Henr Hw He Hn Hi Hid Lm El) as (err & r' & -> & H' & M).
    exists err, r'. split; [done|]. split; [done|]. by apply (may_lock_from al enr err r r1).
  - destruct G as (El & Ha & _). pose proof (inv_same_elements r1 lc H1 Hi Hid Lm El) as H2.
    destruct (try_new_ok mon bm idx al (throttle && slow) enr (set_lru r1 lc) Hwf Hidx H2 Henr Hw) as (err & r' & -> & H' & M).
    { destruct Ha as [Hs|Ha]; [left|right; intros j x; cbn; rewrite El; apply Ha].
      revert Eg. unfold __lc_get. rewrite paranoia_entry by (done || apply (rk_calm _ K1)). cbn [mbind option_bind].
      change (LC_STARVING (flags (set_paranoia (resync_lru r1) true))) with (LC_STARVING (flags (resync_lru r1))). rewrite Hs.
      intros [= <-]. cbn. by destruct mon. }
    exists err, r'. split; [done|]. split; [done|]. apply (may_lock_from al enr err r (set_lru r1 lc)); [done| |done].
    intros x (j & e & Hj & Hk & Hx). apply L. cbn in Hj. rewrite El in Hj. by exists j, e.
Qed.

(** ** Removing all extents *)

Lemma del_one r i e : rs_inv r -> els r !! i = Some e -> refcnt e = 0 -> lc_number e <> LC_FREE ->
  exists lc, lc_del (resync_lru r) i = Some lc /\ rs_inv (set_lru r lc) /\ (forall x, locks (set_lru r lc) x -> locks r x) /\
    (forall j, j <> i -> elements lc !! j = els r !! j) /\ elements lc !! i = Some (mk_element 0 LC_FREE LC_FREE).
Proof.
  intros [K U E W] He Hr Hf. destruct (lc_del_cases _ i e (cm_inv _ (rk_calm _ K)) (cm_idle _ (rk_calm _ K)) He Hr) as (lc & Ed & Hi & Hid & El & _).
  exists lc. split; [done|]. destruct (E i e He) as [O1 O2 O3].
  assert (NW r i = false) as Hnw by (destruct (NW r i); [destruct (proj1 O1 eq_refl); lia|done]).
  assert (LK r i = false) as Hlk by (destruct (LK r i); [by rewrite O2 in Hnw|done]).
  assert (calm lc) as C by (by apply (calm_insert _ lc i _ (rk_calm _ K) Hi Hid El)).
  assert (elements lc !! i = Some (mk_element 0 LC_FREE LC_FREE)) as Hei by (rewrite El; apply list_lookup_insert_eq; by eapply lookup_lt_Some).
  pose proof (others_lru i r lc _ El) as O. split; [|split; [|split; [|done]]].
  - split.
    + apply (rs_ok_lru r lc i _ K C El). done.
    + unfold unlocked in *. revert Ed. unfold lc_del, PARANOIA_ENTRY. destruct (_ || _); [done|]. cbn [mbind option_bind].
      destruct (_ !! i); [|done]. cbn [mbind option_bind]. destruct (negb _); [done|]. intros [= <-]. exact U.
    + intros j x Hj. destruct (decide (j = i)) as [->|Hji].
      * cbn in Hj. rewrite Hei in Hj. injection Hj as <-. change (bme_ok (resync_wenr r) (mk_element 0 LC_FREE LC_FREE) (NW r i) (LK r i)).
        rewrite Hnw, Hlk. split; cbn; intuition (lia || discriminate).
      * destruct (O j Hji) as (A1 & A2 & A3). rewrite A1 in Hj. rewrite A2, A3. by apply E.
    + intros Hw. destruct (W Hw) as (j & x & Hj & Hx & Hn & Hk). assert (j <> i) as Hji by congruence. destruct (O j Hji) as (A1 & A2 & A3).
      exists j, x. by rewrite A1, A2, A3.
  - intros x Hx. destruct (others_locks i r (set_lru r lc) x O Hx) as [|(e' & _ & Hk & _)]; [done|]. change (LK r i = true) in Hk. congruence.
  - intros j Hj. by rewrite El, list_lookup_insert_ne.
Qed.

(** The extent [resync_wenr] remembers loses its reference. *)
Lemma drop_waiting r i e : rs_inv r -> els r !! i = Some e -> lc_number e <> LC_FREE -> lc_number e = resync_wenr r ->
  NW r i = true /\ LK r i = false /\
  let r1 := set_wenr (bme_clear_bit r i BME_NO_WRITES) LC_FREE in
  exists lc, lc_put (resync_lru r1) i = Some (0, lc) /\ rs_inv (set_lru r1 lc) /\ (forall x, locks (set_lru r1 lc) x -> locks r x) /\
    (forall j, j <> i -> elements lc !! j = els r !! j) /\ elements lc !! i = Some (mk_element 0 (lc_number e) (lc_number e)).
Proof.
  intros H He Hf Hw. pose proof H as [K U E _]. destruct (waiting_extent r H ltac:(congruence)) as (j & x & Hj & _ & Hxw & Hr & Hn & Hk & Hh).
  assert (j = i) as ->. { pose proof (cm_quiet _ (rk_calm _ K)) as Q.
    apply (label_unique _ j i x e (cm_inv _ (rk_calm _ K)) Hj He); rewrite <- ?(Q j x Hj), <- ?(Q i e He); congruence. }
  rewrite He in Hj. injection Hj as <-. split; [done|]. split; [done|]. pose proof (rs_index _ _ _ K He) as Hl. intros r1.
  destruct (put_calm (resync_lru r1) i e (rk_calm _ K) He ltac:(lia)) as (lc & Ep & C & [L _] & _ & El). rewrite Hr in Ep. exists lc. split; [done|].
  cbn in El. rewrite Hr in El.
  assert (elements lc !! i = Some (mk_element 0 (lc_number e) (lc_number e))) as Hei by (rewrite El; apply list_lookup_insert_eq; by eapply lookup_lt_Some).
  assert (others_same i r (set_lru r1 lc)) as O.
  { eapply others_trans; [|apply (others_lru i r1 lc _ El)]. by apply others_wenr, others_clear. }
  assert (NW (set_lru r1 lc) i = false /\ LK (set_lru r1 lc) i = false) as [Fn Fk].
  { change (NW (bme_clear_bit r i BME_NO_WRITES) i = false /\ LK (bme_clear_bit r i BME_NO_WRITES) i = false).
    rewrite !test_clear by done. rewrite !decide_True by done. rewrite Hk. by rewrite andb_false_r. }
  split; [|split; [|split; [|done]]].
  - apply (inv_one_extent i (mk_element 0 (lc_number e) (lc_number e))); [|unfold unlocked in *; change (LC_LOCKED (flags lc) = false); cbn in L; congruence|
      by apply (none_half_same i r)|done|rewrite Fn, Fk; split; cbn; intuition (lia || discriminate)|done].
    apply (rs_ok_lru r1 lc i _ (rs_ok_wenr _ _ (rs_ok_upd r i _ K)) C El). done.
  - intros y Hy. destruct (others_locks i r (set_lru r1 lc) y O Hy) as [|(e' & _ & Hk' & _)]; [done|congruence].
  - intros j Hj. by rewrite El, list_lookup_insert_ne.
Qed.

Lemma unlabelled_unused lc : inv lc -> (forall i e, elements lc !! i = Some e -> lc_new_number e = LC_FREE) -> used lc = 0.
Proof.
  intros Hi Hf. destruct (iv_counts _ Hi) as [-> _ _].
  assert (forall w, w = L_in_use \/ w = L_to_be_changed -> in_list lc w = []) as Hnil.
  { intros w Hw. destruct (in_list lc w) as [|i l] eqn:El; [done|]. destruct (iv_state _ Hi w i) as (e & He & _ & Hs); [rewrite El; by left|].
    specialize (Hf i e He). destruct Hw as [-> | ->]; destruct Hs as (_ & _ & ?); congruence. }
  pose proof (Hnil L_in_use ltac:(auto)) as E1. pose proof (Hnil L_to_be_changed ltac:(auto)) as E2. cbn in E1, E2. by rewrite E1, E2.
Qed.

Lemma rs_del_ok idx r : rs_inv r -> Forall (fun i => (i < nr_elements (resync_lru r))%nat) idx ->
  (forall i e, els r !! i = Some e -> i ∉ idx -> lc_number e = LC_FREE) ->
  exists err r', rs_del idx true r = Some (err, true, r') /\ rs_inv r' /\ rs_version r' = rs_version r /\ (forall x, locks r' x -> locks r x).
Proof.
  revert r. induction idx as [|i idx IH]; intros r H Hidx Hfree; cbn [rs_del].
  { exists 0, r. pose proof H as [K _ _ _]. rewrite (unlabelled_unused (resync_lru r)); [by split|apply K|]. intros j e He.
    rewrite <- (cm_quiet _ (rk_calm _ K) j e He). apply (Hfree j e He). apply not_elem_of_nil. }
  apply Forall_cons in Hidx as [Hi Hidx]. destruct (lookup_lt_is_Some_2 (els r) i Hi) as [e He].
  assert (elem (resync_lru r) i = e) as -> by (unfold elem; by rewrite He).
  destruct (Z.eqb_spec (lc_number e) LC_FREE) as [Ef|Hf].
  { apply IH; [done|done|]. intros j x Hj Hn. destruct (decide (j = i)) as [->|Hji]; [congruence|]. apply (Hfree j x Hj). by apply not_elem_of_cons. }
  assert (forall r1 e1, rs_inv r1 -> rs_version r1 = rs_version r -> (forall x, locks r1 x -> locks r x) -> els r1 !! i = Some e1 -> lc_number e1 <> LC_FREE ->
    (forall j, j <> i -> els r1 !! j = els r !! j) -> nr_elements (resync_lru r1) = nr_elements (resync_lru r) ->
    exists err r', (if negb (refcnt (elem (resync_lru r1) i) =? 0) then Some (- EAGAIN, true, r1)
      else lc ← lc_del (resync_lru r1) i; rs_del idx (true && negb (LK r1 i) && negb (NW r1 i)) (set_lru r1 lc)) = Some (err, true, r') /\
      rs_inv r' /\ rs_version r' = rs_version r /\ (forall x, locks r' x -> locks r x)) as Hnext.
  { intros r1 e1 H1 V1 L1 He1 Hf1 Ho Hlen. assert (elem (resync_lru r1) i = e1) as -> by (unfold elem; by rewrite He1).
    destruct (Z.eqb_spec (refcnt e1) 0) as [Hr|Hr]; cbn [negb]; [|by exists (- EAGAIN), r1].
    destruct (del_one r1 i e1 H1 He1 Hr Hf1) as (lc & -> & H2 & L2 & O2 & Hi2). cbn [mbind option_bind].
    destruct (ri_elem _ H1 i e1 He1) as [B1 B2 _].
    assert (NW r1 i = false) as Hnw by (destruct (NW r1 i); [destruct (proj1 B1 eq_refl); lia|done]).
    assert (LK r1 i = false) as Hlk by (destruct (LK r1 i); [by rewrite B2 in Hnw|done]). rewrite Hnw, Hlk. cbn [negb andb].
    assert (nr_elements lc = nr_elements (resync_lru r1)) as Hlen2.
    { pose proof (rk_len _ (ri_ok _ H2)) as A. pose proof (rk_len _ (ri_ok _ H1)) as B. cbn in A, B. congruence. }
    destruct (IH (set_lru r1 lc) H2) as (err & r' & -> & H3 & V3 & L3).
    - cbn. by rewrite Hlen2, Hlen.
    - intros j x. cbn. destruct (decide (j = i)) as [->|Hji]; [rewrite Hi2; by intros [= <-]|]. rewrite O2, Ho by done. intros Hj Hn.
      apply (Hfree j x Hj). by apply not_elem_of_cons.
    - exists err, r'. split; [done|]. split; [done|]. split; [rewrite V3; exact V1|]. auto. }
  destruct (Z.eqb_spec (lc_number e) (resync_wenr r)) as [Ew|Hw]; [|by apply (Hnext r e)].
  destruct (drop_waiting r i e H He Hf Ew) as (Hnw & Hlk & lc & Ep & H1 & L1 & O1 & Hi1). rewrite Hnw, Hlk. cbv zeta. rewrite Ep. cbn [mbind option_bind negb andb].
  apply (Hnext _ (mk_element 0 (lc_number e) (lc_number e)) H1); [done|done|done|done|done|].
  pose proof (rk_len _ (ri_ok _ H1)) as A. pose proof (rk_len _ (ri_ok _ H)) as B. cbn in A, B. rewrite length_alter in A. cbn. congruence.
Qed.

Lemma del_all_ok r : rs_inv r ->
  exists err r', bsr_rs_del_all true r = Some (err, true, r') /\ rs_inv r' /\ rs_version r' = rs_version r /\ (forall x, locks r' x -> locks r x).
Proof.
  intros H. apply rs_del_ok; [done| |].
  - apply Forall_forall. intros i Hi. apply elem_of_seq in Hi. lia.
  - intros i e He Hn. destruct Hn. apply elem_of_seq. split; [lia|]. by eapply lookup_lt_Some.
Qed.

End RsExtentInv.
