(* ===== verification/RsRun.v ===== *)
(** * Runs of resync extents and the activity log (src/bsr/bsr_actlog.c)

    The steps of the activity log together with those of the resync: taking
    an extent, giving it back, dropping them all, and the changes of the
    bitmap.  All of them run under al_lock. *)

From stdpp Require Import relations.
From S2P Require Import Prelude LruCache CalmCache Bitmap BitmapApi State ActLog AlReplay AlReplayOk AlCrash AlRun SyncBits SyncBitsOk RsExtent RsExtentInv.

Module RsRun.
Import Bitmap BitmapApi State LruCache CalmCache ActLog SyncBits SyncBitsOk RsExtent RsExtentInv.

(** ** Extents in use *)

(** Writes are active in extent [x] of the activity log. *)
Definition uses (al : lru_cache) (x : Z) : Prop := exists i e, elements al !! i = Some e /\ lc_new_number e = x /\ 0 < refcnt e.

(** No writes in the extents the resync with this peer has locked. *)
Definition apart (al : lru_cache) (r : rs_peer) : Prop :=
  rs_version r <= 112 -> forall x, uses al x -> ~ locks r (x / AL_EXT_PER_BM_SECT).

Definition peers_ok (al : lru_cache) (ps : list rs_peer) : Prop := Forall (fun r => rs_inv r /\ apart al r) ps.

(** An operation that locks nothing. *)
Definition only_unlocks (r r' : rs_peer) : Prop := rs_inv r' /\ rs_version r' = rs_version r /\ forall x, locks r' x -> locks r x.

Lemma only_unlocks_refl r : rs_inv r -> only_unlocks r r.
Proof. by split. Qed.

Lemma only_unlocks_apart al r r' : only_unlocks r r' -> apart al r -> rs_inv r' /\ apart al r'.
Proof. intros (H & V & L) A. split; [done|]. unfold apart. rewrite V. intros Hv x Hu Hl. by apply (A Hv x Hu), L. Qed.

Lemma unlocks_ok al ps ps' : Forall2 only_unlocks ps ps' -> peers_ok al ps -> peers_ok al ps'.
Proof.
  intros H. induction H as [|r r' ps ps' H _ IH]; intros Hp; [done|]. apply Forall_cons in Hp as [[_ A] Hp].
  apply Forall_cons. split; [by apply (only_unlocks_apart al r)|by apply IH].
Qed.

Lemma unlocks_refl ps : Forall rs_inv ps -> Forall2 only_unlocks ps ps.
Proof. intros H. apply Forall_Forall2_diag. eapply Forall_impl; [exact H|apply only_unlocks_refl]. Qed.

Lemma unlocks_trans a b c : Forall2 only_unlocks a b -> Forall2 only_unlocks b c -> Forall2 only_unlocks a c.
Proof.
  intros H. revert c. induction H as [|x y a b (_ & V & L) _ IH]; intros c Hc; inversion Hc as [|? z ? c' (H & V' & L') Hc']; [constructor|]. subst.
  constructor; [|by apply IH]. split; [done|]. split; [congruence|auto].
Qed.

(** Fewer extents in use, or some more that are not locked. *)
Lemma fewer_uses al al' ps : (forall x, uses al' x -> uses al x \/ Forall (fun r => rs_version r <= 112 -> ~ locks r (x / AL_EXT_PER_BM_SECT)) ps) ->
  peers_ok al ps -> peers_ok al' ps.
Proof.
  intros Hu Hp. apply Forall_forall. intros r Hr. unfold peers_ok in Hp. rewrite Forall_forall in Hp. destruct (Hp r Hr) as [H A].
  split; [done|]. intros Hv x Hx. destruct (Hu x Hx) as [H1|H1]; [by apply A|]. rewrite Forall_forall in H1. by apply H1.
Qed.

Lemma one_peer al ps k r r' : peers_ok al ps -> ps !! k = Some r -> (rs_inv r -> apart al r -> rs_inv r' /\ apart al r') -> peers_ok al (<[k := r']> ps).
Proof. intros Hp Hk H. apply Forall_insert; [done|]. unfold peers_ok in Hp. rewrite Forall_lookup in Hp. destruct (Hp k r Hk). by apply H. Qed.

(** ** Requests looking at the resync extents *)

Lemma rs_label x : 0 <= x < LC_FREE -> x / AL_EXT_PER_BM_SECT <> LC_FREE.
Proof. intros H. pose proof (Z.div_lt_upper_bound x AL_EXT_PER_BM_SECT LC_FREE ltac:(done)). unfold AL_EXT_PER_BM_SECT, LC_FREE, U32_MAX in *. lia. Qed.

(** The extent that is locked is the one [lc_find] finds. *)
Lemma locked_found r x : rs_inv r -> locks r x -> x <> LC_FREE /\ exists i, lc_find (resync_lru r) x = Some i /\ LK r i = true.
Proof.
  intros [K _ E _] (i & e & He & Hk & Hx). destruct (E i e He) as [O1 O2 _]. pose proof (proj1 O1 (O2 Hk)) as Hr.
  pose proof (referenced_labelled _ i e (cm_inv _ (rk_calm _ K)) He Hr) as Hf. rewrite <- (cm_quiet _ (rk_calm _ K) i e He) in Hf.
  split; [congruence|]. exists i. split; [|done]. rewrite <- Hx. by apply (find_calm_at _ i e (rk_calm _ K)).
Qed.

(** The extent the resync waits for is given up. *)
Lemma let_go r i x : rs_inv r -> x <> LC_FREE -> lc_find (resync_lru r) x = Some i -> resync_wenr r = lc_number (elem (resync_lru r) i) ->
  exists lc, lc_put (resync_lru r) i = Some (0, lc) /\
    let r' := mk_rs_peer (rs_version r) lc (alter (set_bme_flags 0) i (bmes r)) LC_FREE (u32 (resync_locked r - 1)) in
    only_unlocks r r' /\ ~ locks r' x.
Proof.
  intros H Hx Hf Hw. pose proof (find_calm _ x (rk_calm _ (ri_ok _ H)) Hx) as Hs. rewrite Hf in Hs. destruct Hs as (e & He & Hn & _).
  unfold elem in Hw. rewrite He in Hw. cbn in Hw. destruct (waiting_extent r H ltac:(congruence)) as (j & e' & Hj & Hfj & _ & Hr & _ & Hlk & Hh).
  assert (j = i) as -> by congruence. replace e' with e in * by congruence. pose proof (rs_index _ _ _ (ri_ok _ H) He) as Hl.
  destruct (drop_half r (set_wenr r LC_FREE) i e Hh) as (r' & Ep & H' & V & _ & Hnw & _ & _ & L); try done; [by apply rs_ok_wenr, H|by apply H|].
  unfold bme_put in Ep. change (resync_lru (set_wenr r LC_FREE)) with (resync_lru r) in Ep. destruct (lc_put (resync_lru r) i) as [[n lc]|] eqn:E; [|done].
  cbn [mbind option_bind] in Ep. injection Ep as -> <-. exists lc. split; [done|]. cbv zeta. split; [done|]. intros Hlo.
  apply L in Hlo. destruct (locked_found r x H Hlo) as (_ & i' & Hi' & Hk). congruence.
Qed.

(** What a request sees: when no extent is in the way, it is not locked. *)
Definition checked (enr : Z) (found : bool) (ps ps' : list rs_peer) : Prop :=
  Forall2 only_unlocks ps ps' /\ (found = false -> Forall (fun r => rs_version r <= 112 -> ~ locks r (enr / AL_EXT_PER_BM_SECT)) ps').

Lemma checked_cons enr found r r' ps ps' : only_unlocks r r' -> (rs_version r <= 112 -> ~ locks r' (enr / AL_EXT_PER_BM_SECT)) ->
  checked enr found ps ps' -> checked enr found (r :: ps) (r' :: ps').
Proof.
  intros U N [U' C]. split; [by constructor|]. intros Hf. constructor; [|by apply C]. destruct U as (_ & -> & _). done.
Qed.

Lemma find_active_ok enr ps : Forall rs_inv ps -> 0 <= enr < LC_FREE ->
  exists found w ps', find_active_resync_extent enr ps = Some (found, w, ps') /\ checked enr found ps ps'.
Proof.
  intros Hp Henr. induction Hp as [|r ps H Hp (found & w & ps' & E & C)].
  { exists false, false, []. split; [done|]. split; [done|]. constructor. }
  cbn [find_active_resync_extent]. rewrite E. cbn [mbind option_bind]. pose proof (rs_label enr Henr) as Hx.
  assert (checked enr true (r :: ps) (r :: ps)) as Hsame.
  { split; [|done]. apply unlocks_refl. by constructor. }
  destruct (Z.leb_spec (rs_version r) 112) as [Hv|Hv].
  2:{ exists found, (false || w), (r :: ps'). split; [done|]. apply checked_cons; [by apply only_unlocks_refl|lia|done]. }
  destruct (lc_find (resync_lru r) (enr / AL_EXT_PER_BM_SECT)) as [i|] eqn:Ef; [destruct (NW r i) eqn:Hnw|].
  - destruct (Z.eqb_spec (resync_wenr r) (lc_number (elem (resync_lru r) i))) as [Hw|_]; [|by exists true, false, (r :: ps)].
    destruct (let_go r i _ H Hx Ef Hw) as (lc & -> & U & N). cbn [mbind option_bind Z.eqb]. eexists _, _, _. split; [done|]. by apply checked_cons.
  - exists found, (false || w), (r :: ps'). split; [done|]. apply checked_cons; [by apply only_unlocks_refl| |done]. intros _ Hl.
    destruct (locked_found r _ H Hl) as (_ & j & Hj & Hk). assert (j = i) as -> by congruence.
    pose proof (find_calm _ _ (rk_calm _ (ri_ok _ H)) Hx) as Hs. rewrite Ef in Hs. destruct Hs as (e & He & _).
    rewrite (bo_locked _ _ _ _ (ri_elem _ H i e He) Hk) in Hnw. done.
  - exists found, (false || w), (r :: ps'). split; [done|]. apply checked_cons; [by apply only_unlocks_refl| |done]. intros _ Hl.
    destruct (locked_found r _ H Hl) as (_ & j & Hj & _). congruence.
Qed.

(** *** Changes that are not about locks *)

(** [rs_inv] without the cache. *)
Definition flags_ok (r : rs_peer) : Prop :=
  unlocked r /\ (forall i e, els r !! i = Some e -> bme_ok (resync_wenr r) e (NW r i) (LK r i)) /\
  (resync_wenr r <> LC_FREE -> exists i e, els r !! i = Some e /\ lc_number e = resync_wenr r /\ NW r i = true /\ LK r i = false).

Lemma updated_flags enr r r' : updated enr r r' -> flags_ok r -> flags_ok r' /\ rs_version r' = rs_version r /\ forall x, locks r' x -> locks r x.
Proof.
  intros (V & W & _ & Hl & [(El & Hf & _)|(i & e & He & Hr & _ & El & Hz & Hj)]) (U & E & Hw); unfold flags_ok, locks.
  - assert (forall j b, bme_test r' j b = bme_test r j b) as Ht by (intros j b; unfold bme_test; by rewrite Hf).
    split; [|split; [done|]]; [unfold unlocked in *; rewrite Hl, W, El; split; [done|]; split|rewrite El].
    + intros j x Hx. rewrite !Ht. by apply E.
    + intros Hne. destruct (Hw Hne) as (j & x & ? & ? & ? & ?). exists j, x. by rewrite !Ht.
    + intros x (j & y & Hy & Hk & Hx). rewrite Ht in Hk. by exists j, y.
  - assert (forall b, bme_test r' i b = false) as Hi by (intros b; unfold bme_test; rewrite Hz; apply Z.bits_0).
    assert (forall j b, j <> i -> bme_test r' j b = bme_test r j b) as Ht by (intros j b Hji; unfold bme_test; by rewrite Hj).
    pose proof (lookup_lt_Some _ _ _ He) as Hlt. split; [|split; [done|]]; [unfold unlocked in *; rewrite Hl, W, El; split; [done|]; split|rewrite El].
    + intros j x Hx. destruct (decide (j = i)) as [->|Hji].
      * rewrite list_lookup_insert_eq in Hx by done. injection Hx as <-. rewrite !Hi. split; cbn; intuition (lia || discriminate).
      * rewrite list_lookup_insert_ne in Hx by done. rewrite !Ht by done. by apply E.
    + intros Hne. destruct (Hw Hne) as (j & x & Hx & Hn & Hnw & Hlk). assert (j <> i) as Hji.
      { intros ->. destruct (E i x Hx) as [O1 _ _]. apply O1 in Hnw. replace x with e in * by congruence. lia. }
      exists j, x. rewrite list_lookup_insert_ne, !Ht by done. done.
    + intros x (j & y & Hy & Hk & Hx). destruct (decide (j = i)) as [->|Hji]; [by rewrite Hi in Hk|].
      rewrite list_lookup_insert_ne in Hy by done. rewrite Ht in Hk by done. by exists j, y.
Qed.

(** Changes of the bitmap and of the counts. *)
Lemma updates_unlock r r' : rs_inv r -> rs_ok r' -> updates r r' -> only_unlocks r r'.
Proof.
  intros [K U E W] K' H. assert (flags_ok r' /\ rs_version r' = rs_version r /\ forall x, locks r' x -> locks r x) as ((U' & E' & W') & V & L); [|by split].
  assert (flags_ok r) as F by done. clear K K' U E W. induction H as [r|r r1 r' [enr H1] _ IH]; [done|].
  destruct (updated_flags enr r r1 H1 F) as (F1 & V1 & L1). destruct (IH F1) as (F' & V' & L'). split; [done|]. split; [congruence|]. auto.
Qed.

Lemma priority_one r i : rs_inv r -> (i < length (bmes r))%nat -> only_unlocks r (bme_set_bit r i BME_PRIORITY).
Proof.
  intros [K U E W] Hl. assert (forall j, NW (bme_set_bit r i BME_PRIORITY) j = NW r j /\ LK (bme_set_bit r i BME_PRIORITY) j = LK r j) as Ht.
  { intros j. rewrite !test_set by done. destruct (decide (j = i)) as [->|]; done. }
  split; [split|split; [done|]].
  - by apply rs_ok_upd.
  - done.
  - intros j e He. destruct (Ht j) as [-> ->]. by apply E.
  - intros Hw. destruct (W Hw) as (j & e & ? & ? & ? & ?). exists j, e. destruct (Ht j) as [-> ->]. done.
  - intros x (j & e & He & Hk & Hx). destruct (Ht j) as [_ Hj]. rewrite Hj in Hk. by exists j, e.
Qed.

Lemma priority_ok enr wake ps : Forall rs_inv ps -> 0 <= enr < LC_FREE -> Forall2 only_unlocks ps (set_bme_priority enr wake ps).2.
Proof.
  intros Hp Henr. induction Hp as [|r ps H Hp IH]; [constructor|]. unfold set_bme_priority in *. cbn [foldr].
  destruct (foldr _ _ ps) as [w ps']. destruct (rs_version r <=? 112); [|by constructor; [apply only_unlocks_refl|]].
  pose proof (find_calm _ _ (rk_calm _ (ri_ok _ H)) (rs_label enr Henr)) as Hs.
  destruct (lc_find _ _) as [i|]; [|by constructor; [apply only_unlocks_refl|]]. destruct Hs as (e & He & _).
  destruct (_ && _); [|by constructor; [apply only_unlocks_refl|]]. constructor; [|done]. by apply (priority_one r i H), (rs_index r i e (ri_ok _ H)).
Qed.

(** ** References of the activity log *)

Lemma uses_insert al al' i e e' x : elements al !! i = Some e -> elements al' = <[i := e']> (elements al) -> uses al' x ->
  uses al x \/ 0 < refcnt e' /\ x = lc_new_number e'.
Proof.
  intros He El (j & y & Hy & Hx & Hr). rewrite El in Hy. apply list_lookup_insert_Some in Hy as [(-> & <- & _)|[_ Hy]]; [by right|].
  left. by exists j, y.
Qed.

Lemma get_uses mon al enr mc mu r al' x : inv al -> idle al -> no_overflow al -> enr <> LC_FREE -> __lc_get mon al enr mc mu = Some (r, al') ->
  uses al' x -> uses al x \/ x = enr.
Proof.
  intros Hi Hid Ho Hf E Hu. destruct (lc_get_cases mon al enr mc mu Hi Hid Ho Hf) as (r1 & al1 & E1 & _ & _ & G). rewrite E in E1.
  injection E1 as <- <-. destruct r as [i|].
  - destruct G as (_ & e & He & [(_ & _ & _ & El)|[(_ & _ & _ & El)|(_ & _ & _ & _ & _ & _ & _ & _ & El)]]);
      destruct (uses_insert al al' i e _ x He El Hu) as [|[_ ->]]; auto.
  - destruct G as [[El _] _]. left. unfold uses in *. by rewrite El in Hu.
Qed.

Lemma put_uses al i r al' x : inv al -> idle al -> lc_put al i = Some (r, al') -> uses al' x -> uses al x.
Proof.
  intros Hi Hid H Hu. pose proof H as H0. unfold lc_put in H0. rewrite paranoia_entry in H0 by done. cbn [mbind option_bind] in H0.
  change (elements (set_paranoia al true)) with (elements al) in H0. destruct (elements al !! i) as [e|] eqn:He; [|done]. cbn [mbind option_bind] in H0.
  destruct (Z.eqb_spec (refcnt e) 0) as [|Hr]; [done|]. destruct (Z.eqb_spec (lc_number e) (lc_new_number e)) as [Hn|]; [|done]. clear H0.
  pose proof (elem_refcnt al i e Hi He) as Hb. destruct (lc_put_cases al i e Hi Hid He ltac:(lia) Hn) as (al1 & E & _ & _ & [El _]).
  rewrite H in E. injection E as _ <-. destruct (uses_insert al al' i e _ x He El Hu) as [|[_ ->]]; [done|]. exists i, e. split_and!; [done|done|lia].
Qed.

Lemma commit_uses mon al al' x : inv al -> idle al -> lc_committed mon al = Some al' -> uses al' x -> uses al x.
Proof.
  intros Hi Hid H (i & e & He & Hx & Hr). destruct (lc_committed_cases mon al Hi Hid) as (al1 & E & _ & _ & El & _). rewrite H in E.
  injection E as <-. rewrite El, list_lookup_fmap in He. destruct (elements al !! i) as [y|] eqn:Hy; [|done]. injection He as <-. by exists i, y.
Qed.

(** *** What the steps of the activity log leave *)

Definition dev_ok (d : al_device) : Prop := peers_ok (act_log d) (rs_peers d).

Lemma dev_inv d : dev_ok d -> Forall rs_inv (rs_peers d).
Proof. intros H. eapply Forall_impl; [exact H|]. by intros r []. Qed.

(** No extent of the resync that covers [enr] is locked. *)
Definition clear_of (enr : Z) (ps : list rs_peer) : Prop := Forall (fun r => rs_version r <= 112 -> ~ locks r (enr / AL_EXT_PER_BM_SECT)) ps.

Lemma clear_unlocks enr ps ps' : Forall2 only_unlocks ps ps' -> clear_of enr ps -> clear_of enr ps'.
Proof.
  intros H. induction H as [|r r' ps ps' (_ & V & L) _ IH]; intros C; [done|]. apply Forall_cons in C as [C1 C]. constructor; [|by apply IH].
  rewrite V. intros Hv Hl. by apply (C1 Hv), L.
Qed.

Definition passive (d d' : al_device) : Prop := rs_peers d' = rs_peers d /\ forall x, uses (act_log d') x -> uses (act_log d) x.

Lemma passive_ok d d' : passive d d' -> dev_ok d -> dev_ok d'.
Proof. intros [E U] H. unfold dev_ok. rewrite E. apply (fewer_uses (act_log d)); [|done]. intros x Hx. left. by apply U. Qed.

Lemma passive_trans a b c : passive a b -> passive b c -> passive a c.
Proof. intros [? ?] [? ?]. split; [congruence|auto]. Qed.

Lemma u32_label x : u32 x <> LC_FREE -> 0 <= u32 x < LC_FREE.
Proof. intros H. pose proof (Z.mod_pos_bound x (2 ^ 32) ltac:(done)). unfold u32, wrap, LC_FREE, U32_MAX in *. lia. Qed.

Lemma take_ok mon d enr mc mu r al : inv (act_log d) -> idle (act_log d) -> no_overflow (act_log d) -> enr <> LC_FREE -> dev_ok d ->
  clear_of enr (rs_peers d) -> __lc_get mon (act_log d) enr mc mu = Some (r, al) -> dev_ok (set_al d al).
Proof.
  intros Hi Hid Ho Hf H C E. apply (fewer_uses (act_log d)); [|done]. intros x Hx. destruct (get_uses _ _ _ _ _ _ _ x Hi Hid Ho Hf E Hx) as [| ->]; auto.
Qed.

Lemma al_get_dev ph mon nonblock enr d r d' : AlCrash.calm ph (act_log d) -> 0 <= enr < LC_FREE -> no_overflow (act_log d) -> dev_ok d ->
  __al_get mon nonblock enr d = Some (r, d') -> dev_ok d'.
Proof.
  intros [Hi Hid _] Henr Ho H. unfold __al_get. destruct (find_active_ok enr (rs_peers d) (dev_inv d H) Henr) as (found & w & ps & -> & U & C).
  cbn [mbind option_bind]. pose proof (unlocks_ok _ _ _ U H) as H1. destruct found.
  - intros [= _ <-]. apply (unlocks_ok _ ps); [|done]. apply priority_ok; [|done]. by apply (dev_inv (set_rs_peers d ps)).
  - intros E. assert (exists al, __lc_get mon (act_log d) enr (negb nonblock) false = Some (r, al) /\ d' = set_al (set_rs_peers d ps) al) as (al & Hg & ->).
    { destruct nonblock; unfold lc_try_get, lc_get in E; cbn [negb];
        (destruct (__lc_get _ _ _ _ _) as [[r1 al1]|]; [|done]); cbn in E; injection E as <- <-; by eexists. }
    apply (take_ok mon (set_rs_peers d ps) enr (negb nonblock) false r al); try done; [lia|by apply C].
Qed.

Lemma resync_in_way_dev wake enrs d r d' : Forall (fun x => u32 x <> LC_FREE) enrs -> dev_ok d -> resync_in_way wake enrs d = Some (r, d') ->
  dev_ok d' /\ Forall2 only_unlocks (rs_peers d) (rs_peers d') /\ act_log d' = act_log d /\ (r = None -> Forall (fun x => clear_of (u32 x) (rs_peers d')) enrs).
Proof.
  intros Hf. revert wake d. induction Hf as [|enr enrs Hx Hf IH]; intros wake d H; cbn [resync_in_way].
  { intros [= <- <-]. split_and!; [done| |done|by constructor]. apply unlocks_refl, dev_inv, H. }
  destruct (find_active_ok (u32 enr) (rs_peers d) (dev_inv d H) (u32_label enr Hx)) as (found & w & ps & -> & U & C). cbn [mbind option_bind].
  pose proof (unlocks_ok _ _ _ U H) as H1. destruct found.
  - pose proof (priority_ok (u32 enr) (wake || w) ps (dev_inv (set_rs_peers d ps) H1) (u32_label enr Hx)) as U2.
    destruct (set_bme_priority _ _ _) as [w' ps']. intros [= <- <-]. split_and!; [by apply (unlocks_ok _ ps)| |done|done].
    by apply (unlocks_trans _ ps).
  - intros E. destruct (IH (wake || w) (set_rs_peers d ps) H1 E) as (H2 & U2 & Ea & C2). split_and!; [done| |done|].
    + by apply (unlocks_trans _ ps).
    + intros Hr. constructor; [|by apply C2]. apply (clear_unlocks _ ps); [exact U2|by apply C].
Qed.

Lemma room_overflow k al : AlCrash.room (k + 1) al -> 0 <= k -> no_overflow al.
Proof. intros R Hk i e He. specialize (R i e He). lia. Qed.

Lemma check_out_dev ph mon enrs d d' : AlCrash.calm ph (act_log d) -> Forall (fun x => u32 x <> LC_FREE) enrs ->
  AlCrash.room (Z.of_nat (length enrs)) (act_log d) -> dev_ok d -> Forall (fun x => clear_of (u32 x) (rs_peers d)) enrs ->
  check_out mon enrs d = Some d' -> dev_ok d'.
Proof.
  intros C Hf. revert d C. induction Hf as [|enr enrs Hx _ IH]; intros d C Hr H Hc; cbn [check_out]; [by intros [= <-]|].
  apply Forall_cons in Hc as [Hc1 Hc]. unfold lc_get_cumulative. destruct (__lc_get _ _ _ _ _) as [[r al]|] eqn:E; [|done]. cbn [mbind option_bind].
  cbn [length] in Hr. replace (Z.of_nat (S (length enrs))) with (Z.of_nat (length enrs) + 1) in Hr by lia. pose proof C as [Hi Hid Hl].
  destruct (AlCrash.kept_get ph _ _ _ _ _ _ _ (Z.of_nat (length enrs)) Hi Hid Hl Hx Hr ltac:(lia) E) as [K R].
  assert (dev_ok (set_al d al)) as H1.
  { eapply (take_ok mon d (u32 enr)); [done|done|apply (room_overflow _ _ Hr); lia|done|done|done|exact E]. }
  destruct (bool_decide _); apply IH; try done; by eapply AlCrash.calm_kept.
Qed.

Lemma nonblock_dev ph mon fake sector sz d err d' : AlCrash.calm ph (act_log d) ->
  Forall (fun x => u32 x <> LC_FREE) (extents (al_first sector) (al_last sector sz)) ->
  AlCrash.room (Z.of_nat (length (extents (al_first sector) (al_last sector sz)))) (act_log d) -> dev_ok d ->
  bsr_al_begin_io_nonblock mon fake sector sz d = Some (err, d') -> dev_ok d'.
Proof.
  intros C Hf Hr H. unfold bsr_al_begin_io_nonblock. cbv zeta. destruct (_ <? _); [intros [= _ <-]; by destruct (_ =? _)|].
  destruct (resync_in_way _ _ _) as [[busy d1]|] eqn:E; [|done]. cbn [mbind option_bind].
  destruct (resync_in_way_dev _ _ _ _ _ Hf H E) as (H1 & _ & Ea & Hc). destruct busy as [e|]; [by intros [= _ <-]|].
  destruct (check_out _ _ _) as [d2|] eqn:E2; [|done]. intros [= _ <-].
  apply (check_out_dev ph mon (extents (al_first sector) (al_last sector sz)) (set_al d1 (set_starving (act_log d1) false)));
    [|done|cbn; by rewrite Ea|done|by apply Hc|done].
  destruct C as [C1 C2 C3]. rewrite Ea. eapply (AlCrash.calm_kept ph (act_log d)); [done|]. by apply AlCrash.kept_starving.
Qed.

Lemma put_actlog_passive ph enrs d b d' : AlCrash.calm ph (act_log d) -> put_actlog enrs d = Some (b, d') -> passive d d'.
Proof.
  revert d b. induction enrs as [|enr enrs IH]; intros d b C; cbn [put_actlog]; [by intros [= _ <-]|].
  destruct (put_one d enr) as [[w d1]|] eqn:E1; [|done]. cbn [mbind option_bind]. destruct (put_actlog enrs d1) as [[w' d2]|] eqn:E2; [|done]. intros [= _ <-].
  assert (passive d d1 /\ AlCrash.calm ph (act_log d1)) as [P1 C1].
  { unfold put_one in E1. destruct (lc_find _ _) as [i|]; [|by injection E1 as _ <-]. destruct (refcnt _ <=? 0); [by injection E1 as _ <-|].
    destruct (lc_put (act_log d) i) as [[r al]|] eqn:Ep; [|done]. injection E1 as _ <-. pose proof C as [Hi Hid _]. split.
    - split; [done|]. intros x. apply (put_uses _ i r al x Hi Hid Ep).
    - assert (AlCrash.room (2 ^ 32 - 2 ^ 33) (act_log d)) as R by (intros j e He; pose proof (elem_refcnt _ j e Hi He); lia).
      destruct (AlCrash.kept_put ph _ _ _ _ _ Hi Hid Ep R) as [K _]. by eapply AlCrash.calm_kept. }
  eapply passive_trans; [exact P1|]. by eapply IH.
Qed.

Lemma for_peer_dev ph mon conn got todo need d r n : AlCrash.calm ph (act_log d) -> Forall (fun x => u32 x <> LC_FREE) todo ->
  AlCrash.room (Z.of_nat (length todo)) (act_log d) -> dev_ok d -> for_peer_get mon conn got todo need d = Some (r, n) ->
  dev_ok (AlRun.for_peer_state r).
Proof.
  intros C Hf. revert got need d C. induction Hf as [|enr todo Hx _ IH]; intros got need d C Hr H; cbn [for_peer_get]; [by intros [= <- _]|].
  unfold _al_get. destruct (__al_get mon false (u32 enr) d) as [[o d1]|] eqn:E; [|done]. cbn [mbind option_bind].
  cbn [length] in Hr. replace (Z.of_nat (S (length todo))) with (Z.of_nat (length todo) + 1) in Hr by lia.
  destruct (AlCrash.al_get_quiet ph _ _ _ _ _ _ (Z.of_nat (length todo)) C Hx Hr ltac:(lia) E) as [Q R].
  pose proof (AlCrash.quiet_calm _ _ _ Q C) as C1.
  pose proof (al_get_dev ph _ _ _ _ _ _ C (u32_label enr Hx) (room_overflow _ _ Hr ltac:(lia)) H E) as H1. destruct o as [i|].
  - intros E2. by eapply IH.
  - destruct conn; [by intros [= <- _]|]. destruct (put_actlog got d1) as [[w d2]|] eqn:E2; [|done]. intros [= <- _].
    apply (passive_ok d1); [|done]. by eapply put_actlog_passive.
Qed.

Section run.
Context (crc32c : al_transaction_on_disk -> Z).

Lemma write_same b i d err d' : __al_write_transaction crc32c b i d = Some (err, d') -> act_log d' = act_log d /\ rs_peers d' = rs_peers d.
Proof.
  unfold __al_write_transaction. cbv zeta. destruct (_ <? _)%nat; [done|]. destruct (_ && _); [done|]. destruct b; [by intros [= _ <-]|].
  destruct (negb _); [by intros [= _ <-]|]. destruct i; by intros [= _ <-].
Qed.

Lemma same_passive d d' : act_log d' = act_log d /\ rs_peers d' = rs_peers d -> passive d d'.
Proof. intros [E1 E2]. split; [done|]. by rewrite E1. Qed.

Lemma ring_same n errs d err d' : rewrite_ring crc32c n errs d = Some (err, d') -> act_log d' = act_log d /\ rs_peers d' = rs_peers d.
Proof.
  revert errs d. induction n as [|n IH]; intros errs d; cbn [rewrite_ring]; [by intros [= _ <-]|]. destruct (List.hd _ errs) as [b i].
  destruct (__al_write_transaction crc32c b i d) as [[e d1]|] eqn:E; [|done]. cbn [mbind option_bind]. destruct (write_same _ _ _ _ _ E) as [A1 P1].
  destruct (negb _); [by intros [= _ <-]|]. intros H. destruct (IH _ _ H). split; congruence.
Qed.

Lemma commit_passive ph mon d d' : AlCrash.calm ph (act_log d) -> commit_done mon d = Some d' -> passive d d'.
Proof.
  intros [Hi Hid _]. unfold commit_done. destruct (lc_committed _ _) as [al|] eqn:E; [|done]. intros [= <-]. split; [done|]. intros x.
  by apply (commit_uses mon).
Qed.

Lemma initialize_passive ph mon d err d' : AlCrash.calm ph (act_log d) -> bsr_al_initialize crc32c mon [] d = Some (err, d') -> passive d d'.
Proof.
  intros C. unfold bsr_al_initialize. cbn [List.hd tail]. destruct (__al_write_transaction _ _ _ _) as [[e d1]|] eqn:E; [|done]. cbn [mbind option_bind].
  destruct (write_same _ _ _ _ _ E) as [A1 P1]. destruct (commit_done mon d1) as [d2|] eqn:E2; [|done]. cbn [mbind option_bind]. intros H.
  eapply passive_trans; [by apply same_passive|]. eapply passive_trans; [apply (commit_passive ph mon d1 d2); [by rewrite A1|done]|].
  eapply same_passive, ring_same, H.
Qed.

Lemma shrink_passive idx d b d' : inv (act_log d) -> idle (act_log d) -> shrink_from idx d = Some (b, d') -> passive d d'.
Proof.
  revert d. induction idx as [|i idx IH]; intros d Hi Hid; cbn [shrink_from]; [by intros [= _ <-]|].
  destruct (_ =? LC_FREE) eqn:Ef; [by apply IH|]. destruct (negb _) eqn:Er; [by intros [= _ <-]|]. apply negb_false_iff, Z.eqb_eq in Er.
  unfold elem in Ef, Er. destruct (elements (act_log d) !! i) as [e|] eqn:He; [|done]. cbn in Er.
  destruct (lc_del_cases (act_log d) i e Hi Hid He Er) as (al & -> & J1 & J2 & El & _). cbn [mbind option_bind]. intros H.
  eapply passive_trans; [|by apply (IH (set_al d al))]. split; [done|]. intros x Hx. destruct (uses_insert _ al i e _ x He El Hx) as [|[Hr _]]; [done|by cbn in Hr].
Qed.

Lemma resize_passive alloc n d : passive d (bsr_check_al_size alloc n d).2.
Proof.
  unfold bsr_check_al_size. destruct (_ =? n); [done|]. destruct (lc_create _ _ _) as [al|] eqn:E; [|done]. destruct (_ =? 0); [|done].
  split; [done|]. intros x (i & e & He & _ & Hr). exfalso.
  unfold lc_create in E. destruct (_ <? _); [done|]. destruct alloc; [|done]. injection E as <-. apply lookup_replicate in He as [-> _]. by cbn in Hr.
Qed.

Lemma step_dev ph d ph' d' : AlRun.good crc32c ph d -> AlRun.al_step crc32c ph d ph' d' -> dev_ok d -> dev_ok d'.
Proof.
  intros G H K. pose proof (AlRun.good_calm _ _ _ G) as C. destruct H as [ph d d' mon sector sz b [B1 B2] H|ph d d' mon fake sector sz err [B1 B2] H
    |ph d mon conn got todo need r n [B1 B2] H|ph d d' sector sz b H|d d' H|ph d d' H|d d' H|d d' err Hj H|d d' mon H|d|d d' mon err Hj H|d d' idx b H|d alloc n].
  - unfold bsr_al_begin_io_fastpath in H. cbv zeta in H. destruct (negb _); [by injection H as _ <-|].
    unfold _al_get_nonblock in H. destruct (__al_get _ _ _ _) as [[r d1]|] eqn:E; [|done]. injection H as _ <-.
    apply (al_get_dev ph mon true (u32 (al_first sector)) d r d1 C); [apply u32_label; by inversion B1|by apply (room_overflow 0)|done|done].
  - by eapply nonblock_dev.
  - by eapply for_peer_dev.
  - eapply passive_ok; [|done]. by eapply put_actlog_passive.
  - unfold bsr_al_try_lock_for_transaction in H. cbn in H. by injection H as _ <-.
  - unfold bsr_al_try_lock_for_transaction in H. cbn in H. by injection H as _ <-.
  - unfold bsr_al_try_lock in H. unfold lc_try_lock in H. destruct (flags (act_log d)) as [[] [] [] []] eqn:Ef; cbn in H; try done. by injection H as <-.
  - unfold commit_write in H. destruct (al_updates d); [|by injection H as _ <-]. eapply passive_ok; [|done]. eapply same_passive, write_same, H.
  - eapply passive_ok; [|done]. by eapply commit_passive.
  - done.
  - eapply passive_ok; [|done]. by eapply initialize_passive.
  - eapply passive_ok; [|done]. destruct C. by eapply shrink_passive.
  - eapply (passive_ok d); [|done]. apply resize_passive.
Qed.

(** ** Runs *)

Definition change_peer (d : al_device) (k : nat) (r : rs_peer) : al_device := set_rs_peers d (<[k := r]> (rs_peers d)).

(** Sectors of a device of at most 8 PiB. *)
Definition is_sector (s : Z) : Prop := 0 <= s < 2 ^ 44.

(** The steps of the activity log, and of the resync with one peer: [bsr_try_rs_begin_io]; [bsr_rs_complete_io] by one who had the extent
    locked, also late, but not for an extent the resync waits for; [bsr_rs_cancel_all], also at the start of a resync; [bsr_rs_del_all] at
    its end; and marking blocks.  Reference counts do not overflow. *)
Inductive rs_step : AlCrash.phase -> al_device -> AlCrash.phase -> al_device -> Prop :=
| rs_al ph d ph' d' : AlRun.al_step crc32c ph d ph' d' -> rs_step ph d ph' d'
| rs_try ph d k r mon bm idx throttle slow sector err ok r' : rs_peers d !! k = Some r -> wf bm -> 0 <= idx < bm_max_peers bm -> ref_room r -> is_sector sector ->
    bsr_try_rs_begin_io mon bm idx (act_log d) throttle slow sector r = Some (err, ok, r') -> rs_step ph d ph (change_peer d k r')
| rs_complete ph d k r sector ok r' : rs_peers d !! k = Some r -> is_sector sector -> resync_wenr r <> BM_SECT_TO_EXT sector ->
    bsr_rs_complete_io sector r = Some (ok, r') -> rs_step ph d ph (change_peer d k r')
| rs_cancel ph d k r : rs_peers d !! k = Some r -> rs_step ph d ph (change_peer d k (bsr_rs_cancel_all true r))
| rs_delete ph d k r err ok r' : rs_peers d !! k = Some r -> bsr_rs_del_all true r = Some (err, ok, r') -> rs_step ph d ph (change_peer d k r')
| rs_mark ph d k p env bm s e mode n bm' p' log : rs_peers d !! k = Some (sp_rs p) -> wf bm -> 0 <= sp_index p < bm_max_peers bm ->
    0 <= s < 2 ^ 62 -> -1 <= e < 2 ^ 47 - 2 ^ 15 -> update_sync_bits env bm p s e mode = Some (n, bm', p', log) -> rs_step ph d ph (change_peer d k (sp_rs p')).

(** After [attach]: all extents are new. *)
Definition peer_attached (r : rs_peer) : Prop := exists r0, resync_wenr r0 = LC_FREE /\ bsr_attach_peer_device true true r0 = (0, r).

Inductive rs_reach : AlCrash.phase -> al_device -> Prop :=
| rs_start d : AlRun.attached crc32c d -> Forall peer_attached (rs_peers d) -> rs_reach AlCrash.Idle d
| rs_next ph d ph' d' : rs_reach ph d -> rs_step ph d ph' d' -> rs_reach ph' d'.

(** *** The invariant *)

Lemma attached_ok al r : peer_attached r -> rs_inv r /\ apart al r.
Proof.
  intros (r0 & Hw & E). destruct (attach_ok r0 r E) as (K & _ & W & U & Hf & Hz).
  assert (forall i b, bme_test r i b = false) as Ht by (intros i b; unfold bme_test; rewrite Hz; apply Z.bits_0). split.
  - split; [done|done| |congruence]. intros i e He. rewrite !Ht, (Hf i e He). split; cbn; intuition (lia || discriminate).
  - intros _ x _ (i & e & _ & Hk & _). by rewrite Ht in Hk.
Qed.

Lemma sector_extent s : is_sector s -> 0 <= BM_SECT_TO_EXT s < 2 ^ 26.
Proof. intros H. unfold BM_SECT_TO_EXT. rewrite Z.shiftr_div_pow2 by done. split; [apply Z.div_pos; [apply H|done]|]. apply Z.div_lt_upper_bound; [done|]. apply H. Qed.

Lemma sector_small s : is_sector s -> 0 <= BM_SECT_TO_EXT s < LC_FREE.
Proof. intros H%sector_extent. unfold LC_FREE, U32_MAX. lia. Qed.

Lemma in_use_spec al x y : inv al -> 0 <= x < 2 ^ 26 -> y / AL_EXT_PER_BM_SECT = x -> al_in_use al x = false -> ~ uses al y.
Proof.
  unfold AL_EXT_PER_BM_SECT. intros Hi Hx Hy Hu Hus. pose proof (Z.div_mod y 32 ltac:(done)). pose proof (Z.mod_pos_bound y 32 ltac:(done)).
  apply not_true_iff_false in Hu. apply Hu. apply existsb_exists. exists (Z.to_nat (y mod 32)). split; [apply in_seq; lia|].
  unfold AL_EXT_PER_BM_SECT. rewrite Z2Nat.id by lia. replace (x * 32 + y mod 32) with y by lia. rewrite u32_id by lia.
  by apply is_used_spec; [|unfold LC_FREE, U32_MAX; lia|].
Qed.

Lemma try_apart mon bm idx al throttle slow sector r err ok r' : inv al -> wf bm -> 0 <= idx < bm_max_peers bm -> ref_room r -> is_sector sector ->
  bsr_try_rs_begin_io mon bm idx al throttle slow sector r = Some (err, ok, r') -> rs_inv r -> apart al r -> rs_inv r' /\ apart al r'.
Proof.
  intros Hi Hwf Hidx R Hs E H A. destruct (try_ok mon bm idx al throttle slow sector r Hwf Hidx H R (sector_small _ Hs)) as (e & r1 & E1 & H1 & V & M & _).
  rewrite E in E1. injection E1 as _ _ <-. split; [done|]. intros Hv x Hu Hl. rewrite V in Hv. destruct (M _ Hl) as [Hl1|[Hx Hn]]; [by apply (A Hv x Hu)|].
  by apply (in_use_spec al _ x Hi (sector_extent _ Hs) Hx (Hn Hv)).
Qed.

Lemma complete_unlocks sector r ok r' : is_sector sector -> resync_wenr r <> BM_SECT_TO_EXT sector -> rs_inv r ->
  bsr_rs_complete_io sector r = Some (ok, r') -> only_unlocks r r'.
Proof.
  intros Hs Hw H E. pose proof (sector_small _ Hs) as Hx. pose proof E as E0. unfold bsr_rs_complete_io in E0. rewrite u32_id in E0 by (pose proof (sector_extent _ Hs); lia).
  pose proof (find_calm _ (BM_SECT_TO_EXT sector) (rk_calm _ (ri_ok _ H)) ltac:(lia)) as Hf.
  destruct (lc_find _ _) as [i|] eqn:Ef; [|injection E0 as _ <-; by apply only_unlocks_refl]. destruct Hf as (e & He & Hn & _).
  unfold elem in E0. rewrite He in E0. cbn in E0. destruct (Z.eqb_spec (refcnt e) 0) as [|Hr]; [injection E0 as _ <-; by apply only_unlocks_refl|].
  pose proof (elem_refcnt _ i e (cm_inv _ (rk_calm _ (ri_ok _ H))) He) as Hb. destruct (ri_elem _ H i e He) as [O1 _ O3].
  assert (LK r i = true) as Hk. { destruct (LK r i); [done|]. destruct (O3 (proj2 O1 ltac:(lia)) eq_refl) as [? _]. congruence. }
  destruct (complete_ok sector r i H) as (r1 & E1 & U); [by rewrite u32_id by (pose proof (sector_extent _ Hs); lia)|done|rewrite u32_id by (pose proof (sector_extent _ Hs); lia); lia|].
  rewrite E in E1. injection E1 as _ <-. done.
Qed.

Lemma rs_step_ok ph d ph' d' : AlRun.good crc32c ph d -> dev_ok d -> rs_step ph d ph' d' -> AlRun.good crc32c ph' d' /\ dev_ok d'.
Proof.
  intros G K H. pose proof (AlRun.good_calm _ _ _ G) as C.
  assert (forall k r, AlRun.good crc32c ph (change_peer d k r)) as Gp by (intros k r; eapply AlRun.good_quiet; [exact G|by apply AlCrash.quiet_peers]).
  destruct H as [ph d ph' d' H|ph d k r mon bm idx th sl sector err ok r' Hk Hwf Hidx R Hs H|ph d k r sector ok r' Hk Hs Hw H|ph d k r Hk|ph d k r err ok r' Hk H
    |ph d k p env bm s e mode n bm' p' log Hk Hwf Hidx Hs He H]; split; try apply Gp.
  - by eapply AlRun.step_good.
  - by eapply step_dev.
  - apply (one_peer _ _ k r); [done|done|]. eapply try_apart; try done. apply C.
  - apply (one_peer _ _ k r); [done|done|]. intros Hr. apply only_unlocks_apart. by eapply complete_unlocks.
  - apply (one_peer _ _ k r); [done|done|]. intros Hr. apply only_unlocks_apart. destruct (cancel_ok r Hr) as (H1 & H2 & H3). split; [done|]. split; [done|].
    intros x Hx. by destruct (H3 x).
  - apply (one_peer _ _ k r); [done|done|]. intros Hr. apply only_unlocks_apart. destruct (del_all_ok r Hr) as (e & r1 & E & U). rewrite H in E. by injection E as _ _ <-.
  - apply (one_peer _ _ k (sp_rs p)); [done|done|]. intros Hr. apply only_unlocks_apart.
    destruct (update_sync_bits_ok env mode bm p s e Hwf Hidx (ri_ok _ Hr) Hs He) as (bm1 & p1 & log1 & E & _ & F & _). rewrite H in E. injection E as _ _ <- _.
    destruct F as (K' & U & _). by apply updates_unlock.
Qed.

Lemma rs_reach_ok ph d : rs_reach ph d -> AlRun.good crc32c ph d /\ dev_ok d.
Proof.
  induction 1 as [d A P|ph d ph' d' _ [G K] H]; [|by eapply rs_step_ok]. split; [by apply AlRun.attached_good|].
  eapply Forall_impl; [exact P|]. intros r. apply attached_ok.
Qed.

Lemma reach_peer ph d k r : rs_reach ph d -> rs_peers d !! k = Some r -> rs_inv r /\ apart (act_log d) r.
Proof. intros [_ K]%rs_reach_ok Hk. unfold dev_ok, peers_ok in K. rewrite Forall_lookup in K. by apply (K k). Qed.

(** C15. Whatever requests, the transactions of the activity log and the resyncs with
    several peers do (in any interleaving of their critical sections: writes taking and
    putting extents of the activity log; resyncs trying, completing, cancelling and
    deleting theirs; blocks being marked in sync or out of sync), as long as a peer up
    to protocol 112 has the extent of a sector locked for its resync, no write is active
    in the activity log extent of that sector. *)
Theorem resync_excludes_writes ph d k r i sector : rs_reach ph d -> rs_peers d !! k = Some r -> rs_version r <= 112 -> is_sector sector ->
  lc_find (resync_lru r) (BM_SECT_TO_EXT sector) = Some i -> bme_test r i BME_LOCKED = true -> lc_is_used (act_log d) (al_first sector) = false.
Proof.
  intros Hd Hk Hv Hs Hf Hl. destruct (reach_peer ph d k r Hd Hk) as [H A]. pose proof (proj1 (rs_reach_ok ph d Hd)) as G. apply not_true_iff_false. intros Hu.
  assert (0 <= al_first sector < 2 ^ 31) as Ha.
  { unfold al_first. rewrite Z.shiftr_div_pow2 by done. split; [apply Z.div_pos; [apply Hs|done]|]. apply Z.div_lt_upper_bound; [done|]. apply Hs. }
  apply is_used_spec in Hu; [|apply (AlRun.good_calm _ _ _ G)|unfold LC_FREE, U32_MAX; lia]. apply (A Hv _ Hu).
  replace (al_first sector / AL_EXT_PER_BM_SECT) with (BM_SECT_TO_EXT sector).
  2:{ unfold al_first, BM_SECT_TO_EXT, AL_EXT_PER_BM_SECT. rewrite !Z.shiftr_div_pow2 by done. by rewrite Z.div_div. }
  pose proof (find_calm _ (BM_SECT_TO_EXT sector) (rk_calm _ (ri_ok _ H)) ltac:(pose proof (sector_small _ Hs); lia)) as Hs'. rewrite Hf in Hs'.
  destruct Hs' as (e & He & Hn & _). by exists i, e.
Qed.

(** C16. In all these runs the calls of a resync return: bsr_try_rs_begin_io reaches no
    BUG and no failed assertion and answers 0, with the extent locked, or -EAGAIN;
    bsr_rs_complete_io of a locked extent finds a reference to put; bsr_rs_del_all
    reaches no failed assertion, in particular it finds the extent it waits for half
    locked and the cache unused at its end. *)
Theorem resync_extent_calls ph d k r sector : rs_reach ph d -> rs_peers d !! k = Some r -> is_sector sector ->
  let enr := BM_SECT_TO_EXT sector in
  let locked r := exists i, lc_find (resync_lru r) enr = Some i /\ bme_test r i BME_LOCKED = true in
  (forall mon bm idx throttle slow, wf bm -> 0 <= idx < bm_max_peers bm -> ref_room r ->
     exists err r', bsr_try_rs_begin_io mon bm idx (act_log d) throttle slow sector r = Some (err, true, r') /\ (err = 0 /\ locked r' \/ err = - EAGAIN)) /\
  (locked r -> exists r', bsr_rs_complete_io sector r = Some (true, r')) /\
  (exists err r', bsr_rs_del_all true r = Some (err, true, r')).
Proof.
  intros Hd Hk Hs enr locked. destruct (reach_peer ph d k r Hd Hk) as [H _]. pose proof (sector_extent _ Hs) as Hx. split; [|split].
  - intros mon bm idx throttle slow Hwf Hidx R.
    destruct (try_ok mon bm idx (act_log d) throttle slow sector r Hwf Hidx H R (sector_small _ Hs)) as (err & r' & E & H' & _ & _ & A).
    exists err, r'. split; [done|]. destruct A as [[A1 A2]|A]; [|by right]. left. split; [done|]. by destruct (locked_found r' _ H' A2).
  - intros (i & Hf & Hl). destruct (complete_ok sector r i H) as (r' & E & _); [by rewrite u32_id by lia|done|rewrite u32_id by lia; unfold LC_FREE, U32_MAX; lia|].
    by exists r'.
  - destruct (del_all_ok r H) as (err & r' & E & _). by exists err, r'.
Qed.

End run.

(** ** A run to look at

    A write is active in the first extent; the resync gets the second one. *)

Definition demo_r0 : rs_peer := (bsr_attach_peer_device true true (mk_rs_peer 112 (fresh 1 1 stats0) [] LC_FREE 0)).2.
Definition s0 : al_device := set_rs_peers AlRun.w0 [demo_r0].
Definition s1 : al_device := default s0 (snd <$> bsr_al_begin_io_nonblock false 0 0 4096 s0).
Definition demo_r1 : rs_peer :=
  match bsr_try_rs_begin_io false BitmapApi.demo 1 (act_log s1) false false 262144 demo_r0 with Some (_, _, r) => r | None => demo_r0 end.
Definition s2 : al_device := change_peer s1 0 demo_r1.

Lemma s1_reach : rs_reach AlRun.demo_crc AlCrash.Idle s1.
Proof.
  apply (rs_next _ AlCrash.Idle s0); [apply rs_start|].
  - pose proof AlRun.demo_attached as []. by split.
  - repeat constructor. by exists (mk_rs_peer 112 (fresh 1 1 stats0) [] LC_FREE 0).
  - apply rs_al, (AlRun.st_nonblock _ AlCrash.Idle s0 s1 false 0 0 4096 0); [apply AlRun.demo_begins|by vm_compute].
Qed.

Lemma demo_room : ref_room demo_r0.
Proof. intros i e [-> _]%lookup_replicate. done. Qed.

Lemma s2_reach : rs_reach AlRun.demo_crc AlCrash.Idle s2.
Proof.
  apply (rs_next _ AlCrash.Idle s1); [apply s1_reach|].
  apply (rs_try _ AlCrash.Idle s1 0 demo_r0 false BitmapApi.demo 1 false false 262144 0 true demo_r1);
    [reflexivity|exact BitmapApi.demo_wf|by split|exact demo_room|by split|vm_compute; reflexivity].
Qed.

Lemma resync_excludes_writes_witness : lc_is_used (act_log s2) (al_first 262144) = false /\ lc_is_used (act_log s2) (al_first 0) = true.
Proof.
  split; [|vm_compute; reflexivity].
  apply (resync_excludes_writes AlRun.demo_crc AlCrash.Idle s2 0 demo_r1 60); [exact s2_reach|reflexivity|vm_compute; discriminate|by split|vm_compute; reflexivity..].
Defined.

Lemma resync_extent_calls_witness : exists err r', bsr_try_rs_begin_io false BitmapApi.demo 1 (act_log s1) false false 0 demo_r0 = Some (err, true, r').
Proof.
  destruct (resync_extent_calls AlRun.demo_crc AlCrash.Idle s1 0 demo_r0 0 s1_reach) as (T & _); [reflexivity|by split|].
  destruct (T false BitmapApi.demo 1 false false BitmapApi.demo_wf) as (err & r' & E & _); [by split|exact demo_room|]. exists err, r'. exact E.
Defined.

End RsRun.
