(* ===== verification/Epoch.v ===== *)
(** * Epochs of the receiving node (src/bsr/bsr_receiver.c, src/bsr/bsr_sender.c)

    The sender closes a group of writes with P_BARRIER; the receiver counts
    the writes of each group in a [bsr_epoch] and answers with P_BARRIER_ACK
    when they are on disk.  The epochs are in a ring; here the ring is a list,
    the oldest epoch first, so [current_epoch] is the last one. *)

From S2P Require Import Prelude.

Module Epoch.

(** ** Data *)

Inductive write_ordering_e := WO_NONE | WO_DRAIN_IO | WO_BDEV_FLUSH | WO_BIO_BARRIER.
Inductive finish_epoch := FE_STILL_LIVE | FE_DESTROYED | FE_RECYCLED.
Inductive epoch_event := EV_PUT | EV_GOT_BARRIER_NR | EV_BARRIER_DONE | EV_BECAME_LAST.

Global Instance write_ordering_eq_dec : EqDecision write_ordering_e.
Proof. solve_decision. Defined.
Global Instance finish_epoch_eq_dec : EqDecision finish_epoch.
Proof. solve_decision. Defined.

Definition DE_BARRIER_IN_NEXT_EPOCH_ISSUED : Z := 0.
Definition DE_BARRIER_IN_NEXT_EPOCH_DONE : Z := 1.
Definition DE_CONTAINS_A_BARRIER : Z := 2.
Definition DE_HAVE_BARRIER_NUMBER : Z := 3.
Definition DE_IS_FINISHING : Z := 4.

(** [ep_addr] is the address of the epoch; addresses are not used again. *)
Record bsr_epoch := mk_epoch { ep_addr : nat; barrier_nr : Z; epoch_size : Z; active : Z; ep_flags : Z }.

Definition set_barrier_nr (v : Z) (e : bsr_epoch) : bsr_epoch := mk_epoch (ep_addr e) v (epoch_size e) (active e) (ep_flags e).
Definition set_size (v : Z) (e : bsr_epoch) : bsr_epoch := mk_epoch (ep_addr e) (barrier_nr e) v (active e) (ep_flags e).
Definition set_active (v : Z) (e : bsr_epoch) : bsr_epoch := mk_epoch (ep_addr e) (barrier_nr e) (epoch_size e) v (ep_flags e).
Definition set_eflags (v : Z) (e : bsr_epoch) : bsr_epoch := mk_epoch (ep_addr e) (barrier_nr e) (epoch_size e) (active e) v.
Definition etest (e : bsr_epoch) (bit : Z) : bool := Z.testbit (ep_flags e) bit.
Definition eset (bit : Z) (e : bsr_epoch) : bsr_epoch := set_eflags (Z.setbit (ep_flags e) bit) e.
Definition eclear (bit : Z) (e : bsr_epoch) : bsr_epoch := set_eflags (Z.clearbit (ep_flags e) bit) e.

(** The epochs of a connection.  [ec_fresh] is the next address of an allocation, [epochs] the counter of the code. *)
Record epoch_conn := mk_ec { ec_list : list bsr_epoch; ec_fresh : nat; epochs : Z; write_ordering : write_ordering_e }.

Definition set_list (l : list bsr_epoch) (c : epoch_conn) : epoch_conn := mk_ec l (ec_fresh c) (epochs c) (write_ordering c).

(** After [bsr_create_connection]. *)
Definition new_conn (wo : write_ordering_e) : epoch_conn := mk_ec [mk_epoch 0 0 0 0 0] 1 1 wo.

(** ** The ring *)

Definition is_at (a : nat) (e : bsr_epoch) : bool := Nat.eqb (ep_addr e) a.
Definition get_epoch (a : nat) (l : list bsr_epoch) : option bsr_epoch := List.find (is_at a) l.
Definition upd_epoch (a : nat) (f : bsr_epoch -> bsr_epoch) (l : list bsr_epoch) : list bsr_epoch := map (fun e => if is_at a e then f e else e) l.
Definition current_epoch (c : epoch_conn) : option bsr_epoch := last (ec_list c).
Definition is_current (a : nat) (l : list bsr_epoch) : bool := match last l with Some e => is_at a e | None => false end.

(** [epoch->list.prev == &connection->current_epoch->list] *)
Definition is_oldest (a : nat) (l : list bsr_epoch) : bool := match l with e :: _ => is_at a e | [] => false end.

(** [epoch->list.next] *)
Fixpoint next_after (a : nat) (l : list bsr_epoch) (first : option bsr_epoch) : option bsr_epoch :=
  match l with
  | [] => None
  | e :: l => if is_at a e then match l with n :: _ => Some n | [] => first end else next_after a l first
  end.

(** [epoch->list.prev] *)
Fixpoint prev_before (a : nat) (l : list bsr_epoch) (before : option bsr_epoch) : option bsr_epoch :=
  match l with
  | [] => None
  | e :: l => if is_at a e then before else prev_before a l (Some e)
  end.

Definition previous_epoch (c : epoch_conn) (a : nat) : option bsr_epoch :=
  prev ← prev_before a (ec_list c) (last (ec_list c));
  if is_at a prev || is_current (ep_addr prev) (ec_list c) then None else Some prev.

(** ** Finishing an epoch *)

Definition event_effect (wo : write_ordering_e) (current : bool) (ev : epoch_event) (e : bsr_epoch) : bsr_epoch :=
  match ev with
  | EV_PUT => set_active (active e - 1) e
  | EV_GOT_BARRIER_NR =>
    let e := eset DE_HAVE_BARRIER_NUMBER e in
    if etest e DE_CONTAINS_A_BARRIER && (epoch_size e =? 1) && bool_decide (wo <> WO_BIO_BARRIER) && current
    then eclear DE_CONTAINS_A_BARRIER e else e
  | EV_BARRIER_DONE => eset DE_BARRIER_IN_NEXT_EPOCH_DONE e
  | EV_BECAME_LAST => e
  end.

Inductive verdict := V_none | V_flush | V_finish.

(** [cleanup] is [EV_CLEANUP]. *)
Definition epoch_verdict (wo : write_ordering_e) (oldest cleanup : bool) (e : bsr_epoch) : verdict :=
  if negb (epoch_size e =? 0) && (active e =? 0) && (etest e DE_HAVE_BARRIER_NUMBER || cleanup) && oldest && negb (etest e DE_IS_FINISHING) then
    if etest e DE_BARRIER_IN_NEXT_EPOCH_DONE || bool_decide (wo = WO_NONE) || ((epoch_size e =? 1) && etest e DE_CONTAINS_A_BARRIER) || cleanup
    then V_finish
    else if negb (etest e DE_BARRIER_IN_NEXT_EPOCH_ISSUED) && bool_decide (wo = WO_BIO_BARRIER) then V_flush
    else V_none
  else V_none.

(** The epoch is freed, or, if it is the current one, recycled; the next one to look at, and the result so far. *)
Definition epoch_retire (c : epoch_conn) (a : nat) (rv : finish_epoch) : option (option nat * finish_epoch * epoch_conn) :=
  if is_current a (ec_list c) then
    Some (None, if decide (rv = FE_STILL_LIVE) then FE_RECYCLED else rv, set_list (upd_epoch a (fun e => set_size 0 (set_eflags 0 e)) (ec_list c)) c)
  else
    n ← next_after a (ec_list c) (List.hd_error (ec_list c));
    Some (Some (ep_addr n), if decide (rv = FE_STILL_LIVE) then FE_DESTROYED else rv,
          mk_ec (List.filter (fun e => negb (is_at a e)) (ec_list c)) (ec_fresh c) (u32 (epochs c - 1)) (write_ordering c)).

(** [epoch_lock] is held from an event to the end of [bsr_may_finish_epoch], or until it is dropped to send the ack for an epoch. *)
Inductive section_end := SE_ack (a : nat) (size : Z) (rv : finish_epoch) | SE_done (rv : finish_epoch) (flush : option nat).

(** [None]: the epoch has been freed, or the fuel is exhausted. *)
Fixpoint epoch_section (fuel : nat) (c : epoch_conn) (a : nat) (ev : epoch_event) (cleanup : bool) (rv : finish_epoch)
    : option (section_end * epoch_conn) :=
  match fuel with
  | O => None
  | S fuel =>
    e ← get_epoch a (ec_list c);
    let e := event_effect (write_ordering c) (is_current a (ec_list c)) ev e in
    let put f := set_list (upd_epoch a (fun _ => f e) (ec_list c)) c in
    match epoch_verdict (write_ordering c) (is_oldest a (ec_list c)) cleanup e with
    | V_none => Some (SE_done rv None, put (fun e => e))
    | V_flush => Some (SE_done rv (Some a), put (fun e => set_active (active e + 1) e))
    | V_finish =>
      let c := put (eset DE_IS_FINISHING) in
      if cleanup then
        '(next, rv, c) ← epoch_retire c a rv;
        match next with
        | Some b => epoch_section fuel c b EV_BECAME_LAST true rv
        | None => Some (SE_done rv None, c)
        end
      else Some (SE_ack a (epoch_size e) rv, c)
    end
  end.

(** One more than the epochs there are. *)
Definition epoch_fuel (c : epoch_conn) : nat := S (length (ec_list c)).

(** The lock is taken again after the ack. *)
Definition epoch_resume (c : epoch_conn) (a : nat) (rv : finish_epoch) : option (section_end * epoch_conn) :=
  '(next, rv, c) ← epoch_retire c a rv;
  match next with
  | Some b => epoch_section (epoch_fuel c) c b EV_BECAME_LAST false rv
  | None => Some (SE_done rv None, c)
  end.

(** All of it when nobody runs while the lock is dropped; the acks (number and size) that are sent. *)
Fixpoint finish_rest (fuel : nat) (r : section_end * epoch_conn) (acks : list (Z * Z)) : option (finish_epoch * option nat * epoch_conn * list (Z * Z)) :=
  match fuel, r with
  | _, (SE_done rv flush, c) => Some (rv, flush, c, acks)
  | S fuel, (SE_ack a size rv, c) =>
    e ← get_epoch a (ec_list c);
    r ← epoch_resume c a rv;
    finish_rest fuel r (acks ++ [(barrier_nr e, size)])
  | O, _ => None
  end.

Definition finish_events (c : epoch_conn) (a : nat) (ev : epoch_event) (cleanup : bool) : option (finish_epoch * option nat * epoch_conn * list (Z * Z)) :=
  r ← epoch_section (epoch_fuel c) c a ev cleanup FE_STILL_LIVE;
  finish_rest (epoch_fuel c) r [].

(** [alloc]: there is memory for a flush work.  The flush work that was queued. *)
Definition bsr_may_finish_epoch (c : epoch_conn) (a : nat) (ev : epoch_event) (cleanup alloc : bool)
    : option (finish_epoch * option nat * epoch_conn * list (Z * Z)) :=
  '(rv, flush, c, acks) ← finish_events c a ev cleanup;
  match flush with
  | Some b =>
    if alloc then Some (rv, Some b, c, acks)
    else
      let c := set_list (upd_epoch b (eset DE_BARRIER_IN_NEXT_EPOCH_ISSUED) (ec_list c)) c in
      '(_, _, c, acks1) ← finish_events c b EV_BARRIER_DONE false;
      '(_, _, c, acks2) ← finish_events c b EV_PUT false;
      Some (rv, None, c, acks ++ acks1 ++ acks2)
  | None => Some (rv, None, c, acks)
  end.

(** ** Writes *)

(** [receive_Data]: the write joins the current epoch; [EE_IS_BARRIER]. *)
Definition join_epoch (c : epoch_conn) : option (nat * bool * epoch_conn) :=
  e ← current_epoch c;
  let a := ep_addr e in
  let e := set_active (active e + 1) (set_size (epoch_size e + 1) e) in
  let l := upd_epoch a (fun _ => e) (ec_list c) in
  if bool_decide (write_ordering c = WO_BIO_BARRIER) && (epoch_size e =? 1) then
    prev ← prev_before a l (last l);
    if is_at a prev then Some (a, true, set_list (upd_epoch a (eset DE_CONTAINS_A_BARRIER) l) c)
    else if (1 <? epoch_size prev) || negb (etest prev DE_CONTAINS_A_BARRIER) then
      Some (a, true, set_list (upd_epoch a (eset DE_CONTAINS_A_BARRIER) (upd_epoch (ep_addr prev) (eset DE_BARRIER_IN_NEXT_EPOCH_ISSUED) l)) c)
    else Some (a, false, set_list l c)
  else Some (a, false, set_list l c).

(** Without a local disk the write is only counted. *)
Definition count_refused (c : epoch_conn) : option epoch_conn :=
  e ← current_epoch c;
  Some (set_list (upd_epoch (ep_addr e) (fun e => set_size (epoch_size e + 1) e) (ec_list c)) c).

(** ** Barriers *)

(** [receive_Barrier], where it is between two calls. *)
Inductive rcv_at := K_got | K_done | K_nomem.
Inductive rcv_pc := R_idle | R_window (k : rcv_at) (a : nat) (size : Z) (rv : finish_epoch)
  | R_issue | R_drain | R_flushed | R_alloc | R_nomem_drain | R_nomem_flushed | R_nomem_wait.

Definition barrier_number (nr : Z) (c : epoch_conn) : option (nat * epoch_conn) :=
  e ← current_epoch c;
  Some (ep_addr e, set_list (upd_epoch (ep_addr e) (set_barrier_nr nr) (ec_list c)) c).

Definition set_current (f : bsr_epoch -> bsr_epoch) (c : epoch_conn) : epoch_conn :=
  match current_epoch c with Some e => set_list (upd_epoch (ep_addr e) f (ec_list c)) c | None => c end.

(** After a call of [bsr_may_finish_epoch]. *)
Definition receive_Barrier_next (k : rcv_at) (rv : finish_epoch) (wo : write_ordering_e) : rcv_pc :=
  match k with
  | K_got =>
    match wo with
    | WO_BIO_BARRIER | WO_NONE => if decide (rv = FE_RECYCLED) then R_idle else R_alloc
    | WO_BDEV_FLUSH | WO_DRAIN_IO =>
      match rv with
      | FE_STILL_LIVE => R_issue
      | FE_RECYCLED => R_idle
      | FE_DESTROYED => R_alloc
      end
    end
  | K_done => if decide (rv = FE_RECYCLED) then R_idle else R_alloc
  | K_nomem => if decide (rv = FE_RECYCLED) then R_idle else R_nomem_wait
  end.

(** The flush is announced, after [epoch_lock] was dropped. *)
Definition issue_flush (c : epoch_conn) : epoch_conn := set_current (eset DE_BARRIER_IN_NEXT_EPOCH_ISSUED) c.

(** A new epoch, unless the current one has been recycled meanwhile; [junk] is what its memory holds. *)
Definition add_epoch (junk : Z) (c : epoch_conn) : option epoch_conn :=
  e ← current_epoch c;
  if negb (epoch_size e =? 0) then
    Some (mk_ec (ec_list c ++ [mk_epoch (ec_fresh c) junk 0 0 0]) (S (ec_fresh c)) (u32 (epochs c + 1)) (write_ordering c))
  else Some (mk_ec (ec_list c) (S (ec_fresh c)) (epochs c) (write_ordering c)).

(** No memory for a new epoch. *)
Definition no_epoch (c : epoch_conn) : option (rcv_pc * epoch_conn) :=
  e ← current_epoch c;
  Some (if etest e DE_BARRIER_IN_NEXT_EPOCH_ISSUED then R_nomem_wait else R_nomem_drain, issue_flush c).

(** ** Flushes *)

Record disk_conf := mk_dc { disk_barrier : bool; disk_flushes : bool; disk_drain : bool }.

Definition max_allowed_wo (dc : disk_conf) (wo : write_ordering_e) : write_ordering_e :=
  let wo := if bool_decide (wo = WO_BIO_BARRIER) && negb (disk_barrier dc) then WO_BDEV_FLUSH else wo in
  let wo := if bool_decide (wo = WO_BDEV_FLUSH) && negb (disk_flushes dc) then WO_DRAIN_IO else wo in
  if bool_decide (wo = WO_DRAIN_IO) && negb (disk_drain dc) then WO_NONE else wo.

Definition wo_nr (wo : write_ordering_e) : Z := match wo with WO_NONE => 0 | WO_DRAIN_IO => 1 | WO_BDEV_FLUSH => 2 | WO_BIO_BARRIER => 3 end.
Definition min_wo (a b : write_ordering_e) : write_ordering_e := if wo_nr a <? wo_nr b then a else b.

(** The devices of the resource, [None] without a disk; [i] is the position of the first one. *)
Fixpoint bump_devices (i : nat) (devices : list (option disk_conf)) (wo : write_ordering_e) : write_ordering_e :=
  match devices with
  | [] => wo
  | d :: ds =>
    let wo := if Nat.eqb i 1 && bool_decide (wo = WO_BIO_BARRIER) then WO_BDEV_FLUSH else wo in
    bump_devices (S i) ds (match d with Some dc => max_allowed_wo dc wo | None => wo end)
  end.

(** [pwo] is the method so far, [bdev] a disk that does not belong to a device yet. *)
Definition bsr_bump_write_ordering (pwo : write_ordering_e) (devices : list (option disk_conf)) (bdev : option disk_conf) (wo : write_ordering_e) : write_ordering_e :=
  let wo := if bool_decide (wo <> WO_BIO_BARRIER) then min_wo pwo wo else wo in
  let wo := bump_devices 0 devices wo in
  match bdev with Some dc => max_allowed_wo dc wo | None => wo end.

(** [bsr_flush_after_epoch] flushes the disks from [WO_BDEV_FLUSH] on. *)
Definition flushes (wo : write_ordering_e) : bool := match wo with WO_BDEV_FLUSH | WO_BIO_BARRIER => true | _ => false end.

(** The method after a failed flush whose error is looked at (the Linux build),
    with disk-drain configured for all disks (as by default). *)
Definition flush_failed (wo : write_ordering_e) : write_ordering_e :=
  match wo with WO_BDEV_FLUSH | WO_BIO_BARRIER => WO_DRAIN_IO | _ => wo end.

Definition drains (d : option disk_conf) : Prop := match d with Some dc => disk_drain dc = true | None => True end.

Lemma bump_drains i devices wo : wo = WO_DRAIN_IO \/ wo = WO_NONE -> Forall drains devices -> bump_devices i devices wo = wo.
Proof.
  intros Hwo F. revert i. induction F as [|d ds Hd _ IH]; intros i; cbn [bump_devices]; [done|].
  assert ((match d with Some dc => max_allowed_wo dc wo | None => wo end) = wo) as E.
  { destruct d as [dc|]; [|done]. unfold max_allowed_wo. cbn in Hd. rewrite Hd. by destruct Hwo as [-> | ->]. }
  replace (bool_decide (wo = WO_BIO_BARRIER)) with false by (by destruct Hwo as [-> | ->]). rewrite andb_false_r, E. apply IH.
Qed.

Lemma flush_failed_bumps wo devices : Forall drains devices -> bsr_bump_write_ordering wo devices None WO_DRAIN_IO = flush_failed wo.
Proof. intros F. unfold bsr_bump_write_ordering. cbn [bool_decide decide_rel]. destruct wo; cbn; apply bump_drains; auto. Qed.

(** ** The sender *)

(** [connection->send] *)
Record send_state := mk_send { seen_any_write_yet : bool; current_epoch_nr : Z; current_epoch_writes : Z }.

(** Packets: a write, with its transfer log epoch, and a barrier. *)
Inductive packet := P_DATA (w : nat) (epoch : Z) | P_BARRIER (nr : Z).

Definition re_init_if_first_write (epoch : Z) (s : send_state) : send_state :=
  if negb (seen_any_write_yet s) then mk_send true epoch 0 else s.

Definition bsr_send_barrier (s : send_state) : send_state * list packet :=
  (mk_send (seen_any_write_yet s) (current_epoch_nr s) 0, [P_BARRIER (current_epoch_nr s)]).

Definition maybe_send_barrier (epoch : Z) (s : send_state) : send_state * list packet :=
  if negb (seen_any_write_yet s) then (s, [])
  else if negb (current_epoch_nr s =? epoch) then
    let '(s, ps) := if negb (current_epoch_writes s =? 0) then bsr_send_barrier s else (s, []) in
    (mk_send (seen_any_write_yet s) epoch (current_epoch_writes s), ps)
  else (s, []).

(** The part of [process_one_request] for a write that expects a barrier ack. *)
Definition send_write (w : nat) (epoch : Z) (s : send_state) : send_state * list packet :=
  let '(s, ps) := maybe_send_barrier epoch (re_init_if_first_write epoch s) in
  (mk_send (seen_any_write_yet s) (current_epoch_nr s) (u32 (current_epoch_writes s + 1)), ps ++ [P_DATA w epoch]).

End Epoch.
