(* ===== verification/EpochRun.v ===== *)
(** * Runs of the epochs (src/bsr/bsr_receiver.c, src/bsr/bsr_sender.c)

    The sender, the stream of packets, the receiver thread and the ack sender
    thread of one connection, up to the first failure of the connection. *)

From S2P Require Import Prelude Epoch.

Module EpochRun.
Import Epoch.

(** ** States *)

(** A write that was received and has not left its epoch; [pw_done]: its I/O is complete. *)
Record peer_write := mk_pw { pw_id : nat; pw_epoch : nat; pw_done : bool }.

(** [rn_sent] are all packets sent, [rn_recv] those the receiver has taken; [rn_ack] is set while the ack sender sends an ack;
    [rn_refused] are the writes that met no disk, [rn_stable] those whose I/O had ended before a flush that succeeded; [rn_nomem]: an epoch could not be
    allocated; [rn_superseded] are the writes that lost a conflict of two primaries; [rn_ignored]: a flush that did not succeed was taken
    for one that did. *)
Record run := mk_run {
  rn_conn : epoch_conn;
  rn_rcv : rcv_pc;
  rn_ack : option (nat * Z * finish_epoch);
  rn_send : send_state;
  rn_sent : list packet;
  rn_recv : list packet;
  rn_writes : list peer_write;
  rn_acks : list (Z * Z);
  rn_next : nat;
  rn_refused : list nat;
  rn_stable : list nat;
  rn_nomem : bool;
  rn_superseded : list nat;
  rn_ignored : bool }.

Definition with_conn (c : epoch_conn) (r : run) : run :=
  mk_run c (rn_rcv r) (rn_ack r) (rn_send r) (rn_sent r) (rn_recv r) (rn_writes r) (rn_acks r) (rn_next r) (rn_refused r) (rn_stable r) (rn_nomem r) (rn_superseded r) (rn_ignored r).
Definition with_rcv (pc : rcv_pc) (r : run) : run :=
  mk_run (rn_conn r) pc (rn_ack r) (rn_send r) (rn_sent r) (rn_recv r) (rn_writes r) (rn_acks r) (rn_next r) (rn_refused r) (rn_stable r) (rn_nomem r) (rn_superseded r) (rn_ignored r).
Definition with_ack (w : option (nat * Z * finish_epoch)) (r : run) : run :=
  mk_run (rn_conn r) (rn_rcv r) w (rn_send r) (rn_sent r) (rn_recv r) (rn_writes r) (rn_acks r) (rn_next r) (rn_refused r) (rn_stable r) (rn_nomem r) (rn_superseded r) (rn_ignored r).
Definition sends (s : send_state * list packet) (next : nat) (r : run) : run :=
  mk_run (rn_conn r) (rn_rcv r) (rn_ack r) s.1 (rn_sent r ++ s.2) (rn_recv r) (rn_writes r) (rn_acks r) next (rn_refused r) (rn_stable r) (rn_nomem r) (rn_superseded r) (rn_ignored r).
Definition takes (p : packet) (r : run) : run :=
  mk_run (rn_conn r) (rn_rcv r) (rn_ack r) (rn_send r) (rn_sent r) (rn_recv r ++ [p]) (rn_writes r) (rn_acks r) (rn_next r) (rn_refused r) (rn_stable r) (rn_nomem r) (rn_superseded r) (rn_ignored r).
Definition with_writes (ws : list peer_write) (r : run) : run :=
  mk_run (rn_conn r) (rn_rcv r) (rn_ack r) (rn_send r) (rn_sent r) (rn_recv r) ws (rn_acks r) (rn_next r) (rn_refused r) (rn_stable r) (rn_nomem r) (rn_superseded r) (rn_ignored r).
Definition refuses (w : nat) (r : run) : run :=
  mk_run (rn_conn r) (rn_rcv r) (rn_ack r) (rn_send r) (rn_sent r) (rn_recv r) (rn_writes r) (rn_acks r) (rn_next r) (w :: rn_refused r) (rn_stable r) (rn_nomem r) (rn_superseded r) (rn_ignored r).
Definition acks (a : Z * Z) (r : run) : run :=
  mk_run (rn_conn r) (rn_rcv r) (rn_ack r) (rn_send r) (rn_sent r) (rn_recv r) (rn_writes r) (rn_acks r ++ [a]) (rn_next r) (rn_refused r) (rn_stable r) (rn_nomem r) (rn_superseded r) (rn_ignored r).
Definition with_stable (ws : list nat) (r : run) : run :=
  mk_run (rn_conn r) (rn_rcv r) (rn_ack r) (rn_send r) (rn_sent r) (rn_recv r) (rn_writes r) (rn_acks r) (rn_next r) (rn_refused r) ws (rn_nomem r) (rn_superseded r) (rn_ignored r).
Definition no_memory (r : run) : run :=
  mk_run (rn_conn r) (rn_rcv r) (rn_ack r) (rn_send r) (rn_sent r) (rn_recv r) (rn_writes r) (rn_acks r) (rn_next r) (rn_refused r) (rn_stable r) true (rn_superseded r) (rn_ignored r).

Definition supersedes (w : nat) (r : run) : run :=
  mk_run (rn_conn r) (rn_rcv r) (rn_ack r) (rn_send r) (rn_sent r) (rn_recv r) (rn_writes r) (rn_acks r) (rn_next r) (rn_refused r) (rn_stable r) (rn_nomem r) (w :: rn_superseded r) (rn_ignored r).
Definition ignores (r : run) : run :=
  mk_run (rn_conn r) (rn_rcv r) (rn_ack r) (rn_send r) (rn_sent r) (rn_recv r) (rn_writes r) (rn_acks r) (rn_next r) (rn_refused r) (rn_stable r) (rn_nomem r) (rn_superseded r) true.

Definition start (wo : write_ordering_e) : run :=
  mk_run (new_conn wo) R_idle None (mk_send false 0 0) [] [] [] [] 0 [] [] false [] false.

(** ** Groups of writes *)

(** The writes of each barrier, and those after the last one. *)
Definition group_step (g : list (Z * list nat) * list nat) (p : packet) : list (Z * list nat) * list nat :=
  match p with P_DATA w _ => (g.1, g.2 ++ [w]) | P_BARRIER n => (g.1 ++ [(n, g.2)], []) end.
Definition groups (ps : list packet) : list (Z * list nat) * list nat := fold_left group_step ps ([], []).

(** The ack for a group. *)
Definition ack_of (g : Z * list nat) : Z * Z := (g.1, Z.of_nat (length g.2)).

Definition data_ids (ps : list packet) : list nat := flat_map (fun p => match p with P_DATA w _ => [w] | P_BARRIER _ => [] end) ps.

(** ** Steps *)

(** What the receiver thread does after a critical section. *)
Definition rcv_after (k : rcv_at) (res : section_end * epoch_conn) (r : run) : run :=
  match res with
  | (SE_ack a size rv, c) => with_rcv (R_window k a size rv) (with_conn c r)
  | (SE_done rv _, c) => with_rcv (receive_Barrier_next k rv (write_ordering c)) (with_conn c r)
  end.

Definition ack_after (res : section_end * epoch_conn) (r : run) : run :=
  match res with
  | (SE_ack a size rv, c) => with_ack (Some (a, size, rv)) (with_conn c r)
  | (SE_done _ _, c) => with_ack None (with_conn c r)
  end.

(** The writes a flush makes stable: all that were received and whose I/O has ended (errors of a write itself are not modelled). *)
Definition in_progress (r : run) (w : nat) : bool := existsb (fun p => Nat.eqb (pw_id p) w && negb (pw_done p)) (rn_writes r).
Definition on_disk (r : run) : list nat :=
  List.filter (fun w => negb (existsb (Nat.eqb w) (rn_refused r)) && negb (in_progress r w)) (data_ids (rn_recv r)).

(** [handle_write_conflicts] gave the write [e_send_discard_write] or [e_send_retry_write] as its callback: it is not submitted, and
    [epoch_put] of [bsr_finish_peer_reqs] is false for it, so that it never leaves its epoch. *)
Definition superseded (r : run) (p : peer_write) : bool := existsb (Nat.eqb (pw_id p)) (rn_superseded r).

(** [active_ee] is empty; a superseded write is not put on it. *)
Definition drained (r : run) : bool := forallb (fun p => pw_done p || superseded r p) (rn_writes r).

(** The end of a flush: it succeeded; it failed and the code sees the error; or it failed and the code goes on as if it had not.  The error is
    looked at in the Linux build only; there it can be missed when the waiting thread is killed. *)
Inductive flush_end := FL_ok | FL_failed | FL_ignored.

(** The flush, if there is one. *)
Definition flushed (f : flush_end) (r : run) : run :=
  let c := rn_conn r in
  if flushes (write_ordering c) then
    match f with
    | FL_ok => with_stable (on_disk r) r
    | FL_failed => with_conn (mk_ec (ec_list c) (ec_fresh c) (epochs c) (flush_failed (write_ordering c))) r
    | FL_ignored => ignores r
    end
  else r.

Definition next_packet (r : run) : option packet := rn_sent r !! length (rn_recv r).

Definition section_of (c : epoch_conn) (a : nat) (ev : epoch_event) : option (section_end * epoch_conn) :=
  epoch_section (epoch_fuel c) c a ev false FE_STILL_LIVE.

(** Steps of the threads.  [es_data]: a write is received and submitted; [es_superseded]: it is received and loses a conflict.
    [es_nomem_wait]: without memory for an epoch, the receiver waits until all writes have left their epochs, so a run stops there
    when a superseded write keeps its epoch (the code would go on with the epoch that has its barrier already). *)
Inductive ep_step : run -> run -> Prop :=
| es_write r epoch : current_epoch_writes (rn_send r) + 1 < 2 ^ 32 ->
    ep_step r (sends (send_write (rn_next r) epoch (rn_send r)) (S (rn_next r)) r)
| es_close r epoch : ep_step r (sends (maybe_send_barrier epoch (rn_send r)) (rn_next r) r)
| es_data r w epoch a b c : rn_rcv r = R_idle -> next_packet r = Some (P_DATA w epoch) -> join_epoch (rn_conn r) = Some (a, b, c) ->
    ep_step r (with_writes (rn_writes r ++ [mk_pw w a false]) (takes (P_DATA w epoch) (with_conn c r)))
| es_superseded r w epoch a b c : rn_rcv r = R_idle -> next_packet r = Some (P_DATA w epoch) -> join_epoch (rn_conn r) = Some (a, b, c) ->
    ep_step r (supersedes w (with_writes (rn_writes r ++ [mk_pw w a false]) (takes (P_DATA w epoch) (with_conn c r))))
| es_refused r w epoch c : rn_rcv r = R_idle -> next_packet r = Some (P_DATA w epoch) -> count_refused (rn_conn r) = Some c ->
    ep_step r (refuses w (takes (P_DATA w epoch) (with_conn c r)))
| es_barrier r nr a c res : rn_rcv r = R_idle -> next_packet r = Some (P_BARRIER nr) -> barrier_number nr (rn_conn r) = Some (a, c) ->
    section_of c a EV_GOT_BARRIER_NR = Some res -> ep_step r (rcv_after K_got res (takes (P_BARRIER nr) r))
| es_rcv_ack r k a size rv e res : rn_rcv r = R_window k a size rv -> get_epoch a (ec_list (rn_conn r)) = Some e ->
    epoch_resume (rn_conn r) a rv = Some res -> ep_step r (rcv_after k res (acks (barrier_nr e, size) r))
| es_issue r : rn_rcv r = R_issue -> ep_step r (with_rcv R_drain (with_conn (issue_flush (rn_conn r)) r))
| es_drained r f : rn_rcv r = R_drain -> drained r = true -> ep_step r (with_rcv R_flushed (flushed f r))
| es_flushed r e res : rn_rcv r = R_flushed -> current_epoch (rn_conn r) = Some e -> section_of (rn_conn r) (ep_addr e) EV_BARRIER_DONE = Some res ->
    ep_step r (rcv_after K_done res r)
| es_alloc r junk c : rn_rcv r = R_alloc -> add_epoch junk (rn_conn r) = Some c -> ep_step r (with_rcv R_idle (with_conn c r))
| es_nomem r pc c : rn_rcv r = R_alloc -> no_epoch (rn_conn r) = Some (pc, c) -> ep_step r (no_memory (with_rcv pc (with_conn c r)))
| es_nomem_drained r f : rn_rcv r = R_nomem_drain -> drained r = true -> ep_step r (with_rcv R_nomem_flushed (flushed f r))
| es_nomem_flushed r e res : rn_rcv r = R_nomem_flushed -> current_epoch (rn_conn r) = Some e ->
    section_of (rn_conn r) (ep_addr e) EV_BARRIER_DONE = Some res -> ep_step r (rcv_after K_nomem res r)
| es_nomem_wait r : rn_rcv r = R_nomem_wait -> rn_writes r = [] -> rn_ack r = None -> ep_step r (with_rcv R_idle r)
| es_complete r i w : rn_writes r !! i = Some w -> superseded r w = false -> ep_step r (with_writes (<[i := mk_pw (pw_id w) (pw_epoch w) true]> (rn_writes r)) r)
| es_put r i w res : rn_ack r = None -> rn_writes r !! i = Some w -> pw_done w = true -> superseded r w = false -> section_of (rn_conn r) (pw_epoch w) EV_PUT = Some res ->
    ep_step r (ack_after res (with_writes (delete i (rn_writes r)) r))
| es_ack_ack r a size rv e res : rn_ack r = Some (a, size, rv) -> get_epoch a (ec_list (rn_conn r)) = Some e ->
    epoch_resume (rn_conn r) a rv = Some res -> ep_step r (ack_after res (acks (barrier_nr e, size) r)).

(** The method of a connection does not order writes by barriers of the disk. *)
Inductive ep_reach : run -> Prop :=
| er_start wo : wo <> WO_BIO_BARRIER -> ep_reach (start wo)
| er_next r r' : ep_reach r -> ep_step r r' -> ep_reach r'.

End EpochRun.
