(* ===== verification/EpochInv.v ===== *)
(** * The invariant of the epochs (src/bsr/bsr_receiver.c)

    Sizes and reference counts of the epochs, which of them may be finished,
    and that none is left over. *)

From S2P Require Import Prelude Epoch EpochRun.

Module EpochInv.
Import Epoch EpochRun.

(** ** Epochs by address *)

Lemma split_epoch a l e : NoDup (map ep_addr l) -> get_epoch a l = Some e ->
  ep_addr e = a /\ exists l1 l2, l = l1 ++ e :: l2 /\ (forall f, upd_epoch a f l = l1 ++ f e :: l2) /\
    is_oldest a l = (match l1 with [] => true | _ => false end) /\ is_current a l = (match l2 with [] => true | _ => false end) /\
    List.filter (fun e => negb (is_at a e)) l = l1 ++ l2.
Proof.
  intros Hn H. apply find_some in H as [Hin Ha]. apply Nat.eqb_eq in Ha. split; [done|]. apply list_elem_of_In in Hin.
  apply list_elem_of_split in Hin as (l1 & l2 & ->). exists l1, l2. rewrite map_app in Hn. cbn in Hn. apply NoDup_app in Hn as (Hn1 & Hd & Hn2).
  apply NoDup_cons in Hn2 as [Hn2 _].
  assert (forall x, x ∈ l1 -> is_at a x = false) as H1.
  { intros x Hx. apply Nat.eqb_neq. intros E. apply (Hd (ep_addr x)); [by apply list_elem_of_fmap_2|rewrite E, Ha; by left]. }
  assert (forall x, x ∈ l2 -> is_at a x = false) as H2.
  { intros x Hx. apply Nat.eqb_neq. intros E. apply Hn2. rewrite Ha, <- E. by apply list_elem_of_fmap_2. }
  assert (forall k, (forall x, x ∈ k -> is_at a x = false) -> (forall f, upd_epoch a f k = k) /\ List.filter (fun e => negb (is_at a e)) k = k) as Hk.
  { clear. induction k as [|x k IH]; intros H; [done|]. destruct (IH (fun y Hy => H y (list_elem_of_further _ _ _ Hy))) as [I1 I2].
    split; [intros f|cbn; rewrite (H x) by (by left); cbn; by rewrite I2].
    change (upd_epoch a f (x :: k)) with ((if is_at a x then f x else x) :: upd_epoch a f k). by rewrite (H x), I1 by (by left). }
  assert (is_at a e = true) as He by (by apply Nat.eqb_eq). split_and!; [done|..].
  - intros f. unfold upd_epoch. rewrite map_app. cbn. rewrite He. f_equal; [apply (Hk l1 H1)|]. f_equal. apply (Hk l2 H2).
  - destruct l1 as [|x l1]; cbn; [done|]. apply H1. by left.
  - unfold is_current. destruct l2 as [|x l2] using rev_ind; [by rewrite last_snoc|]. rewrite app_comm_cons, app_assoc, last_snoc.
    rewrite H2 by (apply elem_of_app; right; by left). by destruct l2.
  - rewrite List.filter_app. cbn. rewrite He. cbn. rewrite (proj2 (Hk l1 H1)), (proj2 (Hk l2 H2)). done.
Qed.

Lemma current_last c e : NoDup (map ep_addr (ec_list c)) -> current_epoch c = Some e ->
  exists l, ec_list c = l ++ [e] /\ get_epoch (ep_addr e) (ec_list c) = Some e /\ (forall f, upd_epoch (ep_addr e) f (ec_list c) = l ++ [f e]).
Proof.
  intros Hn H. unfold current_epoch in H. apply last_Some in H as [l E]. exists l. split; [done|].
  assert (get_epoch (ep_addr e) (ec_list c) = Some e) as G.
  { rewrite E in *. rewrite map_app in Hn. cbn in Hn. apply NoDup_app in Hn as (_ & Hd & _). clear E. induction l as [|x l IH]; cbn.
    - unfold is_at. by rewrite Nat.eqb_refl.
    - destruct (is_at (ep_addr e) x) eqn:Ex.
      + apply Nat.eqb_eq in Ex. exfalso. apply (Hd (ep_addr x)); [by left|rewrite Ex; by left].
      + apply IH. intros y Hy. apply Hd. by right. }
  split; [done|]. intros f. destruct (split_epoch _ _ _ Hn G) as (_ & l1 & l2 & E2 & U & _ & C & _).
  rewrite U. unfold is_current in C. rewrite E in C. rewrite last_snoc in C. unfold is_at in C. rewrite Nat.eqb_refl in C.
  destruct l2; [|done]. rewrite E in E2. apply app_inj_tail in E2 as [-> _]. done.
Qed.

(** ** The invariant *)

Definition cnt (a : nat) (ws : list peer_write) : Z := Z.of_nat (length (List.filter (fun w => Nat.eqb (pw_epoch w) a) ws)).

Abbreviation HAVE e := (etest e DE_HAVE_BARRIER_NUMBER).
Abbreviation DONE e := (etest e DE_BARRIER_IN_NEXT_EPOCH_DONE).
Abbreviation FIN e := (etest e DE_IS_FINISHING).

Lemma test_eset b e b' : 0 <= b -> etest (eset b e) b' = (b =? b') || etest e b'.
Proof.
  intros Hb. unfold etest, eset, set_eflags. cbn [ep_flags]. destruct (Z.lt_ge_cases b' 0); [|by rewrite Z.setbit_eqb].
  rewrite !Z.testbit_neg_r, (proj2 (Z.eqb_neq _ _)) by lia. done.
Qed.

Section epochs.

(** [safe w]: the write may be acked without another flush. *)
Context (safe : nat -> Prop).

(** One epoch and its writes. *)
Record local (ws : list peer_write) (e : bsr_epoch) (g : list nat) : Prop := mk_local {
  lo_size : epoch_size e = Z.of_nat (length g);
  lo_active : active e = cnt (ep_addr e) ws;
  lo_plain : etest e DE_CONTAINS_A_BARRIER = false;
  lo_writes : forall w, w ∈ ws -> pw_epoch w = ep_addr e -> pw_id w ∈ g;
  lo_safe : DONE e = true -> Forall safe g }.

(** All that keeps it is that others are oldest, or writes. *)
Definition ready (wo : write_ordering_e) (e : bsr_epoch) : Prop :=
  HAVE e = true /\ epoch_size e <> 0 /\ (DONE e = true \/ wo = WO_NONE).

(** [win] is the epoch for which an ack is being sent, and its size. *)
Record core0 (c : epoch_conn) (gs : list (list nat)) (ws : list peer_write) (win : option (nat * Z)) : Prop := mk_core0 {
  co_wo : write_ordering c <> WO_BIO_BARRIER;
  co_addr : NoDup (map ep_addr (ec_list c));
  co_fresh : Forall (fun e => (ep_addr e < ec_fresh c)%nat) (ec_list c);
  co_local : Forall2 (local ws) (ec_list c) gs;
  co_known : Forall (fun w => pw_epoch w ∈ map ep_addr (ec_list c)) ws;
  co_old : exists olds cur, ec_list c = olds ++ [cur] /\ Forall (ready (write_ordering c)) olds;
  co_fin : match win with
           | None => Forall (fun e => FIN e = false) (ec_list c)
           | Some (a, s) => exists e l, ec_list c = e :: l /\ ep_addr e = a /\ epoch_size e = s /\ active e = 0 /\ FIN e = true /\
                              ready (write_ordering c) e /\ Forall (fun e => FIN e = false) l
           end }.

(** The oldest epoch is not left unfinished. *)
Definition not_stuck (c : epoch_conn) : Prop :=
  match ec_list c with e :: _ => epoch_verdict (write_ordering c) true false e <> V_finish | [] => False end.

Definition core (c : epoch_conn) (gs : list (list nat)) (ws : list peer_write) (win : option (nat * Z)) : Prop :=
  core0 c gs ws win /\ (win = None -> not_stuck c).

Lemma verdict_spec wo oldest e : wo <> WO_BIO_BARRIER -> etest e DE_CONTAINS_A_BARRIER = false ->
  epoch_verdict wo oldest false e = V_none \/
  epoch_verdict wo oldest false e = V_finish /\ oldest = true /\ active e = 0 /\ FIN e = false /\ ready wo e.
Proof.
  intros Hwo Hc. unfold epoch_verdict, ready. rewrite Hc, !orb_false_r, !andb_false_r, orb_false_r.
  destruct (Z.eqb_spec (epoch_size e) 0) as [|Hs]; [by left|]. destruct (Z.eqb_spec (active e) 0) as [Ha|]; [|by left].
  destruct (HAVE e); [|by left]. destruct oldest; [|by left]. destruct (FIN e); [by left|]. cbn [negb andb].
  destruct (DONE e); [right; split_and!; auto|]. cbn [orb]. destruct (bool_decide (wo = WO_NONE)) eqn:En.
  - apply bool_decide_eq_true in En. right. split_and!; auto.
  - rewrite (bool_decide_eq_false_2 (wo = WO_BIO_BARRIER)) by done. rewrite andb_false_r. by left.
Qed.

Lemma ready_finishes wo e : ready wo e -> active e = 0 -> FIN e = false -> epoch_verdict wo true false e = V_finish.
Proof.
  intros (H1 & H2 & H3) Ha Hf. unfold epoch_verdict. rewrite H1, Ha, Hf, (proj2 (Z.eqb_neq _ _)) by done. cbn [negb andb orb Z.eqb].
  destruct (DONE e); [done|]. destruct H3 as [|H3]; [done|]. by rewrite bool_decide_eq_true_2.
Qed.

(** *** The end of a critical section: [c] is the connection after the event on the epoch at [a]. *)
Lemma section_core c0 c a ev e0 e gs ws win rv : get_epoch a (ec_list c0) = Some e0 -> e = event_effect (write_ordering c0) (is_current a (ec_list c0)) ev e0 ->
  ep_addr e = a -> NoDup (map ep_addr (ec_list c0)) -> c = set_list (upd_epoch a (fun _ => e) (ec_list c0)) c0 -> core0 c gs ws win ->
  (win = None -> is_oldest a (ec_list c) = false -> not_stuck c) ->
  epoch_section (epoch_fuel c0) c0 a ev false rv = Some (SE_done rv None, c) /\ core c gs ws win \/
  win = None /\ exists c', epoch_section (epoch_fuel c0) c0 a ev false rv = Some (SE_ack a (epoch_size e) rv, c') /\
    core c' gs ws (Some (a, epoch_size e)) /\ exists l, ec_list c = e :: l /\ c' = set_list (eset DE_IS_FINISHING e :: l) c.
Proof.
  intros G Ee Ea Hn Ec K Hst. unfold epoch_fuel. cbn [epoch_section]. rewrite G. cbn [mbind option_bind]. rewrite <- Ee.
  destruct (split_epoch a _ _ Hn G) as (Ea0 & l1 & l2 & El & U & O & _ & _). rewrite U in Ec.
  assert (ec_list c = l1 ++ e :: l2) as Elc by (by rewrite Ec). assert (write_ordering c = write_ordering c0) as Ewo by (by rewrite Ec).
  assert (etest e DE_CONTAINS_A_BARRIER = false) as Hpl.
  { destruct (Forall2_lookup_l _ _ _ (length l1) e (co_local _ _ _ _ K)) as (g & _ & [_ _ ? _ _]); [|done]. rewrite Elc. by rewrite list_lookup_middle. }
  rewrite O, !U. destruct (verdict_spec (write_ordering c0) (match l1 with [] => true | _ => false end) e ltac:(rewrite <- Ewo; apply K) Hpl)
    as [V|(V & Hl1 & Ha & Hf & Hr)]; rewrite V.
  - left. split; [by rewrite Ec|]. split; [done|]. intros ->. destruct l1 as [|x l1].
    + unfold not_stuck. rewrite Elc. cbn. rewrite Ewo, V. done.
    + apply Hst; [done|]. rewrite Elc. cbn. rewrite El in Hn. cbn in Hn. apply NoDup_cons in Hn as [Hn _]. apply Nat.eqb_neq. intros E. apply Hn.
      rewrite E, <- Ea0, map_app. apply elem_of_app. right. left.
  - right. destruct l1; [|done]. cbn [app] in *. pose proof K as [K1 K2 K3 K4 K5 K6 K7].
    assert (win = None) as ->.
    { destruct win as [[b s]|]; [|done]. destruct K7 as (x & l & Ex & _ & _ & _ & Hx & _). rewrite Elc in Ex. injection Ex as <- <-. congruence. }
    split; [done|]. exists (set_list (eset DE_IS_FINISHING e :: l2) c). split; [by rewrite Ec|]. split; [|by exists l2].
    split; [|done]. rewrite Elc in *. split; cbn [ec_list set_list write_ordering ec_fresh]; try done.
    + apply Forall_cons in K3 as [? ?]. by constructor.
    + destruct gs as [|g gs]; [by inversion K4|]. apply Forall2_cons in K4 as [[L1 L2 L3 L4 L5] L]. constructor; [|done].
      split; rewrite ?test_eset by done; done.
    + destruct K6 as (olds & cur & Eo & Fo). destruct olds as [|o olds]; injection Eo as -> ->.
      * exists [], (eset DE_IS_FINISHING cur). done.
      * exists (eset DE_IS_FINISHING o :: olds), cur. split; [done|]. apply Forall_cons in Fo as [Fo1 Fo]. constructor; [|done].
        unfold ready in *. rewrite !test_eset by done. exact Fo1.
    + exists (eset DE_IS_FINISHING e), l2. split_and!; try done.
      * by rewrite test_eset.
      * unfold ready in *. rewrite !test_eset by done. by rewrite Ewo.
      * by apply Forall_cons in K7 as [_ ?].
Qed.

(** *** After an ack *)

Lemma cnt_zero a ws w : cnt a ws = 0 -> w ∈ ws -> pw_epoch w <> a.
Proof.
  intros Hc Hw E. unfold cnt in Hc. assert (w ∈ List.filter (fun w => Nat.eqb (pw_epoch w) a) ws) as Hin.
  { apply list_elem_of_In, filter_In. split; [by apply list_elem_of_In|by apply Nat.eqb_eq]. }
  destruct (List.filter _ ws); [by apply not_elem_of_nil in Hin|cbn in Hc; lia].
Qed.

Definition worse (rv to : finish_epoch) : finish_epoch := if decide (rv = FE_STILL_LIVE) then to else rv.

Lemma drop_oldest c e n l g gs ws : core0 c (g :: gs) ws (Some (ep_addr e, epoch_size e)) -> ec_list c = e :: n :: l ->
  core0 (mk_ec (n :: l) (ec_fresh c) (u32 (epochs c - 1)) (write_ordering c)) gs ws None.
Proof.
  intros [K1 K2 K3 K4 K5 K6 K7] El. rewrite El in *. destruct K7 as (x & l' & Ex & _ & _ & Ha & _ & _ & Hf). injection Ex as <- <-.
  apply Forall2_cons in K4 as [[_ L2 _ _ _] K4]. apply Forall_cons in K3 as [_ K3]. cbn in K2. apply NoDup_cons in K2 as [_ K2].
  split; cbn [ec_list ec_fresh write_ordering]; try done.
  - apply Forall_forall. intros w Hw. rewrite Forall_forall in K5. specialize (K5 w Hw). cbn in K5. apply elem_of_cons in K5 as [E|]; [|done].
    destruct (cnt_zero (ep_addr e) ws w ltac:(lia) Hw E).
  - destruct K6 as (olds & cur & Eo & Fo). destruct olds as [|o olds]; [done|]. injection Eo as <- Eo. exists olds, cur. split; [done|].
    by apply Forall_cons in Fo as [_ ?].
Qed.

Lemma recycle_core c e g ws a s : core0 c [g] ws (Some (a, s)) -> ec_list c = [e] -> core (set_list [set_size 0 (set_eflags 0 e)] c) [[]] ws None.
Proof.
  intros [K1 K2 K3 K4 K5 K6 K7] El. rewrite El in *. destruct K7 as (x & l' & Ex & _ & _ & Ha & _). injection Ex as <- <-.
  apply Forall2_cons in K4 as [[_ L2 _ _ _] _]. split; [|done]. split; cbn [ec_list ec_fresh write_ordering set_list]; try done.
  - apply Forall_cons in K3 as [K3 _]. apply Forall_singleton. exact K3.
  - constructor; [|done]. split; try done. intros w Hw E. cbn in E. destruct (cnt_zero (ep_addr e) ws w ltac:(lia) Hw E).
  - by exists [], (set_size 0 (set_eflags 0 e)).
  - by apply Forall_singleton.
Qed.

(** What is left when the oldest epoch is done. *)
Lemma resume_core c gs ws a s rv : core c gs ws (Some (a, s)) ->
  exists e l g gl, ec_list c = e :: l /\ gs = g :: gl /\ get_epoch a (ec_list c) = Some e /\ epoch_size e = s /\ HAVE e = true /\
    match l with
    | [] => gl = [] /\ exists c', epoch_resume c a rv = Some (SE_done (worse rv FE_RECYCLED) None, c') /\
              core c' [[]] ws None /\ c' = set_list [set_size 0 (set_eflags 0 e)] c
    | n :: l' => exists c', ec_fresh c' = ec_fresh c /\ write_ordering c' = write_ordering c /\
        (epoch_resume c a rv = Some (SE_done (worse rv FE_DESTROYED) None, c') /\ core c' gl ws None /\ ec_list c' = l \/
         epoch_resume c a rv = Some (SE_ack (ep_addr n) (epoch_size n) (worse rv FE_DESTROYED), c') /\
           core c' gl ws (Some (ep_addr n, epoch_size n)) /\ ec_list c' = eset DE_IS_FINISHING n :: l')
    end.
Proof.
  intros [K _]. pose proof (co_fin _ _ _ _ K) as (e & l & El & Ea & Es & Ha & Hf & (Hh & Hz & _) & Hl). subst a s.
  pose proof (co_local _ _ _ _ K) as K4. rewrite El in K4. destruct gs as [|g gl]; [by inversion K4|]. exists e, l, g, gl.
  assert (get_epoch (ep_addr e) (ec_list c) = Some e) as G by (rewrite El; cbn; unfold is_at; by rewrite Nat.eqb_refl).
  do 5 (split; [done|]). unfold epoch_resume, epoch_retire. pose proof (co_addr _ _ _ _ K) as Hn.
  destruct (split_epoch _ _ _ Hn G) as (_ & l1 & l2 & E2 & U & O & C & F). rewrite El in E2.
  assert (l1 = [] /\ l2 = l) as [-> ->].
  { destruct l1 as [|x l1]; [by injection E2 as <-|]. exfalso. rewrite El in O. cbn in O. unfold is_at in O. by rewrite Nat.eqb_refl in O. }
  rewrite C. destruct l as [|n l'].
  - apply Forall2_cons in K4 as [_ K4]. inversion K4. subst gl. split; [done|]. rewrite U. cbn [app mbind option_bind]. eexists. split; [done|].
    split; [|done]. by apply (recycle_core c e g ws (ep_addr e) (epoch_size e)).
  - assert (next_after (ep_addr e) (ec_list c) (List.hd_error (ec_list c)) = Some n) as -> by (rewrite El; cbn; unfold is_at; by rewrite Nat.eqb_refl).
    cbn [mbind option_bind]. rewrite F. cbn [app]. pose proof (drop_oldest c e n l' g gl ws K El) as K'. set (c1 := mk_ec (n :: l') _ _ _) in *.
    assert (get_epoch (ep_addr n) (ec_list c1) = Some n) as G1 by (cbn; unfold is_at; by rewrite Nat.eqb_refl).
    assert (is_oldest (ep_addr n) (n :: l') = true) as On by (cbn; unfold is_at; by rewrite Nat.eqb_refl).
    assert (upd_epoch (ep_addr n) (fun _ => n) (ec_list c1) = n :: l') as Un.
    { destruct (split_epoch _ _ _ (co_addr _ _ _ _ K') G1) as (_ & k1 & k2 & E3 & U3 & _). rewrite U3. by rewrite <- E3. }
    destruct (section_core c1 c1 (ep_addr n) EV_BECAME_LAST n n gl ws None (worse rv FE_DESTROYED) G1) as [[S1 S2]|(_ & c' & S1 & S2 & l & E4 & E5)]; try done.
    + apply K'.
    + rewrite Un. done.
    + cbn [ec_list c1]. rewrite On. done.
    + exists c1. split; [done|]. split; [done|]. left. done.
    + exists c'. rewrite E5. split; [done|]. split; [done|]. right. rewrite <- E5. split; [done|]. split; [done|]. rewrite E5. cbn [ec_list set_list]. cbn in E4. by injection E4 as <-.
Qed.

(** *** Events *)

Definition put_epoch (a : nat) (e : bsr_epoch) (c : epoch_conn) : epoch_conn := set_list (upd_epoch a (fun _ => e) (ec_list c)) c.

(** A change of one epoch, in [l1 ++ e :: l2]. *)
Lemma put_split c gs ws win a e : core0 c gs ws win -> get_epoch a (ec_list c) = Some e ->
  ep_addr e = a /\ exists l1 l2 g1 g g2, ec_list c = l1 ++ e :: l2 /\ gs = g1 ++ g :: g2 /\ Forall2 (local ws) l1 g1 /\ local ws e g /\ Forall2 (local ws) l2 g2 /\
    (forall e', ec_list (put_epoch a e' c) = l1 ++ e' :: l2) /\ is_oldest a (ec_list c) = (match l1 with [] => true | _ => false end) /\
    is_current a (ec_list c) = (match l2 with [] => true | _ => false end) /\ (forall x, x ∈ l1 ++ l2 -> ep_addr x <> a).
Proof.
  intros K G. destruct (split_epoch a _ _ (co_addr _ _ _ _ K) G) as (Ea & l1 & l2 & El & U & O & C & _). split; [done|].
  pose proof (co_local _ _ _ _ K) as L. rewrite El in L. apply Forall2_app_inv_l in L as (g1 & g' & L1 & L2 & ->).
  apply Forall2_cons_inv_l in L2 as (g & g2 & L2 & L3 & ->). exists l1, l2, g1, g, g2. split_and!; try done.
  - intros e'. unfold put_epoch. cbn. apply U.
  - intros x Hx E. pose proof (co_addr _ _ _ _ K) as Hn. rewrite El, map_app in Hn. cbn in Hn. apply NoDup_app in Hn as (_ & Hd & Hn).
    apply NoDup_cons in Hn as [Hn _]. apply elem_of_app in Hx as [Hx|Hx].
    + apply (Hd (ep_addr x)); [by apply list_elem_of_fmap_2|]. rewrite E, <- Ea. by left.
    + apply Hn. rewrite Ea, <- E. by apply list_elem_of_fmap_2.
Qed.

(** The parts of [core0] that only depend on addresses. *)
Lemma put_addrs c e e' l1 l2 : ec_list c = l1 ++ e :: l2 -> ep_addr e' = ep_addr e -> map ep_addr (l1 ++ e' :: l2) = map ep_addr (ec_list c).
Proof. intros -> E. rewrite !map_app. cbn. by rewrite E. Qed.

Lemma put_fresh c e e' l1 l2 : ec_list c = l1 ++ e :: l2 -> ep_addr e' = ep_addr e ->
  Forall (fun e => (ep_addr e < ec_fresh c)%nat) (ec_list c) -> Forall (fun e => (ep_addr e < ec_fresh c)%nat) (l1 ++ e' :: l2).
Proof.
  intros -> E H. apply Forall_app in H as [H1 H2]. apply Forall_cons in H2 as [H2 H3]. apply Forall_app. split; [done|]. constructor; [|done]. cbn. by rewrite E.
Qed.

Lemma put_old wo e e' l1 l2 : (ready wo e -> ready wo e') -> (exists olds cur, l1 ++ e :: l2 = olds ++ [cur] /\ Forall (ready wo) olds) ->
  exists olds cur, l1 ++ e' :: l2 = olds ++ [cur] /\ Forall (ready wo) olds.
Proof.
  intros Hr (olds & cur & El & F). destruct l2 as [|x l2] using rev_ind.
  - apply app_inj_tail in El as [<- _]. by exists l1, e'.
  - rewrite app_comm_cons, app_assoc in El. apply app_inj_tail in El as [<- _]. exists (l1 ++ e' :: l2), x. rewrite <- app_assoc. split; [done|].
    apply Forall_app in F as [F1 F2]. apply Forall_cons in F2 as [F2 F3]. apply Forall_app. split; [done|]. constructor; auto.
Qed.

(** A change of flags and number. *)
Record flags_grow (e e' : bsr_epoch) : Prop := mk_flags_grow {
  fg_addr : ep_addr e' = ep_addr e; fg_size : epoch_size e' = epoch_size e; fg_active : active e' = active e;
  fg_plain : etest e' DE_CONTAINS_A_BARRIER = etest e DE_CONTAINS_A_BARRIER; fg_fin : FIN e' = FIN e;
  fg_have : HAVE e = true -> HAVE e' = true; fg_done : DONE e = true -> DONE e' = true }.

Lemma grow_ready wo e e' : flags_grow e e' -> ready wo e -> ready wo e'.
Proof. intros [] (R1 & R2 & R3). split_and!; [auto|congruence|destruct R3; auto]. Qed.

Lemma grow_core0 c ws win l1 e l2 g1 g g2 e' : core0 c (g1 ++ g :: g2) ws win -> ec_list c = l1 ++ e :: l2 -> length l1 = length g1 ->
  flags_grow e e' -> (DONE e' = true -> DONE e = true \/ Forall safe g) -> core0 (set_list (l1 ++ e' :: l2) c) (g1 ++ g :: g2) ws win.
Proof.
  intros K El Hlen F HD. pose proof F as [F1 F2 F3 F4 F5 F6 F7]. destruct K as [K1 K2 K3 K4 K5 K6 K7].
  rewrite El in K4. apply Forall2_app_inv in K4 as [L1 L2]; [|done]. apply Forall2_cons in L2 as [[M1 M2 M3 M4 M5] L2].
  split; cbn [write_ordering set_list ec_fresh ec_list]; try done.
  - by rewrite (put_addrs c e e').
  - by apply (put_fresh c e).
  - apply Forall2_app; [done|]. constructor; [|done]. split; rewrite ?F1, ?F2, ?F3, ?F4; try done. intros H. destruct (HD H); auto.
  - by rewrite (put_addrs c e e').
  - rewrite El in K6. apply (put_old _ e); [by apply grow_ready|done].
  - rewrite El in K7. destruct win as [[b s]|].
    + destruct K7 as (x & l & Ex & X1 & X2 & X3 & X4 & X5 & X6). destruct l1 as [|y l1]; cbn [app] in *; injection Ex as -> <-.
      * exists e', l2. split_and!; try congruence. by apply (grow_ready _ x).
      * exists x, (l1 ++ e' :: l2). split_and!; try done. apply Forall_app in X6 as [X6 X7]. apply Forall_cons in X7 as [X7 X8].
        apply Forall_app. split; [done|]. constructor; [congruence|done].
    + apply Forall_app in K7 as [X6 X7]. apply Forall_cons in X7 as [X7 X8]. apply Forall_app. split; [done|]. constructor; [congruence|done].
Qed.

(** *** Changes that do not matter to the verdict *)

Lemma verdict_same wo e e' : wo <> WO_BIO_BARRIER -> flags_grow e e' -> HAVE e' = HAVE e -> DONE e' = DONE e ->
  epoch_verdict wo true false e' = epoch_verdict wo true false e.
Proof.
  intros Hwo [F1 F2 F3 F4 F5 _ _] Hh Hd. unfold epoch_verdict. rewrite F2, F3, F4, F5, Hh, Hd, (bool_decide_eq_false_2 (wo = WO_BIO_BARRIER)) by done.
  by rewrite !andb_false_r.
Qed.

Lemma tweak_core c ws win l e gs g e' : core c (gs ++ [g]) ws win -> ec_list c = l ++ [e] -> length l = length gs -> flags_grow e e' -> HAVE e' = HAVE e ->
  DONE e' = DONE e -> core (set_list (l ++ [e']) c) (gs ++ [g]) ws win.
Proof.
  intros [K N] El Hlen F Hh Hd. split; [by apply (grow_core0 c ws win l e [] gs g [] e'); try done; rewrite Hd; auto|].
  intros Hw. specialize (N Hw). unfold not_stuck in *. rewrite El in N. cbn [ec_list set_list write_ordering]. destruct l; cbn [app] in *; [|done].
  rewrite verdict_same with (e := e); try done. apply K.
Qed.

(** Changes of other epochs than the oldest. *)
Lemma put_not_oldest c gs ws win a e e' : core0 c gs ws win -> get_epoch a (ec_list c) = Some e -> is_oldest a (ec_list (put_epoch a e' c)) = false -> ep_addr e' = a ->
  not_stuck c -> not_stuck (put_epoch a e' c).
Proof.
  intros K G. destruct (put_split c gs ws win a e K G) as (Ea & l1 & l2 & _ & _ & _ & El & _ & _ & _ & _ & Ep & _). unfold not_stuck. rewrite Ep, El.
  destruct l1; cbn; [|done]. unfold is_at. intros H <-. by rewrite Nat.eqb_refl in H.
Qed.

End epochs.

End EpochInv.
