(* ===== verification/EpochEvents.v ===== *)
(** * Events on epochs (src/bsr/bsr_receiver.c)

    Each event on an epoch keeps the invariant, with or without an ack to
    send at the end of its critical section. *)

From S2P Require Import Prelude Epoch EpochRun EpochInv.

Module EpochEvents.
Import Epoch EpochRun EpochInv.

Section events.
Context (safe : nat -> Prop).

Abbreviation core0 := (core0 safe).
Abbreviation core := (core safe).
Abbreviation local := (local safe).

(** ** The end of a critical section, by position *)

Lemma get_at l1 e l2 : NoDup (map ep_addr (l1 ++ e :: l2)) -> get_epoch (ep_addr e) (l1 ++ e :: l2) = Some e.
Proof.
  intros Hn. rewrite map_app in Hn. cbn in Hn. apply NoDup_app in Hn as (_ & Hd & _). induction l1 as [|x l1 IH]; cbn.
  - unfold is_at. by rewrite Nat.eqb_refl.
  - unfold is_at at 1. destruct (Nat.eqb_spec (ep_addr x) (ep_addr e)) as [E|_].
    + exfalso. apply (Hd (ep_addr x)); [by left|rewrite E; by left].
    + apply IH. intros y Hy. apply Hd. by right.
Qed.

Lemma upd_at l1 e l2 f : NoDup (map ep_addr (l1 ++ e :: l2)) -> upd_epoch (ep_addr e) f (l1 ++ e :: l2) = l1 ++ f e :: l2.
Proof.
  intros Hn. destruct (split_epoch _ _ _ Hn (get_at _ _ _ Hn)) as (_ & k1 & k2 & E & U & _). rewrite U.
  assert (length k1 = length l1 /\ k1 = l1 /\ k2 = l2) as (_ & -> & ->); [|done].
  assert (length k1 = length l1) as Hlen.
  { apply (NoDup_lookup (map ep_addr (l1 ++ e :: l2)) _ _ (ep_addr e)); [done|rewrite E|]; rewrite list_lookup_fmap, list_lookup_middle; done. }
  symmetry in E. apply app_inj_1 in E as [-> E]; [|done]. by injection E as ->.
Qed.

(** What a section on [e], in [l1 ++ e :: l2], leads to; [e'] is the epoch after the event. *)
Lemma section_at c l1 e l2 ev e' gs ws win rv : NoDup (map ep_addr (ec_list c)) -> ec_list c = l1 ++ e :: l2 ->
  e' = event_effect (write_ordering c) (is_current (ep_addr e) (ec_list c)) ev e -> ep_addr e' = ep_addr e ->
  core0 (set_list (l1 ++ e' :: l2) c) gs ws win -> (win = None -> l1 <> [] -> not_stuck c) ->
  (epoch_section (epoch_fuel c) c (ep_addr e) ev false rv = Some (SE_done rv None, set_list (l1 ++ e' :: l2) c) /\ core (set_list (l1 ++ e' :: l2) c) gs ws win) \/
  (win = None /\ l1 = [] /\
   epoch_section (epoch_fuel c) c (ep_addr e) ev false rv = Some (SE_ack (ep_addr e) (epoch_size e') rv, set_list (eset DE_IS_FINISHING e' :: l2) c) /\
   core (set_list (eset DE_IS_FINISHING e' :: l2) c) gs ws (Some (ep_addr e, epoch_size e'))).
Proof.
  intros Hn El Ee Ea K N. assert (get_epoch (ep_addr e) (ec_list c) = Some e) as G by (rewrite El in *; by apply get_at).
  assert (upd_epoch (ep_addr e) (fun _ => e') (ec_list c) = l1 ++ e' :: l2) as U by (rewrite El in *; by rewrite upd_at).
  destruct (section_core safe c (set_list (l1 ++ e' :: l2) c) (ep_addr e) ev e e' gs ws win rv G Ee Ea Hn ltac:(by rewrite U) K)
    as [[S1 S2]|(-> & c' & S1 & S2 & l & E1 & ->)].
  - intros Hw Ho. cbn [ec_list set_list] in Ho. destruct l1 as [|x l1].
    + cbn in Ho. unfold is_at in Ho. by rewrite Ea, Nat.eqb_refl in Ho.
    + specialize (N Hw ltac:(done)). unfold not_stuck in *. by rewrite El in N.
  - by left.
  - right. cbn [ec_list set_list] in E1. destruct l1 as [|x l1]; cbn [app] in E1; simplify_eq; [by split_and!|].
    exfalso. pose proof (co_addr _ _ _ _ _ (proj1 S2)) as Hd. pose proof (co_addr _ _ _ _ _ K) as Hk. cbn in Hk. rewrite map_app in Hk. cbn in Hk.
    apply NoDup_cons in Hk as [Hk _]. apply Hk. apply elem_of_app. right. left.
Qed.

(** ** Events of the receiver *)

Lemma grow_eset b e : 0 <= b -> b <> DE_CONTAINS_A_BARRIER -> b <> DE_IS_FINISHING -> flags_grow e (eset b e).
Proof.
  intros H0 H1 H2. split; try done; rewrite test_eset by done.
  - by rewrite (proj2 (Z.eqb_neq _ _)).
  - by rewrite (proj2 (Z.eqb_neq _ _)).
  - intros ->. by rewrite orb_true_r.
  - intros ->. by rewrite orb_true_r.
Qed.

Lemma grow_number nr e : flags_grow e (set_barrier_nr nr e).
Proof. by split. Qed.

Lemma rcv_event c olds cur gs g ws win ev e' rv : core c (gs ++ [g]) ws win -> ec_list c = olds ++ [cur] -> length olds = length gs ->
  e' = event_effect (write_ordering c) (is_current (ep_addr cur) (ec_list c)) ev cur -> flags_grow cur e' -> (DONE e' = true -> DONE cur = true \/ Forall safe g) ->
  (epoch_section (epoch_fuel c) c (ep_addr cur) ev false rv = Some (SE_done rv None, set_list (olds ++ [e']) c) /\ core (set_list (olds ++ [e']) c) (gs ++ [g]) ws win) \/
  (win = None /\ olds = [] /\
   epoch_section (epoch_fuel c) c (ep_addr cur) ev false rv = Some (SE_ack (ep_addr cur) (epoch_size e') rv, set_list [eset DE_IS_FINISHING e'] c) /\
   core (set_list [eset DE_IS_FINISHING e'] c) (gs ++ [g]) ws (Some (ep_addr cur, epoch_size e'))).
Proof.
  intros [K N] El Hlen Ee F HD. apply section_at; try done.
  - apply K.
  - apply F.
  - by apply (grow_core0 safe c ws win olds cur [] gs g [] e').
  - auto.
Qed.

(** ** The event of the ack sender *)

Lemma elem_of_delete {A} (x : A) (i : nat) (l : list A) : x ∈ delete i l -> x ∈ l.
Proof. intros H. apply (elem_of_submseteq _ _ _ H), sublist_submseteq, sublist_delete. Qed.

Lemma cnt_delete a ws i w : ws !! i = Some w -> cnt a (delete i ws) = cnt a ws - (if Nat.eqb (pw_epoch w) a then 1 else 0).
Proof.
  intros H. rewrite delete_take_drop. rewrite <- (take_drop_middle ws i w H) at 3. unfold cnt. rewrite !List.filter_app, !length_app. cbn [List.filter].
  destruct (Nat.eqb (pw_epoch w) a); cbn [length]; lia.
Qed.

Lemma local_delete ws i e g w : ws !! i = Some w -> pw_epoch w <> ep_addr e -> local ws e g -> local (delete i ws) e g.
Proof.
  intros H Hne [L1 L2 L3 L4 L5]. split; try done.
  - rewrite (cnt_delete _ _ _ w H), (proj2 (Nat.eqb_neq _ _)) by done. lia.
  - intros x Hx. apply L4. by apply elem_of_delete in Hx.
Qed.

Lemma put_core0 c ws win l1 e l2 gs i w : core0 c gs ws win -> ec_list c = l1 ++ e :: l2 -> ws !! i = Some w -> pw_epoch w = ep_addr e ->
  core0 (set_list (l1 ++ set_active (active e - 1) e :: l2) c) gs (delete i ws) win.
Proof.
  intros [K1 K2 K3 K4 K5 K6 K7] El Hw Hp. set (e' := set_active _ e).
  assert (forall x, x ∈ l1 ++ l2 -> pw_epoch w <> ep_addr x) as Hne.
  { intros x Hx E. rewrite El, map_app in K2. cbn in K2. apply NoDup_app in K2 as (_ & Hd & Hn). apply NoDup_cons in Hn as [Hn _].
    apply elem_of_app in Hx as [Hx|Hx]; [apply (Hd (ep_addr x)); [by apply list_elem_of_fmap_2|rewrite <- E, Hp; by left]|].
    apply Hn. rewrite <- Hp, E. by apply list_elem_of_fmap_2. }
  rewrite El in K4. apply Forall2_app_inv_l in K4 as (g1 & g' & L1 & L2 & ->). apply Forall2_cons_inv_l in L2 as (g & g2 & L2 & L3 & ->).
  assert (forall l k, (forall x, x ∈ l -> pw_epoch w <> ep_addr x) -> Forall2 (local ws) l k -> Forall2 (local (delete i ws)) l k) as Hd.
  { intros l k Hx H. induction H as [|x y l k Hl H IH]; constructor; [apply (local_delete ws i x y w); try done; apply Hx; by left|].
    apply IH. intros z Hz. apply Hx. by right. }
  split; cbn [write_ordering set_list ec_fresh ec_list]; try done.
  - by rewrite (put_addrs c e e').
  - by apply (put_fresh c e).
  - apply Forall2_app; [apply Hd; [|done]; intros x Hx; apply Hne, elem_of_app; auto|]. constructor; [|apply Hd; [|done]; intros x Hx; apply Hne, elem_of_app; auto].
    destruct L2 as [M1 M2 M3 M4 M5]. split; try done.
    + cbn. rewrite (cnt_delete _ _ _ w Hw), Hp, Nat.eqb_refl. lia.
    + intros x Hx. apply M4. by apply elem_of_delete in Hx.
  - rewrite (put_addrs c e e') by done. apply Forall_forall. intros x Hx. rewrite Forall_forall in K5. apply K5. by apply elem_of_delete in Hx.
  - rewrite El in K6. by apply (put_old _ e).
  - rewrite El in K7. destruct win as [[b s]|].
    + destruct K7 as (x & l & Ex & X1 & X2 & X3 & X4 & X5 & X6). destruct l1 as [|y l1]; cbn [app] in *; injection Ex as -> <-.
      * exfalso. destruct L2 as [_ M2 _ _ _]. rewrite X3 in M2. symmetry in M2. apply (cnt_zero _ _ w M2); [|done]. by apply list_elem_of_lookup_2 in Hw.
      * exists x, (l1 ++ e' :: l2). split_and!; try done. apply Forall_app in X6 as [X6 X7]. apply Forall_cons in X7 as [X7 X8].
        apply Forall_app. split; [done|]. by constructor.
    + apply Forall_app in K7 as [X6 X7]. apply Forall_cons in X7 as [X7 X8]. apply Forall_app. split; [done|]. by constructor.
Qed.

Lemma put_event c gs ws win i w : core c gs ws win -> ws !! i = Some w ->
  exists l1 e l2, ec_list c = l1 ++ e :: l2 /\ ep_addr e = pw_epoch w /\ let e' := set_active (active e - 1) e in
    (section_of c (pw_epoch w) EV_PUT = Some (SE_done FE_STILL_LIVE None, set_list (l1 ++ e' :: l2) c) /\ core (set_list (l1 ++ e' :: l2) c) gs (delete i ws) win) \/
    (win = None /\ l1 = [] /\ section_of c (pw_epoch w) EV_PUT = Some (SE_ack (ep_addr e) (epoch_size e) FE_STILL_LIVE, set_list (eset DE_IS_FINISHING e' :: l2) c) /\
     core (set_list (eset DE_IS_FINISHING e' :: l2) c) gs (delete i ws) (Some (ep_addr e, epoch_size e))).
Proof.
  intros [K N] Hw. pose proof (co_known _ _ _ _ _ K) as Hk. rewrite Forall_forall in Hk. specialize (Hk w ltac:(by eapply list_elem_of_lookup_2)).
  apply list_elem_of_fmap in Hk as (e & Ea & He). apply list_elem_of_split in He as (l1 & l2 & El). exists l1, e, l2. split; [done|]. split; [done|].
  cbn zeta. unfold section_of. rewrite Ea. apply (section_at c l1 e l2 EV_PUT (set_active (active e - 1) e) gs); try done; auto.
  - apply K.
  - by apply (put_core0 c ws win l1 e l2 gs i w).
Qed.

(** ** Changes of the current epoch *)

(** What it takes to replace the current epoch by one that has no barrier number yet. *)
Lemma open_fin c gs ws win olds cur e' : core0 c gs ws win -> ec_list c = olds ++ [cur] -> HAVE cur = false -> FIN e' = FIN cur ->
  match win with
  | None => Forall (fun e => FIN e = false) (olds ++ [e'])
  | Some (a, s) => exists e l, olds ++ [e'] = e :: l /\ ep_addr e = a /\ epoch_size e = s /\ active e = 0 /\ FIN e = true /\
                     ready (write_ordering c) e /\ Forall (fun e => FIN e = false) l
  end.
Proof.
  intros K El Hh Hf. pose proof (co_fin _ _ _ _ _ K) as F. rewrite El in F. destruct win as [[a s]|].
  - destruct F as (e & l & E & X1 & X2 & X3 & X4 & X5 & X6). destruct olds as [|o olds]; injection E as -> <-; [destruct X5; congruence|].
    exists e, (olds ++ [e']). split_and!; try done. apply Forall_app in X6 as [X6 X7]. apply Forall_cons in X7 as [X7 _]. apply Forall_app. split; [done|].
    constructor; [congruence|done].
  - apply Forall_app in F as [X6 X7]. apply Forall_cons in X7 as [X7 _]. apply Forall_app. split; [done|]. constructor; [congruence|done].
Qed.

Lemma cnt_app a ws ws' : cnt a (ws ++ ws') = cnt a ws + cnt a ws'.
Proof. unfold cnt. rewrite List.filter_app, length_app. lia. Qed.

Lemma cnt_none a ws : Forall (fun w => pw_epoch w <> a) ws -> cnt a ws = 0.
Proof. unfold cnt. induction 1 as [|w ws H _ IH]; cbn; [done|]. by rewrite (proj2 (Nat.eqb_neq _ _)). Qed.

Lemma cnt_all a ws : Forall (fun w => pw_epoch w = a) ws -> cnt a ws = Z.of_nat (length ws).
Proof. unfold cnt. induction 1 as [|w ws H _ IH]; cbn [List.filter length]; [done|]. rewrite (proj2 (Nat.eqb_eq _ _) H). cbn [length]. lia. Qed.

(** A write comes in; [new] is what is submitted of it. *)
Lemma enter_core c olds cur gs g ws win w new : core c (gs ++ [g]) ws win -> ec_list c = olds ++ [cur] -> length olds = length gs -> HAVE cur = false ->
  (DONE cur = true -> safe w) -> Forall (fun x => pw_id x = w /\ pw_epoch x = ep_addr cur) new ->
  core (set_list (olds ++ [set_active (active cur + Z.of_nat (length new)) (set_size (epoch_size cur + 1) cur)]) c) (gs ++ [g ++ [w]]) (ws ++ new) win.
Proof.
  intros [K N] El Hlen Hh Hs Hnew. set (e' := set_active _ _). split.
  - pose proof (open_fin c _ ws win olds cur e' K El Hh eq_refl) as Hfin. destruct K as [K1 K2 K3 K4 K5 K6 _]. rewrite El in K4.
    apply Forall2_app_inv in K4 as [L1 L2]; [|done]. apply Forall2_cons in L2 as [[M1 M2 M3 M4 M5] _].
    split; cbn [write_ordering set_list ec_fresh ec_list]; try done.
    + by rewrite (put_addrs c cur e' olds []).
    + by apply (put_fresh c cur e' olds []).
    + apply Forall2_app.
      * rewrite El, map_app in K2. cbn in K2. apply NoDup_app in K2 as (_ & Hd & _).
        assert (forall x, x ∈ olds -> ep_addr x <> ep_addr cur) as Hne.
        { intros x Hx E. apply (Hd (ep_addr x)); [by apply list_elem_of_fmap_2|rewrite E; by left]. }
        clear - L1 Hne Hnew. induction L1 as [|x y l k [P1 P2 P3 P4 P5] _ IH]; constructor; [|apply IH; intros z Hz; apply Hne; by right].
        specialize (Hne x ltac:(by left)). split; try done.
        -- rewrite cnt_app, (cnt_none _ new); [lia|]. eapply Forall_impl; [exact Hnew|]. intros z [_ ->]. auto.
        -- intros z Hz E. apply elem_of_app in Hz as [Hz|Hz]; [by apply P4|]. rewrite Forall_forall in Hnew. destruct (Hnew z Hz). congruence.
      * constructor; [|done]. split; cbn [e' epoch_size active ep_addr set_active set_size]; try done.
        -- rewrite length_app. cbn. lia.
        -- rewrite cnt_app, (cnt_all _ new); [lia|]. eapply Forall_impl; [exact Hnew|]. by intros z [_ ?].
        -- intros z Hz E. apply elem_of_app. apply elem_of_app in Hz as [Hz|Hz]; [left; by apply M4|right].
           rewrite Forall_forall in Hnew. destruct (Hnew z Hz) as [-> _]. by left.
        -- intros H. apply Forall_app. split; [by apply M5|]. constructor; [by apply Hs|done].
    + rewrite (put_addrs c cur e' olds []) by done. apply Forall_app. split; [done|]. eapply Forall_impl; [exact Hnew|]. intros z [_ ->].
      rewrite El, map_app. apply elem_of_app. right. by left.
    + destruct K6 as (o & q & E & F). rewrite El in E. apply app_inj_tail in E as [<- _]. by exists olds, e'.
  - intros Hw. specialize (N Hw). unfold not_stuck in *. rewrite El in N. cbn [ec_list set_list write_ordering]. destruct olds; cbn [app] in *; [|done].
    unfold epoch_verdict. replace (HAVE e') with false. rewrite !andb_false_r. done.
Qed.

(** A new epoch is needed; its memory holds anything. *)
Lemma add_core c olds cur gs g ws win junk n : core c (gs ++ [g]) ws win -> ec_list c = olds ++ [cur] -> ready (write_ordering c) cur ->
  core (mk_ec (ec_list c ++ [mk_epoch (ec_fresh c) junk 0 0 0]) (S (ec_fresh c)) n (write_ordering c)) (gs ++ [g; []]) ws win.
Proof.
  intros [[K1 K2 K3 K4 K5 K6 K7] N] El Hr. set (e := mk_epoch _ _ _ _ _).
  assert (forall a, a ∈ map ep_addr (ec_list c) -> (a < ec_fresh c)%nat) as Hlt.
  { intros a Ha. apply list_elem_of_fmap in Ha as (x & -> & Hx). rewrite Forall_forall in K3. by apply K3. }
  split.
  - split; cbn [write_ordering ec_fresh ec_list]; try done.
    + rewrite map_app. apply NoDup_app. split; [done|]. split; [|apply NoDup_singleton]. intros a Ha Hb. apply Hlt in Ha. apply list_elem_of_singleton in Hb. cbn in Hb. lia.
    + apply Forall_app. split; [eapply Forall_impl; [exact K3|]; cbn; lia|]. constructor; [cbn; lia|done].
    + change [g; []] with ([g] ++ [[]]). rewrite (app_assoc gs [g]). apply Forall2_app; [done|]. constructor; [|done].
      assert (Forall (fun w => pw_epoch w <> ec_fresh c) ws) as Hne by (eapply Forall_impl; [exact K5|]; cbn; intros x Hx; apply Hlt in Hx; lia).
      split; try done.
      * symmetry. by apply cnt_none.
      * intros w Hw E. rewrite Forall_forall in Hne. by destruct (Hne w Hw).
    + eapply Forall_impl; [exact K5|]. intros w Hw. cbn. rewrite map_app. apply elem_of_app. by left.
    + exists (ec_list c), e. split; [done|]. destruct K6 as (o & q & E & F). rewrite E. rewrite El in E. apply app_inj_tail in E as [<- <-].
      apply Forall_app. split; [done|]. by constructor.
    + destruct win as [[b s]|].
      * destruct K7 as (x & l & Ex & X1 & X2 & X3 & X4 & X5 & X6). exists x, (l ++ [e]). rewrite Ex. split_and!; try done. apply Forall_app. split; [done|]. by constructor.
      * apply Forall_app. split; [done|]. by constructor.
  - intros Hw. specialize (N Hw). unfold not_stuck in *. cbn [ec_list write_ordering]. by destruct (ec_list c).
Qed.

(** ** Other changes *)

(** Writes that differ in their progress only. *)
Lemma same_writes_core c gs ws ws' win : map pw_epoch ws' = map pw_epoch ws -> map pw_id ws' = map pw_id ws -> core c gs ws win -> core c gs ws' win.
Proof.
  intros E1 E2 [[K1 K2 K3 K4 K5 K6 K7] N]. assert (Forall2 (fun w w' => pw_epoch w' = pw_epoch w /\ pw_id w' = pw_id w) ws ws') as HF.
  { clear - E1 E2. revert ws' E1 E2. induction ws as [|w ws IH]; intros [|w' ws']; cbn; intros E1 E2; try done. injection E1 as ? ?. injection E2 as ? ?. constructor; auto. }
  assert (forall a, cnt a ws' = cnt a ws) as Hc.
  { intros a. unfold cnt. clear - HF. induction HF as [|w w' ws ws' [E _] _ IH]; cbn; [done|]. rewrite E. destruct (Nat.eqb _ _); cbn; lia. }
  split; [|done]. split; try done.
  - eapply Forall2_impl; [exact K4|]. intros e g [L1 L2 L3 L4 L5]. split; try done; [by rewrite Hc|]. intros w' Hw' E.
    apply list_elem_of_lookup in Hw' as [i Hi]. destruct (Forall2_lookup_r _ _ _ _ _ HF Hi) as (w & Hw & X1 & X2). rewrite X2. apply L4; [by eapply list_elem_of_lookup_2|congruence].
  - apply Forall_forall. intros w' Hw'. apply list_elem_of_lookup in Hw' as [i Hi]. destruct (Forall2_lookup_r _ _ _ _ _ HF Hi) as (w & Hw & X1 & _).
    rewrite X1. rewrite Forall_forall in K5. apply K5. by eapply list_elem_of_lookup_2.
Qed.

(** A failed flush. *)
Lemma drain_core c gs ws win n : write_ordering c = WO_BDEV_FLUSH -> core c gs ws win -> core (mk_ec (ec_list c) (ec_fresh c) n WO_DRAIN_IO) gs ws win.
Proof.
  intros Hwo [[K1 K2 K3 K4 K5 K6 K7] N]. assert (forall e, ready (write_ordering c) e -> ready WO_DRAIN_IO e) as Hr.
  { intros e (R1 & R2 & R3). split_and!; try done. left. destruct R3; [done|congruence]. }
  split.
  - split; cbn [write_ordering ec_fresh ec_list]; try done.
    + destruct K6 as (o & q & E & F). exists o, q. split; [done|]. eapply Forall_impl; [exact F|]. auto.
    + destruct win as [[b s]|]; [|done]. destruct K7 as (x & l & X1 & X2 & X3 & X4 & X5 & X6 & X7). exists x, l. by split_and!; auto.
  - intros Hw. specialize (N Hw). unfold not_stuck in *. cbn [ec_list write_ordering]. destruct (ec_list c); [done|]. rewrite Hwo in N. exact N.
Qed.

End events.

Lemma core_mono (safe safe' : nat -> Prop) c gs ws win : (forall w, safe w -> safe' w) -> core safe c gs ws win -> core safe' c gs ws win.
Proof.
  intros H [[K1 K2 K3 K4 K5 K6 K7] N]. split; [|done]. split; try done. eapply Forall2_impl; [exact K4|]. intros e g [L1 L2 L3 L4 L5].
  split; try done. intros HD. eapply Forall_impl; [by apply L5|]. done.
Qed.

End EpochEvents.
