(* ===== verification/EpochGroups.v ===== *)
(** * Groups of writes between barriers (src/bsr/bsr_receiver.c, src/bsr/bsr_sender.c)

    What the sender sends between two barriers, and which group an epoch
    stands for. *)

From S2P Require Import Prelude Epoch EpochRun EpochInv.

Module EpochGroups.
Import Epoch EpochRun EpochInv.

(** ** Groups *)

Lemma groups_snoc ps p : groups (ps ++ [p]) = group_step (groups ps) p.
Proof. unfold groups. by rewrite fold_left_app. Qed.

Lemma groups_grow ps qs : exists gs, (groups (ps ++ qs)).1 = (groups ps).1 ++ gs.
Proof.
  induction qs as [|p qs [gs IH]] using rev_ind; [exists []; by rewrite !app_nil_r|]. rewrite app_assoc, groups_snoc. destruct p; cbn; rewrite IH; [by exists gs|].
  eexists. by rewrite <- app_assoc.
Qed.

Lemma groups_ids ps : data_ids ps = concat (map snd (groups ps).1) ++ (groups ps).2.
Proof.
  induction ps as [|p ps IH] using rev_ind; [done|]. rewrite groups_snoc. unfold data_ids in *. rewrite flat_map_app, IH. destruct p; cbn.
  - by rewrite <- app_assoc.
  - rewrite map_app, concat_app. cbn. by rewrite !app_nil_r.
Qed.

Lemma data_ids_app ps qs : data_ids (ps ++ qs) = data_ids ps ++ data_ids qs.
Proof. apply flat_map_app. Qed.

(** ** The sender *)

(** The writes of a group were sent with the number of its barrier. *)
Definition named (sent : list packet) (n : Z) (g : list nat) : Prop := Forall (fun w => P_DATA w n ∈ sent) g.

Lemma named_app sent ps n g : named sent n g -> named (sent ++ ps) n g.
Proof. intros H. eapply Forall_impl; [exact H|]. cbn. intros w Hw. apply elem_of_app. by left. Qed.

Lemma named_all sent ps gs : Forall (fun g => named sent g.1 g.2) gs -> Forall (fun g => named (sent ++ ps) g.1 g.2) gs.
Proof. intros H. eapply Forall_impl; [exact H|]. intros g. apply named_app. Qed.

(** The writes of the open group are counted; no group is empty. *)
Record sender_ok (s : send_state) (sent : list packet) (next : nat) : Prop := mk_sender_ok {
  so_count : current_epoch_writes s = Z.of_nat (length (groups sent).2);
  so_range : current_epoch_writes s < 2 ^ 32;
  so_seen : seen_any_write_yet s = false -> current_epoch_writes s = 0;
  so_full : Forall (fun g => g.2 <> []) (groups sent).1;
  so_open : named sent (current_epoch_nr s) (groups sent).2;
  so_closed : Forall (fun g => named sent g.1 g.2) (groups sent).1;
  so_ids : NoDup (data_ids sent);
  so_next : Forall (fun w => (w < next)%nat) (data_ids sent) }.

Lemma sender_start : sender_ok (mk_send false 0 0) [] 0.
Proof. split; try done; constructor. Qed.

(** With no write in the open group its number does not matter. *)
Lemma renumber s sent next seen n : sender_ok s sent next -> current_epoch_writes s = 0 -> sender_ok (mk_send seen n 0) sent next.
Proof.
  intros [S1 S2 S3 S4 S5 S6 S7 S8] H. rewrite H in *. assert ((groups sent).2 = []) as E by (by destruct ((groups sent).2)). split; try done. rewrite E. constructor.
Qed.

Lemma barrier_ok s sent next seen n : sender_ok s sent next -> current_epoch_writes s <> 0 -> sender_ok (mk_send seen n 0) (sent ++ [P_BARRIER (current_epoch_nr s)]) next.
Proof.
  intros [S1 S2 S3 S4 S5 S6 S7 S8] H. split; cbn [current_epoch_writes seen_any_write_yet current_epoch_nr]; rewrite ?groups_snoc, ?data_ids_app; cbn [group_step fst snd data_ids flat_map];
    rewrite ?app_nil_r; try done.
  - apply Forall_app. split; [done|]. constructor; [|done]. cbn. intros E. by rewrite E in S1.
  - constructor.
  - apply Forall_app. split; [by apply named_all|]. constructor; [|done]. by apply named_app.
Qed.

Lemma close_ok s sent next epoch : sender_ok s sent next ->
  let r := maybe_send_barrier epoch s in sender_ok r.1 (sent ++ r.2) next /\ (seen_any_write_yet s = true -> seen_any_write_yet r.1 = true /\ current_epoch_nr r.1 = epoch).
Proof.
  intros K. unfold maybe_send_barrier. destruct (seen_any_write_yet s) eqn:E; cbn [negb fst snd]; [|by rewrite app_nil_r].
  destruct (Z.eqb_spec (current_epoch_nr s) epoch) as [<-|_]; cbn [negb fst snd]; [by rewrite app_nil_r|].
  destruct (Z.eqb_spec (current_epoch_writes s) 0) as [H0|H0]; cbn; rewrite ?app_nil_r; (split; [|done]).
  - rewrite H0. by apply (renumber s).
  - by apply barrier_ok.
Qed.

Lemma send_write_ok s sent next epoch : sender_ok s sent next -> current_epoch_writes s + 1 < 2 ^ 32 ->
  let r := send_write next epoch s in sender_ok r.1 (sent ++ r.2) (S next).
Proof.
  intros K Hr. unfold send_write. assert (sender_ok (re_init_if_first_write epoch s) sent next /\ seen_any_write_yet (re_init_if_first_write epoch s) = true /\
    current_epoch_writes (re_init_if_first_write epoch s) = current_epoch_writes s) as (K1 & E1 & E2).
  { unfold re_init_if_first_write. destruct (seen_any_write_yet s) eqn:E; cbn; [done|]. pose proof (so_seen _ _ _ K E) as H0. rewrite H0. split_and!; try done. by apply (renumber s). }
  set (s1 := re_init_if_first_write epoch s) in *. destruct (close_ok s1 sent next epoch K1) as [K2 E3]. specialize (E3 E1) as [E3 E4].
  assert (current_epoch_writes (maybe_send_barrier epoch s1).1 <= current_epoch_writes s1) as Hle.
  { pose proof (so_count _ _ _ K1). unfold maybe_send_barrier. destruct (seen_any_write_yet s1), (current_epoch_nr s1 =? epoch), (current_epoch_writes s1 =? 0); cbn; lia. }
  destruct (maybe_send_barrier epoch s1) as [s2 ps]. cbn [fst snd] in *. destruct K2 as [S1 S2 S3 S4 S5 S6 S7 S8]. rewrite app_assoc. generalize dependent (sent ++ ps).
  intros q S1 S4 S5 S6 S7 S8.
  split; cbn [current_epoch_writes seen_any_write_yet current_epoch_nr]; rewrite ?groups_snoc, ?data_ids_app; cbn [group_step fst snd data_ids flat_map app] in *; try done.
  - rewrite length_app. cbn. rewrite u32_id by lia. lia.
  - rewrite u32_id by lia. lia.
  - congruence.
  - apply Forall_app. split; [by apply named_app|]. constructor; [|done]. rewrite E4. apply elem_of_app. right. left.
  - by apply named_all.
  - apply NoDup_app. split_and!; [done| |apply NoDup_singleton]. intros x Hx Hy. apply list_elem_of_singleton in Hy as ->. rewrite Forall_forall in S8.
    specialize (S8 _ Hx). lia.
  - apply Forall_app. split; [eapply Forall_impl; [exact S8|]; cbn; lia|]. constructor; [lia|done].
Qed.

(** ** Epochs and groups *)

Definition closed1 (x : bsr_epoch * list nat) : list (Z * list nat) := if HAVE x.1 then [(barrier_nr x.1, x.2)] else [].
Definition open1 (x : bsr_epoch * list nat) : list nat := if HAVE x.1 then [] else x.2.

(** The groups that have their barrier, and the writes that have not. *)
Definition closed (l : list bsr_epoch) (gs : list (list nat)) : list (Z * list nat) := flat_map closed1 (zip l gs).
Definition opened (l : list bsr_epoch) (gs : list (list nat)) : list nat := flat_map open1 (zip l gs).
Definition view (l : list bsr_epoch) (gs : list (list nat)) : list (Z * list nat) * list nat := (closed l gs, opened l gs).

Lemma view_at l1 e l2 g1 g g2 : length l1 = length g1 ->
  view (l1 ++ e :: l2) (g1 ++ g :: g2) = (closed l1 g1 ++ closed1 (e, g) ++ closed l2 g2, opened l1 g1 ++ open1 (e, g) ++ opened l2 g2).
Proof. intros H. unfold view, closed, opened. rewrite zip_with_app by done. cbn. by rewrite !flat_map_app. Qed.

(** Changes that keep the number. *)
Lemma view_same l1 e e' l2 gs : HAVE e' = HAVE e -> barrier_nr e' = barrier_nr e -> view (l1 ++ e' :: l2) gs = view (l1 ++ e :: l2) gs.
Proof.
  intros H1 H2. unfold view, closed, opened. revert gs. induction l1 as [|x l1 IH]; intros [|g gs]; cbn [app zip_with flat_map]; try done.
  - unfold closed1, open1. cbn [fst snd]. by rewrite H1, H2.
  - specialize (IH gs). injection IH as -> ->. done.
Qed.

(** The current epoch is the only one without a number. *)
Lemma view_cur wo olds cur gs g : length olds = length gs -> Forall (ready wo) olds ->
  view (olds ++ [cur]) (gs ++ [g]) = (closed olds gs ++ closed1 (cur, g), open1 (cur, g)).
Proof.
  intros Hlen F. rewrite view_at by done. cbn [closed opened zip_with flat_map]. rewrite !app_nil_r. f_equal.
  assert (opened olds gs = []) as ->; [|done]. clear -F. revert gs. induction F as [|e olds (H & _) _ IH]; intros [|g gs]; try done.
  change (open1 (e, g) ++ opened olds gs = []). rewrite IH, app_nil_r. unfold open1. cbn [fst]. by rewrite H.
Qed.

Lemma in_groups (safe : nat -> Prop) ws l gs e g : Forall2 (local safe ws) l gs -> (e, g) ∈ zip l gs -> forall w, w ∈ g -> w ∈ concat (map snd (closed l gs)) ++ opened l gs.
Proof.
  intros _ H w Hw. apply list_elem_of_split in H as (z1 & z2 & E). unfold closed, opened. rewrite E, !flat_map_app. cbn [flat_map]. rewrite !map_app, !concat_app.
  unfold closed1 at 2, open1 at 2. cbn [fst snd]. destruct (HAVE e); cbn; rewrite ?app_nil_r, ?elem_of_app; tauto.
Qed.

End EpochGroups.
