(* ===== verification/EpochKeep.v ===== *)
(** * The receiver and the ack sender (src/bsr/bsr_receiver.c)

    The invariant of the runs of [EpochRun], and that every step keeps it. *)

From S2P Require Import Prelude Epoch EpochRun EpochInv EpochEvents EpochGroups.

Module EpochKeep.
Import Epoch EpochRun EpochInv EpochEvents EpochGroups.

(** ** The invariant *)

(** Flushes are used, none of the shortcuts for lack of memory was taken, and
    no flush that did not succeed was taken for one that did. *)
Definition strict (r : run) : Prop := write_ordering (rn_conn r) = WO_BDEV_FLUSH /\ rn_nomem r = false /\ rn_ignored r = false.

(** The write is on stable storage, or it was refused or superseded. *)
Definition settled (r : run) (w : nat) : Prop := w ∈ rn_stable r \/ w ∈ rn_refused r \/ w ∈ rn_superseded r.
Definition safe_of (r : run) (w : nat) : Prop := strict r -> settled r w.

(** The epoch has its barrier, or it was recycled. *)
Definition shut (e : bsr_epoch) : Prop := HAVE e = negb (epoch_size e =? 0).

(** What the receiver thread can rely on, by where it is. *)
Definition pc_ok (r : run) (pc : rcv_pc) (olds : list bsr_epoch) (cur : bsr_epoch) (g : list nat) : Prop :=
  match pc with
  | R_idle => HAVE cur = false /\ (strict r -> DONE cur = false)
  | R_window _ _ _ rv => olds = [] /\ rv = FE_STILL_LIVE
  | R_issue | R_drain => shut cur /\ (strict r -> HAVE cur = true /\ DONE cur = false)
  | R_flushed => shut cur /\ (strict r -> HAVE cur = true /\ DONE cur = false) /\ Forall (safe_of r) g
  | R_alloc => shut cur /\ (HAVE cur = true -> ready (write_ordering (rn_conn r)) cur) /\ (strict r -> HAVE cur = false -> DONE cur = false)
  | R_nomem_drain | R_nomem_flushed => shut cur /\ rn_nomem r = true
  | R_nomem_wait => shut cur /\ (HAVE cur = true -> ready (write_ordering (rn_conn r)) cur) /\ rn_nomem r = true
  end.

Definition pc_inv (r : run) (gs : list (list nat)) : Prop :=
  forall olds cur gs' g, ec_list (rn_conn r) = olds ++ [cur] -> gs = gs' ++ [g] -> pc_ok r (rn_rcv r) olds cur g.

Definition ack_window (r : run) : option (nat * Z) := match rn_ack r with Some (a, s, _) => Some (a, s) | None => None end.
Definition is_window (pc : rcv_pc) : bool := match pc with R_window _ _ _ _ => true | _ => false end.
Definition window (r : run) : option (nat * Z) :=
  match rn_rcv r with R_window _ a s _ => Some (a, s) | _ => ack_window r end.

(** The stream, the acks and the groups; [l] are the epochs. *)
Record ep_rest (r : run) (l : list bsr_epoch) (gs : list (list nat)) (acked : list (Z * list nat)) : Prop := mk_ep_rest {
  eb_groups : groups (rn_recv r) = (acked ++ closed l gs, opened l gs);
  eb_acks : rn_acks r = map ack_of acked;
  eb_acked : Forall (fun g => Forall (safe_of r) g.2) acked;
  eb_sent : exists rest, rn_sent r = rn_recv r ++ rest;
  eb_sender : sender_ok (rn_send r) (rn_sent r) (rn_next r);
  eb_stable : Forall (fun w => w ∈ data_ids (rn_recv r)) (rn_stable r) }.

Record ep_inv (r : run) (gs : list (list nat)) (acked : list (Z * list nat)) : Prop := mk_ep_inv {
  ei_core : core (safe_of r) (rn_conn r) gs (rn_writes r) (window r);
  ei_rest : ep_rest r (ec_list (rn_conn r)) gs acked;
  ei_pc : pc_inv r gs;
  ei_one : is_window (rn_rcv r) = true -> rn_ack r = None }.

Definition ep_ok (r : run) : Prop := exists gs acked, ep_inv r gs acked.

(** The current epoch and its group. *)
Lemma core_shape safe c gs ws win : core safe c gs ws win -> exists olds cur gs' g, ec_list c = olds ++ [cur] /\ gs = gs' ++ [g] /\
  length olds = length gs' /\ Forall (ready (write_ordering c)) olds /\ local safe ws cur g.
Proof.
  intros [K _]. pose proof (co_local _ _ _ _ _ K) as L. destruct (co_old _ _ _ _ _ K) as (olds & cur & El & F). rewrite El in L.
  apply Forall2_app_inv_l in L as (g1 & g2 & L1 & L2 & ->). apply Forall2_cons_inv_l in L2 as (g & g3 & L2 & L3 & ->). apply Forall2_nil_inv_l in L3 as ->.
  exists olds, cur, g1, g. split_and!; try done. by apply Forall2_length in L1.
Qed.

(** [pc_ok] for the epochs there are. *)
Lemma pc_inv_of r olds cur gs' g : ec_list (rn_conn r) = olds ++ [cur] -> pc_ok r (rn_rcv r) olds cur g -> pc_inv r (gs' ++ [g]).
Proof. intros E H o q gs2 g2 E1 E2. rewrite E in E1. apply app_inj_tail in E1 as [<- <-]. apply app_inj_tail in E2 as [<- <-]. done. Qed.

Lemma start_inv wo : wo <> WO_BIO_BARRIER -> ep_inv (start wo) [[]] [].
Proof.
  intros Hwo. split; [| |apply (pc_inv_of _ [] (mk_epoch 0 0 0 0 0) [] []); done|done].
  - split; [|done]. split; cbn; try done.
    + apply NoDup_singleton.
    + by apply Forall_singleton, Nat.lt_0_1.
    + constructor; [|done]. split; try done. intros w Hw. by apply not_elem_of_nil in Hw.
    + by exists [], (mk_epoch 0 0 0 0 0).
    + by apply Forall_singleton.
  - split; cbn; try done; [by exists []|apply sender_start].
Qed.

(** ** The sender *)

Lemma send_inv r gs acked s ps n : ep_inv r gs acked -> sender_ok s (rn_sent r ++ ps) n -> ep_inv (sends (s, ps) n r) gs acked.
Proof.
  intros [C [B2 B3 B4 [rest B5] B6 B7] P O] K. split; [exact C| |exact P|exact O]. split; try done. cbn. exists (rest ++ ps). by rewrite B5, <- app_assoc.
Qed.

(** ** The receiver *)

(** Steps that change neither what is safe nor the streams nor the numbers of the epochs. *)
Record same_safety (r r' : run) : Prop := mk_same_safety {
  ss_stable : rn_stable r' = rn_stable r; ss_refused : rn_refused r' = rn_refused r;
  ss_nomem : rn_nomem r' = rn_nomem r; ss_wo : write_ordering (rn_conn r') = write_ordering (rn_conn r);
  ss_superseded : rn_superseded r' = rn_superseded r; ss_ignored : rn_ignored r' = rn_ignored r }.

Record same_stream (r r' : run) : Prop := mk_same_stream {
  ss_recv : rn_recv r' = rn_recv r; ss_acks : rn_acks r' = rn_acks r; ss_sent : rn_sent r' = rn_sent r; ss_send : rn_send r' = rn_send r;
  ss_next : rn_next r' = rn_next r }.

Lemma same_safe r r' w : same_safety r r' -> safe_of r w -> safe_of r' w.
Proof. intros [S6 S7 S8 S9 S10 S11] H (H1 & H2 & H3). unfold settled. rewrite S6, S7, S10. apply H. split_and!; congruence. Qed.

Lemma same_rest r r' l l' gs acked : same_safety r r' -> same_stream r r' -> view l' gs = view l gs -> ep_rest r l gs acked -> ep_rest r' l' gs acked.
Proof.
  intros SS S V [B2 B3 B4 B5 B6 B7]. pose proof S as [S1 S2 S3 S4 S5]. injection V as V1 V2.
  split; rewrite ?S1, ?S2, ?S3, ?S4, ?S5, ?(ss_stable _ _ SS), ?V1, ?V2; try done. eapply Forall_impl; [exact B4|]. intros g Hg. eapply Forall_impl; [exact Hg|].
  intros w. by apply same_safe.
Qed.

Lemma set_current_at c olds e f : NoDup (map ep_addr (ec_list c)) -> ec_list c = olds ++ [e] -> set_current f c = set_list (olds ++ [f e]) c.
Proof. intros Hn El. unfold set_current, current_epoch. rewrite El in *. rewrite last_snoc. by rewrite upd_at. Qed.

(** A section of the receiver, on the current epoch [cur] that becomes [e']: with [rn_conn r] the connection before the event. *)
Lemma section_rcv k r olds cur gs g acked ev e' : core (safe_of r) (rn_conn r) (gs ++ [g]) (rn_writes r) (ack_window r) ->
  ec_list (rn_conn r) = olds ++ [cur] -> length olds = length gs ->
  e' = event_effect (write_ordering (rn_conn r)) (is_current (ep_addr cur) (ec_list (rn_conn r))) ev cur -> flags_grow cur e' ->
  (DONE e' = true -> DONE cur = true \/ Forall (safe_of r) g) -> ep_rest r (olds ++ [e']) (gs ++ [g]) acked ->
  shut e' ->
  match k with
  | K_got => HAVE e' = true /\ DONE e' = DONE cur /\ (strict r -> DONE cur = false)
  | K_done => DONE e' = true /\ (strict r -> HAVE e' = true)
  | K_nomem => DONE e' = true /\ rn_nomem r = true
  end ->
  exists res, section_of (rn_conn r) (ep_addr cur) ev = Some res /\ ep_inv (rcv_after k res r) (gs ++ [g]) acked.
Proof.
  intros C El Hlen Ee F HD R Hs Hk. assert (HAVE e' = true -> epoch_size e' <> 0) as Hz.
  { intros Hh. unfold shut in Hs. rewrite Hh in Hs. by destruct (Z.eqb_spec (epoch_size e') 0). }
  destruct (rcv_event (safe_of r) (rn_conn r) olds cur gs g (rn_writes r) (ack_window r) ev e' FE_STILL_LIVE C El Hlen Ee F HD) as [[S1 S2]|(W & -> & S1 & S2)].
  - eexists. split; [exact S1|]. cbn [rcv_after]. set (c1 := set_list (olds ++ [e']) (rn_conn r)) in *.
    assert (forall pc, is_window pc = false -> pc_ok r pc olds e' g -> ep_inv (with_rcv pc (with_conn c1 r)) (gs ++ [g]) acked) as Hfin.
    { intros pc Hw Hpc. split.
      - replace (window _) with (ack_window r) by (by destruct pc). exact S2.
      - by apply (same_rest r _ (olds ++ [e'])).
      - by apply (pc_inv_of _ olds e').
      - cbn. by rewrite Hw. }
    change (write_ordering c1) with (write_ordering (rn_conn r)). destruct k; cbn [receive_Barrier_next].
    + destruct Hk as (Hh & Hk1 & Hk2).
      assert (ep_inv (with_rcv R_issue (with_conn c1 r)) (gs ++ [g]) acked) as Hissue by (apply Hfin; [done|]; cbn [pc_ok]; rewrite Hk1; auto).
      destruct (write_ordering (rn_conn r)) eqn:Hwo; [|exact Hissue|exact Hissue|by destruct (co_wo _ _ _ _ _ (proj1 C))].
      apply Hfin; [done|]. cbn [pc_ok]. split_and!; [done| |by rewrite Hh]. intros _. rewrite Hwo. split_and!; auto.
    + destruct Hk as [Hd Hk]. apply Hfin; [done|]. cbn [pc_ok]. split_and!; auto; [intros Hh; split_and!; auto|]. intros Hst. by rewrite Hk.
    + destruct Hk. apply Hfin; [done|]. cbn [pc_ok]. split_and!; auto. intros Hh. split_and!; auto.
  - eexists. split; [exact S1|]. cbn [rcv_after]. split.
    + exact S2.
    + apply (same_rest r _ [e']); [done|done|apply (view_same [] e' _ []); by rewrite ?test_eset|done].
    + apply (pc_inv_of _ [] (eset DE_IS_FINISHING e')); done.
    + intros _. cbn. unfold ack_window in W. by destruct (rn_ack r) as [[[? ?] ?]|].
Qed.

Lemma rcv_after_conn k res c r : rcv_after k res (with_conn c r) = rcv_after k res r.
Proof. by destruct res as [[]]. Qed.

(** The next packet. *)
Lemma take_packet r l gs acked p : ep_rest r l gs acked -> next_packet r = Some p -> exists rest, rn_sent r = (rn_recv r ++ [p]) ++ rest.
Proof.
  intros [_ _ _ [rest E] _ _] H. unfold next_packet in H. rewrite E in H. rewrite lookup_app_r, Nat.sub_diag in H by lia. destruct rest as [|q rest]; [done|].
  injection H as ->. exists rest. by rewrite E, <- app_assoc.
Qed.

(** The groups while the current epoch is open. *)
Lemma open_groups r wo olds cur gs g acked : length olds = length gs -> Forall (ready wo) olds -> HAVE cur = false -> ep_rest r (olds ++ [cur]) (gs ++ [g]) acked ->
  groups (rn_recv r) = (acked ++ closed olds gs, g).
Proof.
  intros Hlen Fo Hh R. pose proof (eb_groups _ _ _ _ R) as Hg. pose proof (view_cur _ olds cur gs g Hlen Fo) as V. unfold closed1, open1 in V. cbn [fst snd] in V.
  rewrite Hh in V. injection V as V1 V2. by rewrite V1, V2, app_nil_r in Hg.
Qed.

(** [receive_Barrier] *)
Lemma barrier_keep r gs acked nr : ep_inv r gs acked -> rn_rcv r = R_idle -> next_packet r = Some (P_BARRIER nr) ->
  exists a c res, barrier_number nr (rn_conn r) = Some (a, c) /\ section_of c a EV_GOT_BARRIER_NR = Some res /\
    ep_inv (rcv_after K_got res (takes (P_BARRIER nr) r)) gs acked.
Proof.
  intros [C R P _] Hpc Hp. destruct (core_shape _ _ _ _ _ C) as (olds & cur & gs' & g & El & -> & Hlen & Fo & L).
  specialize (P olds cur gs' g El eq_refl). rewrite Hpc in P. destruct P as [Hh Hd]. unfold window in C. rewrite Hpc in C.
  destruct (take_packet _ _ _ _ _ R Hp) as [rest Es]. set (cur1 := set_barrier_nr nr cur). set (c := set_list (olds ++ [cur1]) (rn_conn r)).
  assert (barrier_number nr (rn_conn r) = Some (ep_addr cur, c)) as Hb.
  { pose proof (co_addr _ _ _ _ _ (proj1 C)) as Hn. unfold barrier_number, current_epoch. rewrite El in *. rewrite last_snoc. cbn [mbind option_bind].
    by rewrite upd_at. }
  set (r1 := with_conn c (takes (P_BARRIER nr) r)).
  assert (event_effect (write_ordering c) (is_current (ep_addr cur1) (ec_list c)) EV_GOT_BARRIER_NR cur1 = eset DE_HAVE_BARRIER_NUMBER cur1) as Ee.
  { cbn [event_effect]. rewrite test_eset by done. destruct L as [_ _ L3 _ _]. change (etest cur1 DE_CONTAINS_A_BARRIER) with (etest cur DE_CONTAINS_A_BARRIER).
    by rewrite L3. }
  assert (groups (rn_recv r ++ [P_BARRIER nr]) = (acked ++ closed olds gs' ++ [(nr, g)], [])) as Hg.
  { rewrite El in R. rewrite groups_snoc, (open_groups _ _ _ _ _ _ _ Hlen Fo Hh R). cbn. by rewrite <- app_assoc. }
  assert (g <> []) as Hne.
  { pose proof (so_full _ _ _ (eb_sender _ _ _ _ R)) as Hf. rewrite Es in Hf. destruct (groups_grow (rn_recv r ++ [P_BARRIER nr]) rest) as [more E]. rewrite E, Hg in Hf.
    cbn in Hf. rewrite !Forall_app in Hf. destruct Hf as [(_ & _ & Hf) _]. by apply Forall_cons in Hf as [Hf _]. }
  destruct (section_rcv K_got r1 olds cur1 gs' g acked EV_GOT_BARRIER_NR (eset DE_HAVE_BARRIER_NUMBER cur1)) as (res & S1 & S2); try done.
  - apply (tweak_core _ (rn_conn r) _ _ olds cur); done.
  - by apply grow_eset.
  - rewrite test_eset by done. auto.
  - destruct R as [_ B3 B4 _ B6 B7]. split; try done.
    + cbn. pose proof (view_cur _ olds (eset DE_HAVE_BARRIER_NUMBER cur1) gs' g Hlen Fo) as V. unfold closed1, open1 in V. cbn [fst snd] in V. rewrite test_eset in V by done.
      cbn [Z.eqb DE_HAVE_BARRIER_NUMBER Pos.eqb orb] in V. injection V as -> ->. exact Hg.
    + by exists rest.
    + cbn. eapply Forall_impl; [exact B7|]. cbn. intros w Hw. rewrite data_ids_app. apply elem_of_app. by left.
  - unfold shut. rewrite test_eset by done. destruct L as [L1 _ _ _ _]. cbn. destruct g; [done|]. by rewrite L1.
  - split; [by rewrite test_eset|]. split; [by rewrite test_eset|exact Hd].
  - exists (ep_addr cur), c, res. split; [done|]. split; [done|]. by rewrite <- (rcv_after_conn _ _ c).
Qed.

(** [bsr_flush_after_epoch], after the flush. *)
Lemma flushed_keep k r gs acked : ep_inv r gs acked -> k = K_done /\ rn_rcv r = R_flushed \/ k = K_nomem /\ rn_rcv r = R_nomem_flushed ->
  exists e res, current_epoch (rn_conn r) = Some e /\ section_of (rn_conn r) (ep_addr e) EV_BARRIER_DONE = Some res /\ ep_inv (rcv_after k res r) gs acked.
Proof.
  intros [C R P _] Hk. destruct (core_shape _ _ _ _ _ C) as (olds & cur & gs' & g & El & -> & Hlen & Fo & L).
  specialize (P olds cur gs' g El eq_refl). exists cur. assert (window r = ack_window r) as Hw by (unfold window; destruct Hk as [[_ ->] | [_ ->]]; done).
  rewrite Hw in C. pose proof (test_eset DE_BARRIER_IN_NEXT_EPOCH_DONE cur DE_HAVE_BARRIER_NUMBER ltac:(done)) as Hh. cbn [Z.eqb orb DE_BARRIER_IN_NEXT_EPOCH_DONE DE_HAVE_BARRIER_NUMBER Pos.eqb] in Hh.
  destruct (section_rcv k r olds cur gs' g acked EV_BARRIER_DONE (eset DE_BARRIER_IN_NEXT_EPOCH_DONE cur)) as (res & S1 & S2); try done.
  - by apply grow_eset.
  - intros _. right. destruct Hk as [[_ E] | [_ E]]; rewrite E in P; [apply P|]. destruct P as [_ Hn]. apply Forall_forall. intros w _ (_ & Hn' & _). congruence.
  - rewrite El in R. apply (same_rest r _ (olds ++ [cur])); [done|done|by apply view_same|done].
  - unfold shut. rewrite Hh. destruct Hk as [[_ E] | [_ E]]; rewrite E in P; apply P.
  - destruct Hk as [[-> E] | [-> E]]; rewrite E in P; (split; [by rewrite test_eset|]); [|apply P]. rewrite Hh. intros Hst. by apply P.
  - exists res. split; [|done]. unfold current_epoch. by rewrite El, last_snoc.
Qed.

End EpochKeep.
