(* ===== verification/EpochSteps.v ===== *)
(** * Steps of the receiver and the ack sender (src/bsr/bsr_receiver.c)

    The steps other than the critical sections of [receive_Barrier] can be
    taken where they are due, and keep the invariant. *)

From S2P Require Import Prelude Epoch EpochRun EpochInv EpochEvents EpochGroups EpochKeep.

Module EpochSteps.
Import Epoch EpochRun EpochInv EpochEvents EpochGroups EpochKeep.

(** ** Acks *)

(** The oldest epoch is acked. *)
Lemma rest_ack r e l g gs acked c ws win : ep_rest r (e :: l) (g :: gs) acked -> core (safe_of r) c (g :: gs) ws win -> ec_list c = e :: l ->
  write_ordering c = write_ordering (rn_conn r) -> ready (write_ordering c) e -> ep_rest (acks (barrier_nr e, epoch_size e) r) l gs (acked ++ [(barrier_nr e, g)]).
Proof.
  intros [B2 B3 B4 B5 B6 B7] [K _] El Hwo (Hh & _ & Hr). pose proof (co_local _ _ _ _ _ K) as L. rewrite El in L. apply Forall2_cons in L as [[L1 _ _ _ L5] _].
  split; try done.
  - change (rn_recv (acks (barrier_nr e, epoch_size e) r)) with (rn_recv r). rewrite B2. change (closed (e :: l) (g :: gs)) with (closed1 (e, g) ++ closed l gs).
    change (opened (e :: l) (g :: gs)) with (open1 (e, g) ++ opened l gs). unfold closed1, open1. cbn [fst snd]. rewrite Hh. by rewrite <- app_assoc.
  - cbn. rewrite B3, map_app. cbn. unfold ack_of. cbn. by rewrite L1.
  - apply Forall_app. split; [done|]. constructor; [|done]. apply Forall_forall. intros w Hw Hst. cbn in Hw.
    assert (DONE e = true) as Hd by (destruct Hr as [|Hr]; [done|]; destruct Hst as [Hst _]; cbn in Hst; congruence).
    specialize (L5 Hd). rewrite Forall_forall in L5. by apply L5.
Qed.

(** The parts of [resume_core] that runs need. *)
Lemma resume_ready safe c gs ws a s e l : core safe c gs ws (Some (a, s)) -> ec_list c = e :: l -> ready (write_ordering c) e /\ epoch_size e = s /\ ep_addr e = a.
Proof. intros [K _] El. destruct (co_fin _ _ _ _ _ K) as (x & l' & Ex & X1 & X2 & X3 & X4 & X5 & X6). rewrite El in Ex. by injection Ex as <- <-. Qed.

(** The receiver thread sends the ack: the epoch is recycled. *)
Lemma rcv_ack_keep r gs acked k a size rv : ep_inv r gs acked -> rn_rcv r = R_window k a size rv ->
  exists e res, get_epoch a (ec_list (rn_conn r)) = Some e /\ epoch_resume (rn_conn r) a rv = Some res /\
    ep_ok (rcv_after k res (acks (barrier_nr e, size) r)) /\ rn_rcv (rcv_after k res (acks (barrier_nr e, size) r)) = R_idle.
Proof.
  intros [C R P O] Hpc. unfold window in C. rewrite Hpc in C. destruct (core_shape _ _ _ _ _ C) as (olds & cur & gs' & g & El & -> & Hlen & _ & _).
  specialize (P olds cur gs' g El eq_refl). rewrite Hpc in P. destruct P as [-> ->]. destruct gs' as [|? ?]; [|done]. cbn [app] in *.
  destruct (resume_core _ _ _ _ _ _ FE_STILL_LIVE C) as (e & l & g0 & gl & El' & Eg & G & Es & Hh & Hres). rewrite El in El'. injection El' as <- <-. injection Eg as <- <-.
  destruct Hres as (_ & c' & Er & C' & Ec). destruct (resume_ready _ _ _ _ _ _ _ _ C El) as (Hrd & <- & _). exists cur, (SE_done (worse FE_STILL_LIVE FE_RECYCLED) None, c').
  split; [done|]. split; [done|]. rewrite El in R. pose proof (rest_ack _ _ _ _ _ _ _ _ _ R C El eq_refl Hrd) as R'.
  assert (rcv_after k (SE_done (worse FE_STILL_LIVE FE_RECYCLED) None, c') (acks (barrier_nr cur, epoch_size cur) r) =
    with_rcv R_idle (with_conn c' (acks (barrier_nr cur, epoch_size cur) r))) as ->.
  { cbn [rcv_after]. replace (receive_Barrier_next k _ _) with R_idle; [done|]. destruct k; cbn; [by destruct (write_ordering c')|done|done]. }
  split; [|done]. exists [[]], (acked ++ [(barrier_nr cur, g)]).
  assert (write_ordering c' = write_ordering (rn_conn r)) as Hwo by (by rewrite Ec). specialize (O ltac:(by rewrite Hpc)). split.
  - unfold window, ack_window. cbn. rewrite O. apply (core_mono (safe_of r)); [|done]. intros w. unfold safe_of, strict. cbn. by rewrite Hwo.
  - apply (same_rest (acks (barrier_nr cur, epoch_size cur) r) _ []); [by split; cbn|done|by rewrite Ec|]. destruct R'. by split.
  - apply (pc_inv_of _ [] (set_size 0 (set_eflags 0 cur)) [] []); [by rewrite Ec|done].
  - done.
Qed.

(** An epoch that changes in its references only. *)
Lemma pc_same r r' pc olds olds' cur cur' g : same_safety r r' -> is_window pc = false -> HAVE cur' = HAVE cur -> DONE cur' = DONE cur -> epoch_size cur' = epoch_size cur ->
  pc_ok r pc olds cur g -> pc_ok r' pc olds' cur' g.
Proof.
  intros S Hw H1 H2 H3 P. pose proof S as [_ _ S8 S9 _ S11]. assert (strict r' -> strict r) as Hst by (unfold strict; rewrite S8, S9, S11; done).
  assert (ready (write_ordering (rn_conn r)) cur -> ready (write_ordering (rn_conn r')) cur') as Hr by (unfold ready; rewrite S9, H1, H2, H3; done).
  destruct pc; try done; cbn [pc_ok] in *; unfold shut in *; rewrite ?H1, ?H2, ?H3, ?S8.
  - tauto.
  - tauto.
  - tauto.
  - destruct P as (P1 & P2 & P3). split_and!; [done|auto|]. eapply Forall_impl; [exact P3|]. intros w. by apply same_safe.
  - tauto.
  - tauto.
  - tauto.
  - tauto.
Qed.

(** An epoch that is recycled by the ack sender. *)
Lemma pc_recycled r r' pc olds cur g : same_safety r r' -> is_window pc = false -> ready (write_ordering (rn_conn r)) cur -> pc_ok r pc olds cur g ->
  pc_ok r' pc [] (set_size 0 (set_eflags 0 cur)) [].
Proof.
  intros S Hw (R1 & R2 & R3) P. pose proof S as [_ _ S8 S9 _ S11].
  assert (strict r' -> DONE cur = true) as Hst by (unfold strict; rewrite S9; intros [? _]; destruct R3; [done|congruence]).
  assert (strict r' -> strict r) as Hst' by (unfold strict; rewrite S8, S9, S11; done).
  set (e := set_size 0 _). assert (HAVE e = false) as E1 by done. assert (DONE e = false) as E2 by done. assert (shut e) as E3 by done. clearbody e.
  destruct pc; try done; cbn [pc_ok] in *; rewrite ?S8, ?E1, ?E2; try (intuition congruence).
  destruct P as (_ & P & _). split_and!; [done|intuition congruence|constructor].
Qed.

(** ** The ack sender *)

(** [pre] are epochs that go, with [gp] their groups. *)
Lemma pc_put r r' pre gp l1 e e' l2 gs : same_safety r r' -> rn_rcv r' = rn_rcv r -> ec_list (rn_conn r) = pre ++ l1 ++ e :: l2 -> ec_list (rn_conn r') = l1 ++ e' :: l2 ->
  HAVE e' = HAVE e -> DONE e' = DONE e -> epoch_size e' = epoch_size e -> pc_inv r (gp ++ gs) -> pc_inv r' gs.
Proof.
  intros S Epc El El' H1 H2 H3 P olds cur gs' g E Eg. rewrite El' in E. rewrite Epc. rewrite Eg, app_assoc in P.
  assert (exists olds0 cur0, ec_list (rn_conn r) = (pre ++ olds0) ++ [cur0] /\ length olds0 = length olds /\ HAVE cur = HAVE cur0 /\ DONE cur = DONE cur0 /\ epoch_size cur = epoch_size cur0)
    as (olds0 & cur0 & E0 & Hl & X1 & X2 & X3).
  { rewrite El. destruct l2 as [|x l2] using rev_ind.
    - apply app_inj_tail in E as [<- <-]. exists l1, e. by rewrite app_assoc.
    - rewrite app_comm_cons, app_assoc in E. apply app_inj_tail in E as [<- <-]. exists (l1 ++ e :: l2), x. rewrite !length_app. cbn. split; [|done]. by rewrite <- !app_assoc. }
  specialize (P _ _ _ _ E0 eq_refl). destruct (is_window (rn_rcv r)) eqn:Hw; [|by apply (pc_same r r' _ (pre ++ olds0) olds cur0)].
  destruct (rn_rcv r); try done. destruct P as [P ->]. split; [|done]. apply app_nil in P as [_ ->]. by destruct olds.
Qed.

Lemma put_keep r gs acked i w : ep_inv r gs acked -> rn_ack r = None -> rn_writes r !! i = Some w ->
  exists res, section_of (rn_conn r) (pw_epoch w) EV_PUT = Some res /\ ep_inv (ack_after res (with_writes (delete i (rn_writes r)) r)) gs acked.
Proof.
  intros [C R P O] Ha Hw. destruct (put_event _ _ _ _ _ i w C Hw) as (l1 & e & l2 & El & Ee & H). cbn zeta in H. set (e' := set_active _ e) in H. rewrite El in R.
  destruct H as [[S1 S2]|(W & -> & S1 & S2)]; eexists; (split; [exact S1|]); cbn [ack_after].
  - split.
    + replace (window _) with (window r); [exact S2|]. unfold window, ack_window. cbn. by rewrite Ha.
    + apply (same_rest r _ (l1 ++ e :: l2)); [done|done|by apply view_same|done].
    + by apply (pc_put r _ [] [] l1 e e' l2).
    + done.
  - assert (is_window (rn_rcv r) = false) as Hnw by (unfold window in W; by destruct (rn_rcv r)). split.
    + replace (window _) with (Some (ep_addr e, epoch_size e)); [exact S2|]. unfold window, ack_window. cbn. by destruct (rn_rcv r).
    + apply (same_rest r _ ([] ++ e :: l2)); [done|done|apply (view_same [] e); by rewrite ?test_eset|done].
    + apply (pc_put r _ [] [] [] e (eset DE_IS_FINISHING e') l2); try done; by rewrite test_eset.
    + cbn. by rewrite Hnw.
Qed.

(** The ack sender sends a barrier ack, and looks at the next epoch. *)
Lemma ack_ack_keep r gs acked a size rv : ep_inv r gs acked -> rn_ack r = Some (a, size, rv) ->
  exists e res, get_epoch a (ec_list (rn_conn r)) = Some e /\ epoch_resume (rn_conn r) a rv = Some res /\
    let r' := ack_after res (acks (barrier_nr e, size) r) in ep_ok r' /\ (rn_ack r' = None \/ (length (ec_list (rn_conn r')) < length (ec_list (rn_conn r)))%nat).
Proof.
  intros [C R P O] Ha. assert (is_window (rn_rcv r) = false) as Hnw by (destruct (is_window (rn_rcv r)); [by rewrite O in Ha|done]).
  assert (forall x, window (with_ack x r) = match x with Some (a, s, _) => Some (a, s) | None => None end) as Hwin by (intros x; unfold window, ack_window; cbn; by destruct (rn_rcv r)).
  assert (window r = Some (a, size)) as Ew by (unfold window, ack_window; rewrite Ha; by destruct (rn_rcv r)). rewrite Ew in C.
  destruct (resume_core _ _ _ _ _ _ rv C) as (e & l & g & gl & El & -> & G & Es & _ & Hres). destruct (resume_ready _ _ _ _ _ _ _ _ C El) as (Hrd & _ & _).
  exists e. rewrite El in R. pose proof (rest_ack _ _ _ _ _ _ _ _ _ R C El eq_refl Hrd) as R'. rewrite Es in R'. set (r1 := acks (barrier_nr e, size) r) in *.
  assert (forall c' x, write_ordering c' = write_ordering (rn_conn r) -> same_safety r1 (with_ack x (with_conn c' r1))) as Hss by done.
  assert (forall c' gs' ws win x, write_ordering c' = write_ordering (rn_conn r) -> core (safe_of r) c' gs' ws win -> core (safe_of (with_ack x (with_conn c' r1))) c' gs' ws win) as Hcore.
  { intros c' gs' ws win x Hwo. apply core_mono. intros w. apply (same_safe r). by split; cbn. }
  destruct l as [|n l'].
  - destruct Hres as (-> & c' & Er & C' & Ec). eexists. do 2 (split; [done|]). cbn zeta. cbn [ack_after]. split; [|by left]. exists [[]], (acked ++ [(barrier_nr e, g)]). split.
    + change (window _) with (window (with_ack None r)). rewrite Hwin. apply Hcore; [by rewrite Ec|done].
    + apply (same_rest r1 _ []); [apply Hss; by rewrite Ec|done|by rewrite Ec|]. destruct R'. by split.
    + apply (pc_inv_of _ [] (set_size 0 (set_eflags 0 e)) [] []); [by rewrite Ec|]. apply (pc_recycled r1 _ _ [] e g); [apply Hss; by rewrite Ec|done|done|].
      specialize (P [] e [] g El eq_refl). by apply (pc_same r r1 _ [] [] e e).
    + done.
  - destruct Hres as (c' & _ & Hwo & [(Er & C' & Ec)|(Er & C' & Ec)]); eexists; (do 2 (split; [done|])); cbn zeta; cbn [ack_after];
      (split; [|first [by left|right; cbn; rewrite Ec, El; cbn; lia]]); exists gl, (acked ++ [(barrier_nr e, g)]); split.
    + change (window _) with (window (with_ack None r)). rewrite Hwin. by apply Hcore.
    + apply (same_rest r1 _ (n :: l')); [by apply Hss|done|by cbn [with_ack with_conn rn_conn]; rewrite Ec|done].
    + by apply (pc_put r _ [e] [g] [] n n l').
    + done.
    + change (window _) with (window (with_ack (Some (ep_addr n, epoch_size n, worse rv FE_DESTROYED)) r)). rewrite Hwin. by apply Hcore.
    + apply (same_rest r1 _ (n :: l')); [by apply Hss|done| |done]. cbn [with_ack with_conn rn_conn]. rewrite Ec. apply (view_same [] n); by rewrite ?test_eset.
    + apply (pc_put r _ [e] [g] [] n (eset DE_IS_FINISHING n) l'); try done; by rewrite test_eset.
    + cbn. by rewrite Hnw.
Qed.

(** A write completes. *)
Lemma complete_keep r gs acked i w : ep_inv r gs acked -> rn_writes r !! i = Some w ->
  ep_inv (with_writes (<[i := mk_pw (pw_id w) (pw_epoch w) true]> (rn_writes r)) r) gs acked.
Proof.
  intros [C R P O] Hw. split; [|by apply (same_rest r _ (ec_list (rn_conn r)))|exact P|exact O]. apply (same_writes_core _ _ _ (rn_writes r)); [..|exact C].
  - cbn [with_writes rn_writes]. change (map pw_epoch) with (fmap (M := list) pw_epoch). rewrite list_fmap_insert. apply list_insert_id. by rewrite list_lookup_fmap, Hw.
  - cbn [with_writes rn_writes]. change (map pw_id) with (fmap (M := list) pw_id). rewrite list_fmap_insert. apply list_insert_id. by rewrite list_lookup_fmap, Hw.
Qed.

(** ** Writes *)

Lemma enter_keep r gs acked w epoch olds cur new refused sup : ep_inv r gs acked -> rn_rcv r = R_idle -> next_packet r = Some (P_DATA w epoch) ->
  ec_list (rn_conn r) = olds ++ [cur] -> Forall (fun x => pw_id x = w /\ pw_epoch x = ep_addr cur) new -> (forall x, x ∈ rn_refused r -> x ∈ refused) ->
  (forall x, x ∈ rn_superseded r -> x ∈ sup) ->
  ep_ok (mk_run (set_list (olds ++ [set_active (active cur + Z.of_nat (length new)) (set_size (epoch_size cur + 1) cur)]) (rn_conn r)) (rn_rcv r) (rn_ack r) (rn_send r)
    (rn_sent r) (rn_recv r ++ [P_DATA w epoch]) (rn_writes r ++ new) (rn_acks r) (rn_next r) refused (rn_stable r) (rn_nomem r) sup (rn_ignored r)).
Proof.
  intros [C R P O] Hpc Hp El Hnew Href Hsup. destruct (core_shape _ _ _ _ _ C) as (o & q & gs' & g & E & -> & Hlen & Fo & L). rewrite El in E. apply app_inj_tail in E as [<- <-].
  specialize (P olds cur gs' g El eq_refl). rewrite Hpc in P. destruct P as [Hh Hd]. destruct (take_packet _ _ _ _ _ R Hp) as [rest Es].
  rewrite El in R. pose proof (open_groups _ _ _ _ _ _ _ Hlen Fo Hh R) as Hg. set (r' := mk_run _ _ _ _ _ _ _ _ _ _ _ _ _ _). set (cur' := set_active _ _) in r'.
  assert (forall x, safe_of r x -> safe_of r' x) as Hsafe by (intros x H Hst; destruct (H Hst) as [|[|]]; [by left|right; left; by apply Href|right; right; by apply Hsup]).
  exists (gs' ++ [g ++ [w]]), acked. split.
  - apply (core_mono (safe_of r)); [done|]. change (window r') with (window r). apply (enter_core _ _ olds cur); try done. intros HD Hst. by rewrite (Hd Hst) in HD.
  - destruct R as [_ B3 B4 _ B6 B7]. split; try done.
    + change (groups (rn_recv r ++ [P_DATA w epoch]) = (acked ++ closed (olds ++ [cur']) (gs' ++ [g ++ [w]]), opened (olds ++ [cur']) (gs' ++ [g ++ [w]]))).
      pose proof (view_cur _ olds cur' gs' (g ++ [w]) Hlen Fo) as V. unfold closed1, open1 in V. cbn [fst snd] in V. change (HAVE cur') with (HAVE cur) in V.
      rewrite Hh in V. injection V as -> ->. rewrite groups_snoc, Hg. cbn. by rewrite app_nil_r.
    + eapply Forall_impl; [exact B4|]. intros x Hx. eapply Forall_impl; [exact Hx|]. auto.
    + by exists rest.
    + eapply Forall_impl; [exact B7|]. intros x Hx. cbn. rewrite data_ids_app. apply elem_of_app. by left.
  - apply (pc_inv_of _ olds cur'); [done|]. cbn [r' rn_rcv]. rewrite Hpc. done.
  - exact O.
Qed.

Lemma data_keep r gs acked w epoch : ep_inv r gs acked -> rn_rcv r = R_idle -> next_packet r = Some (P_DATA w epoch) ->
  exists a b c, join_epoch (rn_conn r) = Some (a, b, c) /\
    ep_ok (with_writes (rn_writes r ++ [mk_pw w a false]) (takes (P_DATA w epoch) (with_conn c r))) /\
    ep_ok (supersedes w (with_writes (rn_writes r ++ [mk_pw w a false]) (takes (P_DATA w epoch) (with_conn c r)))).
Proof.
  intros I Hpc Hp. pose proof (ei_core _ _ _ I) as C. destruct (core_shape _ _ _ _ _ C) as (olds & cur & gs' & g & El & _).
  pose proof (enter_keep r gs acked w epoch olds cur [mk_pw w (ep_addr cur) false] (rn_refused r)) as K.
  eexists _, _, _. split; [|split; [exact (K (rn_superseded r) I Hpc Hp El ltac:(by constructor) ltac:(done) ltac:(done))|
    exact (K (w :: rn_superseded r) I Hpc Hp El ltac:(by constructor) ltac:(done) ltac:(intros; by right))]]. pose proof (co_addr _ _ _ _ _ (proj1 C)) as Hn. unfold join_epoch, current_epoch. rewrite El in *. rewrite last_snoc. cbn [mbind option_bind].
  rewrite upd_at, (bool_decide_eq_false_2 _ (co_wo _ _ _ _ _ (proj1 C))) by done. done.
Qed.

Lemma refused_keep r gs acked w epoch : ep_inv r gs acked -> rn_rcv r = R_idle -> next_packet r = Some (P_DATA w epoch) ->
  exists c, count_refused (rn_conn r) = Some c /\ ep_ok (refuses w (takes (P_DATA w epoch) (with_conn c r))).
Proof.
  intros I Hpc Hp. pose proof (ei_core _ _ _ I) as C. destruct (core_shape _ _ _ _ _ C) as (olds & cur & gs' & g & El & _).
  pose proof (enter_keep r gs acked w epoch olds cur [] (w :: rn_refused r) (rn_superseded r) I Hpc Hp El ltac:(constructor) ltac:(intros; by right) ltac:(done)) as K.
  eexists. split; [|rewrite app_nil_r in K; exact K]. pose proof (co_addr _ _ _ _ _ (proj1 C)) as Hn. unfold count_refused, current_epoch. rewrite El in *. rewrite last_snoc. cbn [mbind option_bind].
  rewrite upd_at by done. cbn [length]. rewrite Z.add_0_r. by destruct cur.
Qed.

(** ** Between the sections of [receive_Barrier] *)

Lemma issue_test b e : b <> DE_BARRIER_IN_NEXT_EPOCH_ISSUED -> etest (eset DE_BARRIER_IN_NEXT_EPOCH_ISSUED e) b = etest e b.
Proof. intros Hb. rewrite test_eset by done. by rewrite (proj2 (Z.eqb_neq _ _)). Qed.

(** The flush of the current epoch is announced. *)
Lemma issue_core safe c olds cur gs g ws win : core safe c (gs ++ [g]) ws win -> ec_list c = olds ++ [cur] -> length olds = length gs ->
  issue_flush c = set_list (olds ++ [eset DE_BARRIER_IN_NEXT_EPOCH_ISSUED cur]) c /\ core safe (issue_flush c) (gs ++ [g]) ws win.
Proof.
  intros C El Hlen. assert (issue_flush c = set_list (olds ++ [eset DE_BARRIER_IN_NEXT_EPOCH_ISSUED cur]) c) as E.
  { unfold issue_flush. apply set_current_at; [apply C|done]. }
  split; [done|]. rewrite E. apply (tweak_core _ _ _ _ olds cur); try done; [by apply grow_eset|by rewrite issue_test|by rewrite issue_test].
Qed.

Lemma issue_keep r gs acked : ep_inv r gs acked -> rn_rcv r = R_issue -> ep_inv (with_rcv R_drain (with_conn (issue_flush (rn_conn r)) r)) gs acked.
Proof.
  intros [C R P O] Hpc. destruct (core_shape _ _ _ _ _ C) as (olds & cur & gs' & g & El & -> & Hlen & _ & _). specialize (P olds cur gs' g El eq_refl). rewrite Hpc in P.
  assert (window r = ack_window r) as Hw by (unfold window; by rewrite Hpc). rewrite Hw in C. destruct (issue_core _ _ _ _ _ _ _ _ C El Hlen) as [E C']. rewrite E in *. rewrite El in R. split.
  - exact C'.
  - apply (same_rest r _ (olds ++ [cur])); [done|done|apply view_same; [by rewrite issue_test|done]|done].
  - apply (pc_inv_of _ olds (eset DE_BARRIER_IN_NEXT_EPOCH_ISSUED cur)); [done|]. cbn [pc_ok with_rcv rn_rcv] in *. unfold shut in *. by rewrite !issue_test by done.
  - done.
Qed.

Lemma on_disk_settles r w : drained r = true -> w ∈ data_ids (rn_recv r) -> w ∈ on_disk r \/ w ∈ rn_refused r \/ w ∈ rn_superseded r.
Proof.
  intros Hd Hw. unfold on_disk. destruct (existsb (Nat.eqb w) (rn_refused r)) eqn:E.
  - right. left. apply existsb_exists in E as (x & Hx & Ex). apply Nat.eqb_eq in Ex as ->. by apply list_elem_of_In.
  - destruct (in_progress r w) eqn:Ei; [right; right|left].
    { unfold in_progress in Ei. apply existsb_exists in Ei as (x & Hx & [Ex Hn]%andb_true_iff). apply Nat.eqb_eq in Ex as <-. apply negb_true_iff in Hn.
      unfold drained in Hd. rewrite forallb_forall in Hd. specialize (Hd x Hx). rewrite Hn in Hd. cbn [orb] in Hd. unfold superseded in Hd.
      apply existsb_exists in Hd as (y & Hy & Ey). apply Nat.eqb_eq in Ey as ->. by apply list_elem_of_In. }
    apply list_elem_of_In, filter_In. split; [by apply list_elem_of_In|]. by rewrite E, Ei.
Qed.

(** The disks are flushed while no write is in progress. *)
Lemma flush_keep r gs acked f pc : ep_inv r gs acked -> drained r = true -> rn_rcv r = R_drain /\ pc = R_flushed \/ rn_rcv r = R_nomem_drain /\ pc = R_nomem_flushed ->
  ep_inv (with_rcv pc (flushed f r)) gs acked.
Proof.
  intros [C R P O] Hd Hpc. destruct (core_shape _ _ _ _ _ C) as (olds & cur & gs' & g & El & -> & Hlen & Fo & L). specialize (P olds cur gs' g El eq_refl).
  assert (forall x, x ∈ g -> x ∈ data_ids (rn_recv r)) as Hg.
  { intros x Hx. rewrite groups_ids, (eb_groups _ _ _ _ R). cbn. rewrite map_app, concat_app, <- app_assoc. apply elem_of_app. right.
    apply (in_groups (safe_of r) (rn_writes r) _ _ cur g); [apply C| |done]. rewrite El, zip_with_app by done. apply elem_of_app. right. by left. }
  set (r' := flushed f r). assert (forall x, safe_of r x -> safe_of r' x) as Hsafe.
  { intros x H Hst. unfold r', flushed in *. destruct (flushes (write_ordering (rn_conn r))); [|by apply H]. destruct f.
    - destruct (H Hst) as [Hx|Hx]; [|by right]. apply (on_disk_settles r x Hd). pose proof (eb_stable _ _ _ _ R) as Hs. rewrite Forall_forall in Hs. by apply Hs.
    - destruct Hst as [Hst _]. cbn in Hst. destruct (write_ordering (rn_conn r)); done.
    - by destruct Hst as (_ & _ & ?). }
  assert (strict r' -> strict r) as Hst.
  { unfold strict, r', flushed. destruct (flushes (write_ordering (rn_conn r))); [destruct f|]; try done; cbn; intros (H & _ & H'); [by destruct (write_ordering (rn_conn r))|done]. }
  assert (Forall (safe_of r') g) as Hgs.
  { apply Forall_forall. intros x Hx Hst'. destruct (Hst Hst') as [Hwo _]. destruct Hst' as (Hwo' & _ & Hig). unfold r', flushed in *. rewrite Hwo in *. cbn [flushes] in *.
    destruct f; [|done|done]. apply (on_disk_settles r x Hd). auto. }
  assert (core (safe_of r') (rn_conn r') (gs' ++ [g]) (rn_writes r) (ack_window r)) as C'.
  { apply (core_mono (safe_of r)); [done|]. replace (window r) with (ack_window r) in C by (unfold window; destruct Hpc as [[-> _] | [-> _]]; done).
    unfold r', flushed. destruct (flushes (write_ordering (rn_conn r))) eqn:Ef; [|done]. destruct f; [done| |done]. assert (write_ordering (rn_conn r) = WO_BDEV_FLUSH) as Hwo.
    { pose proof (co_wo _ _ _ _ _ (proj1 C)). by destruct (write_ordering (rn_conn r)). }
    cbn. rewrite Hwo. by apply drain_core. }
  assert (ec_list (rn_conn r') = ec_list (rn_conn r)) as El' by (unfold r', flushed; by destruct (flushes _), f).
  assert (rn_nomem r' = rn_nomem r /\ rn_ack r' = rn_ack r /\ rn_writes r' = rn_writes r) as (En & Ea & Ew) by (unfold r', flushed; by destruct (flushes _), f).
  split.
  - replace (window _) with (ack_window r) by (unfold window, ack_window; destruct Hpc as [[_ ->] | [_ ->]]; cbn; by rewrite Ea). cbn [with_rcv rn_conn rn_writes]. by rewrite Ew.
  - cbn [with_rcv rn_conn]. rewrite El'. destruct R as [B2 B3 B4 B5 B6 B7]. split; try (unfold r', flushed; by destruct (flushes _), f).
    + eapply Forall_impl; [exact B4|]. intros x Hx. eapply Forall_impl; [exact Hx|]. done.
    + apply Forall_forall. intros x. unfold r', flushed. rewrite Forall_forall in B7. destruct (flushes _), f; cbn; auto.
      intros Hx. apply list_elem_of_In, filter_In in Hx as [Hx _]. by apply list_elem_of_In.
  - apply (pc_inv_of _ olds cur); [cbn [with_rcv rn_conn]; by rewrite El'|]. cbn [with_rcv rn_rcv]. destruct Hpc as [[E ->] | [E ->]]; rewrite E in P; cbn [pc_ok] in *.
    + destruct P as [P1 P2]. split_and!; [done| |done]. intros H. auto.
    + cbn [with_rcv rn_nomem]. by rewrite En.
  - cbn. destruct Hpc as [[_ ->] | [_ ->]]; done.
Qed.

Lemma fresh_core safe c gs ws win n : core safe c gs ws win -> core safe (mk_ec (ec_list c) (S (ec_fresh c)) n (write_ordering c)) gs ws win.
Proof.
  intros [[K1 K2 K3 K4 K5 K6 K7] N]. split; [|exact N]. split; try done. cbn. eapply Forall_impl; [exact K3|]. cbn. lia.
Qed.

(** A new epoch, or the recycled one. *)
Lemma alloc_keep r gs acked junk : ep_inv r gs acked -> rn_rcv r = R_alloc -> exists c, add_epoch junk (rn_conn r) = Some c /\ ep_ok (with_rcv R_idle (with_conn c r)).
Proof.
  intros [C R P O] Hpc. destruct (core_shape _ _ _ _ _ C) as (olds & cur & gs' & g & El & -> & Hlen & Fo & L). specialize (P olds cur gs' g El eq_refl).
  rewrite Hpc in P. destruct P as (P1 & P2 & P3). assert (window r = ack_window r) as Hw by (unfold window; by rewrite Hpc). rewrite Hw in C.
  assert (current_epoch (rn_conn r) = Some cur) as Hc by (unfold current_epoch; by rewrite El, last_snoc).
  unfold add_epoch. rewrite Hc. cbn [mbind option_bind]. unfold shut in P1. destruct (epoch_size cur =? 0) eqn:E; cbn [negb] in *.
  - eexists. split; [done|]. exists (gs' ++ [g]), acked. split.
    + by apply fresh_core.
    + by apply (same_rest r _ (ec_list (rn_conn r))).
    + apply (pc_inv_of _ olds cur); [done|]. split; [done|]. intros Hst. by apply P3.
    + done.
  - specialize (P2 P1). eexists. split; [done|]. exists ((gs' ++ [g]) ++ [[]]), acked. split.
    + rewrite <- app_assoc. by apply (add_core _ _ olds cur).
    + cbn [with_rcv with_conn rn_conn ec_list]. set (new := mk_epoch _ _ _ _ _). pose proof (view_at (ec_list (rn_conn r)) new [] (gs' ++ [g]) [] []) as V.
      specialize (V ltac:(by rewrite El, !length_app, Hlen)). change (closed1 (new, [])) with (@nil (Z * list nat)) in V. change (open1 (new, [])) with (@nil nat) in V.
      cbn [closed opened zip_with flat_map app] in V. rewrite !app_nil_r in V. injection V as V1 V2.
      destruct R as [B2 B3 B4 B5 B6 B7]. split; try done. cbn. by rewrite V1, V2.
    + by apply (pc_inv_of _ (ec_list (rn_conn r)) (mk_epoch (ec_fresh (rn_conn r)) junk 0 0 0)).
    + done.
Qed.

Lemma nomem_keep r gs acked : ep_inv r gs acked -> rn_rcv r = R_alloc ->
  exists pc c, no_epoch (rn_conn r) = Some (pc, c) /\ ep_ok (no_memory (with_rcv pc (with_conn c r))).
Proof.
  intros [C R P O] Hpc. destruct (core_shape _ _ _ _ _ C) as (olds & cur & gs' & g & El & -> & Hlen & Fo & L). specialize (P olds cur gs' g El eq_refl).
  rewrite Hpc in P. destruct P as (P1 & P2 & P3). assert (window r = ack_window r) as Hw by (unfold window; by rewrite Hpc). rewrite Hw in C.
  assert (current_epoch (rn_conn r) = Some cur) as Hc by (unfold current_epoch; by rewrite El, last_snoc). destruct (issue_core _ _ _ _ _ _ _ _ C El Hlen) as [Ei C'].
  unfold no_epoch. rewrite Hc. cbn [mbind option_bind]. rewrite Ei in *.
  eexists _, _. split; [done|]. exists (gs' ++ [g]), acked. set (pc := if etest cur _ then _ else _). set (e' := eset _ cur) in *.
  assert (forall b, b <> DE_BARRIER_IN_NEXT_EPOCH_ISSUED -> etest e' b = etest cur b) as Ht by (intros b; apply issue_test).
  assert (is_window pc = false) as Hnw by (unfold pc; by destruct (etest cur DE_BARRIER_IN_NEXT_EPOCH_ISSUED)).
  set (r' := no_memory _). assert (forall x, safe_of r' x) as Hs by (intros x (_ & H & _); done). split.
  - replace (window r') with (ack_window r) by (unfold window; cbn; by destruct pc). by apply (core_mono (safe_of r)).
  - rewrite El in R. destruct R as [B2 B3 B4 B5 B6 B7]. pose proof (view_same olds cur e' [] (gs' ++ [g]) ltac:(by rewrite Ht) eq_refl) as V. injection V as V1 V2.
    split; try done; [cbn [r' no_memory with_rcv with_conn rn_conn rn_recv ec_list set_list]; by rewrite V1, V2|]. apply Forall_forall. intros x _. apply Forall_forall. auto.
  - apply (pc_inv_of _ olds e'); [done|]. change (rn_rcv r') with pc. unfold shut in P1.
    assert (ready (write_ordering (rn_conn r)) cur -> ready (write_ordering (rn_conn r)) e') as Hr by (unfold ready; by rewrite !Ht).
    unfold pc. destruct (etest cur DE_BARRIER_IN_NEXT_EPOCH_ISSUED); cbn [pc_ok]; unfold shut; rewrite !Ht by done; split_and!; auto.
  - cbn. by rewrite Hnw.
Qed.

(** An epoch that could be finished is not left without an ack. *)
Lemma none_ready safe c gs e l : core safe c gs [] None -> ec_list c = e :: l -> ready (write_ordering c) e -> False.
Proof.
  intros [K N] El Hr. specialize (N eq_refl). unfold not_stuck in N. rewrite El in N. apply N. pose proof (co_local _ _ _ _ _ K) as L. pose proof (co_fin _ _ _ _ _ K) as F.
  rewrite El in L, F. destruct gs as [|g gs]; [by apply Forall2_length in L|]. apply Forall2_cons in L as [[_ L2 _ _ _] _]. apply Forall_cons in F as [F _].
  by apply ready_finishes.
Qed.

(** With nothing in progress, the current epoch is the only one. *)
Lemma none_waits safe c gs : core safe c gs [] None -> exists cur g, ec_list c = [cur] /\ gs = [g] /\ ~ ready (write_ordering c) cur.
Proof.
  intros C. destruct (core_shape _ _ _ _ _ C) as (olds & cur & gs' & g & El & -> & Hlen & Fo & L). destruct olds as [|o olds].
  - destruct gs'; [|done]. exists cur, g. split_and!; try done. intros Hr. by apply (none_ready _ _ _ cur [] C).
  - apply Forall_cons in Fo as [Fo _]. destruct (none_ready _ _ _ o (olds ++ [cur]) C); done.
Qed.

Lemma wait_keep r gs acked : ep_inv r gs acked -> rn_rcv r = R_nomem_wait -> rn_writes r = [] -> rn_ack r = None -> ep_inv (with_rcv R_idle r) gs acked.
Proof.
  intros [C R P O] Hpc Hws Ha. assert (window r = None) as Hw by (unfold window, ack_window; by rewrite Hpc, Ha). pose proof C as C0. rewrite Hw, Hws in C0.
  destruct (none_waits _ _ _ C0) as (cur & g & El & -> & Hnr). specialize (P [] cur [] g El eq_refl). rewrite Hpc in P. destruct P as (P1 & P2 & P3). split.
  - replace (window _) with (window r); [exact C|]. rewrite Hw. unfold window, ack_window. cbn. by rewrite Ha.
  - by apply (same_rest r _ (ec_list (rn_conn r))).
  - apply (pc_inv_of _ [] cur [] g); [done|]. split; [destruct (HAVE cur); [by destruct Hnr; auto|done]|]. intros (_ & H & _). cbn in H. congruence.
  - done.
Qed.

End EpochSteps.
