(* ===== verification/EpochOrder.v ===== *)
(** * Barrier acks (src/bsr/bsr_receiver.c)

    What the acks for barriers tell the sender, that every barrier is
    answered, and the case in which an ack comes before the flush. *)

From stdpp Require Import relations.
From S2P Require Import Prelude Epoch EpochRun EpochInv EpochEvents EpochGroups EpochKeep EpochSteps.

Module EpochOrder.
Import Epoch EpochRun EpochInv EpochEvents EpochGroups EpochKeep EpochSteps.

(** ** All runs *)

Lemma step_ok r r' : ep_ok r -> ep_step r r' -> ep_ok r'.
Proof.
  intros (gs & acked & I) H. destruct H as [r epoch Hr|r epoch|r w epoch a b c H1 H2 H3|r w epoch a b c H1 H2 H3|r w epoch c H1 H2 H3|r nr a c res H1 H2 H3 H4|r k a size rv e res H1 H2 H3|r H1|r ok H1 H2|r e res H1 H2 H3
    |r junk c H1 H2|r pc c H1 H2|r ok H1 H2|r e res H1 H2 H3|r H1 H2 H3|r i w H1 H2|r i w res H1 H2 H3 H4 H5|r a size rv e res H1 H2 H3].
  - exists gs, acked. rewrite (surjective_pairing (send_write _ _ _)). apply send_inv; [done|]. apply (send_write_ok _ _ _ epoch); [apply I|done].
  - exists gs, acked. rewrite (surjective_pairing (maybe_send_barrier _ _)). apply send_inv; [done|]. apply (close_ok _ _ _ epoch). apply I.
  - destruct (data_keep _ _ _ _ _ I H1 H2) as (? & ? & ? & E & K & _). rewrite H3 in E. by simplify_eq.
  - destruct (data_keep _ _ _ _ _ I H1 H2) as (? & ? & ? & E & _ & K). rewrite H3 in E. by simplify_eq.
  - destruct (refused_keep _ _ _ _ _ I H1 H2) as (? & E & K). rewrite H3 in E. by simplify_eq.
  - destruct (barrier_keep _ _ _ _ I H1 H2) as (? & ? & ? & E1 & E2 & K). simplify_eq. by exists gs, acked.
  - destruct (rcv_ack_keep _ _ _ _ _ _ _ I H1) as (? & ? & E1 & E2 & K & _). by simplify_eq.
  - exists gs, acked. by apply issue_keep.
  - exists gs, acked. apply flush_keep; auto.
  - destruct (flushed_keep K_done _ _ _ I ltac:(auto)) as (? & ? & E1 & E2 & K). simplify_eq. by exists gs, acked.
  - destruct (alloc_keep _ _ _ junk I H1) as (? & E & K). by simplify_eq.
  - destruct (nomem_keep _ _ _ I H1) as (? & ? & E & K). by simplify_eq.
  - exists gs, acked. apply flush_keep; auto.
  - destruct (flushed_keep K_nomem _ _ _ I ltac:(auto)) as (? & ? & E1 & E2 & K). simplify_eq. by exists gs, acked.
  - exists gs, acked. by apply wait_keep.
  - exists gs, acked. by apply complete_keep.
  - destruct (put_keep _ _ _ _ _ I H1 H2) as (? & E & K). simplify_eq. by exists gs, acked.
  - destruct (ack_ack_keep _ _ _ _ _ _ I H1) as (? & ? & E1 & E2 & K & _). by simplify_eq.
Qed.

Lemma reach_ok r : ep_reach r -> ep_ok r.
Proof. induction 1 as [wo Hwo|r r' _ IH H]; [exists [[]], []; by apply start_inv|by apply (step_ok r)]. Qed.

(** ** Progress *)

(** What the threads of the receiving node do not change. *)
Record same_packets (r r' : run) : Prop := mk_same_packets {
  sp_sent : rn_sent r' = rn_sent r; sp_recv : rn_recv r' = rn_recv r; sp_superseded : rn_superseded r' = rn_superseded r }.

Lemma ack_after_keeps res r : rn_rcv (ack_after res r) = rn_rcv r /\ rn_writes (ack_after res r) = rn_writes r /\ same_packets r (ack_after res r).
Proof. by destruct res as [[]]. Qed.

Lemma rcv_after_keeps k res r : rn_ack (rcv_after k res r) = rn_ack r /\ rn_writes (rcv_after k res r) = rn_writes r /\ same_packets r (rcv_after k res r).
Proof. by destruct res as [[]]. Qed.

(** The ack sender comes to the end of its call. *)
Lemma acks_end n r : ep_ok r -> (length (ec_list (rn_conn r)) <= n)%nat ->
  exists r', rtc ep_step r r' /\ ep_ok r' /\ rn_rcv r' = rn_rcv r /\ rn_writes r' = rn_writes r /\ same_packets r r' /\ rn_ack r' = None.
Proof.
  revert r. induction n as [|n IH]; intros r K Hn; (destruct (rn_ack r) as [[[a size] rv]|] eqn:Ha; [|exists r; by split_and!; [apply rtc_refl|..]]);
    destruct K as (gs & acked & I); destruct (ack_ack_keep _ _ _ _ _ _ I Ha) as (e & res & E1 & E2 & K & Hlt); cbn zeta in *;
    pose proof (es_ack_ack r a size rv e res Ha E1 E2) as Hs; destruct (ack_after_keeps res (acks (barrier_nr e, size) r)) as (F1 & F2 & [F3 F4 F5]).
  - destruct Hlt as [Hlt|]; [|lia]. exists (ack_after res (acks (barrier_nr e, size) r)). by split_and!; [apply rtc_once|..].
  - set (r1 := ack_after res (acks (barrier_nr e, size) r)) in *. assert (rn_ack r1 = None \/ (length (ec_list (rn_conn r1)) <= n)%nat) as [H|H] by (destruct Hlt; [by left|right; lia]).
    + exists r1. by split_and!; [apply rtc_once|..].
    + destruct (IH r1 K H) as (r2 & G1 & G2 & G3 & G4 & [G5 G6 G8] & G7). exists r2. split_and!; try done; [by apply rtc_l with r1|by rewrite G3|by rewrite G4|].
      split; [by rewrite G5|by rewrite G6|by rewrite G8].
Qed.

(** All writes complete and leave their epochs. *)
Lemma writes_end n r : ep_ok r -> rn_superseded r = [] -> length (rn_writes r) = n ->
  exists r', rtc ep_step r r' /\ ep_ok r' /\ rn_rcv r' = rn_rcv r /\ rn_writes r' = [] /\ same_packets r r' /\ rn_ack r' = None.
Proof.
  revert r. induction n as [|n IH]; intros r K Hsup Hn; destruct (acks_end _ r K ltac:(done)) as (r1 & A1 & A2 & A3 & A4 & [A5 A6 A8] & A7).
  - exists r1. rewrite A4. split_and!; try done. by destruct (rn_writes r).
  - destruct (rn_writes r) as [|w ws] eqn:Ew; [done|]. destruct A2 as (gs & acked & I).
    assert (rn_writes r1 !! 0%nat = Some w) as Hw by (by rewrite A4). pose proof (complete_keep _ _ _ _ _ I Hw) as I2. 
    assert (forall p, superseded r1 p = false) as Hns by (intros p; unfold superseded; by rewrite A8, Hsup). pose proof (es_complete r1 0 w Hw (Hns w)) as Hs.
    rewrite A4 in I2, Hs. cbn [insert list_insert] in I2, Hs. set (w2 := mk_pw (pw_id w) (pw_epoch w) true) in *. set (r2 := with_writes (w2 :: ws) r1) in *.
    destruct (put_keep r2 gs acked 0 w2 I2 A7 eq_refl) as (res & E & I3). pose proof (es_put r2 0 w2 res A7 eq_refl eq_refl (Hns w2) E) as Hs2.
    cbn [r2 with_writes rn_writes delete list_delete] in I3, Hs2. set (r3 := ack_after res _) in *.
    destruct (ack_after_keeps res (with_writes ws r2)) as (F1 & F2 & [F3 F4 F5]).
    destruct (IH r3 ltac:(by exists gs, acked)) as (r4 & B1 & B2 & B3 & B4 & [B5 B6 B8] & B7);
      [unfold r3; rewrite F5; cbn; congruence|unfold r3; rewrite F2; cbn in *; lia|].
    exists r4. split_and!; try done.
    + etrans; [exact A1|]. eapply rtc_l; [exact Hs|]. eapply rtc_l; [exact Hs2|exact B1].
    + rewrite B3. unfold r3. by rewrite F1.
    + split; [rewrite B5; unfold r3; by rewrite F3|rewrite B6; unfold r3; by rewrite F4|rewrite B8; unfold r3; by rewrite F5].
Qed.

(** The receiver thread comes back for the next packet. *)
Definition rank (pc : rcv_pc) : nat :=
  match pc with R_idle => 0 | R_window _ _ _ _ | R_alloc | R_nomem_wait => 1 | R_flushed | R_nomem_flushed => 2 | R_drain | R_nomem_drain => 3 | R_issue => 4 end.

Lemma rcv_step r : ep_ok r -> rn_writes r = [] -> rn_ack r = None -> rn_rcv r <> R_idle ->
  exists r', ep_step r r' /\ rn_writes r' = [] /\ rn_ack r' = None /\ same_packets r r' /\ (rank (rn_rcv r') < rank (rn_rcv r))%nat.
Proof.
  intros (gs & acked & I) Hw Ha Hpc. destruct (rn_rcv r) as [|k a size rv| | | | | | |] eqn:E; [done|..].
  - destruct (rcv_ack_keep _ _ _ _ _ _ _ I E) as (e & res & E1 & E2 & _ & E3). destruct (rcv_after_keeps k res (acks (barrier_nr e, size) r)) as (F1 & F2 & [F3 F4 F5]).
    eexists. split; [by eapply es_rcv_ack|]. rewrite F1, F2, E3. by split_and!; try split; try done; cbn; lia.
  - eexists. split; [by apply es_issue|]. cbn. by split_and!; try lia.
  - eexists. split; [apply (es_drained r FL_ok E); unfold drained; by rewrite Hw|]. unfold flushed. destruct (flushes _); cbn; by split_and!; try lia.
  - destruct (flushed_keep K_done _ _ _ I ltac:(auto)) as (e & res & E1 & E2 & _). destruct (rcv_after_keeps K_done res r) as (F1 & F2 & [F3 F4 F5]).
    eexists. split; [by eapply es_flushed|]. rewrite F1, F2. split_and!; try done. destruct res as [[? ? ?|rv ?] ?]; cbn; [lia|]. destruct (decide _); cbn; lia.
  - destruct (alloc_keep _ _ _ 0 I E) as (c & E1 & _). eexists. split; [by eapply es_alloc|]. cbn. by split_and!; try lia.
  - eexists. split; [apply (es_nomem_drained r FL_ok E); unfold drained; by rewrite Hw|]. unfold flushed. destruct (flushes _); cbn; by split_and!; try lia.
  - destruct (flushed_keep K_nomem _ _ _ I ltac:(auto)) as (e & res & E1 & E2 & _). destruct (rcv_after_keeps K_nomem res r) as (F1 & F2 & [F3 F4 F5]).
    eexists. split; [by eapply es_nomem_flushed|]. rewrite F1, F2. split_and!; try done. destruct res as [[? ? ?|rv ?] ?]; cbn; [lia|]. destruct (decide _); cbn; lia.
  - eexists. split; [by apply es_nomem_wait|]. cbn. by split_and!; try lia.
Qed.

Lemma rcv_end n r : ep_ok r -> rn_writes r = [] -> rn_ack r = None -> (rank (rn_rcv r) <= n)%nat ->
  exists r', rtc ep_step r r' /\ ep_ok r' /\ rn_rcv r' = R_idle /\ rn_writes r' = [] /\ rn_ack r' = None /\ same_packets r r'.
Proof.
  revert r. induction n as [|n IH]; intros r K Hw Ha Hn; (assert (rn_rcv r = R_idle \/ rn_rcv r <> R_idle) as [E|E] by (destruct (rn_rcv r); auto);
    [exists r; by split_and!; [apply rtc_refl|..]|]).
  - by destruct (rn_rcv r); cbn in Hn; try lia.
  - destruct (rcv_step r K Hw Ha E) as (r1 & S1 & S2 & S3 & [S4 S5 S7] & S6). destruct (IH r1 (step_ok _ _ K S1) S2 S3 ltac:(lia)) as (r2 & R1 & R2 & R3 & R4 & R5 & [R6 R7 R8]).
    exists r2. split_and!; try done; [by eapply rtc_l|]. split; congruence.
Qed.

(** Everything that was sent is worked off. *)
Lemma packets_end n r : ep_ok r -> rn_superseded r = [] -> (length (rn_sent r) - length (rn_recv r))%nat = n ->
  exists r', rtc ep_step r r' /\ ep_ok r' /\ rn_rcv r' = R_idle /\ rn_writes r' = [] /\ rn_ack r' = None /\ rn_sent r' = rn_sent r /\ rn_recv r' = rn_sent r.
Proof.
  revert r. induction n as [|n IH]; intros r K Hsup Hn; destruct (writes_end _ r K Hsup eq_refl) as (r1 & A1 & A2 & A3 & A4 & [A5 A6 A8] & A7);
    destruct (rcv_end _ r1 A2 A4 A7 ltac:(done)) as (r2 & B1 & B2 & B3 & B4 & B5 & [B6 B7 B8]); assert (rtc ep_step r r2) as Hr by (etrans; [exact A1|exact B1]);
    assert (rn_sent r2 = rn_sent r /\ rn_recv r2 = rn_recv r) as [C1 C2] by (split; congruence); destruct B2 as (gs & acked & I);
    destruct (eb_sent _ _ _ _ (ei_rest _ _ _ I)) as [rest Es]; rewrite C1, C2 in Es.
  - exists r2. split_and!; try done; [by exists gs, acked|]. rewrite C2. rewrite Es in *. rewrite length_app in Hn. destruct rest; [by rewrite app_nil_r|cbn in Hn; lia].
  - destruct rest as [|p rest]; [rewrite Es, app_nil_r in Hn; lia|].
    assert (next_packet r2 = Some p) as Hp by (unfold next_packet; rewrite C1, C2, Es, lookup_app_r, Nat.sub_diag by lia; done).
    assert (exists r3, ep_step r2 r3 /\ rn_sent r3 = rn_sent r /\ rn_recv r3 = rn_recv r ++ [p] /\ rn_superseded r3 = rn_superseded r2) as (r3 & D1 & D2 & D3 & D4).
    { destruct p as [w epoch|nr].
      - destruct (data_keep _ _ _ _ _ I B3 Hp) as (a & b & c & E & _). eexists. split; [by eapply es_data|]. cbn. by rewrite C1, C2.
      - destruct (barrier_keep _ _ _ _ I B3 Hp) as (a & c & res & E1 & E2 & _). destruct (rcv_after_keeps K_got res (takes (P_BARRIER nr) r2)) as (_ & _ & [F3 F4 F5]).
        eexists. split; [by eapply es_barrier|]. rewrite F3, F4, F5. cbn. by rewrite C1, C2. }
    destruct (IH r3 (step_ok _ _ ltac:(by exists gs, acked) D1)) as (r4 & G1 & G2 & G3 & G4 & G5 & G6 & G7); [congruence|rewrite D2, D3, length_app; cbn; lia|].
    exists r4. split_and!; try done; [|congruence|congruence]. etrans; [exact Hr|]. by eapply rtc_l.
Qed.

(** With nothing in progress all barriers have been answered. *)
Lemma idle_all_acked r : ep_ok r -> rn_rcv r = R_idle -> rn_writes r = [] -> rn_ack r = None -> rn_acks r = map ack_of (groups (rn_recv r)).1.
Proof.
  intros (gs & acked & [C R P O]) Hpc Hw Ha. assert (window r = None) as Ew by (unfold window, ack_window; by rewrite Hpc, Ha). rewrite Ew, Hw in C.
  destruct (none_waits _ _ _ C) as (cur & g & El & -> & _). specialize (P [] cur [] g El eq_refl). rewrite Hpc in P. destruct P as [Hh _].
  rewrite (eb_acks _ _ _ _ R), (eb_groups _ _ _ _ R), El. unfold closed. cbn [zip_with flat_map fst]. unfold closed1. cbn [fst]. rewrite Hh. by rewrite !app_nil_r.
Qed.

(** ** Acked groups *)

Lemma prefix_ids r l gs acked : ep_rest r l gs acked -> NoDup (data_ids (rn_recv r)).
Proof. intros [_ _ _ [rest E] S _]. pose proof (so_ids _ _ _ S) as H. rewrite E, data_ids_app in H. by apply NoDup_app in H as [H _]. Qed.

(** The writes of an acked group have left. *)
Lemma acked_left r gs acked g w : ep_inv r gs acked -> g ∈ acked -> w ∈ g.2 -> w ∉ map pw_id (rn_writes r).
Proof.
  intros [[C _] R _ _] Hg Hw Hin. pose proof (prefix_ids _ _ _ _ R) as Hn. rewrite groups_ids, (eb_groups _ _ _ _ R) in Hn. cbn [fst snd] in Hn.
  rewrite map_app, concat_app, <- app_assoc in Hn. apply NoDup_app in Hn as (_ & Hd & _). apply (Hd w).
  - apply list_elem_of_In, in_concat. exists g.2. split; [apply in_map; by apply list_elem_of_In|by apply list_elem_of_In].
  - apply list_elem_of_fmap in Hin as (x & -> & Hx). pose proof (co_known _ _ _ _ _ C) as K. rewrite Forall_forall in K. specialize (K x Hx).
    apply list_elem_of_fmap in K as (e & Ee & He). apply list_elem_of_lookup in He as [i Hi]. pose proof (co_local _ _ _ _ _ C) as L.
    destruct (Forall2_lookup_l _ _ _ _ _ L Hi) as (g' & Hg' & [_ _ _ L4 _]). apply (in_groups (safe_of r) (rn_writes r) _ _ e g'); [done| |by apply L4].
    apply list_elem_of_lookup. exists i. rewrite lookup_zip_with, Hi. cbn. by rewrite Hg'.
Qed.

Lemma acked_sent r l gs acked : ep_rest r l gs acked -> exists rest, (groups (rn_sent r)).1 = acked ++ rest.
Proof.
  intros [G _ _ [rest E] _ _]. destruct (groups_grow (rn_recv r) rest) as [more Em]. rewrite E, Em, G. cbn. eexists. by rewrite <- app_assoc.
Qed.

(** A superseded write stays. *)
Lemma step_superseded r r' : ep_step r r' -> (forall w, w ∈ rn_superseded r -> w ∈ map pw_id (rn_writes r)) ->
  (forall w, w ∈ rn_superseded r -> w ∈ rn_superseded r') /\ forall w, w ∈ rn_superseded r' -> w ∈ map pw_id (rn_writes r').
Proof.
  intros H I. destruct H; try (split; [done|exact I]).
  - split; [done|]. intros x Hx. cbn. rewrite map_app. apply elem_of_app. left. by apply I.
  - split; [intros x Hx; by right|]. intros x Hx. cbn. rewrite map_app. apply elem_of_app. cbn in Hx. apply elem_of_cons in Hx as [->|Hx]; [right; by left|left; by apply I].
  - destruct (rcv_after_keeps K_got res (takes (P_BARRIER nr) r)) as (_ & E1 & [_ _ E2]). by rewrite E1, E2.
  - destruct (rcv_after_keeps k res (acks (barrier_nr e, size) r)) as (_ & E1 & [_ _ E2]). by rewrite E1, E2.
  - unfold flushed. by destruct (flushes _), f.
  - destruct (rcv_after_keeps K_done res r) as (_ & E1 & [_ _ E2]). by rewrite E1, E2.
  - unfold flushed. by destruct (flushes _), f.
  - destruct (rcv_after_keeps K_nomem res r) as (_ & E1 & [_ _ E2]). by rewrite E1, E2.
  - split; [done|]. cbn [with_writes rn_superseded rn_writes]. intros x Hx. change (map pw_id) with (fmap (M := list) pw_id). rewrite list_fmap_insert.
    rewrite list_insert_id; [by apply I|]. by rewrite list_lookup_fmap, H.
  - destruct (ack_after_keeps res (with_writes (delete i (rn_writes r)) r)) as (_ & E1 & [_ _ E2]). rewrite E1, E2. split; [done|].
    cbn [with_writes rn_superseded rn_writes]. intros x Hx. specialize (I x Hx). apply list_elem_of_fmap in I as (p & -> & Hp).
    apply list_elem_of_fmap. exists p. split; [done|]. rewrite (delete_Permutation _ _ _ H0) in Hp. apply elem_of_cons in Hp as [->|Hp]; [|done]. exfalso.
    unfold superseded in H2. apply not_true_iff_false in H2. apply H2, existsb_exists. exists (pw_id w). split; [by apply list_elem_of_In|apply Nat.eqb_refl].
  - destruct (ack_after_keeps res (acks (barrier_nr e, size) r)) as (_ & E1 & [_ _ E2]). by rewrite E1, E2.
Qed.

Lemma superseded_stay r w : ep_reach r -> w ∈ rn_superseded r -> w ∈ map pw_id (rn_writes r).
Proof.
  intros H. revert w. induction H as [wo Hwo|r r' _ IH Hs]; [by intros w ?%not_elem_of_nil|]. apply (step_superseded r r' Hs IH).
Qed.

Lemma superseded_rtc r r' : ep_reach r -> rtc ep_step r r' -> ep_reach r' /\ forall w, w ∈ rn_superseded r -> w ∈ rn_superseded r'.
Proof.
  intros H Hs. induction Hs as [r|r r1 r2 H1 _ IH]; [done|]. destruct IH as [IH1 IH2]; [by eapply er_next|]. split; [done|].
  intros w Hw. apply IH2. apply (step_superseded r r1 H1); [|done]. intros x. by apply superseded_stay.
Qed.

(** C17. Whatever the sender, the receiver thread and the ack sender thread of a
    connection do (in any interleaving of their critical sections, allocation failures,
    failed flushes, writes that meet no disk and writes that lose a conflict of two
    primaries included; a run stops where memory for an epoch runs out while such a
    write keeps its epoch), the barrier acks answer the first groups of writes in the
    order they were sent, each with the barrier number and the number of writes of its
    group, and every write of an acked group was sent with that number as its epoch, was
    received and is no longer in progress. *)
Theorem barrier_acks_exact r : ep_reach r ->
  exists acked rest, (groups (rn_sent r)).1 = acked ++ rest /\ rn_acks r = map ack_of acked /\
    forall g w, g ∈ acked -> w ∈ g.2 -> P_DATA w g.1 ∈ rn_sent r /\ w ∈ data_ids (rn_recv r) /\ w ∉ map pw_id (rn_writes r).
Proof.
  intros H. destruct (reach_ok r H) as (gs & acked & I). pose proof (ei_rest _ _ _ I) as R. destruct (acked_sent _ _ _ _ R) as [rest E]. exists acked, rest.
  split_and!; [done|apply R|]. intros g w Hg Hw. split; [|split; [|by apply (acked_left r gs acked g)]].
  { pose proof (so_closed _ _ _ (eb_sender _ _ _ _ R)) as Hn. rewrite E in Hn. apply Forall_app in Hn as [Hn _]. rewrite Forall_forall in Hn. specialize (Hn g Hg).
    unfold named in Hn. rewrite Forall_forall in Hn. by apply Hn. }
  rewrite groups_ids, (eb_groups _ _ _ _ R). cbn. rewrite map_app, concat_app.
  rewrite !elem_of_app. left. left. apply list_elem_of_In, in_concat. exists g.2. split; [apply in_map; by apply list_elem_of_In|by apply list_elem_of_In].
Qed.

(** C18. With flushes as the method of write ordering, as long as no epoch allocation
    has failed and no flush that did not succeed was taken for one that did (the Linux
    build goes over to draining after a failed flush; the Windows build does not look at
    the error, bsr_receiver.c:1469, nor does a Linux thread that is killed while it
    waits), every write of a group whose barrier was acked is on stable storage (a flush
    that succeeded came after its I/O had ended; a write whose own I/O failed is
    answered with P_NEG_ACK, which is not looked at here), unless it was refused for
    lack of a disk. The method changes in these runs only by a failed flush. *)
Theorem barrier_ack_stable r g w : ep_reach r -> write_ordering (rn_conn r) = WO_BDEV_FLUSH -> rn_nomem r = false -> rn_ignored r = false ->
  g ∈ take (length (rn_acks r)) (groups (rn_sent r)).1 -> w ∈ g.2 -> w ∈ rn_stable r \/ w ∈ rn_refused r.
Proof.
  intros H Hwo Hn Hi Hg Hw. destruct (reach_ok r H) as (gs & acked & I). pose proof (ei_rest _ _ _ I) as R. destruct (acked_sent _ _ _ _ R) as [rest E].
  rewrite E, (eb_acks _ _ _ _ R), length_map, take_app_length in Hg. pose proof (eb_acked _ _ _ _ R) as Ha. rewrite Forall_forall in Ha. specialize (Ha g Hg).
  rewrite Forall_forall in Ha. destruct (Ha w Hw) as [?|[?|Hs]]; [done|by left|by right|]. exfalso.
  apply (acked_left r gs acked g w I Hg Hw). by apply superseded_stay.
Qed.

(** C19. From every reachable state in which no write has lost a conflict of two
    primaries (superseded or to be retried, see C9) the receiving node can go on,
    without further packets from the sender, until every barrier sent has been acked:
    without such conflicts no interleaving leaves an epoch that nobody finishes, or
    blocks the receiver thread for good. *)
Theorem barriers_get_answered r : ep_reach r -> rn_superseded r = [] ->
  exists r', rtc ep_step r r' /\ rn_sent r' = rn_sent r /\ rn_acks r' = map ack_of (groups (rn_sent r)).1.
Proof.
  intros H Hs. destruct (packets_end _ r (reach_ok r H) Hs eq_refl) as (r' & P1 & P2 & P3 & P4 & P5 & P6 & P7). exists r'. split_and!; [done..|]. rewrite <- P7.
  by apply idle_all_acked.
Qed.

(** C9. A write of a peer that loses a conflict of two primaries (handle_write_conflicts
    answers it with P_SUPERSEDED or P_RETRY_WRITE) has joined its epoch and never leaves
    it, as bsr_finish_peer_reqs puts the epoch only for writes with e_end_block:
    whatever happens later on the connection, neither the barrier of its group nor any
    later barrier is acked. *)
Theorem superseded_never_acked r r' w i g : ep_reach r -> w ∈ rn_superseded r -> rtc ep_step r r' ->
  (groups (rn_sent r')).1 !! i = Some g -> w ∈ g.2 -> (length (rn_acks r') <= i)%nat.
Proof.
  intros H Hw Hs Hi Hg. destruct (superseded_rtc r r' H Hs) as [H' Hm]. destruct (reach_ok r' H') as (gs & acked & I). pose proof (ei_rest _ _ _ I) as R.
  destruct (acked_sent _ _ _ _ R) as [rest E]. rewrite (eb_acks _ _ _ _ R), length_map. apply Nat.nlt_ge. intros Hlt.
  rewrite E, lookup_app_l in Hi by done. apply list_elem_of_lookup_2 in Hi. apply (acked_left r' gs acked g w I Hi Hg). apply superseded_stay; auto.
Qed.

(** ** Example runs *)

(** The next step of the run in [H]. *)
Ltac run_step H t := refine (_ (er_next _ _ H ltac:(t))); clear H; intros H; vm_compute in H.
Tactic Notation "step" hyp(H) "by" uconstr(t) := run_step H ltac:(eapply t; reflexivity).

Tactic Notation "go" "by" uconstr(t) := eapply rtc_l; [eapply t; reflexivity|vm_compute].

(** Two groups are sent. *)
Definition two_sent : run :=
  mk_run (new_conn WO_BDEV_FLUSH) R_idle None (mk_send true 3 0) [P_DATA 0 1; P_BARRIER 1; P_DATA 1 2; P_BARRIER 2] [] [] [] 2 [] [] false [] false.

Lemma two_sent_reach : ep_reach two_sent.
Proof.
  pose proof (er_start WO_BDEV_FLUSH ltac:(done)) as H. step H by (es_write _ 1). step H by (es_write _ 2). step H by (es_close _ 3). exact H.
Qed.

(** The first group is written, flushed and acked, while the receiver thread is about to allocate an epoch. *)
Definition one_acked : run :=
  mk_run (mk_ec [mk_epoch 0 1 0 0 0] 1 1 WO_BDEV_FLUSH) R_alloc None (mk_send true 3 0) [P_DATA 0 1; P_BARRIER 1; P_DATA 1 2; P_BARRIER 2] [P_DATA 0 1; P_BARRIER 1] [] [(1, 1)] 2 [] [0%nat] false [] false.

Lemma one_acked_reach : ep_reach one_acked.
Proof.
  pose proof two_sent_reach as H. vm_compute in H. step H by es_data. step H by es_barrier. step H by es_issue. step H by (es_complete _ 0). step H by (es_drained _ FL_ok). step H by es_flushed.
  step H by (es_put _ 0). step H by es_ack_ack. exact H.
Qed.

(** No epoch can be allocated for the second group, and it is acked. *)
Definition two_acked : run :=
  mk_run (mk_ec [mk_epoch 0 2 0 0 0] 1 1 WO_BDEV_FLUSH) R_idle None (mk_send true 3 0) [P_DATA 0 1; P_BARRIER 1; P_DATA 1 2; P_BARRIER 2]
    [P_DATA 0 1; P_BARRIER 1; P_DATA 1 2; P_BARRIER 2] [] [(1, 1); (2, 1)] 2 [] [0%nat] true [] false.

Lemma two_acked_reach : ep_reach two_acked.
Proof.
  pose proof one_acked_reach as H. vm_compute in H. step H by es_nomem. step H by (es_nomem_drained _ FL_ok). step H by es_nomem_flushed. step H by es_nomem_wait.
  step H by es_data. step H by (es_complete _ 0). step H by (es_put _ 0). step H by es_barrier. step H by es_rcv_ack. exact H.
Qed.

(** The write of the first group loses a conflict of two primaries. *)
Definition one_superseded : run :=
  mk_run (mk_ec [mk_epoch 0 0 1 1 0] 1 1 WO_BDEV_FLUSH) R_idle None (mk_send true 3 0) [P_DATA 0 1; P_BARRIER 1; P_DATA 1 2; P_BARRIER 2]
    [P_DATA 0 1] [mk_pw 0 0 false] [] 2 [] [] false [0%nat] false.

(** All packets are worked off, the second write is flushed and has left its epoch, and no barrier was acked. *)
Definition superseded_end : run :=
  mk_run (mk_ec [mk_epoch 0 1 1 1 11; mk_epoch 1 2 1 0 11; mk_epoch 2 9 0 0 0] 3 3 WO_BDEV_FLUSH) R_idle None (mk_send true 3 0)
    [P_DATA 0 1; P_BARRIER 1; P_DATA 1 2; P_BARRIER 2] [P_DATA 0 1; P_BARRIER 1; P_DATA 1 2; P_BARRIER 2] [mk_pw 0 0 false] [] 2 [] [1%nat] false [0%nat] false.

Lemma one_superseded_reach : ep_reach one_superseded.
Proof. pose proof two_sent_reach as H. vm_compute in H. step H by es_superseded. exact H. Qed.

Lemma superseded_end_run : rtc ep_step one_superseded superseded_end.
Proof.
  go by es_barrier. go by es_issue. go by (es_drained _ FL_ok). go by es_flushed. go by (es_alloc _ 7).
  go by es_data. go by (es_complete _ 1). go by (es_put _ 1). go by es_barrier. go by es_issue. go by (es_drained _ FL_ok). go by es_flushed.
  go by (es_alloc _ 9). apply rtc_refl.
Qed.

Lemma barrier_acks_exact_witness : ep_reach one_acked /\
  exists acked rest, [(1, [0%nat]); (2, [1%nat])] = acked ++ rest /\ [(1, 1)] = map ack_of acked /\
    forall g w, g ∈ acked -> w ∈ g.2 -> P_DATA w g.1 ∈ rn_sent one_acked /\ w ∈ data_ids (rn_recv one_acked) /\ w ∉ map pw_id (rn_writes one_acked).
Proof. split; [exact one_acked_reach|]. exact (barrier_acks_exact one_acked one_acked_reach). Defined.

Lemma barrier_ack_stable_witness : ep_reach one_acked /\ (0%nat ∈ rn_stable one_acked \/ 0%nat ∈ rn_refused one_acked).
Proof.
  split; [exact one_acked_reach|]. apply (barrier_ack_stable one_acked (1, [0%nat]) 0%nat one_acked_reach eq_refl eq_refl eq_refl); vm_compute; left.
Defined.

Lemma superseded_never_acked_witness : ep_reach one_superseded /\ rn_recv superseded_end = rn_sent superseded_end /\ (length (rn_acks superseded_end) <= 0)%nat.
Proof.
  split; [exact one_superseded_reach|]. split; [reflexivity|].
  apply (superseded_never_acked one_superseded superseded_end 0 0 (1, [0%nat]) one_superseded_reach); [by left|exact superseded_end_run|reflexivity|by left].
Defined.

Lemma barriers_get_answered_witness : ep_reach two_sent /\ exists r', rtc ep_step two_sent r' /\ rn_sent r' = rn_sent two_sent /\ rn_acks r' = [(1, 1); (2, 1)].
Proof. split; [exact two_sent_reach|]. exact (barriers_get_answered two_sent two_sent_reach eq_refl). Defined.

(** C40. There is a run, with flushes as the method of write ordering and none of them
    failing, in which a barrier is acked although a write of its group is neither on
    stable storage nor refused: after a failed allocation of an epoch the recycled
    current epoch keeps DE_BARRIER_IN_NEXT_EPOCH_DONE, so the next group is acked
    without a flush. *)
Theorem ack_before_flush : exists r g w, ep_reach r /\ write_ordering (rn_conn r) = WO_BDEV_FLUSH /\ rn_ignored r = false /\
  g ∈ take (length (rn_acks r)) (groups (rn_sent r)).1 /\ w ∈ g.2 /\ (w ∉ rn_stable r) /\ (w ∉ rn_refused r).
Proof.
  exists two_acked, (2, [1%nat]), 1%nat. split; [exact two_acked_reach|]. split; [done|]. split; [done|]. split; [right; left|]. split; [left|]. split.
  - intros H. by apply list_elem_of_singleton in H.
  - apply not_elem_of_nil.
Qed.

End EpochOrder.
