(* ===== verification/EpochDrop.v ===== *)
(** * Epochs of a lost connection (src/bsr/bsr_receiver.c)

    When a connection is lost one thread is left, which drops the writes
    that are still in an epoch, with or without [EV_CLEANUP]. *)

From S2P Require Import Prelude Epoch EpochRun EpochInv EpochEvents EpochKeep EpochSteps EpochOrder.

Module EpochDrop.
Import Epoch EpochRun EpochInv EpochEvents EpochKeep EpochSteps EpochOrder.

(** [bsr_finish_peer_reqs]: of each write its epoch and [epoch_put] (its callback is [e_end_block]), and whether sending has failed before
    ([EV_CLEANUP]). *)
Fixpoint finish_puts (c : epoch_conn) (ps : list (nat * bool * bool)) : option epoch_conn :=
  match ps with
  | [] => Some c
  | (a, epoch_put, failed) :: ps =>
    if epoch_put then '(_, _, c, _) ← bsr_may_finish_epoch c a EV_PUT failed true; finish_puts c ps else finish_puts c ps
  end.

(** A write and its [epoch_put]. *)
Definition epoch_put_of (r : run) (w : peer_write) : nat * bool := (pw_epoch w, negb (superseded r w)).

(** The end of [conn_disconnect]; [true]: epochs were left ("ASSERTION FAILED").  The loop that frees them goes on from an epoch it has freed if there
    are several. *)
Definition reset_epochs (c : epoch_conn) : option (bool * epoch_conn) :=
  cur ← current_epoch c;
  let reset n := mk_ec [mk_epoch (ep_addr cur) 0 0 0 0] (ec_fresh c) n (write_ordering c) in
  match ec_list c with
  | [_] => Some (false, reset (epochs c))
  | [_; _] => Some (true, reset (u32 (epochs c - 1)))
  | _ => None
  end.

Section drop.
Context (safe : nat -> Prop).

Abbreviation core0 := (core0 safe).
Abbreviation core := (core safe).

(** ** Calls without [EV_CLEANUP] *)

Lemma rest_end fuel c gs ws a s rv acks : core c gs ws (Some (a, s)) -> (length (ec_list c) <= fuel)%nat ->
  exists rv' c' gs' acks', finish_rest fuel (SE_ack a s rv, c) acks = Some (rv', None, c', acks') /\ core c' gs' ws None.
Proof.
  revert c gs a s rv acks. induction fuel as [|fuel IH]; intros c gs a s rv acks C Hf; destruct (resume_core _ _ _ _ _ _ rv C) as (e & l & g & gl & El & -> & G & Es & _ & H);
    [rewrite El in Hf; cbn in Hf; lia|].
  cbn [finish_rest]. rewrite G. cbn [mbind option_bind]. destruct l as [|n l'].
  - destruct H as (_ & c' & -> & C' & _). cbn [mbind option_bind]. destruct fuel; cbn [finish_rest]; eauto 10.
  - destruct H as (c' & _ & _ & [(-> & C' & _)|(-> & C' & El')]); cbn [mbind option_bind].
    + destruct fuel; cbn [finish_rest]; eauto 10.
    + apply (IH c' gl); [done|]. rewrite El'. rewrite El in Hf. cbn in *. lia.
Qed.

(** ** Calls with [EV_CLEANUP] *)

Lemma cleanup_verdict wo e : wo <> WO_BIO_BARRIER -> FIN e = false ->
  epoch_verdict wo true true e = V_finish /\ active e = 0 \/
  epoch_verdict wo true true e = V_none /\ epoch_verdict wo true false e <> V_finish.
Proof.
  intros Hwo Hf. unfold epoch_verdict. rewrite Hf, !orb_true_r, !andb_true_r. destruct (epoch_size e =? 0); [by right|]. destruct (Z.eqb_spec (active e) 0); [by left|by right].
Qed.

(** The oldest of several epochs is freed. *)
Lemma free_core0 c e n l g gs ws k : core0 c (g :: gs) ws None -> ec_list c = e :: n :: l -> active e = 0 ->
  core0 (mk_ec (n :: l) (ec_fresh c) k (write_ordering c)) gs ws None.
Proof.
  intros [K1 K2 K3 K4 K5 K6 K7] El Ha. rewrite El in *. apply Forall2_cons in K4 as [[_ L2 _ _ _] K4]. apply Forall_cons in K3 as [_ K3]. apply Forall_cons in K7 as [_ K7].
  cbn in K2. apply NoDup_cons in K2 as [_ K2]. split; cbn [ec_list ec_fresh write_ordering]; try done.
  - apply Forall_forall. intros w Hw. rewrite Forall_forall in K5. specialize (K5 w Hw). cbn in K5. apply elem_of_cons in K5 as [E|]; [|done].
    destruct (cnt_zero (ep_addr e) ws w ltac:(lia) Hw E).
  - destruct K6 as (olds & cur & Eo & Fo). destruct olds as [|o olds]; [done|]. injection Eo as <- Eo. exists olds, cur. split; [done|]. by apply Forall_cons in Fo as [_ ?].
Qed.

(** The only epoch is recycled. *)
Lemma reset_core c e g ws : core0 c [g] ws None -> ec_list c = [e] -> active e = 0 -> core (set_list [set_size 0 (set_eflags 0 e)] c) [[]] ws None.
Proof.
  intros [K1 K2 K3 K4 K5 K6 K7] El Ha. rewrite El in *. apply Forall2_cons in K4 as [[_ L2 _ _ _] _]. split; [|done]. split; cbn [ec_list ec_fresh write_ordering set_list]; try done.
  - apply Forall_cons in K3 as [K3 _]. by constructor.
  - constructor; [|done]. split; try done. intros w Hw E. cbn in E. destruct (cnt_zero (ep_addr e) ws w ltac:(lia) Hw E).
  - by exists [], (set_size 0 (set_eflags 0 e)).
  - by constructor.
Qed.

(** What [epoch_retire] does with the oldest epoch. *)
Lemma retire_oldest c e l rv : ec_list c = e :: l -> NoDup (map ep_addr (e :: l)) -> exists rv', epoch_retire c (ep_addr e) rv = Some
  match l with
  | [] => (None, rv', set_list [set_size 0 (set_eflags 0 e)] c)
  | n :: _ => (Some (ep_addr n), rv', mk_ec l (ec_fresh c) (u32 (epochs c - 1)) (write_ordering c))
  end.
Proof.
  intros El Hn. unfold epoch_retire. rewrite El. destruct (split_epoch _ _ _ Hn (get_at [] e l Hn)) as (_ & l1 & l2 & E & U & O & C & F).
  assert (l1 = [] /\ l2 = l) as [-> ->].
  { destruct l1 as [|x l1]; [by injection E as <-|]. exfalso. cbn in O. unfold is_at in O. by rewrite Nat.eqb_refl in O. }
  rewrite C. destruct l as [|n l]; [rewrite U; by eexists|].
  assert (next_after (ep_addr e) (e :: n :: l) (List.hd_error (e :: n :: l)) = Some n) as -> by (cbn; unfold is_at; by rewrite Nat.eqb_refl).
  cbn [mbind option_bind]. rewrite F. by eexists.
Qed.

Lemma cleanup_oldest fuel c e l ev e' gs ws rv : ec_list c = e :: l -> NoDup (map ep_addr (ec_list c)) -> (length (ec_list c) < fuel)%nat ->
  e' = event_effect (write_ordering c) (is_current (ep_addr e) (ec_list c)) ev e -> ep_addr e' = ep_addr e -> core0 (set_list (e' :: l) c) gs ws None ->
  exists rv' c' gs', epoch_section fuel c (ep_addr e) ev true rv = Some (SE_done rv' None, c') /\ core c' gs' ws None.
Proof.
  revert c e l ev e' gs rv. induction fuel as [|fuel IH]; intros c e l ev e' gs rv El Hn Hf Ee Ea K; [lia|]. cbn [epoch_section].
  assert (get_epoch (ep_addr e) (ec_list c) = Some e) as G by (rewrite El in *; by apply (get_at [])). rewrite G. cbn [mbind option_bind]. rewrite <- Ee.
  assert (forall f, upd_epoch (ep_addr e) f (ec_list c) = f e :: l) as U by (intros f; rewrite El in *; by apply (upd_at [])). rewrite !U.
  assert (is_oldest (ep_addr e) (ec_list c) = true) as -> by (rewrite El; cbn; unfold is_at; by rewrite Nat.eqb_refl).
  pose proof (co_fin _ _ _ _ _ K) as Hfin. cbn in Hfin. apply Forall_cons in Hfin as [Hfin _].
  destruct (cleanup_verdict (write_ordering c) e' ltac:(apply K) Hfin) as [[V Ha]|[V N]]; rewrite V.
  - destruct (retire_oldest (set_list (eset DE_IS_FINISHING e' :: l) c) (eset DE_IS_FINISHING e') l rv eq_refl) as [rv2 Hret]; [cbn; rewrite Ea; by rewrite El in Hn|].
    change (ep_addr (eset DE_IS_FINISHING e')) with (ep_addr e') in Hret. rewrite Ea in Hret. rewrite Hret.
    pose proof (co_local _ _ _ _ _ K) as L. cbn in L. destruct gs as [|g gs]; [by apply Forall2_length in L|]. destruct l as [|n l]; cbn [mbind option_bind].
    + apply Forall2_cons in L as [_ L]. apply Forall2_nil_inv_l in L as ->. eexists _, _, [[]]. split; [done|]. by apply (reset_core (set_list [e'] c) e' g).
    + pose proof (free_core0 _ e' n l g gs ws (u32 (epochs c - 1)) K eq_refl Ha) as K2. cbn [set_list ec_fresh epochs write_ordering] in K2 |- *. set (c2 := mk_ec (n :: l) _ _ _) in *.
      apply (IH c2 n l EV_BECAME_LAST n gs rv2 eq_refl); try done; [apply K2|]. rewrite El in Hf. cbn in *. lia.
  - eexists rv, _, gs. split; [done|]. split; [done|]. intros _. exact N.
Qed.

(** ** A write is dropped *)

Lemma done_rest fuel rv c acks : finish_rest fuel (SE_done rv None, c) acks = Some (rv, None, c, acks).
Proof. by destruct fuel. Qed.

Lemma put_cleanup c gs ws i w : core c gs ws None -> ws !! i = Some w ->
  exists rv c' gs', epoch_section (epoch_fuel c) c (pw_epoch w) EV_PUT true FE_STILL_LIVE = Some (SE_done rv None, c') /\ core c' gs' (delete i ws) None.
Proof.
  intros C Hw. destruct (put_event safe c gs ws None i w C Hw) as (l1 & e & l2 & El & Ee & _). destruct C as [K N]. pose proof (co_addr _ _ _ _ _ K) as Hn.
  pose proof (put_core0 safe c ws None l1 e l2 gs i w K El Hw (eq_sym Ee)) as K'. set (e' := set_active _ e) in K'. rewrite <- Ee. destruct l1 as [|x l1].
  - apply (cleanup_oldest _ c e l2 EV_PUT e' gs); try done. unfold epoch_fuel. lia.
  - eexists FE_STILL_LIVE, _, gs. split; [|split; [exact K'|]].
    + unfold epoch_fuel. cbn [epoch_section]. rewrite El in *. rewrite get_at by done. cbn [mbind option_bind]. rewrite !upd_at by done.
      assert (is_oldest (ep_addr e) ((x :: l1) ++ e :: l2) = false) as ->; [|unfold epoch_verdict; by rewrite !andb_false_r].
      cbn. apply Nat.eqb_neq. intros E. cbn in Hn. apply NoDup_cons in Hn as [Hn _]. apply Hn. rewrite E, map_app. apply elem_of_app. right. left.
    + intros _. specialize (N eq_refl). unfold not_stuck in *. by rewrite El in N.
Qed.

Lemma drop_write c gs ws i w failed : core c gs ws None -> ws !! i = Some w ->
  exists rv c' acks gs', bsr_may_finish_epoch c (pw_epoch w) EV_PUT failed true = Some (rv, None, c', acks) /\ core c' gs' (delete i ws) None.
Proof.
  intros C Hw. unfold bsr_may_finish_epoch, finish_events. destruct failed.
  - destruct (put_cleanup c gs ws i w C Hw) as (rv & c' & gs' & -> & C'). cbn [mbind option_bind]. rewrite done_rest. eauto 10.
  - destruct (put_event safe c gs ws None i w C Hw) as (l1 & e & l2 & El & _ & H). cbn zeta in H. unfold section_of in H. destruct H as [[-> C']|(_ & -> & -> & C')]; cbn [mbind option_bind].
    + rewrite done_rest. eauto 10.
    + destruct (rest_end (epoch_fuel c) _ _ _ _ _ FE_STILL_LIVE [] C') as (rv & c' & gs' & acks' & -> & C2); [unfold epoch_fuel; rewrite El; cbn; lia|]. eauto 10.
Qed.

Lemma drop_all ps c gs ws : core c gs ws None -> map fst ps ≡ₚ map (fun w => (pw_epoch w, true)) ws -> exists c' gs', finish_puts c ps = Some c' /\ core c' gs' [] None.
Proof.
  revert c gs ws. induction ps as [|[[a b] failed] ps IH]; intros c gs ws C Hp; cbn [map finish_puts fst] in *.
  - apply Permutation_nil_l in Hp. destruct ws; [|done]. by exists c, gs.
  - assert ((a, b) ∈ map (fun w => (pw_epoch w, true)) ws) as Ha by (rewrite <- Hp; left). apply list_elem_of_fmap in Ha as (w & [= -> ->] & Hw). apply list_elem_of_lookup in Hw as [i Hw].
    destruct (drop_write c gs ws i w failed C Hw) as (rv & c' & acks & gs' & -> & C'). cbn [mbind option_bind]. apply (IH c' gs' (delete i ws)); [done|].
    rewrite (Permutation_map (fun w => (pw_epoch w, true)) (delete_Permutation _ _ _ Hw)) in Hp. by apply Permutation.Permutation_cons_inv in Hp.
Qed.

End drop.


(** Two epochs, each with a write. *)
Definition two_epochs : run :=
  mk_run (mk_ec [mk_epoch 0 1 1 1 11; mk_epoch 1 7 1 1 0] 2 2 WO_BDEV_FLUSH) R_idle None (mk_send true 3 0) [P_DATA 0 1; P_BARRIER 1; P_DATA 1 2; P_BARRIER 2]
    [P_DATA 0 1; P_BARRIER 1; P_DATA 1 2] [mk_pw 0 0 true; mk_pw 1 1 false] [] 2 [] [0%nat] false [] false.

Lemma two_epochs_reach : ep_reach two_epochs.
Proof.
  pose proof two_sent_reach as H. vm_compute in H. step H by es_data. step H by es_barrier. step H by es_issue. step H by (es_complete _ 0). step H by (es_drained _ FL_ok). step H by es_flushed.
  step H by (es_alloc _ 7). step H by es_data. exact H.
Qed.


End EpochDrop.
