(* ===== verification/Request.v ===== *)
(** * Application requests and the transfer log (src/bsr/bsr_req.c, bsr_req.h)

    A request lives in a store indexed by its number (its address); the
    transfer log, the retry list and the caching pointers of the connections
    hold numbers.  [rq_state[0]] is the local part of the state word array,
    [rq_state[1 + node_id]] the part for one peer.  The model is of one
    resource with one volume; a peer device and its connection are one slot,
    indexed by the node id of the peer.  All of it runs under the request lock
    of the resource, so an execution is a sequence of these functions.

    What the code does beside this state (completing a bio upwards, setting
    bits out of sync, reporting a logic bug) is appended to a log of effects.
    What it learns from the bitmap, the activity log and the block layer comes
    from an oracle that may look at the whole history. *)

From S2P Require Import Prelude State.

Module Request.
Import State.

(** ** State bits (bsr_req.h) *)

Definition __RQ_LOCAL_PENDING : Z := 0.
Definition __RQ_LOCAL_COMPLETED : Z := 1.
Definition __RQ_LOCAL_OK : Z := 2.
Definition __RQ_LOCAL_ABORTED : Z := 3.
Definition __RQ_NET_PENDING : Z := 4.
Definition __RQ_NET_QUEUED : Z := 5.
Definition __RQ_NET_SENT : Z := 6.
Definition __RQ_NET_DONE : Z := 7.
Definition __RQ_NET_OK : Z := 8.
Definition __RQ_NET_SIS : Z := 9.
Definition __RQ_NET_MAX : Z := 10.
Definition __RQ_WRITE : Z := 11.
Definition __RQ_UNMAP : Z := 13.
Definition __RQ_ZEROES : Z := 14.
Definition __RQ_IN_ACT_LOG : Z := 15.
Definition __RQ_UNPLUG : Z := 16.
Definition __RQ_POSTPONED : Z := 17.
Definition __RQ_COMPLETION_SUSP : Z := 18.
Definition __RQ_EXP_RECEIVE_ACK : Z := 19.
Definition __RQ_EXP_WRITE_ACK : Z := 20.
Definition __RQ_EXP_BARR_ACK : Z := 21.
Definition __RQ_PEER_ACK : Z := 22.
Definition __RQ_OOS_PENDING : Z := 23.
Definition __RQ_OOS_NET_QUEUED : Z := 24.
Definition __RQ_OOS_LOCAL_DONE : Z := 25.
Definition __RQ_IN_AL_OOS : Z := 26.

Definition RQ_LOCAL_PENDING : Z := Z.shiftl 1 __RQ_LOCAL_PENDING.
Definition RQ_LOCAL_COMPLETED : Z := Z.shiftl 1 __RQ_LOCAL_COMPLETED.
Definition RQ_LOCAL_OK : Z := Z.shiftl 1 __RQ_LOCAL_OK.
Definition RQ_LOCAL_ABORTED : Z := Z.shiftl 1 __RQ_LOCAL_ABORTED.
Definition RQ_LOCAL_MASK : Z := Z.shiftl RQ_LOCAL_ABORTED 1 - 1.
Definition RQ_NET_PENDING : Z := Z.shiftl 1 __RQ_NET_PENDING.
Definition RQ_NET_QUEUED : Z := Z.shiftl 1 __RQ_NET_QUEUED.
Definition RQ_NET_SENT : Z := Z.shiftl 1 __RQ_NET_SENT.
Definition RQ_NET_DONE : Z := Z.shiftl 1 __RQ_NET_DONE.
Definition RQ_NET_OK : Z := Z.shiftl 1 __RQ_NET_OK.
Definition RQ_NET_SIS : Z := Z.shiftl 1 __RQ_NET_SIS.
Definition RQ_NET_MASK : Z := Z.ldiff (Z.shiftl 1 __RQ_NET_MAX - 1) RQ_LOCAL_MASK.
Definition RQ_WRITE : Z := Z.shiftl 1 __RQ_WRITE.
Definition RQ_UNMAP : Z := Z.shiftl 1 __RQ_UNMAP.
Definition RQ_ZEROES : Z := Z.shiftl 1 __RQ_ZEROES.
Definition RQ_IN_ACT_LOG : Z := Z.shiftl 1 __RQ_IN_ACT_LOG.
Definition RQ_UNPLUG : Z := Z.shiftl 1 __RQ_UNPLUG.
Definition RQ_POSTPONED : Z := Z.shiftl 1 __RQ_POSTPONED.
Definition RQ_COMPLETION_SUSP : Z := Z.shiftl 1 __RQ_COMPLETION_SUSP.
Definition RQ_EXP_RECEIVE_ACK : Z := Z.shiftl 1 __RQ_EXP_RECEIVE_ACK.
Definition RQ_EXP_WRITE_ACK : Z := Z.shiftl 1 __RQ_EXP_WRITE_ACK.
Definition RQ_EXP_BARR_ACK : Z := Z.shiftl 1 __RQ_EXP_BARR_ACK.
Definition RQ_PEER_ACK : Z := Z.shiftl 1 __RQ_PEER_ACK.
Definition RQ_OOS_PENDING : Z := Z.shiftl 1 __RQ_OOS_PENDING.
Definition RQ_OOS_NET_QUEUED : Z := Z.shiftl 1 __RQ_OOS_NET_QUEUED.
Definition RQ_OOS_LOCAL_DONE : Z := Z.shiftl 1 __RQ_OOS_LOCAL_DONE.
Definition RQ_IN_AL_OOS : Z := Z.shiftl 1 __RQ_IN_AL_OOS.

(** The flags that go into [rq_state[0]]. *)
Definition RQ_STATE_0_MASK : Z :=
  Z.lor RQ_LOCAL_MASK (Z.lor RQ_WRITE (Z.lor RQ_IN_ACT_LOG (Z.lor RQ_POSTPONED (Z.lor RQ_UNPLUG RQ_COMPLETION_SUSP)))).

Inductive bsr_req_event :=
| CREATED | TO_BE_SENT | TO_BE_SUBMITTED | QUEUE_FOR_NET_WRITE | QUEUE_FOR_NET_READ | QUEUE_FOR_PENDING_OOS
| QUEUE_FOR_SEND_OOS | QUEUE_AS_BSR_BARRIER | SEND_CANCELED | SEND_FAILED | HANDED_OVER_TO_NETWORK
| OOS_HANDED_TO_NETWORK | CONNECTION_LOST_WHILE_PENDING | READ_RETRY_REMOTE_CANCELED | RECV_ACKED_BY_PEER
| WRITE_ACKED_BY_PEER | WRITE_ACKED_BY_PEER_AND_SIS | DISCARD_WRITE | POSTPONE_WRITE | NEG_ACKED | BARRIER_ACKED
| DATA_RECEIVED | COMPLETED_OK | READ_COMPLETED_WITH_ERROR | READ_AHEAD_COMPLETED_WITH_ERROR
| WRITE_COMPLETED_WITH_ERROR | DISCARD_COMPLETED_NOTSUPP | DISCARD_COMPLETED_WITH_ERROR | ABORT_DISK_IO | RESEND
| FAIL_FROZEN_DISK_IO | RESTART_FROZEN_DISK_IO | NOTHING_EVENT | OOS_SET_TO_LOCAL.

(** ** Objects *)

Inductive req_op := REQ_OP_READ | REQ_OP_WRITE | REQ_OP_WRITE_ZEROES | REQ_OP_DISCARD.
Global Instance req_op_eq_dec : EqDecision req_op.
Proof. solve_decision. Defined.

Record bio := mk_bio { bio_op : req_op; bi_rahead : bool; bi_preflush : bool; bi_sector : Z; bi_size : Z }.

(** [bio_data_dir(bio) == WRITE] *)
Definition bio_data_dir_write (b : bio) : bool := negb (bool_decide (bio_op b = REQ_OP_READ)).

Record bsr_request := mk_request {
  rq_state : list Z;
  completion_ref : Z;
  kref : Z;
  master_bio : option bio;
  (* NULL, a pointer, or an error pointer, as an address *)
  private_bio : Z;
  epoch : Z;
  i_sector : Z;
  i_size : Z;
  (* !bsr_interval_empty(&req->i) *)
  i_in_tree : bool;
  i_completed : bool;
  dagtag_sector : Z;
  destroy_next : option nat;
  nq_ref : Z;
  (* bsr_req_destroy() has gone past its sanity checks *)
  destroyed : bool }.

(** [connection->todo.req_next]: NULL, [TL_NEXT_REQUEST_RESEND] or a request. *)
Inductive todo_next := NEXT_NULL | TL_NEXT_REQUEST_RESEND | NEXT_REQ (r : nat).
Global Instance todo_next_eq_dec : EqDecision todo_next.
Proof. solve_decision. Defined.

(** Peer device and connection of one peer. *)
Record peer := mk_peer {
  pro_version : Z;
  wire_protocol : Z;
  max_epoch_size : Z;
  p_cstate : bsr_conn_state;
  p_repl_state : bsr_repl_state;
  p_disk_state : bsr_disk_state;
  p_bitmap_index : Z;
  ap_pending_cnt : Z;
  rs_pending_cnt : Z;
  rq_pending_oos_cnt : Z;
  ap_in_flight : Z;
  ap_in_flight_cnt : Z;
  req_next : todo_next;
  req_ack_pending : option nat;
  req_not_net_done : option nat }.

Inductive io_error_p := EP_PASS_ON | EP_CALL_HELPER | EP_DETACH | EP_PASSTHROUGH.
Global Instance io_error_p_eq_dec : EqDecision io_error_p.
Proof. solve_decision. Defined.

Inductive read_balancing :=
| RB_PREFER_LOCAL | RB_PREFER_REMOTE | RB_ROUND_ROBIN | RB_LEAST_PENDING | RB_CONGESTED_REMOTE | RB_STRIPING (shift : Z).
Global Instance read_balancing_eq_dec : EqDecision read_balancing.
Proof. solve_decision. Defined.

(** What the code does outside of the request state. *)
Inductive effect :=
| E_bug                                  (* BUG(), BUG_ON() *)
| E_endless                              (* a list walk that does not end *)
| E_assert                               (* a failed D_ASSERT() or expect() *)
| E_logic_bug (n : Z)                    (* bsr_err(n, BSR_LC_REQUEST, "... logic bug ...") *)
| E_complete (r : nat) (error : Z)       (* complete_master_bio() *)
| E_restart (r : nat)                    (* bsr_restart_request() *)
| E_submit (r : nat)                     (* bsr_submit_req_private_bio() *)
| E_set_out_of_sync (p : nat) (sector size : Z)
| E_set_all_out_of_sync (sector size : Z)
| E_set_sync (sector size bits mask : Z)
| E_send_oos (p : nat) (sector size : Z) (* queued on send_oos_list *)
| E_send_oos_finished (p : nat)
| E_chk_io_error (read : bool)
| E_al_complete_io (sector size : Z)
| E_peer_ack (p r : nat)                 (* peer_ack_work queued *)
| E_disconnect (p : nat)                 (* change_cstate_ex(C_DISCONNECTING) *)
| E_wake_senders
| E_free (r : nat)                       (* mempool_free() *)
| E_enomem.                              (* bsr_bio_endio(bio, -ENOMEM), no request made *)
Global Instance effect_eq_dec : EqDecision effect.
Proof. solve_decision. Defined.

(** The resource and its volume. *)
Record world := mk_world {
  reqs : list bsr_request;
  transfer_log : list nat;
  net_queued_log : list nat;
  retry_writes : list nat;
  (* device->submit.writes *)
  submit_writes : list nat;
  (* references held by walks over the transfer log *)
  held : list nat;
  (* plug->most_recent_req of the submitting task *)
  most_recent_req : option nat;
  peers : list (option peer);
  suspended : bool;
  current_tle_nr : Z;
  current_tle_writes : Z;
  res_dagtag_sector : Z;
  peer_ack_req : option nat;
  peer_ack_list : list nat;
  peer_ack_window : Z;
  last_peer_acked_dagtag : Z;
  req_write_cnt : Z;
  (* volume *)
  d_disk_state : bsr_disk_state;
  (* disk_conf->on_io_error, when device->ldev is set *)
  ldev : option io_error_p;
  max_node_id : nat;
  (* ldev->md.peers[node_id].bitmap_index *)
  md_bitmap_index : list Z;
  rb_policy : read_balancing;
  READ_BALANCE_RR : bool;
  NEW_CUR_UUID : bool;
  AL_SUSPENDED : bool;
  d_kref : Z;
  local_cnt : Z;
  ap_actlog_cnt : Z;
  io_error_count : Z;
  writ_cnt : Z;
  read_cnt : Z;
  log : list effect }.

(** Answers of the bitmap, the activity log and the block layer. *)
Record oracle := mk_oracle {
  (* bitmap slots in which bsr_set_sync() set a bit *)
  o_set_sync : list effect -> Z -> Z -> Z -> Z -> list Z;
  (* the number of bits bsr_set_out_of_sync() set *)
  o_set_out_of_sync : list effect -> nat -> Z -> Z -> Z;
  (* bsr_bm_count_bits(device, slot, s, e) *)
  o_bm_count_bits : list effect -> Z -> Z -> Z -> Z;
  (* bsr_al_complete_io() dropped the last reference *)
  o_al_last : list effect -> Z -> Z -> bool;
  (* bsr_al_begin_io_fastpath() *)
  o_al_fastpath : list effect -> Z -> Z -> bool;
  (* bdi_read_congested() *)
  o_congested : list effect -> bool;
  (* blk_check_plugged() returned a plug *)
  o_plugged : list effect -> bool;
  (* bsr_kmalloc() succeeds *)
  o_alloc : list effect -> bool }.

Definition req0 : bsr_request :=
  mk_request [] 0 0 None 0 0 0 0 false false 0 None 0 true.

Definition req (w : world) (r : nat) : bsr_request := default req0 (reqs w !! r).
Definition peer_of (w : world) (p : nat) : option peer := mjoin (peers w !! p).

(** Field updates. *)
Definition upd_rq_state (f : _ -> _) (x : bsr_request) : bsr_request := mk_request (f (rq_state x))
  (completion_ref x) (kref x) (master_bio x) (private_bio x) (epoch x) (i_sector x) (i_size x) (i_in_tree x)
  (i_completed x) (dagtag_sector x) (destroy_next x) (nq_ref x) (destroyed x).
Definition upd_completion_ref (f : _ -> _) (x : bsr_request) : bsr_request := mk_request (rq_state x) (f
  (completion_ref x)) (kref x) (master_bio x) (private_bio x) (epoch x) (i_sector x) (i_size x) (i_in_tree x)
  (i_completed x) (dagtag_sector x) (destroy_next x) (nq_ref x) (destroyed x).
Definition upd_kref (f : _ -> _) (x : bsr_request) : bsr_request := mk_request (rq_state x) (completion_ref x)
  (f (kref x)) (master_bio x) (private_bio x) (epoch x) (i_sector x) (i_size x) (i_in_tree x) (i_completed x)
  (dagtag_sector x) (destroy_next x) (nq_ref x) (destroyed x).
Definition upd_master_bio (f : _ -> _) (x : bsr_request) : bsr_request := mk_request (rq_state x)
  (completion_ref x) (kref x) (f (master_bio x)) (private_bio x) (epoch x) (i_sector x) (i_size x) (i_in_tree x)
  (i_completed x) (dagtag_sector x) (destroy_next x) (nq_ref x) (destroyed x).
Definition upd_private_bio (f : _ -> _) (x : bsr_request) : bsr_request := mk_request (rq_state x)
  (completion_ref x) (kref x) (master_bio x) (f (private_bio x)) (epoch x) (i_sector x) (i_size x) (i_in_tree x)
  (i_completed x) (dagtag_sector x) (destroy_next x) (nq_ref x) (destroyed x).
Definition upd_epoch (f : _ -> _) (x : bsr_request) : bsr_request := mk_request (rq_state x) (completion_ref x)
  (kref x) (master_bio x) (private_bio x) (f (epoch x)) (i_sector x) (i_size x) (i_in_tree x) (i_completed x)
  (dagtag_sector x) (destroy_next x) (nq_ref x) (destroyed x).
Definition upd_i_in_tree (f : _ -> _) (x : bsr_request) : bsr_request := mk_request (rq_state x) (completion_ref
  x) (kref x) (master_bio x) (private_bio x) (epoch x) (i_sector x) (i_size x) (f (i_in_tree x)) (i_completed x)
  (dagtag_sector x) (destroy_next x) (nq_ref x) (destroyed x).
Definition upd_i_completed (f : _ -> _) (x : bsr_request) : bsr_request := mk_request (rq_state x)
  (completion_ref x) (kref x) (master_bio x) (private_bio x) (epoch x) (i_sector x) (i_size x) (i_in_tree x) (f
  (i_completed x)) (dagtag_sector x) (destroy_next x) (nq_ref x) (destroyed x).
Definition upd_dagtag_sector (f : _ -> _) (x : bsr_request) : bsr_request := mk_request (rq_state x)
  (completion_ref x) (kref x) (master_bio x) (private_bio x) (epoch x) (i_sector x) (i_size x) (i_in_tree x)
  (i_completed x) (f (dagtag_sector x)) (destroy_next x) (nq_ref x) (destroyed x).
Definition upd_destroy_next (f : _ -> _) (x : bsr_request) : bsr_request := mk_request (rq_state x)
  (completion_ref x) (kref x) (master_bio x) (private_bio x) (epoch x) (i_sector x) (i_size x) (i_in_tree x)
  (i_completed x) (dagtag_sector x) (f (destroy_next x)) (nq_ref x) (destroyed x).
Definition upd_nq_ref (f : _ -> _) (x : bsr_request) : bsr_request := mk_request (rq_state x) (completion_ref x)
  (kref x) (master_bio x) (private_bio x) (epoch x) (i_sector x) (i_size x) (i_in_tree x) (i_completed x)
  (dagtag_sector x) (destroy_next x) (f (nq_ref x)) (destroyed x).
Definition upd_destroyed (f : _ -> _) (x : bsr_request) : bsr_request := mk_request (rq_state x) (completion_ref
  x) (kref x) (master_bio x) (private_bio x) (epoch x) (i_sector x) (i_size x) (i_in_tree x) (i_completed x)
  (dagtag_sector x) (destroy_next x) (nq_ref x) (f (destroyed x)).

Definition upd_ap_pending_cnt (f : _ -> _) (x : peer) : peer := mk_peer (pro_version x) (wire_protocol x)
  (max_epoch_size x) (p_cstate x) (p_repl_state x) (p_disk_state x) (p_bitmap_index x) (f (ap_pending_cnt x))
  (rs_pending_cnt x) (rq_pending_oos_cnt x) (ap_in_flight x) (ap_in_flight_cnt x) (req_next x) (req_ack_pending x)
  (req_not_net_done x).
Definition upd_rq_pending_oos_cnt (f : _ -> _) (x : peer) : peer := mk_peer (pro_version x) (wire_protocol x)
  (max_epoch_size x) (p_cstate x) (p_repl_state x) (p_disk_state x) (p_bitmap_index x) (ap_pending_cnt x)
  (rs_pending_cnt x) (f (rq_pending_oos_cnt x)) (ap_in_flight x) (ap_in_flight_cnt x) (req_next x)
  (req_ack_pending x) (req_not_net_done x).
Definition upd_ap_in_flight (f : _ -> _) (x : peer) : peer := mk_peer (pro_version x) (wire_protocol x)
  (max_epoch_size x) (p_cstate x) (p_repl_state x) (p_disk_state x) (p_bitmap_index x) (ap_pending_cnt x)
  (rs_pending_cnt x) (rq_pending_oos_cnt x) (f (ap_in_flight x)) (ap_in_flight_cnt x) (req_next x)
  (req_ack_pending x) (req_not_net_done x).
Definition upd_ap_in_flight_cnt (f : _ -> _) (x : peer) : peer := mk_peer (pro_version x) (wire_protocol x)
  (max_epoch_size x) (p_cstate x) (p_repl_state x) (p_disk_state x) (p_bitmap_index x) (ap_pending_cnt x)
  (rs_pending_cnt x) (rq_pending_oos_cnt x) (ap_in_flight x) (f (ap_in_flight_cnt x)) (req_next x)
  (req_ack_pending x) (req_not_net_done x).
Definition upd_req_next (f : _ -> _) (x : peer) : peer := mk_peer (pro_version x) (wire_protocol x)
  (max_epoch_size x) (p_cstate x) (p_repl_state x) (p_disk_state x) (p_bitmap_index x) (ap_pending_cnt x)
  (rs_pending_cnt x) (rq_pending_oos_cnt x) (ap_in_flight x) (ap_in_flight_cnt x) (f (req_next x))
  (req_ack_pending x) (req_not_net_done x).
Definition upd_req_ack_pending (f : _ -> _) (x : peer) : peer := mk_peer (pro_version x) (wire_protocol x)
  (max_epoch_size x) (p_cstate x) (p_repl_state x) (p_disk_state x) (p_bitmap_index x) (ap_pending_cnt x)
  (rs_pending_cnt x) (rq_pending_oos_cnt x) (ap_in_flight x) (ap_in_flight_cnt x) (req_next x) (f (req_ack_pending
  x)) (req_not_net_done x).
Definition upd_req_not_net_done (f : _ -> _) (x : peer) : peer := mk_peer (pro_version x) (wire_protocol x)
  (max_epoch_size x) (p_cstate x) (p_repl_state x) (p_disk_state x) (p_bitmap_index x) (ap_pending_cnt x)
  (rs_pending_cnt x) (rq_pending_oos_cnt x) (ap_in_flight x) (ap_in_flight_cnt x) (req_next x) (req_ack_pending x)
  (f (req_not_net_done x)).

Definition upd_reqs (f : _ -> _) (x : world) : world := mk_world (f (reqs x)) (transfer_log x) (net_queued_log
  x) (retry_writes x) (submit_writes x) (held x) (most_recent_req x) (peers x) (suspended x) (current_tle_nr x)
  (current_tle_writes x) (res_dagtag_sector x) (peer_ack_req x) (peer_ack_list x) (peer_ack_window x)
  (last_peer_acked_dagtag x) (req_write_cnt x) (d_disk_state x) (ldev x) (max_node_id x) (md_bitmap_index x)
  (rb_policy x) (READ_BALANCE_RR x) (NEW_CUR_UUID x) (AL_SUSPENDED x) (d_kref x) (local_cnt x) (ap_actlog_cnt x)
  (io_error_count x) (writ_cnt x) (read_cnt x) (log x).
Definition upd_transfer_log (f : _ -> _) (x : world) : world := mk_world (reqs x) (f (transfer_log x))
  (net_queued_log x) (retry_writes x) (submit_writes x) (held x) (most_recent_req x) (peers x) (suspended x)
  (current_tle_nr x) (current_tle_writes x) (res_dagtag_sector x) (peer_ack_req x) (peer_ack_list x)
  (peer_ack_window x) (last_peer_acked_dagtag x) (req_write_cnt x) (d_disk_state x) (ldev x) (max_node_id x)
  (md_bitmap_index x) (rb_policy x) (READ_BALANCE_RR x) (NEW_CUR_UUID x) (AL_SUSPENDED x) (d_kref x) (local_cnt x)
  (ap_actlog_cnt x) (io_error_count x) (writ_cnt x) (read_cnt x) (log x).
Definition upd_net_queued_log (f : _ -> _) (x : world) : world := mk_world (reqs x) (transfer_log x) (f
  (net_queued_log x)) (retry_writes x) (submit_writes x) (held x) (most_recent_req x) (peers x) (suspended x)
  (current_tle_nr x) (current_tle_writes x) (res_dagtag_sector x) (peer_ack_req x) (peer_ack_list x)
  (peer_ack_window x) (last_peer_acked_dagtag x) (req_write_cnt x) (d_disk_state x) (ldev x) (max_node_id x)
  (md_bitmap_index x) (rb_policy x) (READ_BALANCE_RR x) (NEW_CUR_UUID x) (AL_SUSPENDED x) (d_kref x) (local_cnt x)
  (ap_actlog_cnt x) (io_error_count x) (writ_cnt x) (read_cnt x) (log x).
Definition upd_retry_writes (f : _ -> _) (x : world) : world := mk_world (reqs x) (transfer_log x)
  (net_queued_log x) (f (retry_writes x)) (submit_writes x) (held x) (most_recent_req x) (peers x) (suspended x)
  (current_tle_nr x) (current_tle_writes x) (res_dagtag_sector x) (peer_ack_req x) (peer_ack_list x)
  (peer_ack_window x) (last_peer_acked_dagtag x) (req_write_cnt x) (d_disk_state x) (ldev x) (max_node_id x)
  (md_bitmap_index x) (rb_policy x) (READ_BALANCE_RR x) (NEW_CUR_UUID x) (AL_SUSPENDED x) (d_kref x) (local_cnt x)
  (ap_actlog_cnt x) (io_error_count x) (writ_cnt x) (read_cnt x) (log x).
Definition upd_submit_writes (f : _ -> _) (x : world) : world := mk_world (reqs x) (transfer_log x)
  (net_queued_log x) (retry_writes x) (f (submit_writes x)) (held x) (most_recent_req x) (peers x) (suspended x)
  (current_tle_nr x) (current_tle_writes x) (res_dagtag_sector x) (peer_ack_req x) (peer_ack_list x)
  (peer_ack_window x) (last_peer_acked_dagtag x) (req_write_cnt x) (d_disk_state x) (ldev x) (max_node_id x)
  (md_bitmap_index x) (rb_policy x) (READ_BALANCE_RR x) (NEW_CUR_UUID x) (AL_SUSPENDED x) (d_kref x) (local_cnt x)
  (ap_actlog_cnt x) (io_error_count x) (writ_cnt x) (read_cnt x) (log x).
Definition upd_held (f : _ -> _) (x : world) : world := mk_world (reqs x) (transfer_log x) (net_queued_log x)
  (retry_writes x) (submit_writes x) (f (held x)) (most_recent_req x) (peers x) (suspended x) (current_tle_nr x)
  (current_tle_writes x) (res_dagtag_sector x) (peer_ack_req x) (peer_ack_list x) (peer_ack_window x)
  (last_peer_acked_dagtag x) (req_write_cnt x) (d_disk_state x) (ldev x) (max_node_id x) (md_bitmap_index x)
  (rb_policy x) (READ_BALANCE_RR x) (NEW_CUR_UUID x) (AL_SUSPENDED x) (d_kref x) (local_cnt x) (ap_actlog_cnt x)
  (io_error_count x) (writ_cnt x) (read_cnt x) (log x).
Definition upd_most_recent_req (f : _ -> _) (x : world) : world := mk_world (reqs x) (transfer_log x)
  (net_queued_log x) (retry_writes x) (submit_writes x) (held x) (f (most_recent_req x)) (peers x) (suspended x)
  (current_tle_nr x) (current_tle_writes x) (res_dagtag_sector x) (peer_ack_req x) (peer_ack_list x)
  (peer_ack_window x) (last_peer_acked_dagtag x) (req_write_cnt x) (d_disk_state x) (ldev x) (max_node_id x)
  (md_bitmap_index x) (rb_policy x) (READ_BALANCE_RR x) (NEW_CUR_UUID x) (AL_SUSPENDED x) (d_kref x) (local_cnt x)
  (ap_actlog_cnt x) (io_error_count x) (writ_cnt x) (read_cnt x) (log x).
Definition upd_peers (f : _ -> _) (x : world) : world := mk_world (reqs x) (transfer_log x) (net_queued_log x)
  (retry_writes x) (submit_writes x) (held x) (most_recent_req x) (f (peers x)) (suspended x) (current_tle_nr x)
  (current_tle_writes x) (res_dagtag_sector x) (peer_ack_req x) (peer_ack_list x) (peer_ack_window x)
  (last_peer_acked_dagtag x) (req_write_cnt x) (d_disk_state x) (ldev x) (max_node_id x) (md_bitmap_index x)
  (rb_policy x) (READ_BALANCE_RR x) (NEW_CUR_UUID x) (AL_SUSPENDED x) (d_kref x) (local_cnt x) (ap_actlog_cnt x)
  (io_error_count x) (writ_cnt x) (read_cnt x) (log x).
Definition upd_suspended (f : _ -> _) (x : world) : world := mk_world (reqs x) (transfer_log x) (net_queued_log
  x) (retry_writes x) (submit_writes x) (held x) (most_recent_req x) (peers x) (f (suspended x)) (current_tle_nr
  x) (current_tle_writes x) (res_dagtag_sector x) (peer_ack_req x) (peer_ack_list x) (peer_ack_window x)
  (last_peer_acked_dagtag x) (req_write_cnt x) (d_disk_state x) (ldev x) (max_node_id x) (md_bitmap_index x)
  (rb_policy x) (READ_BALANCE_RR x) (NEW_CUR_UUID x) (AL_SUSPENDED x) (d_kref x) (local_cnt x) (ap_actlog_cnt x)
  (io_error_count x) (writ_cnt x) (read_cnt x) (log x).
Definition upd_current_tle_nr (f : _ -> _) (x : world) : world := mk_world (reqs x) (transfer_log x)
  (net_queued_log x) (retry_writes x) (submit_writes x) (held x) (most_recent_req x) (peers x) (suspended x) (f
  (current_tle_nr x)) (current_tle_writes x) (res_dagtag_sector x) (peer_ack_req x) (peer_ack_list x)
  (peer_ack_window x) (last_peer_acked_dagtag x) (req_write_cnt x) (d_disk_state x) (ldev x) (max_node_id x)
  (md_bitmap_index x) (rb_policy x) (READ_BALANCE_RR x) (NEW_CUR_UUID x) (AL_SUSPENDED x) (d_kref x) (local_cnt x)
  (ap_actlog_cnt x) (io_error_count x) (writ_cnt x) (read_cnt x) (log x).
Definition upd_current_tle_writes (f : _ -> _) (x : world) : world := mk_world (reqs x) (transfer_log x)
  (net_queued_log x) (retry_writes x) (submit_writes x) (held x) (most_recent_req x) (peers x) (suspended x)
  (current_tle_nr x) (f (current_tle_writes x)) (res_dagtag_sector x) (peer_ack_req x) (peer_ack_list x)
  (peer_ack_window x) (last_peer_acked_dagtag x) (req_write_cnt x) (d_disk_state x) (ldev x) (max_node_id x)
  (md_bitmap_index x) (rb_policy x) (READ_BALANCE_RR x) (NEW_CUR_UUID x) (AL_SUSPENDED x) (d_kref x) (local_cnt x)
  (ap_actlog_cnt x) (io_error_count x) (writ_cnt x) (read_cnt x) (log x).
Definition upd_res_dagtag_sector (f : _ -> _) (x : world) : world := mk_world (reqs x) (transfer_log x)
  (net_queued_log x) (retry_writes x) (submit_writes x) (held x) (most_recent_req x) (peers x) (suspended x)
  (current_tle_nr x) (current_tle_writes x) (f (res_dagtag_sector x)) (peer_ack_req x) (peer_ack_list x)
  (peer_ack_window x) (last_peer_acked_dagtag x) (req_write_cnt x) (d_disk_state x) (ldev x) (max_node_id x)
  (md_bitmap_index x) (rb_policy x) (READ_BALANCE_RR x) (NEW_CUR_UUID x) (AL_SUSPENDED x) (d_kref x) (local_cnt x)
  (ap_actlog_cnt x) (io_error_count x) (writ_cnt x) (read_cnt x) (log x).
Definition upd_peer_ack_req (f : _ -> _) (x : world) : world := mk_world (reqs x) (transfer_log x)
  (net_queued_log x) (retry_writes x) (submit_writes x) (held x) (most_recent_req x) (peers x) (suspended x)
  (current_tle_nr x) (current_tle_writes x) (res_dagtag_sector x) (f (peer_ack_req x)) (peer_ack_list x)
  (peer_ack_window x) (last_peer_acked_dagtag x) (req_write_cnt x) (d_disk_state x) (ldev x) (max_node_id x)
  (md_bitmap_index x) (rb_policy x) (READ_BALANCE_RR x) (NEW_CUR_UUID x) (AL_SUSPENDED x) (d_kref x) (local_cnt x)
  (ap_actlog_cnt x) (io_error_count x) (writ_cnt x) (read_cnt x) (log x).
Definition upd_peer_ack_list (f : _ -> _) (x : world) : world := mk_world (reqs x) (transfer_log x)
  (net_queued_log x) (retry_writes x) (submit_writes x) (held x) (most_recent_req x) (peers x) (suspended x)
  (current_tle_nr x) (current_tle_writes x) (res_dagtag_sector x) (peer_ack_req x) (f (peer_ack_list x))
  (peer_ack_window x) (last_peer_acked_dagtag x) (req_write_cnt x) (d_disk_state x) (ldev x) (max_node_id x)
  (md_bitmap_index x) (rb_policy x) (READ_BALANCE_RR x) (NEW_CUR_UUID x) (AL_SUSPENDED x) (d_kref x) (local_cnt x)
  (ap_actlog_cnt x) (io_error_count x) (writ_cnt x) (read_cnt x) (log x).
Definition upd_last_peer_acked_dagtag (f : _ -> _) (x : world) : world := mk_world (reqs x) (transfer_log x)
  (net_queued_log x) (retry_writes x) (submit_writes x) (held x) (most_recent_req x) (peers x) (suspended x)
  (current_tle_nr x) (current_tle_writes x) (res_dagtag_sector x) (peer_ack_req x) (peer_ack_list x)
  (peer_ack_window x) (f (last_peer_acked_dagtag x)) (req_write_cnt x) (d_disk_state x) (ldev x) (max_node_id x)
  (md_bitmap_index x) (rb_policy x) (READ_BALANCE_RR x) (NEW_CUR_UUID x) (AL_SUSPENDED x) (d_kref x) (local_cnt x)
  (ap_actlog_cnt x) (io_error_count x) (writ_cnt x) (read_cnt x) (log x).
Definition upd_req_write_cnt (f : _ -> _) (x : world) : world := mk_world (reqs x) (transfer_log x)
  (net_queued_log x) (retry_writes x) (submit_writes x) (held x) (most_recent_req x) (peers x) (suspended x)
  (current_tle_nr x) (current_tle_writes x) (res_dagtag_sector x) (peer_ack_req x) (peer_ack_list x)
  (peer_ack_window x) (last_peer_acked_dagtag x) (f (req_write_cnt x)) (d_disk_state x) (ldev x) (max_node_id x)
  (md_bitmap_index x) (rb_policy x) (READ_BALANCE_RR x) (NEW_CUR_UUID x) (AL_SUSPENDED x) (d_kref x) (local_cnt x)
  (ap_actlog_cnt x) (io_error_count x) (writ_cnt x) (read_cnt x) (log x).
Definition upd_READ_BALANCE_RR (f : _ -> _) (x : world) : world := mk_world (reqs x) (transfer_log x)
  (net_queued_log x) (retry_writes x) (submit_writes x) (held x) (most_recent_req x) (peers x) (suspended x)
  (current_tle_nr x) (current_tle_writes x) (res_dagtag_sector x) (peer_ack_req x) (peer_ack_list x)
  (peer_ack_window x) (last_peer_acked_dagtag x) (req_write_cnt x) (d_disk_state x) (ldev x) (max_node_id x)
  (md_bitmap_index x) (rb_policy x) (f (READ_BALANCE_RR x)) (NEW_CUR_UUID x) (AL_SUSPENDED x) (d_kref x)
  (local_cnt x) (ap_actlog_cnt x) (io_error_count x) (writ_cnt x) (read_cnt x) (log x).
Definition upd_d_kref (f : _ -> _) (x : world) : world := mk_world (reqs x) (transfer_log x) (net_queued_log x)
  (retry_writes x) (submit_writes x) (held x) (most_recent_req x) (peers x) (suspended x) (current_tle_nr x)
  (current_tle_writes x) (res_dagtag_sector x) (peer_ack_req x) (peer_ack_list x) (peer_ack_window x)
  (last_peer_acked_dagtag x) (req_write_cnt x) (d_disk_state x) (ldev x) (max_node_id x) (md_bitmap_index x)
  (rb_policy x) (READ_BALANCE_RR x) (NEW_CUR_UUID x) (AL_SUSPENDED x) (f (d_kref x)) (local_cnt x) (ap_actlog_cnt
  x) (io_error_count x) (writ_cnt x) (read_cnt x) (log x).
Definition upd_local_cnt (f : _ -> _) (x : world) : world := mk_world (reqs x) (transfer_log x) (net_queued_log
  x) (retry_writes x) (submit_writes x) (held x) (most_recent_req x) (peers x) (suspended x) (current_tle_nr x)
  (current_tle_writes x) (res_dagtag_sector x) (peer_ack_req x) (peer_ack_list x) (peer_ack_window x)
  (last_peer_acked_dagtag x) (req_write_cnt x) (d_disk_state x) (ldev x) (max_node_id x) (md_bitmap_index x)
  (rb_policy x) (READ_BALANCE_RR x) (NEW_CUR_UUID x) (AL_SUSPENDED x) (d_kref x) (f (local_cnt x)) (ap_actlog_cnt
  x) (io_error_count x) (writ_cnt x) (read_cnt x) (log x).
Definition upd_ap_actlog_cnt (f : _ -> _) (x : world) : world := mk_world (reqs x) (transfer_log x)
  (net_queued_log x) (retry_writes x) (submit_writes x) (held x) (most_recent_req x) (peers x) (suspended x)
  (current_tle_nr x) (current_tle_writes x) (res_dagtag_sector x) (peer_ack_req x) (peer_ack_list x)
  (peer_ack_window x) (last_peer_acked_dagtag x) (req_write_cnt x) (d_disk_state x) (ldev x) (max_node_id x)
  (md_bitmap_index x) (rb_policy x) (READ_BALANCE_RR x) (NEW_CUR_UUID x) (AL_SUSPENDED x) (d_kref x) (local_cnt x)
  (f (ap_actlog_cnt x)) (io_error_count x) (writ_cnt x) (read_cnt x) (log x).
Definition upd_io_error_count (f : _ -> _) (x : world) : world := mk_world (reqs x) (transfer_log x)
  (net_queued_log x) (retry_writes x) (submit_writes x) (held x) (most_recent_req x) (peers x) (suspended x)
  (current_tle_nr x) (current_tle_writes x) (res_dagtag_sector x) (peer_ack_req x) (peer_ack_list x)
  (peer_ack_window x) (last_peer_acked_dagtag x) (req_write_cnt x) (d_disk_state x) (ldev x) (max_node_id x)
  (md_bitmap_index x) (rb_policy x) (READ_BALANCE_RR x) (NEW_CUR_UUID x) (AL_SUSPENDED x) (d_kref x) (local_cnt x)
  (ap_actlog_cnt x) (f (io_error_count x)) (writ_cnt x) (read_cnt x) (log x).
Definition upd_writ_cnt (f : _ -> _) (x : world) : world := mk_world (reqs x) (transfer_log x) (net_queued_log
  x) (retry_writes x) (submit_writes x) (held x) (most_recent_req x) (peers x) (suspended x) (current_tle_nr x)
  (current_tle_writes x) (res_dagtag_sector x) (peer_ack_req x) (peer_ack_list x) (peer_ack_window x)
  (last_peer_acked_dagtag x) (req_write_cnt x) (d_disk_state x) (ldev x) (max_node_id x) (md_bitmap_index x)
  (rb_policy x) (READ_BALANCE_RR x) (NEW_CUR_UUID x) (AL_SUSPENDED x) (d_kref x) (local_cnt x) (ap_actlog_cnt x)
  (io_error_count x) (f (writ_cnt x)) (read_cnt x) (log x).
Definition upd_read_cnt (f : _ -> _) (x : world) : world := mk_world (reqs x) (transfer_log x) (net_queued_log
  x) (retry_writes x) (submit_writes x) (held x) (most_recent_req x) (peers x) (suspended x) (current_tle_nr x)
  (current_tle_writes x) (res_dagtag_sector x) (peer_ack_req x) (peer_ack_list x) (peer_ack_window x)
  (last_peer_acked_dagtag x) (req_write_cnt x) (d_disk_state x) (ldev x) (max_node_id x) (md_bitmap_index x)
  (rb_policy x) (READ_BALANCE_RR x) (NEW_CUR_UUID x) (AL_SUSPENDED x) (d_kref x) (local_cnt x) (ap_actlog_cnt x)
  (io_error_count x) (writ_cnt x) (f (read_cnt x)) (log x).
Definition upd_log (f : _ -> _) (x : world) : world := mk_world (reqs x) (transfer_log x) (net_queued_log x)
  (retry_writes x) (submit_writes x) (held x) (most_recent_req x) (peers x) (suspended x) (current_tle_nr x)
  (current_tle_writes x) (res_dagtag_sector x) (peer_ack_req x) (peer_ack_list x) (peer_ack_window x)
  (last_peer_acked_dagtag x) (req_write_cnt x) (d_disk_state x) (ldev x) (max_node_id x) (md_bitmap_index x)
  (rb_policy x) (READ_BALANCE_RR x) (NEW_CUR_UUID x) (AL_SUSPENDED x) (d_kref x) (local_cnt x) (ap_actlog_cnt x)
  (io_error_count x) (writ_cnt x) (read_cnt x) (f (log x)).

(** [rq_state[idx]] *)
Definition state_at (rq : bsr_request) (idx : nat) : Z := nth idx (rq_state rq) 0.
Definition bsr_req_state_by_peer_device (rq : bsr_request) (p : nat) : Z := state_at rq (S p).

Definition emit (e : effect) (w : world) : world := upd_log (fun l => l ++ [e]) w.
Definition emit_if (b : bool) (e : effect) (w : world) : world := if b then emit e w else w.
Definition upd_req (r : nat) (f : bsr_request -> bsr_request) (w : world) : world := upd_reqs (alter f r) w.
Definition upd_peer (p : nat) (f : peer -> peer) (w : world) : world := upd_peers (alter (fmap f) p) w.

(** [req->rq_state[idx] = f(req->rq_state[idx])] *)
Definition upd_state (idx : nat) (f : Z -> Z) (rq : bsr_request) : bsr_request := upd_rq_state (alter f idx) rq.

(** Take one occurrence of [r] from a list of references. *)
Fixpoint remove_one (r : nat) (l : list nat) : list nat :=
  match l with
  | [] => []
  | x :: l => if decide (x = r) then l else x :: remove_one r l
  end.

(** ** Epochs *)

Definition start_new_tl_epoch (w : world) : world :=
  if current_tle_writes w =? 0 then w
  else emit E_wake_senders (upd_current_tle_nr (fun n => s32 (n + 1)) (upd_current_tle_writes (fun _ => 0) w)).

(** ** Caching pointers of a connection

    The members of the transfer log after [r], or nothing when [r] is not on
    the transfer log (the walk over its list head would not end). *)
Fixpoint tl_after (r : nat) (tl : list nat) : option (list nat) :=
  match tl with
  | [] => None
  | x :: tl => if decide (x = r) then Some tl else tl_after r tl
  end.

Definition set_if_null_req_next (p r : nat) : world -> world :=
  upd_peer p (upd_req_next (fun x => match x with NEXT_NULL => NEXT_REQ r | _ => x end)).

Definition advance_conn_req_next (p r : nat) (w : world) : world :=
  match peer_of w p with
  | None => w
  | Some c =>
    if decide (req_next c <> NEXT_REQ r) then w
    else match tl_after r (transfer_log w) with
         | None => emit E_endless w
         | Some tl =>
           let next := list_find (fun x => has (bsr_req_state_by_peer_device (req w x) p) RQ_NET_QUEUED) tl in
           upd_peer p (upd_req_next (fun _ => match next with Some (_, x) => NEXT_REQ x | None => NEXT_NULL end)) w
         end
  end.

Definition set_if_null_req_ack_pending (p r : nat) : world -> world :=
  upd_peer p (upd_req_ack_pending (fun x => match x with None => Some r | _ => x end)).

Definition advance_conn_req_ack_pending (p r : nat) (w : world) : world :=
  match peer_of w p with
  | None => w
  | Some c =>
    if decide (req_ack_pending c <> Some r) then w
    else match tl_after r (transfer_log w) with
         | None => emit E_endless w
         | Some tl =>
           let next := list_find (fun x => let s := bsr_req_state_by_peer_device (req w x) p in
                                           has s RQ_NET_SENT && has s RQ_NET_PENDING) tl in
           upd_peer p (upd_req_ack_pending (fun _ => snd <$> next)) w
         end
  end.

Definition set_if_null_req_not_net_done (p r : nat) : world -> world :=
  upd_peer p (upd_req_not_net_done (fun x => match x with None => Some r | _ => x end)).

Definition advance_conn_req_not_net_done (p r : nat) (w : world) : world :=
  match peer_of w p with
  | None => w
  | Some c =>
    if decide (req_not_net_done c <> Some r) then w
    else match tl_after r (transfer_log w) with
         | None => emit E_endless w
         | Some tl =>
           let next := list_find (fun x => let s := bsr_req_state_by_peer_device (req w x) p in
                                           has s RQ_NET_SENT && negb (has s RQ_NET_DONE)) tl in
           upd_peer p (upd_req_not_net_done (fun _ => snd <$> next)) w
         end
  end.

(** ** Counters of a peer *)

Definition add_ap_in_flight (size : Z) (p : nat) : world -> world :=
  upd_peer p (fun c => upd_ap_in_flight (fun x => x + size) (upd_ap_in_flight_cnt (fun x => x + 1) c)).

Definition sub_ap_in_flight (size : Z) (p : nat) : world -> world :=
  upd_peer p (fun c => upd_ap_in_flight (fun x => if x - size <? 0 then 0 else x - size)
                         (upd_ap_in_flight_cnt (fun x => if x - 1 <? 0 then 0 else x - 1) c)).

Definition inc_ap_pending (p : nat) : world -> world := upd_peer p (upd_ap_pending_cnt (fun x => x + 1)).

Definition dec_ap_pending (p : nat) (w : world) : world :=
  let w := upd_peer p (upd_ap_pending_cnt (fun x => x - 1)) w in
  emit_if (match peer_of w p with Some c => ap_pending_cnt c <? 0 | None => false end) E_assert w.

(** The peers [for_each_peer_device] visits. *)
Definition peer_ids (w : world) : list nat :=
  List.filter (fun p => bool_decide (is_Some (peer_of w p))) (seq 0 (length (peers w))).

(** [get_ldev_if_state(device, min)] *)
Definition get_ldev_if_state (w : world) (min : bsr_disk_state) : bool :=
  bool_decide (is_Some (ldev w)) && (min <=? d_disk_state w).

Definition put_ldev : world -> world := upd_local_cnt (fun n => n - 1).

Section with_oracle.
Context (orc : oracle).

(** ** Completion towards the upper layers *)

(** The loop of [bsr_req_complete]: how many paths succeeded, unless a peer
    still works on the request. *)
Fixpoint complete_scan (rq : bsr_request) (ps : list nat) (ok : Z) : option Z :=
  match ps with
  | [] => Some ok
  | p :: ps =>
    let ns := bsr_req_state_by_peer_device rq p in
    let ok := if has ns RQ_NET_OK then ok + 1 else ok in
    if has ns RQ_NET_MASK && has ns (Z.lor RQ_NET_PENDING RQ_NET_QUEUED) then None
    else complete_scan rq ps ok
  end.

(** [E_complete r error]: [m->bio] is set, the caller completes it. *)
Definition bsr_req_complete (r : nat) (w : world) : world :=
  let rq := req w r in
  let s := state_at rq 0 in
  let ok := if has s RQ_LOCAL_OK then 1 else 0 in
  let error := s32 (private_bio rq) in
  match complete_scan rq (peer_ids w) ok with
  | None => emit (E_logic_bug 15) w
  | Some ok =>
    if negb (completion_ref rq =? 0) || (has s RQ_LOCAL_PENDING && negb (has s RQ_LOCAL_ABORTED))
    then emit (E_logic_bug 16) w
    else match master_bio rq with
    | None => emit (E_logic_bug 17) w
    | Some b =>
      let w := if bio_data_dir_write b && (epoch rq =? current_tle_nr w) then start_new_tl_epoch w else w in
      let w := if (ok =? 0) && bool_decide (bio_op b = REQ_OP_READ) && negb (bi_rahead b)
                  && bool_decide (r ∈ transfer_log w)
               then upd_req r (upd_state 0 (fun x => Z.lor x RQ_POSTPONED)) w else w in
      if negb (has (state_at (req w r) 0) RQ_POSTPONED) then
        let eh := default EP_PASSTHROUGH (ldev w) in
        let err := if decide (eh = EP_PASSTHROUGH) then error
                   else if negb (ok =? 0) then 0 else if negb (error =? 0) then error else - EIO in
        upd_req r (fun q => upd_i_completed (fun _ => true) (upd_master_bio (fun _ => None) q))
          (emit (E_complete r err) w)
      else w
    end
  end.

(** [bsr_main.c]: back to the retry worker. *)
Definition bsr_restart_request (r : nat) (w : world) : world :=
  let w := upd_req r (upd_nq_ref (fun _ => 0)) w in
  let w := upd_net_queued_log (filter (.≠ r)) w in
  let w := upd_retry_writes (fun l => l ++ [r]) (upd_transfer_log (filter (.≠ r)) w) in
  emit (E_restart r) w.

(** Returns whether the caller has to put the reference that completion held. *)
Definition bsr_req_put_completion_ref (r : nat) (put : Z) (w : world) : world * Z :=
  let w := upd_req r (upd_completion_ref (fun n => n - put)) w in
  let n := completion_ref (req w r) in
  if negb (n =? 0) then (emit_if (n <? 0) (E_logic_bug 32) w, 0)
  else
    let w := bsr_req_complete r w in
    if has (state_at (req w r) 0) RQ_POSTPONED then (bsr_restart_request r w, 0)
    else (w, 1).

(** ** Destruction *)

Definition peer_ack_differs (w : world) (r1 r2 : nat) : bool :=
  existsb (fun p => negb (Bool.eqb (has (state_at (req w r1) (S p)) RQ_NET_OK)
                                   (has (state_at (req w r2) (S p)) RQ_NET_OK)))
    (seq 0 (S (max_node_id w))).

(** [(s64)(a) - (s64)(b) >= 0] *)
Definition s64 (x : Z) : Z := wrap 64 (x + 2 ^ 63) - 2 ^ 63.
Definition dagtag_newer_eq (a b : Z) : bool := 0 <=? s64 (s64 a - s64 b).

Definition peer_ack_window_full (w : world) (r : nat) : bool :=
  dagtag_newer_eq (dagtag_sector (req w r)) (u64 (last_peer_acked_dagtag w + peer_ack_window w)).

(** One connection of [bsr_queue_peer_ack]. *)
Definition queue_peer_ack_to (r : nat) (wq : world * bool) (p : nat) : world * bool :=
  let '(w, queued) := wq in
  match peer_of w p with
  | None => (w, queued)
  | Some c =>
    if (pro_version c <? 110) || negb (p_cstate c =? C_CONNECTED) || negb (has (state_at (req w r) (S p)) RQ_NET_SENT)
    then (w, queued)
    else
      let w := upd_req r (upd_kref (fun k => if k =? 0 then 1 else k + 1)) w in
      let w := upd_req r (upd_state (S p) (fun x => Z.lor x RQ_PEER_ACK)) w in
      let w := if queued then w else upd_peer_ack_list (fun l => l ++ [r]) w in
      (emit (E_peer_ack p r) w, true)
  end.

Definition bsr_queue_peer_ack (r : nat) (w : world) : world :=
  let '(w, queued) := foldl (queue_peer_ack_to r) (w, false) (peer_ids w) in
  if queued then w else emit (E_free r) (upd_req_write_cnt (fun n => n - 1) w).

(** Which bitmap slots a finished write sets and clears: a slot with its bit
    clear in [mask] is left alone, otherwise the bit in [bits] says whether
    the blocks become out of sync. *)
Definition clear_bit (i x : Z) : Z := Z.ldiff x (Z.shiftl 1 i).
Definition UINTPTR_MAX : Z := 2 ^ 64 - 1.

Definition sync_bits (w : world) (r : nat) : Z * Z :=
  foldl (fun '(bits, mask) p =>
    let rq_state := state_at (req w r) (S p) in
    if has rq_state RQ_NET_OK || (has rq_state RQ_NET_DONE && has rq_state RQ_OOS_NET_QUEUED)
       || has rq_state RQ_OOS_LOCAL_DONE
    then
      let bitmap_index := nth p (md_bitmap_index w) (-1) in
      if bitmap_index =? -1 then (bits, mask)
      else if has rq_state RQ_NET_SIS then (clear_bit bitmap_index bits, mask)
      else (bits, clear_bit bitmap_index mask)
    else (bits, mask))
    (UINTPTR_MAX, UINTPTR_MAX) (seq 0 (S (max_node_id w))).

(** Tell a connected peer about bits the write left behind. *)
Definition send_new_oos (r : nat) (set_bits : list Z) (w : world) (p : nat) : world :=
  match peer_of w p with
  | None => w
  | Some c =>
    if bool_decide (p_bitmap_index c ∈ set_bits) && (C_CONNECTED <=? p_cstate c) then
      emit (if o_alloc orc (log w) then E_send_oos p (i_sector (req w r)) (i_size (req w r)) else E_disconnect p) w
    else w
  end.

Definition destroy_bitmap (r : nat) (s : Z) (w : world) : world :=
  let rq := req w r in
  if negb (Z.land s (Z.lor RQ_POSTPONED (Z.lor RQ_LOCAL_MASK RQ_NET_MASK)) =? RQ_POSTPONED)
     && negb (i_size rq =? 0) && get_ldev_if_state w D_DETACHING
  then
    let '(bits, mask) := sync_bits w r in
    let w := emit (E_set_sync (i_sector rq) (i_size rq) bits mask) w in
    foldl (send_new_oos r (o_set_sync orc (log w) (i_sector rq) (i_size rq) bits mask)) w (peer_ids w)
  else w.

(** Returns [was_last_ref]. *)
Definition destroy_actlog (r : nat) (s : Z) (w : world) : world * bool :=
  if has s RQ_IN_ACT_LOG && get_ldev_if_state w D_DETACHING then
    let rq := req w r in
    let w := emit (E_al_complete_io (i_sector rq) (i_size rq)) w in
    (w, o_al_last orc (log w) (i_sector rq) (i_size rq))
  else (w, false).

Definition destroy_peer_ack (r : nat) (was_last_ref : bool) (w : world) : world :=
  let w :=
    match peer_ack_req w with
    | Some r' =>
      if peer_ack_differs w r r' || (was_last_ref && negb (ap_actlog_cnt w =? 0)) || peer_ack_window_full w r
      then bsr_queue_peer_ack r' w
      else emit (E_free r') (upd_req_write_cnt (fun n => n - 1) w)
    | None => w
    end in
  upd_last_peer_acked_dagtag (fun _ => dagtag_sector (req w r)) (upd_peer_ack_req (fun _ => Some r) w).

(** The body for one request, after the sanity checks. *)
Definition destroy_one (r : nat) (w : world) : world :=
  let s := state_at (req w r) 0 in
  let w := upd_req r (fun q => upd_destroyed (fun _ => true) (upd_nq_ref (fun _ => 0) q)) w in
  let w := upd_net_queued_log (filter (.≠ r)) w in
  let w := upd_retry_writes (filter (.≠ r)) (upd_transfer_log (filter (.≠ r)) w) in
  let w := if i_in_tree (req w r) then upd_req r (upd_i_in_tree (fun _ => false)) w
           else emit_if (has s (Z.ldiff RQ_NET_MASK RQ_NET_DONE) && negb (i_size (req w r) =? 0)) (E_logic_bug 9) w in
  let '(w, was_last_ref) :=
    if has s RQ_WRITE then destroy_actlog r s (destroy_bitmap r s w) else (w, false) in
  if has s RQ_WRITE && negb (i_size (req w r) =? 0) then destroy_peer_ack r was_last_ref w
  else emit (E_free r) (upd_req_write_cnt (fun n => n - 1) w).

(** The sanity checks; the number of the message when one fails. *)
Definition destroy_check (w : world) (r : nat) : option Z :=
  let rq := req w r in
  let s := state_at rq 0 in
  if existsb (fun p => let ns := bsr_req_state_by_peer_device rq p in
                       has ns RQ_NET_MASK && negb (has ns RQ_NET_DONE)) (peer_ids w) then Some 7
  else if (bool_decide (is_Some (master_bio rq)) && negb (has s RQ_POSTPONED))
          || negb (completion_ref rq =? 0) || has s RQ_LOCAL_PENDING then Some 8
  else None.

(** The [tail_recursion] loop; [device_refs] references of the device are put at [out]. *)
Fixpoint destroy_loop (fuel : nat) (r : nat) (device_refs : Z) (w : world) : world :=
  match fuel with
  | O => emit E_bug w
  | S fuel =>
    match destroy_check w r with
    | Some n => upd_d_kref (fun k => k - device_refs) (emit (E_logic_bug n) w)
    | None =>
      let next := destroy_next (req w r) in
      let w := destroy_one r w in
      match next with
      | Some r' =>
        let w := upd_req r' (upd_kref (fun k => k - 1)) w in
        if kref (req w r') =? 0 then destroy_loop fuel r' (device_refs + 1) w
        else upd_d_kref (fun k => k - (device_refs + 1)) w
      | None => upd_d_kref (fun k => k - (device_refs + 1)) w
      end
    end
  end.

Definition bsr_req_destroy (r : nat) (w : world) : world := destroy_loop (S (length (reqs w))) r 0 w.

(** [kref_sub(&req->kref, n, bsr_req_destroy)] *)
Definition kref_sub (r : nat) (n : Z) (w : world) : world :=
  let w := upd_req r (upd_kref (fun k => k - n)) w in
  let k := kref (req w r) in
  if k =? 0 then bsr_req_destroy r w else emit_if (k <? 0) E_assert w.

(** ** [mod_rq_state] *)

Definition at_least_version (w : world) (pd : option nat) (v : Z) : bool :=
  match pd ≫= peer_of w with Some c => v <=? pro_version c | None => false end.

(** "intent: get references" *)
Definition get_refs (r : nat) (pd : option nat) (old_local old_net set_local set : Z) (w : world) : world :=
  let idx := match pd with Some p => S p | None => O end in
  let p := default O pd in
  let w := if negb (has old_local RQ_LOCAL_PENDING) && has set_local RQ_LOCAL_PENDING
           then upd_req r (upd_completion_ref (fun n => n + 1)) w else w in
  let w := if negb (has old_net RQ_NET_PENDING) && has set RQ_NET_PENDING then
             let w := if at_least_version w pd 113 && has set RQ_OOS_PENDING
                      then upd_peer p (upd_rq_pending_oos_cnt (fun n => n + 1)) w else w in
             upd_req r (upd_completion_ref (fun n => n + 1)) (inc_ap_pending p w)
           else w in
  let w := if negb (has old_net RQ_NET_QUEUED) && has set RQ_NET_QUEUED then
             let w := upd_req r (upd_completion_ref (fun n => n + 1)) w in
             let w := upd_req r (upd_nq_ref (fun n => n + 1)) w in
             let w := if nq_ref (req w r) =? 1 then upd_net_queued_log (fun l => l ++ [r]) w else w in
             set_if_null_req_next p r w
           else w in
  let w := if negb (has old_net RQ_EXP_BARR_ACK) && has set RQ_EXP_BARR_ACK
           then upd_req r (upd_kref (fun n => n + 1)) w else w in
  let w := if negb (has old_net RQ_NET_SENT) && has set RQ_NET_SENT then
             let w := if negb (has old_net RQ_NET_DONE)
                      then set_if_null_req_not_net_done p r (add_ap_in_flight (i_size (req w r)) p w) else w in
             if has (state_at (req w r) idx) RQ_NET_PENDING then set_if_null_req_ack_pending p r w else w
           else w in
  if negb (has old_local RQ_COMPLETION_SUSP) && has set_local RQ_COMPLETION_SUSP
  then upd_req r (upd_completion_ref (fun n => n + 1)) w else w.

(** The last write that was pending as out-of-sync only: tell the peer. *)
Definition oos_finished (p : nat) (w : world) : world :=
  let w := upd_peer p (upd_rq_pending_oos_cnt (fun n => n - 1)) w in
  match peer_of w p with
  | Some c =>
    if (115 <=? pro_version c) && (p_repl_state c =? L_SYNC_SOURCE) && (rq_pending_oos_cnt c =? 0)
    then emit (if o_alloc orc (log w) then E_send_oos_finished p else E_disconnect p) w
    else w
  | None => w
  end.

(** "progress: put references"; returns [c_put] and [k_put] too. *)
Definition put_refs (r : nat) (pd : option nat) (old_local old_net set_local clear_local set clear : Z) (w : world) :
  world * Z * Z :=
  let p := default O pd in
  let c_put := b2z (has old_local RQ_COMPLETION_SUSP && has clear_local RQ_COMPLETION_SUSP) in
  let '(w, c_put) :=
    if negb (has old_local RQ_LOCAL_ABORTED) && has set_local RQ_LOCAL_ABORTED then
      (upd_req r (upd_kref (fun n => n + 1))
         (emit_if (negb (has (state_at (req w r) 0) RQ_LOCAL_PENDING)) E_assert w), c_put + 1)
    else (w, c_put) in
  let '(c_put, k_put) :=
    if has old_local RQ_LOCAL_PENDING && has clear_local RQ_LOCAL_PENDING then
      if has (state_at (req w r) 0) RQ_LOCAL_ABORTED then (c_put, 1) else (c_put + 1, 0)
    else (c_put, 0) in
  let '(w, c_put) :=
    if has old_net RQ_NET_PENDING && has clear RQ_NET_PENDING
    then (advance_conn_req_ack_pending p r (dec_ap_pending p w), c_put + 1) else (w, c_put) in
  let '(w, c_put) :=
    if has old_net RQ_NET_QUEUED && has clear RQ_NET_QUEUED then
      let w := upd_req r (upd_nq_ref (fun n => n - 1)) w in
      let w := if nq_ref (req w r) =? 0 then upd_net_queued_log (filter (.≠ r)) w else w in
      (advance_conn_req_next p r w, c_put + 1)
    else (w, c_put) in
  if negb (has old_net RQ_NET_DONE) && has set RQ_NET_DONE then
    let w := if at_least_version w pd 113 && has old_net (Z.lor RQ_OOS_NET_QUEUED RQ_OOS_PENDING)
             then oos_finished p w else w in
    let w := if has old_net RQ_NET_SENT then sub_ap_in_flight (i_size (req w r)) p w else w in
    let k_put := if has old_net RQ_EXP_BARR_ACK then k_put + 1 else k_put in
    (advance_conn_req_not_net_done p r (advance_conn_req_ack_pending p r (advance_conn_req_next p r w)), c_put, k_put)
  else (w, c_put, k_put).

(** "potentially complete and destroy" *)
Definition put_finish (r : nat) (c_put k_put : Z) (w : world) : world :=
  let at_least := k_put + b2z (negb (c_put =? 0)) in
  let w := emit_if ((negb (k_put =? 0) || negb (c_put =? 0)) && (kref (req w r) <? at_least)) (E_logic_bug 18) w in
  let '(w, k_put) :=
    if negb (c_put =? 0) then let '(w, k) := bsr_req_put_completion_ref r c_put w in (w, k_put + k) else (w, k_put) in
  if negb (k_put =? 0) then kref_sub r k_put w else w.

Definition mod_rq_state (r : nat) (pd : option nat) (clear set : Z) (w : world) : world :=
  let rq := req w r in
  let idx := match pd with Some p => S p | None => O end in
  let old_local := state_at rq 0 in
  let set_local := Z.land set RQ_STATE_0_MASK in
  let clear_local := Z.land clear RQ_STATE_0_MASK in
  let old_net := state_at rq idx in
  let set := Z.ldiff set RQ_STATE_0_MASK in
  let clear := Z.ldiff clear RQ_STATE_0_MASK in
  let set_local := Z.ldiff set_local RQ_OOS_LOCAL_DONE in
  let w := emit_if ((BSR_NODE_ID_MAX <? idx)%nat
                    || (bool_decide (idx = O) && (negb (set =? 0) || negb (clear =? 0)))) E_bug w in
  if at_least_version w pd 113 && has set RQ_OOS_NET_QUEUED && negb (has old_net RQ_OOS_PENDING) then w
  else
    let set_local := if suspended w && negb (has (Z.lor old_local clear_local) RQ_COMPLETION_SUSP)
                     then Z.lor set_local RQ_COMPLETION_SUSP else set_local in
    let w := upd_req r (upd_state 0 (fun x => Z.lor (Z.ldiff x clear_local) set_local)) w in
    let w := upd_req r (upd_state idx (fun x => Z.lor (Z.ldiff x clear) set)) w in
    if (state_at (req w r) 0 =? old_local) && (state_at (req w r) idx =? old_net) then w
    else if negb (has old_net RQ_OOS_LOCAL_DONE) && has set RQ_OOS_LOCAL_DONE then
      emit (E_set_out_of_sync (default O pd) (i_sector rq) (i_size rq)) w
    else
      let w := get_refs r pd old_local old_net set_local set w in
      let '(w, c_put, k_put) := put_refs r pd old_local old_net set_local clear_local set clear w in
      put_finish r c_put k_put w.

(** ** [__req_mod] *)

Definition BSR_PROT_A : Z := 1.
Definition BSR_PROT_B : Z := 2.
Definition BSR_PROT_C : Z := 3.

Definition is_pending_write_protocol_A (rq : bsr_request) (idx : nat) : bool :=
  if negb (has (state_at rq 0) RQ_WRITE) then false
  else Z.land (state_at rq idx) (Z.lor RQ_NET_PENDING (Z.lor RQ_EXP_WRITE_ACK RQ_EXP_RECEIVE_ACK)) =? RQ_NET_PENDING.

Definition bsr_report_io_error (w : world) : world :=
  if io_error_count w <? 2 ^ 31 - 1 then upd_io_error_count (fun n => n + 1) w else w.

Definition d_assert (b : bool) (w : world) : world := emit_if (negb b) E_assert w.

(** The message of bsr_err(20), for a barrier that overtakes its data
    acknowledgement, only reports and is left out. *)
Definition barrier_acked (r : nat) (pd : option nat) (w : world) : world :=
  let idx := match pd with Some p => S p | None => O end in
  if negb (has (state_at (req w r) 0) RQ_WRITE) then w
  else
    let w := if has (state_at (req w r) idx) RQ_NET_PENDING
             then mod_rq_state r pd RQ_NET_PENDING RQ_NET_OK w else w in
    mod_rq_state r pd RQ_COMPLETION_SUSP (if has (state_at (req w r) idx) RQ_NET_MASK then RQ_NET_DONE else 0) w.

Definition __req_mod (r : nat) (what : bsr_req_event) (pd : option nat) (w : world) : world :=
  let idx := match pd with Some p => S p | None => O end in
  let rq := req w r in
  let local := state_at rq 0 in
  let net := state_at rq idx in
  match what with
  | CREATED | NOTHING_EVENT => emit (E_logic_bug 19) w
  | TO_BE_SENT =>
    let w := d_assert (negb (bool_decide (idx = O)) && negb (has net RQ_NET_MASK)) w in
    let p := match pd ≫= peer_of w with Some c => wire_protocol c | None => 0 end in
    let w := upd_req r (upd_state idx (fun x => Z.lor x
               (if p =? BSR_PROT_C then RQ_EXP_WRITE_ACK else if p =? BSR_PROT_B then RQ_EXP_RECEIVE_ACK else 0))) w in
    mod_rq_state r pd 0 RQ_NET_PENDING w
  | TO_BE_SUBMITTED =>
    mod_rq_state r pd 0 RQ_LOCAL_PENDING (d_assert (negb (has local RQ_LOCAL_MASK)) w)
  | COMPLETED_OK =>
    let w := if has local RQ_WRITE then upd_writ_cnt (fun n => u32 (n + Z.shiftr (i_size rq) 9)) w
             else upd_read_cnt (fun n => u32 (n + Z.shiftr (i_size rq) 9)) w in
    mod_rq_state r pd RQ_LOCAL_PENDING (Z.lor RQ_LOCAL_COMPLETED RQ_LOCAL_OK) w
  | ABORT_DISK_IO => mod_rq_state r pd 0 RQ_LOCAL_ABORTED w
  | WRITE_COMPLETED_WITH_ERROR =>
    mod_rq_state r pd RQ_LOCAL_PENDING RQ_LOCAL_COMPLETED (emit (E_chk_io_error false) (bsr_report_io_error w))
  | READ_COMPLETED_WITH_ERROR =>
    let w := emit (E_set_all_out_of_sync (i_sector rq) (i_size rq)) w in
    mod_rq_state r pd RQ_LOCAL_PENDING RQ_LOCAL_COMPLETED (emit (E_chk_io_error true) (bsr_report_io_error w))
  | READ_AHEAD_COMPLETED_WITH_ERROR | DISCARD_COMPLETED_NOTSUPP | DISCARD_COMPLETED_WITH_ERROR =>
    mod_rq_state r pd RQ_LOCAL_PENDING RQ_LOCAL_COMPLETED w
  | QUEUE_FOR_NET_READ =>
    let w := d_assert (negb (i_in_tree rq)) w in
    let w := upd_req r (upd_i_in_tree (fun _ => true)) w in
    let w := d_assert (has net RQ_NET_PENDING) w in
    let w := d_assert (negb (has local RQ_LOCAL_MASK)) w in
    mod_rq_state r pd 0 RQ_NET_QUEUED w
  | QUEUE_FOR_NET_WRITE =>
    let w := mod_rq_state r pd 0 (Z.lor RQ_NET_QUEUED RQ_EXP_BARR_ACK) (d_assert (has net RQ_NET_PENDING) w) in
    let p := match pd ≫= peer_of w with Some c => max_epoch_size c | None => 0 end in
    if p <=? current_tle_writes w then start_new_tl_epoch w else w
  | QUEUE_FOR_PENDING_OOS => mod_rq_state r pd 0 (Z.lor RQ_OOS_PENDING RQ_NET_PENDING) w
  | QUEUE_FOR_SEND_OOS =>
    mod_rq_state r pd (Z.lor RQ_OOS_PENDING RQ_NET_PENDING) (Z.lor RQ_OOS_NET_QUEUED RQ_NET_QUEUED) w
  | READ_RETRY_REMOTE_CANCELED | SEND_CANCELED | SEND_FAILED => mod_rq_state r pd RQ_NET_QUEUED 0 w
  | HANDED_OVER_TO_NETWORK =>
    if is_pending_write_protocol_A rq idx
    then mod_rq_state r pd (Z.lor RQ_NET_QUEUED RQ_NET_PENDING) (Z.lor RQ_NET_SENT RQ_NET_OK) w
    else mod_rq_state r pd RQ_NET_QUEUED RQ_NET_SENT w
  | OOS_HANDED_TO_NETWORK => mod_rq_state r pd RQ_NET_QUEUED RQ_NET_DONE w
  | CONNECTION_LOST_WHILE_PENDING =>
    mod_rq_state r pd (Z.lor RQ_NET_OK (Z.lor RQ_NET_PENDING RQ_COMPLETION_SUSP)) RQ_NET_DONE w
  | DISCARD_WRITE =>
    let w := d_assert (has net RQ_EXP_WRITE_ACK) (d_assert (has net RQ_NET_PENDING) w) in
    mod_rq_state r pd RQ_NET_PENDING (Z.lor RQ_NET_DONE RQ_NET_OK) w
  | WRITE_ACKED_BY_PEER_AND_SIS =>
    mod_rq_state r pd RQ_NET_PENDING RQ_NET_OK (upd_req r (upd_state idx (fun x => Z.lor x RQ_NET_SIS)) w)
  | WRITE_ACKED_BY_PEER => mod_rq_state r pd RQ_NET_PENDING RQ_NET_OK w
  | RECV_ACKED_BY_PEER => mod_rq_state r pd RQ_NET_PENDING RQ_NET_OK (d_assert (has net RQ_EXP_RECEIVE_ACK) w)
  | POSTPONE_WRITE =>
    let w := d_assert (has net RQ_NET_PENDING) (d_assert (has net RQ_EXP_WRITE_ACK) w) in
    upd_req r (upd_state 0 (fun x => Z.lor x RQ_POSTPONED)) w
  | NEG_ACKED => mod_rq_state r pd (Z.lor RQ_NET_OK RQ_NET_PENDING) RQ_NET_DONE w
  | FAIL_FROZEN_DISK_IO =>
    if negb (has local RQ_LOCAL_COMPLETED) then w else mod_rq_state r pd RQ_COMPLETION_SUSP 0 w
  | RESTART_FROZEN_DISK_IO => emit E_bug w
  | RESEND =>
    if negb (has local RQ_WRITE) && negb (has net RQ_NET_MASK) then mod_rq_state r pd RQ_COMPLETION_SUSP 0 w
    else if negb (has net RQ_NET_OK) then
      mod_rq_state r pd RQ_COMPLETION_SUSP (Z.lor RQ_NET_QUEUED RQ_NET_PENDING) w
    else barrier_acked r pd w
  | BARRIER_ACKED => barrier_acked r pd w
  | DATA_RECEIVED =>
    mod_rq_state r pd RQ_NET_PENDING (Z.lor RQ_NET_OK RQ_NET_DONE) (d_assert (has net RQ_NET_PENDING) w)
  | QUEUE_AS_BSR_BARRIER =>
    let w := start_new_tl_epoch w in
    foldl (fun w p => mod_rq_state r (Some p) 0 (Z.lor RQ_NET_OK RQ_NET_DONE) w) w (peer_ids w)
  | OOS_SET_TO_LOCAL => mod_rq_state r pd 0 RQ_OOS_LOCAL_DONE w
  end.

(** ** From a bio to a request *)

(** [bsr_req_new], with memory for the request and the private copy of the
    bio; [addr] is the address of the copy. *)
Definition bsr_req_new (b : bio) (addr : Z) (w : world) : world * nat :=
  let s0 := Z.lor (if bio_data_dir_write b then RQ_WRITE else 0)
              (Z.lor (if decide (bio_op b = REQ_OP_WRITE_ZEROES) then RQ_ZEROES else 0)
                     (if decide (bio_op b = REQ_OP_DISCARD) then RQ_UNMAP else 0)) in
  let rq := mk_request (s0 :: replicate BSR_NODE_ID_MAX 0) 1 1 (Some b) addr 0 (bi_sector b) (bi_size b)
              false false 0 None 0 false in
  (upd_d_kref (fun k => k + 1) (upd_req_write_cnt (fun n => n + 1) (upd_reqs (fun l => l ++ [rq]) w)),
   length (reqs w)).

Definition bsr_should_do_remote (c : peer) : bool :=
  (p_disk_state c =? D_UP_TO_DATE) || (p_repl_state c =? L_STARTING_SYNC_S) || (p_repl_state c =? L_WF_BITMAP_S)
  || ((p_disk_state c =? D_INCONSISTENT)
      && ((p_repl_state c =? L_ESTABLISHED) || ((L_WF_BITMAP_T <=? p_repl_state c) && (p_repl_state c <? L_AHEAD)))).

Definition bsr_should_send_out_of_sync (c : peer) : bool := p_repl_state c =? L_AHEAD.

(** One peer of [bsr_process_write_request]. *)
Definition process_write_to (r : nat) (acc : world * Z * bool) (p : nat) : world * Z * bool :=
  let '(w, count, in_tree) := acc in
  match peer_of w p with
  | None => acc
  | Some c =>
    let remote := bsr_should_do_remote c in
    let send_oos := bsr_should_send_out_of_sync c in
    if negb remote && negb send_oos then
      if negb (p_bitmap_index c =? -1) && negb (p_cstate c =? C_CONNECTED)
      then (__req_mod r OOS_SET_TO_LOCAL (Some p) w, count, in_tree) else acc
    else
      let w := d_assert (negb (remote && send_oos)) w in
      if remote then
        let w := __req_mod r TO_BE_SENT (Some p) w in
        let w := if in_tree then w else upd_req r (upd_i_in_tree (fun _ => true)) w in
        (__req_mod r QUEUE_FOR_NET_WRITE (Some p) w, count + 1, true)
      else
        let n := o_set_out_of_sync orc (log w) p (i_sector (req w r)) (i_size (req w r)) in
        let w := emit (E_set_out_of_sync p (i_sector (req w r)) (i_size (req w r))) w in
        if 113 <=? pro_version c then (__req_mod r QUEUE_FOR_PENDING_OOS (Some p) w, count, in_tree)
        else if negb (n =? 0) || has (state_at (req w r) (S p)) RQ_IN_AL_OOS
        then (__req_mod r QUEUE_FOR_SEND_OOS (Some p) w, count, in_tree)
        else (w, count, in_tree)
  end.

(** Returns the number of peers that will write the data. *)
Definition bsr_process_write_request (r : nat) (w : world) : world * Z :=
  let '(w, count, _) := foldl (process_write_to r) (w, 0, false) (peer_ids w) in (w, count).

Definition may_do_writes (w : world) : bool :=
  (d_disk_state w =? D_UP_TO_DATE)
  || existsb (fun p => match peer_of w p with Some c => p_disk_state c =? D_UP_TO_DATE | None => false end) (peer_ids w).

Definition BM_SECT_TO_BIT (x : Z) : Z := Z.shiftr x 3.

Definition bsr_may_do_local_read (w : world) (sector size : Z) : bool :=
  if d_disk_state w =? D_UP_TO_DATE then true
  else if negb (d_disk_state w =? D_INCONSISTENT) then false
  else
    let esector := sector + Z.shiftr size 9 - 1 in
    forallb (fun p => let bitmap_index := nth p (md_bitmap_index w) (-1) in
                      (bitmap_index =? -1)
                      || (o_bm_count_bits orc (log w) bitmap_index (BM_SECT_TO_BIT sector) (BM_SECT_TO_BIT esector) =? 0))
      (seq 0 BSR_NODE_ID_MAX).

(** Returns the new value of the round-robin flag too. *)
Definition remote_due_to_read_balancing (w : world) (c : peer) (sector : Z) (rbm : read_balancing) : bool * bool :=
  let rr := READ_BALANCE_RR w in
  match rbm with
  | RB_CONGESTED_REMOTE => (o_congested orc (log w), rr)
  | RB_LEAST_PENDING => (ap_pending_cnt c + rs_pending_cnt c <? local_cnt w, rr)
  | RB_STRIPING stripe_shift => (Z.odd (Z.shiftr sector (stripe_shift - 9)), rr)
  | RB_ROUND_ROBIN => (rr, negb rr)
  | RB_PREFER_REMOTE => (true, rr)
  | RB_PREFER_LOCAL => (false, rr)
  end.

(** [bio_put(req->private_bio); req->private_bio = NULL; put_ldev(device)] *)
Definition drop_private_bio (r : nat) (w : world) : world :=
  put_ldev (upd_req r (upd_private_bio (fun _ => 0)) w).

Fixpoint find_read_peer (r : nat) (rbm : read_balancing) (ps : list nat) (w : world) : world * option nat :=
  match ps with
  | [] => (w, None)
  | p :: ps =>
    match peer_of w p with
    | None => find_read_peer r rbm ps w
    | Some c =>
      if negb (p_disk_state c =? D_UP_TO_DATE) then find_read_peer r rbm ps w
      else if private_bio (req w r) =? 0 then (w, Some p)
      else
        let '(remote, rr) := remote_due_to_read_balancing w c (i_sector (req w r)) rbm in
        let w := upd_READ_BALANCE_RR (fun _ => rr) w in
        if remote then (w, Some p) else find_read_peer r rbm ps w
    end
  end.

Definition find_peer_device_for_read (r : nat) (w : world) : world * option nat :=
  let rq := req w r in
  let w := if negb (private_bio rq =? 0) && negb (bsr_may_do_local_read w (i_sector rq) (i_size rq))
           then drop_private_bio r w else w in
  let rbm := if D_DISKLESS <? d_disk_state w then rb_policy w else RB_PREFER_REMOTE in
  if (D_DISKLESS <? d_disk_state w) && bool_decide (rbm = RB_PREFER_LOCAL) && negb (private_bio (req w r) =? 0)
  then (w, None)
  else
    let '(w, pd) := find_read_peer r rbm (peer_ids w) w in
    match pd with
    | Some _ => ((if negb (private_bio (req w r) =? 0) then drop_private_bio r w else w), pd)
    | None => (w, None)
    end.

Definition bsr_update_plug (r : nat) (w : world) : world :=
  let tmp := most_recent_req w in
  let w := upd_most_recent_req (fun _ => Some r) (upd_req r (upd_kref (fun k => k + 1)) w) in
  match tmp with Some t => kref_sub t 1 w | None => w end.

(** [bsr_unplug]: the task's plug is flushed. *)
Definition bsr_unplug (w : world) : world :=
  match most_recent_req w with
  | None => w
  | Some r =>
    let w := upd_req r (upd_state 0 (fun x => Z.lor x RQ_UNPLUG)) w in
    kref_sub r 1 (upd_most_recent_req (fun _ => None) w)
  end.

(** Make the write depend on the previous one, and log it. *)
Definition tl_add (r : nat) (write : bool) (w : world) : world :=
  if i_size (req w r) =? 0 then w
  else
    let w :=
      if write then
        let w := upd_current_tle_writes (fun n => n + 1) w in
        match list_find (fun x => has (state_at (req w x) 0) RQ_WRITE) (rev (transfer_log w)) with
        | Some (_, r2) =>
          let w := emit_if (bool_decide (is_Some (destroy_next (req w r2)))) E_bug w in
          upd_req r (upd_kref (fun k => k + 1)) (upd_req r2 (upd_destroy_next (fun _ => Some r)) w)
        | None => w
        end
      else w in
    upd_transfer_log (fun l => l ++ [r]) w.

Definition submit_out (r : nat) (w : world) : world :=
  let '(w, k) := bsr_req_put_completion_ref r 1 w in
  if negb (k =? 0) then kref_sub r 1 w else w.

(** From the place where the paths are known: [no_remote] when no peer takes part. *)
Definition submit_paths (r : nat) (no_remote : bool) (w : world) : world :=
  let w := if negb no_remote && o_plugged orc (log w) then bsr_update_plug r w else w in
  if negb (private_bio (req w r) =? 0) then
    emit (E_submit r) (submit_out r (__req_mod r TO_BE_SUBMITTED None w))
  else submit_out r w.

Definition bsr_send_and_submit (r : nat) (w : world) : world :=
  let write := match master_bio (req w r) with Some b => bio_data_dir_write b | None => false end in
  if suspended w then
    let w := upd_req r (upd_state 0 (fun x => Z.lor x RQ_POSTPONED)) w in
    submit_out r (if negb (private_bio (req w r) =? 0) then drop_private_bio r w else w)
  else
    let '(w, pd) := if write then (w, None) else find_peer_device_for_read r w in
    if negb write && bool_decide (pd = None) && (private_bio (req w r) =? 0) then submit_out r w
    else
      let w := upd_req r (upd_epoch (fun _ => current_tle_nr w)) w in
      let w := if write then upd_res_dagtag_sector (fun x => u64 (x + Z.shiftr (i_size (req w r)) 9)) w else w in
      let w := upd_req r (upd_dagtag_sector (fun _ => res_dagtag_sector w)) w in
      let w := tl_add r write w in
      if write then
        if negb (private_bio (req w r) =? 0) && negb (may_do_writes w) then submit_out r (drop_private_bio r w)
        else if i_size (req w r) =? 0 then
          let w := d_assert (match master_bio (req w r) with Some b => bi_preflush b | None => false end) w in
          submit_paths r false (emit E_wake_senders (__req_mod r QUEUE_AS_BSR_BARRIER None w))
        else
          let '(w, count) := bsr_process_write_request r w in
          submit_paths r (count =? 0) (emit E_wake_senders w)
      else match pd with
        | Some p =>
          submit_paths r false (__req_mod r QUEUE_FOR_NET_READ (Some p) (__req_mod r TO_BE_SENT (Some p) w))
        | None => submit_paths r true w
        end.

(** [bsr_req_in_actlog] *)
Definition bsr_req_in_actlog (r : nat) : world -> world :=
  upd_req r (upd_state 0 (fun x => Z.lor x RQ_IN_ACT_LOG)).

Definition bsr_queue_write (r : nat) (w : world) : world :=
  upd_submit_writes (fun l => l ++ [r]) (upd_ap_actlog_cnt (fun n => n + 1) w).

(** Returns the request, if the caller is to submit it; [addr] is 0 when
    [bsr_req_new] could not allocate the request or the copy of the bio, which
    then is failed with -ENOMEM. *)
Definition bsr_request_prepare (b : bio) (addr : Z) (w : world) : world * option nat :=
  if addr =? 0 then (emit E_enomem w, None) else
  let '(w, r) := bsr_req_new b addr w in
  let w := if get_ldev_if_state w D_INCONSISTENT then upd_local_cnt (fun n => n + 1) w
           else upd_req r (upd_private_bio (fun _ => 0)) w in
  if bool_decide (bio_op b = REQ_OP_WRITE_ZEROES) || bool_decide (bio_op b = REQ_OP_DISCARD)
  then (bsr_queue_write r w, None)
  else if bio_data_dir_write b && negb (bi_size b =? 0) then
    if NEW_CUR_UUID w then (bsr_queue_write r w, None)
    else if negb (private_bio (req w r) =? 0) && negb (AL_SUSPENDED w) then
      if negb (o_al_fastpath orc (log w) (bi_sector b) (bi_size b)) then (bsr_queue_write r w, None)
      else (bsr_req_in_actlog r w, Some r)
    else (w, Some r)
  else (w, Some r).

Definition __bsr_make_request (b : bio) (addr : Z) (w : world) : world :=
  match bsr_request_prepare b addr w with
  | (w, Some r) => bsr_send_and_submit r w
  | (w, None) => w
  end.

(** One request of [submit_fast_path]. *)
Definition submit_fast_path_one (r : nat) (w : world) : world :=
  let rq := req w r in
  let write := match master_bio rq with Some b => bio_data_dir_write b | None => false end in
  let needs_al := write && negb (private_bio rq =? 0) && negb (i_size rq =? 0) && negb (AL_SUSPENDED w) in
  if needs_al && negb (o_al_fastpath orc (log w) (i_sector rq) (i_size rq)) then w
  else
    let w := if needs_al then upd_ap_actlog_cnt (fun n => n - 1) (bsr_req_in_actlog r w) else w in
    bsr_send_and_submit r (upd_submit_writes (filter (.≠ r)) w).

(** One request of [do_retry] (bsr_main.c). *)
Definition do_retry_one (r : nat) (addr : Z) (w : world) : world :=
  let rq := req w r in
  let s := state_at rq 0 in
  let w := d_assert ((completion_ref rq =? 0) && has s RQ_POSTPONED
                     && (negb (has s RQ_LOCAL_PENDING) || has s RQ_LOCAL_ABORTED)) w in
  let w := kref_sub r 1 (upd_retry_writes (filter (.≠ r)) w) in
  match master_bio rq with
  | Some b => __bsr_make_request b addr w
  | None => emit E_bug w
  end.

(** ** Completion of the local disk I/O (bsr_sender.c) *)

Definition EOPNOTSUPP : Z := 95.

Definition endio_event (b : bio) (error : Z) : bsr_req_event :=
  if error =? 0 then COMPLETED_OK
  else match bio_op b with
       | REQ_OP_WRITE_ZEROES | REQ_OP_DISCARD =>
         if error =? - EOPNOTSUPP then DISCARD_COMPLETED_NOTSUPP else DISCARD_COMPLETED_WITH_ERROR
       | REQ_OP_READ => if bi_rahead b then READ_AHEAD_COMPLETED_WITH_ERROR else READ_COMPLETED_WITH_ERROR
       | REQ_OP_WRITE => WRITE_COMPLETED_WITH_ERROR
       end.

(** A write that a peer is only told about: send it now that it is on disk. *)
Definition endio_oos (r : nat) (w : world) (p : nat) : world :=
  if at_least_version w (Some p) 113 && has (state_at (req w r) (S p)) RQ_OOS_PENDING then
    __req_mod r QUEUE_FOR_SEND_OOS (Some p) (emit (E_set_out_of_sync p (i_sector (req w r)) (i_size (req w r))) w)
  else w.

(** [b] is the private copy of the bio. *)
Definition bsr_request_endio (r : nat) (b : bio) (error : Z) (w : world) : world :=
  let w := emit_if (has (state_at (req w r) 0) RQ_LOCAL_ABORTED && (error =? 0)) E_bug w in
  let w := upd_req r (upd_private_bio (fun _ => error)) w in
  let w := foldl (endio_oos r) w (peer_ids w) in
  put_ldev (__req_mod r (endio_event b error) None w).

(** ** Walks over the transfer log (bsr_main.c) *)

Definition tl_next (w : world) (r : nat) : option nat := tl_after r (transfer_log w) ≫= head.

Definition hold (r : option nat) (w : world) : world :=
  match r with
  | Some r => upd_held (cons r) (upd_req r (upd_kref (fun k => k + 1)) w)
  | None => w
  end.

Definition unhold (r : nat) (w : world) : world := kref_sub r 1 (upd_held (fun l => remove_one r l) w).

(** [__tl_next_req_ref]: the next request that is still there, and its successor. *)
Fixpoint __tl_next_req_ref (fuel : nat) (next : option nat) (w : world) : world * option (nat * option nat) :=
  match fuel, next with
  | _, None => (w, None)
  | O, _ => (emit E_bug w, None)
  | S fuel, Some r =>
    let next := tl_next w r in
    let w := unhold r (hold next w) in
    if destroyed (req w r) then __tl_next_req_ref fuel next w else (w, Some (r, next))
  end.

(** [tl_for_each_req_ref_from] with a body that returns whether to go on. *)
Fixpoint tl_for_each_req_ref_from (fuel : nat) (body : nat -> world -> option world) (r : nat) (next : option nat)
  (w : world) : world :=
  match fuel with
  | O => emit E_bug w
  | S fuel =>
    match body r w with
    | None => match next with Some n => unhold n w | None => w end
    | Some w =>
      match __tl_next_req_ref (S (length (transfer_log w))) next w with
      | (w, None) => w
      | (w, Some (r, next)) => tl_for_each_req_ref_from fuel body r next w
      end
    end
  end.

Definition tl_walk (body : nat -> world -> option world) (first : option nat) (w : world) : world :=
  match first with
  | None => w
  | Some r =>
    let next := tl_next w r in
    tl_for_each_req_ref_from (S (length (transfer_log w))) body r next (hold next w)
  end.

Definition _tl_restart (p : nat) (what : bsr_req_event) (w : world) : world :=
  tl_walk (fun r w => Some (__req_mod r what (Some p) w)) (head (transfer_log w)) w.

Definition tl_clear (p : nat) : world -> world := _tl_restart p CONNECTION_LOST_WHILE_PENDING.

Definition tl_abort_disk_io (w : world) : world :=
  tl_walk (fun r w => Some (if has (state_at (req w r) 0) RQ_LOCAL_PENDING
                            then __req_mod r ABORT_DISK_IO None w else w)) (head (transfer_log w)) w.

(** [expect_epoch] and [expect_size] of [tl_release]: the epoch of the oldest
    write the peer has not acknowledged with a barrier, and its size. *)
Definition awaits_barrier_ack (w : world) (p r : nat) : bool :=
  let rq := req w r in
  let net := state_at rq (S p) in
  has (state_at rq 0) RQ_WRITE && has net RQ_NET_MASK && negb (has net RQ_NET_DONE) && has net RQ_EXP_BARR_ACK.

Fixpoint epoch_size (w : world) (p : nat) (e : Z) (tl : list nat) : Z :=
  match tl with
  | [] => 0
  | r :: tl =>
    if negb (epoch (req w r) =? e) then 0
    else b2z (awaits_barrier_ack w p r) + epoch_size w p e tl
  end.

Fixpoint oldest_epoch (w : world) (p : nat) (tl : list nat) : option (Z * Z) :=
  match tl with
  | [] => None
  | r :: tl =>
    if awaits_barrier_ack w p r then Some (epoch (req w r), 1 + epoch_size w p (epoch (req w r)) tl)
    else oldest_epoch w p tl
  end.

(** Returns [false] when the connection has to be torn down. *)
Definition tl_release (p : nat) (barrier_nr set_size : Z) (w : world) : world * bool :=
  match oldest_epoch w p (transfer_log w) with
  | None => (w, false)
  | Some (expect_epoch, expect_size) =>
    if negb (expect_epoch =? barrier_nr) || negb (expect_size =? set_size) then (w, false)
    else
      (tl_walk (fun r w => if negb (epoch (req w r) =? expect_epoch) then None
                           else Some (__req_mod r BARRIER_ACKED (Some p) w))
         (snd <$> list_find (fun r => epoch (req w r) =? expect_epoch) (transfer_log w)) w, true)
  end.

End with_oracle.

End Request.
