(* ===== verification/RequestInv.v ===== *)
(** * Reference counts of requests (src/bsr/bsr_req.c)

    The invariant that ties [completion_ref] and [kref] of every request to
    the bits of its state words and to the pointers that lead to it, and the
    lemmas that the parts of [mod_rq_state] keep it. *)

From S2P Require Import Prelude State Request.

Module RequestInv.
Import State Request.

(** ** Bits *)

Lemma has_or s a b : has s (Z.lor a b) = has s a || has s b.
Proof.
  unfold has. rewrite Z.land_lor_distr_r.
  destruct (Z.eqb_spec (Z.land s a) 0) as [->|Ha], (Z.eqb_spec (Z.land s b) 0) as [->|Hb]; simpl; try done.
  - rewrite Z.lor_0_l. by apply Z.eqb_neq in Hb as ->.
  - rewrite Z.lor_0_r. by apply Z.eqb_neq in Ha as ->.
  - apply negb_true_iff, Z.eqb_neq. intros H. apply Z.lor_eq_0_iff in H as [??]. done.
Qed.

(** The flags the invariant speaks about, as booleans. *)
Definition bit (i : Z) (s : Z) : bool := Z.testbit s i.
Arguments bit : simpl never.
Abbreviation LP := (bit 0).
Abbreviation LC := (bit 1).
Abbreviation AB := (bit 3).
Abbreviation PENDING := (bit 4).
Abbreviation QUEUED := (bit 5).
Abbreviation SENT := (bit 6).
Abbreviation DONE := (bit 7).
Abbreviation OKAY := (bit 8).
Abbreviation SIS := (bit 9).
Abbreviation WRITE := (bit 11).
Abbreviation POSTPONED := (bit 17).
Abbreviation SUSP := (bit 18).
Abbreviation BARR := (bit 21).
Abbreviation OOSP := (bit 23).
Abbreviation OOSQ := (bit 24).

Definition net_bits (s : Z) : bool := PENDING s || QUEUED s || SENT s || DONE s || OKAY s || SIS s.

Lemma has_net_mask s : has s RQ_NET_MASK = net_bits s.
Proof.
  change RQ_NET_MASK with
    (Z.lor (Z.lor (Z.lor (Z.lor (Z.lor RQ_NET_PENDING RQ_NET_QUEUED) RQ_NET_SENT) RQ_NET_DONE) RQ_NET_OK) RQ_NET_SIS).
  rewrite !has_or. unfold net_bits, bit, RQ_NET_PENDING, RQ_NET_QUEUED, RQ_NET_SENT, RQ_NET_DONE, RQ_NET_OK, RQ_NET_SIS.
  by rewrite !has_bit by done.
Qed.

(** Single-bit tests as [bit]. *)
Lemma has_LOCAL_PENDING s : has s RQ_LOCAL_PENDING = LP s. Proof. by apply has_bit. Qed.
Lemma has_LOCAL_COMPLETED s : has s RQ_LOCAL_COMPLETED = LC s. Proof. by apply has_bit. Qed.
Lemma has_LOCAL_ABORTED s : has s RQ_LOCAL_ABORTED = AB s. Proof. by apply has_bit. Qed.
Lemma has_NET_PENDING s : has s RQ_NET_PENDING = PENDING s. Proof. by apply has_bit. Qed.
Lemma has_NET_QUEUED s : has s RQ_NET_QUEUED = QUEUED s. Proof. by apply has_bit. Qed.
Lemma has_NET_SENT s : has s RQ_NET_SENT = SENT s. Proof. by apply has_bit. Qed.
Lemma has_NET_DONE s : has s RQ_NET_DONE = DONE s. Proof. by apply has_bit. Qed.
Lemma has_NET_OK s : has s RQ_NET_OK = OKAY s. Proof. by apply has_bit. Qed.
Lemma has_NET_SIS s : has s RQ_NET_SIS = SIS s. Proof. by apply has_bit. Qed.
Lemma has_WRITE s : has s RQ_WRITE = WRITE s. Proof. by apply has_bit. Qed.
Lemma has_POSTPONED s : has s RQ_POSTPONED = POSTPONED s. Proof. by apply has_bit. Qed.
Lemma has_SUSP s : has s RQ_COMPLETION_SUSP = SUSP s. Proof. by apply has_bit. Qed.
Lemma has_BARR s : has s RQ_EXP_BARR_ACK = BARR s. Proof. by apply has_bit. Qed.
Lemma has_OOSP s : has s RQ_OOS_PENDING = OOSP s. Proof. by apply has_bit. Qed.
Lemma has_OOSQ s : has s RQ_OOS_NET_QUEUED = OOSQ s. Proof. by apply has_bit. Qed.

Create Rewrite HintDb rq.
#[export] Hint Rewrite has_LOCAL_PENDING has_LOCAL_COMPLETED has_LOCAL_ABORTED has_NET_PENDING has_NET_QUEUED
  has_NET_SENT has_NET_DONE has_NET_OK has_NET_SIS has_WRITE has_POSTPONED has_SUSP has_BARR has_OOSP has_OOSQ
  has_net_mask has_or : rq.

(** [x & ~clear | set], bit by bit. *)
Lemma bit_mod i x c s : bit i (Z.lor (Z.ldiff x c) s) = (bit i x && negb (bit i c)) || bit i s.
Proof. unfold bit. by rewrite Z.lor_spec, Z.ldiff_spec. Qed.
Lemma bit_lor i x y : bit i (Z.lor x y) = bit i x || bit i y.
Proof. apply Z.lor_spec. Qed.
Lemma bit_land i x y : bit i (Z.land x y) = bit i x && bit i y.
Proof. apply Z.land_spec. Qed.
Lemma bit_ldiff i x y : bit i (Z.ldiff x y) = bit i x && negb (bit i y).
Proof. apply Z.ldiff_spec. Qed.
#[export] Hint Rewrite bit_mod bit_lor bit_land bit_ldiff : rq.

(** ** Sums over lists *)

Fixpoint zsum {A} (f : A -> Z) (l : list A) : Z :=
  match l with [] => 0 | x :: l => f x + zsum f l end.

Lemma zsum_app {A} (f : A -> Z) l l' : zsum f (l ++ l') = zsum f l + zsum f l'.
Proof. induction l as [|x l IH]; simpl; [done|]. rewrite IH. lia. Qed.

Lemma zsum_nonneg {A} (f : A -> Z) l : (forall x, 0 <= f x) -> 0 <= zsum f l.
Proof. intros Hf. induction l as [|x l IH]; simpl; [done|]. specialize (Hf x). lia. Qed.

Lemma zsum_alter {A} (f : A -> Z) g l i x :
  l !! i = Some x -> zsum f (alter g i l) = zsum f l - f x + f (g x).
Proof.
  revert i. induction l as [|y l IH]; intros [|i] Hi; [done|done|..].
  - injection Hi as ->. change (alter g 0%nat (x :: l)) with (g x :: l). simpl. lia.
  - change (alter g (S i) (y :: l)) with (y :: alter g i l). simpl. rewrite (IH _ Hi). lia.
Qed.

Lemma zsum_lookup_le {A} (f : A -> Z) l i x : (forall x, 0 <= f x) -> l !! i = Some x -> f x <= zsum f l.
Proof.
  intros Hf. revert i. induction l as [|y l IH]; intros [|i] Hi; simplify_eq/=.
  - pose proof (zsum_nonneg f l Hf). lia.
  - specialize (IH _ Hi). specialize (Hf y). lia.
Qed.

Lemma zsum_zero {A} (f : A -> Z) l i x : (forall x, 0 <= f x) -> zsum f l = 0 -> l !! i = Some x -> f x = 0.
Proof. intros Hf H0 Hi. pose proof (zsum_lookup_le f l i x Hf Hi). specialize (Hf x). lia. Qed.

Lemma zsum_ext {A} (f g : A -> Z) l : (forall x, x ∈ l -> f x = g x) -> zsum f l = zsum g l.
Proof.
  induction l as [|x l IH]; intros H; simpl; [done|].
  rewrite (H x) by constructor. rewrite IH; [done|]. intros. apply H. by constructor.
Qed.

Lemma zsum_all_zero {A} (f : A -> Z) l : (forall x, x ∈ l -> f x = 0) -> zsum f l = 0.
Proof.
  intros H. rewrite (zsum_ext f (fun _ => 0)) by done. clear. induction l; simpl; lia.
Qed.

Definition count_nat (r : nat) : list nat -> Z := zsum (fun x => b2z (bool_decide (x = r))).

Lemma b2z_nonneg b : 0 <= b2z b.
Proof. by destruct b. Qed.
Lemma count_nat_nonneg r l : 0 <= count_nat r l.
Proof. apply zsum_nonneg. intros. apply b2z_nonneg. Qed.

Lemma count_nat_remove_one r x l :
  r ∈ l -> count_nat x (remove_one r l) = count_nat x l - b2z (bool_decide (r = x)).
Proof.
  induction l as [|y l IH]; intros Hr; [by apply elem_of_nil in Hr|].
  cbn [remove_one]. destruct (decide (y = r)).
  - subst. unfold count_nat. cbn [zsum]. lia.
  - unfold count_nat in *. cbn [zsum]. rewrite IH; [lia|]. by apply elem_of_cons in Hr as [->|].
Qed.

Lemma count_nat_pos r l : 0 < count_nat r l <-> r ∈ l.
Proof.
  unfold count_nat. induction l as [|x l IH]; simpl.
  - split; [lia|]. by intros ?%elem_of_nil.
  - rewrite elem_of_cons, <- IH. pose proof (count_nat_nonneg r l). unfold count_nat in *. case_bool_decide; simpl.
    + split; [by left|lia].
    + split; [right; lia|]. intros [->|]; [done|lia].
Qed.

(** ** The invariant *)

Definition live (w : world) (r : nat) : Prop := exists rq, reqs w !! r = Some rq /\ destroyed rq = false.

Definition local (rq : bsr_request) : Z := state_at rq 0.
Definition nets (rq : bsr_request) : list Z := tail (rq_state rq).

(** Why a request may not be completed yet. *)
Definition net_pend (s : Z) : Z := b2z (PENDING s) + b2z (QUEUED s).
Definition pend (rq : bsr_request) : Z :=
  b2z (LP (local rq) && negb (AB (local rq))) + b2z (SUSP (local rq)) + zsum net_pend (nets rq).

(** Why it may not be destroyed yet, once it is completed: barrier
    acknowledgements to come, an aborted disk I/O that may come back. *)
Definition net_ref (s : Z) : Z := b2z (BARR s && negb (DONE s)).
Definition own_refs (rq : bsr_request) : Z :=
  zsum net_ref (nets rq) + b2z (LP (local rq) && AB (local rq)).

Definition points_to (r : nat) (rq : bsr_request) : Z :=
  b2z (negb (destroyed rq) && bool_decide (destroy_next rq = Some r)).

(** References from elsewhere: the previous write, walks, the plug. *)
Definition in_refs (w : world) (r : nat) : Z :=
  zsum (points_to r) (reqs w) + count_nat r (held w) + b2z (bool_decide (most_recent_req w = Some r)).

Definition base_ref (w : world) (r : nat) (rq : bsr_request) : Z :=
  b2z (negb (completion_ref rq =? 0) || bool_decide (r ∈ retry_writes w)).

(** What holds of the state word for one peer. *)
Record net_ok (s0 sn : Z) : Prop := mk_net_ok {
  no_idle : SENT sn || OKAY sn || SIS sn = true -> PENDING sn || DONE sn || BARR sn = true;
  no_barr : BARR sn = true -> PENDING sn || OKAY sn || DONE sn = true;
  no_queued : QUEUED sn = true -> PENDING sn || DONE sn || BARR sn || OOSQ sn = true;
  no_pending : PENDING sn = true -> DONE sn = false;
  no_write : BARR sn || OOSQ sn || OOSP sn = true -> WRITE s0 = true;
  no_oos : WRITE s0 = true -> PENDING sn = true -> QUEUED sn = true -> BARR sn = true;
  no_oosp : OOSP sn = true -> BARR sn = false /\ (SENT sn || OKAY sn || SIS sn = true -> DONE sn = true) }.

Definition words_ok (rq : bsr_request) : Prop :=
  length (rq_state rq) = S BSR_NODE_ID_MAX /\ net_bits (local rq) = false /\ Forall (net_ok (local rq)) (nets rq).

(** A request between [bsr_req_new] and [bsr_send_and_submit]. *)
Record fresh (rq : bsr_request) : Prop := mk_fresh {
  fr_local : LP (local rq) || LC (local rq) || bit 2 (local rq) || AB (local rq) || POSTPONED (local rq) || SUSP (local rq) = false;
  fr_nets : Forall (eq 0) (nets rq);
  fr_next : destroy_next rq = None;
  fr_tree : i_in_tree rq = false }.

Definition bio_ok (b : bio) : Prop := bi_size b = 0 -> bio_data_dir_write b = true /\ bi_preflush b = true.

(** Request [r], of which the running code still owes [c] completion
    references and [k] references. *)
Record req_ok (w : world) (c k : Z) (r : nat) (rq : bsr_request) : Prop := mk_req_ok {
  ro_cref : completion_ref rq = pend rq + b2z (bool_decide (r ∈ submit_writes w)) + c;
  ro_kref : kref rq = base_ref w r rq + own_refs rq + in_refs w r + k;
  ro_words : words_ok rq;
  ro_done : completion_ref rq = 0 -> master_bio rq = None \/ POSTPONED (local rq) = true;
  ro_bio : forall b, master_bio rq = Some b ->
    bio_ok b /\ WRITE (local rq) = bio_data_dir_write b /\ i_size rq = bi_size b;
  ro_open : completion_ref rq <> 0 -> is_Some (master_bio rq);
  ro_post : POSTPONED (local rq) = true -> WRITE (local rq) = true -> r ∉ transfer_log w }.

(** Effects that report nothing wrong. *)
Definition okE (e : effect) : bool :=
  match e with E_bug | E_assert | E_logic_bug _ => false | _ => true end.
Definition completes (r : nat) (e : effect) : Z :=
  match e with E_complete r' _ => b2z (bool_decide (r' = r)) | _ => 0 end.

Definition before (w : world) (p q : nat) : Prop := exists l1 l2 l3, transfer_log w = l1 ++ p :: l2 ++ q :: l3.

Definition net_pending (p : nat) (rq : bsr_request) : Z := b2z (PENDING (state_at rq (S p))).

(** The states of the peers; [bsr_state.c] sees to it that a peer this node is
    ahead of is not up to date. *)
Definition pst (c : peer) : bsr_disk_state * bsr_repl_state := (p_disk_state c, p_repl_state c).
Definition peer_stats (w : world) : list (option (bsr_disk_state * bsr_repl_state)) := map (option_map pst) (peers w).
Definition peers_ok (l : list (option (bsr_disk_state * bsr_repl_state))) : Prop :=
  (length l <= BSR_NODE_ID_MAX)%nat /\ forall d s, Some (d, s) ∈ l -> s = L_AHEAD -> d <> D_UP_TO_DATE.

Record inv (C K : nat -> Z) (w : world) : Prop := mk_inv {
  i_req : forall r rq, reqs w !! r = Some rq -> destroyed rq = false -> req_ok w (C r) (K r) r rq;
  i_gone : forall r rq, reqs w !! r = Some rq -> destroyed rq = true ->
    (r ∉ held w) /\ most_recent_req w <> Some r /\ zsum net_pend (nets rq) = 0 /\
    length (rq_state rq) = S BSR_NODE_ID_MAX;
  i_tl : NoDup (transfer_log w);
  i_tl_live : forall r, r ∈ transfer_log w -> live w r;
  i_chain : forall p q, live w p -> destroy_next (req w p) = Some q ->
    before w p q /\ WRITE (local (req w p)) = true /\ WRITE (local (req w q)) = true;
  i_retry : forall r, r ∈ retry_writes w ->
    live w r /\ completion_ref (req w r) = 0 /\ POSTPONED (local (req w r)) = true /\ (r ∉ transfer_log w) /\
    is_Some (master_bio (req w r));
  i_submit : forall r, r ∈ submit_writes w ->
    live w r /\ fresh (req w r) /\ (r ∉ transfer_log w);
  i_submit_nodup : NoDup (submit_writes w);
  i_bounds : forall r, r ∈ held w \/ most_recent_req w = Some r -> (r < length (reqs w))%nat;
  i_peers : peers_ok (peer_stats w);
  i_pending : forall p c, peer_of w p = Some c -> ap_pending_cnt c = zsum (net_pending p) (reqs w);
  i_clean : Forall (fun e => okE e = true) (log w);
  i_once : forall r rq, reqs w !! r = Some rq ->
    zsum (completes r) (log w) = b2z (bool_decide (master_bio rq = None));
  i_future : forall r, (length (reqs w) <= r)%nat -> zsum (completes r) (log w) = 0;
  i_peer_ack : forall r, peer_ack_req w = Some r -> exists rq, reqs w !! r = Some rq /\ destroyed rq = true }.

(** ** Steps that touch only the counters of one request *)

Definition quietE (e : effect) : bool :=
  match e with E_bug | E_assert | E_logic_bug _ | E_complete _ _ => false | _ => true end.

Lemma quiet_ok es : Forall (fun e => quietE e = true) es -> Forall (fun e => okE e = true) es.
Proof. intros H. eapply Forall_impl; [exact H|]. by intros []. Qed.
Lemma quiet_completes r es : Forall (fun e => quietE e = true) es -> zsum (completes r) es = 0.
Proof. induction 1 as [|e es He _ IH]; simpl; [done|]. rewrite IH. by destruct e. Qed.

(** The reference counts move by [a] and [b]; what the invariant reads stays. *)
Record bumped (a b : Z) (rq rq' : bsr_request) : Prop := mk_bumped {
  bu_cref : completion_ref rq' = completion_ref rq + a;
  bu_kref : kref rq' = kref rq + b;
  bu_state : rq_state rq' = rq_state rq;
  bu_bio : master_bio rq' = master_bio rq;
  bu_size : i_size rq' = i_size rq;
  bu_next : destroy_next rq' = destroy_next rq;
  bu_tree : i_in_tree rq' = i_in_tree rq;
  bu_dead : destroyed rq' = destroyed rq }.

(** Fields of the resource the invariant reads, other than requests and counters. *)
Record same_lists (w w' : world) : Prop := mk_same_lists {
  sl_tl : transfer_log w' = transfer_log w;
  sl_retry : retry_writes w' = retry_writes w;
  sl_submit : submit_writes w' = submit_writes w;
  sl_held : held w' = held w;
  sl_plug : most_recent_req w' = most_recent_req w;
  sl_susp : suspended w' = suspended w;
  sl_peers : peer_stats w' = peer_stats w;
  sl_peer_ack : peer_ack_req w' = peer_ack_req w }.

Record eff (r p : nat) (a b d : Z) (w w' : world) : Prop := mk_eff {
  ef_lists : same_lists w w';
  ef_req : forall rq, reqs w !! r = Some rq ->
    exists rq', reqs w' = <[r := rq']> (reqs w) /\ bumped a b rq rq';
  ef_pend : forall q c', peer_of w' q = Some c' ->
    exists c, peer_of w q = Some c /\ ap_pending_cnt c' = ap_pending_cnt c + (if decide (q = p) then d else 0);
  ef_log : exists es, log w' = log w ++ es /\ Forall (fun e => quietE e = true) es }.

Lemma same_lists_refl w : same_lists w w.
Proof. done. Qed.
Lemma same_lists_trans w1 w2 w3 : same_lists w1 w2 -> same_lists w2 w3 -> same_lists w1 w3.
Proof. intros [] []. split; congruence. Qed.

Lemma bumped_refl rq : bumped 0 0 rq rq.
Proof. split; try done; lia. Qed.
Lemma bumped_trans a1 b1 a2 b2 x y z : bumped a1 b1 x y -> bumped a2 b2 y z -> bumped (a1 + a2) (b1 + b2) x z.
Proof. intros [] []. split; try congruence; lia. Qed.

Lemma eff_refl r p w : eff r p 0 0 0 w w.
Proof.
  split; [done| | |by exists []; rewrite app_nil_r].
  - intros rq Hr. exists rq. split; [by rewrite list_insert_id|apply bumped_refl].
  - intros q c' Hc. exists c'. split; [done|]. case_decide; lia.
Qed.

Lemma eff_trans r p a1 b1 d1 a2 b2 d2 w1 w2 w3 :
  eff r p a1 b1 d1 w1 w2 -> eff r p a2 b2 d2 w2 w3 -> eff r p (a1 + a2) (b1 + b2) (d1 + d2) w1 w3.
Proof.
  intros [L1 R1 P1 [es1 [E1 Q1]]] [L2 R2 P2 [es2 [E2 Q2]]]. split.
  - by eapply same_lists_trans.
  - intros rq Hr. destruct (R1 _ Hr) as (rq1 & E & B1).
    assert (reqs w2 !! r = Some rq1) as Hr1.
    { rewrite E. apply list_lookup_insert_eq. by apply lookup_lt_Some in Hr. }
    destruct (R2 _ Hr1) as (rq2 & E' & B2). exists rq2. split.
    + by rewrite E', E, list_insert_insert_eq.
    + by eapply bumped_trans.
  - intros q c' Hc. destruct (P2 _ _ Hc) as (c & Hc1 & Hd). destruct (P1 _ _ Hc1) as (c0 & Hc0 & Hd0).
    exists c0. split; [done|]. rewrite Hd, Hd0. case_decide; lia.
  - exists (es1 ++ es2). split; [by rewrite E2, E1, app_assoc|]. by apply Forall_app.
Qed.

Lemma eff_conv r p a b d a' b' d' w w' : a = a' -> b = b' -> d = d' -> eff r p a b d w w' -> eff r p a' b' d' w w'.
Proof. by intros -> -> ->. Qed.

Lemma eff_if r p a b d (c : bool) t w :
  (c = true -> eff r p a b d w t) ->
  eff r p (b2z c * a) (b2z c * b) (b2z c * d) w (if c then t else w).
Proof.
  intros H. destruct c; simpl.
  - eapply eff_conv; [..|by apply H]; lia.
  - eapply eff_conv; [..|apply eff_refl]; lia.
Qed.

Lemma eff_if0 r p (c : bool) t w : (c = true -> eff r p 0 0 0 w t) -> eff r p 0 0 0 w (if c then t else w).
Proof. intros H. destruct c; [by apply H|apply eff_refl]. Qed.

Lemma eff_emit r p e w : quietE e = true -> eff r p 0 0 0 w (emit e w).
Proof.
  intros He. destruct (eff_refl r p w) as [L R P _]. split; [done|done|done|].
  exists [e]. split; [done|]. by apply Forall_singleton.
Qed.

Lemma alter_as_insert {A} (f : A -> A) (l : list A) (i : nat) x : l !! i = Some x -> alter f i l = <[i := f x]> l.
Proof.
  intros Hx. apply list_eq. intros j. destruct (decide (i = j)) as [<-|].
  - rewrite list_lookup_alter_eq, Hx, list_lookup_insert_eq; [done|]. by apply lookup_lt_Some in Hx.
  - by rewrite list_lookup_alter_ne, list_lookup_insert_ne.
Qed.

Lemma req_lookup w r rq : reqs w !! r = Some rq -> req w r = rq.
Proof. unfold req. by intros ->. Qed.

Lemma eff_req r p a b f w : (forall rq, bumped a b rq (f rq)) -> eff r p a b 0 w (upd_req r f w).
Proof.
  intros Hf. destruct (eff_refl r p w) as [_ _ P E]. split; [done| |done|done].
  intros rq Hr. exists (f rq). split; [|done]. change (reqs (upd_req r f w)) with (alter f r (reqs w)).
  by apply alter_as_insert.
Qed.

Lemma peer_of_upd q p f w :
  peer_of (upd_peer p f w) q = if decide (q = p) then f <$> peer_of w q else peer_of w q.
Proof.
  unfold peer_of, upd_peer. cbn [peers upd_peers]. case_decide; subst.
  - rewrite list_lookup_alter_eq. by destruct (peers w !! p) as [[]|].
  - by rewrite list_lookup_alter_ne.
Qed.

Lemma peer_stats_upd q f w : (forall c, pst (f c) = pst c) -> peer_stats (upd_peer q f w) = peer_stats w.
Proof.
  intros Hf. unfold peer_stats, upd_peer. cbn [peers upd_peers]. apply list_eq. intros i. rewrite !list_lookup_fmap.
  destruct (decide (i = q)) as [->|]; [|by rewrite list_lookup_alter_ne].
  rewrite list_lookup_alter_eq. destruct (peers w !! q) as [[c|]|]; [|done..]. cbn. by rewrite Hf.
Qed.

Lemma eff_peer r p q d f w :
  (forall c, ap_pending_cnt (f c) = ap_pending_cnt c + d) -> (d = 0 \/ q = p) -> (forall c, pst (f c) = pst c) ->
  eff r p 0 0 d w (upd_peer q f w).
Proof.
  intros Hf Hd Hst. destruct (eff_refl r p w) as [_ R _ E]. split; [split; try done|done| |done].
  - by apply peer_stats_upd.
  - intros q' c'. rewrite peer_of_upd. case_decide as Hq.
    + subst q'. destruct (peer_of w q) as [c|] eqn:E'; [|done]. intros [= <-]. exists c. split; [done|]. rewrite Hf.
      destruct Hd as [->|Hd]; case_decide; lia || congruence.
    + intros Hc. exists c'. split; [done|]. destruct Hd as [->|Hd]; case_decide; lia || congruence.
Qed.

Lemma eff_state r p a b d w w' rq i :
  reqs w !! r = Some rq -> eff r p a b d w w' -> state_at (req w' r) i = state_at rq i.
Proof.
  intros Hr [_ R _ _]. destruct (R _ Hr) as (rq' & E & B).
  rewrite (req_lookup w' r rq'); [|by rewrite E; apply list_lookup_insert_eq, (lookup_lt_Some _ _ _ Hr)].
  unfold state_at. by rewrite (bu_state _ _ _ _ B).
Qed.

Lemma eff_lookup r p a b d w w' rq :
  reqs w !! r = Some rq -> eff r p a b d w w' -> exists rq', reqs w' !! r = Some rq' /\ bumped a b rq rq'.
Proof.
  intros Hr [_ R _ _]. destruct (R _ Hr) as (rq' & E & B). exists rq'. split; [|done].
  rewrite E. by apply list_lookup_insert_eq, (lookup_lt_Some _ _ _ Hr).
Qed.

(** *** Primitive steps *)

Ltac bump_solve := intros; split; cbn; done || lia.

Lemma eff_cref r p n w : eff r p n 0 0 w (upd_req r (upd_completion_ref (fun x => x + n)) w).
Proof. apply eff_req. bump_solve. Qed.
Lemma eff_kref r p n w : eff r p 0 n 0 w (upd_req r (upd_kref (fun x => x + n)) w).
Proof. apply eff_req. bump_solve. Qed.
Lemma eff_nq r p f w : eff r p 0 0 0 w (upd_req r (upd_nq_ref f) w).
Proof. apply eff_req. bump_solve. Qed.
Lemma eff_nql r p f w : eff r p 0 0 0 w (upd_net_queued_log f w).
Proof. by destruct (eff_refl r p w) as [[] R P E]. Qed.
Lemma eff_set_next r p q w : eff r p 0 0 0 w (set_if_null_req_next q r w).
Proof. apply eff_peer; [|by left|done]. intros. cbn. lia. Qed.
Lemma eff_set_ack r p q w : eff r p 0 0 0 w (set_if_null_req_ack_pending q r w).
Proof. apply eff_peer; [|by left|done]. intros. cbn. lia. Qed.
Lemma eff_set_done r p q w : eff r p 0 0 0 w (set_if_null_req_not_net_done q r w).
Proof. apply eff_peer; [|by left|done]. intros. cbn. lia. Qed.
Lemma eff_add_flight r p q n w : eff r p 0 0 0 w (add_ap_in_flight n q w).
Proof. apply eff_peer; [|by left|done]. intros. cbn. lia. Qed.
Lemma eff_sub_flight r p q n w : eff r p 0 0 0 w (sub_ap_in_flight n q w).
Proof. apply eff_peer; [|by left|done]. intros. cbn. lia. Qed.
Lemma eff_oos_cnt r p q f w : eff r p 0 0 0 w (upd_peer q (upd_rq_pending_oos_cnt f) w).
Proof. apply eff_peer; [|by left|done]. intros. cbn. lia. Qed.
Lemma eff_inc_pending r p w : eff r p 0 0 1 w (inc_ap_pending p w).
Proof. apply eff_peer; [|by right|done]. intros. cbn. lia. Qed.

Lemma eff_dec_pending r p w :
  (forall c, peer_of w p = Some c -> 0 < ap_pending_cnt c) -> eff r p 0 0 (-1) w (dec_ap_pending p w).
Proof.
  intros Hp. unfold dec_ap_pending. cbv zeta.
  assert ((if peer_of (upd_peer p (upd_ap_pending_cnt (λ x : Z, x - 1)) w) p is Some c
           then ap_pending_cnt c <? 0 else false) = false) as ->.
  { rewrite peer_of_upd, decide_True by done. destruct (peer_of w p) as [c|] eqn:E; [|done]. cbn.
    specialize (Hp _ eq_refl). apply Z.ltb_ge. lia. }
  apply eff_peer; [|by right|done]. intros. cbn. lia.
Qed.

Lemma eff_adv_next r p q x w : eff r p 0 0 0 w (advance_conn_req_next q x w).
Proof.
  unfold advance_conn_req_next. destruct (peer_of w q); [|apply eff_refl].
  case_decide; [apply eff_refl|]. destruct (tl_after _ _); [|by apply eff_emit].
  apply eff_peer; [|by left|done]. intros. cbn. lia.
Qed.
Lemma eff_adv_ack r p q x w : eff r p 0 0 0 w (advance_conn_req_ack_pending q x w).
Proof.
  unfold advance_conn_req_ack_pending. destruct (peer_of w q); [|apply eff_refl].
  case_decide; [apply eff_refl|]. destruct (tl_after _ _); [|by apply eff_emit].
  apply eff_peer; [|by left|done]. intros. cbn. lia.
Qed.
Lemma eff_adv_done r p q x w : eff r p 0 0 0 w (advance_conn_req_not_net_done q x w).
Proof.
  unfold advance_conn_req_not_net_done. destruct (peer_of w q); [|apply eff_refl].
  case_decide; [apply eff_refl|]. destruct (tl_after _ _); [|by apply eff_emit].
  apply eff_peer; [|by left|done]. intros. cbn. lia.
Qed.

Create HintDb eff.
#[export] Hint Resolve eff_refl eff_cref eff_kref eff_nq eff_nql eff_set_next eff_set_ack eff_set_done
  eff_add_flight eff_sub_flight eff_oos_cnt eff_inc_pending eff_adv_next eff_adv_ack eff_adv_done : eff.

(** Walk through a chain of [let w := ... in], one step at a time. *)
Lemma eff_let r p a1 b1 d1 a2 b2 d2 w (x : world) k :
  eff r p a1 b1 d1 w x -> (forall w1, eff r p a1 b1 d1 w w1 -> eff r p a2 b2 d2 w1 (k w1)) ->
  eff r p (a1 + a2) (b1 + b2) (d1 + d2) w (k x).
Proof. intros H1 H2. eapply eff_trans; [done|]. by apply H2. Qed.

Ltac eff_let :=
  lazymatch goal with
  | |- eff ?r ?p _ _ _ ?w (let y := ?x in @?k y) => refine (eff_let r p _ _ _ _ _ _ w x k _ _)
  end.
Ltac skip_let :=
  lazymatch goal with
  | |- eff ?r ?p ?a ?b ?d ?w (let y := ?x in @?k y) => let t := eval cbv beta in (k x) in change (eff r p a b d w t)
  end.

Lemma oos_finished_eff orc r p q w : eff r p 0 0 0 w (oos_finished orc q w).
Proof.
  cbv beta delta [oos_finished].
  eapply (eff_conv _ _ (0 + 0) (0 + 0) (0 + 0)); [done..|]. eff_let; [eauto with eff|]. intros w1 _.
  destruct (peer_of w1 q); [|eauto with eff]. destruct (_ && _ && _); [|eauto with eff].
  apply eff_emit. by destruct (o_alloc _ _).
Qed.

Lemma get_refs_eff r pd ol on sl s w :
  let p := default O pd in
  eff r p (b2z (negb (LP ol) && LP sl) + b2z (negb (PENDING on) && PENDING s) + b2z (negb (QUEUED on) && QUEUED s)
           + b2z (negb (SUSP ol) && SUSP sl))
    (b2z (negb (BARR on) && BARR s)) (b2z (negb (PENDING on) && PENDING s)) w (get_refs r pd ol on sl s w).
Proof.
  intros p. cbv beta delta [get_refs]. autorewrite with rq. do 2 skip_let. fold p.
  eapply eff_conv; [..|eff_let; [apply eff_if; intros _; apply eff_cref|intros w1 _]].
  4: { eff_let; [apply eff_if; intros _|intros w2 _].
       - eff_let; [apply eff_if0; intros _; apply eff_oos_cnt|intros w2 _].
         eapply eff_trans; [apply eff_inc_pending|apply eff_cref].
       - eff_let; [apply eff_if; intros _|intros w3 _].
         + eff_let; [apply eff_cref|intros w3 _]. eff_let; [apply eff_nq|intros w4 _].
           eff_let; [apply eff_if0; intros _; apply eff_nql|intros w5 _]. apply eff_set_next.
         + eff_let; [apply eff_if; intros _; apply eff_kref|intros w4 _].
           eff_let; [apply eff_if0; intros _|intros w5 _; apply eff_if; intros _; apply eff_cref].
           eapply (eff_conv _ _ (0 + 0) (0 + 0) (0 + 0)); [done..|].
           eff_let; [apply eff_if0; intros _|intros w5 _; apply eff_if0; intros _; apply eff_set_ack].
           eapply (eff_conv _ _ (0 + 0) (0 + 0) (0 + 0)); [done..|].
           eapply eff_trans; [apply eff_add_flight|apply eff_set_done]. }
  all: lia.
Qed.

Lemma let_if {A} (b : bool) (w1 w0 : world) (c1 c0 : Z) (k : world -> Z -> A) :
  (let '(w, c) := if b then (w1, c1) else (w0, c0) in k w c) =
  k (if b then w1 else w0) (if b then c1 else c0).
Proof. by destruct b. Qed.

Lemma if_b2z (b : bool) c : (if b then c + 1 else c) = c + b2z b.
Proof. destruct b; simpl; lia. Qed.

(** The completion references [put_refs] gives up. *)
Definition c_puts (ol on n0 sl cl c : Z) : Z :=
  b2z (SUSP ol && SUSP cl) + b2z (negb (AB ol) && AB sl) + b2z (LP ol && LP cl && negb (AB n0))
  + b2z (PENDING on && PENDING c) + b2z (QUEUED on && QUEUED c).
Definition k_puts (ol on n0 cl s : Z) : Z :=
  b2z (LP ol && LP cl && AB n0) + b2z (negb (DONE on) && DONE s && BARR on).

Lemma put_refs_eff orc r pd ol on sl cl s c w rq :
  let p := default O pd in
  reqs w !! r = Some rq ->
  (negb (AB ol) && AB sl = true -> LP (local rq) = true) ->
  (PENDING on && PENDING c = true -> forall c, peer_of w p = Some c -> 0 < ap_pending_cnt c) ->
  exists w', put_refs orc r pd ol on sl cl s c w = (w', c_puts ol on (local rq) sl cl c, k_puts ol on (local rq) cl s) /\
    eff r p 0 (b2z (negb (AB ol) && AB sl)) (- b2z (PENDING on && PENDING c)) w w'.
Proof.
  intros p Hr Hab Hpend. cbv beta delta [put_refs]. autorewrite with rq. fold p. cbv zeta.
  rewrite let_if, if_b2z.
  assert (eff r p 0 (b2z (negb (AB ol) && AB sl)) 0 w
    (if negb (AB ol) && AB sl
     then upd_req r (upd_kref (λ n : Z, n + 1)) (emit_if (negb (LP (state_at (req w r) 0))) E_assert w) else w)) as E1.
  { eapply eff_conv; [..|apply eff_if; intros H]; [| | |rewrite (req_lookup _ _ _ Hr)].
    4: { specialize (Hab H). unfold local in Hab. rewrite Hab. apply eff_kref. }
    all: lia. }
  revert E1. generalize (if negb (AB ol) && AB sl
     then upd_req r (upd_kref (λ n : Z, n + 1)) (emit_if (negb (LP (state_at (req w r) 0))) E_assert w) else w).
  intros w1 E1. rewrite (eff_state _ _ _ _ _ _ _ _ _ Hr E1). fold (local rq).
  rewrite ?has_LOCAL_ABORTED.
  match goal with |- exists w', (let '(_, _) := ?X in _) = _ /\ _ =>
    replace X with (b2z (SUSP ol && SUSP cl) + b2z (negb (AB ol) && AB sl) + b2z (LP ol && LP cl && negb (AB (local rq))),
                    b2z (LP ol && LP cl && AB (local rq))) by (destruct (LP ol && LP cl), (AB (local rq)); simpl; apply (f_equal2 pair); lia)
  end.
  rewrite let_if, if_b2z.
  assert (eff r p 0 0 (- b2z (PENDING on && PENDING c)) w1
    (if PENDING on && PENDING c then advance_conn_req_ack_pending p r (dec_ap_pending p w1) else w1)) as E2.
  { eapply eff_conv; [..|apply eff_if; intros H; eapply eff_trans; [apply eff_dec_pending|apply eff_adv_ack]]; [lia..|].
    intros c' Hc'. destruct (ef_pend _ _ _ _ _ _ _ E1 _ _ Hc') as (c0 & Hc0 & ->). specialize (Hpend H _ Hc0).
    case_decide; lia. }
  revert E2. generalize (if PENDING on && PENDING c
    then advance_conn_req_ack_pending p r (dec_ap_pending p w1) else w1). intros w2 E2.
  rewrite let_if, if_b2z.
  match goal with |- context [if QUEUED on && QUEUED c then ?X else w2] =>
    assert (eff r p 0 0 0 w2 (if QUEUED on && QUEUED c then X else w2)) as E3 end.
  { apply eff_if0. intros _. eapply (eff_conv _ _ (0 + 0 + 0) (0 + 0 + 0) (0 + 0 + 0)); [done..|].
    eapply eff_trans; [eapply eff_trans|apply eff_adv_next]; [apply eff_nq|]. apply eff_if0. intros _. apply eff_nql. }
  revert E3. match goal with |- context [if QUEUED on && QUEUED c then ?X else w2] =>
    generalize (if QUEUED on && QUEUED c then X else w2) end. intros w3 E3.
  pose proof (eff_trans _ _ _ _ _ _ _ _ _ _ _ (eff_trans _ _ _ _ _ _ _ _ _ _ _ E1 E2) E3) as E.
  destruct (negb (DONE on) && DONE s) eqn:Hd.
  - eexists. split; [unfold c_puts, k_puts; rewrite Hd; apply (f_equal2 pair); [apply (f_equal2 pair); [done|lia]|destruct (BARR on); simpl; lia]|].
    eapply eff_conv; [..|eapply eff_trans; [exact E|]].
    4: { eapply eff_trans; [|apply eff_adv_done]. eapply eff_trans; [|apply eff_adv_ack].
         eapply eff_trans; [|apply eff_adv_next]. eapply eff_trans; [|apply eff_if0; intros _; apply eff_sub_flight].
         apply eff_if0. intros _. apply oos_finished_eff. }
    all: lia.
  - exists w3. split; [unfold c_puts, k_puts; rewrite Hd; apply (f_equal2 pair); [apply (f_equal2 pair); [done|lia]|simpl; lia]|].
    eapply eff_conv; [..|exact E]; lia.
Qed.

(** ** Changing one request *)

Definition bump (r : nat) (n : Z) (C : nat -> Z) : nat -> Z := fun x => if decide (x = r) then C x + n else C x.

Lemma bump_eq r n C : bump r n C r = C r + n.
Proof. unfold bump. by rewrite decide_True. Qed.
Lemma bump_ne r n C x : x <> r -> bump r n C x = C x.
Proof. intros. unfold bump. by rewrite decide_False. Qed.

Lemma inv_ext C K C' K' w : (forall x, C x = C' x) -> (forall x, K x = K' x) -> inv C K w -> inv C' K' w.
Proof.
  intros HC HK []. split; try done. intros r rq Hr Hd. rewrite <- HC, <- HK. by apply i_req0.
Qed.

Lemma req_ok_ext w w' c k r rq :
  transfer_log w' = transfer_log w -> retry_writes w' = retry_writes w -> submit_writes w' = submit_writes w ->
  in_refs w' r = in_refs w r -> req_ok w c k r rq -> req_ok w' c k r rq.
Proof.
  intros Ht Hre Hs Hi []. split; try done.
  - by rewrite Hs.
  - unfold base_ref. by rewrite Hre, Hi.
  - by rewrite Ht.
Qed.

(** The fields of a request that do not change while it is processed. *)
Record kept (rq rq' : bsr_request) : Prop := mk_kept {
  kp_size : i_size rq' = i_size rq;
  kp_next : destroy_next rq' = destroy_next rq;
  kp_dead : destroyed rq' = destroyed rq;
  kp_write : WRITE (local rq') = WRITE (local rq) }.

Lemma live_insert w w' r rq rq' x :
  reqs w !! r = Some rq -> reqs w' = <[r := rq']> (reqs w) -> destroyed rq' = destroyed rq -> live w' x <-> live w x.
Proof.
  intros Hr E Hd. unfold live. rewrite E. destruct (decide (x = r)) as [->|].
  - rewrite list_lookup_insert_eq by (by apply lookup_lt_Some in Hr). rewrite Hr.
    split; intros (q & [= <-] & ?); eexists; split; try done; congruence.
  - by rewrite list_lookup_insert_ne.
Qed.

Lemma req_insert w w' r rq rq' x :
  reqs w !! r = Some rq -> reqs w' = <[r := rq']> (reqs w) -> req w' x = if decide (x = r) then rq' else req w x.
Proof.
  intros Hr E. unfold req. rewrite E. case_decide; subst.
  - by rewrite list_lookup_insert_eq by (by apply lookup_lt_Some in Hr).
  - by rewrite list_lookup_insert_ne.
Qed.

Lemma zsum_insert {A} (f : A -> Z) l i x y :
  l !! i = Some x -> zsum f (<[i := y]> l) = zsum f l - f x + f y.
Proof. intros Hx. rewrite list_insert_alter. by rewrite (zsum_alter _ _ _ _ _ Hx). Qed.

Lemma in_refs_insert w w' r rq rq' x :
  same_lists w w' -> reqs w !! r = Some rq -> reqs w' = <[r := rq']> (reqs w) -> kept rq rq' ->
  in_refs w' x = in_refs w x.
Proof.
  intros [_ _ _ Hh Hm _ _ _] Hr E [_ Hn Hd _]. unfold in_refs. rewrite E, Hh, Hm, (zsum_insert _ _ _ _ _ Hr).
  unfold points_to at 2 3. rewrite Hd, Hn. lia.
Qed.

Lemma live_req w r : live w r -> exists rq, reqs w !! r = Some rq /\ destroyed rq = false /\ req w r = rq.
Proof. intros (rq & Hr & Hd). exists rq. split_and!; [done..|]. by apply req_lookup. Qed.

Section change.
Context (C K : nat -> Z) (w w' : world) (r p : nat) (rq rq' : bsr_request) (c k d : Z) (es : list effect).
Context (Hinv : inv C K w) (Hr : reqs w !! r = Some rq) (Hlive : destroyed rq = false).
Context (Hl : same_lists w w') (Hreqs : reqs w' = <[r := rq']> (reqs w)) (Hk : kept rq rq').
Context (Hpend : forall q c', peer_of w' q = Some c' -> exists c, peer_of w q = Some c /\
  ap_pending_cnt c' = ap_pending_cnt c + (if decide (q = p) then d else 0)).
Context (Hnp : forall q, net_pending q rq' = net_pending q rq + (if decide (q = p) then d else 0)).
Context (Hlog : log w' = log w ++ es) (Hokes : Forall (fun e => okE e = true) es).
Context (Hes : forall x, zsum (completes x) es =
  if decide (x = r) then b2z (bool_decide (master_bio rq' = None)) - b2z (bool_decide (master_bio rq = None)) else 0).
Context (Hwords : words_ok rq') (Hbio : forall b, master_bio rq' = Some b -> master_bio rq = Some b).
Context (Hc : completion_ref rq' - completion_ref rq = pend rq' - pend rq + c).
Context (Hkr : kref rq' - kref rq = base_ref w r rq' - base_ref w r rq + (own_refs rq' - own_refs rq) + k).
Context (Hdone : completion_ref rq' = 0 -> master_bio rq' = None \/ POSTPONED (local rq') = true).
Context (Hopen : completion_ref rq' <> 0 -> is_Some (master_bio rq')).
Context (Hretry : completion_ref rq = 0 -> completion_ref rq' = 0).
Context (Hretry_bio : r ∈ retry_writes w -> master_bio rq' = master_bio rq).
Context (Hpost : POSTPONED (local rq) = true -> POSTPONED (local rq') = true).
Context (Hpost' : POSTPONED (local rq') = true -> WRITE (local rq') = true -> r ∉ transfer_log w).
Context (Hfresh : r ∈ submit_writes w -> fresh rq').

Lemma change_req_ok x rqx :
  reqs w' !! x = Some rqx -> destroyed rqx = false -> req_ok w' (bump r c C x) (bump r k K x) x rqx.
Proof.
  intros Hx Hdx. rewrite Hreqs in Hx. destruct (decide (x = r)) as [->|Hne].
  - rewrite list_lookup_insert_eq in Hx by (by apply lookup_lt_Some in Hr). injection Hx as <-.
    rewrite !bump_eq. destruct (i_req _ _ _ Hinv _ _ Hr Hlive).
    split; try done.
    + rewrite (sl_submit _ _ Hl). lia.
    + unfold base_ref in *. rewrite (sl_retry _ _ Hl), (in_refs_insert w w' r rq rq' r) by done. lia.
    + intros b Hb. rewrite (kp_write _ _ Hk), (kp_size _ _ Hk). auto.
    + by rewrite (sl_tl _ _ Hl).
  - rewrite list_lookup_insert_ne in Hx by done. rewrite !bump_ne by done.
    apply (req_ok_ext w); [apply Hl..| |by apply (i_req _ _ _ Hinv)].
    exact (in_refs_insert w w' r rq rq' x Hl Hr Hreqs Hk).
Qed.

Lemma inv_change_gen : inv (bump r c C) (bump r k K) w'.
Proof.
  pose proof (fun x => live_insert w w' r rq rq' x Hr Hreqs (kp_dead _ _ Hk)) as HL.
  pose proof (fun x => req_insert w w' r rq rq' x Hr Hreqs) as HR.
  split.
  - apply change_req_ok.
  - intros x rqx Hx Hdx. rewrite (sl_held _ _ Hl), (sl_plug _ _ Hl). rewrite Hreqs in Hx.
    destruct (decide (x = r)) as [->|Hne].
    + rewrite list_lookup_insert_eq in Hx by (by apply lookup_lt_Some in Hr). injection Hx as <-.
      rewrite (kp_dead _ _ Hk) in Hdx. congruence.
    + rewrite list_lookup_insert_ne in Hx by done. by apply (i_gone _ _ _ Hinv).
  - rewrite (sl_tl _ _ Hl). apply Hinv.
  - intros x. rewrite (sl_tl _ _ Hl), HL. apply Hinv.
  - intros x y Hx. unfold before. rewrite (sl_tl _ _ Hl). rewrite HL in Hx. rewrite !HR. intros Hn.
    destruct (i_chain _ _ _ Hinv x y Hx) as (Hb & Hw1 & Hw2).
    { case_decide; subst; [|done]. by rewrite (req_lookup _ _ _ Hr), <- (kp_next _ _ Hk). }
    clear Hn. split_and!; [done|case_decide; subst; [|done]; by rewrite (kp_write _ _ Hk), <- (req_lookup _ _ _ Hr)..].
  - intros x. rewrite (sl_retry _ _ Hl), HL, HR, (sl_tl _ _ Hl). intros Hx.
    destruct (i_retry _ _ _ Hinv x Hx) as (? & Hx0 & ? & ? & ?). case_decide; subst; [|done].
    rewrite (req_lookup _ _ _ Hr) in *. split_and!; try done; auto. by rewrite Hretry_bio.
  - intros x. rewrite (sl_submit _ _ Hl), HL, HR, (sl_tl _ _ Hl). intros Hx.
    destruct (i_submit _ _ _ Hinv x Hx) as (? & ? & ?). case_decide; subst; [|done]. auto.
  - rewrite (sl_submit _ _ Hl). apply Hinv.
  - intros x. rewrite (sl_held _ _ Hl), (sl_plug _ _ Hl), Hreqs, length_insert. apply Hinv.
  - rewrite (sl_peers _ _ Hl). apply Hinv.
  - intros q c' Hq. destruct (Hpend _ _ Hq) as (c0 & Hq0 & ->).
    rewrite Hreqs, (zsum_insert _ _ _ _ _ Hr), Hnp, (i_pending _ _ _ Hinv _ _ Hq0). lia.
  - rewrite Hlog. apply Forall_app. split; [apply Hinv|done].
  - intros x rqx Hx. rewrite Hlog, zsum_app, Hes. rewrite Hreqs in Hx.
    destruct (decide (x = r)) as [->|Hne].
    + rewrite list_lookup_insert_eq in Hx by (by apply lookup_lt_Some in Hr). injection Hx as <-.
      rewrite (i_once _ _ _ Hinv _ _ Hr). lia.
    + rewrite list_lookup_insert_ne in Hx by done. rewrite (i_once _ _ _ Hinv _ _ Hx). lia.
  - intros x. rewrite Hreqs, length_insert, Hlog, zsum_app, Hes. intros Hx.
    rewrite (i_future _ _ _ Hinv), decide_False; [done| |done]. intros ->. apply lookup_lt_Some in Hr. lia.
  - intros x. rewrite (sl_peer_ack _ _ Hl), Hreqs. intros Hx. destruct (i_peer_ack _ _ _ Hinv _ Hx) as (q & Hq & Hdq).
    exists q. split; [|done]. rewrite list_lookup_insert_ne; [done|]. congruence.
Qed.
End change.

(** The same when the bio stays and nothing is reported. *)
Lemma inv_change C K w w' r p rq rq' c k d es :
  inv C K w -> reqs w !! r = Some rq -> destroyed rq = false -> same_lists w w' -> reqs w' = <[r := rq']> (reqs w) ->
  kept rq rq' ->
  (forall q c', peer_of w' q = Some c' -> exists c, peer_of w q = Some c /\
     ap_pending_cnt c' = ap_pending_cnt c + (if decide (q = p) then d else 0)) ->
  (forall q, net_pending q rq' = net_pending q rq + (if decide (q = p) then d else 0)) ->
  log w' = log w ++ es -> Forall (fun e => quietE e = true) es ->
  words_ok rq' -> master_bio rq' = master_bio rq ->
  completion_ref rq' - completion_ref rq = pend rq' - pend rq + c ->
  kref rq' - kref rq = own_refs rq' - own_refs rq + k ->
  (completion_ref rq' = 0 <-> completion_ref rq = 0) ->
  (POSTPONED (local rq) = true -> POSTPONED (local rq') = true) ->
  (POSTPONED (local rq') = true -> WRITE (local rq') = true -> r ∉ transfer_log w) ->
  (r ∈ submit_writes w -> fresh rq') ->
  inv (bump r c C) (bump r k K) w'.
Proof.
  intros Hinv Hr Hlive Hl Hreqs Hk Hpend Hnp Hlog Hq Hw Hbio Hc Hkr Hbase Hpo Hpo' Hf.
  destruct (i_req _ _ _ Hinv _ _ Hr Hlive).
  eapply (inv_change_gen C K w w' r p rq rq' c k d es); try done; rewrite ?Hbio; try done.
  - by apply quiet_ok.
  - intros x. rewrite (quiet_completes _ _ Hq). destruct (decide _); lia.
  - assert (base_ref w r rq' = base_ref w r rq) as ->; [|lia].
    unfold base_ref. do 2 f_equal.
    destruct (Z.eqb_spec (completion_ref rq') 0), (Z.eqb_spec (completion_ref rq) 0); try done; exfalso; tauto.
  - intros H. apply Hbase in H. destruct (ro_done0 H); [by left|right; auto].
  - tauto.
  - tauto.
Qed.

(** Steps that leave every request alone. *)
Record frame (w w' : world) : Prop := mk_frame {
  fm_lists : same_lists w w';
  fm_reqs : reqs w' = reqs w;
  fm_pend : forall q c', peer_of w' q = Some c' -> exists c, peer_of w q = Some c /\ ap_pending_cnt c' = ap_pending_cnt c;
  fm_log : exists es, log w' = log w ++ es /\ Forall (fun e => quietE e = true) es }.

Lemma frame_refl w : frame w w.
Proof. split; [done|done| |exists []; by rewrite app_nil_r]. intros q c. by exists c. Qed.

Lemma frame_trans w1 w2 w3 : frame w1 w2 -> frame w2 w3 -> frame w1 w3.
Proof.
  intros [L1 R1 P1 (es1 & E1 & Q1)] [L2 R2 P2 (es2 & E2 & Q2)]. split.
  - by eapply same_lists_trans.
  - congruence.
  - intros q c Hc. destruct (P2 _ _ Hc) as (c' & Hc' & ->). apply (P1 _ _ Hc').
  - exists (es1 ++ es2). split; [by rewrite E2, E1, app_assoc|]. by apply Forall_app.
Qed.

Lemma frame_emit e w : quietE e = true -> frame w (emit e w).
Proof.
  intros He. destruct (frame_refl w) as [L R P _]. split; [done..|]. exists [e]. split; [done|]. by apply Forall_singleton.
Qed.

Lemma frame_if (b : bool) t w : (b = true -> frame w t) -> frame w (if b then t else w).
Proof. intros H. destruct b; [by apply H|apply frame_refl]. Qed.

Lemma in_refs_eq w w' x :
  reqs w' = reqs w -> held w' = held w -> most_recent_req w' = most_recent_req w -> in_refs w' x = in_refs w x.
Proof. intros E1 E2 E3. unfold in_refs. by rewrite E1, E2, E3. Qed.

Lemma req_eq w w' x : reqs w' = reqs w -> req w' x = req w x.
Proof. intros E. unfold req. by rewrite E. Qed.

Lemma inv_frame C K w w' : frame w w' -> inv C K w -> inv C K w'.
Proof.
  intros [[Ht Hre Hs Hh Hm Hsu Hp Hpa] R P (es & E & Q)] [].
  assert (forall x, live w' x <-> live w x) as HL by (intros; unfold live; by rewrite R).
  assert (forall x, req w' x = req w x) as HR by (intros; by apply req_eq).
  split; rewrite ?Ht, ?Hre, ?Hs, ?Hh, ?Hm, ?Hpa, ?Hp; try done.
  - intros r rq. rewrite R. intros Hr Hd. apply (req_ok_ext w); [done..| |by apply i_req0]. by apply in_refs_eq.
  - intros r rq. rewrite R. by auto.
  - intros r. rewrite HL. auto.
  - intros p q. rewrite HL, !HR. unfold before. rewrite Ht. exact (i_chain0 p q).
  - intros r. rewrite HL, HR. by auto.
  - intros r. rewrite HL, HR. by auto.
  - rewrite R. done.
  - intros q c Hc. destruct (P _ _ Hc) as (c' & Hc' & ->). rewrite R. by auto.
  - rewrite E. apply Forall_app. split; [done|]. by apply quiet_ok.
  - intros r rq. rewrite R, E, zsum_app, (quiet_completes _ _ Q), Z.add_0_r. auto.
  - intros r. rewrite R, E, zsum_app, (quiet_completes _ _ Q), Z.add_0_r. auto.
  - rewrite R. done.
Qed.

(** ** The words after [mod_rq_state] *)

Definition idx_of (pd : option nat) : nat := match pd with Some p => S p | None => O end.

Definition new_word (x clear set : Z) : Z := Z.lor (Z.ldiff x clear) set.

(** [set_local], with the bit that suspension adds. *)
Definition set_local_of (susp : bool) (old_local set clear : Z) : Z :=
  let set_local := Z.ldiff (Z.land set RQ_STATE_0_MASK) RQ_OOS_LOCAL_DONE in
  if susp && negb (has (Z.lor old_local (Z.land clear RQ_STATE_0_MASK)) RQ_COMPLETION_SUSP)
  then Z.lor set_local RQ_COMPLETION_SUSP else set_local.

Definition mod_words (susp : bool) (pd : option nat) (clear set : Z) (rq : bsr_request) : bsr_request :=
  upd_state (idx_of pd) (fun x => new_word x (Z.ldiff clear RQ_STATE_0_MASK) (Z.ldiff set RQ_STATE_0_MASK))
    (upd_state 0 (fun x => new_word x (Z.land clear RQ_STATE_0_MASK) (set_local_of susp (local rq) set clear)) rq).

(** What the callers of [mod_rq_state] keep: the constants they pass, against
    the words of the request. *)
Record mod_args (pd : option nat) (clear set s0 sn : Z) : Prop := mk_mod_args {
  ma_susp : SUSP set || POSTPONED set || WRITE set || POSTPONED clear || WRITE clear = false;
  ma_clear : AB clear || BARR clear || DONE clear = false;
  ma_both : (LP clear && LP set) || (PENDING clear && PENDING set) || (QUEUED clear && QUEUED set) = false;
  ma_abort : implb (AB set) (LP s0 && negb (LP clear)) = true;
  ma_submit : implb (LP set) (negb (AB s0) && negb (AB set)) = true;
  ma_barr : implb (BARR set && negb (BARR sn)) (negb (DONE sn) && negb (DONE set)) = true;
  ma_local : pd = None -> Z.ldiff set RQ_STATE_0_MASK = 0 /\ Z.ldiff clear RQ_STATE_0_MASK = 0 }.

Lemma bit_in_0 i x : bit i RQ_STATE_0_MASK = true -> bit i (Z.land x RQ_STATE_0_MASK) = bit i x.
Proof. intros H. rewrite bit_land, H. apply andb_true_r. Qed.
Lemma bit_not_0 i x : bit i RQ_STATE_0_MASK = false -> bit i (Z.ldiff x RQ_STATE_0_MASK) = bit i x.
Proof. intros H. rewrite bit_ldiff, H. apply andb_true_r. Qed.

Lemma set_local_bit i susp ol set clear :
  bit i RQ_STATE_0_MASK = true -> i <> 18 -> bit i (set_local_of susp ol set clear) = bit i set.
Proof.
  intros Hm Hi. unfold set_local_of.
  assert (bit i (Z.ldiff (Z.land set RQ_STATE_0_MASK) RQ_OOS_LOCAL_DONE) = bit i set) as E.
  { rewrite bit_ldiff, bit_in_0 by done. destruct (decide (i = 25)) as [->|]; [done|].
    unfold bit at 2, RQ_OOS_LOCAL_DONE, __RQ_OOS_LOCAL_DONE. rewrite Z.shiftl_1_l, Z.pow2_bits_false by done.
    apply andb_true_r. }
  destruct (susp && _); [|done]. rewrite bit_lor, E.
  unfold bit at 2, RQ_COMPLETION_SUSP, __RQ_COMPLETION_SUSP. rewrite Z.shiftl_1_l, Z.pow2_bits_false by done.
  apply orb_false_r.
Qed.

Lemma set_local_not_0 i susp ol set clear :
  bit i RQ_STATE_0_MASK = false -> bit i (set_local_of susp ol set clear) = false.
Proof.
  intros Hm. unfold set_local_of. destruct (susp && _); rewrite ?bit_lor, bit_ldiff, bit_land, Hm, andb_false_r; [|done].
  destruct (decide (i = 18)) as [->|]; [done|].
  unfold bit, RQ_COMPLETION_SUSP, __RQ_COMPLETION_SUSP. by rewrite Z.shiftl_1_l, Z.pow2_bits_false.
Qed.

Lemma set_local_susp susp ol set clear :
  SUSP set = false ->
  SUSP (set_local_of susp ol set clear) = susp && negb (SUSP ol || SUSP clear).
Proof.
  intros Hs. unfold set_local_of. rewrite has_SUSP, bit_lor, (bit_in_0 18 clear) by done.
  destruct (susp && _) eqn:E.
  - rewrite bit_lor. by rewrite orb_true_r.
  - rewrite bit_ldiff, (bit_in_0 18 set), Hs by done. done.
Qed.

Lemma length_state_alter rq idx f : length (rq_state (upd_state idx f rq)) = length (rq_state rq).
Proof. apply length_alter. Qed.

Lemma state_at_upd rq idx f i :
  (idx < length (rq_state rq))%nat ->
  state_at (upd_state idx f rq) i = if decide (i = idx) then f (state_at rq idx) else state_at rq i.
Proof.
  intros Hi. unfold state_at, upd_state. cbn [rq_state upd_rq_state]. rewrite !nth_lookup. case_decide; subst.
  - rewrite list_lookup_alter_eq. destruct (rq_state rq !! idx) eqn:E; [done|].
    apply lookup_ge_None in E. lia.
  - by rewrite list_lookup_alter_ne.
Qed.

Lemma nets_upd_0 rq f : nets (upd_state 0 f rq) = nets rq.
Proof. unfold nets, upd_state. cbn [rq_state upd_rq_state]. by destruct (rq_state rq). Qed.
Lemma nets_upd_S rq p f : nets (upd_state (S p) f rq) = alter f p (nets rq).
Proof. unfold nets, upd_state. cbn [rq_state upd_rq_state]. by destruct (rq_state rq). Qed.

Lemma nets_lookup rq p : (S p < length (rq_state rq))%nat -> nets rq !! p = Some (state_at rq (S p)).
Proof.
  unfold nets, state_at. destruct (rq_state rq) as [|x l]; simpl; [lia|]. intros H.
  rewrite nth_lookup. destruct (l !! p) eqn:E; [done|]. apply lookup_ge_None in E. lia.
Qed.

Lemma net_ok_write s0 s0' sn : WRITE s0' = WRITE s0 -> net_ok s0 sn -> net_ok s0' sn.
Proof. intros E []. split; try done; by rewrite E. Qed.

Section words.
Context (susp : bool) (pd : option nat) (clear set : Z) (rq : bsr_request).
Context (Hlen : length (rq_state rq) = S BSR_NODE_ID_MAX) (Hidx : (idx_of pd <= BSR_NODE_ID_MAX)%nat).
Let rq' := mod_words susp pd clear set rq.
Let s0 := local rq.
Let sn := state_at rq (idx_of pd).
Context (Hargs : mod_args pd clear set s0 sn).
Let n0 := new_word s0 (Z.land clear RQ_STATE_0_MASK) (set_local_of susp s0 set clear).
Let nn := new_word sn (Z.ldiff clear RQ_STATE_0_MASK) (Z.ldiff set RQ_STATE_0_MASK).

Lemma mod_words_local : local rq' = n0.
Proof.
  unfold rq', mod_words, local. rewrite state_at_upd by (rewrite length_state_alter, Hlen; lia).
  case_decide as Hz.
  - rewrite state_at_upd by lia. rewrite <- Hz, decide_True by done.
    destruct pd; [done|]. destruct (ma_local _ _ _ _ _ Hargs eq_refl) as [-> ->].
    unfold new_word at 1. rewrite Z.ldiff_0_r, Z.lor_0_r. done.
  - rewrite state_at_upd by lia. by rewrite decide_True.
Qed.

Lemma mod_words_net q : state_at rq' (S q) = if decide (pd = Some q) then nn else state_at rq (S q).
Proof.
  unfold rq', mod_words. rewrite state_at_upd by (rewrite length_state_alter, Hlen; lia).
  destruct (decide (S q = idx_of pd)) as [E|E].
  - rewrite decide_True by (destruct pd; simplify_eq/=; done).
    rewrite state_at_upd by lia. rewrite decide_False by congruence. done.
  - rewrite decide_False by (intros ->; done). rewrite state_at_upd by lia. done.
Qed.

Lemma mod_words_nets : nets rq' = match pd with Some p => alter (fun _ => nn) p (nets rq) | None => nets rq end.
Proof.
  unfold rq', mod_words. destruct pd as [p|] eqn:E.
  - change (idx_of (Some p)) with (S p). rewrite nets_upd_S, nets_upd_0.
    assert (nets rq !! p = Some sn) as Hp.
    { unfold sn. cbn. apply nets_lookup. simpl in Hidx. lia. }
    by rewrite !(alter_as_insert _ _ _ _ Hp).
  - by rewrite !nets_upd_0.
Qed.

Lemma mod_words_write : WRITE n0 = WRITE s0 /\ POSTPONED n0 = POSTPONED s0.
Proof.
  unfold n0, new_word. rewrite !bit_mod, !set_local_bit, !bit_in_0 by done.
  destruct Hargs. destruct (WRITE set), (POSTPONED set), (WRITE clear), (POSTPONED clear);
    rewrite ?orb_true_r in ma_susp0; try done. by rewrite !orb_false_r, !andb_true_r.
Qed.

(** The local bits that count. *)
Lemma mod_local_bits :
  LP n0 = (LP s0 && negb (LP clear)) || LP set /\ AB n0 = AB s0 || AB set /\
  SUSP n0 = (SUSP s0 && negb (SUSP clear)) || (susp && negb (SUSP s0 || SUSP clear)).
Proof.
  destruct Hargs. assert (SUSP set = false /\ AB clear = false) as [Hs Ha].
  { destruct (SUSP set), (AB clear); try done; by rewrite ?orb_true_r in *. }
  unfold n0, new_word. rewrite !bit_mod, set_local_susp, !set_local_bit, !bit_in_0 by done.
  by rewrite Ha, andb_true_r.
Qed.

Lemma mod_net_bit i : bit i RQ_STATE_0_MASK = false -> bit i nn = (bit i sn && negb (bit i clear)) || bit i set.
Proof. intros Hm. unfold nn, new_word. by rewrite bit_mod, !bit_not_0. Qed.

Lemma mod_pend :
  pend rq' - pend rq =
  b2z (negb (LP s0) && LP set) - b2z (negb (AB s0) && AB set) - b2z (LP s0 && LP clear && negb (AB n0))
  + b2z (negb (SUSP s0) && (susp && negb (SUSP s0 || SUSP clear))) - b2z (SUSP s0 && SUSP clear)
  + (if pd is Some _ then net_pend nn - net_pend sn else 0).
Proof.
  unfold pend. rewrite mod_words_local. destruct mod_local_bits as (-> & -> & ->).
  assert (zsum net_pend (nets rq') - zsum net_pend (nets rq) = if pd is Some _ then net_pend nn - net_pend sn else 0) as E.
  { rewrite mod_words_nets. destruct pd as [p|] eqn:Ep; [|lia].
    rewrite (zsum_alter _ _ _ _ sn); [lia|]. unfold sn. apply nets_lookup. rewrite Hlen. simpl in Hidx. lia. }
  assert (forall a b c d e f : Z, d - e = f -> a + b + d - (c + e) = a + b - c + f) as H by (intros; lia).
  fold s0. rewrite (H _ _ _ _ _ _ E). clear H E. generalize (if pd is Some _ then net_pend nn - net_pend sn else 0). intros z.
  destruct Hargs as [_ _ Hb Ha Hs _ _]. apply orb_false_iff in Hb as [Hb _]. apply orb_false_iff in Hb as [Hb _].
  destruct (LP s0), (AB s0), (LP set), (AB set), (LP clear); try done;
    destruct susp, (SUSP s0), (SUSP clear); simpl; lia.
Qed.

Lemma mod_net_pend : net_pend nn - net_pend sn =
  b2z (negb (PENDING sn) && PENDING set) + b2z (negb (QUEUED sn) && QUEUED set)
  - b2z (PENDING sn && PENDING clear) - b2z (QUEUED sn && QUEUED clear).
Proof.
  unfold net_pend. rewrite !mod_net_bit by done.
  destruct Hargs as [_ _ Hb _ _ _ _]. apply orb_false_iff in Hb as [Hb Hq]. apply orb_false_iff in Hb as [_ Hb].
  destruct (PENDING sn), (PENDING set), (PENDING clear); try done;
    destruct (QUEUED sn), (QUEUED set), (QUEUED clear); try done.
Qed.

Lemma mod_own :
  own_refs rq' - own_refs rq =
  b2z (negb (AB s0) && AB set) - b2z (LP s0 && LP clear && AB n0)
  + (if pd is Some _ then b2z (negb (BARR sn) && BARR set) - b2z (negb (DONE sn) && DONE set && BARR sn) else 0).
Proof.
  unfold own_refs. rewrite mod_words_local. destruct mod_local_bits as (-> & -> & _).
  assert (zsum net_ref (nets rq') - zsum net_ref (nets rq) =
    if pd is Some _ then b2z (negb (BARR sn) && BARR set) - b2z (negb (DONE sn) && DONE set && BARR sn) else 0) as E.
  { rewrite mod_words_nets. pose proof mod_net_bit as HB. destruct pd as [p|] eqn:Ep; [|lia].
    rewrite (zsum_alter _ _ _ _ sn); [|unfold sn; apply nets_lookup; rewrite Hlen; simpl in Hidx; lia].
    unfold net_ref at 2 3. rewrite !HB by done. destruct Hargs as [_ Hc _ _ _ Hb _].
    apply orb_false_iff in Hc as [Hc Hd]. apply orb_false_iff in Hc as [_ Hc]. rewrite Hc, Hd.
    destruct (BARR sn), (BARR set), (DONE sn), (DONE set); simpl in *; try done; lia. }
  assert (forall a b d e f : Z, d - e = f -> d + a - (e + b) = a - b + f) as H by (intros; lia).
  fold s0. rewrite (H _ _ _ _ _ E). clear H E.
  match goal with |- _ + ?z = _ + ?z => generalize z end. intros z.
  destruct Hargs as [_ _ Hb Ha Hs _ _]. apply orb_false_iff in Hb as [Hb _]. apply orb_false_iff in Hb as [Hb _].
  destruct (LP s0), (AB s0), (LP set), (AB set), (LP clear); try done; simpl; lia.
Qed.

Lemma mod_words_ok :
  words_ok rq -> (forall p, pd = Some p -> net_ok s0 nn) -> words_ok rq'.
Proof.
  intros (_ & Hnb & Hf) Hn. split; [|split].
  { unfold rq', mod_words. by rewrite !length_state_alter. }
  { rewrite mod_words_local. unfold net_bits, n0, new_word in *. rewrite !bit_mod, !set_local_not_0, !orb_false_r by done.
    fold s0 in Hnb. destruct (PENDING s0), (QUEUED s0), (SENT s0), (DONE s0), (OKAY s0), (SIS s0); done. }
  rewrite mod_words_local, mod_words_nets. destruct mod_words_write as [Hw _].
  assert (Forall (net_ok n0) (nets rq)) as Hf'.
  { eapply Forall_impl; [exact Hf|]. intros x. by apply net_ok_write. }
  destruct pd as [p|] eqn:Ep; [|done].
  apply Forall_alter; [done|]. intros x _ _. by apply (net_ok_write s0), (Hn p).
Qed.

Lemma mod_net_pending q : net_pending q rq' = net_pending q rq +
  (if decide (q = default O pd) then b2z (negb (PENDING sn) && PENDING set && bool_decide (is_Some pd))
     - b2z (PENDING sn && PENDING clear && bool_decide (is_Some pd)) else 0).
Proof.
  unfold net_pending. rewrite mod_words_net. pose proof mod_net_bit as HB.
  destruct pd as [p|] eqn:Ep; cbn [default].
  - rewrite !andb_true_r. destruct (decide (q = p)) as [->|].
    + rewrite decide_True by done. fold sn. change (state_at rq (S p)) with sn. rewrite HB by done.
      destruct Hargs as [_ _ Hb _ _ _ _]. apply orb_false_iff in Hb as [Hb Hq]. apply orb_false_iff in Hb as [_ Hb].
      destruct (PENDING sn), (PENDING set), (PENDING clear); simpl in *; try done; rewrite decide_True by done; lia.
    + rewrite decide_False by congruence. simpl. rewrite decide_False by done. lia.
  - rewrite decide_False by done. rewrite !andb_false_r. case_decide; simpl; lia.
Qed.

End words.

(** ** Taking and giving back references keeps the invariant *)

Lemma pend_nonneg rq : 0 <= pend rq.
Proof.
  unfold pend. pose proof (b2z_nonneg (LP (local rq) && negb (AB (local rq)))).
  pose proof (b2z_nonneg (SUSP (local rq))).
  assert (0 <= zsum net_pend (nets rq)); [|lia].
  apply zsum_nonneg. intros x. unfold net_pend. pose proof (b2z_nonneg (PENDING x)).
  pose proof (b2z_nonneg (QUEUED x)). lia.
Qed.

Lemma net_pending_nonneg p rq : 0 <= net_pending p rq.
Proof. apply b2z_nonneg. Qed.

Lemma bumped_kept a b rq rq' : bumped a b rq rq' -> kept rq rq'.
Proof. intros []. split; try done. unfold local, state_at. by rewrite bu_state0. Qed.

Lemma bumped_words a b rq rq' :
  bumped a b rq rq' -> local rq' = local rq /\ nets rq' = nets rq /\ pend rq' = pend rq /\ own_refs rq' = own_refs rq /\
  (words_ok rq -> words_ok rq') /\ forall q, net_pending q rq' = net_pending q rq.
Proof.
  intros B. assert (local rq' = local rq) as E0 by (unfold local, state_at; by rewrite (bu_state _ _ _ _ B)).
  assert (nets rq' = nets rq) as E1 by (unfold nets; by rewrite (bu_state _ _ _ _ B)).
  split_and!; try done.
  - unfold pend. by rewrite E0, E1.
  - unfold own_refs. by rewrite E0, E1.
  - intros (? & ? & ?). split; [by rewrite (bu_state _ _ _ _ B)|]. by rewrite E0, E1.
  - intros q. unfold net_pending, state_at. by rewrite (bu_state _ _ _ _ B).
Qed.

Section stage.
Context (orc : oracle) (C K : nat -> Z) (w : world) (r : nat) (pd : option nat) (clear set : Z) (rq : bsr_request).
Context (Hinv : inv C K w) (Hr : reqs w !! r = Some rq) (Hlive : destroyed rq = false).
Context (Hsub : r ∉ submit_writes w) (HC : 0 <= C r) (Hidx : (idx_of pd <= BSR_NODE_ID_MAX)%nat).
Let s0 := local rq.
Let sn := state_at rq (idx_of pd).
Let sl := set_local_of (suspended w) s0 set clear.
Let cl := Z.land clear RQ_STATE_0_MASK.
Let sx := Z.ldiff set RQ_STATE_0_MASK.
Let cx := Z.ldiff clear RQ_STATE_0_MASK.
Let rq1 := mod_words (suspended w) pd clear set rq.
Context (Hargs : mod_args pd clear set s0 sn).
Context (Hnet : forall p, pd = Some p -> net_ok s0 (new_word sn cx sx)).
Context (Hraise : completion_ref rq = 0 ->
  LP set || PENDING set || QUEUED set = false /\ (suspended w = false \/ SUSP clear = true)).

Definition applied : world :=
  upd_req r (upd_state (idx_of pd) (fun x => new_word x cx sx)) (upd_req r (upd_state 0 (fun x => new_word x cl sl)) w).

Lemma applied_reqs : reqs applied = <[r := rq1]> (reqs w).
Proof.
  assert (reqs applied =
    alter (upd_state (idx_of pd) (fun x => new_word x cx sx)) r (alter (upd_state 0 (fun x => new_word x cl sl)) r (reqs w)))
    as -> by reflexivity.
  rewrite (alter_as_insert _ _ _ _ Hr).
  rewrite (alter_as_insert _ _ _ (upd_state 0 (λ x : Z, new_word x cl sl) rq))
    by (apply list_lookup_insert_eq; by apply lookup_lt_Some in Hr).
  by rewrite list_insert_insert_eq.
Qed.

Lemma stage_len : length (rq_state rq) = S BSR_NODE_ID_MAX.
Proof. apply (ro_words _ _ _ _ _ (i_req _ _ _ Hinv _ _ Hr Hlive)). Qed.

Lemma applied_lookup : reqs applied !! r = Some rq1.
Proof. rewrite applied_reqs. by apply list_lookup_insert_eq, (lookup_lt_Some _ _ _ Hr). Qed.

(** Bits of the arguments as the code computes them. *)
Lemma arg_bits :
  LP sl = LP set /\ AB sl = AB set /\ SUSP sl = suspended w && negb (SUSP s0 || SUSP clear) /\
  LP cl = LP clear /\ SUSP cl = SUSP clear.
Proof.
  assert (SUSP set = false) by (destruct Hargs as [H _ _ _ _ _ _]; by destruct (SUSP set)).
  unfold sl, cl. by rewrite !set_local_bit, set_local_susp, !bit_in_0 by done.
Qed.

Lemma arg_net_bits i : bit i RQ_STATE_0_MASK = false -> bit i sx = bit i set /\ bit i cx = bit i clear.
Proof. intros. unfold sx, cx. by rewrite !bit_not_0. Qed.

Lemma no_net i : pd = None -> bit i sx = false /\ bit i cx = false.
Proof.
  intros Hp. destruct (ma_local _ _ _ _ _ Hargs Hp) as [H1 H2]. unfold sx, cx, bit. rewrite H1, H2.
  by rewrite !Z.bits_0.
Qed.

(** How the reference counts of the request move. *)
Definition c_put : Z := c_puts s0 sn (local rq1) sl cl cx.
Definition k_put : Z := k_puts s0 sn (local rq1) cl sx.
Definition c_get : Z :=
  b2z (negb (LP s0) && LP sl) + b2z (negb (PENDING sn) && PENDING sx) + b2z (negb (QUEUED sn) && QUEUED sx)
  + b2z (negb (SUSP s0) && SUSP sl).
Definition k_get : Z := b2z (negb (BARR sn) && BARR sx) + b2z (negb (AB s0) && AB sl).
Definition d_pend : Z := b2z (negb (PENDING sn) && PENDING sx) - b2z (PENDING sn && PENDING cx).

Lemma stage_pend : c_get = pend rq1 - pend rq + c_put.
Proof.
  unfold rq1. rewrite (mod_pend (suspended w) pd clear set rq stage_len Hidx Hargs). fold s0 sn cl cx sx sl.
  unfold c_get, c_put, c_puts, rq1. rewrite (mod_words_local (suspended w) pd clear set rq stage_len Hidx Hargs). fold s0 cl sl.
  destruct arg_bits as (-> & -> & -> & -> & ->).
  pose proof no_net as HN. destruct pd as [p|] eqn:Ep.
  - pose proof (mod_net_pend pd clear set rq) as Hn. rewrite Ep in Hn. fold sn cx sx in Hn. rewrite (Hn Hargs).
    unfold sx, cx. rewrite !bit_not_0 by done. lia.
  - destruct (HN 4 eq_refl) as [-> ->], (HN 5 eq_refl) as [-> ->]. rewrite !andb_false_r. simpl. lia.
Qed.

Lemma stage_own : k_get = own_refs rq1 - own_refs rq + k_put.
Proof.
  unfold rq1. rewrite (mod_own (suspended w) pd clear set rq stage_len Hidx Hargs). fold s0 sn cl cx sx sl.
  unfold k_get, k_put, k_puts, rq1. rewrite (mod_words_local (suspended w) pd clear set rq stage_len Hidx Hargs). fold s0 cl sl.
  destruct arg_bits as (_ & -> & _ & -> & _).
  pose proof no_net as HN. destruct pd as [p|] eqn:Ep.
  - unfold sx. rewrite !bit_not_0 by done. lia.
  - destruct (HN 21 eq_refl) as [-> _], (HN 7 eq_refl) as [-> _]. rewrite !andb_false_r. simpl. lia.
Qed.

Lemma stage_net_pending q : net_pending q rq1 = net_pending q rq + (if decide (q = default O pd) then d_pend else 0).
Proof.
  unfold rq1. rewrite (mod_net_pending (suspended w) pd clear set rq stage_len Hidx Hargs). fold sn.
  case_decide; [|done]. unfold d_pend. pose proof no_net as HN. destruct pd as [p|] eqn:Ep.
  - rewrite !andb_true_r. unfold sx, cx. by rewrite !bit_not_0 by done.
  - destruct (HN 4 eq_refl) as [-> ->]. rewrite !andb_false_r. done.
Qed.

Lemma stage_run :
  exists w' rq', put_refs orc r pd s0 sn sl cl sx cx (get_refs r pd s0 sn sl sx applied) = (w', c_put, k_put) /\
    same_lists w w' /\ reqs w' = <[r := rq']> (reqs w) /\ bumped c_get k_get rq1 rq' /\
    (forall q c', peer_of w' q = Some c' -> exists c, peer_of w q = Some c /\
       ap_pending_cnt c' = ap_pending_cnt c + (if decide (q = default O pd) then d_pend else 0)) /\
    exists es, log w' = log w ++ es /\ Forall (fun e => quietE e = true) es.
Proof.
  pose proof (get_refs_eff r pd s0 sn sl sx applied) as EG. cbv zeta in EG.
  destruct (eff_lookup _ _ _ _ _ _ _ _ applied_lookup EG) as (rq2 & Hr2 & B2).
  destruct (bumped_words _ _ _ _ B2) as (Hl2 & _).
  assert (LP (local rq1) = (LP s0 && negb (LP clear)) || LP set) as HLP.
  { unfold rq1. rewrite (mod_words_local (suspended w) pd clear set rq stage_len Hidx Hargs).
    apply (mod_local_bits (suspended w) pd clear set rq Hargs). }
  destruct (put_refs_eff orc r pd s0 sn sl cl sx cx (get_refs r pd s0 sn sl sx applied) rq2 Hr2) as (w' & EP & E).
  { rewrite Hl2, HLP. intros [_ Ha]%andb_true_iff. rewrite (proj1 (proj2 arg_bits)) in Ha.
    pose proof (ma_abort _ _ _ _ _ Hargs) as H. rewrite Ha in H. simpl in H.
    apply andb_true_iff in H as [-> ->]. done. }
  { intros [Hp Hcx]%andb_true_iff c Hc. destruct (ef_pend _ _ _ _ _ _ _ EG _ _ Hc) as (c0 & Hc0 & ->).
    rewrite (i_pending _ _ _ Hinv _ _ Hc0). pose proof no_net as HN. fold sn in Hp.
    assert (exists p, pd = Some p) as [p Ep].
    { destruct pd; [by eexists|]. destruct (HN 4 eq_refl) as [_ H]. congruence. }
    pose proof (zsum_lookup_le (net_pending (default O pd)) _ _ _ (net_pending_nonneg _) Hr) as Hz.
    assert (net_pending (default O pd) rq = 1) as Hn.
    { unfold net_pending. unfold sn in Hp. rewrite Ep in Hp |- *. cbn in *. by rewrite Hp. }
    case_decide; [|lia]. pose proof (b2z_nonneg (negb (PENDING sn) && PENDING sx)). lia. }
  rewrite Hl2 in EP. fold c_put k_put in EP.
  pose proof (eff_trans _ _ _ _ _ _ _ _ _ _ _ EG E) as [L R P Lg].
  destruct (R _ applied_lookup) as (rq' & Hreqs & B).
  exists w', rq'. split_and!; [exact EP| | | | |exact Lg].
  - by destruct L.
  - by rewrite Hreqs, applied_reqs, list_insert_insert_eq.
  - unfold c_get, k_get. by replace (b2z (negb (LP s0) && LP sl) + b2z (negb (PENDING sn) && PENDING sx) +
       b2z (negb (QUEUED sn) && QUEUED sx) + b2z (negb (SUSP s0) && SUSP sl)) with
      (b2z (negb (LP s0) && LP sl) + b2z (negb (PENDING sn) && PENDING sx) +
       b2z (negb (QUEUED sn) && QUEUED sx) + b2z (negb (SUSP s0) && SUSP sl) + 0) by lia.
  - exact P.
Qed.

Lemma c_get_nonneg : 0 <= c_get.
Proof.
  unfold c_get. repeat match goal with |- context [b2z ?b] => pose proof (b2z_nonneg b); generalize dependent (b2z b) end.
  intros. lia.
Qed.

Lemma stage_inv :
  exists w' rq', put_refs orc r pd s0 sn sl cl sx cx (get_refs r pd s0 sn sl sx applied) = (w', c_put, k_put) /\
    inv (bump r c_put C) (bump r k_put K) w' /\ same_lists w w' /\
    reqs w' = <[r := rq']> (reqs w) /\ bumped c_get k_get rq1 rq'.
Proof.
  destruct stage_run as (w' & rq' & EP & L & Hreqs & B & P & es & Hlog & Hq).
  exists w', rq'. split; [exact EP|]. split; [|done].
  destruct (bumped_words _ _ _ _ B) as (Hl & _ & Hpe & How & Hwd & Hnp).
  pose proof (i_req _ _ _ Hinv _ _ Hr Hlive) as Hok.
  destruct (mod_words_write (suspended w) pd clear set rq Hargs) as [Hw Hpo]. fold s0 in Hw, Hpo.
  pose proof (mod_words_local (suspended w) pd clear set rq stage_len Hidx Hargs) as Hloc. fold s0 rq1 in Hloc.
  fold cl sl in Hw, Hpo, Hloc.
  pose proof c_get_nonneg as Hcg.
  assert (completion_ref rq1 = completion_ref rq) as Hcr by done.
  assert (completion_ref rq' = completion_ref rq + c_get) as Hcr' by (rewrite (bu_cref _ _ _ _ B); lia).
  assert (kref rq' = kref rq + k_get) as Hkr' by (rewrite (bu_kref _ _ _ _ B); done).
  assert (0 <= completion_ref rq) as Hc0.
  { rewrite (ro_cref _ _ _ _ _ Hok). pose proof (pend_nonneg rq). pose proof (b2z_nonneg (bool_decide (r ∈ submit_writes w))). lia. }
  eapply (inv_change C K w w' r (default O pd) rq rq' c_put k_put d_pend es Hinv Hr Hlive L Hreqs).
  - destruct B. split; try done. rewrite Hl, Hloc. exact Hw.
  - exact P.
  - intros q. rewrite Hnp. apply stage_net_pending.
  - exact Hlog.
  - exact Hq.
  - apply Hwd. apply mod_words_ok; [apply stage_len|done|done|apply Hok|exact Hnet].
  - by rewrite (bu_bio _ _ _ _ B).
  - rewrite Hpe, Hcr', stage_pend. lia.
  - rewrite How, Hkr', stage_own. lia.
  - split; [lia|]. intros H0. destruct (Hraise H0) as [Hs Hsu]. rewrite Hcr', H0.
    apply orb_false_iff in Hs as [Hs HQ]. apply orb_false_iff in Hs as [HL HP].
    unfold c_get. destruct arg_bits as (-> & _ & -> & _). destruct (arg_net_bits 4 eq_refl) as [-> _].
    destruct (arg_net_bits 5 eq_refl) as [-> _]. rewrite HL, HP, HQ, !andb_false_r.
    destruct Hsu as [->| ->]; simpl; [by rewrite andb_false_r|]. by rewrite orb_true_r, !andb_false_r.
  - rewrite Hl, Hloc, Hpo. done.
  - rewrite Hl, Hloc, Hpo, Hw. apply Hok.
  - done.
Qed.

End stage.

End RequestInv.
