(* ===== verification/RequestEnd.v ===== *)
(** * End of a request (src/bsr/bsr_req.c)

    [bsr_req_complete], [bsr_req_put_completion_ref], [bsr_req_destroy] and
    [mod_rq_state] keep the invariant of [RequestInv]; none of the sanity
    checks in them fires. *)

From S2P Require Import Prelude State Request RequestInv.

Module RequestEnd.
Import State Request RequestInv.

(** ** Changes to requests that are already gone *)

Record ghost_of (rq rq' : bsr_request) : Prop := mk_ghost {
  gh_dead : destroyed rq = true;
  gh_dead' : destroyed rq' = true;
  gh_bio : master_bio rq' = master_bio rq;
  gh_len : length (rq_state rq') = length (rq_state rq);
  gh_pend : forall i, net_pend (state_at rq' i) = net_pend (state_at rq i);
  gh_np : forall q, net_pending q rq' = net_pending q rq }.

Record ghostly (w w' : world) : Prop := mk_ghostly {
  gl_lists : same_lists w w';
  gl_len : length (reqs w') = length (reqs w);
  gl_reqs : forall x rq, reqs w !! x = Some rq ->
    exists rq', reqs w' !! x = Some rq' /\ (rq' = rq \/ ghost_of rq rq');
  gl_pend : forall q c', peer_of w' q = Some c' -> exists c, peer_of w q = Some c /\ ap_pending_cnt c' = ap_pending_cnt c;
  gl_log : exists es, log w' = log w ++ es /\ Forall (fun e => quietE e = true) es }.

Lemma ghost_trans x y z : ghost_of x y -> ghost_of y z -> ghost_of x z.
Proof. intros [] []. split; try congruence; intros; congruence. Qed.

Lemma frame_ghostly w w' : frame w w' -> ghostly w w'.
Proof. intros [L R P E]. split; [done|by rewrite R| |done|done]. intros x rq. rewrite R. eauto. Qed.

Lemma ghostly_trans w1 w2 w3 : ghostly w1 w2 -> ghostly w2 w3 -> ghostly w1 w3.
Proof.
  intros [L1 N1 R1 P1 (es1 & E1 & Q1)] [L2 N2 R2 P2 (es2 & E2 & Q2)]. split.
  - by eapply same_lists_trans.
  - congruence.
  - intros x rq Hx. destruct (R1 _ _ Hx) as (y & Hy & Gy). destruct (R2 _ _ Hy) as (z & Hz & Gz). exists z. split; [done|].
    destruct Gy as [->|Gy], Gz as [->|Gz]; eauto using ghost_trans.
  - intros q c Hc. destruct (P2 _ _ Hc) as (c' & Hc' & ->). apply (P1 _ _ Hc').
  - exists (es1 ++ es2). split; [by rewrite E2, E1, app_assoc|]. by apply Forall_app.
Qed.

Lemma zsum_pointwise {A} (f : A -> Z) l l' :
  length l' = length l -> (forall i x, l !! i = Some x -> exists y, l' !! i = Some y /\ f y = f x) -> zsum f l' = zsum f l.
Proof.
  revert l'. induction l as [|x l IH]; intros [|y l'] Hl H; simplify_eq/=; [done|].
  destruct (H 0%nat x eq_refl) as (? & [= ->] & ->). rewrite (IH l'); [done|lia|].
  intros i z Hz. apply (H (S i) z Hz).
Qed.

Lemma nets_zsum_ghost rq rq' : ghost_of rq rq' -> zsum net_pend (nets rq') = zsum net_pend (nets rq).
Proof.
  intros [_ _ _ Hl Hp _]. apply zsum_pointwise.
  - unfold nets. destruct (rq_state rq), (rq_state rq'); simpl in *; lia.
  - intros i x Hx.
    assert (S i < length (rq_state rq))%nat as Hi.
    { apply lookup_lt_Some in Hx. unfold nets in Hx. destruct (rq_state rq); simpl in *; lia. }
    exists (state_at rq' (S i)). split; [apply nets_lookup; lia|]. rewrite Hp.
    rewrite (nets_lookup _ _ Hi) in Hx. congruence.
Qed.

Section ghostly.
Context (C K : nat -> Z) (w w' : world) (HG : ghostly w w') (Hinv : inv C K w).

Lemma ghostly_back x rq' : reqs w' !! x = Some rq' -> exists rq, reqs w !! x = Some rq /\ (rq' = rq \/ ghost_of rq rq').
Proof.
  intros Hx. destruct (lookup_lt_is_Some_2 (reqs w) x) as [rq Hrq].
  { rewrite <- (gl_len _ _ HG). by eapply lookup_lt_Some. }
  exists rq. split; [done|]. destruct (gl_reqs _ _ HG _ _ Hrq) as (y & Hy & HG'). congruence.
Qed.

Lemma ghostly_live x : live w' x <-> live w x.
Proof.
  unfold live. split; intros (rq & Hx & Hd).
  - destruct (ghostly_back _ _ Hx) as (y & Hy & [->|[]]); [by eexists|congruence].
  - destruct (gl_reqs _ _ HG _ _ Hx) as (y & Hy & [->|[]]); [by eexists|congruence].
Qed.

Lemma ghostly_req x : live w x -> req w' x = req w x.
Proof.
  intros (rq & Hx & Hd). destruct (gl_reqs _ _ HG _ _ Hx) as (y & Hy & [->|[]]); [|congruence].
  by rewrite (req_lookup _ _ _ Hx), (req_lookup _ _ _ Hy).
Qed.

Lemma ghostly_in_refs x : in_refs w' x = in_refs w x.
Proof.
  unfold in_refs. rewrite (sl_held _ _ (gl_lists _ _ HG)), (sl_plug _ _ (gl_lists _ _ HG)).
  rewrite (zsum_pointwise (points_to x) (reqs w) (reqs w')); [done|apply HG|].
  intros i rq Hi. destruct (gl_reqs _ _ HG _ _ Hi) as (y & Hy & [->|[]]); [by eexists|].
  exists y. split; [done|]. unfold points_to. by rewrite gh_dead0, gh_dead'0.
Qed.

Lemma inv_ghostly : inv C K w'.
Proof.
  destruct HG as [[Ht Hre Hs Hh Hm Hsu Hp Hpa] N R P (es & E & Q)]. pose proof ghostly_live as HL.
  destruct Hinv.
  split; rewrite ?Ht, ?Hre, ?Hs, ?Hh, ?Hm, ?Hpa, ?Hp, ?N; try done.
  - intros r rq Hr Hd. destruct (ghostly_back _ _ Hr) as (y & Hy & [->|[]]); [|congruence].
    apply (req_ok_ext w); [done..|apply ghostly_in_refs|by apply i_req0].
  - intros r rq Hr Hd. destruct (ghostly_back _ _ Hr) as (y & Hy & [->|G]); [by apply (i_gone0 _ y)|].
    rewrite (nets_zsum_ghost _ _ G), (gh_len _ _ G). destruct G. by apply (i_gone0 _ y).
  - intros r. rewrite HL. auto.
  - intros p q. rewrite HL. unfold before. rewrite Ht. intros Hl. rewrite (ghostly_req _ Hl). intros Hn.
    destruct (i_chain0 p q Hl Hn) as (Hb & Hw1 & Hw2). split_and!; [done..|]. rewrite ghostly_req; [done|]. apply i_tl_live0.
    destruct Hb as (l1 & l2 & l3 & ->). rewrite elem_of_app, elem_of_cons, elem_of_app, elem_of_cons. tauto.
  - intros r Hr. destruct (i_retry0 r Hr) as (Hl & ?). by rewrite HL, (ghostly_req _ Hl).
  - intros r Hr. destruct (i_submit0 r Hr) as (Hl & ?). by rewrite HL, (ghostly_req _ Hl).
  - intros q c Hc. destruct (P _ _ Hc) as (c' & Hc' & ->). rewrite (i_pending0 _ _ Hc'). symmetry. apply zsum_pointwise; [done|].
    intros i x Hx. destruct (R _ _ Hx) as (y & Hy & [->|[]]); eauto.
  - rewrite E. apply Forall_app. split; [done|]. by apply quiet_ok.
  - intros r rq Hr. rewrite E, zsum_app, (quiet_completes _ _ Q), Z.add_0_r.
    destruct (ghostly_back _ _ Hr) as (y & Hy & [->|[]]); [by apply i_once0|]. rewrite gh_bio0. by apply i_once0.
  - intros r. rewrite E, zsum_app, (quiet_completes _ _ Q), Z.add_0_r. auto.
  - intros r Hr. destruct (i_peer_ack0 r Hr) as (rq & Hx & Hd). destruct (R _ _ Hx) as (y & Hy & [->|[]]); eauto.
Qed.
End ghostly.

(** ** Peer acknowledgements of requests that are gone *)

Lemma ghostly_refl w : ghostly w w.
Proof. apply frame_ghostly, frame_refl. Qed.

Lemma ghostly_upd_req r f w :
  (forall rq, reqs w !! r = Some rq -> ghost_of rq (f rq)) -> ghostly w (upd_req r f w).
Proof.
  intros Hf. destruct (ghostly_refl w) as [L N R P E]. split; [done| | |done|done].
  - unfold upd_req. cbn. apply length_alter.
  - intros x rq Hx. unfold upd_req. cbn. rewrite list_lookup_alter. case_decide; subst.
    + rewrite Hx. exists (f rq). split; [done|]. right. by apply Hf.
    + exists rq. by split; [|left].
Qed.

Lemma net_pend_lor_ack x : net_pend (Z.lor x RQ_PEER_ACK) = net_pend x /\ PENDING (Z.lor x RQ_PEER_ACK) = PENDING x.
Proof. unfold net_pend. rewrite !bit_lor. by rewrite !orb_false_r. Qed.

Lemma alter_ge {A} (f : A -> A) (l : list A) (i : nat) : (length l <= i)%nat -> alter f i l = l.
Proof.
  intros Hi. apply list_eq. intros j. rewrite list_lookup_alter. case_decide; subst; [|done].
  by rewrite lookup_ge_None_2.
Qed.

Lemma ghost_kref f rq : destroyed rq = true -> ghost_of rq (upd_kref f rq).
Proof. by split. Qed.

Lemma ghost_ack p rq : destroyed rq = true -> ghost_of rq (upd_state p (fun x => Z.lor x RQ_PEER_ACK) rq).
Proof.
  intros Hd. split; try done.
  - apply length_state_alter.
  - intros i. destruct (decide (p < length (rq_state rq))%nat) as [Hp|Hp].
    + rewrite state_at_upd by done. case_decide; subst; [|done]. apply net_pend_lor_ack.
    + unfold state_at, upd_state. cbn [rq_state upd_rq_state]. rewrite alter_ge by lia. done.
  - intros q. unfold net_pending. destruct (decide (p < length (rq_state rq))%nat) as [Hp|Hp].
    + rewrite state_at_upd by done. case_decide; subst; [|done]. f_equal. apply net_pend_lor_ack.
    + unfold state_at, upd_state. cbn [rq_state upd_rq_state]. rewrite alter_ge by lia. done.
Qed.

Lemma destroyed_upd r w f rq :
  reqs w !! r = Some rq -> destroyed rq = true -> (forall q, destroyed (f q) = destroyed q) ->
  exists rq', reqs (upd_req r f w) !! r = Some rq' /\ destroyed rq' = true.
Proof.
  intros Hr Hd Hf. exists (f rq). unfold upd_req. cbn. rewrite list_lookup_alter_eq, Hr. split; [done|]. by rewrite Hf.
Qed.

Lemma queue_peer_ack_to_ghostly r w queued p rq :
  reqs w !! r = Some rq -> destroyed rq = true -> ghostly w (queue_peer_ack_to r (w, queued) p).1.
Proof.
  intros Hr Hd. unfold queue_peer_ack_to. destruct (peer_of w p) as [c|]; [|apply ghostly_refl].
  destruct (_ || _ || _); [apply ghostly_refl|]. cbn [fst].
  eapply ghostly_trans; [|apply frame_ghostly, frame_emit; done].
  destruct (destroyed_upd r w (upd_kref (λ k : Z, if k =? 0 then 1 else k + 1)) rq Hr Hd) as (rq1 & Hr1 & Hd1); [done|].
  eapply ghostly_trans; [|eapply ghostly_trans].
  - apply (ghostly_upd_req r (upd_kref (λ k : Z, if k =? 0 then 1 else k + 1))). intros q Hq. apply ghost_kref. congruence.
  - apply (ghostly_upd_req r (upd_state (S p) (λ x : Z, Z.lor x RQ_PEER_ACK))). intros q Hq. apply ghost_ack. congruence.
  - destruct queued; [apply ghostly_refl|].
    match goal with |- ghostly ?a _ => destruct (ghostly_refl a) as [[] N R P E] end. by split.
Qed.

Lemma ghostly_gone w w' r rq :
  ghostly w w' -> reqs w !! r = Some rq -> destroyed rq = true -> exists rq', reqs w' !! r = Some rq' /\ destroyed rq' = true.
Proof. intros HG Hr Hd. destruct (gl_reqs _ _ HG _ _ Hr) as (y & Hy & [->|[]]); eauto. Qed.

Lemma foldl_peer_ack r ps : forall wq rq,
  reqs wq.1 !! r = Some rq -> destroyed rq = true -> ghostly wq.1 (foldl (queue_peer_ack_to r) wq ps).1.
Proof.
  induction ps as [|p ps IH]; intros [w queued] rq Hr Hd; [apply ghostly_refl|]. cbn [foldl fst] in *.
  pose proof (queue_peer_ack_to_ghostly r w queued p rq Hr Hd) as HG.
  destruct (ghostly_gone _ _ _ _ HG Hr Hd) as (rq' & Hr' & Hd').
  eapply ghostly_trans; [exact HG|]. by eapply IH.
Qed.

Lemma bsr_queue_peer_ack_ghostly r w rq :
  reqs w !! r = Some rq -> destroyed rq = true -> ghostly w (bsr_queue_peer_ack r w).
Proof.
  intros Hr Hd. unfold bsr_queue_peer_ack.
  pose proof (foldl_peer_ack r (peer_ids w) (w, false) rq Hr Hd) as HG.
  destruct (foldl (queue_peer_ack_to r) (w, false) (peer_ids w)) as [w' queued]. cbn [fst] in HG.
  destruct queued; [done|]. eapply ghostly_trans; [exact HG|]. apply frame_ghostly.
  eapply frame_trans; [|by apply frame_emit]. by destruct (frame_refl w') as [[] R P E].
Qed.

Lemma inv_set_peer_ack C K w r rq n :
  inv C K w -> reqs w !! r = Some rq -> destroyed rq = true ->
  inv C K (upd_last_peer_acked_dagtag (fun _ => n) (upd_peer_ack_req (fun _ => Some r) w)).
Proof.
  intros [] Hr Hd. split; try done.
  - intros x q Hx Hdx. by apply (req_ok_ext w); [..|apply i_req0].
  - intros x Hx. injection Hx as <-. by eexists.
Qed.

(** ** Taking a request off the lists *)

Definition marked (r : nat) (w : world) : world :=
  upd_retry_writes (filter (.≠ r)) (upd_transfer_log (filter (.≠ r)) (upd_net_queued_log (filter (.≠ r))
    (upd_req r (fun q => upd_destroyed (fun _ => true) (upd_nq_ref (fun _ => 0) q)) w))).

Lemma filter_before (r p q : nat) (l : list nat) :
  p <> r -> q <> r -> (exists l1 l2 l3, l = l1 ++ p :: l2 ++ q :: l3) ->
  exists l1 l2 l3, filter (.≠ r) l = l1 ++ p :: l2 ++ q :: l3.
Proof.
  intros Hp Hq (l1 & l2 & l3 & ->).
  exists (filter (.≠ r) l1), (filter (.≠ r) l2), (filter (.≠ r) l3).
  rewrite filter_app, filter_cons_True, filter_app, filter_cons_True by done. done.
Qed.

Section kill.
Context (C K : nat -> Z) (w : world) (r : nat) (rq : bsr_request).
Context (Hinv : inv C K w) (Hr : reqs w !! r = Some rq) (Hlive : destroyed rq = false).
Context (HC : forall x, 0 <= C x) (HK : forall x, 0 <= K x).
Context (Hk0 : kref rq = 0).
Let rq' := upd_destroyed (fun _ => true) (upd_nq_ref (fun _ => 0) rq).
Definition K_next : nat -> Z := match destroy_next rq with Some n => bump n 1 K | None => K end.

Lemma in_refs_parts x :
  0 <= zsum (points_to x) (reqs w) /\ 0 <= count_nat x (held w) /\ 0 <= b2z (bool_decide (most_recent_req w = Some x)).
Proof.
  split_and!; [|apply count_nat_nonneg|apply b2z_nonneg]. apply zsum_nonneg. intros. apply b2z_nonneg.
Qed.

Lemma own_refs_parts q : 0 <= zsum net_ref (nets q) /\ 0 <= b2z (LP (local q) && AB (local q)).
Proof. split; [|apply b2z_nonneg]. apply zsum_nonneg. intros. apply b2z_nonneg. Qed.

(** Nothing holds a request whose count is zero. *)
Lemma kill_free :
  completion_ref rq = 0 /\ (r ∉ retry_writes w) /\ K r = 0 /\ own_refs rq = 0 /\ in_refs w r = 0 /\
  pend rq = 0 /\ (r ∉ submit_writes w).
Proof.
  destruct (i_req _ _ _ Hinv _ _ Hr Hlive) as [Hc Hk _ _ _ _ _]. specialize (HC r). specialize (HK r).
  destruct (in_refs_parts r) as (? & ? & ?), (own_refs_parts rq) as [? ?].
  pose proof (b2z_nonneg (negb (completion_ref rq =? 0) || bool_decide (r ∈ retry_writes w))) as Hb.
  unfold base_ref in Hk.
  assert (b2z (negb (completion_ref rq =? 0) || bool_decide (r ∈ retry_writes w)) = 0 /\ own_refs rq = 0 /\ in_refs w r = 0 /\ K r = 0)
    as (Hb0 & Ho & Hi & Hk') by (unfold own_refs, in_refs in *; lia).
  destruct (Z.eqb_spec (completion_ref rq) 0) as [Hc0|]; [|done]. simpl in Hb0.
  case_bool_decide as Hre; [done|]. pose proof (pend_nonneg rq).
  pose proof (b2z_nonneg (bool_decide (r ∈ submit_writes w))).
  assert (b2z (bool_decide (r ∈ submit_writes w)) = 0) as Hs by lia. case_bool_decide; [done|].
  split_and!; try done. lia.
Qed.

Lemma no_pointer x : live w x -> destroy_next (req w x) <> Some r.
Proof.
  intros (q & Hx & Hd) Hn. rewrite (req_lookup _ _ _ Hx) in Hn.
  destruct kill_free as (_ & _ & _ & _ & Hi & _). destruct (in_refs_parts r) as (H0 & Hh & Hm).
  pose proof (zsum_lookup_le (points_to r) (reqs w) x q) as Hle.
  assert (points_to r q = 1) as H1. { unfold points_to. by rewrite Hd, Hn, bool_decide_true. }
  unfold in_refs in Hi. specialize (Hle (fun _ => b2z_nonneg _) Hx). lia.
Qed.

Lemma marked_reqs : reqs (marked r w) = <[r := rq']> (reqs w).
Proof.
  apply (alter_as_insert (fun q => upd_destroyed (fun _ => true) (upd_nq_ref (fun _ => 0) q)) _ _ _ Hr).
Qed.

Lemma marked_lookup_ne x : x <> r -> reqs (marked r w) !! x = reqs w !! x.
Proof. intros. rewrite marked_reqs. by rewrite list_lookup_insert_ne. Qed.

Lemma marked_lookup_eq : reqs (marked r w) !! r = Some rq'.
Proof. rewrite marked_reqs. by apply list_lookup_insert_eq, (lookup_lt_Some _ _ _ Hr). Qed.

Lemma marked_live x : live (marked r w) x <-> live w x /\ x <> r.
Proof.
  unfold live. destruct (decide (x = r)) as [->|Hx].
  - rewrite marked_lookup_eq. split; [by intros (? & [= <-] & ?)|by intros [_ ?]].
  - rewrite marked_lookup_ne by done. split; [by intros (q & ? & ?); split; [eexists|]|by intros [(q & ? & ?) _]; eexists].
Qed.

Lemma marked_req x : x <> r -> req (marked r w) x = req w x.
Proof. intros. unfold req. by rewrite marked_lookup_ne. Qed.

Lemma marked_in_refs x :
  in_refs (marked r w) x = in_refs w x - b2z (bool_decide (destroy_next rq = Some x)).
Proof.
  unfold in_refs. rewrite marked_reqs, (zsum_insert _ _ _ _ _ Hr). unfold points_to at 2 3.
  rewrite Hlive. cbn. lia.
Qed.

Lemma K_next_at x : K_next x = K x + b2z (bool_decide (destroy_next rq = Some x)).
Proof.
  unfold K_next. destruct (destroy_next rq) as [n|]; [|simpl; lia].
  destruct (decide (x = n)) as [->|Hx].
  - by rewrite bump_eq, bool_decide_true.
  - rewrite bump_ne by done. rewrite bool_decide_false by congruence. simpl. lia.
Qed.

Lemma inv_marked : inv C K_next (marked r w).
Proof.
  destruct kill_free as (Hc0 & Hre & _ & Hown & Hin & Hpe & Hsu).
  pose proof marked_live as HL. pose proof marked_req as HR. pose proof no_pointer as HNP.
  pose proof marked_in_refs as HI. pose proof marked_lookup_ne as HNE. pose proof K_next_at as HKN.
  assert (in_refs w r = 0) as Hin' by done.
  destruct (in_refs_parts r) as (? & ? & ?).
  destruct Hinv.
  assert (forall x, x ∈ filter (.≠ r) (transfer_log w) <-> x ∈ transfer_log w /\ x <> r) as HF
    by (intros; rewrite list_elem_of_filter; tauto).
  assert (forall x, x ∈ filter (.≠ r) (retry_writes w) <-> x ∈ retry_writes w /\ x <> r) as HF'
    by (intros; rewrite list_elem_of_filter; tauto).
  split; cbn [held most_recent_req submit_writes peers log peer_ack_req marked upd_req upd_reqs upd_retry_writes
    upd_transfer_log upd_net_queued_log transfer_log retry_writes]; try done.
  - intros x q Hx Hd. destruct (decide (x = r)) as [->|Hne].
    { rewrite marked_lookup_eq in Hx. by injection Hx as <-. }
    rewrite HNE in Hx by done. destruct (i_req0 x q Hx Hd). split; try done.
    + unfold base_ref in *. change (retry_writes (marked r w)) with (filter (.≠ r) (retry_writes w)).
      rewrite (bool_decide_ext (x ∈ filter _ _) (x ∈ retry_writes w)) by (rewrite HF'; tauto).
      rewrite HI, HKN. lia.
    + cbn. intros ? ? [? _]%HF. by apply ro_post0.
  - intros x q Hx Hd. destruct (decide (x = r)) as [->|Hne].
    + rewrite marked_lookup_eq in Hx. injection Hx as <-. unfold in_refs in Hin'.
      split_and!.
      * intros Hh%count_nat_pos. lia.
      * intros Hm. rewrite bool_decide_true in Hin' by done. simpl in Hin'. lia.
      * change (nets rq') with (nets rq). unfold pend in Hpe.
        assert (0 <= zsum net_pend (nets rq)).
        { apply zsum_nonneg. intros y. unfold net_pend. pose proof (b2z_nonneg (PENDING y)).
          pose proof (b2z_nonneg (QUEUED y)). lia. }
        pose proof (b2z_nonneg (LP (local rq) && negb (AB (local rq)))). pose proof (b2z_nonneg (SUSP (local rq))). lia.
      * apply (i_req0 r rq Hr Hlive).
    + rewrite HNE in Hx by done. by apply i_gone0.
  - by apply NoDup_filter.
  - intros x [Hx Hne]%HF. apply HL. auto.
  - intros p q [Hp Hpr]%HL. rewrite HR by done. intros Hn.
    assert (q <> r) as Hq by (intros ->; by apply (HNP p)).
    destruct (i_chain0 p q Hp Hn) as (Hb & Hw1 & Hw2). rewrite HR by done. split_and!; [|done..]. by apply filter_before.
  - intros x [Hx Hne]%HF'. destruct (i_retry0 x Hx) as (? & ? & ? & Ht & ?). rewrite HL, HR by done. split_and!; try done.
    by intros [? _]%HF.
  - intros x Hx. assert (x <> r) as Hne by congruence. destruct (i_submit0 x Hx) as (? & ? & Ht).
    rewrite HL, HR by done. split_and!; try done. by intros [? _]%HF.
  - intros x Hx. rewrite marked_reqs, length_insert. auto.
  - intros q c Hc. rewrite marked_reqs, (zsum_insert _ _ _ _ _ Hr). change (net_pending q rq') with (net_pending q rq).
    rewrite (i_pending0 q c Hc). lia.
  - intros x q Hx. destruct (decide (x = r)) as [->|Hne].
    + rewrite marked_lookup_eq in Hx. injection Hx as <-. by apply (i_once0 r rq).
    + rewrite HNE in Hx by done. auto.
  - intros x. rewrite marked_reqs, length_insert. auto.
  - intros x Hx. destruct (i_peer_ack0 x Hx) as (q & Hq & Hd). exists q. split; [|done]. rewrite HNE; [done|]. congruence.
Qed.

End kill.

(** ** Destroying a chain of requests *)

(** Updates of fields the invariant does not read. *)
Lemma frame_write_cnt f w : frame w (upd_req_write_cnt f w).
Proof. by destruct (frame_refl w) as [[] R P E]. Qed.
Lemma frame_d_kref f w : frame w (upd_d_kref f w).
Proof. by destruct (frame_refl w) as [[] R P E]. Qed.

Lemma send_new_oos_frame orc r bits w p : frame w (send_new_oos orc r bits w p).
Proof.
  unfold send_new_oos. destruct (peer_of w p); [|apply frame_refl].
  apply frame_if. intros _. apply frame_emit. by destruct (o_alloc _ _).
Qed.

Lemma foldl_frame {A} (f : world -> A -> world) l w : (forall w x, frame w (f w x)) -> frame w (foldl f w l).
Proof.
  intros Hf. revert w. induction l as [|x l IH]; intros w; [apply frame_refl|]. cbn [foldl].
  eapply frame_trans; [apply Hf|apply IH].
Qed.

Lemma destroy_bitmap_frame orc r s w : frame w (destroy_bitmap orc r s w).
Proof.
  unfold destroy_bitmap. apply frame_if. intros _. destruct (sync_bits w r) as [bits mask].
  eapply frame_trans; [apply (frame_emit (E_set_sync (i_sector (req w r)) (i_size (req w r)) bits mask) w eq_refl)|].
  apply foldl_frame. intros. apply send_new_oos_frame.
Qed.

Lemma destroy_actlog_frame orc r s w : frame w (destroy_actlog orc r s w).1.
Proof.
  unfold destroy_actlog. destruct (_ && _); [|apply frame_refl]. cbn [fst]. by apply frame_emit.
Qed.

Lemma emit_if_false e w : emit_if false e w = w.
Proof. done. Qed.

(** What no end of a request changes. *)
Record rest (w w' : world) : Prop := mk_rest {
  re_submit : submit_writes w' = submit_writes w;
  re_held : held w' = held w;
  re_plug : most_recent_req w' = most_recent_req w;
  re_susp : suspended w' = suspended w;
  re_peers : peer_stats w' = peer_stats w;
  re_len : length (reqs w') = length (reqs w);
  re_gone : forall x rq, reqs w !! x = Some rq -> destroyed rq = true -> exists rq', reqs w' !! x = Some rq' /\ destroyed rq' = true }.

Lemma rest_refl w : rest w w.
Proof. split; try done. by eauto. Qed.
Lemma rest_trans w1 w2 w3 : rest w1 w2 -> rest w2 w3 -> rest w1 w3.
Proof. intros [] []. split; try congruence. intros x rq Hx Hd. destruct (re_gone0 _ _ Hx Hd) as (? & ? & ?). eauto. Qed.
Lemma same_lists_rest w w' :
  same_lists w w' -> length (reqs w') = length (reqs w) ->
  (forall x rq, reqs w !! x = Some rq -> destroyed rq = true -> exists rq', reqs w' !! x = Some rq' /\ destroyed rq' = true) ->
  rest w w'.
Proof. intros [] ? ?. by split. Qed.
Lemma ghostly_rest w w' : ghostly w w' -> rest w w'.
Proof.
  intros [L N R _ _]. apply same_lists_rest; [done..|]. intros x rq Hx Hd. destruct (R _ _ Hx) as (y & Hy & [->|[]]); eauto.
Qed.

(** The local word never holds bits of the network part. *)
Lemma destroy_one_inv orc C K w r rq :
  inv C K w -> reqs w !! r = Some rq -> destroyed rq = false -> (forall x, 0 <= C x) -> (forall x, 0 <= K x) ->
  kref rq = 0 -> has (local rq) (Z.ldiff RQ_NET_MASK RQ_NET_DONE) = false ->
  inv C (K_next K rq) (destroy_one orc r w) /\ transfer_log (destroy_one orc r w) = filter (.≠ r) (transfer_log w) /\
  (forall x, x <> r -> live w x -> reqs (destroy_one orc r w) !! x = reqs w !! x) /\
  rest w (destroy_one orc r w) /\ (forall rq', reqs (destroy_one orc r w) !! r = Some rq' -> destroyed rq' = true).
Proof.
  intros Hinv Hr Hlive HC HK Hk Hn.
  pose proof (inv_marked C K w r rq Hinv Hr Hlive HC HK Hk) as HI.
  pose proof (marked_lookup_eq w r rq Hr) as Hm. pose proof (marked_lookup_ne w r rq Hr) as Hne.
  assert (forall x, x <> r -> live w x -> live (marked r w) x) as Hlv.
  { intros x Hx Hl. by apply (marked_live w r rq Hr). }
  assert (transfer_log (marked r w) = filter (.≠ r) (transfer_log w)) as Ht by done.
  unfold destroy_one. rewrite (req_lookup _ _ _ Hr). fold (local rq).
  change (upd_retry_writes _ _) with (marked r w).
  assert (rest w (marked r w)) as Hre.
  { split; try done; [by rewrite (marked_reqs w r rq Hr), length_insert|]. intros x q Hq Hd.
    rewrite Hne by congruence. by exists q. }
  revert HI Hm Hne Hlv Ht Hre. generalize (marked r w). intros w1 HI Hm Hne Hlv Ht Hre.
  (* the interval tree *)
  rewrite (req_lookup _ _ _ Hm), Hn. simpl (false && _). rewrite emit_if_false.
  set (w2 := if i_in_tree _ then _ else _).
  assert (ghostly w1 w2) as G2.
  { subst w2. destruct (i_in_tree _); [|apply ghostly_refl]. apply ghostly_upd_req. intros q Hq.
    rewrite Hm in Hq. injection Hq as <-. done. }
  generalize dependent w2. intros w2 G2.
  (* the bitmap and the activity log *)
  assert (exists w3 b, (if has (local rq) RQ_WRITE
      then destroy_actlog orc r (local rq) (destroy_bitmap orc r (local rq) w2) else (w2, false)) = (w3, b) /\ frame w2 w3)
    as (w3 & b & -> & F3).
  { destruct (has (local rq) RQ_WRITE); [|by exists w2, false; split; [|apply frame_refl]].
    pose proof (destroy_actlog_frame orc r (local rq) (destroy_bitmap orc r (local rq) w2)) as F.
    destruct (destroy_actlog _ _ _ _) as [w3 b]. exists w3, b. split; [done|].
    eapply frame_trans; [apply destroy_bitmap_frame|exact F]. }
  pose proof (ghostly_trans _ _ _ G2 (frame_ghostly _ _ F3)) as G3.
  assert (forall w4, ghostly w1 w4 -> transfer_log w4 = filter (.≠ r) (transfer_log w) /\
    (forall x, x <> r -> live w x -> reqs w4 !! x = reqs w !! x) /\
    rest w w4 /\ (forall rq', reqs w4 !! r = Some rq' -> destroyed rq' = true)) as Hend.
  { intros w4 G. split; [by rewrite (sl_tl _ _ (gl_lists _ _ G))|]. split_and!.
    - intros x Hx Hl. rewrite <- Hne by done.
      destruct (Hlv x Hx Hl) as (q & Hq & Hd). destruct (gl_reqs _ _ G _ _ Hq) as (y & Hy & [->|[]]); congruence.
    - eapply rest_trans; [exact Hre|]. by apply ghostly_rest.
    - intros rq' Hrq'. destruct (ghostly_gone _ _ _ _ G Hm eq_refl) as (q & Hq & Hd). congruence. }
  destruct (_ && _).
  - (* kept for its peer ack *)
    unfold destroy_peer_ack.
    assert (exists w4, match peer_ack_req w3 with
      | Some r' => if peer_ack_differs w3 r r' || (b && negb (ap_actlog_cnt w3 =? 0)) || peer_ack_window_full w3 r
                   then bsr_queue_peer_ack r' w3 else emit (E_free r') (upd_req_write_cnt (λ n : Z, n - 1) w3)
      | None => w3 end = w4 /\ ghostly w3 w4) as (w4 & -> & G4).
    { eexists. split; [done|]. destruct (peer_ack_req w3) as [r'|] eqn:Epa; [|apply ghostly_refl].
      destruct (_ || _ || _).
      - pose proof (inv_ghostly _ _ _ _ G3 HI) as HI3. destruct (i_peer_ack _ _ _ HI3 _ Epa) as (q & Hq & Hd).
        by apply (bsr_queue_peer_ack_ghostly r' w3 q).
      - apply frame_ghostly. eapply frame_trans; [apply frame_write_cnt|by apply frame_emit]. }
    pose proof (ghostly_trans _ _ _ G3 G4) as G. destruct (ghostly_gone _ _ _ _ G Hm eq_refl) as (q & Hq & Hd).
    destruct (Hend _ G) as (He1 & He2 & [] & He4).
    split_and!; try done. eapply inv_set_peer_ack; [by apply (inv_ghostly _ _ _ _ G)|done..].
  - pose proof (ghostly_trans _ _ _ G3 (frame_ghostly _ _ (frame_trans _ _ _ (frame_write_cnt (λ n : Z, n - 1) w3)
      (frame_emit (E_free r) _ eq_refl)))) as G.
    split; [by apply (inv_ghostly _ _ _ _ G)|by apply Hend].
Qed.

Lemma has_open_net s : has s (Z.ldiff RQ_NET_MASK RQ_NET_DONE) = PENDING s || QUEUED s || SENT s || OKAY s || SIS s.
Proof.
  change (Z.ldiff RQ_NET_MASK RQ_NET_DONE) with
    (Z.lor (Z.lor (Z.lor (Z.lor RQ_NET_PENDING RQ_NET_QUEUED) RQ_NET_SENT) RQ_NET_OK) RQ_NET_SIS).
  by autorewrite with rq.
Qed.

Lemma local_no_net w c k r rq : req_ok w c k r rq -> has (local rq) (Z.ldiff RQ_NET_MASK RQ_NET_DONE) = false.
Proof.
  intros [_ _ (_ & Hn & _) _ _ _ _]. rewrite has_open_net. unfold net_bits in Hn.
  destruct (PENDING (local rq)), (QUEUED (local rq)), (SENT (local rq)), (OKAY (local rq)), (SIS (local rq)); try done.
  all: by rewrite ?orb_true_r in Hn.
Qed.

Lemma peers_bound C K w : inv C K w -> (length (peers w) <= BSR_NODE_ID_MAX)%nat.
Proof. intros H. destruct (i_peers _ _ _ H) as [Hl _]. unfold peer_stats in Hl. by rewrite length_map in Hl. Qed.

Lemma peer_ids_lt w p : p ∈ peer_ids w -> (p < length (peers w))%nat.
Proof. unfold peer_ids. intros H%list_elem_of_In%filter_In. destruct H as [H%in_seq _]. lia. Qed.

Lemma net_quiet rq x : pend rq = 0 -> x ∈ nets rq -> PENDING x = false /\ QUEUED x = false.
Proof.
  intros H0 [i Hi]%list_elem_of_lookup.
  assert (forall y, 0 <= net_pend y) as Hn.
  { intros y. unfold net_pend. pose proof (b2z_nonneg (PENDING y)). pose proof (b2z_nonneg (QUEUED y)). lia. }
  assert (zsum net_pend (nets rq) = 0) as Hz.
  { pose proof (zsum_nonneg net_pend (nets rq) Hn). unfold pend in H0.
    pose proof (b2z_nonneg (LP (local rq) && negb (AB (local rq)))). pose proof (b2z_nonneg (SUSP (local rq))). lia. }
  pose proof (zsum_zero _ _ _ _ Hn Hz Hi) as Hx. unfold net_pend in Hx.
  destruct (PENDING x), (QUEUED x); simpl in Hx; done || lia.
Qed.

(** None of the sanity checks of [bsr_req_destroy] fires on a request whose
    reference count is zero. *)
Lemma destroy_check_ok C K w r rq :
  inv C K w -> reqs w !! r = Some rq -> destroyed rq = false -> (forall x, 0 <= C x) -> (forall x, 0 <= K x) ->
  kref rq = 0 -> destroy_check w r = None.
Proof.
  intros Hinv Hr Hlive HC HK Hk0.
  destruct (kill_free C K w r rq Hinv Hr Hlive HC HK Hk0) as (Hc & _ & _ & Hown & _ & Hpe & _).
  destruct (i_req _ _ _ Hinv _ _ Hr Hlive) as [_ _ (Hlen & _ & Hnets) Hdone _ _ _].
  unfold destroy_check. rewrite (req_lookup _ _ _ Hr). fold (local rq). autorewrite with rq. rewrite Hc.
  assert (zsum net_ref (nets rq) = 0 /\ LP (local rq) && AB (local rq) = false) as [Hnr Hla].
  { unfold own_refs in Hown. destruct (own_refs_parts rq) as [? ?]. split; [lia|].
    destruct (LP (local rq) && AB (local rq)); simpl in *; lia || done. }
  match goal with |- context [existsb ?f ?l] => destruct (existsb f l) eqn:Ee end.
  { exfalso. apply existsb_exists in Ee as (p & Hp & Hb). apply list_elem_of_In in Hp.
    pose proof (peer_ids_lt _ _ Hp). pose proof (peers_bound _ _ _ Hinv).
    assert (nets rq !! p = Some (state_at rq (S p))) as Hx by (apply nets_lookup; lia).
    assert (state_at rq (S p) ∈ nets rq) as Hin by (apply list_elem_of_lookup; eauto).
    destruct (net_quiet _ _ Hpe Hin) as [HP HQ].
    pose proof (zsum_zero net_ref _ _ _ (fun _ => b2z_nonneg _) Hnr Hx) as Hb0. unfold net_ref in Hb0.
    rewrite Forall_forall in Hnets. destruct (Hnets _ Hin) as [Hidle _ _ _ _ _].
    unfold bsr_req_state_by_peer_device in Hb. autorewrite with rq in Hb. apply andb_true_iff in Hb as [Hn Hd].
    apply negb_true_iff in Hd. unfold net_bits in Hn. rewrite HP, HQ, Hd in *. simpl in *.
    rewrite (orb_false_r (SENT _)) in Hn. rewrite (Hidle Hn) in Hb0. done. }
  assert (LP (local rq) = false) as ->.
  { unfold pend in Hpe. pose proof (zsum_nonneg net_pend (nets rq)) as Hz.
    destruct (LP (local rq)); [|done]. rewrite andb_true_l in Hla. rewrite Hla in Hpe. simpl in Hpe.
    pose proof (b2z_nonneg (SUSP (local rq))). exfalso.
    assert (0 <= zsum net_pend (nets rq)); [|lia]. apply Hz. intros y. unfold net_pend.
    pose proof (b2z_nonneg (PENDING y)). pose proof (b2z_nonneg (QUEUED y)). lia. }
  destruct (Hdone Hc) as [-> | ->]; [done|]. by rewrite andb_false_r.
Qed.

Lemma bump_cancel n K x : bump n (-1) (bump n 1 K) x = K x.
Proof. unfold bump. destruct (decide (x = n)); lia. Qed.

(** Giving back references of one request that nobody counts on any more. *)
Lemma inv_kref C K w r rq k :
  inv C K w -> reqs w !! r = Some rq -> destroyed rq = false ->
  inv C (bump r (- k) K) (upd_req r (upd_kref (fun x => x - k)) w).
Proof.
  intros Hinv Hr Hlive. pose proof (i_req _ _ _ Hinv _ _ Hr Hlive) as [].
  apply (inv_ext (bump r 0 C) (bump r (- k) K)); [intros x; unfold bump; destruct (decide (x = r)); lia|done|].
  eapply (inv_change C K w _ r O rq (upd_kref (fun x => x - k) rq) 0 (- k) 0 []); try done.
  - apply (alter_as_insert (upd_kref (fun x => x - k)) _ _ _ Hr).
  - intros q c Hc. exists c. split; [done|]. destruct (decide _); lia.
  - intros q. change (net_pending q (upd_kref _ rq)) with (net_pending q rq). destruct (decide _); lia.
  - by rewrite app_nil_r.
  - change (pend (upd_kref (λ x : Z, x - k) rq)) with (pend rq). cbn. lia.
  - change (own_refs (upd_kref (λ x : Z, x - k) rq)) with (own_refs rq). cbn. lia.
  - intros Hs. destruct (i_submit _ _ _ Hinv _ Hs) as (_ & Hf & _). rewrite (req_lookup _ _ _ Hr) in Hf. by destruct Hf.
Qed.

Lemma lookup_alter_kref w r rq f : reqs w !! r = Some rq -> reqs (upd_req r f w) !! r = Some (f rq).
Proof. intros Hr. unfold upd_req. cbn. by rewrite list_lookup_alter_eq, Hr. Qed.

Lemma filter_length_lt (l : list nat) r : r ∈ l -> (length (filter (.≠ r) l) < length l)%nat.
Proof.
  induction l as [|x l IH]; [by intros ?%elem_of_nil|]. intros Hr. rewrite filter_cons.
  destruct (decide (x = r)) as [->|Hne].
  - rewrite decide_False by tauto. pose proof (length_filter (.≠ r) l). simpl. lia.
  - rewrite decide_True by done. apply elem_of_cons in Hr as [->|Hr]; [done|]. specialize (IH Hr). simpl. lia.
Qed.

Lemma before_facts C K w r r' :
  inv C K w -> before w r r' -> r ∈ transfer_log w /\ r' ∈ transfer_log w /\ r' <> r.
Proof.
  intros Hinv Hb. pose proof (i_tl _ _ _ Hinv) as Hnd. destruct Hb as (l1 & l2 & l3 & E). rewrite E in Hnd |- *.
  rewrite !elem_of_app, !elem_of_cons, !elem_of_app, !elem_of_cons. split_and!; try tauto.
  intros ->. apply NoDup_app in Hnd as (_ & _ & Hnd). apply NoDup_cons in Hnd as [Hnd _]. apply Hnd.
  rewrite elem_of_app, elem_of_cons. tauto.
Qed.

Lemma destroy_loop_inv orc C K fuel : forall w r rq n,
  inv C K w -> reqs w !! r = Some rq -> destroyed rq = false -> (forall x, 0 <= C x) -> (forall x, 0 <= K x) ->
  kref rq = 0 -> (length (transfer_log w) < fuel)%nat ->
  inv C K (destroy_loop orc fuel r n w).
Proof.
  induction fuel as [|fuel IH]; intros w r rq n Hinv Hr Hlive HC HK Hk0 Hf; [lia|]. cbn [destroy_loop].
  rewrite (destroy_check_ok C K w r rq) by done. rewrite (req_lookup _ _ _ Hr).
  destruct (destroy_one_inv orc C K w r rq) as (HI & Ht & Hsame & _); try done.
  { eapply local_no_net. by apply (i_req _ _ _ Hinv). }
  destruct (destroy_next rq) as [r'|] eqn:En.
  2: { unfold K_next in HI. rewrite En in HI. eapply inv_frame; [apply frame_d_kref|done]. }
  assert (live w r) as Hl by (by exists rq).
  destruct (i_chain _ _ _ Hinv r r' Hl) as [Hb _]; [by rewrite (req_lookup _ _ _ Hr)|].
  destruct (before_facts C K w r r' Hinv Hb) as (Hin & Hin' & Hne).
  destruct (i_tl_live _ _ _ Hinv r' Hin') as (rq' & Hr' & Hd').
  assert (reqs (destroy_one orc r w) !! r' = Some rq') as Hr1 by (rewrite Hsame; [done|done|by exists rq']).
  unfold K_next in HI. rewrite En in HI.
  pose proof (inv_kref C _ _ r' rq' 1 HI Hr1 Hd') as HI2.
  apply (inv_ext C _ C K) in HI2; [|done|intros; apply bump_cancel].
  pose proof (lookup_alter_kref _ _ _ (upd_kref (fun k => k - 1)) Hr1) as Hr2.
  destruct (Z.eqb_spec (kref (req (upd_req r' (upd_kref (fun k => k - 1)) (destroy_one orc r w)) r')) 0) as [H0|H0].
  - rewrite (req_lookup _ _ _ Hr2) in H0. eapply (IH _ r'); try done.
    change (length (transfer_log (destroy_one orc r w)) < fuel)%nat. rewrite Ht.
    pose proof (filter_length_lt _ _ Hin). lia.
  - eapply inv_frame; [apply frame_d_kref|done].
Qed.

Lemma tl_length C K w : inv C K w -> (length (transfer_log w) <= length (reqs w))%nat.
Proof.
  intros Hinv. rewrite <- (length_seq (length (reqs w)) 0). apply NoDup_incl_length.
  - apply NoDup_ListNoDup, Hinv.
  - intros x Hx%list_elem_of_In. apply in_seq. destruct (i_tl_live _ _ _ Hinv _ Hx) as (rq & Hr & _).
    apply lookup_lt_Some in Hr. lia.
Qed.

(** [kref_sub] with the references the running code owes. *)
Lemma kref_sub_inv orc C K w r rq k :
  inv C (bump r k K) w -> reqs w !! r = Some rq -> destroyed rq = false ->
  (forall x, 0 <= C x) -> (forall x, 0 <= K x) -> inv C K (kref_sub orc r k w).
Proof.
  intros Hinv Hr Hlive HC HK. unfold kref_sub.
  pose proof (inv_kref C _ w r rq k Hinv Hr Hlive) as HI.
  apply (inv_ext C _ C K) in HI; [|done|intros x; unfold bump; destruct (decide (x = r)); lia].
  pose proof (lookup_alter_kref w r rq (upd_kref (fun x => x - k)) Hr) as Hr1.
  rewrite (req_lookup _ _ _ Hr1). cbn [kref upd_kref].
  assert (0 <= kref rq - k) as Hk.
  { pose proof (ro_kref _ _ _ _ _ (i_req _ _ _ HI _ _ Hr1 Hlive)) as E. cbn [kref upd_kref] in E. rewrite E.
    destruct (own_refs_parts (upd_kref (fun x => x - k) rq)) as [? ?].
    destruct (in_refs_parts (upd_req r (upd_kref (fun x => x - k)) w) r) as (? & ? & ?). specialize (HK r).
    pose proof (b2z_nonneg (negb (completion_ref rq =? 0) || bool_decide (r ∈ retry_writes w))).
    unfold base_ref, own_refs, in_refs. cbn [completion_ref upd_kref retry_writes upd_req upd_reqs] in *. lia. }
  destruct (Z.eqb_spec (kref rq - k) 0) as [H0|H0].
  - unfold bsr_req_destroy. eapply (destroy_loop_inv orc C K _ _ r); try done.
    pose proof (tl_length _ _ _ HI). lia.
  - destruct (Z.ltb_spec (kref rq - k) 0); [lia|done].
Qed.

(** ** Completing a request *)

(** A completed read that failed everywhere, or a write that was never
    submitted, goes to the retry list. *)
Lemma restart_inv C K w r rq :
  inv C (bump r 1 K) w -> reqs w !! r = Some rq -> destroyed rq = false ->
  completion_ref rq = 0 -> POSTPONED (local rq) = true -> (r ∉ retry_writes w) -> (r ∉ submit_writes w) ->
  is_Some (master_bio rq) -> inv C K (bsr_restart_request r w).
Proof.
  intros Hinv Hr Hlive Hc0 Hpo Hre Hsu Hsome. unfold bsr_restart_request.
  assert (frame w (emit (E_restart r) w)) as F by (by apply frame_emit).
  set (rq' := upd_nq_ref (fun _ => 0) rq).
  set (w' := emit _ _).
  assert (reqs w' = <[r := rq']> (reqs w)) as Hreqs by apply (alter_as_insert (upd_nq_ref (fun _ => 0)) _ _ _ Hr).
  assert (forall x, live w' x <-> live w x) as HL by (intros; by apply (live_insert w w' r rq rq')).
  assert (forall x, req w' x = req w x \/ (x = r /\ req w' x = rq')) as HR.
  { intros x. rewrite (req_insert w w' r rq rq' x Hr Hreqs). destruct (decide (x = r)); [by right|by left]. }
  assert (forall x, in_refs w' x = in_refs w x) as HI.
  { intros x. unfold in_refs. rewrite Hreqs, (zsum_insert _ _ _ _ _ Hr). change (points_to x rq') with (points_to x rq).
    change (held w') with (held w). change (most_recent_req w') with (most_recent_req w). lia. }
  assert (forall x, x ∈ transfer_log w' <-> x ∈ transfer_log w /\ x <> r) as HF.
  { intros x. change (transfer_log w') with (filter (.≠ r) (transfer_log w)). rewrite list_elem_of_filter. tauto. }
  assert (forall x, x ∈ retry_writes w' <-> x ∈ retry_writes w \/ x = r) as HF'.
  { intros x. change (retry_writes w') with (retry_writes w ++ [r]). rewrite elem_of_app, list_elem_of_singleton. done. }
  assert (r ∈ transfer_log w -> WRITE (local rq) = false) as Hnw.
  { intros Ht. destruct (WRITE (local rq)) eqn:E; [|done]. by destruct (ro_post _ _ _ _ _ (i_req _ _ _ Hinv _ _ Hr Hlive) Hpo E). }
  pose proof (req_lookup _ _ _ Hr) as Hrw.
  destruct F as [_ _ _ (es & Hes & Hqes)]. change (log (emit (E_restart r) w)) with (log w') in Hes.
  destruct Hinv.
  split; change (submit_writes w') with (submit_writes w); change (held w') with (held w);
    change (most_recent_req w') with (most_recent_req w); change (peers w') with (peers w);
    change (peer_ack_req w') with (peer_ack_req w); rewrite ?Hreqs, ?length_insert; try done.
  - intros x q Hx Hd. destruct (decide (x = r)) as [->|Hne].
    + rewrite list_lookup_insert_eq in Hx by (by apply lookup_lt_Some in Hr). injection Hx as <-.
      destruct (i_req0 r rq Hr Hlive). rewrite bump_eq in ro_kref0. split; try done.
      * rewrite HI. unfold base_ref in *. rewrite (bool_decide_false (r ∈ retry_writes w)), orb_false_r in ro_kref0 by done.
        rewrite (bool_decide_true (r ∈ retry_writes w')) by (rewrite HF'; by right). rewrite orb_true_r.
        rewrite Hc0 in ro_kref0. change (kref rq') with (kref rq). change (own_refs rq') with (own_refs rq). simpl in *. lia.
      * intros _ _ [_ ?]%HF. done.
    + rewrite list_lookup_insert_ne in Hx by done. destruct (i_req0 x q Hx Hd). rewrite bump_ne in ro_kref0 by done.
      split; try done.
      * rewrite HI. unfold base_ref in *. rewrite (bool_decide_ext (x ∈ retry_writes w') (x ∈ retry_writes w)); [done|].
        rewrite HF'. tauto.
      * intros ? ? [? _]%HF. by apply ro_post0.
  - intros x q Hx Hd. destruct (decide (x = r)) as [->|Hne].
    + rewrite list_lookup_insert_eq in Hx by (by apply lookup_lt_Some in Hr). injection Hx as <-. cbn in Hd. congruence.
    + rewrite list_lookup_insert_ne in Hx by done. by apply i_gone0.
  - by apply NoDup_filter.
  - intros x [Hx Hne]%HF. apply HL. auto.
  - intros p q Hp Hn. apply HL in Hp.
    assert (destroy_next (req w p) = Some q) as Hn'.
    { destruct (HR p) as [E|[-> E]]; rewrite E in Hn; [done|]. by rewrite Hrw. }
    destruct (i_chain0 p q Hp Hn') as (Hb & Hw1 & Hw2).
    assert (p ∈ transfer_log w /\ q ∈ transfer_log w) as [Hpt Hqt].
    { destruct Hb as (l1 & l2 & l3 & ->). rewrite !elem_of_app, !elem_of_cons, !elem_of_app, !elem_of_cons. tauto. }
    assert (p <> r /\ q <> r) as [Hpr Hqr].
    { split; intros ->; [rewrite Hrw in Hw1|rewrite Hrw in Hw2]; rewrite Hnw in *; done. }
    destruct (HR p) as [->|[? _]]; [|done]. destruct (HR q) as [->|[? _]]; [|done].
    split_and!; [by apply filter_before|done..].
  - intros x Hx%HF'. rewrite HL. destruct (decide (x = r)) as [->|Hne].
    + assert (req w' r = rq') as -> by (by rewrite (req_insert w w' r rq rq' r Hr Hreqs), decide_True).
      split_and!; [by exists rq|done..|by intros [_ ?]%HF|done].
    + destruct Hx as [Hx|]; [|done]. destruct (i_retry0 x Hx) as (? & ? & ? & Ht & ?).
      destruct (HR x) as [->|[? _]]; [|done]. split_and!; try done. by intros [? _]%HF.
  - intros x Hx. rewrite HL. assert (x <> r) as Hne by congruence. destruct (i_submit0 x Hx) as (? & ? & Ht).
    destruct (HR x) as [->|[? _]]; [|done]. split_and!; try done. by intros [? _]%HF.
  - intros q c Hc. change (peer_of w' q) with (peer_of w q) in Hc. rewrite (i_pending0 q c Hc), (zsum_insert _ _ _ _ _ Hr).
    change (net_pending q rq') with (net_pending q rq). lia.
  - rewrite Hes. apply Forall_app. split; [done|]. by apply quiet_ok.
  - intros x q Hx. rewrite Hes, zsum_app, (quiet_completes _ _ Hqes), Z.add_0_r.
    destruct (decide (x = r)) as [->|Hne].
    + rewrite list_lookup_insert_eq in Hx by (by apply lookup_lt_Some in Hr). injection Hx as <-. by apply (i_once0 r rq).
    + rewrite list_lookup_insert_ne in Hx by done. auto.
  - intros x Hx. rewrite Hes, zsum_app, (quiet_completes _ _ Hqes), Z.add_0_r. auto.
  - intros x Hx. destruct (i_peer_ack0 x Hx) as (q & Hq & Hd). exists q. split; [|done].
    rewrite list_lookup_insert_ne; [done|]. congruence.
Qed.

Lemma start_new_tl_epoch_frame w : frame w (start_new_tl_epoch w).
Proof.
  unfold start_new_tl_epoch. destruct (current_tle_writes w =? 0); [apply frame_refl|].
  eapply frame_trans; [|by apply frame_emit]. by destruct (frame_refl w) as [[] R P E].
Qed.

Lemma complete_scan_ok rq ps ok :
  pend rq = 0 -> (forall p, p ∈ ps -> (S p < length (rq_state rq))%nat) -> exists n, complete_scan rq ps ok = Some n.
Proof.
  intros Hp. revert ok. induction ps as [|p ps IH]; intros ok Hps; [by eexists|]. cbn [complete_scan].
  assert (bsr_req_state_by_peer_device rq p ∈ nets rq) as Hin.
  { apply list_elem_of_lookup. exists p. apply nets_lookup, Hps. constructor. }
  destruct (net_quiet _ _ Hp Hin) as [HP HQ]. autorewrite with rq. rewrite HP, HQ, andb_false_r.
  apply IH. intros. apply Hps. by constructor.
Qed.

Lemma pend_zero_local rq : pend rq = 0 -> LP (local rq) && negb (AB (local rq)) = false.
Proof.
  intros H. unfold pend in H. pose proof (zsum_nonneg net_pend (nets rq)) as Hz.
  assert (0 <= zsum net_pend (nets rq)).
  { apply Hz. intros y. unfold net_pend. pose proof (b2z_nonneg (PENDING y)). pose proof (b2z_nonneg (QUEUED y)). lia. }
  pose proof (b2z_nonneg (SUSP (local rq))). destruct (LP (local rq) && negb (AB (local rq))); [|done]. simpl in H. lia.
Qed.

(** [POSTPONED] is no bit the counts depend on. *)
Lemma postponed_bits rq f :
  length (rq_state rq) = S BSR_NODE_ID_MAX -> f = (fun x => Z.lor x RQ_POSTPONED) ->
  let rq' := upd_state 0 f rq in
  local rq' = Z.lor (local rq) RQ_POSTPONED /\ nets rq' = nets rq /\ pend rq' = pend rq /\ own_refs rq' = own_refs rq /\
  WRITE (local rq') = WRITE (local rq) /\ (words_ok rq -> words_ok rq') /\ (forall q, net_pending q rq' = net_pending q rq).
Proof.
  intros Hlen Hf rq'. assert (local rq' = Z.lor (local rq) RQ_POSTPONED) as E0.
  { unfold local, rq'. rewrite state_at_upd by lia. rewrite decide_True by done. by subst f. }
  assert (nets rq' = nets rq) as E1 by apply nets_upd_0.
  assert (forall i, i <> 17 -> bit i (Z.lor (local rq) RQ_POSTPONED) = bit i (local rq)) as Hb.
  { intros i Hi. rewrite bit_lor. unfold bit at 2, RQ_POSTPONED, __RQ_POSTPONED.
    rewrite Z.shiftl_1_l, Z.pow2_bits_false by done. apply orb_false_r. }
  split_and!; try done.
  - unfold pend. by rewrite E0, E1, !Hb.
  - unfold own_refs. by rewrite E0, E1, !Hb.
  - by rewrite E0, Hb.
  - intros (H1 & H2 & H3). split; [|split].
    + unfold rq'. by rewrite length_state_alter.
    + rewrite E0. unfold net_bits in *. by rewrite !Hb.
    + rewrite E0, E1. eapply Forall_impl; [exact H3|]. intros x. apply net_ok_write. by apply Hb.
  - intros q. unfold net_pending, rq'. rewrite state_at_upd by lia. done.
Qed.

Section put_completion.
Context (orc : oracle) (C K : nat -> Z) (w : world) (r : nat) (rq : bsr_request) (put : Z).
Context (Hinv : inv (bump r put C) K w) (Hr : reqs w !! r = Some rq) (Hlive : destroyed rq = false).
Context (Hput : 0 < put) (HC : forall x, 0 <= C x).
Let w1 := upd_req r (upd_completion_ref (fun n => n - put)) w.
Let rq1 := upd_completion_ref (fun n => n - put) rq.

Lemma pc_lookup : reqs w1 !! r = Some rq1.
Proof. apply (lookup_alter_kref w r rq (upd_completion_ref (fun n => n - put)) Hr). Qed.

Lemma pc_reqs : reqs w1 = <[r := rq1]> (reqs w).
Proof. apply (alter_as_insert (upd_completion_ref (fun n => n - put)) _ _ _ Hr). Qed.

Lemma pc_cref : completion_ref rq = pend rq + b2z (bool_decide (r ∈ submit_writes w)) + C r + put.
Proof. rewrite (ro_cref _ _ _ _ _ (i_req _ _ _ Hinv _ _ Hr Hlive)), bump_eq. lia. Qed.

Lemma pc_pos : put <= completion_ref rq.
Proof.
  rewrite pc_cref. pose proof (pend_nonneg rq). pose proof (b2z_nonneg (bool_decide (r ∈ submit_writes w))).
  specialize (HC r). lia.
Qed.

Lemma pc_no_retry : r ∉ retry_writes w.
Proof.
  intros Hre. destruct (i_retry _ _ _ Hinv _ Hre) as (_ & H0 & _). rewrite (req_lookup _ _ _ Hr) in H0.
  pose proof pc_pos. lia.
Qed.

Lemma bump_put x : bump r (- put) (bump r put C) x = C x.
Proof. unfold bump. destruct (decide (x = r)); lia. Qed.

(** References are left. *)
Lemma pc_more : completion_ref rq - put <> 0 -> inv C K w1.
Proof.
  intros Hn. destruct (i_req _ _ _ Hinv _ _ Hr Hlive).
  apply (inv_ext (bump r (- put) (bump r put C)) (bump r 0 K)).
  { intros. apply bump_put. } { intros x. unfold bump. destruct (decide (x = r)); lia. }
  pose proof pc_pos.
  eapply (inv_change _ _ w w1 r O rq rq1 (- put) 0 0 []); try done; [apply pc_reqs|..].
  - intros q c Hc. exists c. split; [done|]. destruct (decide _); lia.
  - intros q. change (net_pending q rq1) with (net_pending q rq). destruct (decide _); lia.
  - by rewrite app_nil_r.
  - change (pend rq1) with (pend rq). change (completion_ref rq1) with (completion_ref rq - put). lia.
  - change (own_refs rq1) with (own_refs rq). change (kref rq1) with (kref rq). lia.
  - change (completion_ref rq1) with (completion_ref rq - put). lia.
  - intros Hs. destruct (i_submit _ _ _ Hinv _ Hs) as (_ & Hf & _). rewrite (req_lookup _ _ _ Hr) in Hf. by destruct Hf.
Qed.

(** The last one is gone. *)
Context (Hlast : completion_ref rq - put = 0).

Lemma pc_zero : pend rq = 0 /\ (r ∉ submit_writes w) /\ C r = 0.
Proof.
  pose proof pc_cref. pose proof (pend_nonneg rq). specialize (HC r).
  pose proof (b2z_nonneg (bool_decide (r ∈ submit_writes w))).
  split_and!; [lia| |lia]. intros Hs. rewrite bool_decide_true in * by done. simpl in *. lia.
Qed.

(** What [bsr_req_complete] does to the request and to the log. *)
Lemma pc_complete :
  exists w2 rq2 es, bsr_req_complete r w1 = w2 /\ reqs w2 = <[r := rq2]> (reqs w) /\ log w2 = log w ++ es /\
    same_lists w w2 /\ (forall q, peer_of w2 q = peer_of w q) /\
    completion_ref rq2 = 0 /\ kref rq2 = kref rq /\ kept rq rq2 /\ words_ok rq2 /\ pend rq2 = 0 /\
    own_refs rq2 = own_refs rq /\ (forall q, net_pending q rq2 = net_pending q rq) /\
    (POSTPONED (local rq) = true -> POSTPONED (local rq2) = true) /\
    (POSTPONED (local rq2) = true -> WRITE (local rq2) = true -> POSTPONED (local rq) = true) /\
    (WRITE (local rq) = true -> rq_state rq2 = rq_state rq) /\
    Forall (fun e => okE e = true) es /\
    ((POSTPONED (local rq2) = true /\ master_bio rq2 = master_bio rq /\ Forall (fun e => quietE e = true) es) \/
     (POSTPONED (local rq2) = false /\ master_bio rq2 = None /\ is_Some (master_bio rq) /\
      exists es' err, es = es' ++ [E_complete r err] /\ Forall (fun e => quietE e = true) es')).
Proof.
  destruct (i_req _ _ _ Hinv _ _ Hr Hlive) as [_ _ Hw _ Hbio Hopen _].
  destruct pc_zero as (Hp0 & _ & _). pose proof pc_pos as Hpos.
  destruct (Hopen ltac:(lia)) as [b Hb]. destruct (Hbio b Hb) as (_ & Hwb & _).
  destruct Hw as (Hlen & Hnb & Hnets).
  unfold bsr_req_complete. rewrite (req_lookup _ _ _ pc_lookup).
  destruct (complete_scan_ok rq1 (peer_ids w1) (if has (state_at rq1 0) RQ_LOCAL_OK then 1 else 0)) as [ok ->].
  { done. } { intros p Hp. apply peer_ids_lt in Hp. pose proof (peers_bound _ _ _ Hinv).
    change (rq_state rq1) with (rq_state rq). change (peers w1) with (peers w) in Hp. lia. }
  change (state_at rq1 0) with (local rq). change (completion_ref rq1) with (completion_ref rq - put). rewrite Hlast.
  autorewrite with rq. rewrite (pend_zero_local rq Hp0). cbn [negb orb Z.eqb].
  change (master_bio rq1) with (master_bio rq). rewrite Hb.
  set (w2 := if bio_data_dir_write b && _ then start_new_tl_epoch w1 else w1).
  assert (frame w1 w2) as F by (subst w2; apply frame_if; intros _; apply start_new_tl_epoch_frame).
  assert (forall q, peer_of w2 q = peer_of w1 q) as HP.
  { intros q. subst w2. unfold start_new_tl_epoch. destruct (bio_data_dir_write b && _); [|done].
    by destruct (current_tle_writes w1 =? 0). }
  generalize dependent w2. intros w2 F HP. destruct F as [L R _ (es & Hes & Hq)].
  assert (reqs w2 = <[r := rq1]> (reqs w)) as Hreqs2 by (rewrite R; apply pc_reqs).
  assert (reqs w2 !! r = Some rq1) as Hr2 by (rewrite R; apply pc_lookup).
  assert (same_lists w w2) as Hl2 by (by destruct L).
  match goal with |- context [if ?c then upd_req r (upd_state 0 ?f) w2 else w2] => set (cond := c); set (fpost := f) end.
  assert (cond = true -> WRITE (local rq) = false) as Hcond.
  { intros Hc. unfold cond in Hc. rewrite Hwb. apply andb_true_iff in Hc as [Hc _]. apply andb_true_iff in Hc as [Hc _].
    apply andb_true_iff in Hc as [_ Hc]. unfold bio_data_dir_write. by rewrite Hc. }
  clearbody cond.
  set (rq2 := if cond then upd_state 0 fpost rq1 else rq1).
  set (w3 := if cond then upd_req r (upd_state 0 fpost) w2 else w2).
  assert (reqs w3 = <[r := rq2]> (reqs w) /\ reqs w3 !! r = Some rq2) as [Hreqs3 Hr3].
  { subst w3 rq2. destruct cond; [|done].
    assert (reqs (upd_req r (upd_state 0 fpost) w2) = <[r := upd_state 0 fpost rq1]> (reqs w2)) as E
      by apply (alter_as_insert (upd_state 0 fpost) _ _ _ Hr2).
    rewrite E, Hreqs2, list_insert_insert_eq. split; [done|].
    by apply list_lookup_insert_eq, (lookup_lt_Some _ _ _ Hr). }
  destruct (postponed_bits rq1 fpost) as (Hlo & Hne & Hpe & How & Hwr & Hwo & Hnp); [done..|].
  assert (kept rq rq2 /\ words_ok rq2 /\ pend rq2 = 0 /\ own_refs rq2 = own_refs rq /\
    (forall q, net_pending q rq2 = net_pending q rq) /\ completion_ref rq2 = 0 /\ kref rq2 = kref rq /\
    master_bio rq2 = master_bio rq /\ (POSTPONED (local rq) = true -> POSTPONED (local rq2) = true) /\
    (POSTPONED (local rq2) = true -> WRITE (local rq2) = true -> POSTPONED (local rq) = true) /\
    (WRITE (local rq) = true -> rq_state rq2 = rq_state rq))
    as (Hk2 & Hw2 & Hp2 & Ho2 & Hn2 & Hc2 & Hkr2 & Hm2 & Hpo2 & Hpo3 & Hst).
  { subst rq2. destruct cond.
    - split_and!; try done; [by apply Hwo|by rewrite Hpe|..].
      + intros Hpo. rewrite Hlo, bit_lor. change (local rq1) with (local rq). by rewrite Hpo.
      + intros _. rewrite Hwr. change (local rq1) with (local rq). by rewrite Hcond.
      + intros Hwt. by rewrite Hcond in Hwt.
    - by split_and!. }
  assert (same_lists w w3 /\ (forall q, peer_of w3 q = peer_of w q) /\ log w3 = log w ++ es) as (Hl3 & HP3 & Hlg3).
  { subst w3. destruct cond; [|done]. split_and!; [by destruct Hl2|done|done]. }
  clearbody w3 rq2.
  rewrite (req_lookup _ _ _ Hr3). change (state_at rq2 0) with (local rq2). autorewrite with rq.
  assert (POSTPONED (local rq2) = true \/ POSTPONED (local rq2) = false) as [Hpost|Hpost]
    by (destruct (POSTPONED (local rq2)); tauto); rewrite Hpost; cbn [negb].
  - exists w3, rq2, es. split_and!; try done; [by apply quiet_ok|]. left. split_and!; [done|congruence|done].
  - eexists _, (upd_i_completed (fun _ => true) (upd_master_bio (fun _ => None) rq2)), (es ++ [_]).
    split; [reflexivity|].
    split_and!; try done.
    + match goal with |- reqs (upd_req r ?f (emit ?e w3)) = _ =>
        assert (reqs (upd_req r f (emit e w3)) = <[r := f rq2]> (reqs w3)) as -> by apply (alter_as_insert f _ _ _ Hr3) end.
      by rewrite Hreqs3, list_insert_insert_eq.
    + cbn. by rewrite Hlg3, app_assoc.
    + by destruct Hl3.
    + by destruct Hk2.
    + apply Forall_app. split; [by apply quiet_ok|]. by apply Forall_singleton.
    + right. split_and!; try done. by exists es; eexists.
Qed.

(** After [bsr_req_complete] the reference that completion held is owed. *)
Lemma pc_complete_inv :
  exists rq2, reqs (bsr_req_complete r w1) !! r = Some rq2 /\ destroyed rq2 = false /\ completion_ref rq2 = 0 /\
    inv C (bump r 1 K) (bsr_req_complete r w1) /\ same_lists w (bsr_req_complete r w1) /\
    (WRITE (local rq) = true -> rq_state rq2 = rq_state rq) /\ (POSTPONED (local rq2) = true -> is_Some (master_bio rq2)) /\
    (forall q, net_pending q rq2 = net_pending q rq).
Proof.
  destruct pc_complete as (w2 & rq2 & es & -> & Hreqs & Hlog & Hl & HP & Hc0 & Hk & Hkept & Hw & Hp & Ho & Hn & Hpo & Hpo' &
    Hst & Hok & Hcase).
  destruct pc_zero as (Hp0 & Hsu & _). pose proof pc_pos as Hpos. destruct (i_req _ _ _ Hinv _ _ Hr Hlive).
  assert (reqs w2 !! r = Some rq2) as Hr2 by (rewrite Hreqs; by apply list_lookup_insert_eq, (lookup_lt_Some _ _ _ Hr)).
  exists rq2. split_and!; try done; [by rewrite (kp_dead _ _ Hkept)| |].
  2: { intros Hpost. destruct Hcase as [(_ & -> & _)|(Hf & _)]; [apply ro_open0; lia|congruence]. }
  apply (inv_ext (bump r (- put) (bump r put C)) (bump r 1 K)); [intros; apply bump_put|done|].
  eapply (inv_change_gen _ _ w w2 r O rq rq2 (- put) 1 0 es); try done.
  - intros q c Hc. exists c. rewrite HP in Hc. split; [done|]. destruct (decide _); lia.
  - intros q. rewrite Hn. destruct (decide _); lia.
  - intros x. destruct Hcase as [(_ & -> & Hq)|(_ & -> & Hs & es' & err & -> & Hq)].
    + rewrite (quiet_completes _ _ Hq). destruct (decide _); lia.
    + rewrite zsum_app, (quiet_completes _ _ Hq). cbn [zsum completes]. destruct Hs as [b ->].
      destruct (decide (x = r)) as [->|Hx].
      * by rewrite bool_decide_true.
      * by rewrite bool_decide_false by congruence.
  - intros b Hb. destruct Hcase as [(_ & E & _)|(_ & E & _)]; congruence.
  - rewrite Hc0, Hp, Hp0. lia.
  - rewrite Hk, Ho. unfold base_ref. rewrite (bool_decide_false (r ∈ retry_writes w)) by apply pc_no_retry.
    rewrite Hc0. destruct (Z.eqb_spec (completion_ref rq) 0); simpl; lia.
  - intros _. destruct Hcase as [(? & _)|(_ & ? & _)]; auto.
  - intros Hre. by destruct (pc_no_retry Hre).
  - intros Hpo2 Hw2 Ht. apply ro_post0; auto. by rewrite <- (kp_write _ _ Hkept).
Qed.

End put_completion.

Lemma put_completion_inv C K w r rq put :
  inv (bump r put C) K w -> reqs w !! r = Some rq -> destroyed rq = false -> 0 < put -> (forall x, 0 <= C x) ->
  exists w' k rq', bsr_req_put_completion_ref r put w = (w', k) /\ inv C (bump r k K) w' /\ 0 <= k <= 1 /\
    reqs w' !! r = Some rq' /\ destroyed rq' = false /\
    (completion_ref rq - put <> 0 -> w' = upd_req r (upd_completion_ref (fun n => n - put)) w /\ k = 0) /\
    (WRITE (local rq) = true -> POSTPONED (local rq) = false -> same_lists w w' /\ rq_state rq' = rq_state rq) /\
    (forall q, net_pending q rq' = net_pending q rq).
Proof.
  intros Hinv Hr Hlive Hput HC. pose proof (pc_pos C K w r rq put Hinv Hr Hlive HC) as Hpos.
  unfold bsr_req_put_completion_ref.
  pose proof (pc_lookup w r rq put Hr) as Hr1. rewrite (req_lookup _ _ _ Hr1). cbn [completion_ref upd_completion_ref].
  destruct (Z.eqb_spec (completion_ref rq - put) 0) as [H0|H0]; cbn [negb].
  - destruct (pc_complete_inv C K w r rq put Hinv Hr Hlive Hput HC H0) as (rq2 & Hr2 & Hd2 & Hc2 & HI & Hl & Hst & Hmb & Hnpd).
    rewrite (req_lookup _ _ _ Hr2). change (state_at rq2 0) with (local rq2). autorewrite with rq.
    destruct (POSTPONED (local rq2)) eqn:Hpo.
    + eexists _, 0, (upd_nq_ref (fun _ => 0) rq2). split; [done|]. split_and!; try done;
        [|exact (lookup_alter_kref _ _ _ (upd_nq_ref (fun _ => 0)) Hr2)|].
      2: { intros Hwt Hp. specialize (Hst Hwt). unfold local, state_at in Hpo, Hp. rewrite Hst in Hpo. congruence. }
      apply (inv_ext C K); [done|intros x; unfold bump; destruct (decide (x = r)); lia|].
      apply (restart_inv C K _ r rq2); try done.
      * rewrite (sl_retry _ _ Hl). by apply (pc_no_retry C K w r rq put).
      * rewrite (sl_submit _ _ Hl). by apply (pc_zero C K w r rq put).
      * by apply Hmb.
    + eexists _, 1, rq2. split_and!; try done. auto.
  - rewrite (proj2 (Z.ltb_ge _ 0)) by lia. eexists _, 0, _. split; [done|]. split_and!; try done.
    apply (inv_ext C K); [done|intros x; unfold bump; destruct (decide (x = r)); lia|].
    by apply (pc_more C K w r rq put).
Qed.

(** ** [mod_rq_state] *)

(** The references [mod_rq_state] gives back are there. *)
Lemma enough_refs C K w r rq c k :
  inv (bump r c C) (bump r k K) w -> reqs w !! r = Some rq -> destroyed rq = false ->
  0 <= c -> (forall x, 0 <= C x) -> (forall x, 0 <= K x) -> (kref rq <? k + b2z (negb (c =? 0))) = false.
Proof.
  intros Hinv Hr Hlive Hc HC HK. apply Z.ltb_ge.
  destruct (i_req _ _ _ Hinv _ _ Hr Hlive) as [Hcr Hkr _ _ _ _ _]. rewrite bump_eq in Hcr, Hkr.
  destruct (own_refs_parts rq) as [? ?], (in_refs_parts w r) as (? & ? & ?). pose proof (HK r). pose proof (HC r).
  pose proof (pend_nonneg rq). pose proof (b2z_nonneg (bool_decide (r ∈ submit_writes w))).
  rewrite Hkr. unfold base_ref, own_refs, in_refs.
  destruct (Z.eqb_spec c 0) as [->|]; cbn [negb b2z].
  - pose proof (b2z_nonneg (negb (completion_ref rq =? 0) || bool_decide (r ∈ retry_writes w))). lia.
  - destruct (Z.eqb_spec (completion_ref rq) 0); [lia|]. cbn [negb orb b2z]. lia.
Qed.

Lemma put_finish_inv orc C K w r rq c k :
  inv (bump r c C) (bump r k K) w -> reqs w !! r = Some rq -> destroyed rq = false ->
  0 <= c -> 0 <= k -> (forall x, 0 <= C x) -> (forall x, 0 <= K x) -> inv C K (put_finish orc r c k w).
Proof.
  intros Hinv Hr Hlive Hc Hk HC HK. unfold put_finish. rewrite (req_lookup _ _ _ Hr).
  rewrite (enough_refs C K w r rq c k Hinv Hr Hlive Hc HC HK), andb_false_r.
  cbn [emit_if].
  destruct (Z.eqb_spec c 0) as [->|Hc0]; cbn [negb].
  - apply (inv_ext _ _ C (bump r k K)) in Hinv; [|intros x; unfold bump; destruct (decide (x = r)); lia|done].
    destruct (Z.eqb_spec k 0) as [->|Hk0]; cbn [negb].
    + eapply inv_ext; [..|exact Hinv]; [done|]. intros x; unfold bump; destruct (decide (x = r)); lia.
    + by apply (kref_sub_inv orc C K w r rq k).
  - destruct (put_completion_inv C (bump r k K) w r rq c) as (w' & d & rq' & -> & HI & Hd & Hr' & Hlive' & _ & _ & _); try done; [lia|].
    assert (inv C (bump r (k + d) K) w') as HI'.
    { eapply inv_ext; [..|exact HI]; [done|]. intros x; unfold bump; destruct (decide (x = r)); lia. }
    destruct (Z.eqb_spec (k + d) 0) as [E|Hk0]; cbn [negb].
    + rewrite E in HI'. eapply inv_ext; [..|exact HI']; [done|]. intros x; unfold bump; destruct (decide (x = r)); lia.
    + by apply (kref_sub_inv orc C K w' r rq' (k + d)).
Qed.

(** A request that still counts on something survives. *)
Lemma put_finish_alive orc C K w r rq c k :
  inv (bump r c C) (bump r k K) w -> reqs w !! r = Some rq -> destroyed rq = false ->
  0 <= c -> 0 <= k -> (forall x, 0 <= C x) -> (forall x, 0 <= K x) ->
  completion_ref rq - c <> 0 \/ (0 < own_refs rq /\ WRITE (local rq) = true /\ POSTPONED (local rq) = false) ->
  exists rq', reqs (put_finish orc r c k w) !! r = Some rq' /\ destroyed rq' = false /\ rq_state rq' = rq_state rq /\
    same_lists w (put_finish orc r c k w) /\ (completion_ref rq - c <> 0 -> i_in_tree rq' = i_in_tree rq).
Proof.
  intros Hinv Hr Hlive Hc Hk HC HK Hal.
  assert (forall w' rq' k', inv C (bump r k' K) w' -> reqs w' !! r = Some rq' -> destroyed rq' = false -> same_lists w w' ->
    rq_state rq' = rq_state rq -> completion_ref rq' <> 0 \/ 0 < own_refs rq' -> 0 <= k' ->
    exists rq2, reqs (if negb (k' =? 0) then kref_sub orc r k' w' else w') !! r = Some rq2 /\ destroyed rq2 = false /\
      rq_state rq2 = rq_state rq /\ i_in_tree rq2 = i_in_tree rq' /\ same_lists w (if negb (k' =? 0) then kref_sub orc r k' w' else w')) as Hsub.
  { intros w' rq' k' HI Hr' Hd' Hl Hst Hal' Hk'. destruct (Z.eqb_spec k' 0) as [->|Hk0]; cbn [negb]; [by exists rq'|].
    unfold kref_sub. pose proof (lookup_alter_kref w' r rq' (upd_kref (fun x => x - k')) Hr') as Hr2.
    rewrite (req_lookup _ _ _ Hr2). cbn [kref upd_kref].
    assert (0 < kref rq' - k') as Hpos.
    { destruct (i_req _ _ _ HI _ _ Hr' Hd') as [_ Hkr _ _ _ _ _]. rewrite bump_eq in Hkr.
      destruct (own_refs_parts rq') as [? ?], (in_refs_parts w' r) as (? & ? & ?). pose proof (HK r).
      unfold base_ref, in_refs in Hkr.
      pose proof (b2z_nonneg (negb (completion_ref rq' =? 0) || bool_decide (r ∈ retry_writes w'))).
      destruct Hal' as [Hal'|Hal']; [|lia]. apply Z.eqb_neq in Hal'. rewrite Hal' in Hkr. cbn [negb orb b2z] in Hkr.
      unfold own_refs in *. lia. }
    rewrite (proj2 (Z.eqb_neq _ 0)), (proj2 (Z.ltb_ge _ 0)) by lia. cbn [emit_if].
    eexists. split; [exact Hr2|]. split_and!; try done. by destruct Hl. }
  unfold put_finish. rewrite (req_lookup _ _ _ Hr).
  rewrite (enough_refs C K w r rq c k Hinv Hr Hlive Hc HC HK), andb_false_r.
  cbn [emit_if]. destruct (Z.eqb_spec c 0) as [->|Hc0]; cbn [negb].
  - apply (inv_ext _ _ C (bump r k K)) in Hinv; [|intros x; unfold bump; destruct (decide (x = r)); lia|done].
    destruct (Hsub w rq k) as (rq2 & ? & ? & ? & ? & ?); try done; [|by exists rq2].
    destruct Hal as [Hal|[Hal _]]; [left; lia|by right].
  - destruct (put_completion_inv C (bump r k K) w r rq c) as (w' & d & rq' & -> & HI & Hd & Hr' & Hlive' & Hne & Hwr & _);
      try done; [lia|].
    assert (completion_ref rq - c <> 0 -> w' = upd_req r (upd_completion_ref (fun n => n - c)) w /\
      rq' = upd_completion_ref (fun n => n - c) rq) as Hkeep.
    { intros Hal'. destruct (Hne Hal') as [-> _]. split; [done|]. rewrite (pc_lookup w r rq c Hr) in Hr'. by injection Hr' as <-. }
    destruct (Hsub w' rq' (k + d)) as (rq2 & ? & ? & ? & Ht & ?); try done.
    + eapply inv_ext; [..|exact HI]; [done|]. intros x; unfold bump; destruct (decide (x = r)); lia.
    + destruct Hal as [Hal|(_ & H1 & H2)]; [|by apply Hwr]. by destruct (Hkeep Hal) as [-> _].
    + destruct Hal as [Hal|(_ & H1 & H2)]; [|by apply Hwr]. by destruct (Hkeep Hal) as [_ ->].
    + destruct Hal as [Hal|(Ho & H1 & H2)].
      * left. by destruct (Hkeep Hal) as [_ ->].
      * right. destruct (Hwr H1 H2) as [_ Hst]. unfold own_refs, nets, local, state_at in *. by rewrite Hst.
    + lia.
    + exists rq2. split_and!; try done. intros Hal'. rewrite Ht. by destruct (Hkeep Hal') as [_ ->].
Qed.

Lemma upd_rq_state_id rq : upd_rq_state (fun _ => rq_state rq) rq = rq.
Proof. by destruct rq. Qed.

Section mod_state.
Context (orc : oracle) (C K : nat -> Z) (w : world) (r : nat) (pd : option nat) (clear set : Z) (rq : bsr_request).
Context (Hinv : inv C K w) (Hr : reqs w !! r = Some rq) (Hlive : destroyed rq = false) (Hsub : r ∉ submit_writes w).
Context (HC : forall x, 0 <= C x) (HK : forall x, 0 <= K x) (Hidx : (idx_of pd <= BSR_NODE_ID_MAX)%nat).
Context (Hargs : mod_args pd clear set (local rq) (state_at rq (idx_of pd))).
Context (Hnet : forall p, pd = Some p ->
  net_ok (local rq) (new_word (state_at rq (idx_of pd)) (Z.ldiff clear RQ_STATE_0_MASK) (Z.ldiff set RQ_STATE_0_MASK))).
Context (Hraise : completion_ref rq = 0 ->
  LP set || PENDING set || QUEUED set = false /\ (suspended w = false \/ SUSP clear = true)).
Context (Hoos : bit 25 set = false).
Let rq1 := mod_words (suspended w) pd clear set rq.

Lemma mod_len : length (rq_state rq) = S BSR_NODE_ID_MAX.
Proof. apply (ro_words _ _ _ _ _ (i_req _ _ _ Hinv _ _ Hr Hlive)). Qed.

Lemma mod_words_id : local rq1 = local rq -> state_at rq1 (idx_of pd) = state_at rq (idx_of pd) -> rq1 = rq.
Proof.
  intros H0 Hi. assert (rq_state rq1 = rq_state rq) as E.
  { apply (nth_ext _ _ 0 0).
    - unfold rq1, mod_words. by rewrite !length_state_alter.
    - intros n _. destruct n as [|q]; [exact H0|]. change (state_at rq1 (S q) = state_at rq (S q)).
      destruct (decide (pd = Some q)) as [Hq|Hq].
      + replace (S q) with (idx_of pd) by (by rewrite Hq). exact Hi.
      + unfold rq1. by rewrite (mod_words_net (suspended w) pd clear set rq mod_len Hidx), decide_False. }
  transitivity (upd_rq_state (fun _ => rq_state rq1) rq); [reflexivity|]. rewrite E. apply upd_rq_state_id.
Qed.

(** The three ways through [mod_rq_state]. *)
Lemma mod_rq_state_ways w' c k :
  let set' := Z.ldiff set RQ_STATE_0_MASK in
  let clear_local := Z.land clear RQ_STATE_0_MASK in
  let set_local := set_local_of (suspended w) (local rq) set clear in
  put_refs orc r pd (local rq) (state_at rq (idx_of pd)) set_local clear_local set' (Z.ldiff clear RQ_STATE_0_MASK)
    (get_refs r pd (local rq) (state_at rq (idx_of pd)) set_local set' (applied w r pd clear set rq)) = (w', c, k) ->
  (OOSQ set = true /\ mod_rq_state orc r pd clear set w = w) \/
  (rq1 = rq /\ frame w (mod_rq_state orc r pd clear set w)) \/
  mod_rq_state orc r pd clear set w = put_finish orc r c k w'.
Proof.
  cbv zeta. intros EP. unfold mod_rq_state. rewrite (req_lookup _ _ _ Hr).
  change (match pd with Some p => S p | None => 0%nat end) with (idx_of pd).
  assert (((BSR_NODE_ID_MAX <? idx_of pd)%nat || (bool_decide (idx_of pd = 0%nat) &&
     (negb (Z.ldiff set RQ_STATE_0_MASK =? 0) || negb (Z.ldiff clear RQ_STATE_0_MASK =? 0)))) = false) as ->.
  { apply orb_false_iff. split; [by apply Nat.ltb_ge|]. destruct pd as [p|]; [done|].
    destruct (ma_local _ _ _ _ _ Hargs eq_refl) as [-> ->]. done. }
  cbn [emit_if]. match goal with |- context [if ?b then w else _] => destruct b eqn:Ee end; [left|right].
  { split; [|done]. apply andb_true_iff in Ee as [Ee _]. apply andb_true_iff in Ee as [_ Ee].
    rewrite has_OOSQ, bit_not_0 in Ee by done. done. }
  change (upd_req r (upd_state (idx_of pd) _) _) with (applied w r pd clear set rq).
  pose proof (applied_lookup w r pd clear set rq Hr) as Ha. fold rq1 in Ha. rewrite (req_lookup _ _ _ Ha).
  match goal with |- context [if ?b then applied _ _ _ _ _ _ else _] => destruct b eqn:Eb end.
  { left. apply andb_true_iff in Eb as [E0%Z.eqb_eq Ei%Z.eqb_eq]. pose proof (mod_words_id E0 Ei) as Heq. split; [done|].
    destruct (frame_refl w) as [L R P E]. split; [done| |done|done].
    rewrite (applied_reqs w r pd clear set rq Hr). fold rq1. rewrite Heq. by apply list_insert_id. }
  right.
  assert (has (Z.ldiff set RQ_STATE_0_MASK) RQ_OOS_LOCAL_DONE = false) as ->.
  { unfold RQ_OOS_LOCAL_DONE. rewrite has_bit by done. change (bit 25 (Z.ldiff set RQ_STATE_0_MASK) = false).
    by rewrite bit_not_0. }
  rewrite andb_false_r.
  match type of EP with ?L = _ => match goal with |- context [put_refs ?a1 ?a2 ?a3 ?a4 ?a5 ?a6 ?a7 ?a8 ?a9 ?a10] =>
    change (put_refs a1 a2 a3 a4 a5 a6 a7 a8 a9 a10) with L end end. by rewrite EP.
Qed.

Lemma mod_rq_state_cases :
  (OOSQ set = true /\ mod_rq_state orc r pd clear set w = w) \/
  (rq1 = rq /\ frame w (mod_rq_state orc r pd clear set w)) \/
  exists w' rq' c k a b, mod_rq_state orc r pd clear set w = put_finish orc r c k w' /\ 0 <= c /\ 0 <= k /\
    inv (bump r c C) (bump r k K) w' /\ same_lists w w' /\ reqs w' = <[r := rq']> (reqs w) /\ reqs w' !! r = Some rq' /\
    bumped a b rq1 rq'.
Proof.
  destruct (stage_inv orc C K w r pd clear set rq Hinv Hr Hlive Hsub (HC r) Hidx Hargs Hnet Hraise)
    as (w' & rq' & E & HI & Hl & Hreqs & B).
  destruct (mod_rq_state_ways w' _ _ E) as [H|[H|H]]; [by left|by right; left|right; right].
  eexists w', rq', _, _, _, _. split; [exact H|].
  split_and!; [| |exact HI|exact Hl|exact Hreqs| |exact B].
  - unfold c_put, c_puts. repeat match goal with |- context [b2z ?b] => pose proof (b2z_nonneg b); generalize dependent (b2z b) end. lia.
  - unfold k_put, k_puts. repeat match goal with |- context [b2z ?b] => pose proof (b2z_nonneg b); generalize dependent (b2z b) end. lia.
  - rewrite Hreqs. by apply list_lookup_insert_eq, (lookup_lt_Some _ _ _ Hr).
Qed.

Lemma mod_rq_state_inv : inv C K (mod_rq_state orc r pd clear set w).
Proof.
  destruct mod_rq_state_cases as [[_ ->]|[[_ F]|(w' & rq' & c & k & a & b & -> & Hc & Hk & HI & Hl & _ & Hr' & B)]].
  - exact Hinv.
  - by apply (inv_frame _ _ _ _ F).
  - apply (put_finish_inv orc C K w' r rq'); try done. by rewrite (bu_dead _ _ _ _ B).
Qed.

(** The words after the call, when the request survives it. *)
Lemma mod_rq_state_words :
  0 < pend rq1 + C r \/ (0 < own_refs rq1 /\ WRITE (local rq) = true /\ POSTPONED (local rq) = false) ->
  exists rq', reqs (mod_rq_state orc r pd clear set w) !! r = Some rq' /\ destroyed rq' = false /\
    (rq_state rq' = rq_state rq1 \/ OOSQ set = true /\ mod_rq_state orc r pd clear set w = w /\ rq' = rq) /\
    same_lists w (mod_rq_state orc r pd clear set w) /\ (0 < C r -> i_in_tree rq' = i_in_tree rq).
Proof.
  intros Hal.
  destruct mod_rq_state_cases as [[Ho ->]|[[E F]|(w' & rq' & c & k & a & b & -> & Hc & Hk & HI & Hl & _ & Hr' & B)]].
  - exists rq. split_and!; try done. right. done.
  - exists rq. rewrite (fm_reqs _ _ F). split_and!; try done; [left; by rewrite E|apply F].
  - destruct (bumped_words _ _ _ _ B) as (Hl' & _ & Hp & Ho & _).
    assert (destroyed rq' = false) as Hd by by rewrite (bu_dead _ _ _ _ B).
    destruct (mod_words_write (suspended w) pd clear set rq Hargs) as [Hw Hpo].
    pose proof (mod_words_local (suspended w) pd clear set rq mod_len Hidx Hargs) as Hloc. fold rq1 in Hloc.
    destruct (put_finish_alive orc C K w' r rq' c k) as (rq2 & Hr2 & Hd2 & Hst & Hl2 & Htr); try done.
    + destruct Hal as [Hal|(Hal & H1 & H2)].
      * left. rewrite (ro_cref _ _ _ _ _ (i_req _ _ _ HI _ _ Hr' Hd)), bump_eq, Hp.
        pose proof (b2z_nonneg (bool_decide (r ∈ submit_writes w'))). lia.
      * right. rewrite Ho, Hl', Hloc, Hw, Hpo. done.
    + exists rq2. split_and!; try done; [left; by rewrite Hst, (bu_state _ _ _ _ B)|by apply (same_lists_trans w w')|].
      intros HCr. rewrite Htr; [by rewrite (bu_tree _ _ _ _ B)|].
      rewrite (ro_cref _ _ _ _ _ (i_req _ _ _ HI _ _ Hr' Hd)), bump_eq. pose proof (pend_nonneg rq').
      pose proof (b2z_nonneg (bool_decide (r ∈ submit_writes w'))). lia.
Qed.
End mod_state.

End RequestEnd.
