(* ===== verification/RequestKeep.v ===== *)
(** * What the end of one request leaves alone (src/bsr/bsr_req.c)

    Completing and destroying one request, and the writes that it kept, does
    not touch the state of any other request, and takes from the transfer log
    only what is destroyed. *)

From S2P Require Import Prelude State Request RequestInv RequestEnd.

Module RequestKeep.
Import State Request RequestInv RequestEnd.

(** From [w] to [w'], with the request [e] excepted. *)
Record keeps (e : option nat) (w w' : world) : Prop := mk_keeps {
  ke_rest : rest w w';
  ke_tl : sublist (transfer_log w') (transfer_log w);
  ke_in : forall x, x ∈ transfer_log w -> e <> Some x -> live w' x -> x ∈ transfer_log w';
  ke_req : forall x rq rq', e <> Some x -> reqs w !! x = Some rq -> reqs w' !! x = Some rq' -> destroyed rq = false ->
    (destroyed rq' = false -> rq_state rq' = rq_state rq /\ i_in_tree rq' = i_in_tree rq /\
                              completion_ref rq' = completion_ref rq) /\
    (completion_ref rq <> 0 -> destroyed rq' = false) }.

Lemma rest_lookup w w' x rq : rest w w' -> reqs w !! x = Some rq -> exists rq', reqs w' !! x = Some rq'.
Proof.
  intros R Hx. apply lookup_lt_Some in Hx. rewrite <- (re_len _ _ R) in Hx. by apply lookup_lt_is_Some_2 in Hx.
Qed.

Lemma rest_live w w' x : rest w w' -> live w' x -> live w x.
Proof.
  intros R (rq' & Hx & Hd). pose proof (lookup_lt_Some _ _ _ Hx) as Hl. rewrite (re_len _ _ R) in Hl.
  apply lookup_lt_is_Some_2 in Hl as [rq Hrq]. exists rq. split; [done|]. destruct (destroyed rq) eqn:E; [|done].
  destruct (re_gone _ _ R _ _ Hrq E) as (y & Hy & Hdy). congruence.
Qed.

Lemma keep_refl e w : keeps e w w.
Proof. split; [apply rest_refl|done|done|]. intros x rq rq' _ H1 H2. by simplify_eq. Qed.

Lemma keep_trans e w1 w2 w3 : keeps e w1 w2 -> keeps e w2 w3 -> keeps e w1 w3.
Proof.
  intros [R1 T1 I1 Q1] [R2 T2 I2 Q2]. split.
  - by eapply rest_trans.
  - by etrans.
  - intros x Hx He Hl. apply I2; [|done..]. apply I1; [done..|]. by apply (rest_live w2 w3).
  - intros x rq rq' He Hx Hx' Hd. destruct (rest_lookup _ _ _ _ R1 Hx) as [rq1 Hx1].
    destruct (Q1 x rq rq1 He Hx Hx1 Hd) as [H1 H1']. destruct (destroyed rq1) eqn:Hd1.
    + destruct (re_gone _ _ R2 _ _ Hx1 Hd1) as (y & Hy & Hdy). split; [intros; congruence|]. intros Hc. by specialize (H1' Hc).
    + destruct (Q2 x rq1 rq' He Hx1 Hx' Hd1) as [H2 H2']. destruct (H1 eq_refl) as (E1 & E2 & E3). split.
      * intros Hd'. destruct (H2 Hd') as (? & ? & ?). split_and!; congruence.
      * intros Hc. apply H2'. congruence.
Qed.

Lemma keeps_weaken e w w' : keeps None w w' -> keeps e w w'.
Proof. intros [R T I Q]. split; [done|done|intros; by apply I|]. intros. by apply (Q x). Qed.

Lemma frame_keeps w w' : frame w w' -> keeps None w w'.
Proof.
  intros F. split.
  - apply ghostly_rest. by apply frame_ghostly.
  - by rewrite (sl_tl _ _ (fm_lists _ _ F)).
  - intros x Hx _ _. by rewrite (sl_tl _ _ (fm_lists _ _ F)).
  - intros x rq rq' _ Hx Hx'. rewrite (fm_reqs _ _ F) in Hx'. by simplify_eq.
Qed.

(** A change to the excepted request only. *)
Lemma keeps_insert w w' r rq rq' :
  same_lists w w' -> reqs w !! r = Some rq -> reqs w' = <[r := rq']> (reqs w) -> destroyed rq' = destroyed rq ->
  keeps (Some r) w w'.
Proof.
  intros L Hr E Hd.
  assert (forall x, x <> r -> reqs w' !! x = reqs w !! x) as Hx by (intros; by rewrite E, list_lookup_insert_ne).
  split.
  - apply same_lists_rest; [done|by rewrite E, length_insert|]. intros x rqx Hrx Hdx. destruct (decide (x = r)) as [->|].
    + exists rq'. rewrite E, list_lookup_insert_eq by (by apply lookup_lt_Some in Hr). split; [done|]. congruence.
    + exists rqx. by rewrite Hx.
  - by rewrite (sl_tl _ _ L).
  - intros x ? _ _. by rewrite (sl_tl _ _ L).
  - intros x q q' Hne Hq Hq'. rewrite Hx in Hq' by congruence. by simplify_eq.
Qed.

Lemma keeps_kref w r rq n : reqs w !! r = Some rq -> keeps None w (upd_req r (upd_kref (fun x => x - n)) w).
Proof.
  intros Hr. assert (reqs (upd_req r (upd_kref (fun x => x - n)) w) = <[r := upd_kref (fun x => x - n) rq]> (reqs w)) as E
    by apply (alter_as_insert (upd_kref (fun x => x - n)) _ _ _ Hr).
  destruct (keeps_insert w (upd_req r (upd_kref (fun x => x - n)) w) r rq (upd_kref (fun x => x - n) rq)) as [R T I Q]; try done.
  split; [done|done|by intros|].
  intros x q q' _ Hq Hq' Hd. destruct (decide (x = r)) as [->|Hne].
  - rewrite E, list_lookup_insert_eq in Hq' by (by apply lookup_lt_Some in Hr). by simplify_eq.
  - apply (Q x); congruence.
Qed.

(** One destruction. *)
Lemma destroy_one_keeps orc C K w r rq :
  inv C K w -> reqs w !! r = Some rq -> destroyed rq = false -> (forall x, 0 <= C x) -> (forall x, 0 <= K x) ->
  kref rq = 0 -> keeps None w (destroy_one orc r w).
Proof.
  intros Hinv Hr Hlive HC HK Hk0.
  destruct (destroy_one_inv orc C K w r rq) as (_ & Ht & Hsame & R & Hgone); try done.
  { eapply local_no_net. by apply (i_req _ _ _ Hinv). }
  destruct (kill_free C K w r rq) as (Hc0 & _); try done.
  split; [done|rewrite Ht; apply sublist_filter| |].
  - intros x Hx _ (q & Hq & Hd). rewrite Ht. apply list_elem_of_filter. split; [|done]. intros ->. by rewrite (Hgone q Hq) in Hd.
  - intros x q q' _ Hq Hq' Hd. destruct (decide (x = r)) as [->|Hne].
    + simplify_eq. rewrite (Hgone q' Hq'). done.
    + rewrite Hsame in Hq' by (done || by exists q). by simplify_eq.
Qed.

Lemma destroy_loop_keeps orc C K fuel : forall w r rq n,
  inv C K w -> reqs w !! r = Some rq -> destroyed rq = false -> (forall x, 0 <= C x) -> (forall x, 0 <= K x) ->
  kref rq = 0 -> (length (transfer_log w) < fuel)%nat -> keeps None w (destroy_loop orc fuel r n w).
Proof.
  induction fuel as [|fuel IH]; intros w r rq n Hinv Hr Hlive HC HK Hk0 Hf; [lia|]. cbn [destroy_loop].
  rewrite (destroy_check_ok C K w r rq) by done. rewrite (req_lookup _ _ _ Hr).
  pose proof (destroy_one_keeps orc C K w r rq Hinv Hr Hlive HC HK Hk0) as K1.
  destruct (destroy_one_inv orc C K w r rq) as (HI & Ht & Hsame & _); try done.
  { eapply local_no_net. by apply (i_req _ _ _ Hinv). }
  destruct (destroy_next rq) as [r'|] eqn:En.
  2: { eapply keep_trans; [exact K1|apply frame_keeps, frame_d_kref]. }
  assert (live w r) as Hl by (by exists rq).
  destruct (i_chain _ _ _ Hinv r r' Hl) as [Hb _]; [by rewrite (req_lookup _ _ _ Hr)|].
  destruct (before_facts C K w r r' Hinv Hb) as (Hin & Hin' & Hne).
  destruct (i_tl_live _ _ _ Hinv r' Hin') as (rq' & Hr' & Hd').
  assert (reqs (destroy_one orc r w) !! r' = Some rq') as Hr1 by (rewrite Hsame; [done|done|by exists rq']).
  unfold K_next in HI. rewrite En in HI.
  pose proof (inv_kref C _ _ r' rq' 1 HI Hr1 Hd') as HI2.
  apply (inv_ext C _ C K) in HI2; [|done|intros; apply bump_cancel].
  pose proof (keeps_kref _ r' rq' 1 Hr1) as K2. pose proof (keep_trans _ _ _ _ K1 K2) as K12.
  pose proof (lookup_alter_kref _ _ _ (upd_kref (fun k => k - 1)) Hr1) as Hr2.
  destruct (Z.eqb_spec (kref (req (upd_req r' (upd_kref (fun k => k - 1)) (destroy_one orc r w)) r')) 0) as [H0|H0].
  - rewrite (req_lookup _ _ _ Hr2) in H0. eapply keep_trans; [exact K12|]. eapply (IH _ r'); try done.
    change (length (transfer_log (destroy_one orc r w)) < fuel)%nat. rewrite Ht.
    pose proof (filter_length_lt _ _ Hin). lia.
  - eapply keep_trans; [exact K12|apply frame_keeps, frame_d_kref].
Qed.

Lemma kref_sub_keeps orc C K w r rq k :
  inv C (bump r k K) w -> reqs w !! r = Some rq -> destroyed rq = false ->
  (forall x, 0 <= C x) -> (forall x, 0 <= K x) -> keeps None w (kref_sub orc r k w).
Proof.
  intros Hinv Hr Hlive HC HK. pose proof (kref_sub_inv orc C K w r rq k Hinv Hr Hlive HC HK) as HE. unfold kref_sub in *.
  pose proof (inv_kref C _ w r rq k Hinv Hr Hlive) as HI.
  apply (inv_ext C _ C K) in HI; [|done|intros x; unfold bump; destruct (decide (x = r)); lia].
  pose proof (keeps_kref w r rq k Hr) as K1.
  pose proof (lookup_alter_kref w r rq (upd_kref (fun x => x - k)) Hr) as Hr1. rewrite (req_lookup _ _ _ Hr1) in *.
  cbn [kref upd_kref] in *. destruct (Z.eqb_spec (kref rq - k) 0) as [H0|H0].
  - eapply keep_trans; [exact K1|]. unfold bsr_req_destroy. eapply (destroy_loop_keeps orc C K _ _ r); try done.
    pose proof (tl_length _ _ _ HI). lia.
  - destruct (kref rq - k <? 0); [|done]. cbn [emit_if] in *.
    pose proof (i_clean _ _ _ HE) as Hcl. cbn in Hcl. apply Forall_app in Hcl as [_ Hcl]. by inversion Hcl.
Qed.

(** Completion, and the restart of what was postponed. *)
Lemma restart_keeps w r rq : reqs w !! r = Some rq -> keeps (Some r) w (bsr_restart_request r w).
Proof.
  intros Hr. unfold bsr_restart_request. set (w' := emit _ _).
  assert (reqs w' = <[r := upd_nq_ref (fun _ => 0) rq]> (reqs w)) as E by apply (alter_as_insert (upd_nq_ref (fun _ => 0)) _ _ _ Hr).
  assert (transfer_log w' = filter (.≠ r) (transfer_log w)) as Ht by done.
  assert (forall x, x <> r -> reqs w' !! x = reqs w !! x) as Hx by (intros; by rewrite E, list_lookup_insert_ne).
  split.
  - split; try done; [by rewrite E, length_insert|]. intros x rqx Hrx Hdx. destruct (decide (x = r)) as [->|].
    + eexists. rewrite E, list_lookup_insert_eq by (by apply lookup_lt_Some in Hr). split; [done|]. simplify_eq. done.
    + exists rqx. by rewrite Hx.
  - rewrite Ht. apply sublist_filter.
  - intros x Hin Hne _. rewrite Ht. apply list_elem_of_filter. split; [congruence|done].
  - intros x q q' Hne Hq Hq'. rewrite Hx in Hq' by congruence. by simplify_eq.
Qed.

Lemma put_completion_keeps C K w r rq put :
  inv (bump r put C) K w -> reqs w !! r = Some rq -> destroyed rq = false -> 0 < put -> (forall x, 0 <= C x) ->
  keeps (Some r) w (bsr_req_put_completion_ref r put w).1.
Proof.
  intros Hinv Hr Hlive Hput HC. unfold bsr_req_put_completion_ref.
  pose proof (pc_lookup w r rq put Hr) as Hr1. rewrite (req_lookup _ _ _ Hr1). cbn [completion_ref upd_completion_ref].
  set (w1 := upd_req r _ w) in *.
  assert (keeps (Some r) w w1) as K1 by (by apply (keeps_insert w w1 r rq (upd_completion_ref (fun n => n - put) rq)); [|done|apply (pc_reqs w r rq put Hr)|]).
  destruct (Z.eqb_spec (completion_ref rq - put) 0) as [H0|H0]; cbn [negb].
  - destruct (pc_complete C K w r rq put Hinv Hr Hlive Hput HC H0) as (w2 & rq2 & es & E & Hreqs & _ & Hl & _ & _ & _ & Hkept & _).
    fold w1 in E. rewrite E.
    assert (keeps (Some r) w w2) as K2 by (apply (keeps_insert w w2 r rq rq2); try done; apply Hkept).
    destruct (has _ RQ_POSTPONED); [|done]. cbn [fst].
    eapply keep_trans; [exact K2|]. apply (restart_keeps w2 r rq2).
    rewrite Hreqs. by apply list_lookup_insert_eq, (lookup_lt_Some _ _ _ Hr).
  - pose proof (pc_pos C K w r rq put Hinv Hr Hlive HC). by rewrite (proj2 (Z.ltb_ge _ 0)) by lia.
Qed.

Lemma put_finish_keeps orc C K w r rq c k :
  inv (bump r c C) (bump r k K) w -> reqs w !! r = Some rq -> destroyed rq = false ->
  0 <= c -> 0 <= k -> (forall x, 0 <= C x) -> (forall x, 0 <= K x) -> keeps (Some r) w (put_finish orc r c k w).
Proof.
  intros Hinv Hr Hlive Hc Hk HC HK. unfold put_finish. rewrite (req_lookup _ _ _ Hr).
  rewrite (enough_refs C K w r rq c k Hinv Hr Hlive Hc HC HK), andb_false_r. cbn [emit_if].
  destruct (Z.eqb_spec c 0) as [->|Hc0]; cbn [negb].
  - apply (inv_ext _ _ C (bump r k K)) in Hinv; [|intros x; unfold bump; destruct (decide (x = r)); lia|done].
    destruct (Z.eqb_spec k 0) as [->|Hk0]; cbn [negb]; [apply keep_refl|].
    apply keeps_weaken. by apply (kref_sub_keeps orc C K w r rq k).
  - pose proof (put_completion_keeps C (bump r k K) w r rq c Hinv Hr Hlive ltac:(lia) HC) as K1.
    destruct (put_completion_inv C (bump r k K) w r rq c) as (w' & d & rq' & E & HI & Hd & Hr' & Hlive' & _ & _ & _); try done; [lia|].
    rewrite E in *. cbn [fst] in K1.
    assert (inv C (bump r (k + d) K) w') as HI'.
    { eapply inv_ext; [..|exact HI]; [done|]. intros x; unfold bump; destruct (decide (x = r)); lia. }
    destruct (Z.eqb_spec (k + d) 0) as [E0|Hk0]; cbn [negb]; [done|].
    eapply keep_trans; [exact K1|]. apply keeps_weaken. by apply (kref_sub_keeps orc C K w' r rq' (k + d)).
Qed.

Lemma mod_rq_state_keeps orc C K w r pd clear set rq :
  inv C K w -> reqs w !! r = Some rq -> destroyed rq = false -> (r ∉ submit_writes w) ->
  (forall x, 0 <= C x) -> (forall x, 0 <= K x) -> (idx_of pd <= BSR_NODE_ID_MAX)%nat ->
  mod_args pd clear set (local rq) (state_at rq (idx_of pd)) ->
  (forall p, pd = Some p ->
    net_ok (local rq) (new_word (state_at rq (idx_of pd)) (Z.ldiff clear RQ_STATE_0_MASK) (Z.ldiff set RQ_STATE_0_MASK))) ->
  (completion_ref rq = 0 ->
    LP set || PENDING set || QUEUED set = false /\ (suspended w = false \/ SUSP clear = true)) ->
  bit 25 set = false -> keeps (Some r) w (mod_rq_state orc r pd clear set w).
Proof.
  intros Hinv Hr Hlive Hsub HC HK Hidx Hargs Hnet Hraise Hoos.
  destruct (mod_rq_state_cases orc C K w r pd clear set rq) as
    [[_ ->]|[[_ F]|(w' & rq' & c & k & a & b & -> & Hc & Hk & HI & Hl & Hreqs & Hr' & B)]]; try done.
  - apply keep_refl.
  - by apply keeps_weaken, frame_keeps.
  - assert (destroyed rq' = false) as Hd by (by rewrite (bu_dead _ _ _ _ B)).
    eapply keep_trans; [eapply (keeps_insert w w' r rq rq'); try done; congruence|].
    by apply (put_finish_keeps orc C K w' r rq').
Qed.

(** Whether the request waits for a peer does not change at its end. *)
Lemma put_finish_pending orc C K w r rq c k rq' q :
  inv (bump r c C) (bump r k K) w -> reqs w !! r = Some rq -> destroyed rq = false ->
  0 <= c -> 0 <= k -> (forall x, 0 <= C x) -> (forall x, 0 <= K x) ->
  reqs (put_finish orc r c k w) !! r = Some rq' -> destroyed rq' = false -> net_pending q rq' = net_pending q rq.
Proof.
  intros Hinv Hr Hlive Hc Hk HC HK. unfold put_finish. rewrite (req_lookup _ _ _ Hr).
  rewrite (enough_refs C K w r rq c k Hinv Hr Hlive Hc HC HK), andb_false_r. cbn [emit_if].
  assert (forall w' rq1 k', inv C (bump r k' K) w' -> reqs w' !! r = Some rq1 -> destroyed rq1 = false ->
    reqs (if negb (k' =? 0) then kref_sub orc r k' w' else w') !! r = Some rq' -> destroyed rq' = false ->
    net_pending q rq' = net_pending q rq1) as Hsub.
  { intros w' rq1 k' HI Hr1 Hd1 Hr' Hd'. destruct (negb (k' =? 0)); [|by simplify_eq].
    pose proof (kref_sub_keeps orc C K w' r rq1 k' HI Hr1 Hd1 HC HK) as Kp.
    destruct (ke_req _ _ _ Kp r rq1 rq') as [H1 _]; try done. destruct (H1 Hd') as (E & _).
    unfold net_pending, state_at. by rewrite E. }
  destruct (Z.eqb_spec c 0) as [->|Hc0]; cbn [negb].
  - apply (inv_ext _ _ C (bump r k K)) in Hinv; [|intros x; unfold bump; destruct (decide (x = r)); lia|done].
    by apply Hsub.
  - destruct (put_completion_inv C (bump r k K) w r rq c) as (w' & d & rq1 & -> & HI & Hd & Hr1 & Hl1 & _ & _ & Hn); try done; [lia|].
    rewrite <- Hn. apply Hsub; try done. eapply inv_ext; [..|exact HI]; [done|]. intros x; unfold bump; destruct (decide (x = r)); lia.
Qed.

Lemma mod_rq_state_pending orc C K w r p clear set rq rq' :
  inv C K w -> reqs w !! r = Some rq -> destroyed rq = false -> (r ∉ submit_writes w) ->
  (forall x, 0 <= C x) -> (forall x, 0 <= K x) -> (S p <= BSR_NODE_ID_MAX)%nat ->
  mod_args (Some p) clear set (local rq) (state_at rq (S p)) ->
  net_ok (local rq) (new_word (state_at rq (S p)) (Z.ldiff clear RQ_STATE_0_MASK) (Z.ldiff set RQ_STATE_0_MASK)) ->
  (completion_ref rq = 0 -> LP set || PENDING set || QUEUED set = false /\ (suspended w = false \/ SUSP clear = true)) ->
  bit 25 set = false -> OOSQ set = false -> PENDING clear = true -> PENDING set = false ->
  reqs (mod_rq_state orc r (Some p) clear set w) !! r = Some rq' -> destroyed rq' = false -> PENDING (state_at rq' (S p)) = false.
Proof.
  intros Hinv Hr Hlive Hsub HC HK Hidx Hargs Hnet Hraise H25 Hoq Hpc Hps Hr' Hd'.
  assert (net_pending p rq' = net_pending p (mod_words (suspended w) (Some p) clear set rq)) as E.
  { destruct (mod_rq_state_cases orc C K w r (Some p) clear set rq) as
      [[? _]|[[E F]|(w1 & rq1 & c & k & a & b & E & Hc & Hk & HI & Hl & Hreqs & Hr1 & B)]]; try done.
    - congruence.
    - rewrite (fm_reqs _ _ F), Hr in Hr'. injection Hr' as <-. by rewrite E.
    - assert (destroyed rq1 = false) as Hd by (by rewrite (bu_dead _ _ _ _ B)). rewrite E in Hr'.
      rewrite (put_finish_pending orc C K w1 r rq1 c k rq' p HI Hr1 Hd Hc Hk HC HK Hr' Hd').
      by destruct (bumped_words _ _ _ _ B) as (_ & _ & _ & _ & _ & ->). }
  pose proof (ro_words _ _ _ _ _ (i_req _ _ _ Hinv _ _ Hr Hlive)) as (Hlen & _ & _).
  unfold net_pending in E. rewrite (mod_words_net (suspended w) (Some p) clear set rq Hlen Hidx Hargs p), decide_True in E by done.
  cbn [idx_of] in E. unfold new_word in E. rewrite bit_mod, !bit_not_0, Hpc, Hps, andb_false_r in E by done.
  by destruct (PENDING (state_at rq' (S p))).
Qed.

(** A step on request [r]. *)
Definition good (C K : nat -> Z) (r : nat) (w w' : world) : Prop := inv C K w' /\ keeps (Some r) w w'.

Lemma good_trans C K r w1 w2 w3 : good C K r w1 w2 -> good C K r w2 w3 -> good C K r w1 w3.
Proof. intros [_ K1] [I2 K2]. split; [done|]. by eapply keep_trans. Qed.

Lemma mod_rq_state_good orc C K w r pd clear set rq :
  inv C K w -> reqs w !! r = Some rq -> destroyed rq = false -> (r ∉ submit_writes w) ->
  (forall x, 0 <= C x) -> (forall x, 0 <= K x) -> (idx_of pd <= BSR_NODE_ID_MAX)%nat ->
  mod_args pd clear set (local rq) (state_at rq (idx_of pd)) ->
  (forall p, pd = Some p ->
    net_ok (local rq) (new_word (state_at rq (idx_of pd)) (Z.ldiff clear RQ_STATE_0_MASK) (Z.ldiff set RQ_STATE_0_MASK))) ->
  (completion_ref rq = 0 ->
    LP set || PENDING set || QUEUED set = false /\ (suspended w = false \/ SUSP clear = true)) ->
  bit 25 set = false -> good C K r w (mod_rq_state orc r pd clear set w).
Proof. split; [by apply (mod_rq_state_inv orc C K w r pd clear set rq)|by apply (mod_rq_state_keeps orc C K w r pd clear set rq)]. Qed.

End RequestKeep.
