(* ===== verification/RequestSafe.v ===== *)
(** * The life of requests (src/bsr/bsr_req.c, bsr_main.c, bsr_sender.c)

    Every event of [__req_mod], submission, disk completion and the walks over
    the transfer log keep the invariant of [RequestInv].  From that follow the
    safety theorems about whole executions. *)

From S2P Require Import Prelude State Request RequestInv RequestEnd RequestKeep.

Module RequestSafe.
Import State Request RequestInv RequestEnd RequestKeep.

(** ** Checking a finite set of bits by evaluation *)

Fixpoint allb (n : nat) (f : list bool -> bool) : bool :=
  match n with
  | O => f []
  | S n => allb n (fun l => f (true :: l)) && allb n (fun l => f (false :: l))
  end.

Lemma allb_spec n f l : allb n f = true -> length l = n -> f l = true.
Proof.
  revert f l. induction n as [|n IH]; intros f [|b l] H Hl; simplify_eq/=; [done|].
  apply andb_true_iff in H as [Ht Hf]. destruct b; [by apply (IH (fun l => f (true :: l)))|].
  by apply (IH (fun l => f (false :: l))).
Qed.

(** [net_ok] on the bits it looks at. *)
Definition net_okb (wr pe qu st dn ok si ba oq op : bool) : bool :=
  implb (st || ok || si) (pe || dn || ba) && implb ba (pe || ok || dn) && implb qu (pe || dn || ba || oq)
  && implb pe (negb dn) && implb (ba || oq || op) wr && implb (wr && pe && qu) ba
  && implb op (negb ba && implb (st || ok || si) dn).

Definition bits_of (s0 sn : Z) : list bool :=
  [WRITE s0; PENDING sn; QUEUED sn; SENT sn; DONE sn; OKAY sn; SIS sn; BARR sn; OOSQ sn; OOSP sn].

Definition on_bits (f : bool -> bool -> bool -> bool -> bool -> bool -> bool -> bool -> bool -> bool -> bool)
  (l : list bool) : bool :=
  match l with [wr; pe; qu; st; dn; ok; si; ba; oq; op] => f wr pe qu st dn ok si ba oq op | _ => true end.

Lemma net_ok_bits s0 sn : net_ok s0 sn <-> on_bits net_okb (bits_of s0 sn) = true.
Proof.
  unfold on_bits, bits_of, net_okb. rewrite !andb_true_iff, !implb_true_iff, !andb_true_iff, !negb_true_iff, !implb_true_iff. split.
  - intros []. split_and!; try done. tauto.
  - intros ((((((? & ?) & ?) & ?) & ?) & ?) & ?). split; try done. tauto.
Qed.

(** The bits after [clear] and [set]. *)
Definition step_bit (clear set : Z) (i : Z) (b : bool) : bool := (b && negb (bit i clear)) || bit i set.

Definition net_step_ok (clear set : Z)
  (pre : bool -> bool -> bool -> bool -> bool -> bool -> bool -> bool -> bool -> bool -> bool) : bool :=
  allb 10 (on_bits (fun wr pe qu st dn ok si ba oq op =>
    implb (net_okb wr pe qu st dn ok si ba oq op && pre wr pe qu st dn ok si ba oq op)
      (let m := step_bit clear set in
       net_okb wr (m 4 pe) (m 5 qu) (m 6 st) (m 7 dn) (m 8 ok) (m 9 si) (m 21 ba) (m 24 oq) (m 23 op)))).

Lemma net_step clear set pre s0 sn :
  net_step_ok clear set pre = true -> net_ok s0 sn -> on_bits pre (bits_of s0 sn) = true ->
  net_ok s0 (new_word sn (Z.ldiff clear RQ_STATE_0_MASK) (Z.ldiff set RQ_STATE_0_MASK)).
Proof.
  intros Hs Hn%net_ok_bits Hp. apply net_ok_bits. pose proof (allb_spec _ _ (bits_of s0 sn) Hs eq_refl) as H.
  unfold on_bits, bits_of in *. rewrite Hn, Hp in H. simpl in H. cbv zeta in H.
  unfold new_word. rewrite !bit_mod, !bit_not_0 by done. exact H.
Qed.

(** The same for a question about the old bits. *)
Lemma net_fact pre post s0 sn :
  allb 10 (on_bits (fun wr pe qu st dn ok si ba oq op =>
    implb (net_okb wr pe qu st dn ok si ba oq op && pre wr pe qu st dn ok si ba oq op) (post wr pe qu st dn ok si ba oq op))) = true ->
  net_ok s0 sn -> on_bits pre (bits_of s0 sn) = true -> on_bits post (bits_of s0 sn) = true.
Proof.
  intros Hs Hn%net_ok_bits Hp. pose proof (allb_spec _ _ (bits_of s0 sn) Hs eq_refl) as H.
  unfold on_bits, bits_of in *. by rewrite Hn, Hp in H.
Qed.

(** ** One event on a request that is being processed *)

(** What the constants of a network event must satisfy. *)
Definition net_consts (clear set : Z) : bool :=
  negb (SUSP set || POSTPONED set || WRITE set || POSTPONED clear || WRITE clear)
  && negb (AB clear || BARR clear || DONE clear)
  && negb ((LP clear && LP set) || (PENDING clear && PENDING set) || (QUEUED clear && QUEUED set))
  && negb (AB set || LP set || bit 25 set).

Lemma net_consts_args p clear set s0 sn :
  net_consts clear set = true -> (BARR set = true -> BARR sn = false -> DONE sn = false /\ DONE set = false) ->
  mod_args (Some p) clear set s0 sn /\ bit 25 set = false /\ LP set = false.
Proof.
  unfold net_consts. intros H Hb. repeat (apply andb_true_iff in H as [H ?]).
  repeat match goal with H : negb _ = true |- _ => apply negb_true_iff in H end.
  assert (AB set = false /\ LP set = false /\ bit 25 set = false) as (Ha & Hl & Ho)
    by (destruct (AB set), (LP set), (bit 25 set); done).
  split_and!; try done. split; try done; rewrite ?Ha, ?Hl; try done.
  destruct (BARR set) eqn:E1, (BARR sn) eqn:E2; try done. destruct (Hb eq_refl eq_refl) as [-> ->]. done.
Qed.

Lemma net_pend_nonneg s : 0 <= net_pend s.
Proof. unfold net_pend. pose proof (b2z_nonneg (PENDING s)). pose proof (b2z_nonneg (QUEUED s)). lia. Qed.

Lemma pend_net rq p s : nets rq !! p = Some s -> PENDING s || QUEUED s = true -> 0 < pend rq.
Proof.
  intros Hn Hb. pose proof (zsum_lookup_le net_pend _ _ _ net_pend_nonneg Hn) as Hle. unfold net_pend at 1 in Hle. unfold pend.
  pose proof (b2z_nonneg (LP (local rq) && negb (AB (local rq)))). pose proof (b2z_nonneg (SUSP (local rq))).
  destruct (PENDING s), (QUEUED s); simpl in *; lia || done.
Qed.

Section events.
Context (orc : oracle) (C K : nat -> Z) (w : world) (r : nat) (rq : bsr_request).
Context (Hinv : inv C K w) (Hr : reqs w !! r = Some rq) (Hlive : destroyed rq = false) (Hsub : r ∉ submit_writes w).
Context (HC : forall x, 0 <= C x) (HK : forall x, 0 <= K x).

(** The completed ones are not frozen again. *)
Definition settled : Prop := completion_ref rq <> 0 \/ suspended w = false.

Lemma peer_bound p c : peer_of w p = Some c -> (S p <= BSR_NODE_ID_MAX)%nat.
Proof.
  intros Hp. pose proof (peers_bound _ _ _ Hinv). unfold peer_of in Hp.
  destruct (peers w !! p) eqn:E; [|done]. apply lookup_lt_Some in E. lia.
Qed.

Lemma ev_net p : (S p <= BSR_NODE_ID_MAX)%nat -> net_ok (local rq) (state_at rq (S p)).
Proof.
  intros Hp. destruct (ro_words _ _ _ _ _ (i_req _ _ _ Hinv _ _ Hr Hlive)) as (Hlen & _ & Hf). rewrite Forall_forall in Hf.
  apply Hf. apply list_elem_of_lookup. exists p. apply nets_lookup. lia.
Qed.

Lemma net_open p : (S p <= BSR_NODE_ID_MAX)%nat -> PENDING (state_at rq (S p)) || QUEUED (state_at rq (S p)) = true ->
  completion_ref rq <> 0.
Proof.
  intros Hp Hb. destruct (i_req _ _ _ Hinv _ _ Hr Hlive) as [-> _ (Hlen & _) _ _ _ _].
  assert (nets rq !! p = Some (state_at rq (S p))) as Hn by (apply nets_lookup; lia).
  pose proof (pend_net _ _ _ Hn Hb). pose proof (b2z_nonneg (bool_decide (r ∈ submit_writes w))). specialize (HC r). lia.
Qed.

(** A network event with a precondition on the bits. *)
Lemma net_event p clear set pre :
  (S p <= BSR_NODE_ID_MAX)%nat -> net_consts clear set = true -> net_step_ok clear set pre = true ->
  on_bits pre (bits_of (local rq) (state_at rq (S p))) = true ->
  (BARR set = true -> BARR (state_at rq (S p)) = false -> DONE (state_at rq (S p)) = false /\ DONE set = false) ->
  (PENDING set || QUEUED set = true -> completion_ref rq <> 0) ->
  settled \/ SUSP clear = true ->
  good C K r w (mod_rq_state orc r (Some p) clear set w).
Proof.
  intros Hp Hcs Hst Hpre Hb Hra Hse. pose proof (ev_net p Hp) as Hn.
  destruct (net_consts_args p clear set (local rq) (state_at rq (S p)) Hcs Hb) as (Ha & H25 & HL).
  apply (mod_rq_state_good orc C K w r (Some p) clear set rq); try done.
  - intros p' _. by eapply net_step.
  - intros H0. rewrite HL. simpl. split.
    + destruct (PENDING set || QUEUED set); [|done]. by destruct Hra.
    + destruct Hse as [[?|?]|?]; [done|by left|by right].
Qed.

(** The words after it, when the request survives. *)
Lemma net_event_words p clear set pre :
  (S p <= BSR_NODE_ID_MAX)%nat -> net_consts clear set = true -> net_step_ok clear set pre = true ->
  on_bits pre (bits_of (local rq) (state_at rq (S p))) = true ->
  (BARR set = true -> BARR (state_at rq (S p)) = false -> DONE (state_at rq (S p)) = false /\ DONE set = false) ->
  (PENDING set || QUEUED set = true -> completion_ref rq <> 0) ->
  settled \/ SUSP clear = true ->
  (let nn := new_word (state_at rq (S p)) (Z.ldiff clear RQ_STATE_0_MASK) (Z.ldiff set RQ_STATE_0_MASK) in
   0 < C r \/ PENDING nn || QUEUED nn = true \/ OOSQ set = false /\ BARR nn && negb (DONE nn) && WRITE (local rq) && negb (POSTPONED (local rq)) = true) ->
  exists rq', reqs (mod_rq_state orc r (Some p) clear set w) !! r = Some rq' /\ destroyed rq' = false /\
    (forall q, q <> p -> state_at rq' (S q) = state_at rq (S q)) /\
    (state_at rq' (S p) = new_word (state_at rq (S p)) (Z.ldiff clear RQ_STATE_0_MASK) (Z.ldiff set RQ_STATE_0_MASK) \/
     OOSQ set = true /\ rq' = rq) /\
    (forall i, bit i RQ_STATE_0_MASK = true -> i <> 18 -> bit i clear || bit i set = false -> bit i (local rq') = bit i (local rq)) /\
    same_lists w (mod_rq_state orc r (Some p) clear set w) /\ (0 < C r -> i_in_tree rq' = i_in_tree rq).
Proof.
  intros Hp Hcs Hst Hpre Hb Hra Hse Hal. pose proof (ev_net p Hp) as Hn.
  destruct (net_consts_args p clear set (local rq) (state_at rq (S p)) Hcs Hb) as (Ha & H25 & HL).
  pose proof (ro_words _ _ _ _ _ (i_req _ _ _ Hinv _ _ Hr Hlive)) as (Hlen & _ & _).
  pose proof (fun q => mod_words_net (suspended w) (Some p) clear set rq Hlen Hp Ha q) as Hnet.
  assert (length (rq_state (mod_words (suspended w) (Some p) clear set rq)) = S BSR_NODE_ID_MAX) as Hlen1
    by (unfold mod_words; by rewrite !length_state_alter).
  pose proof (mod_words_local (suspended w) (Some p) clear set rq Hlen Hp Ha) as Hloc.
  edestruct (mod_rq_state_words orc C K w r (Some p) clear set rq) as (rq' & H1 & H2 & [H3|H3] & H4 & H5); try done.
  - intros p' _. by eapply net_step.
  - intros H0. rewrite HL. simpl. split.
    + destruct (PENDING set || QUEUED set); [|done]. by destruct Hra.
    + destruct Hse as [[?|?]|?]; [done|by left|by right].
  - cbv zeta in Hal. destruct Hal as [Hal|[Hal|[_ Hal]]]; [left|left|right].
    + pose proof (pend_nonneg (mod_words (suspended w) (Some p) clear set rq)). lia.
    + pose proof (nets_lookup (mod_words (suspended w) (Some p) clear set rq) p) as Hl.
      rewrite Hnet, decide_True in Hl by done. specialize (Hl ltac:(rewrite Hlen1; lia)).
      pose proof (pend_net _ _ _ Hl Hal) as Hle. specialize (HC r). cbn [idx_of] in *. lia.
    + apply andb_true_iff in Hal as [Hal Hpo]. apply andb_true_iff in Hal as [Hbd Hw]. apply negb_true_iff in Hpo.
      split_and!; try done. pose proof (nets_lookup (mod_words (suspended w) (Some p) clear set rq) p) as Hl.
      rewrite Hnet, decide_True in Hl by done. specialize (Hl ltac:(rewrite Hlen1; lia)).
      assert (forall y, 0 <= net_ref y) as Hnn by (intros; apply b2z_nonneg).
      pose proof (zsum_lookup_le net_ref _ _ _ Hnn Hl) as Hle.
      assert (net_ref (new_word (state_at rq (S p)) (Z.ldiff clear RQ_STATE_0_MASK) (Z.ldiff set RQ_STATE_0_MASK)) = 1) as E1
        by (unfold net_ref; by rewrite Hbd).
      destruct (own_refs_parts (mod_words (suspended w) (Some p) clear set rq)) as [_ ?]. unfold own_refs.
      cbn [idx_of] in *. lia.
  - assert (forall q, state_at rq' q = state_at (mod_words (suspended w) (Some p) clear set rq) q) as Hs
      by (intros q; unfold state_at; by rewrite H3).
    exists rq'. split_and!; try done.
    + intros q Hq. rewrite Hs, Hnet, decide_False; [done|by intros [= ->]].
    + left. by rewrite Hs, Hnet, decide_True.
    + intros i Hi Hi18 [Hc Hx]%orb_false_iff. unfold local at 1. rewrite Hs. fold (local (mod_words (suspended w) (Some p) clear set rq)).
      rewrite Hloc. unfold new_word. rewrite bit_mod, set_local_bit, bit_in_0, Hc, Hx by done. by rewrite orb_false_r, andb_true_r.
  - destruct H3 as (Ho & Hw & ->). exists rq. split_and!; try done. by right.
Qed.

(** A local event. *)
Lemma local_event clear set :
  Z.ldiff set RQ_STATE_0_MASK = 0 -> Z.ldiff clear RQ_STATE_0_MASK = 0 ->
  negb (SUSP set || POSTPONED set || WRITE set || POSTPONED clear || WRITE clear) && negb (AB clear || BARR clear || DONE clear)
    && negb ((LP clear && LP set) || (PENDING clear && PENDING set) || (QUEUED clear && QUEUED set)) && negb (BARR set)
    && negb (PENDING set || QUEUED set || bit 25 set) = true ->
  implb (AB set) (LP (local rq) && negb (LP clear)) = true ->
  implb (LP set) (negb (AB (local rq)) && negb (AB set)) = true ->
  (LP set = true -> completion_ref rq <> 0) ->
  settled \/ SUSP clear = true ->
  good C K r w (mod_rq_state orc r None clear set w).
Proof.
  intros H1 H2 Hcs Ha Hs Hra Hse. repeat (apply andb_true_iff in Hcs as [Hcs ?]).
  repeat match goal with H : negb _ = true |- _ => apply negb_true_iff in H end.
  assert (PENDING set = false /\ QUEUED set = false /\ bit 25 set = false) as (HP & HQ & H25)
    by (destruct (PENDING set), (QUEUED set), (bit 25 set); done).
  apply (mod_rq_state_good orc C K w r None clear set rq); try done.
  - simpl. lia.
  - split; try done. by replace (BARR set) with false.
  - intros H0'. rewrite HP, HQ. split.
    + destruct (LP set); [|done]. by destruct Hra.
    + destruct Hse as [[?|?]|?]; [done|by left|by right].
Qed.

(** Setting a bit of a peer's word that no count depends on. *)
Lemma or_net p m :
  (S p <= BSR_NODE_ID_MAX)%nat -> PENDING m || QUEUED m || BARR m || DONE m = false ->
  net_ok (local rq) (Z.lor (state_at rq (S p)) m) ->
  good C K r w (upd_req r (upd_state (S p) (fun x => Z.lor x m)) w).
Proof.
  intros Hp Hm Hn. pose proof (i_req _ _ _ Hinv _ _ Hr Hlive) as [Hcr Hkr Hw Hdn Hbi Hop Hpo]. destruct Hw as (Hlen & Hnb & Hf).
  set (rq' := upd_state (S p) (fun x => Z.lor x m) rq).
  assert (local rq' = local rq) as El by (unfold rq', local; by rewrite state_at_upd by lia).
  assert (nets rq !! p = Some (state_at rq (S p))) as Hx by (apply nets_lookup; lia).
  assert (nets rq' = <[p := Z.lor (state_at rq (S p)) m]> (nets rq)) as En
    by (unfold rq'; by rewrite nets_upd_S, (alter_as_insert _ _ _ _ Hx)).
  assert (forall i, bit i m = false -> bit i (Z.lor (state_at rq (S p)) m) = bit i (state_at rq (S p))) as Hb.
  { intros i Hi. by rewrite bit_lor, Hi, orb_false_r. }
  assert (PENDING m = false /\ QUEUED m = false /\ BARR m = false /\ DONE m = false) as (H1 & H2 & H3 & H4)
    by (destruct (PENDING m), (QUEUED m), (BARR m), (DONE m); done).
  split; [|by apply (keeps_insert w _ r rq rq'); [|done|apply (alter_as_insert (upd_state (S p) (fun x => Z.lor x m)) _ _ _ Hr)|]].
  apply (inv_ext (bump r 0 C) (bump r 0 K)); [intros x; unfold bump; destruct (decide (x = r)); lia..|].
  eapply (inv_change C K w _ r O rq rq' 0 0 0 []); try done.
  - apply (alter_as_insert (upd_state (S p) (fun x => Z.lor x m)) _ _ _ Hr).
  - split; try done. by rewrite El.
  - intros q c Hc. exists c. split; [done|]. destruct (decide _); lia.
  - intros q. unfold net_pending, rq'. rewrite state_at_upd by lia.
    destruct (decide (S q = S p)) as [E|]; [injection E as ->; rewrite (Hb 4) by done|]; destruct (decide _); lia.
  - by rewrite app_nil_r.
  - split; [|split]; [by unfold rq'; rewrite length_state_alter|by rewrite El|].
    rewrite El, En. by apply Forall_insert.
  - change (completion_ref rq') with (completion_ref rq). unfold pend. rewrite El, En, (zsum_insert _ _ _ _ _ Hx).
    assert (net_pend (Z.lor (state_at rq (S p)) m) = net_pend (state_at rq (S p))) by (unfold net_pend; by rewrite !Hb). lia.
  - change (kref rq') with (kref rq). unfold own_refs. rewrite El, En, (zsum_insert _ _ _ _ _ Hx).
    assert (net_ref (Z.lor (state_at rq (S p)) m) = net_ref (state_at rq (S p))) by (unfold net_ref; by rewrite !Hb). lia.
  - by rewrite El.
  - by rewrite El.
Qed.

End events.

(** ** When an event may happen

    Two separate conditions.  [possible]: the assertions of [__req_mod] and
    what its callers see to - the sender hands over what is queued for it, as
    data or as an out-of-sync notice; acknowledgements are for writes that were
    queued as data; a barrier is not acknowledged before the data; resending
    skips what is done, as [tl_mark_for_resend_by_connection] does.  Left out
    are conflicts of two primaries ([POSTPONE_WRITE]), the unused
    [RESTART_FROZEN_DISK_IO], and [RESEND] as bsr_state.c:3221 and 3841 send it
    with [_tl_restart], without skipping anything (see [resend_reopens] of
    RequestRun.v).

    [unfrozen]: a restriction of the runs that no code enforces.  While I/O is
    suspended, no acknowledgement of a write reaches a request that is already
    completed; [mod_rq_state] would take a completion reference on it again
    (bsr_req.c:1040, see [late_ack_reopens] of RequestRun.v). *)
Definition busy (w : world) (r : nat) : bool := negb (completion_ref (req w r) =? 0) || negb (suspended w).

Definition known (w : world) (r : nat) : bool :=
  bool_decide (r < length (reqs w))%nat && negb (destroyed (req w r)) && negb (bool_decide (r ∈ submit_writes w)).

Definition possible (w : world) (r : nat) (what : bsr_req_event) (p : nat) : bool :=
  let s := state_at (req w r) 0 in
  let ns := state_at (req w r) (S p) in
  let on_tl := bool_decide (r ∈ transfer_log w) in
  known w r && bool_decide (is_Some (peer_of w p)) &&
  match what with
  | SEND_CANCELED | SEND_FAILED => has ns RQ_NET_QUEUED
  | HANDED_OVER_TO_NETWORK => has ns RQ_NET_QUEUED && (has ns RQ_EXP_BARR_ACK || negb (has s RQ_WRITE))
  | OOS_HANDED_TO_NETWORK => has ns RQ_NET_QUEUED && has s RQ_WRITE && negb (has ns RQ_EXP_BARR_ACK)
  | RECV_ACKED_BY_PEER => has ns RQ_EXP_RECEIVE_ACK && has ns RQ_EXP_BARR_ACK
  | WRITE_ACKED_BY_PEER | WRITE_ACKED_BY_PEER_AND_SIS => has ns RQ_EXP_BARR_ACK
  | DISCARD_WRITE => has ns RQ_NET_PENDING && has ns RQ_EXP_WRITE_ACK && has ns RQ_EXP_BARR_ACK
  | NEG_ACKED => true
  | DATA_RECEIVED => has ns RQ_NET_PENDING && negb (has s RQ_WRITE)
  | BARRIER_ACKED => on_tl && (negb (has s RQ_WRITE) || negb (has ns RQ_NET_PENDING) || has ns RQ_EXP_BARR_ACK)
  | CONNECTION_LOST_WHILE_PENDING | FAIL_FROZEN_DISK_IO => on_tl
  | RESEND => on_tl && has ns RQ_NET_MASK && negb (has ns RQ_NET_QUEUED) && negb (has ns RQ_NET_DONE)
              && (negb (has s RQ_WRITE) || has ns RQ_EXP_BARR_ACK)
  | _ => false
  end.

Definition unfrozen (w : world) (r : nat) (what : bsr_req_event) : bool :=
  match what with
  | RECV_ACKED_BY_PEER | WRITE_ACKED_BY_PEER | WRITE_ACKED_BY_PEER_AND_SIS | NEG_ACKED => busy w r
  | _ => true
  end.

Lemma known_spec w r :
  known w r = true -> exists rq, reqs w !! r = Some rq /\ destroyed rq = false /\ req w r = rq /\ (r ∉ submit_writes w).
Proof.
  unfold known. intros H. apply andb_true_iff in H as [H Hs]. apply andb_true_iff in H as [Hl Hd].
  apply bool_decide_eq_true in Hl. apply negb_true_iff in Hd, Hs. apply bool_decide_eq_false in Hs.
  destruct (lookup_lt_is_Some_2 _ _ Hl) as [rq Hr]. exists rq. rewrite (req_lookup _ _ _ Hr) in *. done.
Qed.

Lemma busy_settled w r rq : req w r = rq -> busy w r = true -> settled w rq.
Proof.
  intros Hq H. unfold busy in H. rewrite Hq in H. apply orb_true_iff in H as [H|H]; apply negb_true_iff in H.
  - left. by apply Z.eqb_neq.
  - by right.
Qed.

Lemma d_assert_if b w : b = true -> d_assert b w = w.
Proof. by intros ->. Qed.

Ltac andbs H := repeat (apply andb_true_iff in H as [H ?]).

(** The end of [BARRIER_ACKED]. *)
Lemma ev_barrier_done orc C K w r p rq (b : bool) :
  inv C K w -> reqs w !! r = Some rq -> destroyed rq = false -> (r ∉ submit_writes w) ->
  (forall x, 0 <= C x) -> (forall x, 0 <= K x) -> (S p <= BSR_NODE_ID_MAX)%nat -> PENDING (state_at rq (S p)) = false ->
  good C K r w (mod_rq_state orc r (Some p) RQ_COMPLETION_SUSP (if b then RQ_NET_DONE else 0) w).
Proof.
  intros Hinv Hr Hlive Hsub HC HK Hp Hpe.
  apply (net_event orc C K w r rq Hinv Hr Hlive Hsub HC HK p _ _ (fun wr pe qu st dn ok si ba oq op => negb pe));
    try (by destruct b).
  - unfold on_bits, bits_of. by rewrite Hpe.
  - by right.
Qed.

Lemma ev_ack orc C K w r p rq :
  inv C K w -> reqs w !! r = Some rq -> destroyed rq = false -> (r ∉ submit_writes w) ->
  (forall x, 0 <= C x) -> (forall x, 0 <= K x) -> (S p <= BSR_NODE_ID_MAX)%nat -> BARR (state_at rq (S p)) = true ->
  settled w rq -> good C K r w (mod_rq_state orc r (Some p) RQ_NET_PENDING RQ_NET_OK w).
Proof.
  intros Hinv Hr Hlive Hsub HC HK Hp Hb Hs.
  apply (net_event orc C K w r rq Hinv Hr Hlive Hsub HC HK p _ _ (fun wr pe qu st dn ok si ba oq op => ba)); try done.
  by left.
Qed.

Section req_mod.
Context (orc : oracle) (C K : nat -> Z) (w : world) (r p : nat) (rq : bsr_request).
Context (Hinv : inv C K w) (Hr : reqs w !! r = Some rq) (Hlive : destroyed rq = false) (Hsub : r ∉ submit_writes w).
Context (HC : forall x, 0 <= C x) (HK : forall x, 0 <= K x) (Hp : (S p <= BSR_NODE_ID_MAX)%nat).
Let s0 := local rq.
Let sn := state_at rq (S p).

Lemma queued_settled : QUEUED sn = true -> settled w rq \/ SUSP 0 = true.
Proof. intros Hq. left. left. apply (net_open C K w r rq Hinv Hr Hlive HC p Hp). fold sn. by rewrite Hq, orb_true_r. Qed.

Lemma pending_open : PENDING sn = true -> completion_ref rq <> 0.
Proof. intros Hq. apply (net_open C K w r rq Hinv Hr Hlive HC p Hp). fold sn. by rewrite Hq. Qed.

Lemma ev_queued_off : QUEUED sn = true -> good C K r w (mod_rq_state orc r (Some p) RQ_NET_QUEUED 0 w).
Proof.
  intros Hq. apply (net_event orc C K w r rq Hinv Hr Hlive Hsub HC HK p _ _ (fun _ _ _ _ _ _ _ _ _ _ => true)); try done.
  by destruct (queued_settled Hq); [left|].
Qed.

Lemma ev_handed_over :
  QUEUED sn = true -> BARR sn || negb (WRITE s0) = true ->
  good C K r w (__req_mod orc r HANDED_OVER_TO_NETWORK (Some p) w).
Proof.
  intros Hq Hb. unfold __req_mod. rewrite (req_lookup _ _ _ Hr).
  destruct (is_pending_write_protocol_A rq (S p)) eqn:Ea.
  - assert (BARR sn = true) as HB.
    { unfold is_pending_write_protocol_A in Ea. rewrite has_WRITE in Ea. fold (local rq) in Ea. fold s0 in Ea.
      destruct (WRITE s0); [|done]. by rewrite orb_false_r in Hb. }
    apply (net_event orc C K w r rq Hinv Hr Hlive Hsub HC HK p _ _ (fun wr pe qu st dn ok si ba oq op => ba)); try done.
    by destruct (queued_settled Hq); [left|].
  - apply (net_event orc C K w r rq Hinv Hr Hlive Hsub HC HK p _ _
      (fun wr pe qu st dn ok si ba oq op => qu && (ba || negb wr))); try done.
    + unfold on_bits, bits_of. fold s0 sn. by rewrite Hq, Hb.
    + by destruct (queued_settled Hq); [left|].
Qed.

(** Everything that ends with [RQ_NET_DONE] and leaves nothing pending. *)
Lemma ev_done clear set :
  net_consts clear set = true -> net_step_ok clear set (fun _ _ _ _ _ _ _ _ _ _ => true) = true ->
  PENDING set || QUEUED set || BARR set = false -> settled w rq \/ SUSP clear = true ->
  good C K r w (mod_rq_state orc r (Some p) clear set w).
Proof.
  intros H1 H2 H3 H4.
  assert (PENDING set = false /\ QUEUED set = false /\ BARR set = false) as (E1 & E2 & E3)
    by (destruct (PENDING set), (QUEUED set), (BARR set); done).
  apply (net_event orc C K w r rq Hinv Hr Hlive Hsub HC HK p _ _ (fun _ _ _ _ _ _ _ _ _ _ => true)); try done.
  - by rewrite E3.
  - by rewrite E1, E2.
Qed.

(** [BARRIER_ACKED], and [RESEND] of what was acknowledged. *)
Lemma ev_barrier :
  r ∈ transfer_log w -> (WRITE s0 = true -> PENDING sn = true -> BARR sn = true) -> good C K r w (barrier_acked orc r (Some p) w).
Proof.
  intros Htl Hpb. unfold barrier_acked. rewrite (req_lookup _ _ _ Hr). autorewrite with rq.
  change (state_at rq 0) with s0. fold sn. destruct (WRITE s0) eqn:Hw; [|by split; [|apply keep_refl]]. cbn [negb].
  destruct (PENDING sn) eqn:Hpe.
  2: { rewrite (req_lookup _ _ _ Hr). by apply (ev_barrier_done orc C K w r p rq). }
  specialize (Hpb eq_refl eq_refl). pose proof (pending_open Hpe) as Ho.
  assert (POSTPONED s0 = false) as Hpo.
  { destruct (POSTPONED s0) eqn:E; [|done]. by destruct (ro_post _ _ _ _ _ (i_req _ _ _ Hinv _ _ Hr Hlive) E Hw). }
  pose proof (ev_net C K w r rq Hinv Hr Hlive p Hp) as Hn. fold sn in Hn.
  destruct (net_event_words orc C K w r rq Hinv Hr Hlive Hsub HC HK p RQ_NET_PENDING RQ_NET_OK
    (fun wr pe qu st dn ok si ba oq op => ba)) as (rq' & Hr' & Hl' & _ & Hsn & _ & Hls & _); try done.
  - by left; left.
  - right; right. split; [done|]. cbv zeta. fold s0 sn. unfold new_word. rewrite !bit_mod, !bit_not_0 by done.
    rewrite Hpb, Hw, Hpo, (no_pending _ _ Hn Hpe). done.
  - assert (good C K r w (mod_rq_state orc r (Some p) RQ_NET_PENDING RQ_NET_OK w)) as G1
      by (apply (ev_ack orc C K w r p rq); try done; by left).
    eapply good_trans; [exact G1|]. apply (ev_barrier_done orc C K _ r p rq'); try done.
    + apply G1.
    + by rewrite (sl_submit _ _ Hls).
    + destruct Hsn as [Hsn|[? _]]; [|done]. rewrite Hsn. unfold new_word. rewrite bit_mod, !bit_not_0 by done. by rewrite andb_false_r.
Qed.

Lemma ev_sis :
  BARR sn = true -> settled w rq ->
  good C K r w (mod_rq_state orc r (Some p) RQ_NET_PENDING RQ_NET_OK (upd_req r (upd_state (S p) (fun x => Z.lor x RQ_NET_SIS)) w)).
Proof.
  intros Hb Hs. set (rq' := upd_state (S p) (fun x => Z.lor x RQ_NET_SIS) rq).
  assert (length (rq_state rq) = S BSR_NODE_ID_MAX) as Hlen by apply (ro_words _ _ _ _ _ (i_req _ _ _ Hinv _ _ Hr Hlive)).
  assert (state_at rq' (S p) = Z.lor sn RQ_NET_SIS) as E by (unfold rq'; rewrite state_at_upd by lia; by rewrite decide_True).
  assert (BARR (state_at rq' (S p)) = true) as Hb' by (rewrite E, bit_lor, Hb; done).
  assert (good C K r w (upd_req r (upd_state (S p) (fun x => Z.lor x RQ_NET_SIS)) w)) as G1.
  { apply (or_net C K w r rq); try done. fold sn. destruct (ev_net C K w r rq Hinv Hr Hlive p Hp) as [N1 N2 N3 N4 N5 N6 N7]. fold sn in N1, N2, N3, N4, N5, N6, N7.
    split; rewrite !bit_lor; rewrite ?Hb, ?orb_true_r, ?orb_false_r; try done; eauto; [intros _; apply N5; by rewrite Hb|]. intros Ho. destruct (N7 Ho). congruence. }
  eapply good_trans; [exact G1|]. apply (ev_ack orc C K _ r p rq'); try done; [apply G1|].
  by apply (lookup_alter_kref w r rq).
Qed.

(** [RESEND] of a write that still waits, or was acknowledged. *)
Lemma ev_resend :
  r ∈ transfer_log w -> net_bits sn = true -> QUEUED sn = false -> DONE sn = false -> negb (WRITE s0) || BARR sn = true ->
  good C K r w (if negb (WRITE s0) && negb (net_bits sn) then mod_rq_state orc r (Some p) RQ_COMPLETION_SUSP 0 w
    else if negb (OKAY sn) then mod_rq_state orc r (Some p) RQ_COMPLETION_SUSP (Z.lor RQ_NET_QUEUED RQ_NET_PENDING) w
    else barrier_acked orc r (Some p) w).
Proof.
  intros Htl Hm Hq Hd Hb. rewrite Hm, andb_false_r. destruct (OKAY sn) eqn:Ho; cbn [negb].
  - apply ev_barrier; [done|]. intros Hw _. by rewrite Hw in Hb.
  - pose proof (ev_net C K w r rq Hinv Hr Hlive p Hp) as Hn. fold sn in Hn.
    assert (PENDING sn = true) as Hpe.
    { destruct (PENDING sn) eqn:E; [done|]. pose proof (no_idle _ _ Hn) as H1. pose proof (no_barr _ _ Hn) as H2.
      unfold net_bits in Hm. rewrite E, Hq, Hd, Ho in *. destruct (BARR sn), (SENT sn), (SIS sn); try done; by (discriminate H2 || discriminate H1). }
    apply (net_event orc C K w r rq Hinv Hr Hlive Hsub HC HK p _ _
      (fun wr pe qu st dn ok si ba oq op => pe && negb dn && (negb wr || ba))); try done.
    + unfold on_bits, bits_of. fold s0 sn. by rewrite Hpe, Hd, Hb.
    + intros _. by apply pending_open.
    + by right.
Qed.

End req_mod.

(** Events from the network and from walks over the transfer log. *)
Lemma req_mod_inv orc C K w r what p :
  inv C K w -> (forall x, 0 <= C x) -> (forall x, 0 <= K x) -> possible w r what p = true -> unfrozen w r what = true ->
  good C K r w (__req_mod orc r what (Some p) w).
Proof.
  intros Hinv HC HK Hg Hu. unfold possible in Hg. apply andb_true_iff in Hg as [Hg Hev]. apply andb_true_iff in Hg as [Hk Hp].
  apply bool_decide_eq_true in Hp as [c Hp]. pose proof (peer_bound C K w Hinv p c Hp) as Hpb.
  destruct (known_spec _ _ Hk) as (rq & Hr & Hlive & Hq & Hsub). rewrite Hq in Hev.
  pose proof (ev_net C K w r rq Hinv Hr Hlive p Hpb) as Hn.
  autorewrite with rq in Hev. change (state_at rq 0) with (local rq) in Hev.
  pose proof (busy_settled w r rq Hq) as Hbs.
  pose proof (queued_settled C K w r p rq Hinv Hr Hlive HC Hpb) as Hqs.
  pose proof (pending_open C K w r p rq Hinv Hr Hlive HC Hpb) as Hpo.
  pose proof (ev_done orc C K w r p rq Hinv Hr Hlive Hsub HC HK Hpb) as Hdone.
  destruct what; try discriminate Hev; cbv beta iota zeta delta [__req_mod]; rewrite ?Hq; autorewrite with rq;
    change (state_at rq 0) with (local rq).
  - by apply (ev_queued_off orc C K w r p rq).
  - by apply (ev_queued_off orc C K w r p rq).
  - andbs Hev. pose proof (ev_handed_over orc C K w r p rq Hinv Hr Hlive Hsub HC HK Hpb Hev H) as G.
    unfold __req_mod in G. by rewrite Hq in G.
  - andbs Hev. apply (net_event orc C K w r rq Hinv Hr Hlive Hsub HC HK p _ _
      (fun wr pe qu st dn ok si ba oq op => qu && wr && negb ba)); try done.
    + unfold on_bits, bits_of. by rewrite Hev, H0, H.
    + left. by destruct (Hqs Hev).
  - apply Hdone; try done. by right.
  - andbs Hev. rewrite d_assert_if by done. apply (ev_ack orc C K w r p rq); try done. by apply Hbs.
  - andbs Hev. apply (ev_ack orc C K w r p rq); try done. by apply Hbs.
  - andbs Hev. apply (ev_sis orc C K w r p rq); try done. by apply Hbs.
  - andbs Hev. rewrite d_assert_if, d_assert_if by done. apply Hdone; try done. left; left. by apply Hpo.
  - apply Hdone; try done. left. by apply Hbs.
  - andbs Hev. apply bool_decide_eq_true in Hev. apply (ev_barrier orc C K w r p rq); try done.
    intros Ew E. by rewrite Ew, E in H.
  - andbs Hev. rewrite d_assert_if by done. apply Hdone; try done. left; left. by apply Hpo.
  - andbs Hev. apply bool_decide_eq_true in Hev. apply (ev_resend orc C K w r p rq); try done; by apply negb_true_iff.
  - destruct (LC (local rq)); [|by split; [|apply keep_refl]]. apply Hdone; try done. by right.
Qed.

End RequestSafe.
