(* ===== verification/RequestSubmit.v ===== *)
(** * Submission, disk completion and walks (src/bsr/bsr_req.c, bsr_main.c, bsr_sender.c)

    [bsr_send_and_submit] keeps a completion reference of its own on the new
    request until the paths are known; under that reference every step keeps
    the invariant of [RequestInv]. *)

From S2P Require Import Prelude State Request RequestInv RequestEnd RequestKeep RequestSafe.

Module RequestSubmit.
Import State Request RequestInv RequestEnd RequestKeep RequestSafe.

(** ** Steps that only count *)

Lemma inv_eff C K w w' r p rq b :
  inv C K w -> reqs w !! r = Some rq -> destroyed rq = false -> eff r p 0 b 0 w w' -> inv C (bump r b K) w'.
Proof.
  intros Hinv Hr Hlive [L R P (es & El & Q)]. destruct (R _ Hr) as (rq' & Hreqs & B).
  destruct (bumped_words _ _ _ _ B) as (Hl' & Hn' & Hp & Ho & Hwo & Hnp).
  pose proof (i_req _ _ _ Hinv _ _ Hr Hlive) as [].
  apply (inv_ext (bump r 0 C) (bump r b K)); [intros x; unfold bump; destruct (decide (x = r)); lia|done|].
  eapply (inv_change C K w w' r p rq rq' 0 b 0 es); try done; rewrite ?Hl'.
  - by eapply bumped_kept.
  - intros q. rewrite Hnp. destruct (decide _); lia.
  - auto.
  - apply B.
  - rewrite (bu_cref _ _ _ _ B), Hp. lia.
  - rewrite (bu_kref _ _ _ _ B), Ho. lia.
  - rewrite (bu_cref _ _ _ _ B), Z.add_0_r. done.
  - done.
  - done.
  - intros Hs. destruct (i_submit _ _ _ Hinv _ Hs) as (_ & Hf & _). rewrite (req_lookup _ _ _ Hr) in Hf.
    destruct Hf. destruct B. split; rewrite ?Hl', ?Hn'; congruence || done.
Qed.

(** ** A request on which the running code has a completion reference *)

Record holding (C K : nat -> Z) (w : world) (r : nat) (rq : bsr_request) : Prop := mk_holding {
  ho_inv : inv C K w;
  ho_req : reqs w !! r = Some rq;
  ho_live : destroyed rq = false;
  ho_submit : r ∉ submit_writes w;
  ho_ref : 0 < C r;
  ho_C : forall x, 0 <= C x;
  ho_K : forall x, 0 <= K x }.

Lemma ho_open C K w r rq : holding C K w r rq -> completion_ref rq <> 0.
Proof.
  intros []. rewrite (ro_cref _ _ _ _ _ (i_req _ _ _ ho_inv0 _ _ ho_req0 ho_live0)).
  pose proof (pend_nonneg rq). pose proof (b2z_nonneg (bool_decide (r ∈ submit_writes w))). lia.
Qed.

(** The local word, as far as submission looks at it. *)
Definition local_bits (s : Z) : list bool := map (fun i => bit i s) [0; 1; 2; 3; 11; 17].

(** One network event under the reference. *)
Lemma held_net orc C K w r rq p clear set pre :
  holding C K w r rq -> (S p <= BSR_NODE_ID_MAX)%nat -> net_consts clear set = true -> net_step_ok clear set pre = true ->
  on_bits pre (bits_of (local rq) (state_at rq (S p))) = true ->
  (BARR set = true -> BARR (state_at rq (S p)) = false -> DONE (state_at rq (S p)) = false /\ DONE set = false) ->
  forallb (fun i => negb (bit i clear || bit i set)) [0; 1; 2; 3; 11; 17] = true ->
  exists rq', holding C K (mod_rq_state orc r (Some p) clear set w) r rq' /\
    (forall q, q <> p -> state_at rq' (S q) = state_at rq (S q)) /\
    (OOSQ set = false -> state_at rq' (S p) =
       new_word (state_at rq (S p)) (Z.ldiff clear RQ_STATE_0_MASK) (Z.ldiff set RQ_STATE_0_MASK)) /\
    local_bits (local rq') = local_bits (local rq) /\
    same_lists w (mod_rq_state orc r (Some p) clear set w) /\ i_in_tree rq' = i_in_tree rq.
Proof.
  intros H Hp Hcs Hst Hpre Hb Hloc. pose proof (ho_open _ _ _ _ _ H) as Ho. destruct H as [Hinv Hr Hlive Hsub Href HC HK].
  destruct (net_event_words orc C K w r rq Hinv Hr Hlive Hsub HC HK p clear set pre) as (rq' & Hr' & Hl' & Hq & Hn & Hbits & Hls & Htr); try done.
  { by left; left. }
  { by left. }
  exists rq'. split_and!; auto.
  - split; try done; [|by rewrite (sl_submit _ _ Hls)].
    apply (net_event orc C K w r rq Hinv Hr Hlive Hsub HC HK p clear set pre); try done. by left; left.
  - destruct Hn as [Hn|[Hn _]]; [done|]. intros. congruence.
  - rewrite forallb_forall in Hloc. apply map_ext_in. intros i Hi. specialize (Hloc i Hi). apply negb_true_iff in Hloc.
    apply Hbits; [|by intros ->; cbn in Hi; lia|done]. by repeat (destruct Hi as [<-|Hi]; [done|]).
Qed.

Lemma upd_state_id r i f w : (forall x, f x = x) -> upd_req r (upd_state i f) w = w.
Proof.
  intros Hf. unfold upd_req. assert (alter (upd_state i f) r (reqs w) = reqs w) as E.
  { apply list_eq. intros j. destruct (decide (j = r)) as [->|]; [|by rewrite list_lookup_alter_ne].
    rewrite list_lookup_alter_eq. destruct (reqs w !! r) as [rq|]; [|done]. cbn. f_equal. destruct rq as [l].
    unfold upd_state. cbn. unfold upd_rq_state. cbn. f_equal.
    apply list_eq. intros k. destruct (decide (k = i)) as [->|]; [|by rewrite list_lookup_alter_ne].
    rewrite list_lookup_alter_eq. destruct (l !! i); cbn; [by rewrite Hf|done]. }
  destruct w. unfold upd_reqs in *. cbn in *. by rewrite E.
Qed.

Lemma upd_state_ext r i f g w : (forall x, f x = g x) -> upd_req r (upd_state i f) w = upd_req r (upd_state i g) w.
Proof.
  intros Hf. unfold upd_req. assert (alter (upd_state i f) r (reqs w) = alter (upd_state i g) r (reqs w)) as E.
  { apply list_eq. intros j. destruct (decide (j = r)) as [->|]; [|by rewrite !list_lookup_alter_ne].
    rewrite !list_lookup_alter_eq. destruct (reqs w !! r) as [rq|]; [|done]. cbn. f_equal. destruct rq as [l].
    unfold upd_state. cbn. unfold upd_rq_state. cbn. f_equal.
    apply list_eq. intros k. destruct (decide (k = i)) as [->|]; [|by rewrite !list_lookup_alter_ne].
    rewrite !list_lookup_alter_eq. destruct (l !! i); cbn; [by rewrite Hf|done]. }
  destruct w. unfold upd_reqs in *. cbn in *. by rewrite E.
Qed.

(** [OOS_SET_TO_LOCAL]: only the bit, and the bitmap. *)
Lemma held_oos_local orc C K w r rq p :
  holding C K w r rq -> (S p <= BSR_NODE_ID_MAX)%nat -> suspended w = false ->
  let w' := __req_mod orc r OOS_SET_TO_LOCAL (Some p) w in
  exists rq', holding C K w' r rq' /\ (forall q, q <> p -> state_at rq' (S q) = state_at rq (S q)) /\
    local_bits (local rq') = local_bits (local rq) /\ same_lists w w'.
Proof.
  intros H Hp Hs. cbv zeta. destruct H as [Hinv Hr Hlive Hsub Href HC HK].
  assert (length (rq_state rq) = S BSR_NODE_ID_MAX) as Hlen by apply (ro_words _ _ _ _ _ (i_req _ _ _ Hinv _ _ Hr Hlive)).
  set (w1 := upd_req r (upd_state (S p) (fun x => Z.lor x RQ_OOS_LOCAL_DONE)) w).
  set (rq1 := upd_state (S p) (fun x => Z.lor x RQ_OOS_LOCAL_DONE) rq).
  assert (frame w1 (__req_mod orc r OOS_SET_TO_LOCAL (Some p) w)) as F.
  { unfold __req_mod, mod_rq_state. cbv zeta. rewrite (proj2 (Nat.ltb_ge _ _) Hp). cbn [orb bool_decide].
    rewrite bool_decide_eq_false_2 by done. cbn [andb emit_if].
    change (has (Z.ldiff RQ_OOS_LOCAL_DONE RQ_STATE_0_MASK) RQ_OOS_NET_QUEUED) with false. rewrite andb_false_r. cbn [andb].
    rewrite Hs. cbn [andb]. rewrite (upd_state_id r 0), (upd_state_ext r (S p) _ (fun x => Z.lor x RQ_OOS_LOCAL_DONE)).
    2: { intros x. change (Z.ldiff 0 RQ_STATE_0_MASK) with 0. rewrite Z.ldiff_0_r. reflexivity. }
    2: { intros x. change (Z.land 0 RQ_STATE_0_MASK) with 0. by rewrite Z.ldiff_0_r, Z.lor_0_r. }
    fold w1. rewrite (req_lookup _ _ _ Hr), (req_lookup w1 r rq1) by (by apply (lookup_alter_kref w r rq)).
    assert (has (state_at rq (S p)) RQ_OOS_LOCAL_DONE = bit 25 (state_at rq (S p))) as -> by (by apply has_bit).
    destruct (bit 25 (state_at rq (S p))) eqn:Hb; cbn [negb andb].
    - unfold rq1. rewrite !state_at_upd, decide_False, decide_True by (done || lia).
      assert (Z.lor (state_at rq (S p)) RQ_OOS_LOCAL_DONE = state_at rq (S p)) as ->.
      { apply Z.bits_inj'. intros n Hn. rewrite Z.lor_spec. unfold RQ_OOS_LOCAL_DONE, __RQ_OOS_LOCAL_DONE.
        rewrite Z.shiftl_1_l. destruct (decide (n = 25)) as [->|].
        - unfold bit in Hb. by rewrite Hb.
        - rewrite Z.pow2_bits_false by done. apply orb_false_r. }
      rewrite !Z.eqb_refl. apply frame_refl.
    - match goal with |- context [if ?b then w1 else _] => destruct b; [apply frame_refl|] end.
      change (has (Z.ldiff RQ_OOS_LOCAL_DONE RQ_STATE_0_MASK) RQ_OOS_LOCAL_DONE) with true. by apply frame_emit. }
  exists rq1. split_and!.
  - split; try done.
    + eapply inv_frame; [exact F|]. apply (or_net C K w r rq); try done.
      destruct (ev_net C K w r rq Hinv Hr Hlive p Hp). split; rewrite !bit_lor; rewrite ?orb_false_r; done.
    + rewrite (fm_reqs _ _ F). by apply (lookup_alter_kref w r rq).
    + by rewrite (sl_submit _ _ (fm_lists _ _ F)).
  - intros q Hq. unfold rq1. rewrite state_at_upd, decide_False by (lia || congruence). done.
  - unfold rq1, local. by rewrite state_at_upd, decide_False by lia.
  - apply (same_lists_trans w w1); [done|apply F].
Qed.

Lemma peer_sane C K w p c :
  inv C K w -> peer_of w p = Some c -> bsr_should_do_remote c && bsr_should_send_out_of_sync c = false.
Proof.
  intros Hinv Hc. destruct (i_peers _ _ _ Hinv) as [_ H]. apply andb_false_iff.
  destruct (bsr_should_send_out_of_sync c) eqn:E; [left|by right]. unfold bsr_should_send_out_of_sync in E.
  apply Z.eqb_eq in E. specialize (H (p_disk_state c) (p_repl_state c)). unfold bsr_should_do_remote.
  assert (Some (p_disk_state c, p_repl_state c) ∈ peer_stats w) as Hin.
  { unfold peer_stats. apply list_elem_of_fmap. exists (Some c). split; [done|].
    unfold peer_of in Hc. destruct (peers w !! p) as [[c'|]|] eqn:Ep; try done. injection Hc as ->. by eapply list_elem_of_lookup_2. }
  specialize (H Hin). destruct (p_repl_state c); try done. specialize (H eq_refl). by destruct (p_disk_state c).
Qed.

(** ** Choosing the paths of a write *)

(** The peers in [todo] have not been looked at yet; [b] are the local bits. *)
Definition submitting (C K : nat -> Z) (r : nat) (todo : list nat) (b : list bool) (w : world) : Prop :=
  exists rq, holding C K w r rq /\ (forall q, q ∈ todo -> state_at rq (S q) = 0) /\ local_bits (local rq) = b /\
    suspended w = false.

Lemma holding_frame C K w w' r rq : holding C K w r rq -> frame w w' -> holding C K w' r rq.
Proof.
  intros [] F. split; try done; [by eapply inv_frame|by rewrite (fm_reqs _ _ F)|by rewrite (sl_submit _ _ (fm_lists _ _ F))].
Qed.

Lemma holding_eff C K w w' r p rq : holding C K w r rq -> eff r p 0 0 0 w w' ->
  exists rq', holding C K w' r rq' /\ bumped 0 0 rq rq'.
Proof.
  intros [] E. destruct (eff_lookup _ _ _ _ _ _ _ _ ho_req0 E) as (rq' & Hr' & B). exists rq'. split; [|exact B].
  split; try done; [|by rewrite (bu_dead _ _ _ _ B)|by rewrite (sl_submit _ _ (ef_lists _ _ _ _ _ _ _ E))].
  eapply inv_ext; [..|eapply inv_eff]; try done. intros x. unfold bump. destruct (decide (x = r)); lia.
Qed.

(** Fields of the request that the invariant does not read. *)
Lemma holding_upd C K w r rq f :
  holding C K w r rq ->
  (forall q, rq_state (f q) = rq_state q /\ completion_ref (f q) = completion_ref q /\ kref (f q) = kref q /\
     master_bio (f q) = master_bio q /\ i_size (f q) = i_size q /\ destroy_next (f q) = destroy_next q /\
     destroyed (f q) = destroyed q) ->
  holding C K (upd_req r f w) r (f rq).
Proof.
  intros [] Hf. destruct (Hf rq) as (E1 & E2 & E3 & E4 & E5 & E6 & E7).
  assert (local (f rq) = local rq) as El by (unfold local, state_at; by rewrite E1).
  assert (nets (f rq) = nets rq) as En by (unfold nets; by rewrite E1).
  pose proof (i_req _ _ _ ho_inv0 _ _ ho_req0 ho_live0) as [].
  split; try done; [|by apply (lookup_alter_kref w r rq)|congruence].
  apply (inv_ext (bump r 0 C) (bump r 0 K)); [intros x; unfold bump; destruct (decide (x = r)); lia..|].
  eapply (inv_change C K w _ r O rq (f rq) 0 0 0 []); try done; rewrite ?El.
  - apply (alter_as_insert f _ _ _ ho_req0).
  - split; try done. by rewrite El.
  - intros q c Hc. exists c. split; [done|]. destruct (decide _); lia.
  - intros q. unfold net_pending, state_at. rewrite E1. destruct (decide _); lia.
  - by rewrite app_nil_r.
  - destruct ro_words0 as (? & ? & ?). split; [by rewrite E1|]. by rewrite El, En.
  - unfold pend. rewrite El, En. lia.
  - unfold own_refs. rewrite El, En. lia.
  - by rewrite E2.
  - done.
  - done.
Qed.

(** [TO_BE_SENT] to a peer that has nothing of the request. *)
Lemma held_to_be_sent orc C K w r rq p :
  holding C K w r rq -> (S p <= BSR_NODE_ID_MAX)%nat -> state_at rq (S p) = 0 ->
  let w' := __req_mod orc r TO_BE_SENT (Some p) w in
  exists rq', holding C K w' r rq' /\ (forall q, q <> p -> state_at rq' (S q) = state_at rq (S q)) /\
    PENDING (state_at rq' (S p)) = true /\ OOSP (state_at rq' (S p)) || DONE (state_at rq' (S p)) = false /\
    local_bits (local rq') = local_bits (local rq) /\ same_lists w w' /\ i_in_tree rq' = i_in_tree rq.
Proof.
  intros H Hp H0. cbv beta iota zeta delta [__req_mod]. rewrite (req_lookup _ _ _ (ho_req _ _ _ _ _ H)), H0.
  change (has 0 RQ_NET_MASK) with false. rewrite bool_decide_eq_false_2, d_assert_if by done.
  set (m := if _ =? BSR_PROT_C then _ else _).
  assert (forall i, i <> 19 -> i <> 20 -> bit i m = false) as Hm.
  { intros i H19 H20. unfold m, bit. repeat destruct (_ =? _); [..|apply Z.bits_0].
    - unfold RQ_EXP_WRITE_ACK, __RQ_EXP_WRITE_ACK. by rewrite Z.shiftl_1_l, Z.pow2_bits_false.
    - unfold RQ_EXP_RECEIVE_ACK, __RQ_EXP_RECEIVE_ACK. by rewrite Z.shiftl_1_l, Z.pow2_bits_false. }
  set (w1 := upd_req _ _ w). set (rq1 := upd_state (S p) (fun x => Z.lor x m) rq).
  destruct H as [Hinv Hr Hlive Hsub Href HC HK].
  assert (length (rq_state rq) = S BSR_NODE_ID_MAX) as Hlen by apply (ro_words _ _ _ _ _ (i_req _ _ _ Hinv _ _ Hr Hlive)).
  assert (state_at rq1 (S p) = m) as E1 by (unfold rq1; by rewrite state_at_upd, decide_True, H0 by lia).
  assert (holding C K w1 r rq1) as H1.
  { split; try done; [|by apply (lookup_alter_kref w r rq)].
    apply (or_net C K w r rq); try done; [by rewrite !Hm|]. rewrite H0. split; rewrite ?bit_lor, !Hm; done. }
  destruct (held_net orc C K w1 r rq1 p 0 RQ_NET_PENDING (fun wr pe qu st dn ok si ba oq op => negb qu && negb dn))
    as (rq' & Hh & Hq & Hn & Hb & Hls & Htr); try done.
  { unfold on_bits, bits_of. by rewrite E1, !Hm. }
  assert (local rq1 = local rq) as El by (unfold rq1, local; by rewrite state_at_upd, decide_False by lia).
  rewrite El in Hb. specialize (Hn eq_refl). rewrite E1 in Hn.
  exists rq'. split_and!; try done; rewrite ?Hn.
  - intros q Hne. rewrite Hq by done. unfold rq1. rewrite state_at_upd, decide_False by (lia || congruence). done.
  - unfold new_word. rewrite bit_mod, !bit_not_0 by done. by rewrite orb_true_r.
  - unfold new_word. rewrite !bit_mod, !bit_not_0, !Hm by done. done.
  - by apply (same_lists_trans w w1).
Qed.

Lemma frame_start_epoch (b : bool) w : frame w (if b then start_new_tl_epoch w else w).
Proof. apply frame_if. intros _. apply start_new_tl_epoch_frame. Qed.

(** [QUEUE_FOR_NET_WRITE] after [TO_BE_SENT]. *)
Lemma held_queue_write orc C K w r rq p :
  holding C K w r rq -> (S p <= BSR_NODE_ID_MAX)%nat -> WRITE (local rq) = true ->
  PENDING (state_at rq (S p)) = true -> OOSP (state_at rq (S p)) || DONE (state_at rq (S p)) = false ->
  let w' := __req_mod orc r QUEUE_FOR_NET_WRITE (Some p) w in
  exists rq', holding C K w' r rq' /\ (forall q, q <> p -> state_at rq' (S q) = state_at rq (S q)) /\
    local_bits (local rq') = local_bits (local rq) /\ same_lists w w'.
Proof.
  intros H Hp Hw Hpe [Hop Hdn]%orb_false_iff. cbv beta iota zeta delta [__req_mod]. rewrite (req_lookup _ _ _ (ho_req _ _ _ _ _ H)).
  rewrite has_NET_PENDING, d_assert_if by done.
  destruct (held_net orc C K w r rq p 0 (Z.lor RQ_NET_QUEUED RQ_EXP_BARR_ACK)
    (fun wr pe qu st dn ok si ba oq op => wr && pe && negb dn && negb op)) as (rq' & Hh & Hq & Hn & Hb & Hls & Htr); try done.
  { unfold on_bits, bits_of. by rewrite Hw, Hpe, Hdn, Hop. }
  match goal with |- context [if ?b then start_new_tl_epoch ?x else ?x] => pose proof (frame_start_epoch b x) as F end.
  exists rq'. split_and!; try done.
  - by eapply holding_frame.
  - eapply same_lists_trans; [exact Hls|apply F].
Qed.

Lemma holding_bound C K w r rq p c : holding C K w r rq -> peer_of w p = Some c -> (S p <= BSR_NODE_ID_MAX)%nat.
Proof. intros H Hc. apply (peer_bound C K w (ho_inv _ _ _ _ _ H) p c Hc). Qed.

(** Every word is what its bits say. *)
Lemma local_bits_inj i s s' : local_bits s = local_bits s' -> In i [0; 1; 2; 3; 11; 17] -> bit i s = bit i s'.
Proof. intros H Hi. unfold local_bits in H. cbn in *. injection H as ? ? ? ? ? ?. by repeat (destruct Hi as [<-|Hi]; [done|]). Qed.

Lemma process_write_to_ok orc C K r p todo b w count in_tree :
  NoDup (p :: todo) -> nth 4 b false = true -> submitting C K r (p :: todo) b w ->
  submitting C K r todo b (process_write_to orc r (w, count, in_tree) p).1.1.
Proof.
  intros Hnd Hw (rq & H & H0 & Hb & Hs). apply NoDup_cons in Hnd as [Hnp _].
  assert (WRITE (local rq) = true) as HW by (by rewrite <- Hb in Hw).
  assert (forall rq' w', holding C K w' r rq' -> (forall q, q <> p -> state_at rq' (S q) = state_at rq (S q)) ->
    local_bits (local rq') = local_bits (local rq) -> same_lists w w' -> submitting C K r todo b w') as Hout.
  { intros rq' w' Hh Hq Hb' Hls. exists rq'. split_and!; try done; [|congruence|by rewrite (sl_susp _ _ Hls)].
    intros q Hq'. rewrite Hq by (by intros ->). apply H0. by right. }
  unfold process_write_to. destruct (peer_of w p) as [c|] eqn:Hc; [|by apply (Hout rq w)].
  pose proof (holding_bound _ _ _ _ _ _ _ H Hc) as Hp. pose proof (peer_sane C K w p c (ho_inv _ _ _ _ _ H) Hc) as Hsane.
  specialize (H0 p) as Hz. rewrite elem_of_cons in Hz. specialize (Hz (or_introl eq_refl)).
  destruct (negb (bsr_should_do_remote c) && negb (bsr_should_send_out_of_sync c)).
  { destruct (negb (p_bitmap_index c =? -1) && negb (p_cstate c =? C_CONNECTED)); [|by apply (Hout rq w)].
    destruct (held_oos_local orc C K w r rq p H Hp Hs) as (rq' & Hh & Hq & Hb' & Hls). by apply (Hout rq'). }
  rewrite Hsane, d_assert_if by done. destruct (bsr_should_do_remote c).
  - destruct (held_to_be_sent orc C K w r rq p H Hp Hz) as (rq1 & H1 & Hq1 & Hpe1 & Hqd1 & Hb1 & Hl1 & _).
    set (w1 := __req_mod orc r TO_BE_SENT (Some p) w) in *.
    set (w2 := if in_tree then w1 else upd_req r (upd_i_in_tree (fun _ => true)) w1).
    assert (exists rq2, holding C K w2 r rq2 /\ rq_state rq2 = rq_state rq1 /\ same_lists w1 w2) as (rq2 & H2 & Es & Hl2).
    { unfold w2. destruct in_tree; [by exists rq1|]. exists (upd_i_in_tree (fun _ => true) rq1). split; [|done].
      by apply holding_upd. }
    assert (forall i, state_at rq2 i = state_at rq1 i) as Es' by (intros; unfold state_at; by rewrite Es).
    assert (local rq2 = local rq1) as El2 by apply Es'.
    destruct (held_queue_write orc C K w2 r rq2 p H2 Hp) as (rq3 & H3 & Hq3 & Hb3 & Hl3); rewrite ?Es', ?El2; try done.
    { by rewrite (local_bits_inj 11 _ _ Hb1) by (cbn; tauto). }
    apply (Hout rq3); try done.
    + intros q Hq. by rewrite Hq3, Es', Hq1.
    + by rewrite Hb3, El2, Hb1.
    + eapply same_lists_trans; [exact Hl1|]. by eapply same_lists_trans.
  - set (w1 := emit _ w). assert (holding C K w1 r rq) as H1 by (by eapply holding_frame; [|apply frame_emit]).
    assert (same_lists w w1) as Hl1 by done.
    destruct (113 <=? pro_version c); [|destruct (_ || _); [|by apply (Hout rq w1)]].
    + destruct (held_net orc C K w1 r rq p 0 (Z.lor RQ_OOS_PENDING RQ_NET_PENDING)
        (fun wr pe qu st dn ok si ba oq op => wr && negb (pe || qu || st || dn || ok || si || ba))) as (rq' & Hh & Hq & Hn & Hb' & Hls & Htr); try done.
      { unfold on_bits, bits_of. by rewrite HW, Hz. }
      apply (Hout rq'); try done. by eapply same_lists_trans.
    + destruct (held_net orc C K w1 r rq p (Z.lor RQ_OOS_PENDING RQ_NET_PENDING) (Z.lor RQ_OOS_NET_QUEUED RQ_NET_QUEUED)
        (fun wr pe qu st dn ok si ba oq op => wr && negb (pe || qu || st || dn || ok || si || ba))) as (rq' & Hh & Hq & Hn & Hb' & Hls & Htr); try done.
      { unfold on_bits, bits_of. by rewrite HW, Hz. }
      apply (Hout rq'); try done. by eapply same_lists_trans.
Qed.

(** ** The transfer log grows *)

Lemma before_app w l p q : before w p q -> exists l1 l2 l3, transfer_log w ++ l = l1 ++ p :: l2 ++ q :: l3.
Proof.
  intros (l1 & l2 & l3 & ->). exists l1, l2, (l3 ++ l). rewrite <- app_assoc. f_equal. cbn. f_equal. by rewrite <- app_assoc.
Qed.

Lemma inv_append C K w r rq :
  inv C K w -> reqs w !! r = Some rq -> destroyed rq = false -> (r ∉ transfer_log w) -> (r ∉ retry_writes w) ->
  (r ∉ submit_writes w) -> POSTPONED (local rq) = false -> inv C K (upd_transfer_log (fun l => l ++ [r]) w).
Proof.
  intros [] Hr Hlive Ht Hre Hsu Hpo.
  split; try done.
  - intros x rqx Hx Hd. pose proof (i_req0 _ _ Hx Hd) as []. split; try done. intros Hp Hw.
    cbn. rewrite elem_of_app, list_elem_of_singleton. intros [Hin| ->]; [by apply ro_post0|].
    change (reqs w !! r = Some rqx) in Hx. congruence.
  - cbn. apply NoDup_app. split_and!; [done| |apply NoDup_singleton]. intros x Hx ->%list_elem_of_singleton. done.
  - intros x. cbn. rewrite elem_of_app, list_elem_of_singleton. intros [Hx| ->]; [by apply i_tl_live0|by exists rq].
  - intros p q Hp Hn. destruct (i_chain0 p q Hp Hn) as (Hb & ?). split; [|done]. by apply before_app.
  - intros x Hx. destruct (i_retry0 x Hx) as (? & ? & ? & ? & ?). split_and!; try done. cbn.
    rewrite elem_of_app, list_elem_of_singleton. intros [?| ->]; done.
  - intros x Hx. destruct (i_submit0 x Hx) as (? & ? & ?). split_and!; try done. cbn.
    rewrite elem_of_app, list_elem_of_singleton. intros [?| ->]; done.
Qed.

(** The previous write keeps the new one. *)
Lemma inv_link C K w r r2 rq2 :
  inv C K w -> reqs w !! r2 = Some rq2 -> destroyed rq2 = false -> destroy_next rq2 = None -> before w r2 r ->
  WRITE (local rq2) = true -> WRITE (local (req w r)) = true -> (r2 ∉ submit_writes w) ->
  inv C (bump r (-1) K) (upd_req r2 (upd_destroy_next (fun _ => Some r)) w).
Proof.
  intros Hinv Hr2 Hlive Hnone Hb Hw2 Hw Hsub. set (rq2' := upd_destroy_next (fun _ => Some r) rq2).
  set (w' := upd_req _ _ w). assert (reqs w' = <[r2 := rq2']> (reqs w)) as Hreqs by apply (alter_as_insert (upd_destroy_next (fun _ => Some r)) _ _ _ Hr2).
  pose proof (fun x => live_insert w w' r2 rq2 rq2' x Hr2 Hreqs eq_refl) as HL.
  pose proof (fun x => req_insert w w' r2 rq2 rq2' x Hr2 Hreqs) as HR.
  assert (forall x, local (req w' x) = local (req w x)) as Hloc.
  { intros x. rewrite HR. destruct (decide (x = r2)) as [->|]; [by rewrite (req_lookup _ _ _ Hr2)|done]. }
  assert (forall x, in_refs w' x = in_refs w x + (if decide (x = r) then 1 else 0)) as Hin.
  { intros x. unfold in_refs. rewrite Hreqs, (zsum_insert _ _ _ _ _ Hr2).
    change (held w') with (held w). change (most_recent_req w') with (most_recent_req w).
    assert (points_to x rq2 = 0) as -> by (unfold points_to; by rewrite Hlive, Hnone).
    assert (points_to x rq2' = if decide (x = r) then 1 else 0) as ->; [|destruct (decide _); lia].
    unfold points_to. change (destroyed rq2') with (destroyed rq2). rewrite Hlive. cbn [negb andb].
    destruct (decide (x = r)) as [->|]; [by rewrite bool_decide_eq_true_2|rewrite bool_decide_eq_false_2; [done|]].
    intros [= ->]. done. }
  assert (forall x, reqs w' !! x = if decide (x = r2) then Some rq2' else reqs w !! x) as Hlk.
  { intros x. rewrite Hreqs. destruct (decide (x = r2)) as [->|];
      [by apply list_lookup_insert_eq, (lookup_lt_Some _ _ _ Hr2)|by rewrite list_lookup_insert_ne]. }
  destruct Hinv. split; try done.
  - intros x rqx Hx Hd. rewrite Hlk in Hx.
    assert (exists rq0, reqs w !! x = Some rq0 /\ rq_state rqx = rq_state rq0 /\ completion_ref rqx = completion_ref rq0 /\
      kref rqx = kref rq0 /\ master_bio rqx = master_bio rq0 /\ i_size rqx = i_size rq0 /\ destroyed rq0 = false)
      as (rq0 & Hx0 & E1 & E2 & E3 & E4 & E5 & E6).
    { destruct (decide (x = r2)) as [->|]; [injection Hx as <-; by exists rq2|by exists rqx]. }
    assert (local rqx = local rq0) as El by (unfold local, state_at; by rewrite E1).
    assert (nets rqx = nets rq0) as En by (unfold nets; by rewrite E1).
    pose proof (i_req0 _ _ Hx0 E6) as [H1 H2 (? & ? & ?) H4 H5 H6 H7]. split; rewrite ?E4, ?El, ?E2, ?E5; try done.
    + rewrite H1. unfold pend. by rewrite El, En.
    + rewrite E3, H2, Hin. unfold base_ref, own_refs. rewrite E2, El, En. change (retry_writes w') with (retry_writes w).
      unfold bump. destruct (decide (x = r)); lia.
    + split; [by rewrite E1|]. by rewrite El, En.
  - intros x rqx Hx Hd. rewrite Hlk in Hx. destruct (decide (x = r2)) as [->|]; [|by apply i_gone0].
    injection Hx as <-. change (destroyed rq2 = true) in Hd. congruence.
  - intros x Hx. apply HL. auto.
  - intros p q Hp%HL Hn. rewrite HR in Hn. rewrite !Hloc. destruct (decide (p = r2)) as [->|].
    + injection Hn as <-. by rewrite (req_lookup _ _ _ Hr2).
    + by apply i_chain0.
  - intros x Hx. destruct (i_retry0 x Hx) as (? & Hc & ? & ? & Hmb). rewrite HL, Hloc, HR. split_and!; try done;
    (destruct (decide (x = r2)) as [->|]; [|done]).
    + by rewrite (req_lookup _ _ _ Hr2) in Hc.
    + by rewrite (req_lookup _ _ _ Hr2) in Hmb.
  - intros x Hx. destruct (i_submit0 x Hx) as (? & Hc & ?). rewrite HL, HR. split_and!; try done.
    destruct (decide (x = r2)) as [->|]; done.
  - intros x Hx. rewrite Hreqs, length_insert. auto.
  - intros q c Hc. rewrite Hreqs, (zsum_insert _ _ _ _ _ Hr2). change (net_pending q rq2') with (net_pending q rq2).
    rewrite (i_pending0 q c Hc). lia.
  - intros x rqx Hx. rewrite Hlk in Hx. destruct (decide (x = r2)) as [->|]; [|by apply i_once0].
    injection Hx as <-. by apply (i_once0 r2 rq2).
  - intros x. rewrite Hreqs, length_insert. apply i_future0.
  - intros x Hx. destruct (i_peer_ack0 x Hx) as (q & Hq & Hd). exists q. split; [|done]. rewrite Hlk, decide_False; congruence.
Qed.

(** The last write of the log has no successor yet. *)
Lemma last_write_free C K w i r2 :
  inv C K w -> list_find (fun x => has (state_at (req w x) 0) RQ_WRITE) (rev (transfer_log w)) = Some (i, r2) ->
  r2 ∈ transfer_log w /\ WRITE (local (req w r2)) = true /\ destroy_next (req w r2) = None.
Proof.
  intros Hinv (Hi & Hp & Hmin)%list_find_Some.
  assert (r2 ∈ transfer_log w) as Hin.
  { apply list_elem_of_In, in_rev, list_elem_of_In. by eapply list_elem_of_lookup_2. }
  assert (WRITE (local (req w r2)) = true) as Hw by (unfold local; by rewrite <- has_WRITE; apply Is_true_true).
  split_and!; [done..|]. destruct (destroy_next (req w r2)) as [q|] eqn:En; [exfalso|done].
  destruct (i_chain _ _ _ Hinv r2 q (i_tl_live _ _ _ Hinv _ Hin) En) as ((l1 & l2 & l3 & E) & _ & Hq).
  pose proof (i_tl _ _ _ Hinv) as Hnd.
  assert (rev (transfer_log w) = rev l3 ++ q :: (rev l2 ++ r2 :: rev l1)) as Er.
  { rewrite E, rev_app_distr. cbn. rewrite rev_app_distr. cbn. by rewrite <- !app_assoc. }
  assert (NoDup (rev (transfer_log w))) as Hnd' by (by apply NoDup_ListNoDup, NoDup_rev, NoDup_ListNoDup).
  rewrite Er in Hi, Hmin, Hnd'.
  assert ((rev l3 ++ q :: (rev l2 ++ r2 :: rev l1)) !! (length (rev l3) + S (length (rev l2)))%nat = Some r2) as Hr2.
  { rewrite lookup_app_r by lia. replace (_ - _)%nat with (S (length (rev l2))) by lia. change ((rev l2 ++ r2 :: rev l1) !! length (rev l2) = Some r2).
    rewrite lookup_app_r by lia. by rewrite Nat.sub_diag. }
  pose proof (NoDup_lookup _ _ _ _ Hnd' Hi Hr2) as ->.
  eapply (Hmin (length (rev l3)) q); [|lia|].
  - rewrite lookup_app_r by lia. by rewrite Nat.sub_diag.
  - rewrite has_WRITE. apply Is_true_true. exact Hq.
Qed.

Lemma holding_not_retry C K w r rq : holding C K w r rq -> r ∉ retry_writes w.
Proof.
  intros H Hre. pose proof (ho_open _ _ _ _ _ H) as Ho. destruct (i_retry _ _ _ (ho_inv _ _ _ _ _ H) r Hre) as (_ & H0 & _).
  by rewrite (req_lookup _ _ _ (ho_req _ _ _ _ _ H)) in H0.
Qed.

Lemma holding_append C K w r rq :
  holding C K w r rq -> (r ∉ transfer_log w) -> POSTPONED (local rq) = false ->
  holding C K (upd_transfer_log (fun l => l ++ [r]) w) r rq.
Proof.
  intros H Ht Hpo. pose proof (holding_not_retry _ _ _ _ _ H). destruct H. split; try done. by eapply inv_append.
Qed.

Lemma tl_add_ok C K w r rq write :
  holding C K w r rq -> (r ∉ transfer_log w) -> POSTPONED (local rq) = false -> (write = true -> WRITE (local rq) = true) ->
  exists rq', holding C K (tl_add r write w) r rq' /\ rq_state rq' = rq_state rq /\ i_in_tree rq' = i_in_tree rq /\
    master_bio rq' = master_bio rq /\ i_size rq' = i_size rq /\ suspended (tl_add r write w) = suspended w.
Proof.
  intros H Ht Hpo Hw. unfold tl_add. rewrite (req_lookup _ _ _ (ho_req _ _ _ _ _ H)).
  destruct (i_size rq =? 0); [by exists rq|]. destruct write.
  2: { exists rq. split_and!; try done. by apply holding_append. }
  specialize (Hw eq_refl). cbv zeta. set (w1 := upd_current_tle_writes _ w).
  assert (holding C K w1 r rq) as H1.
  { eapply holding_frame; [exact H|]. destruct (frame_refl w). split; done. }
  destruct (list_find _ (rev (transfer_log w1))) as [[i r2]|] eqn:Ef.
  2: { exists rq. split_and!; try done. by apply holding_append. }
  destruct (last_write_free C K w1 i r2 (ho_inv _ _ _ _ _ H1) Ef) as (Hin & Hw2 & Hnone). rewrite Hnone.
  rewrite bool_decide_eq_false_2 by (by intros [? ?]). cbn [emit_if].
  destruct (i_tl_live _ _ _ (ho_inv _ _ _ _ _ H1) _ Hin) as (rq2 & Hr2 & Hl2). rewrite (req_lookup _ _ _ Hr2) in Hw2, Hnone.
  assert (r2 <> r) as Hne by (by intros ->).
  set (w2 := upd_transfer_log (fun l => l ++ [r]) w1).
  change (upd_transfer_log _ (upd_req r _ (upd_req r2 ?f w1))) with
    (upd_req r (upd_kref (fun k => k + 1)) (upd_req r2 (upd_destroy_next (fun _ => Some r)) w2)).
  pose proof (holding_append C K w1 r rq H1 Ht Hpo) as H2. fold w2 in H2.
  assert (before w2 r2 r) as Hb.
  { apply list_elem_of_split in Hin as (l1 & l2 & E). exists l1, l2, []. cbn. change (transfer_log w1) with (transfer_log w) in E.
    rewrite E, <- app_assoc. done. }
  destruct H2 as [Hinv2 Hr Hlive Hsub Href HC HK].
  assert (r2 ∉ submit_writes w2) as Hs2.
  { intros Hs. destruct (i_submit _ _ _ Hinv2 _ Hs) as (_ & _ & Hno). apply Hno. cbn. apply elem_of_app. by left. }
  assert (WRITE (local (req w2 r)) = true) as Hwr by (by rewrite (req_lookup _ _ _ Hr)).
  pose proof (inv_link C K w2 r r2 rq2 Hinv2 Hr2 Hl2 Hnone Hb Hw2 Hwr Hs2) as HI.
  set (w3 := upd_req r2 _ w2) in *.
  assert (reqs w3 !! r = Some rq) as Hr3.
  { unfold w3, upd_req. cbn [reqs upd_reqs]. rewrite list_lookup_alter_ne by done. exact Hr. }
  exists (upd_kref (fun k => k + 1) rq). split_and!; try done.
  split; try done; [|by apply (lookup_alter_kref w3 r rq)].
  eapply inv_ext; [..|eapply (inv_eff C (bump r (-1) K) w3 _ r O rq 1)]; try done; [|apply eff_kref].
  intros x. unfold bump. destruct (decide (x = r)); lia.
Qed.

(** ** References from outside *)

Lemma holding_keeps C K K' w w' r rq :
  holding C K w r rq -> keeps None w w' -> inv C K' w' -> (forall x, 0 <= K' x) ->
  exists rq', holding C K' w' r rq' /\ rq_state rq' = rq_state rq /\ i_in_tree rq' = i_in_tree rq.
Proof.
  intros H Hk HI HK'. pose proof (ho_open _ _ _ _ _ H) as Ho. destruct H as [Hinv Hr Hlive Hsub Href HC HK].
  destruct (rest_lookup _ _ _ _ (ke_rest _ _ _ Hk) Hr) as [rq' Hr'].
  destruct (ke_req _ _ _ Hk r rq rq') as [H1 H2]; try done. specialize (H2 Ho). destruct (H1 H2) as (E1 & E2 & E3).
  exists rq'. split_and!; try done. split; try done. by rewrite (re_submit _ _ (ke_rest _ _ _ Hk)).
Qed.

(** Another request on the task's plug. *)
Lemma inv_set_plug C K w n :
  inv C K w -> (forall r, n = Some r -> live w r) ->
  inv C (fun x => K x + b2z (bool_decide (most_recent_req w = Some x)) - b2z (bool_decide (n = Some x)))
    (upd_most_recent_req (fun _ => n) w).
Proof.
  intros [] Hn. split; try done.
  - intros x rq Hx Hd. pose proof (i_req0 _ _ Hx Hd) as []. split; try done. rewrite ro_kref0.
    unfold base_ref, in_refs. cbn [most_recent_req upd_most_recent_req reqs held retry_writes]. lia.
  - intros x rq Hx Hd. destruct (i_gone0 x rq Hx Hd) as (? & ? & ?). split_and!; try done; try tauto.
    cbn. intros E. destruct (Hn _ E) as (q & Hq & Hdq). change (reqs w !! x = Some rq) in Hx. congruence.
  - intros x [Hx|Hx]; [apply i_bounds0; by left|]. cbn in Hx. destruct (Hn _ Hx) as (q & Hq & _). by apply lookup_lt_Some in Hq.
Qed.

(** Other requests held by a walk. *)
Lemma inv_set_held C K w f :
  inv C K w -> (forall r, r ∈ f (held w) -> live w r) ->
  inv C (fun x => K x + count_nat x (held w) - count_nat x (f (held w))) (upd_held f w).
Proof.
  intros [] Hl. split; try done.
  - intros x rq Hx Hd. pose proof (i_req0 _ _ Hx Hd) as []. split; try done. rewrite ro_kref0.
    unfold base_ref, in_refs. cbn [most_recent_req upd_held reqs held retry_writes]. lia.
  - intros x rq Hx Hd. destruct (i_gone0 x rq Hx Hd) as (? & ? & ?). split_and!; try done; try tauto.
    cbn. intros E. destruct (Hl _ E) as (q & Hq & Hdq). change (reqs w !! x = Some rq) in Hx. congruence.
  - intros x [Hx|Hx]; [|apply i_bounds0; by right]. cbn in Hx. destruct (Hl _ Hx) as (q & Hq & _). by apply lookup_lt_Some in Hq.
Qed.

Lemma plugged_live C K w r : inv C K w -> most_recent_req w = Some r -> live w r.
Proof.
  intros Hinv Hm. pose proof (i_bounds _ _ _ Hinv r (or_intror Hm)) as Hb. apply lookup_lt_is_Some_2 in Hb as [rq Hr].
  exists rq. split; [done|]. destruct (destroyed rq) eqn:E; [|done]. by destruct (i_gone _ _ _ Hinv _ _ Hr E) as (_ & ? & _).
Qed.

Lemma held_live C K w r : inv C K w -> r ∈ held w -> live w r.
Proof.
  intros Hinv Hm. pose proof (i_bounds _ _ _ Hinv r (or_introl Hm)) as Hb. apply lookup_lt_is_Some_2 in Hb as [rq Hr].
  exists rq. split; [done|]. destruct (destroyed rq) eqn:E; [|done]. by destruct (i_gone _ _ _ Hinv _ _ Hr E) as (? & _).
Qed.

Lemma bsr_update_plug_ok orc C K w r rq :
  holding C K w r rq ->
  exists rq', holding C K (bsr_update_plug orc r w) r rq' /\ rq_state rq' = rq_state rq.
Proof.
  intros H. unfold bsr_update_plug. destruct H as [Hinv Hr Hlive Hsub Href HC HK].
  set (w1 := upd_req r (upd_kref (fun k => k + 1)) w). set (w2 := upd_most_recent_req _ w1).
  set (rq1 := upd_kref (fun k => k + 1) rq).
  assert (reqs w1 !! r = Some rq1) as Hr1 by (by apply (lookup_alter_kref w r rq)).
  pose proof (inv_eff C K w w1 r O rq 1 Hinv Hr Hlive (eff_kref r O 1 w)) as HI1.
  pose proof (inv_set_plug C _ w1 (Some r) HI1) as HI2. fold w2 in HI2.
  specialize (HI2 ltac:(intros x [= <-]; by exists rq1)). change (most_recent_req w1) with (most_recent_req w) in HI2.
  destruct (most_recent_req w) as [t|] eqn:Em.
  - assert (inv C (bump t 1 K) w2) as HI3.
    { eapply inv_ext; [..|exact HI2]; [done|]. intros x. unfold bump. destruct (decide (x = r)), (decide (x = t)); subst;
        repeat case_bool_decide; simpl; congruence || lia. }
    assert (live w2 t) as (rqt & Hrt & Hlt).
    { destruct (plugged_live C K w t Hinv Em) as (q & Hq & Hd). unfold w2, w1, upd_req, live. cbn.
      destruct (decide (t = r)) as [->|].
      - rewrite list_lookup_alter_eq, Hq. exists (upd_kref (fun k => k + 1) q). done.
      - rewrite list_lookup_alter_ne by done. by exists q. }
    pose proof (kref_sub_keeps orc C K w2 t rqt 1 HI3 Hrt Hlt HC HK) as Kp.
    pose proof (kref_sub_inv orc C K w2 t rqt 1 HI3 Hrt Hlt HC HK) as HI4.
    destruct (holding_keeps C (bump t 1 K) K w2 (kref_sub orc t 1 w2) r rq1) as (rq' & H' & E & _); try done; [|by exists rq'].
    split; try done. intros x. unfold bump. specialize (HK x). destruct (decide _); lia.
  - exists rq1. split; [|done]. split; try done. eapply inv_ext; [..|exact HI2]; [done|].
    intros x. unfold bump. destruct (decide (x = r)); subst; repeat case_bool_decide; simpl; congruence || lia.
Qed.

(** Giving up the reference of submission. *)
Lemma submit_out_inv orc C K w r rq :
  inv (bump r 1 C) K w -> reqs w !! r = Some rq -> destroyed rq = false -> (forall x, 0 <= C x) -> (forall x, 0 <= K x) ->
  inv C K (submit_out orc r w).
Proof.
  intros Hinv Hr Hlive HC HK. unfold submit_out.
  destruct (put_completion_inv C K w r rq 1) as (w' & k & rq' & -> & HI & Hk & Hr' & Hl' & _); try done.
  destruct (Z.eqb_spec k 0) as [->|]; cbn [negb].
  - eapply inv_ext; [..|exact HI]; [done|]. intros x. unfold bump. destruct (decide _); lia.
  - replace k with 1 in HI by lia. by apply (kref_sub_inv orc C K w' r rq' 1).
Qed.

Lemma no_local_mask s : forallb (fun i => negb (bit i s)) [0; 1; 2; 3] = true -> has s RQ_LOCAL_MASK = false.
Proof.
  intros Hb. cbn in Hb. repeat (apply andb_true_iff in Hb as [?%negb_true_iff Hb]).
  change RQ_LOCAL_MASK with (Z.lor (Z.lor (Z.lor RQ_LOCAL_PENDING RQ_LOCAL_COMPLETED) RQ_LOCAL_OK) RQ_LOCAL_ABORTED).
  rewrite !has_or. unfold RQ_LOCAL_PENDING, RQ_LOCAL_COMPLETED, RQ_LOCAL_OK, RQ_LOCAL_ABORTED.
  rewrite !has_bit by done. unfold bit in *.
  unfold __RQ_LOCAL_PENDING, __RQ_LOCAL_COMPLETED, __RQ_LOCAL_OK, __RQ_LOCAL_ABORTED. by rewrite !orb_false_iff.
Qed.

(** [TO_BE_SUBMITTED] *)
Lemma held_to_be_submitted orc C K w r rq :
  holding C K w r rq -> forallb (fun i => negb (bit i (local rq))) [0; 1; 2; 3] = true ->
  exists rq', holding C K (__req_mod orc r TO_BE_SUBMITTED None w) r rq'.
Proof.
  intros H Hb. pose proof (ho_open _ _ _ _ _ H) as Ho. destruct H as [Hinv Hr Hlive Hsub Href HC HK].
  cbv beta iota zeta delta [__req_mod]. rewrite (req_lookup _ _ _ Hr). fold (local rq).
  rewrite (no_local_mask _ Hb). cbn in Hb. repeat (apply andb_true_iff in Hb as [?%negb_true_iff Hb]).
  rewrite d_assert_if by done.
  assert (mod_args None 0 RQ_LOCAL_PENDING (local rq) (state_at rq 0)) as Ha by (split; try done; by rewrite H2).
  destruct (local_event orc C K w r rq Hinv Hr Hlive Hsub HC HK 0 RQ_LOCAL_PENDING) as [HI _]; try done; [by rewrite H2|by left; left|].
  destruct (mod_rq_state_words orc C K w r None 0 RQ_LOCAL_PENDING rq) as (rq' & H3 & H4 & _ & H5 & _); try done.
  - cbn. lia.
  - left. pose proof (pend_nonneg (mod_words (suspended w) None 0 RQ_LOCAL_PENDING rq)). lia.
  - exists rq'. split; try done. by rewrite (sl_submit _ _ H5).
Qed.

Lemma submit_paths_inv orc C K w r rq no_remote :
  holding (bump r 1 C) K w r rq -> (forall x, 0 <= C x) -> forallb (fun i => negb (bit i (local rq))) [0; 1; 2; 3] = true ->
  inv C K (submit_paths orc r no_remote w).
Proof.
  intros H HC Hb. unfold submit_paths. set (w1 := if negb no_remote && _ then _ else _).
  assert (exists rq1, holding (bump r 1 C) K w1 r rq1 /\ rq_state rq1 = rq_state rq) as (rq1 & H1 & E1).
  { unfold w1. destruct (_ && _); [by apply bsr_update_plug_ok|by exists rq]. }
  destruct (negb (private_bio (req w1 r) =? 0)).
  - destruct (held_to_be_submitted orc _ K w1 r rq1 H1) as (rq2 & H2).
    { unfold local, state_at in *. by rewrite E1. }
    destruct H2. eapply inv_frame; [by apply frame_emit|]. by eapply submit_out_inv.
  - destruct H1. by eapply submit_out_inv.
Qed.

(** A flush: every peer is done with it. *)
Lemma barrier_loop_ok orc C K r ps : forall w rq,
  NoDup ps -> (forall p, p ∈ ps -> (S p <= BSR_NODE_ID_MAX)%nat /\ state_at rq (S p) = 0) -> holding C K w r rq ->
  exists rq', holding C K (foldl (fun w p => mod_rq_state orc r (Some p) 0 (Z.lor RQ_NET_OK RQ_NET_DONE) w) w ps) r rq' /\
    local_bits (local rq') = local_bits (local rq).
Proof.
  induction ps as [|p ps IH]; intros w rq Hnd Hps H; [by exists rq|]. apply NoDup_cons in Hnd as [Hnp Hnd]. cbn [foldl].
  destruct (Hps p ltac:(by left)) as [Hp Hz].
  destruct (held_net orc C K w r rq p 0 (Z.lor RQ_NET_OK RQ_NET_DONE) (fun wr pe qu st dn ok si ba oq op => negb pe))
    as (rq' & Hh & Hq & _ & Hb & _); try done.
  { unfold on_bits, bits_of. by rewrite Hz. }
  destruct (fun G => IH _ rq' Hnd G Hh) as (rq2 & H2 & Hb2); [|by exists rq2; rewrite Hb2].
  intros q Hin. destruct (Hps q ltac:(by right)). split; [done|]. rewrite Hq; [done|]. by intros ->.
Qed.

Lemma peer_ids_nodup w : NoDup (peer_ids w).
Proof. apply NoDup_ListNoDup, List.NoDup_filter, seq_NoDup. Qed.

(** The paths of a read. *)
Lemma find_read_peer_eff orc r rbm ps : forall w, eff r O 0 0 0 w (find_read_peer orc r rbm ps w).1.
Proof.
  induction ps as [|p ps IH]; intros w; [apply eff_refl|]. cbn [find_read_peer].
  destruct (peer_of w p) as [c|]; [|apply IH]. destruct (negb _); [apply IH|]. destruct (_ =? 0); [apply eff_refl|].
  destruct (remote_due_to_read_balancing orc w c _ rbm) as [remote rr].
  assert (eff r O 0 0 0 w (upd_READ_BALANCE_RR (fun _ => rr) w)) as E by (by destruct (eff_refl r O w)).
  destruct remote; [done|]. apply (eff_trans r O 0 0 0 0 0 0 _ _ _ E (IH _)).
Qed.

Lemma drop_private_bio_eff r w : eff r O 0 0 0 w (drop_private_bio r w).
Proof.
  unfold drop_private_bio. apply (eff_trans r O 0 0 0 0 0 0 w (upd_req r (upd_private_bio (fun _ => 0)) w)).
  - apply eff_req. intros rq. split; cbn; done || lia.
  - by destruct (eff_refl r O (upd_req r (upd_private_bio (fun _ => 0)) w)).
Qed.

Lemma find_peer_device_for_read_eff orc r w : eff r O 0 0 0 w (find_peer_device_for_read orc r w).1.
Proof.
  unfold find_peer_device_for_read. set (w1 := if _ && _ then drop_private_bio r w else w).
  assert (eff r O 0 0 0 w w1) as E1 by (unfold w1; destruct (_ && _); [apply drop_private_bio_eff|apply eff_refl]).
  clearbody w1. destruct (_ && _ && _); [done|].
  match goal with |- context [find_read_peer orc r ?b ?ps w1] => pose proof (find_read_peer_eff orc r b ps w1) as E2;
    destruct (find_read_peer orc r b ps w1) as [w2 pd] end. cbn [fst] in E2.
  pose proof (eff_trans _ _ _ _ _ _ _ _ _ _ _ E1 E2) as E. destruct pd; [|exact E]. cbn [fst].
  destruct (negb _); [|exact E]. apply (eff_trans _ _ 0 0 0 0 0 0 _ _ _ E (drop_private_bio_eff r w2)).
Qed.

(** I/O is frozen: the request is put off. *)
Lemma held_postpone C K w r rq :
  holding C K w r rq -> (r ∉ transfer_log w) ->
  holding C K (upd_req r (upd_state 0 (fun x => Z.lor x RQ_POSTPONED)) w) r (upd_state 0 (fun x => Z.lor x RQ_POSTPONED) rq).
Proof.
  intros [Hinv Hr Hlive Hsub Href HC HK] Ht. pose proof (i_req _ _ _ Hinv _ _ Hr Hlive) as [].
  destruct (postponed_bits rq (fun x => Z.lor x RQ_POSTPONED)) as (Hlo & Hne & Hpe & How & Hwr & Hwo & Hnp);
    [apply ro_words0|done|].
  split; try done; [|by apply (lookup_alter_kref w r rq)].
  apply (inv_ext (bump r 0 C) (bump r 0 K)); [intros x; unfold bump; destruct (decide (x = r)); lia..|].
  eapply (inv_change C K w _ r O rq (upd_state 0 (fun x => Z.lor x RQ_POSTPONED) rq) 0 0 0 []); try done.
  - apply (alter_as_insert (upd_state 0 (fun x => Z.lor x RQ_POSTPONED)) _ _ _ Hr).
  - intros q c Hc. exists c. split; [done|]. destruct (decide _); lia.
  - intros q. rewrite Hnp. destruct (decide _); lia.
  - by rewrite app_nil_r.
  - auto.
  - rewrite Hpe. cbn. lia.
  - rewrite How. cbn. lia.
  - intros _. rewrite Hlo, bit_lor. by rewrite orb_true_r.
Qed.

(** ** Submission *)

(** A new request whose only reference is the one submission holds. *)
Record starting (C K : nat -> Z) (w : world) (r : nat) (rq : bsr_request) : Prop := mk_starting {
  st_hold : holding (bump r 1 C) K w r rq;
  st_C : forall x, 0 <= C x;
  st_fresh : fresh rq;
  st_tl : r ∉ transfer_log w }.

Lemma nets_zero rq p : length (rq_state rq) = S BSR_NODE_ID_MAX -> Forall (eq 0) (nets rq) -> state_at rq (S p) = 0.
Proof.
  intros Hl Hf. destruct (decide (S p <= BSR_NODE_ID_MAX)%nat).
  - rewrite Forall_forall in Hf. symmetry. apply Hf. eapply list_elem_of_lookup_2. apply nets_lookup. lia.
  - unfold state_at. apply nth_overflow. lia.
Qed.

Lemma local_clear rq b : local_bits (local rq) = b -> firstn 4 b = [false; false; false; false] ->
  forallb (fun i => negb (bit i (local rq))) [0; 1; 2; 3] = true.
Proof.
  intros <- H. unfold local_bits in H. cbn in H. injection H as E1 E2 E3 E4. cbn. by rewrite E1, E2, E3, E4.
Qed.

(** The part of [bsr_send_and_submit] after the request is in the log. *)
Lemma submit_write_inv orc C K w r rq b :
  holding (bump r 1 C) K w r rq -> (forall x, 0 <= C x) -> (forall p, state_at rq (S p) = 0) -> suspended w = false ->
  local_bits (local rq) = [false; false; false; false; true; false] -> master_bio rq = Some b -> i_size rq = bi_size b -> bio_ok b ->
  inv C K (if negb (private_bio (req w r) =? 0) && negb (may_do_writes w) then submit_out orc r (drop_private_bio r w)
    else if i_size (req w r) =? 0 then
      let w := d_assert (match master_bio (req w r) with Some b => bi_preflush b | None => false end) w in
      submit_paths orc r false (emit E_wake_senders (__req_mod orc r QUEUE_AS_BSR_BARRIER None w))
    else
      let '(w, count) := bsr_process_write_request orc r w in
      submit_paths orc r (count =? 0) (emit E_wake_senders w)).
Proof.
  intros H HC Hz Hs Hb Hm Hsz Hbio. pose proof (ho_req _ _ _ _ _ H) as Hr. rewrite (req_lookup _ _ _ Hr).
  destruct (_ && _).
  { destruct (holding_eff _ _ _ _ _ _ _ H (drop_private_bio_eff r w)) as (rq' & [] & _). by eapply submit_out_inv. }
  destruct (Z.eqb_spec (i_size rq) 0) as [H0|H0].
  - rewrite Hm, d_assert_if by (apply Hbio; congruence). cbv beta iota zeta delta [__req_mod].
    pose proof (holding_frame _ _ _ _ _ _ H (start_new_tl_epoch_frame w)) as H1.
    destruct (fun G => barrier_loop_ok orc _ K r (peer_ids (start_new_tl_epoch w)) _ rq (peer_ids_nodup _) G H1) as (rq' & H2 & Hb2).
    { intros p Hp%peer_ids_lt. pose proof (peers_bound _ _ _ (ho_inv _ _ _ _ _ H1)). split; [lia|done]. }
    eapply submit_paths_inv; [eapply holding_frame; [exact H2|by apply frame_emit]|done|].
    eapply local_clear; [exact (eq_trans Hb2 Hb)|done].
  - unfold bsr_process_write_request.
    assert (forall ps w count in_tree, NoDup ps -> submitting (bump r 1 C) K r ps [false; false; false; false; true; false] w ->
      submitting (bump r 1 C) K r [] [false; false; false; false; true; false] (foldl (process_write_to orc r) (w, count, in_tree) ps).1.1) as Hloop.
    { induction ps as [|p ps IH]; intros w1 count in_tree Hnd Hsub; [done|]. cbn [foldl].
      pose proof (process_write_to_ok orc _ K r p ps [false; false; false; false; true; false] w1 count in_tree Hnd eq_refl Hsub) as Hst.
      destruct (process_write_to orc r (w1, count, in_tree) p) as [[w2 count2] in_tree2].
      apply NoDup_cons in Hnd as [_ Hnd]. by apply IH. }
    specialize (Hloop (peer_ids w) w 0 false (peer_ids_nodup w) ltac:(by exists rq)).
    destruct (foldl _ _ _) as [[w2 count] in_tree]. cbn [fst] in Hloop. destruct Hloop as (rq2 & H2 & _ & Hb2 & _).
    eapply submit_paths_inv; [eapply holding_frame; [exact H2|by apply frame_emit]|done|].
    by eapply local_clear.
Qed.

Lemma held_queue_read orc C K w r rq p :
  holding C K w r rq -> (S p <= BSR_NODE_ID_MAX)%nat -> state_at rq (S p) = 0 -> i_in_tree rq = false ->
  forallb (fun i => negb (bit i (local rq))) [0; 1; 2; 3] = true -> WRITE (local rq) = false ->
  exists rq', holding C K (__req_mod orc r QUEUE_FOR_NET_READ (Some p) (__req_mod orc r TO_BE_SENT (Some p) w)) r rq' /\
    local_bits (local rq') = local_bits (local rq).
Proof.
  intros H Hp Hz Ht Hb Hw.
  destruct (held_to_be_sent orc C K w r rq p H Hp Hz) as (rq1 & H1 & _ & Hpe & Hqd & Hb1 & _ & Ht1).
  set (w1 := __req_mod orc r TO_BE_SENT (Some p) w) in *.
  cbv beta iota zeta delta [__req_mod]. rewrite (req_lookup _ _ _ (ho_req _ _ _ _ _ H1)).
  rewrite Ht1, Ht, has_NET_PENDING, Hpe. fold (local rq1).
  assert (has (local rq1) RQ_LOCAL_MASK = false) as ->.
  { apply no_local_mask. unfold local_bits in Hb1. injection Hb1 as E0 E1 E2 E3 _ _. cbn in Hb |- *. by rewrite E0, E1, E2, E3. }
  rewrite !d_assert_if by done.
  pose proof (holding_upd C K w1 r rq1 (upd_i_in_tree (fun _ => true)) H1) as H2. specialize (H2 ltac:(done)).
  destruct (held_net orc C K (upd_req r (upd_i_in_tree (fun _ => true)) w1) r (upd_i_in_tree (fun _ => true) rq1) p 0 RQ_NET_QUEUED
    (fun wr pe qu st dn ok si ba oq op => pe && negb wr) H2) as (rq' & Hh & _ & _ & Hb' & _); try done.
  { unfold on_bits, bits_of. change (state_at (upd_i_in_tree _ rq1) (S p)) with (state_at rq1 (S p)). rewrite Hpe.
    change (local (upd_i_in_tree _ rq1)) with (local rq1). by rewrite (local_bits_inj 11 _ _ Hb1), Hw by (cbn; tauto). }
  exists rq'. split; [done|]. by rewrite Hb'.
Qed.

(** Epoch and dagtag of the request. *)
Definition prepared (r : nat) (write : bool) (w : world) : world :=
  let w := upd_req r (upd_epoch (fun _ => current_tle_nr w)) w in
  let w := if write then upd_res_dagtag_sector (fun x => u64 (x + Z.shiftr (i_size (req w r)) 9)) w else w in
  upd_req r (upd_dagtag_sector (fun _ => res_dagtag_sector w)) w.

Lemma prepared_eff r write w : eff r O 0 0 0 w (prepared r write w).
Proof.
  unfold prepared. cbv zeta. set (w1 := upd_req r (upd_epoch _) w).
  assert (eff r O 0 0 0 w w1) as E1 by (apply eff_req; intros rq; split; cbn; done || lia).
  set (w2 := if write then _ else w1).
  assert (eff r O 0 0 0 w1 w2) as E2 by (unfold w2; destruct write; [by destruct (eff_refl r O w1)|apply eff_refl]).
  clearbody w1 w2. pose proof (eff_trans _ _ _ _ _ _ _ _ _ _ _ E1 E2) as E.
  apply (eff_trans _ _ 0 0 0 0 0 0 _ _ _ E). apply eff_req. intros rq. split; cbn; done || lia.
Qed.

Lemma logged_ok C K w r rq write :
  holding C K w r rq -> (r ∉ transfer_log w) -> POSTPONED (local rq) = false -> (write = true -> WRITE (local rq) = true) ->
  exists rq3, holding C K (tl_add r write (prepared r write w)) r rq3 /\ rq_state rq3 = rq_state rq /\
    i_in_tree rq3 = i_in_tree rq /\ master_bio rq3 = master_bio rq /\ i_size rq3 = i_size rq /\
    suspended (tl_add r write (prepared r write w)) = suspended w.
Proof.
  intros H Ht Hpo Hw. pose proof (prepared_eff r write w) as E. destruct (holding_eff _ _ _ _ _ _ _ H E) as (rq1 & H1 & B).
  destruct (bumped_words _ _ _ _ B) as (El & _). pose proof (ef_lists _ _ _ _ _ _ _ E) as L.
  destruct (tl_add_ok C K _ r rq1 write H1) as (rq2 & H2 & E1 & E2 & E3 & E4 & E5); rewrite ?El; try done.
  { by rewrite (sl_tl _ _ L). }
  exists rq2. destruct B. split_and!; try congruence. rewrite E5. apply L.
Qed.

Lemma find_read_peer_in orc r rbm ps : forall w p, (find_read_peer orc r rbm ps w).2 = Some p -> p ∈ ps.
Proof.
  induction ps as [|p ps IH]; intros w q; [done|]. cbn [find_read_peer]. rewrite elem_of_cons.
  destruct (peer_of w p) as [c|]; [|intros H%IH; tauto]. destruct (negb _); [intros H%IH; tauto|].
  destruct (_ =? 0); [intros [= ->]; tauto|]. destruct (remote_due_to_read_balancing orc w c _ rbm) as [[] rr].
  - intros [= ->]. tauto.
  - intros H%IH. tauto.
Qed.

Lemma peer_ids_stats w w' : peer_stats w' = peer_stats w -> length (peers w') = length (peers w).
Proof. intros E. apply (f_equal length) in E. unfold peer_stats in E. by rewrite !length_map in E. Qed.

Lemma find_read_bound orc r w p : (find_peer_device_for_read orc r w).2 = Some p -> (p < length (peers w))%nat.
Proof.
  unfold find_peer_device_for_read. set (w1 := if _ && _ then drop_private_bio r w else w).
  assert (length (peers w1) = length (peers w)) as El by (unfold w1; by destruct (_ && _)).
  clearbody w1. destruct (_ && _ && _); [done|].
  match goal with |- context [find_read_peer orc r ?b ?ps w1] => pose proof (find_read_peer_in orc r b ps w1) as E2;
    destruct (find_read_peer orc r b ps w1) as [w2 pd] end. cbn [snd] in E2.
  destruct pd; [|done]. intros [= ->]. rewrite <- El. apply peer_ids_lt. by apply E2.
Qed.

(** [bsr_send_and_submit] *)
Lemma bsr_send_and_submit_inv orc C K w r rq :
  starting C K w r rq -> inv C K (bsr_send_and_submit orc r w).
Proof.
  intros [H HC Hf Ht]. pose proof (ho_open _ _ _ _ _ H) as Ho. pose proof (ho_req _ _ _ _ _ H) as Hr.
  pose proof (i_req _ _ _ (ho_inv _ _ _ _ _ H) _ _ Hr (ho_live _ _ _ _ _ H)) as [_ _ (Hlen & _) _ Hbio Hopen _].
  destruct (Hopen Ho) as [b Hm]. destruct (Hbio b Hm) as (Hbo & Hwb & Hsz).
  assert (forall p, state_at rq (S p) = 0) as Hz by (intros p; apply nets_zero; [done|apply Hf]).
  assert (local_bits (local rq) = [false; false; false; false; bio_data_dir_write b; false]) as Hlb.
  { pose proof (fr_local _ Hf) as Hfl. repeat (apply orb_false_iff in Hfl as [Hfl ?]). unfold local_bits. cbn. congruence. }
  unfold bsr_send_and_submit. rewrite (req_lookup _ _ _ Hr), Hm. cbv zeta. destruct (suspended w) eqn:Hsu.
  { set (w1 := upd_req r _ w). pose proof (held_postpone _ _ _ _ _ H Ht) as H1. fold w1 in H1.
    destruct (negb (private_bio (req w1 r) =? 0)).
    - destruct (holding_eff _ _ _ _ _ _ _ H1 (drop_private_bio_eff r w1)) as (rq' & [] & _). by eapply submit_out_inv.
    - destruct H1. by eapply submit_out_inv. }
  assert (POSTPONED (local rq) = false) as Hpo by (by injection Hlb).
  destruct (bio_data_dir_write b) eqn:Hwr; cbn [negb andb].
  - destruct (logged_ok _ _ _ _ _ true H Ht Hpo (fun _ => Hwb)) as (rq3 & H3 & Es & _ & Em & Ez & Esu).
    assert (forall i, state_at rq3 i = state_at rq i) as Est by (intros i; unfold state_at; by rewrite Es).
    change (tl_add r true _) with (tl_add r true (prepared r true w)).
    apply (submit_write_inv orc C K _ r rq3 b); try done; try congruence.
    + unfold local. by rewrite Est.
  - pose proof (find_peer_device_for_read_eff orc r w) as E1. pose proof (find_read_bound orc r w) as Hpb.
    destruct (find_peer_device_for_read orc r w) as [w1 pd]. cbn [fst snd] in *.
    destruct (holding_eff _ _ _ _ _ _ _ H E1) as (rq1 & H1 & B).
    destruct (bool_decide (pd = None) && (private_bio (req w1 r) =? 0)).
    { destruct H1. by eapply submit_out_inv. }
    destruct (bumped_words _ _ _ _ B) as (El & En & _).
    destruct (logged_ok _ _ w1 r rq1 false H1) as (rq3 & H3 & Es & Et & _); [by rewrite (sl_tl _ _ (ef_lists _ _ _ _ _ _ _ E1))|by rewrite El|done|].
    assert (rq_state rq3 = rq_state rq) as Es' by (rewrite Es; apply B).
    assert (forall i, state_at rq3 i = state_at rq i) as Est by (intros i; unfold state_at; by rewrite Es').
    assert (local rq3 = local rq) as El3 by apply Est.
    change (tl_add r false _) with (tl_add r false (prepared r false w1)).
    assert (forallb (fun i => negb (bit i (local rq3))) [0; 1; 2; 3] = true) as Hcl
      by (eapply local_clear; [by rewrite El3; exact Hlb|done]).
    destruct pd as [p|].
    + destruct (held_queue_read orc _ K _ r rq3 p H3) as (rq4 & H4 & Hb4); try done.
      * pose proof (peers_bound _ _ _ (ho_inv _ _ _ _ _ H)). specialize (Hpb p eq_refl). lia.
      * by rewrite Est.
      * rewrite Et, (bu_tree _ _ _ _ B). apply Hf.
      * by rewrite El3.
      * eapply submit_paths_inv; [exact H4|done|]. eapply local_clear; [by rewrite Hb4, El3; exact Hlb|done].
    + by eapply submit_paths_inv.
Qed.
End RequestSubmit.
