(* ===== verification/RequestLife.v ===== *)
(** * Requests from their creation to their end (src/bsr/bsr_req.c, bsr_main.c, bsr_sender.c)

    Creation, the queue of the activity log, retries, completion by the disk
    and walks over the transfer log keep the invariant of [RequestInv]; with
    that, it holds in every reachable state. *)

From S2P Require Import Prelude State Request RequestInv RequestEnd RequestKeep RequestSafe RequestSubmit.

Module RequestLife.
Import State Request RequestInv RequestEnd RequestKeep RequestSafe RequestSubmit.

(** At rest, no code is in the middle of anything. *)
Definition none : nat -> Z := fun _ => 0.

Lemma none_nonneg x : 0 <= none x.
Proof. done. Qed.

(** ** New requests *)

Lemma no_refs C K w : inv C K w -> in_refs w (length (reqs w)) = 0.
Proof.
  intros Hinv. unfold in_refs.
  assert (zsum (points_to (length (reqs w))) (reqs w) = 0) as ->.
  { apply zsum_all_zero. intros rq Hrq. apply list_elem_of_lookup in Hrq as [x Hx]. unfold points_to.
    destruct (destroyed rq) eqn:Hd; [done|]. cbn [negb andb]. rewrite bool_decide_eq_false_2; [done|]. intros Hn.
    destruct (i_chain _ _ _ Hinv x (length (reqs w))) as (Hb & _); [by exists rq|by rewrite (req_lookup _ _ _ Hx)|].
    destruct (before_facts _ _ _ _ _ Hinv Hb) as (_ & Hin & _). destruct (i_tl_live _ _ _ Hinv _ Hin) as (q & Hq & _).
    apply lookup_lt_Some in Hq. lia. }
  assert (count_nat (length (reqs w)) (held w) = 0) as ->.
  { pose proof (count_nat_nonneg (length (reqs w)) (held w)). destruct (decide (length (reqs w) ∈ held w)) as [Hin|Hin].
    - pose proof (i_bounds _ _ _ Hinv _ (or_introl Hin)). lia.
    - pose proof (count_nat_pos (length (reqs w)) (held w)). destruct (decide (0 < count_nat (length (reqs w)) (held w))); [tauto|lia]. }
  rewrite bool_decide_eq_false_2; [done|]. intros Hm. pose proof (i_bounds _ _ _ Hinv _ (or_intror Hm)). lia.
Qed.

Section new_request.
Context (C K : nat -> Z) (w : world) (b : bio) (addr : Z).
Context (Hinv : inv C K w) (HC : C (length (reqs w)) = 0) (HK : K (length (reqs w)) = 0) (Hbio : bio_ok b).
Let r := length (reqs w).
Let w' := (bsr_req_new b addr w).1.

Lemma new_local_bits :
  let s0 := Z.lor (if bio_data_dir_write b then RQ_WRITE else 0)
              (Z.lor (if decide (bio_op b = REQ_OP_WRITE_ZEROES) then RQ_ZEROES else 0)
                     (if decide (bio_op b = REQ_OP_DISCARD) then RQ_UNMAP else 0)) in
  WRITE s0 = bio_data_dir_write b /\
  forallb (fun i => negb (bit i s0)) [0; 1; 2; 3; 4; 5; 6; 7; 8; 9; 17; 18] = true.
Proof. cbv zeta. destruct (bio_data_dir_write b); repeat case_decide; done. Qed.

Lemma new_lookup x : x <> r -> reqs w' !! x = reqs w !! x.
Proof.
  intros Hx. unfold w', bsr_req_new. cbn. destruct (decide (x < r)%nat).
  - by rewrite lookup_app_l.
  - rewrite !(proj2 (lookup_ge_None _ _)); [done|unfold r in *; lia|]. rewrite length_app. cbn. unfold r in *. lia.
Qed.

Lemma new_request_ok : exists rq, reqs w' !! r = Some rq /\ destroyed rq = false /\ fresh rq /\
  completion_ref rq = 1 /\ kref rq = 1 /\ master_bio rq = Some b /\ words_ok rq /\ pend rq = 0 /\ own_refs rq = 0 /\
  WRITE (local rq) = bio_data_dir_write b /\ i_size rq = bi_size b /\ (forall p, net_pending p rq = 0) /\ reqs w' = reqs w ++ [rq].
Proof.
  destruct new_local_bits as [Hw Hb]. set (s0 := Z.lor _ _) in *.
  assert (forall i, In i [0; 1; 2; 3; 4; 5; 6; 7; 8; 9; 17; 18] -> bit i s0 = false) as Hz.
  { rewrite forallb_forall in Hb. intros i Hi. apply negb_true_iff. by apply Hb. }
  eexists. split; [unfold w', bsr_req_new; cbn [fst reqs upd_d_kref upd_req_write_cnt upd_reqs];
    rewrite lookup_app_r by done; unfold r; by rewrite Nat.sub_diag|].
  set (rq := mk_request _ _ _ _ _ _ _ _ _ _ _ _ _ _).
  assert (local rq = s0) as El by done. assert (nets rq = replicate BSR_NODE_ID_MAX 0) as En by done.
  assert (zsum net_pend (nets rq) = 0 /\ zsum net_ref (nets rq) = 0) as [Hp Ho] by (rewrite En; done).
  split_and!; try done.
  - split; try done; [rewrite El, !Hz; [done|cbn; tauto..]|]. rewrite En. by apply Forall_replicate.
  - split; [done|]. split; [rewrite El; unfold net_bits; rewrite !Hz; [done|cbn; tauto..]|].
    rewrite En. apply Forall_replicate. done.
  - unfold pend. rewrite El, Hp, !Hz; [done|cbn; tauto..].
  - unfold own_refs. rewrite El, Ho, Hz; [done|cbn; tauto].
  - intros p. unfold net_pending. rewrite (nets_zero rq p); [done..|]. rewrite En. by apply Forall_replicate.
Qed.

Lemma new_in_refs x : in_refs w' x = in_refs w x.
Proof.
  destruct new_request_ok as (rq & _ & Hd & Hf & _ & _ & _ & _ & _ & _ & _ & _ & _ & E).
  unfold in_refs. rewrite E, zsum_app. cbn [zsum]. unfold points_to at 2. rewrite (fr_next _ Hf), bool_decide_eq_false_2 by done.
  rewrite andb_false_r. cbn [b2z]. change (held w') with (held w). change (most_recent_req w') with (most_recent_req w). lia.
Qed.

Lemma new_inv : inv (bump r 1 C) K w'.
Proof.
  destruct new_request_ok as (rq & Hr & Hd & Hf & Hc & Hk & Hm & Hwo & Hp & Ho & Hw & Hsz & Hnp & E).
  pose proof (no_refs _ _ _ Hinv) as Hnr. pose proof new_in_refs as HI. pose proof new_lookup as HN.
  assert (forall x, live w x -> x <> r) as Hne.
  { intros x (q & Hq & _) ->. apply lookup_lt_Some in Hq. unfold r in Hq. lia. }
  assert (forall x, live w x -> live w' x) as HL.
  { intros x Hx. pose proof (Hne x Hx). destruct Hx as (q & Hq & Hdq). exists q. by rewrite HN. }
  assert (forall x, x <> r -> req w' x = req w x) as HR by (intros; unfold req; by rewrite HN).
  assert ((r ∉ retry_writes w) /\ (r ∉ submit_writes w) /\ (r ∉ transfer_log w)) as (Hre & Hsu & Htl).
  { split_and!; intros Hx; (eapply Hne; [|done]);
      [by apply (i_retry _ _ _ Hinv)|by apply (i_submit _ _ _ Hinv)|by apply (i_tl_live _ _ _ Hinv)]. }
  assert (length (reqs w') = S r) as Hlen by (rewrite E, length_app; cbn; unfold r; lia).
  destruct Hinv. split; try done.
  - intros x q Hx Hdq. destruct (decide (x = r)) as [->|Hxr].
    + rewrite Hr in Hx. injection Hx as <-. rewrite bump_eq. split; try done.
      * rewrite Hc, Hp. change (submit_writes w') with (submit_writes w). rewrite bool_decide_eq_false_2 by done. fold r in HC. cbn [b2z]. lia.
      * rewrite Hk, Ho, HI. unfold base_ref. rewrite Hc. fold r in Hnr, HK. cbn [Z.eqb negb orb b2z]. lia.
      * congruence.
      * intros b' Hb'. rewrite Hm in Hb'. by injection Hb' as <-.
    + rewrite HN in Hx by done. rewrite bump_ne by done. destruct (i_req0 x q Hx Hdq). split; try done.
      by rewrite HI.
  - intros x q Hx Hdq. destruct (decide (x = r)) as [->|Hxr]; [rewrite Hr in Hx; congruence|].
    rewrite HN in Hx by done. by apply i_gone0.
  - intros x Hx. by apply HL, i_tl_live0.
  - intros p q (rqp & Hrp & Hdp) Hn. destruct (decide (p = r)) as [->|Hpr].
    + rewrite (req_lookup _ _ _ Hr), (fr_next _ Hf) in Hn. done.
    + rewrite HN in Hrp by done. rewrite HR in Hn by done.
      destruct (i_chain0 p q (ex_intro _ rqp (conj Hrp Hdp)) Hn) as (Hb & ? & ?). rewrite !HR; [done| |done].
      destruct Hb as (l1 & l2 & l3 & Et). apply Hne, i_tl_live0. rewrite Et, elem_of_app, elem_of_cons, elem_of_app, elem_of_cons. tauto.
  - intros x Hx. destruct (i_retry0 x Hx) as (Hl & ?). rewrite HR by auto. auto.
  - intros x Hx. destruct (i_submit0 x Hx) as (Hl & ?). rewrite HR by auto. auto.
  - intros x Hx. specialize (i_bounds0 x Hx). rewrite Hlen. unfold r. lia.
  - intros q c Hq. rewrite E, zsum_app. cbn [zsum]. rewrite Hnp, (i_pending0 q c Hq). lia.
  - intros x q Hx. destruct (decide (x = r)) as [->|Hxr].
    + rewrite Hr in Hx. injection Hx as <-. rewrite Hm, bool_decide_eq_false_2 by done. by apply i_future0.
    + rewrite HN in Hx by done. by apply i_once0.
  - intros x Hx. apply i_future0. rewrite Hlen in Hx. unfold r in Hx. lia.
  - intros x Hx. destruct (i_peer_ack0 x Hx) as (q & Hq & Hdq). exists q. rewrite HN; [done|]. intros ->. apply lookup_lt_Some in Hq. unfold r in Hq. lia.
Qed.
End new_request.

(** Moving the reference of submission to the queue of the activity log, and back. *)
Lemma queue_inv C K w r rq f :
  inv (bump r 1 C) K w -> reqs w !! r = Some rq -> destroyed rq = false -> fresh rq -> (r ∉ transfer_log w) ->
  (r ∉ submit_writes w) -> inv C K (upd_submit_writes (fun l => l ++ [r]) (upd_ap_actlog_cnt f w)).
Proof.
  intros [] Hr Hd Hf Ht Hs. split; try done.
  - intros x q Hx Hdq. destruct (i_req0 x q Hx Hdq). split; try done. cbn [submit_writes upd_submit_writes upd_ap_actlog_cnt].
    rewrite ro_cref0. unfold bump. destruct (decide (x = r)) as [->|Hne].
    + rewrite bool_decide_eq_false_2, bool_decide_eq_true_2; [simpl; lia|apply elem_of_app; right; by apply list_elem_of_singleton|done].
    + rewrite (bool_decide_ext (x ∈ submit_writes w ++ [r]) (x ∈ submit_writes w)); [done|].
      rewrite elem_of_app, list_elem_of_singleton. tauto.
  - intros x. cbn. rewrite elem_of_app, list_elem_of_singleton. intros [Hx| ->]; [by apply i_submit0|].
    split_and!; [by exists rq| |done]. change (fresh (req w r)). by rewrite (req_lookup _ _ _ Hr).
  - cbn. apply NoDup_app. split_and!; [done| |apply NoDup_singleton]. intros x Hx ->%list_elem_of_singleton. done.
Qed.

Lemma unqueue_inv C K w r :
  inv C K w -> r ∈ submit_writes w -> inv (bump r 1 C) K (upd_submit_writes (filter (.≠ r)) w).
Proof.
  intros [] Hin.
  assert (forall x, x ∈ filter (.≠ r) (submit_writes w) <-> x ∈ submit_writes w /\ x <> r) as HF
    by (intros; rewrite list_elem_of_filter; tauto).
  split; try done.
  - intros x q Hx Hdq. destruct (i_req0 x q Hx Hdq). split; try done. cbn [submit_writes upd_submit_writes].
    rewrite ro_cref0. unfold bump. destruct (decide (x = r)) as [->|Hne].
    + rewrite bool_decide_eq_true_2 by done. rewrite bool_decide_eq_false_2; [simpl; lia|]. rewrite HF. tauto.
    + rewrite (bool_decide_ext (x ∈ filter _ _) (x ∈ submit_writes w)); [done|]. rewrite HF. tauto.
  - intros x [Hx _]%HF. by apply i_submit0.
  - by apply NoDup_filter.
Qed.


(** Bits of the local word that only describe the request. *)
Definition plain (m : Z) : Prop := forall i, In i [0; 1; 2; 3; 4; 5; 6; 7; 8; 9; 11; 17; 18] -> bit i m = false.

Lemma inv_or_local C K w r rq m :
  inv C K w -> reqs w !! r = Some rq -> destroyed rq = false -> plain m ->
  inv C K (upd_req r (upd_state 0 (fun x => Z.lor x m)) w) /\ (fresh rq -> fresh (upd_state 0 (fun x => Z.lor x m) rq)).
Proof.
  intros Hinv Hr Hlive Hm. pose proof (i_req _ _ _ Hinv _ _ Hr Hlive) as [Hcr Hkr (Hlen & Hnb & Hf) Hdn Hbi Hop Hpo].
  set (rq' := upd_state 0 _ rq).
  assert (local rq' = Z.lor (local rq) m) as El by (unfold rq', local; by rewrite state_at_upd, decide_True by lia).
  assert (nets rq' = nets rq) as En by apply nets_upd_0.
  assert (forall i, In i [0; 1; 2; 3; 4; 5; 6; 7; 8; 9; 11; 17; 18] -> bit i (local rq') = bit i (local rq)) as Hb.
  { intros i Hi. by rewrite El, bit_lor, (Hm i Hi), orb_false_r. }
  assert (fresh rq -> fresh rq') as Hfr.
  { intros [H1 H2 H3 H4]. split; rewrite ?En; try done. rewrite !Hb; [done|cbn; tauto..]. }
  split; [|done].
  apply (inv_ext (bump r 0 C) (bump r 0 K)); [intros x; unfold bump; destruct (decide (x = r)); lia..|].
  eapply (inv_change C K w _ r O rq rq' 0 0 0 []); try done.
  - apply (alter_as_insert (upd_state 0 (fun x => Z.lor x m)) _ _ _ Hr).
  - split; try done. apply Hb. cbn. tauto.
  - intros q c Hc. exists c. split; [done|]. destruct (decide _); lia.
  - intros q. unfold net_pending, rq'. rewrite state_at_upd, decide_False by lia. destruct (decide _); lia.
  - by rewrite app_nil_r.
  - split; [by unfold rq'; rewrite length_state_alter|]. split; [unfold net_bits in *; rewrite !Hb; [done|cbn; tauto..]|].
    rewrite En. eapply Forall_impl; [exact Hf|]. intros x. apply net_ok_write. apply Hb. cbn. tauto.
  - unfold pend. rewrite En, !Hb; [change (completion_ref rq') with (completion_ref rq); lia|cbn; tauto..].
  - unfold own_refs. rewrite En, !Hb; [change (kref rq') with (kref rq); lia|cbn; tauto..].
  - rewrite Hb by (cbn; tauto). done.
  - rewrite !Hb by (cbn; tauto). done.
  - intros Hs. destruct (i_submit _ _ _ Hinv _ Hs) as (_ & Hfs & _). rewrite (req_lookup _ _ _ Hr) in Hfs. auto.
Qed.

Lemma plain_pow k : 0 <= k -> forallb (fun i => negb (i =? k)) [0; 1; 2; 3; 4; 5; 6; 7; 8; 9; 11; 17; 18] = true -> plain (Z.shiftl 1 k).
Proof.
  intros Hk Hf i Hi. rewrite forallb_forall in Hf. specialize (Hf i Hi). apply negb_true_iff, Z.eqb_neq in Hf.
  unfold bit. rewrite Z.shiftl_1_l. by apply Z.pow2_bits_false.
Qed.

Lemma starting_actlog C K w r rq : starting C K w r rq ->
  exists rq', starting C K (bsr_req_in_actlog r w) r rq'.
Proof.
  intros [[] ? ? ?]. destruct (inv_or_local _ K w r rq RQ_IN_ACT_LOG ho_inv0 ho_req0 ho_live0) as [HI Hfr]; [by apply plain_pow|].
  exists (upd_state 0 (fun x => Z.lor x RQ_IN_ACT_LOG) rq). split; auto. split; try done. by apply (lookup_alter_kref w r rq).
Qed.

Lemma starting_frame C K w w' r rq : starting C K w r rq -> frame w w' -> starting C K w' r rq.
Proof.
  intros [] F. split; try done; [by eapply holding_frame|]. by rewrite (sl_tl _ _ (fm_lists _ _ F)).
Qed.

Lemma starting_eff C K w w' r rq : starting C K w r rq -> eff r O 0 0 0 w w' -> exists rq', starting C K w' r rq'.
Proof.
  intros [] E. destruct (holding_eff _ _ _ _ _ _ _ st_hold0 E) as (rq' & H' & B). exists rq'. split; try done.
  - destruct (bumped_words _ _ _ _ B) as (El & En & _). destruct st_fresh0, B. split; rewrite ?El, ?En; congruence || done.
  - by rewrite (sl_tl _ _ (ef_lists _ _ _ _ _ _ _ E)).
Qed.

(** [__bsr_make_request] *)
Lemma make_request_inv orc C K w b addr :
  inv C K w -> (forall x, 0 <= C x) -> (forall x, 0 <= K x) -> C (length (reqs w)) = 0 -> K (length (reqs w)) = 0 -> bio_ok b ->
  inv C K (__bsr_make_request orc b addr w).
Proof.
  intros Hinv HC HK HC0 HK0 Hbio. unfold __bsr_make_request, bsr_request_prepare.
  destruct (addr =? 0); [apply (inv_frame _ _ w); [by apply frame_emit|done]|].
  pose proof (new_inv C K w b addr Hinv HC0 HK0 Hbio) as HI.
  destruct (new_request_ok w b addr) as (rq & Hr & Hd & Hf & _ & _ & _ & _ & _ & _ & _ & _ & _ & E).
  set (r := length (reqs w)) in *. change (bsr_req_new b addr w) with ((bsr_req_new b addr w).1, r).
  set (w1 := (bsr_req_new b addr w).1) in *.
  assert ((r ∉ transfer_log w) /\ (r ∉ submit_writes w)) as [Ht Hs].
  { split; intros Hx; [destruct (i_tl_live _ _ _ Hinv _ Hx) as (q & Hq & _)|destruct (i_submit _ _ _ Hinv _ Hx) as ((q & Hq & _) & _)];
      apply lookup_lt_Some in Hq; unfold r in Hq; lia. }
  assert (starting C K w1 r rq) as S1.
  { split; try done. split; try done; [rewrite bump_eq; specialize (HC r); lia|].
    intros x. unfold bump. specialize (HC x). destruct (decide _); lia. }
  set (w2 := if get_ldev_if_state w1 D_INCONSISTENT then _ else _).
  assert (exists rq2, starting C K w2 r rq2) as (rq2 & S2).
  { eapply starting_eff; [exact S1|]. unfold w2. destruct (get_ldev_if_state w1 D_INCONSISTENT).
    - by destruct (eff_refl r O w1).
    - apply eff_req. intros q. split; cbn; done || lia. }
  assert (forall rq w, starting C K w r rq -> inv C K (bsr_queue_write r w)) as Hq.
  { intros rq' w' [[] ? ? ?]. by eapply queue_inv. }
  clearbody w2. destruct (_ || _); [by eapply Hq|]. destruct (bio_data_dir_write b && _); [|by eapply bsr_send_and_submit_inv].
  destruct (NEW_CUR_UUID w2); [by eapply Hq|]. destruct (_ && _); [|by eapply bsr_send_and_submit_inv].
  destruct (negb _); [by eapply Hq|]. destruct (starting_actlog _ _ _ _ _ S2) as (rq3 & S3). by eapply bsr_send_and_submit_inv.
Qed.

Lemma submit_fast_path_inv orc C K w r :
  inv C K w -> (forall x, 0 <= C x) -> (forall x, 0 <= K x) -> r ∈ submit_writes w -> inv C K (submit_fast_path_one orc r w).
Proof.
  intros Hinv HC HK Hin. unfold submit_fast_path_one. destruct (i_submit _ _ _ Hinv _ Hin) as ((rq & Hr & Hd) & Hf & Ht).
  rewrite (req_lookup _ _ _ Hr) in *.
  match goal with |- context [if ?b && _ then w else _] => destruct b end; cbn [andb].
  - destruct (negb _); [done|].
    assert (starting C K (upd_submit_writes (filter (.≠ r)) w) r rq) as S1.
    { split; try done. split; try done; [by apply unqueue_inv|cbn; rewrite list_elem_of_filter; tauto| |].
      - rewrite bump_eq. specialize (HC r). lia.
      - intros x. unfold bump. specialize (HC x). destruct (decide _); lia. }
    destruct (starting_actlog _ _ _ _ _ S1) as (rq' & S2).
    apply (bsr_send_and_submit_inv orc C K _ r rq').
    change (upd_submit_writes _ _) with (upd_ap_actlog_cnt (fun n => n - 1) (bsr_req_in_actlog r (upd_submit_writes (filter (.≠ r)) w))).
    eapply starting_frame; [exact S2|]. by destruct (frame_refl (bsr_req_in_actlog r (upd_submit_writes (filter (.≠ r)) w))).
  - apply (bsr_send_and_submit_inv orc C K _ r rq). split; try done.
    split; try done; [by apply unqueue_inv|cbn; rewrite list_elem_of_filter; tauto| |].
    + rewrite bump_eq. specialize (HC r). lia.
    + intros x. unfold bump. specialize (HC x). destruct (decide _); lia.
Qed.

(** ** Retries *)

Lemma unretry_inv C K w r : inv C K w -> r ∈ retry_writes w -> inv C (bump r 1 K) (upd_retry_writes (filter (.≠ r)) w).
Proof.
  intros Hinv Hin. destruct (i_retry _ _ _ Hinv r Hin) as (Hl & Hc0 & _). destruct Hinv.
  assert (forall x, x ∈ filter (.≠ r) (retry_writes w) <-> x ∈ retry_writes w /\ x <> r) as HF
    by (intros; rewrite list_elem_of_filter; tauto).
  split; try done.
  - intros x q Hx Hdq. destruct (i_req0 x q Hx Hdq). split; try done. rewrite ro_kref0. unfold base_ref, in_refs.
    cbn [retry_writes upd_retry_writes reqs held most_recent_req].
    unfold bump. destruct (decide (x = r)) as [->|Hne].
    + change (reqs w !! r = Some q) in Hx. rewrite (req_lookup _ _ _ Hx) in Hc0. rewrite Hc0.
      rewrite (bool_decide_eq_true_2 (r ∈ retry_writes w)) by done. rewrite (bool_decide_eq_false_2 (r ∈ filter _ _)); [simpl; lia|]. rewrite HF. tauto.
    + rewrite (bool_decide_ext (x ∈ filter _ _) (x ∈ retry_writes w)); [done|]. rewrite HF. tauto.
  - intros x [Hx _]%HF. by apply i_retry0.
Qed.

Lemma do_retry_inv orc w r addr : inv none none w -> r ∈ retry_writes w -> inv none none (do_retry_one orc r addr w).
Proof.
  intros Hinv Hin. destruct (i_retry _ _ _ Hinv r Hin) as ((rq & Hr & Hd) & Hc0 & Hpo & Ht & [b Hb]).
  unfold do_retry_one. rewrite (req_lookup _ _ _ Hr) in *. pose proof (i_req _ _ _ Hinv _ _ Hr Hd) as Hok.
  assert (LP (local rq) && negb (AB (local rq)) = false) as Hlp.
  { apply pend_zero_local. pose proof (ro_cref _ _ _ _ _ Hok) as E. pose proof (pend_nonneg rq).
    pose proof (b2z_nonneg (bool_decide (r ∈ submit_writes w))). unfold none in E. lia. }
  rewrite Hc0, Hb, d_assert_if.
  2: { autorewrite with rq. fold (local rq). rewrite Hpo. destruct (LP (local rq)), (AB (local rq)); done. }
  pose proof (unretry_inv none none w r Hinv Hin) as HI.
  assert (inv none none (kref_sub orc r 1 (upd_retry_writes (filter (.≠ r)) w))) as HI2
    by (by apply (kref_sub_inv orc none none _ r rq 1)).
  apply make_request_inv; try done. by apply (ro_bio _ _ _ _ _ Hok).
Qed.

Lemma unplug_inv orc w : inv none none w -> inv none none (bsr_unplug orc w).
Proof.
  intros Hinv. unfold bsr_unplug. destruct (most_recent_req w) as [r|] eqn:Em; [|done].
  destruct (plugged_live _ _ _ _ Hinv Em) as (rq & Hr & Hd).
  destruct (inv_or_local none none w r rq RQ_UNPLUG Hinv Hr Hd) as [HI _]; [by apply plain_pow|].
  set (w1 := upd_req r _ w) in *. pose proof (inv_set_plug _ _ w1 None HI ltac:(done)) as HI2.
  change (most_recent_req w1) with (most_recent_req w) in HI2. rewrite Em in HI2.
  apply (kref_sub_inv orc none none _ r (upd_state 0 (fun x => Z.lor x RQ_UNPLUG) rq)); try done; [|by apply (lookup_alter_kref w r rq)].
  eapply inv_ext; [..|exact HI2]; [done|]. intros x. unfold bump, none.
  destruct (decide (x = r)) as [->|]; repeat case_bool_decide; simpl; congruence || lia.
Qed.

(** ** Completion by the disk *)

(** When the disk may report: the local part of the request is pending. *)
Definition endio_possible (w : world) (r : nat) : bool := known w r && has (state_at (req w r) 0) RQ_LOCAL_PENDING.

(** A restriction of the runs that no code enforces.  When disk I/O was
    aborted ([tl_abort_disk_io]), the late report of the disk is an error (a
    late success is the "delayed" message of [bsr_request_endio]); it does not
    reach a request that is already completed while I/O is suspended
    (bsr_req.c:1040), nor a completed request of which a peer still waits for
    an out-of-sync notice (bsr_sender.c:835). *)
Definition endio_clear (w : world) (r : nat) (error : Z) : bool :=
  negb (has (state_at (req w r) 0) RQ_LOCAL_ABORTED && (error =? 0)) && busy w r
  && (negb (completion_ref (req w r) =? 0)
      || forallb (fun p => negb (has (state_at (req w r) (S p)) RQ_OOS_PENDING)) (seq 0 BSR_NODE_ID_MAX)).

(** The state of the request in the loop over the peers. *)
Record ending (C K : nat -> Z) (w : world) (r : nat) (rq : bsr_request) : Prop := mk_ending {
  en_inv : inv C K w;
  en_req : reqs w !! r = Some rq;
  en_live : destroyed rq = false;
  en_submit : r ∉ submit_writes w;
  en_pending : LP (local rq) = true;
  en_settled : settled w rq;
  en_open : completion_ref rq <> 0 \/ forall p, OOSP (state_at rq (S p)) = false }.

Lemma endio_oos_ok orc C K w r rq p :
  ending C K w r rq -> (forall x, 0 <= C x) -> (forall x, 0 <= K x) -> p ∈ peer_ids w ->
  exists rq', ending C K (endio_oos orc r w p) r rq' /\ keeps (Some r) w (endio_oos orc r w p).
Proof.
  intros [Hinv Hr Hlive Hsub Hlp Hse Hop] HC HK Hp%peer_ids_lt. pose proof (peers_bound _ _ _ Hinv) as Hb.
  unfold endio_oos. rewrite (req_lookup _ _ _ Hr), has_OOSP. destruct (at_least_version w (Some p) 113 && OOSP (state_at rq (S p))) eqn:Ev.
  2: { exists rq. split; [done|apply keep_refl]. }
  apply andb_true_iff in Ev as [_ Ho]. destruct Hop as [Hop|Hop]; [|by rewrite Hop in Ho].
  set (w1 := emit _ w). assert (frame w w1) as F by (by apply frame_emit).
  pose proof (inv_frame _ _ _ _ F Hinv) as Hinv1.
  assert (settled w1 rq) as Hse1 by (by left).
  pose proof (ev_net C K w r rq Hinv Hr Hlive p ltac:(lia)) as Hn. destruct (no_oosp _ _ Hn Ho) as [Hba Hdn].
  cbv beta iota zeta delta [__req_mod].
  set (pre := fun wr pe qu st dn ok si ba oq op : bool => op).
  assert (on_bits pre (bits_of (local rq) (state_at rq (S p))) = true) as Hpre by (unfold on_bits, bits_of, pre; by rewrite Ho).
  destruct (net_event orc C K w1 r rq Hinv1 Hr Hlive Hsub HC HK p (Z.lor RQ_OOS_PENDING RQ_NET_PENDING)
    (Z.lor RQ_OOS_NET_QUEUED RQ_NET_QUEUED) pre) as [HI Hk]; try done; [lia|by left|].
  destruct (net_event_words orc C K w1 r rq Hinv1 Hr Hlive Hsub HC HK p (Z.lor RQ_OOS_PENDING RQ_NET_PENDING)
    (Z.lor RQ_OOS_NET_QUEUED RQ_NET_QUEUED) pre) as (rq' & Hr' & Hl' & Hq & Hn' & Hbits & Hls & _); try done; [lia|by left| |].
  { right; left. cbv zeta. unfold new_word. rewrite !bit_mod, !bit_not_0 by done. by rewrite !orb_true_r. }
  assert (LP (local rq') = true) as Hlp' by (by rewrite Hbits).
  assert (completion_ref rq' <> 0) as Hop'.
  { destruct Hn' as [Hn'|[_ ->]]; [|done].
    apply (net_open C K _ r rq' HI Hr' Hl' HC p); [lia|]. rewrite Hn'. unfold new_word. rewrite !bit_mod, !bit_not_0 by done.
    by rewrite !orb_true_r. }
  exists rq'. split; [split; try done|].
  - by rewrite (sl_submit _ _ Hls).
  - by left.
  - by left.
  - eapply keep_trans; [by apply keeps_weaken, frame_keeps|exact Hk].
Qed.

Lemma peer_of_stats w p : is_Some (peer_of w p) <-> is_Some (mjoin (peer_stats w !! p)).
Proof.
  unfold peer_of, peer_stats. rewrite list_lookup_fmap. destruct (peers w !! p) as [[c|]|]; cbn; split; intros [? ?]; done || by eexists.
Qed.

Lemma peer_of_same w w' p : peer_stats w' = peer_stats w -> is_Some (peer_of w p) -> is_Some (peer_of w' p).
Proof. intros E. by rewrite !peer_of_stats, E. Qed.

Lemma peer_ids_same w w' p : rest w w' -> p ∈ peer_ids w -> p ∈ peer_ids w'.
Proof.
  intros R. unfold peer_ids. rewrite !list_elem_of_In, !filter_In, !in_seq, !bool_decide_eq_true.
  rewrite (peer_ids_stats _ _ (re_peers _ _ R)). intros [? ?]. split; [done|]. by apply (peer_of_same w); [apply R|].
Qed.

Lemma endio_loop_ok orc C K r ps : forall w rq,
  ending C K w r rq -> (forall x, 0 <= C x) -> (forall x, 0 <= K x) -> (forall p, p ∈ ps -> p ∈ peer_ids w) ->
  exists rq', ending C K (foldl (endio_oos orc r) w ps) r rq'.
Proof.
  induction ps as [|p ps IH]; intros w rq H HC HK Hps; [by exists rq|]. cbn [foldl].
  destruct (endio_oos_ok orc C K w r rq p H HC HK) as (rq' & H' & Hk); [apply Hps; by left|].
  apply (IH _ rq'); try done. intros q Hq. apply (peer_ids_same w); [apply (ke_rest _ _ _ Hk)|]. apply Hps. by right.
Qed.

Lemma endio_event_inv orc C K w r rq b error :
  ending C K w r rq -> (forall x, 0 <= C x) -> (forall x, 0 <= K x) ->
  inv C K (__req_mod orc r (endio_event b error) None w).
Proof.
  intros [Hinv Hr Hlive Hsub Hlp Hse Hop] HC HK.
  assert (forall w', frame w w' -> settled w' rq) as Hse'.
  { intros w' F. destruct Hse as [?|?]; [by left|right]. by rewrite (sl_susp _ _ (fm_lists _ _ F)). }
  assert (forall w', frame w w' -> inv C K (mod_rq_state orc r None RQ_LOCAL_PENDING RQ_LOCAL_COMPLETED w')) as Hfail.
  { intros w' F. apply (local_event orc C K w' r rq); try done.
    - by apply (inv_frame _ _ _ _ F).
    - by rewrite (fm_reqs _ _ F).
    - by rewrite (sl_submit _ _ (fm_lists _ _ F)).
    - left. by apply Hse'. }
  assert (frame w (bsr_report_io_error w)) as Fr.
  { unfold bsr_report_io_error. destruct (_ <? _); [|apply frame_refl]. by destruct (frame_refl w). }
  unfold endio_event. destruct (error =? 0).
  - cbv beta iota zeta delta [__req_mod]. set (w' := if has _ RQ_WRITE then _ else _).
    assert (frame w w') as F by (unfold w'; destruct (has _ RQ_WRITE); by destruct (frame_refl w)).
    apply (local_event orc C K w' r rq); try done.
    + by apply (inv_frame _ _ _ _ F).
    + by rewrite (fm_reqs _ _ F).
    + by rewrite (sl_submit _ _ (fm_lists _ _ F)).
    + left. by apply Hse'.
  - destruct (bio_op b); [destruct (bi_rahead b)| |destruct (_ =? _)..]; cbv beta iota zeta delta [__req_mod];
      apply Hfail; try apply frame_refl.
    + eapply frame_trans; [by apply (frame_emit (E_set_all_out_of_sync (i_sector (req w r)) (i_size (req w r))))|].
      eapply frame_trans; [|by apply frame_emit]. unfold bsr_report_io_error.
      destruct (_ <? _); [|apply frame_refl]. by destruct (frame_refl (emit (E_set_all_out_of_sync (i_sector (req w r)) (i_size (req w r))) w)).
    + eapply frame_trans; [exact Fr|]. by apply frame_emit.
Qed.

Lemma endio_inv orc w r b error : inv none none w -> endio_possible w r = true -> endio_clear w r error = true ->
  inv none none (bsr_request_endio orc r b error w).
Proof.
  intros Hinv Hg Hc. unfold endio_possible in Hg. unfold endio_clear in Hc. apply andb_true_iff in Hg as [Hg H2].
  apply andb_true_iff in Hc as [Hc H]. apply andb_true_iff in Hc as [H1 H0].
  destruct (known_spec _ _ Hg) as (rq & Hr & Hlive & Hq & Hsub).
  rewrite Hq in *. autorewrite with rq in *. fold (local rq) in *.
  unfold bsr_request_endio. rewrite Hq. fold (local rq). rewrite has_LOCAL_ABORTED. rewrite (proj1 (negb_true_iff _) H1). cbn [emit_if].
  set (w1 := upd_req r _ w). set (rq1 := upd_private_bio (fun _ => error) rq).
  assert (ending none none w1 r rq1) as H3.
  { split; try done.
    - eapply inv_ext; [..|eapply (inv_eff none none w w1 r O rq 0)]; try done.
      + intros x. unfold bump, none. destruct (decide _); lia.
      + apply eff_req. intros q. split; cbn; done || lia.
    - by apply (lookup_alter_kref w r rq).
    - by apply (busy_settled w r rq).
    - apply orb_true_iff in H as [H|H]; [left; by apply negb_true_iff, Z.eqb_neq in H|right].
      rewrite forallb_forall in H. intros p. destruct (decide (p < BSR_NODE_ID_MAX)%nat).
      + specialize (H p). apply negb_true_iff. rewrite <- has_OOSP. apply H. apply in_seq. lia.
      + change (state_at rq1 (S p)) with (state_at rq (S p)). unfold state_at. rewrite nth_overflow; [done|].
        destruct (ro_words _ _ _ _ _ (i_req _ _ _ Hinv _ _ Hr Hlive)) as (-> & _). lia. }
  destruct (endio_loop_ok orc none none r (peer_ids w1) w1 rq1 H3) as (rq2 & H4); try done.
  assert (forall x, frame x (put_ldev x)) as Fp by (intros x; by destruct (frame_refl x)).
  eapply inv_frame; [apply Fp|by eapply endio_event_inv].
Qed.

End RequestLife.
