(* ===== verification/RequestWalk.v ===== *)
(** * Walks over the transfer log (src/bsr/bsr_main.c)

    [tl_for_each_req_ref] keeps a reference on the next request only.  Every
    request that is in the log when the walk comes to it is visited, the walk
    ends, and all references are given back. *)

From S2P Require Import Prelude State Request RequestInv RequestEnd RequestKeep RequestSafe RequestSubmit RequestLife.

Module RequestWalk.
Import State Request RequestInv RequestEnd RequestKeep RequestSafe RequestSubmit RequestLife.

Definition word (w : world) (x : nat) : list Z := rq_state (req w x).

(** [keeps] without the references from outside. *)
Record soft (e : option nat) (w w' : world) : Prop := mk_soft {
  so_susp : suspended w' = suspended w;
  so_peers : peer_stats w' = peer_stats w;
  so_tl : sublist (transfer_log w') (transfer_log w);
  so_in : forall x, x ∈ transfer_log w -> e <> Some x -> live w' x -> x ∈ transfer_log w';
  so_word : forall x, live w x -> live w' x -> e <> Some x -> word w' x = word w x }.

Lemma keeps_soft e w w' : keeps e w w' -> soft e w w'.
Proof.
  intros [R T I Q]. split; try done; [apply R..|]. intros x (rq & Hx & Hd) (rq' & Hx' & Hd') He.
  unfold word. rewrite (req_lookup _ _ _ Hx), (req_lookup _ _ _ Hx'). by apply (Q x rq rq').
Qed.

Lemma sublist_at (l l1 l2 : list nat) n :
  sublist l (l1 ++ n :: l2) -> NoDup (l1 ++ n :: l2) -> n ∈ l ->
  exists l1' l2', l = l1' ++ n :: l2' /\ sublist l1' l1 /\ sublist l2' l2.
Proof.
  intros Hs Hnd Hin. apply sublist_app_r in Hs as (a & b & -> & Ha & Hb).
  apply NoDup_app in Hnd as (_ & Hd & Hnd). apply NoDup_cons in Hnd as [Hn _].
  apply sublist_cons_r in Hb as [Hb|(b' & -> & Hb)]; [|by exists a, b'].
  apply elem_of_app in Hin as [Hin|Hin]; exfalso.
  - apply (Hd n); [by eapply sublist_subseteq|by left].
  - apply Hn. by eapply sublist_subseteq.
Qed.

(** The successor in the log, while both are in it. *)
Lemma tl_after_at l1 n l2 : NoDup (l1 ++ n :: l2) -> tl_after n (l1 ++ n :: l2) = Some l2.
Proof.
  induction l1 as [|x l1 IH]; cbn; intros Hnd; [by rewrite decide_True|]. apply NoDup_cons in Hnd as [Hx Hnd].
  rewrite decide_False; [by apply IH|]. intros ->. apply Hx, elem_of_app. right. by left.
Qed.

Lemma sublist_head (l l2 : list nat) m : sublist l l2 -> NoDup l2 -> head l2 = Some m -> m ∈ l -> head l = Some m.
Proof.
  intros Hs Hnd Hh Hin. destruct l2 as [|m' l2]; [done|]. injection Hh as ->. apply NoDup_cons in Hnd as [Hn _].
  apply sublist_cons_r in Hs as [Hs|(l' & -> & _)]; [|done]. exfalso. apply Hn. by eapply sublist_subseteq.
Qed.

(** ** Giving the reference on to the next request *)

Definition next_held (next : option nat) (h : list nat) : list nat := match next with Some m => m :: h | None => h end.

Lemma hold_ok w next :
  inv none none w -> (forall m, next = Some m -> live w m) ->
  inv none none (hold next w) /\ soft None w (hold next w) /\ held (hold next w) = next_held next (held w) /\
  (forall x, live w x -> live (hold next w) x).
Proof.
  intros Hinv Hl. destruct next as [m|]; [|split_and!; try done; apply keeps_soft, keep_refl].
  destruct (Hl m eq_refl) as (rq & Hm & Hd). cbn [hold]. set (w1 := upd_req m (upd_kref (fun k => k + 1)) w).
  pose proof (inv_eff none none w w1 m O rq 1 Hinv Hm Hd (eff_kref m O 1 w)) as HI1.
  assert (forall x, live w x -> live w1 x) as HL.
  { intros x (q & Hq & Hdq). unfold w1, upd_req, live. cbn. destruct (decide (x = m)) as [->|].
    - exists (upd_kref (fun k => k + 1) q). by rewrite list_lookup_alter_eq, Hq.
    - exists q. by rewrite list_lookup_alter_ne. }
  split_and!; try done.
  - eapply inv_ext; [..|apply (inv_set_held _ _ w1 (cons m) HI1)]; [done| |].
    + intros x. change (held w1) with (held w). unfold bump, none, count_nat. cbn [zsum].
      destruct (decide (x = m)) as [->|]; [rewrite bool_decide_eq_true_2 by done|rewrite bool_decide_eq_false_2 by congruence]; simpl; lia.
    + intros x [->|Hx]%elem_of_cons; [by apply HL; exists rq|]. apply HL. by apply (held_live none none).
  - split; try done. intros x (q & Hq & _) (q' & Hq' & _) _. unfold word. rewrite (req_lookup _ _ _ Hq), (req_lookup _ _ _ Hq').
    change (reqs w1 !! x = Some q') in Hq'. unfold w1, upd_req in Hq'. cbn in Hq'. destruct (decide (x = m)) as [->|].
    + rewrite list_lookup_alter_eq, Hq in Hq'. by injection Hq' as <-.
    + rewrite list_lookup_alter_ne, Hq in Hq' by done. by injection Hq' as <-.
Qed.

Lemma unhold_ok orc w n :
  inv none none w -> n ∈ held w ->
  inv none none (unhold orc n w) /\ keeps None (upd_held (fun l => remove_one n l) w) (unhold orc n w).
Proof.
  intros Hinv Hn. unfold unhold. destruct (held_live _ _ _ _ Hinv Hn) as (rq & Hr & Hd).
  assert (inv none (bump n 1 none) (upd_held (fun l => remove_one n l) w)) as HI.
  { eapply inv_ext; [..|apply (inv_set_held _ _ w (fun l => remove_one n l) Hinv)]; [done| |].
    - intros x. cbv beta. rewrite count_nat_remove_one by done. unfold bump, none.
      destruct (decide (x = n)) as [->|]; [rewrite bool_decide_eq_true_2 by done|rewrite bool_decide_eq_false_2 by congruence]; simpl; lia.
    - intros x Hx. cbv beta in Hx. apply (held_live none none w x Hinv). apply count_nat_pos. apply count_nat_pos in Hx.
      rewrite count_nat_remove_one in Hx by done. pose proof (b2z_nonneg (bool_decide (n = x))). lia. }
  split; [by apply (kref_sub_inv orc none none _ n rq 1)|by apply (kref_sub_keeps orc none none _ n rq 1)].
Qed.

Lemma soft_trans e w1 w2 w3 : soft e w1 w2 -> soft e w2 w3 -> (forall x, live w3 x -> live w2 x) -> soft e w1 w3.
Proof.
  intros [S1 P1 T1 I1 W1] [S2 P2 T2 I2 W2] HL. split; try congruence.
  - by etrans.
  - intros x Hx He H3. apply I2; auto.
  - intros x H1 H3 He. rewrite W2, W1; auto.
Qed.


(** One turn of the loop in [__tl_next_req_ref]. *)
Lemma shift_ok orc w l1 n l2 h :
  inv none none w -> transfer_log w = l1 ++ n :: l2 -> held w = n :: h ->
  let w' := unhold orc n (hold (head l2) w) in
  inv none none w' /\ soft None w w' /\ held w' = next_held (head l2) h /\ (forall x, live w' x -> live w x) /\
  length (reqs w') = length (reqs w).
Proof.
  intros Hinv Ht Hh. cbv zeta. pose proof (i_tl _ _ _ Hinv) as Hnd. rewrite Ht in Hnd.
  assert (forall m, head l2 = Some m -> m <> n /\ live w m) as Hm.
  { intros m Hm. destruct l2 as [|m' l2]; [done|]. injection Hm as ->. split.
    - apply NoDup_app in Hnd as (_ & _ & Hnd). apply NoDup_cons in Hnd as [Hnd _]. intros ->. apply Hnd. by left.
    - apply (i_tl_live _ _ _ Hinv). rewrite Ht, elem_of_app, !elem_of_cons. tauto. }
  destruct (hold_ok w (head l2) Hinv) as (HI1 & S1 & Hh1 & HL1); [by intros m [_ ?]%Hm|].
  assert (n ∈ held (hold (head l2) w)) as Hin.
  { rewrite Hh1, Hh. unfold next_held. destruct (head l2); [right|]; by left. }
  destruct (unhold_ok orc _ n HI1 Hin) as [HI2 K2].
  assert (held (unhold orc n (hold (head l2) w)) = next_held (head l2) h) as Hh2.
  { rewrite (re_held _ _ (ke_rest _ _ _ K2)). cbn [held upd_held]. rewrite Hh1, Hh. unfold next_held.
    destruct (head l2) as [m|] eqn:Em; cbn [remove_one]; [|by rewrite decide_True].
    destruct (Hm m eq_refl) as [Hne _]. rewrite decide_False by done. by rewrite decide_True. }
  assert (forall x, live (hold (head l2) w) x -> live w x) as HL1'.
  { intros x (q & Hq & Hd). destruct (head l2) as [m|]; [|by exists q]. cbn [hold] in Hq. unfold upd_req in Hq. cbn in Hq.
    destruct (decide (x = m)) as [->|].
    - destruct (Hm m eq_refl) as [_ ?]. done.
    - rewrite list_lookup_alter_ne in Hq by done. by exists q. }
  pose proof (keeps_soft _ _ _ K2) as S2.
  assert (forall x, live (unhold orc n (hold (head l2) w)) x -> live (hold (head l2) w) x) as HL2.
  { intros x Hx. apply (rest_live _ _ x (ke_rest _ _ _ K2) Hx). }
  split_and!; try done; [|auto|].
  - apply (soft_trans None w (hold (head l2) w)); [done| |done]. by destruct S2.
  - rewrite (re_len _ _ (ke_rest _ _ _ K2)). destruct (head l2); [|done]. cbn. apply length_alter.
Qed.

Section walk.
Context (orc : oracle) (body : nat -> world -> option world) (P R : list Z -> Prop).
Context (Q : bool -> list (option (bsr_disk_state * bsr_repl_state)) -> Prop).
Context (Hbody : forall w r, inv none none w -> r ∈ transfer_log w -> P (word w r) -> Q (suspended w) (peer_stats w) ->
  forall w', body r w = Some w' -> good none none r w w' /\ (r ∈ transfer_log w' -> R (word w' r))).

(** The walk has come to [r]; [l1] is behind it. *)
Record at_req (w : world) (l1 : list nat) (r : nat) (l2 h : list nat) : Prop := mk_at_req {
  aq_inv : inv none none w;
  aq_tl : transfer_log w = l1 ++ r :: l2;
  aq_held : held w = next_held (head l2) h;
  aq_done : forall x, x ∈ l1 -> R (word w x);
  aq_todo : forall x, x ∈ r :: l2 -> P (word w x);
  aq_env : Q (suspended w) (peer_stats w) }.

(** The walk has a reference on [n]. *)
Record before_req (w : world) (l1 : list nat) (n : nat) (l2 h : list nat) : Prop := mk_before_req {
  br_inv : inv none none w;
  br_tl : transfer_log w = l1 ++ n :: l2;
  br_held : held w = n :: h;
  br_done : forall x, x ∈ l1 -> R (word w x);
  br_todo : forall x, x ∈ n :: l2 -> P (word w x);
  br_env : Q (suspended w) (peer_stats w) }.

(** The walk is over. *)
Record walked (w : world) (h : list nat) : Prop := mk_walked {
  wk_inv : inv none none w;
  wk_held : held w = h;
  wk_done : forall x, x ∈ transfer_log w -> R (word w x);
  wk_env : Q (suspended w) (peer_stats w) }.

Lemma walk_advance_ok fuel : forall w l1 n l2 h,
  before_req w l1 n l2 h -> (length l2 < fuel)%nat ->
  match __tl_next_req_ref orc fuel (Some n) w with
  | (w', None) => walked w' h
  | (w', Some (r, next)) => exists l1' l2', next = head l2' /\ at_req w' l1' r l2' h /\ (length l2' <= length l2)%nat
  end.
Proof.
  induction fuel as [|fuel IH]; intros w l1 n l2 h [Hinv Ht Hh Hd Hp HQ] Hf; [lia|]. cbn [__tl_next_req_ref].
  pose proof (i_tl _ _ _ Hinv) as Hnd. assert (tl_next w n = head l2) as Hnx.
  { unfold tl_next. rewrite Ht in Hnd |- *. by rewrite tl_after_at. }
  rewrite Hnx. destruct (shift_ok orc w l1 n l2 h Hinv Ht Hh) as (HI & S & Hh' & HL & Hlen).
  set (w' := unhold orc n (hold (head l2) w)) in *.
  assert (Q (suspended w') (peer_stats w')) as HQ' by (by rewrite (so_susp _ _ _ S), (so_peers _ _ _ S)).
  assert (forall x, x ∈ transfer_log w' -> word w' x = word w x) as Hw.
  { intros x Hx. pose proof (i_tl_live _ _ _ HI _ Hx). apply (so_word _ _ _ S); auto. }
  assert (forall m, head l2 = Some m -> m ∈ transfer_log w') as Hm.
  { intros m E. apply (so_in _ _ _ S); [|done|].
    - destruct l2; [done|]. injection E as ->. rewrite Ht, elem_of_app, !elem_of_cons. tauto.
    - apply (held_live none none); [done|]. rewrite Hh', E. by left. }
  pose proof (so_tl _ _ _ S) as Hs. rewrite Ht in Hs, Hnd. pose proof (NoDup_app l1 (n :: l2)) as [HA _].
  destruct (HA Hnd) as (_ & _ & Hnd2). apply NoDup_cons in Hnd2 as [Hnn Hnd2].
  destruct (destroyed (req w' n)) eqn:Hdn.
  - assert (n ∉ transfer_log w') as Hni.
    { intros Hin. destruct (i_tl_live _ _ _ HI _ Hin) as (q & Hq & Hdq). rewrite (req_lookup _ _ _ Hq) in Hdn. congruence. }
    assert (sublist (transfer_log w') (l1 ++ l2)) as Hs2.
    { apply sublist_app_r in Hs as (a & b & E & Ha & Hb). rewrite E. apply sublist_app; [done|].
      apply sublist_cons_r in Hb as [Hb|(b' & -> & Hb)]; [done|]. exfalso. apply Hni. rewrite E, elem_of_app, elem_of_cons. tauto. }
    destruct l2 as [|m l2]; cbn [head].
    + rewrite app_nil_r in Hs2. destruct fuel; cbn [__tl_next_req_ref].
      all: split; try done; intros x Hx; rewrite Hw by done; apply Hd; by eapply sublist_subseteq.
    + specialize (Hm m eq_refl).
      destruct (sublist_at _ l1 l2 m Hs2) as (a & b & E & Ha & Hb); [|done|].
      { apply NoDup_app in Hnd as (? & Hdis & Hnd). apply NoDup_app. split_and!; [done|intros x Hx Hx2; by apply (Hdis x Hx); right|done]. }
      assert (before_req w' a m b h) as B.
      { split; try done.
        - intros x Hx. rewrite Hw by (rewrite E, elem_of_app; tauto). apply Hd. by eapply sublist_subseteq.
        - intros x Hx. rewrite Hw by (rewrite E, elem_of_app; tauto). apply Hp. right.
          apply elem_of_cons in Hx as [->|Hx]; [by left|right]. by eapply sublist_subseteq. }
      apply sublist_length in Hb. cbn [length] in *. specialize (IH w' a m b h B ltac:(lia)).
      destruct (__tl_next_req_ref orc fuel (Some m) w') as [w2 [[r next]|]]; [|done].
      destruct IH as (l1' & l2' & ? & ? & ?). exists l1', l2'. split_and!; try done. lia.
  - assert (live w' n) as Hln.
    { destruct (held_live none none w n Hinv) as (q & Hq & _); [rewrite Hh; by left|].
      apply lookup_lt_Some in Hq. rewrite <- Hlen in Hq. apply lookup_lt_is_Some_2 in Hq as [q' Hq'].
      exists q'. split; [done|]. by rewrite (req_lookup _ _ _ Hq') in Hdn. }
    pose proof (so_in _ _ _ S n ltac:(rewrite Ht, elem_of_app, elem_of_cons; tauto) ltac:(done) Hln) as Hin.
    destruct (sublist_at _ l1 l2 n Hs Hnd Hin) as (a & b & E & Ha & Hb).
    assert (head b = head l2) as Ehd.
    { destruct (head l2) as [m|] eqn:Em.
      - apply (sublist_head b l2 m Hb Hnd2 Em). specialize (Hm m eq_refl). rewrite E, elem_of_app, elem_of_cons in Hm.
        destruct Hm as [Hm|[->|Hm]]; [|destruct l2; [done|]; injection Em as ->; exfalso; apply Hnn; by left|done].
        exfalso. destruct (HA Hnd) as (_ & Hdis & _). apply (Hdis m); [by eapply sublist_subseteq|]. right.
        destruct l2; [done|]. injection Em as ->. by left.
      - destruct l2; [|done]. by apply sublist_nil_r in Hb as ->. }
    exists a, b. split_and!; [done| |by apply sublist_length].
    split; try done.
    + by rewrite Ehd.
    + intros x Hx. rewrite Hw by (rewrite E, elem_of_app; tauto). apply Hd. by eapply sublist_subseteq.
    + intros x Hx. rewrite Hw by (rewrite E, elem_of_app; tauto). apply Hp.
      apply elem_of_cons in Hx as [->|Hx]; [by left|right]. by eapply sublist_subseteq.
Qed.

(** The body at [r], and on to the next request. *)
Lemma walk_step w l1 r l2 h w1 :
  at_req w l1 r l2 h -> body r w = Some w1 ->
  match __tl_next_req_ref orc (S (length (transfer_log w1))) (head l2) w1 with
  | (w2, None) => walked w2 h
  | (w2, Some (r', next)) => exists l1' l2', next = head l2' /\ at_req w2 l1' r' l2' h /\ (length l2' < length l2)%nat
  end.
Proof.
  intros [Hinv Ht Hh Hd Hp HQ] Eb. assert (r ∈ transfer_log w) as Hin by (rewrite Ht, elem_of_app, elem_of_cons; tauto).
  destruct (Hbody w r Hinv Hin ltac:(apply Hp; by left) HQ w1 Eb) as [[HI1 K1] HR1].
  pose proof (keeps_soft _ _ _ K1) as So. pose proof (i_tl _ _ _ Hinv) as Hnd. pose proof (so_tl _ _ _ So) as Hs.
  rewrite Ht in Hs, Hnd.
  assert (Q (suspended w1) (peer_stats w1)) as HQ1 by (by rewrite (so_susp _ _ _ So), (so_peers _ _ _ So)).
  assert (forall x, x ∈ transfer_log w1 -> x <> r -> word w1 x = word w x) as Hw.
  { intros x Hx Hne. pose proof (i_tl_live _ _ _ HI1 _ Hx). apply (so_word _ _ _ So); [|done|congruence].
    by apply (rest_live w w1 x (ke_rest _ _ _ K1)). }
  assert (forall a x, sublist a (l1 ++ [r]) -> x ∈ a -> x ∈ transfer_log w1 -> R (word w1 x)) as HR.
  { intros a x Ha Hx Hx1. destruct (decide (x = r)) as [->|Hne]; [auto|]. rewrite Hw by done. apply Hd.
    assert (x ∈ l1 ++ [r]) as Hi by (by eapply sublist_subseteq). rewrite elem_of_app, list_elem_of_singleton in Hi. tauto. }
  assert (held w1 = next_held (head l2) h) as Hh1 by (by rewrite (re_held _ _ (ke_rest _ _ _ K1))).
  destruct l2 as [|n l2].
  - cbn [head __tl_next_req_ref]. split; try done. intros x Hx. by apply (HR (transfer_log w1)).
  - cbn [head] in *. replace (l1 ++ r :: n :: l2) with ((l1 ++ [r]) ++ n :: l2) in Hs, Hnd by (by rewrite <- app_assoc).
    pose proof Hnd as (_ & Hdis & _)%NoDup_app.
    assert (n <> r) as Hne by (intros ->; apply (Hdis r); [apply elem_of_app; right|]; by left).
    assert (n ∈ transfer_log w1) as Hn1.
    { apply (so_in _ _ _ So); [rewrite Ht, elem_of_app, !elem_of_cons; tauto|congruence|].
      apply (held_live none none); [done|]. rewrite Hh1. by left. }
    destruct (sublist_at _ (l1 ++ [r]) l2 n Hs Hnd Hn1) as (a & b & E & Ha & Hb).
    assert (before_req w1 a n b h) as B.
    { split; try done.
      - intros x Hx. apply (HR a); [done|done|]. rewrite E, elem_of_app. tauto.
      - intros x Hx. assert (x ∈ n :: l2) as Hx2.
        { apply elem_of_cons in Hx as [->|Hx]; [by left|right]. by eapply sublist_subseteq. }
        rewrite Hw; [apply Hp; by right|rewrite E, elem_of_app; tauto|]. intros ->.
        apply (Hdis r); [apply elem_of_app; right; by left|done]. }
    pose proof (walk_advance_ok (S (length (transfer_log w1))) w1 a n b h B) as HA.
    specialize (HA ltac:(rewrite E, length_app; cbn; lia)). apply sublist_length in Hb.
    destruct (__tl_next_req_ref orc _ (Some n) w1) as [w2 [[r' next]|]]; [|done].
    destruct HA as (l1' & l2' & -> & A & Hle). exists l1', l2'. split_and!; [done|done|]. cbn. lia.
Qed.

Lemma walk_ok fuel : forall w l1 r l2 h,
  at_req w l1 r l2 h -> (length l2 < fuel)%nat ->
  let w' := tl_for_each_req_ref_from orc fuel body r (head l2) w in
  inv none none w' /\ held w' = h /\ ((forall r w, body r w <> None) -> walked w' h).
Proof.
  induction fuel as [|fuel IH]; intros w l1 r l2 h A Hf; [lia|]. cbn [tl_for_each_req_ref_from]. cbv zeta.
  destruct (body r w) as [w1|] eqn:Eb.
  - pose proof (walk_step w l1 r l2 h w1 A Eb) as HS.
    destruct (__tl_next_req_ref orc _ (head l2) w1) as [w2 [[r' next]|]]; [|split_and!; [apply HS..|done]].
    destruct HS as (l1' & l2' & -> & A' & Hle). apply (IH w2 l1' r' l2' h A'). lia.
  - destruct A as [Hinv Ht Hh _ _ _]. destruct (head l2) as [n|] eqn:En.
    + destruct (unhold_ok orc w n Hinv) as [HI Kp]; [rewrite Hh; by left|]. split_and!; [done| |intros Hn; by destruct (Hn r w)].
      rewrite (re_held _ _ (ke_rest _ _ _ Kp)). cbn [held upd_held]. rewrite Hh. cbn. by rewrite decide_True.
    + split_and!; try done. intros Hn. by destruct (Hn r w).
Qed.

(** More turns than requests do not change the walk. *)
Lemma walk_fuel fuel : forall w l1 r l2 h fuel',
  at_req w l1 r l2 h -> (length l2 < fuel)%nat -> (length l2 < fuel')%nat ->
  tl_for_each_req_ref_from orc fuel body r (head l2) w = tl_for_each_req_ref_from orc fuel' body r (head l2) w.
Proof.
  induction fuel as [|fuel IH]; intros w l1 r l2 h [|fuel'] A Hf Hf'; [lia..|]. cbn [tl_for_each_req_ref_from].
  destruct (body r w) as [w1|] eqn:Eb; [|done]. pose proof (walk_step w l1 r l2 h w1 A Eb) as HS.
  destruct (__tl_next_req_ref orc _ (head l2) w1) as [w2 [[r' next]|]]; [|done].
  destruct HS as (l1' & l2' & -> & A' & Hle). apply (IH w2 l1' r' l2' h); [done|lia..].
Qed.

(** A walk from the request [r] of the log. *)
Lemma walk_start w l1 r l :
  inv none none w -> transfer_log w = l1 ++ r :: l -> (forall x, x ∈ l1 -> R (word w x)) ->
  (forall x, x ∈ r :: l -> P (word w x)) -> Q (suspended w) (peer_stats w) ->
  tl_next w r = head l /\ at_req (hold (head l) w) l1 r l (held w).
Proof.
  intros Hinv Et Hd Hp HQ. pose proof (i_tl _ _ _ Hinv) as Hnd. rewrite Et in Hnd.
  split; [unfold tl_next; by rewrite Et, tl_after_at|].
  assert (forall x, x ∈ l1 ++ r :: l -> live w x) as Hlv by (intros x Hx; apply (i_tl_live _ _ _ Hinv); by rewrite Et).
  destruct (hold_ok w (head l) Hinv) as (HI & S & Hh & HL).
  { intros m Hm. apply Hlv. destruct l; [done|]. injection Hm as ->. rewrite elem_of_app, !elem_of_cons. tauto. }
  assert (transfer_log (hold (head l) w) = l1 ++ r :: l) as Et' by (by destruct (head l)).
  assert (forall x, x ∈ l1 ++ r :: l -> word (hold (head l) w) x = word w x) as Hw.
  { intros x Hx. apply (so_word _ _ _ S); auto. }
  split; try done.
  - intros x Hx. rewrite Hw by (apply elem_of_app; tauto). auto.
  - intros x Hx. rewrite Hw by (apply elem_of_app; tauto). auto.
  - by rewrite (so_susp _ _ _ S), (so_peers _ _ _ S).
Qed.

Lemma tl_walk_ok w l1 r l :
  inv none none w -> transfer_log w = l1 ++ r :: l -> (forall x, x ∈ l1 -> R (word w x)) ->
  (forall x, x ∈ r :: l -> P (word w x)) -> Q (suspended w) (peer_stats w) ->
  let w' := tl_walk orc body (Some r) w in
  inv none none w' /\ held w' = held w /\ ((forall r w, body r w <> None) -> walked w' (held w)).
Proof.
  intros Hinv Et Hd Hp HQ. cbv zeta. unfold tl_walk. destruct (walk_start w l1 r l Hinv Et Hd Hp HQ) as [-> A].
  apply (walk_ok _ (hold (head l) w) l1 r l (held w) A). rewrite Et, length_app. cbn. lia.
Qed.

(** A walk over the whole log. *)
Lemma tl_walk_all w :
  inv none none w -> (forall x, x ∈ transfer_log w -> P (word w x)) -> Q (suspended w) (peer_stats w) ->
  let w' := tl_walk orc body (head (transfer_log w)) w in
  inv none none w' /\ held w' = held w /\ ((forall r w, body r w <> None) -> walked w' (held w)).
Proof.
  intros Hinv Hp HQ. cbv zeta. destruct (transfer_log w) as [|r l] eqn:Et; cbn [head].
  - split_and!; [done..|]. intros _. split; try done. intros x Hx. cbn [tl_walk] in Hx. rewrite Et in Hx. by apply elem_of_nil in Hx.
  - apply (tl_walk_ok w [] r l); try done. by intros x ?%elem_of_nil.
Qed.
End walk.


(** ** The walks of the program *)

Definition peer_there (p : nat) (s : bool) (st : list (option (bsr_disk_state * bsr_repl_state))) : Prop :=
  is_Some (mjoin (st !! p)).

Lemma logged_known w r : inv none none w -> r ∈ transfer_log w -> known w r = true.
Proof.
  intros Hinv Hin. destruct (i_tl_live _ _ _ Hinv _ Hin) as (rq & Hr & Hd). unfold known. rewrite (req_lookup _ _ _ Hr), Hd.
  rewrite bool_decide_eq_true_2 by (by apply lookup_lt_Some in Hr). cbn [negb andb].
  rewrite bool_decide_eq_false_2; [done|]. intros Hs. by destruct (i_submit _ _ _ Hinv _ Hs) as (_ & _ & ?).
Qed.

Definition clear_body (orc : oracle) (p r : nat) (w : world) : option world :=
  Some (__req_mod orc r CONNECTION_LOST_WHILE_PENDING (Some p) w).
Definition not_pending (p : nat) (l : list Z) : Prop := PENDING (nth (S p) l 0) = false.

Lemma clear_body_ok orc p w r :
  inv none none w -> r ∈ transfer_log w -> True -> peer_there p (suspended w) (peer_stats w) ->
  forall w', clear_body orc p r w = Some w' -> good none none r w w' /\ (r ∈ transfer_log w' -> not_pending p (word w' r)).
Proof.
  intros Hinv Hin _ Hq w' Ew. assert (__req_mod orc r CONNECTION_LOST_WHILE_PENDING (Some p) w = w') as <- by (by injection Ew).
  clear Ew. pose proof (logged_known w r Hinv Hin) as Hk. apply peer_of_stats in Hq.
  assert (possible w r CONNECTION_LOST_WHILE_PENDING p = true) as Hg.
  { unfold possible. rewrite Hk. cbn [andb]. rewrite !bool_decide_eq_true_2; done. }
  pose proof (req_mod_inv orc none none w r CONNECTION_LOST_WHILE_PENDING p Hinv none_nonneg none_nonneg Hg eq_refl) as G.
  split; [exact G|]. intros Hin'. destruct (i_tl_live _ _ _ (proj1 G) _ Hin') as (rq' & Hr' & Hd').
  unfold not_pending, word. rewrite (req_lookup _ _ _ Hr'). change (PENDING (state_at rq' (S p)) = false).
  destruct (known_spec _ _ Hk) as (rq & Hr & Hlive & _ & Hsub). destruct Hq as [c Hc].
  pose proof (peer_bound none none w Hinv p c Hc) as Hpb. pose proof (ev_net none none w r rq Hinv Hr Hlive p Hpb) as Hn.
  eapply (mod_rq_state_pending orc none none w r p _ _ rq rq' Hinv Hr Hlive Hsub none_nonneg none_nonneg Hpb); try exact Hr'; try done.
  - eapply (net_step _ _ (fun _ _ _ _ _ _ _ _ _ _ => true)); done.
  - intros _. split; [done|by right].
Qed.

(** The connection to [p] is lost: nothing in the log waits for it any more. *)
Lemma tl_clear_ok orc w p :
  inv none none w -> is_Some (peer_of w p) ->
  inv none none (tl_clear orc p w) /\ held (tl_clear orc p w) = held w /\
  forall x, x ∈ transfer_log (tl_clear orc p w) -> PENDING (state_at (req (tl_clear orc p w) x) (S p)) = false.
Proof.
  intros Hinv Hp. change (tl_clear orc p w) with (tl_walk orc (clear_body orc p) (head (transfer_log w)) w).
  destruct (tl_walk_all orc (clear_body orc p) (fun _ => True) (not_pending p) (peer_there p) (clear_body_ok orc p) w Hinv)
    as (HI & Hh & HW); [done|by apply peer_of_stats|].
  split_and!; [done..|]. intros x Hx. apply (wk_done _ _ _ _ (HW ltac:(done)) x Hx).
Qed.

(** A walk whose body is an event that is possible wherever the walk comes by. *)
Lemma event_walk orc p what (P : list Z -> Prop) (stop : nat -> world -> bool) w l1 r l :
  (forall w r, inv none none w -> r ∈ transfer_log w -> P (word w r) -> is_Some (peer_of w p) -> possible w r what p = true) ->
  (forall w r, unfrozen w r what = true) ->
  inv none none w -> is_Some (peer_of w p) -> transfer_log w = l1 ++ r :: l -> (forall x, x ∈ r :: l -> P (word w x)) ->
  let w' := tl_walk orc (fun r w => if stop r w then None else Some (__req_mod orc r what (Some p) w)) (Some r) w in
  inv none none w' /\ held w' = held w.
Proof.
  intros Hg Hu Hinv Hp Ht HP. cbv zeta.
  destruct (tl_walk_ok orc (fun r w => if stop r w then None else Some (__req_mod orc r what (Some p) w)) P (fun _ => True)
    (peer_there p)) with (w := w) (l1 := l1) (r := r) (l := l) as (HI & Hh & _); try done.
  - intros w0 r0 Hinv0 Hin HP0 Hq w' Ew. destruct (stop r0 w0); [done|].
    assert (__req_mod orc r0 what (Some p) w0 = w') as <- by (by injection Ew). split; [|done].
    apply req_mod_inv; try done. apply Hg; try done. by apply peer_of_stats.
  - by apply peer_of_stats.
Qed.

Lemma fail_frozen_ok orc w p :
  inv none none w -> is_Some (peer_of w p) -> inv none none (_tl_restart orc p FAIL_FROZEN_DISK_IO w).
Proof.
  intros Hinv Hp. unfold _tl_restart. destruct (transfer_log w) as [|r l] eqn:Et; [done|].
  apply (event_walk orc p FAIL_FROZEN_DISK_IO (fun _ => True) (fun _ _ => false) w [] r l); try done.
  intros w0 r0 Hinv0 Hin _ Hp0. unfold possible. rewrite (logged_known w0 r0 Hinv0 Hin). cbn [andb]. by rewrite !bool_decide_eq_true_2.
Qed.

(** The epoch a barrier acknowledgement stands for. *)
Definition data_pending (p : nat) (l : list Z) : Prop :=
  WRITE (nth 0 l 0) = true -> PENDING (nth (S p) l 0) = true -> BARR (nth (S p) l 0) = true.

Lemma tl_release_ok orc w p barrier_nr set_size :
  inv none none w -> is_Some (peer_of w p) -> (forall x, x ∈ transfer_log w -> data_pending p (word w x)) ->
  inv none none (tl_release orc p barrier_nr set_size w).1 /\ held (tl_release orc p barrier_nr set_size w).1 = held w.
Proof.
  intros Hinv Hp HP. unfold tl_release. destruct (oldest_epoch w p (transfer_log w)) as [[e n]|]; [|done].
  destruct (_ || _); [done|]. cbn [fst].
  destruct (list_find (fun r => epoch (req w r) =? e) (transfer_log w)) as [[i r]|] eqn:Ef; [|done]. cbn [fmap option_fmap option_map snd].
  apply list_find_Some in Ef as (Hi & _). apply list_elem_of_lookup_2 in Hi as Hin. apply list_elem_of_split in Hin as (l1 & l2 & Et).
  apply (event_walk orc p BARRIER_ACKED (data_pending p) (fun r w => negb (epoch (req w r) =? e)) w l1 r l2); try done.
  - intros w0 r0 Hinv0 Hr0 HP0 Hp0. unfold possible. rewrite (logged_known w0 r0 Hinv0 Hr0). cbn [andb].
    rewrite !bool_decide_eq_true_2 by done. cbn [andb]. autorewrite with rq. unfold data_pending, word in HP0.
    unfold state_at. destruct (WRITE (nth 0 (rq_state (req w0 r0)) 0)), (PENDING (nth (S p) (rq_state (req w0 r0)) 0)),
      (BARR (nth (S p) (rq_state (req w0 r0)) 0)); try done. by specialize (HP0 eq_refl eq_refl).
  - intros x Hx. apply HP. rewrite Et, elem_of_app. tauto.
Qed.

Lemma tl_abort_ok orc w :
  inv none none w -> suspended w = false -> inv none none (tl_abort_disk_io orc w) /\ held (tl_abort_disk_io orc w) = held w.
Proof.
  intros Hinv Hs. unfold tl_abort_disk_io.
  destruct (tl_walk_all orc (fun r w => Some (if has (state_at (req w r) 0) RQ_LOCAL_PENDING
                            then __req_mod orc r ABORT_DISK_IO None w else w)) (fun _ => True) (fun _ => True)
    (fun s _ => s = false)) with (w := w) as (HI & Hh & _); try done.
  intros w0 r Hinv0 Hin _ Hq w' Ew.
  assert ((if has (state_at (req w0 r) 0) RQ_LOCAL_PENDING then __req_mod orc r ABORT_DISK_IO None w0 else w0) = w') as <- by (by injection Ew).
  split; [|done]. destruct (known_spec _ _ (logged_known w0 r Hinv0 Hin)) as (rq & Hr & Hlive & Hrq & Hsub).
  rewrite Hrq, has_LOCAL_PENDING. destruct (LP (state_at rq 0)) eqn:Hlp; [|split; [done|apply keep_refl]].
  cbv beta iota zeta delta [__req_mod].
  apply (local_event orc none none w0 r rq); try done; [by fold (local rq) in Hlp; rewrite Hlp|left; by right].
Qed.
End RequestWalk.
