(* ===== verification/RequestRun.v ===== *)
(** * Executions of the request machinery (src/bsr/bsr_req.c, bsr_main.c, bsr_sender.c)

    The steps of a node - bios from above, events from the network, the disk
    and the administrator, in any order - as a step relation, and what holds
    in every state that can be reached. *)

From stdpp Require Import relations.
From S2P Require Import Prelude State Request RequestInv RequestEnd RequestKeep RequestSafe RequestSubmit RequestLife RequestWalk.

Module RequestRun.
Import State Request RequestInv RequestEnd RequestKeep RequestSafe RequestSubmit RequestLife RequestWalk.

(** A resource that was just brought up. *)
Record started (w : world) : Prop := mk_started {
  sd_reqs : reqs w = [];
  sd_tl : transfer_log w = [];
  sd_retry : retry_writes w = [];
  sd_submit : submit_writes w = [];
  sd_held : held w = [];
  sd_plug : most_recent_req w = None;
  sd_peers : peers_ok (peer_stats w);
  sd_pending : forall p c, peer_of w p = Some c -> ap_pending_cnt c = 0;
  sd_log : log w = [];
  sd_peer_ack : peer_ack_req w = None }.

(** What the rest of the node may change at any time: suspension of I/O, states
    of disks and peers, epochs, settings.  The states of peers come from
    [bsr_state.c], where a peer this node is ahead of is not up to date. *)
Record env_change (w w' : world) : Prop := mk_env_change {
  ec_reqs : reqs w' = reqs w;
  ec_tl : transfer_log w' = transfer_log w;
  ec_retry : retry_writes w' = retry_writes w;
  ec_submit : submit_writes w' = submit_writes w;
  ec_held : held w' = held w;
  ec_plug : most_recent_req w' = most_recent_req w;
  ec_peers : peers_ok (peer_stats w');
  ec_pending : forall p c', peer_of w' p = Some c' -> exists c, peer_of w p = Some c /\ ap_pending_cnt c' = ap_pending_cnt c;
  ec_log : log w' = log w;
  ec_peer_ack : peer_ack_req w' = peer_ack_req w }.

Section run.
Context (orc : oracle).

(** The steps of a run.  Which runs are covered is said by their conditions.
    Facts of the callers: bios of size 0 are flushes ([bio_ok]); an event is
    [possible] and a disk report comes for pending I/O ([endio_possible]); a
    barrier is acknowledged where no pending write was left without its barrier
    ([data_pending]).  Restrictions that no code enforces: [unfrozen],
    [endio_clear], disk I/O is aborted only while I/O is not suspended, two
    primaries do not conflict ([POSTPONE_WRITE] is not [possible]), and requests
    are resent as [tl_mark_for_resend_by_connection] does, not by a walk with
    [RESEND]. *)
Inductive step : world -> world -> Prop :=
| S_make b addr w : bio_ok b -> step w (__bsr_make_request orc b addr w)
| S_fast_path r w : r ∈ submit_writes w -> step w (submit_fast_path_one orc r w)
| S_retry r addr w : r ∈ retry_writes w -> step w (do_retry_one orc r addr w)
| S_event r what p w : possible w r what p = true -> unfrozen w r what = true -> step w (__req_mod orc r what (Some p) w)
| S_endio r b error w : endio_possible w r = true -> endio_clear w r error = true -> step w (bsr_request_endio orc r b error w)
| S_unplug w : step w (bsr_unplug orc w)
| S_tl_clear p w : is_Some (peer_of w p) -> step w (tl_clear orc p w)
| S_fail_frozen p w : is_Some (peer_of w p) -> step w (_tl_restart orc p FAIL_FROZEN_DISK_IO w)
| S_tl_release p barrier_nr set_size w :
  is_Some (peer_of w p) -> (forall x, x ∈ transfer_log w -> data_pending p (word w x)) ->
  step w (tl_release orc p barrier_nr set_size w).1
| S_abort w : suspended w = false -> step w (tl_abort_disk_io orc w)
| S_env w w' : env_change w w' -> step w w'.

Definition reachable : world -> world -> Prop := rtc step.

Lemma started_inv w : started w -> inv none none w.
Proof.
  intros []. split; rewrite ?sd_reqs0, ?sd_tl0, ?sd_retry0, ?sd_submit0, ?sd_held0, ?sd_plug0, ?sd_log0, ?sd_peer_ack0; try done.
  - apply NoDup_nil_2.
  - by intros r ?%elem_of_nil.
  - intros p q (rq & Hp & _). by rewrite sd_reqs0 in Hp.
  - by intros r ?%elem_of_nil.
  - by intros r ?%elem_of_nil.
  - apply NoDup_nil_2.
  - by intros r [?%elem_of_nil|?].
Qed.

Lemma env_inv w w' : env_change w w' -> inv none none w -> inv none none w'.
Proof.
  intros [R T Re S H Pl Ps Pe L A] [].
  assert (forall x, live w' x <-> live w x) as HL by (intros; unfold live; by rewrite R).
  assert (forall x, req w' x = req w x) as HR by (intros; by apply req_eq).
  split; rewrite ?R, ?T, ?Re, ?S, ?H, ?Pl, ?L, ?A; try done.
  - intros r rq Hr Hd. apply (req_ok_ext w); [done..| |by apply i_req0]. by apply in_refs_eq.
  - intros r. rewrite HL. auto.
  - intros p q. rewrite HL, !HR. unfold before. rewrite T. exact (i_chain0 p q).
  - intros r. rewrite HL, HR. by auto.
  - intros r. rewrite HL, HR. by auto.
  - intros p c Hc. destruct (Pe _ _ Hc) as (c' & Hc' & ->). auto.
Qed.

Lemma step_inv w w' : step w w' -> inv none none w -> inv none none w'.
Proof.
  intros Hs Hinv. destruct Hs.
  - by apply make_request_inv.
  - by apply submit_fast_path_inv.
  - by apply do_retry_inv.
  - by apply req_mod_inv.
  - by apply endio_inv.
  - by apply unplug_inv.
  - by apply tl_clear_ok.
  - by apply fail_frozen_ok.
  - by apply tl_release_ok.
  - by apply tl_abort_ok.
  - by eapply env_inv.
Qed.

Lemma reachable_inv w0 w : started w0 -> reachable w0 w -> inv none none w.
Proof.
  intros Hst Hr. apply started_inv in Hst. induction Hr as [w|w w1 w2 Hs _ IH]; [done|]. apply IH. by eapply step_inv.
Qed.
End run.


(** ** A run to look at

    One peer, connected and up to date, protocol C: a write of 4 KiB. *)
Definition peer_ex : peer :=
  mk_peer 113 BSR_PROT_C 2048 C_CONNECTED L_ESTABLISHED D_UP_TO_DATE 0 0 0 0 0 0 NEXT_NULL None None.
Definition up : world :=
  mk_world [] [] [] [] [] [] None [Some peer_ex] false 1 0 0 None [] 0 0 0 D_UP_TO_DATE (Some EP_DETACH) 0 [0] RB_PREFER_LOCAL
    false false false 0 0 0 0 0 0 [].
Definition quiet_oracle : oracle :=
  mk_oracle (fun _ _ _ _ _ => []) (fun _ _ _ _ => 0) (fun _ _ _ _ => 0) (fun _ _ _ => true) (fun _ _ _ => true)
    (fun _ => false) (fun _ => false) (fun _ => true).
Definition a_write : bio := mk_bio REQ_OP_WRITE false false 2048 4096.

Definition submitted : world := __bsr_make_request quiet_oracle a_write 1 up.
Definition sent : world := __req_mod quiet_oracle 0 HANDED_OVER_TO_NETWORK (Some 0%nat) submitted.
Definition on_disk : world := bsr_request_endio quiet_oracle 0 a_write 0 sent.
Definition acked : world := __req_mod quiet_oracle 0 WRITE_ACKED_BY_PEER (Some 0%nat) on_disk.
Definition released : world := (tl_release quiet_oracle 0 1 1 acked).1.

Lemma up_started : started up.
Proof.
  split; try done.
  - split; [unfold BSR_NODE_ID_MAX; cbn; lia|]. intros d s. cbn. rewrite list_elem_of_singleton. by intros [= -> ->].
  - intros [|p] c; cbn; [|done]. by intros [= <-].
Qed.

Lemma submitted_step : step quiet_oracle up submitted.
Proof. unfold submitted. by apply S_make. Qed.

Lemma sent_step : step quiet_oracle submitted sent.
Proof. unfold sent. apply S_event; vm_compute; reflexivity. Qed.

Lemma on_disk_step : step quiet_oracle sent on_disk.
Proof. unfold on_disk. apply S_endio; vm_compute; reflexivity. Qed.

Lemma acked_step : step quiet_oracle on_disk acked.
Proof. unfold acked. apply S_event; vm_compute; reflexivity. Qed.

Lemma released_step : step quiet_oracle acked released.
Proof.
  unfold released. apply S_tl_release.
  - vm_compute. by eexists.
  - assert (transfer_log acked = [0%nat]) as -> by (vm_compute; reflexivity). intros x ->%list_elem_of_singleton _.
    assert (PENDING (nth 1 (word acked 0) 0) = false) as -> by (vm_compute; reflexivity). done.
Qed.

Lemma sent_reachable : reachable quiet_oracle up sent.
Proof. apply (rtc_l _ _ submitted); [exact submitted_step|]. apply rtc_once. exact sent_step. Qed.

Lemma acked_reachable : reachable quiet_oracle up acked.
Proof.
  apply (rtc_l _ _ submitted); [exact submitted_step|]. apply (rtc_l _ _ sent); [exact sent_step|].
  apply (rtc_l _ _ on_disk); [exact on_disk_step|]. apply rtc_once. exact acked_step.
Qed.

Lemma released_reachable : reachable quiet_oracle up released.
Proof. eapply rtc_r; [exact acked_reachable|exact released_step]. Qed.

(** ** What holds in every reachable state *)



(** C3. In every reachable state the two reference counts of a live request are exact:
    completion_ref counts its open reasons (pending local I/O, pending and queued
    network I/O, suspended completion) and its place in the queue of the activity log;
    kref counts the completion or retry still to come, the barrier acks and aborted disk
    I/O it waits for, and the references of the previous write, of walks and of a plug.
    The runs covered: no acknowledgement of a write and no disk report reaches a
    completed request while I/O is suspended (bsr_req.c:1040, see C37); after an abort
    the late disk report is an error and comes to no completed request with an out-of-
    sync notice pending (bsr_sender.c:835); disk I/O is aborted only while I/O is not
    suspended; two primaries do not conflict (no POSTPONE_WRITE, bsr_req.c:2563) and
    RESTART_FROZEN_DISK_IO does not occur; requests are resent as
    tl_mark_for_resend_by_connection does, not by _tl_restart with RESEND
    (bsr_state.c:3221); a barrier is acked only when every pending write of the log
    expects its ack; a peer this node is ahead of is not up to date; a bio of size 0 is
    a flush. *)
Theorem request_references orc w0 w r rq :
  started w0 -> reachable orc w0 w -> reqs w !! r = Some rq -> destroyed rq = false ->
  completion_ref rq = pend rq + b2z (bool_decide (r ∈ submit_writes w)) /\
  kref rq = b2z (negb (completion_ref rq =? 0) || bool_decide (r ∈ retry_writes w)) + own_refs rq + in_refs w r.
Proof.
  intros Hs Hr Hx Hd. destruct (i_req _ _ _ (reachable_inv orc w0 w Hs Hr) _ _ Hx Hd) as [H1 H2 _ _ _ _ _].
  unfold none, base_ref in *. lia.
Qed.

Lemma request_references_witness :
  completion_ref (req sent 0) = pend (req sent 0) + b2z (bool_decide (0%nat ∈ submit_writes sent)) /\
  completion_ref (req sent 0) = 2 /\ kref (req sent 0) = 2.
Proof.
  split; [|by vm_compute].
  exact (proj1 (request_references quiet_oracle up sent 0 (req sent 0) up_started sent_reachable ltac:(by vm_compute) ltac:(by vm_compute))).
Defined.

(** C4. In every reachable state each bio has been completed at most once, a live
    request has lost its bio exactly when it was completed, and a live request with
    nothing pending that is not queued for the activity log is completed or waits for
    its retry. The runs covered: no acknowledgement of a write and no disk report
    reaches a completed request while I/O is suspended (bsr_req.c:1040, see C37); after
    an abort the late disk report is an error and comes to no completed request with an
    out-of-sync notice pending (bsr_sender.c:835); disk I/O is aborted only while I/O is
    not suspended; two primaries do not conflict (no POSTPONE_WRITE, bsr_req.c:2563) and
    RESTART_FROZEN_DISK_IO does not occur; requests are resent as
    tl_mark_for_resend_by_connection does, not by _tl_restart with RESEND
    (bsr_state.c:3221); a barrier is acked only when every pending write of the log
    expects its ack; a peer this node is ahead of is not up to date; a bio of size 0 is
    a flush. *)
Theorem completed_once orc w0 w r :
  started w0 -> reachable orc w0 w ->
  zsum (completes r) (log w) <= 1 /\
  forall rq, reqs w !! r = Some rq -> (zsum (completes r) (log w) = 1 <-> master_bio rq = None) /\
    (destroyed rq = false -> (r ∉ submit_writes w) -> pend rq = 0 -> master_bio rq = None \/ POSTPONED (local rq) = true).
Proof.
  intros Hs Hr. pose proof (reachable_inv orc w0 w Hs Hr) as Hinv.
  assert (forall rq, reqs w !! r = Some rq -> zsum (completes r) (log w) = b2z (bool_decide (master_bio rq = None))) as Hc
    by apply (i_once _ _ _ Hinv).
  split.
  - destruct (reqs w !! r) as [rq|] eqn:Hx.
    + rewrite (Hc rq eq_refl). by case_bool_decide.
    + rewrite (i_future _ _ _ Hinv); [lia|]. by apply lookup_ge_None.
  - intros rq Hx. split.
    + rewrite (Hc rq Hx). case_bool_decide; simpl; split; done || lia.
    + intros Hd Hsub Hp. pose proof (i_req _ _ _ Hinv _ _ Hx Hd) as Hok. apply (ro_done _ _ _ _ _ Hok).
      rewrite (ro_cref _ _ _ _ _ Hok), Hp, bool_decide_eq_false_2 by done. done.
Qed.

Lemma completed_once_witness : zsum (completes 0) (log acked) <= 1 /\ zsum (completes 0) (log acked) = 1.
Proof.
  split; [exact (proj1 (completed_once quiet_oracle up acked 0 up_started acked_reachable))|by vm_compute].
Defined.

(** C5. In every reachable state ap_pending_cnt of a peer is the number of requests that
    wait for an answer of that peer (RQ_NET_PENDING), and so never negative. The runs
    covered: no acknowledgement of a write and no disk report reaches a completed
    request while I/O is suspended (bsr_req.c:1040, see C37); after an abort the late
    disk report is an error and comes to no completed request with an out-of-sync notice
    pending (bsr_sender.c:835); disk I/O is aborted only while I/O is not suspended; two
    primaries do not conflict (no POSTPONE_WRITE, bsr_req.c:2563) and
    RESTART_FROZEN_DISK_IO does not occur; requests are resent as
    tl_mark_for_resend_by_connection does, not by _tl_restart with RESEND
    (bsr_state.c:3221); a barrier is acked only when every pending write of the log
    expects its ack; a peer this node is ahead of is not up to date; a bio of size 0 is
    a flush. *)
Theorem pending_counter_exact orc w0 w p c :
  started w0 -> reachable orc w0 w -> peer_of w p = Some c ->
  ap_pending_cnt c = zsum (fun rq => b2z (has (state_at rq (S p)) RQ_NET_PENDING)) (reqs w) /\ 0 <= ap_pending_cnt c.
Proof.
  intros Hs Hr Hc. rewrite (i_pending _ _ _ (reachable_inv orc w0 w Hs Hr) p c Hc).
  assert (zsum (net_pending p) (reqs w) = zsum (fun rq => b2z (has (state_at rq (S p)) RQ_NET_PENDING)) (reqs w)) as E.
  { induction (reqs w) as [|x l IH]; [done|]. cbn [zsum]. rewrite IH. unfold net_pending. by rewrite has_NET_PENDING. }
  rewrite <- E. split; [done|]. apply zsum_nonneg. intros. apply b2z_nonneg.
Qed.

Lemma pending_counter_exact_witness :
  exists c, peer_of sent 0 = Some c /\ ap_pending_cnt c = 1 /\
    ap_pending_cnt c = zsum (fun rq => b2z (has (state_at rq 1) RQ_NET_PENDING)) (reqs sent).
Proof.
  eexists. split; [vm_compute; reflexivity|]. split; [reflexivity|].
  refine (proj1 (pending_counter_exact quiet_oracle up sent 0 _ up_started _ _)).
  - exact sent_reachable.
  - vm_compute. reflexivity.
Defined.

(** C6. In every reachable state no destroyed request is in the transfer log, in the
    queue of the activity log, in the retry list, held by a walk or a plug, or the next
    in the destroy chain of a live request. The runs covered: no acknowledgement of a
    write and no disk report reaches a completed request while I/O is suspended
    (bsr_req.c:1040, see C37); after an abort the late disk report is an error and comes
    to no completed request with an out-of-sync notice pending (bsr_sender.c:835); disk
    I/O is aborted only while I/O is not suspended; two primaries do not conflict (no
    POSTPONE_WRITE, bsr_req.c:2563) and RESTART_FROZEN_DISK_IO does not occur; requests
    are resent as tl_mark_for_resend_by_connection does, not by _tl_restart with RESEND
    (bsr_state.c:3221); a barrier is acked only when every pending write of the log
    expects its ack; a peer this node is ahead of is not up to date; a bio of size 0 is
    a flush. *)
Theorem no_dangling_requests orc w0 w r :
  started w0 -> reachable orc w0 w ->
  r ∈ transfer_log w ++ retry_writes w ++ submit_writes w ++ held w \/ most_recent_req w = Some r \/
  (exists p, live w p /\ destroy_next (req w p) = Some r) -> live w r.
Proof.
  intros Hs Hr. pose proof (reachable_inv orc w0 w Hs Hr) as Hinv. rewrite !elem_of_app.
  intros [[H|[H|[H|H]]]|[H|(p & Hp & Hn)]].
  - by apply (i_tl_live _ _ _ Hinv).
  - by apply (i_retry _ _ _ Hinv).
  - by apply (i_submit _ _ _ Hinv).
  - by apply (held_live none none w r).
  - by apply (plugged_live none none w r).
  - destruct (i_chain _ _ _ Hinv p r Hp Hn) as (Hb & _). apply (i_tl_live _ _ _ Hinv).
    by destruct (before_facts _ _ _ _ _ Hinv Hb) as (_ & ? & _).
Qed.

Lemma no_dangling_requests_witness : 0%nat ∈ transfer_log acked /\ live acked 0.
Proof.
  assert (0%nat ∈ transfer_log acked) as H by (assert (transfer_log acked = [0%nat]) as -> by (by vm_compute); by left).
  split; [exact H|]. apply (no_dangling_requests quiet_oracle up acked 0 up_started acked_reachable). left. apply elem_of_app. by left.
Defined.

(** C7. When a connection is lost, tl_clear leaves no request of the transfer log
    waiting for that peer, reaches no BUG and gives back every reference the walk has
    taken. The runs covered: no acknowledgement of a write and no disk report reaches a
    completed request while I/O is suspended (bsr_req.c:1040, see C37); after an abort
    the late disk report is an error and comes to no completed request with an out-of-
    sync notice pending (bsr_sender.c:835); disk I/O is aborted only while I/O is not
    suspended; two primaries do not conflict (no POSTPONE_WRITE, bsr_req.c:2563) and
    RESTART_FROZEN_DISK_IO does not occur; requests are resent as
    tl_mark_for_resend_by_connection does, not by _tl_restart with RESEND
    (bsr_state.c:3221); a barrier is acked only when every pending write of the log
    expects its ack; a peer this node is ahead of is not up to date; a bio of size 0 is
    a flush. *)
Theorem tl_clear_settles orc w0 w p :
  started w0 -> reachable orc w0 w -> is_Some (peer_of w p) ->
  let w' := tl_clear orc p w in
  (forall r, r ∈ transfer_log w' -> has (state_at (req w' r) (S p)) RQ_NET_PENDING = false) /\
  Forall (fun e => match e with E_bug => False | _ => True end) (log w') /\ held w' = held w.
Proof.
  intros Hs Hr Hp. cbv zeta. pose proof (reachable_inv orc w0 w Hs Hr) as Hinv.
  destruct (tl_clear_ok orc w p Hinv Hp) as (HI & Hh & Hx). split_and!; [|eapply Forall_impl; [apply (i_clean _ _ _ HI)|by intros []]|done].
  intros r Hin. rewrite has_NET_PENDING. by apply Hx.
Qed.

Lemma tl_clear_settles_witness :
  has (state_at (req sent 0) 1) RQ_NET_PENDING = true /\
  has (state_at (req (tl_clear quiet_oracle 0 sent) 0) 1) RQ_NET_PENDING = false.
Proof.
  split; [by vm_compute|].
  apply (proj1 (tl_clear_settles quiet_oracle up sent 0 up_started sent_reachable ltac:(vm_compute; by eexists))).
  assert (transfer_log (tl_clear quiet_oracle 0 sent) = [0%nat]) as -> by (by vm_compute). by left.
Defined.

(** C8. The walk of tl_clear ends: its result is the same with any fuel above the length
    of the transfer log, although the body destroys requests, so the bound of the model
    is never what stops it. The runs covered: no acknowledgement of a write and no disk
    report reaches a completed request while I/O is suspended (bsr_req.c:1040, see C37);
    after an abort the late disk report is an error and comes to no completed request
    with an out-of-sync notice pending (bsr_sender.c:835); disk I/O is aborted only
    while I/O is not suspended; two primaries do not conflict (no POSTPONE_WRITE,
    bsr_req.c:2563) and RESTART_FROZEN_DISK_IO does not occur; requests are resent as
    tl_mark_for_resend_by_connection does, not by _tl_restart with RESEND
    (bsr_state.c:3221); a barrier is acked only when every pending write of the log
    expects its ack; a peer this node is ahead of is not up to date; a bio of size 0 is
    a flush. *)
Theorem tl_clear_terminates orc w0 w p r l fuel :
  started w0 -> reachable orc w0 w -> is_Some (peer_of w p) -> transfer_log w = r :: l -> (length l < fuel)%nat ->
  tl_for_each_req_ref_from orc fuel (fun r w => Some (__req_mod orc r CONNECTION_LOST_WHILE_PENDING (Some p) w)) r
    (tl_next w r) (hold (tl_next w r) w) = tl_clear orc p w.
Proof.
  intros Hs Hr Hp Et Hf. pose proof (reachable_inv orc w0 w Hs Hr) as Hinv.
  destruct (walk_start (fun _ => True) (not_pending p) (peer_there p) w [] r l Hinv Et) as [En A];
    [by intros x ?%elem_of_nil|done|by apply peer_of_stats|].
  unfold tl_clear, _tl_restart, tl_walk. rewrite Et. cbn [head]. rewrite En.
  apply (walk_fuel orc (clear_body orc p) (fun _ => True) (not_pending p) (peer_there p) (clear_body_ok orc p) _ _ [] r l (held w) _ A);
    [done|cbn; lia].
Qed.

Lemma tl_clear_terminates_witness :
  tl_for_each_req_ref_from quiet_oracle 1 (fun r w => Some (__req_mod quiet_oracle r CONNECTION_LOST_WHILE_PENDING (Some 0%nat) w)) 0
    (tl_next sent 0) (hold (tl_next sent 0) sent) = tl_clear quiet_oracle 0 sent.
Proof.
  apply (tl_clear_terminates quiet_oracle up sent 0 0 [] 1 up_started sent_reachable);
    [vm_compute; by eexists|by vm_compute|cbn; lia].
Defined.

(** ** Bits of the bitmap when a write is destroyed *)

Lemma testbit_clear_bit i j x : 0 <= i -> Z.testbit (clear_bit j x) i = Z.testbit x i && negb (j =? i).
Proof.
  intros Hi. unfold clear_bit. rewrite Z.ldiff_spec. f_equal. f_equal. destruct (Z.eqb_spec j i) as [->|Hne].
  - rewrite Z.shiftl_1_l. by apply Z.pow2_bits_true.
  - destruct (Z.leb_spec 0 j).
    + rewrite Z.shiftl_1_l. by apply Z.pow2_bits_false.
    + rewrite Z.shiftl_spec by done. destruct (decide (i - j = 0)) as [E|]; [lia|].
      change 1 with (2 ^ 0). apply Z.pow2_bits_false. lia.
Qed.

(** The peer has the data, or has been told, or its slot was set already. *)
Definition confirmed (s : Z) : bool :=
  has s RQ_NET_OK || (has s RQ_NET_DONE && has s RQ_OOS_NET_QUEUED) || has s RQ_OOS_LOCAL_DONE.

Definition slot_of (w : world) (p : nat) : Z := nth p (md_bitmap_index w) (-1).

Lemma sync_bits_fold w r i l : 0 <= i -> forall bits mask,
  let res := foldl (fun '(bits, mask) p =>
    let rq_state := state_at (req w r) (S p) in
    if has rq_state RQ_NET_OK || (has rq_state RQ_NET_DONE && has rq_state RQ_OOS_NET_QUEUED)
       || has rq_state RQ_OOS_LOCAL_DONE
    then
      let bitmap_index := nth p (md_bitmap_index w) (-1) in
      if bitmap_index =? -1 then (bits, mask)
      else if has rq_state RQ_NET_SIS then (clear_bit bitmap_index bits, mask)
      else (bits, clear_bit bitmap_index mask)
    else (bits, mask)) (bits, mask) l in
  let hit (sis : bool) (p : nat) := (slot_of w p =? i) && confirmed (state_at (req w r) (S p))
                                    && Bool.eqb (has (state_at (req w r) (S p)) RQ_NET_SIS) sis in
  Z.testbit res.1 i = Z.testbit bits i && negb (existsb (hit true) l) /\
  Z.testbit res.2 i = Z.testbit mask i && negb (existsb (hit false) l).
Proof.
  intros Hi. induction l as [|p l IH]; intros bits mask; cbv zeta; [by rewrite !andb_true_r|]. cbn [foldl existsb].
  cbv zeta in IH. fold (slot_of w p). fold (confirmed (state_at (req w r) (S p))).
  destruct (confirmed (state_at (req w r) (S p))).
  - destruct (Z.eqb_spec (slot_of w p) (-1)) as [E|E].
    + destruct (IH bits mask) as [-> ->]. rewrite E, (proj2 (Z.eqb_neq (-1) i)) by lia. done.
    + destruct (has (state_at (req w r) (S p)) RQ_NET_SIS).
      * destruct (IH (clear_bit (slot_of w p) bits) mask) as [-> ->]. rewrite testbit_clear_bit by done.
        destruct (slot_of w p =? i); cbn; split; by rewrite ?andb_true_r, ?andb_false_r.
      * destruct (IH bits (clear_bit (slot_of w p) mask)) as [-> ->]. rewrite testbit_clear_bit by done.
        destruct (slot_of w p =? i); cbn; split; by rewrite ?andb_true_r, ?andb_false_r.
  - destruct (IH bits mask) as [-> ->]. by rewrite !andb_false_r.
Qed.

Lemma existsb_unique {A} (f : A -> bool) (l : list A) p : In p l -> (forall q, In q l -> f q = true -> q = p) -> existsb f l = f p.
Proof.
  intros Hp Hu. destruct (f p) eqn:E; [apply existsb_exists; by exists p|].
  destruct (existsb f l) eqn:Ex; [|done]. apply existsb_exists in Ex as (q & Hq & Hf). rewrite (Hu q Hq Hf) in Hf. congruence.
Qed.

(** When a write is destroyed, the bitmap slot of each peer is set out of sync
    exactly if the peer has not confirmed the write, cleared exactly if it has confirmed
    it as being in sync, and left alone exactly if it has confirmed it without saying
    so. *)
Theorem destroyed_write_slots w r p i :
  (p <= max_node_id w)%nat -> slot_of w p = i -> 0 <= i < 64 ->
  (forall q, (q <= max_node_id w)%nat -> slot_of w q = i -> q = p) ->
  let s := state_at (req w r) (S p) in
  let '(bits, mask) := sync_bits w r in
  (Z.testbit mask i && Z.testbit bits i = negb (confirmed s)) /\
  (Z.testbit mask i && negb (Z.testbit bits i) = confirmed s && has s RQ_NET_SIS) /\
  (Z.testbit mask i = negb (confirmed s && negb (has s RQ_NET_SIS))).
Proof.
  intros Hp Hs Hi Hu. cbv zeta. unfold sync_bits.
  pose proof (sync_bits_fold w r i (seq 0 (S (max_node_id w))) ltac:(lia) UINTPTR_MAX UINTPTR_MAX) as Hf. cbv zeta in Hf.
  destruct (foldl _ _ _) as [bits mask]. cbn [fst snd] in Hf. destruct Hf as [Hb Hm].
  assert (Z.testbit UINTPTR_MAX i = true) as Hone.
  { change UINTPTR_MAX with (Z.ones 64). apply Z.ones_spec_low. lia. }
  rewrite Hone in Hb, Hm. cbn [andb] in Hb, Hm.
  assert (In p (seq 0 (S (max_node_id w)))) as Hin by (apply in_seq; lia).
  rewrite (existsb_unique _ _ p Hin) in Hb; [rewrite (existsb_unique _ _ p Hin) in Hm|].
  2,3: intros q Hq%in_seq H; apply Hu; [lia|]; apply andb_true_iff in H as [H _]; apply andb_true_iff in H as [H _]; by apply Z.eqb_eq.
  rewrite Hs, Z.eqb_refl in Hb, Hm. rewrite Hb, Hm.
  destruct (confirmed (state_at (req w r) (S p))), (has (state_at (req w r) (S p)) RQ_NET_SIS); done.
Qed.

Lemma destroyed_write_slots_witness :
  let '(bits, mask) := sync_bits sent 0 in Z.testbit mask 0 && Z.testbit bits 0 = true.
Proof.
  pose proof (destroyed_write_slots sent 0 0 0 ltac:(vm_compute; lia) ltac:(by vm_compute) ltac:(lia)) as H.
  specialize (H ltac:(intros q Hq _; assert (max_node_id sent = 0%nat) as E by (by vm_compute); rewrite E in Hq; lia)).
  cbv zeta in H. destruct (sync_bits sent 0) as [bits mask]. rewrite (proj1 H). by vm_compute.
Defined.

(** ** An acknowledgement that comes late

    With protocol A a write is complete when it is handed over, yet during a
    resync the peer is asked for a write acknowledgement.  When that one
    arrives while I/O is suspended, [mod_rq_state] freezes the completed
    request: the next barrier acknowledgement completes it again, without a
    bio, and puts a reference that is gone. *)
Definition peer_a : peer :=
  mk_peer 113 BSR_PROT_A 2048 C_CONNECTED L_SYNC_SOURCE D_INCONSISTENT 0 0 0 0 0 0 NEXT_NULL None None.
Definition up_a : world := upd_peers (fun _ => [Some peer_a]) up.
Definition done_a : world :=
  bsr_request_endio quiet_oracle 0 a_write 0
    (__req_mod quiet_oracle 0 HANDED_OVER_TO_NETWORK (Some 0%nat) (__bsr_make_request quiet_oracle a_write 1 up_a)).
Definition frozen_a : world := upd_suspended (fun _ => true) done_a.
Definition late_ack : world := __req_mod quiet_oracle 0 WRITE_ACKED_BY_PEER (Some 0%nat) frozen_a.
Definition late_barrier : world := __req_mod quiet_oracle 0 BARRIER_ACKED (Some 0%nat) late_ack.

(** The run to its end: the message that the bio is missing, and one reference
    too many is put. *)
Example late_ack_completes_twice :
  completion_ref (req done_a 0) = 0 /\ completion_ref (req late_ack 0) = 1 /\ kref (req late_barrier 0) = -1 /\
  E_logic_bug 17 ∈ log late_barrier.
Proof.
  split_and!; [by vm_compute..|].
  assert (exists l, log late_barrier = E_wake_senders :: E_submit 0 :: E_wake_senders :: E_complete 0 0 :: E_logic_bug 18 :: E_logic_bug 17 :: l)
    as [l ->] by (eexists; vm_compute; reflexivity).
  do 5 right. by left.
Qed.

Lemma pend_zero rq p :
  length (rq_state rq) = S BSR_NODE_ID_MAX -> (S p <= BSR_NODE_ID_MAX)%nat -> pend rq = 0 ->
  SUSP (local rq) = false /\ PENDING (state_at rq (S p)) = false.
Proof.
  intros Hlen Hp Hpe. split.
  - unfold pend in Hpe. pose proof (b2z_nonneg (LP (local rq) && negb (AB (local rq)))).
    pose proof (zsum_nonneg net_pend (nets rq) net_pend_nonneg). destruct (SUSP (local rq)); simpl in *; lia || done.
  - destruct (PENDING (state_at rq (S p))) eqn:E; [|done]. exfalso.
    assert (0 < pend rq); [|lia]. apply (pend_net rq p (state_at rq (S p))); [apply nets_lookup; lia|by rewrite E].
Qed.

Lemma ack_susp susp p rq :
  length (rq_state rq) = S BSR_NODE_ID_MAX -> (S p <= BSR_NODE_ID_MAX)%nat ->
  mod_args (Some p) RQ_NET_PENDING RQ_NET_OK (local rq) (state_at rq (S p)) ->
  SUSP (local (mod_words susp (Some p) RQ_NET_PENDING RQ_NET_OK rq)) = SUSP (local rq) || susp && negb (SUSP (local rq)).
Proof.
  intros Hlen Hp Ha. rewrite (mod_words_local susp (Some p) RQ_NET_PENDING RQ_NET_OK rq Hlen Hp Ha). unfold new_word.
  rewrite bit_mod, set_local_susp by done. change (SUSP (Z.land RQ_NET_PENDING RQ_STATE_0_MASK)) with false.
  change (SUSP RQ_NET_PENDING) with false. by rewrite andb_true_r, orb_false_r.
Qed.

(** [_tl_restart] with [RESEND] does not skip requests that are done for the
    connection: the connection to peer 0 was lost, peer 1 has acknowledged the
    write, which is complete and waits in the log for the barrier of peer 1; the
    walk queues it for peer 0 again. *)
Definition two_up : world := upd_peers (fun _ => [Some peer_ex; Some peer_ex]) up.
Definition one_lost : world :=
  tl_clear quiet_oracle 0 (__req_mod quiet_oracle 0 WRITE_ACKED_BY_PEER (Some 1%nat) (bsr_request_endio quiet_oracle 0 a_write 0
    (__req_mod quiet_oracle 0 HANDED_OVER_TO_NETWORK (Some 1%nat) (__req_mod quiet_oracle 0 HANDED_OVER_TO_NETWORK (Some 0%nat)
      (__bsr_make_request quiet_oracle a_write 1 two_up))))).

Example resend_reopens :
  completion_ref (req one_lost 0) = 0 /\ completion_ref (req (_tl_restart quiet_oracle 0 RESEND one_lost) 0) = 2.
Proof. by vm_compute. Qed.

(** The way through [mod_rq_state] of an acknowledgement for a completed request. *)
Lemma ack_run orc w r p rq :
  inv none none w -> reqs w !! r = Some rq -> destroyed rq = false -> (r ∉ submit_writes w) -> (S p <= BSR_NODE_ID_MAX)%nat ->
  BARR (state_at rq (S p)) = true -> completion_ref rq = 0 -> suspended w = true ->
  exists rq' : bsr_request, reqs (mod_rq_state orc r (Some p) RQ_NET_PENDING RQ_NET_OK w) !! r = Some rq' /\
    bumped 1 0 (mod_words true (Some p) RQ_NET_PENDING RQ_NET_OK rq) rq' /\ SUSP (local rq') = true.
Proof.
  intros Hinv Hr Hlive Hsub Hp Hb Hc Hsu.
  destruct (net_consts_args p RQ_NET_PENDING RQ_NET_OK (local rq) (state_at rq (S p)) eq_refl ltac:(done)) as (Ha & _ & _).
  assert (forall p', Some p = Some p' -> net_ok (local rq) (new_word (state_at rq (S p))
    (Z.ldiff RQ_NET_PENDING RQ_STATE_0_MASK) (Z.ldiff RQ_NET_OK RQ_STATE_0_MASK))) as Hn.
  { intros p' _. apply (net_step _ _ (fun wr pe qu st dn ok si ba oq op => ba)); [done| |exact Hb]. by apply (ev_net none none w r rq). }
  pose proof (i_req _ _ _ Hinv _ _ Hr Hlive) as Hok. pose proof (ro_words _ _ _ _ _ Hok) as (Hlen & _ & _).
  assert (pend rq = 0) as Hpe.
  { pose proof (ro_cref _ _ _ _ _ Hok) as E. rewrite bool_decide_eq_false_2 in E by done. unfold none in E. simpl in E. lia. }
  destruct (pend_zero rq p Hlen Hp Hpe) as [Hs0 Hpn].
  destruct (stage_run orc none none w r (Some p) RQ_NET_PENDING RQ_NET_OK rq Hinv Hr Hlive Hp Ha Hn)
    as (w' & rq' & EP & _ & Hreqs & B & _).
  unfold c_put, k_put, c_puts, k_puts, c_get, k_get in EP, B. cbn [idx_of] in EP, B. rewrite ?Hs0, ?Hpn, ?Hsu in EP, B.
  set (sl := set_local_of true (local rq) RQ_NET_OK RQ_NET_PENDING) in *.
  assert (SUSP sl = true) as Hsl by (unfold sl; rewrite set_local_susp by done; by rewrite Hs0).
  assert (LP sl = false /\ AB sl = false) as [HLP HAB] by (unfold sl; by rewrite !set_local_bit by done).
  change (QUEUED (Z.ldiff RQ_NET_PENDING RQ_STATE_0_MASK)) with false in EP. change (LP (Z.land RQ_NET_PENDING RQ_STATE_0_MASK)) with false in EP.
  change (DONE (Z.ldiff RQ_NET_OK RQ_STATE_0_MASK)) with false in EP. change (PENDING (Z.ldiff RQ_NET_OK RQ_STATE_0_MASK)) with false in B.
  change (QUEUED (Z.ldiff RQ_NET_OK RQ_STATE_0_MASK)) with false in B. change (BARR (Z.ldiff RQ_NET_OK RQ_STATE_0_MASK)) with false in B.
  rewrite HLP, HAB, ?Hsl, !andb_false_r in B. rewrite HAB, !andb_false_r in EP. cbn [b2z andb negb Z.add] in EP, B.
  exists rq'. split_and!; [|exact B|].
  2: { destruct (bumped_words _ _ _ _ B) as (-> & _). by rewrite (ack_susp true p rq Hlen Hp Ha), Hs0. }
  destruct (mod_rq_state_ways orc none none w r (Some p) RQ_NET_PENDING RQ_NET_OK rq Hinv Hr Hlive Hp Ha Hn eq_refl w' 0 0)
    as [[Ho _]|[[He _]| ->]]; [by rewrite Hsu|done| |].
  - rewrite Hsu in He. assert (SUSP (local rq) = true) as Hx; [|congruence]. rewrite <- He.
    rewrite (ack_susp true p rq Hlen Hp Ha). by rewrite Hs0.
  - unfold put_finish. cbn [b2z negb Z.eqb orb andb emit_if]. rewrite Hreqs. by apply list_lookup_insert_eq, (lookup_lt_Some _ _ _ Hr).
Qed.

(** C37. In every state of the runs of C2 in which I/O is suspended, a write
    acknowledgement that is possible (the write was queued as data and expects its
    barrier ack) for a request that is already completed makes mod_rq_state freeze it:
    completion_ref goes from 0 to 1 although nothing is pending and the bio is gone, and
    kref is not raised, so the reference that completion will put again does not exist.
    *)
Theorem late_ack_reopens orc w0 w r p :
  started w0 -> reachable orc w0 w -> possible w r WRITE_ACKED_BY_PEER p = true ->
  suspended w = true -> master_bio (req w r) = None ->
  let w' := __req_mod orc r WRITE_ACKED_BY_PEER (Some p) w in
  completion_ref (req w r) = 0 /\ completion_ref (req w' r) = 1 /\
  has (state_at (req w' r) 0) RQ_COMPLETION_SUSP = true /\
  kref (req w' r) = kref (req w r) /\ master_bio (req w' r) = None.
Proof.
  intros Hs Hr Hpo Hsu Hbio. cbv zeta. pose proof (reachable_inv orc w0 w Hs Hr) as Hinv.
  unfold possible in Hpo. apply andb_true_iff in Hpo as [Hk Hb]. apply andb_true_iff in Hk as [Hk Hp].
  apply bool_decide_eq_true in Hp as [c Hp]. pose proof (peer_bound none none w Hinv p c Hp) as Hpb.
  destruct (known_spec _ _ Hk) as (rq & Hx & Hlive & Hq & Hsub). rewrite Hq in *.
  pose proof (i_req _ _ _ Hinv _ _ Hx Hlive) as Hok.
  assert (completion_ref rq = 0) as Hc.
  { destruct (decide (completion_ref rq = 0)) as [|Hne]; [done|]. destruct (ro_open _ _ _ _ _ Hok Hne). congruence. }
  destruct (ack_run orc w r p rq) as (rq' & Hx' & B & Hss); try done; [by autorewrite with rq in Hb|].
  cbv beta iota zeta delta [__req_mod]. rewrite (req_lookup _ _ _ Hx').
  split_and!; [done| | | |by rewrite (bu_bio _ _ _ _ B)].
  - rewrite (bu_cref _ _ _ _ B). change (completion_ref (mod_words _ _ _ _ _)) with (completion_ref rq). lia.
  - by rewrite has_SUSP.
  - rewrite (bu_kref _ _ _ _ B). change (kref (mod_words _ _ _ _ _)) with (kref rq). lia.
Qed.

Lemma suspend_step orc w : peers_ok (peer_stats w) -> step orc w (upd_suspended (fun _ => true) w).
Proof. intros Hp. apply S_env. split; try done. intros p c Hc. by exists c. Qed.

Lemma frozen_a_reachable : reachable quiet_oracle up_a frozen_a.
Proof.
  unfold frozen_a, done_a. set (w1 := __bsr_make_request quiet_oracle a_write 1 up_a).
  set (w2 := __req_mod quiet_oracle 0 HANDED_OVER_TO_NETWORK (Some 0%nat) w1).
  set (w3 := bsr_request_endio quiet_oracle 0 a_write 0 w2).
  apply (rtc_l _ _ w1); [by apply S_make|]. apply (rtc_l _ _ w2); [by apply S_event; vm_compute|].
  apply (rtc_l _ _ w3); [by apply S_endio; vm_compute|]. apply rtc_once, suspend_step.
  assert (peer_stats w3 = [Some (D_INCONSISTENT, L_SYNC_SOURCE)]) as -> by (vm_compute; reflexivity).
  split; [unfold BSR_NODE_ID_MAX; cbn; lia|]. intros d s. rewrite list_elem_of_singleton. by intros [= -> ->].
Qed.

Lemma late_ack_reopens_witness :
  completion_ref (req frozen_a 0) = 0 /\ completion_ref (req late_ack 0) = 1 /\ kref (req late_ack 0) = kref (req frozen_a 0).
Proof.
  unfold late_ack.
  destruct (late_ack_reopens quiet_oracle up_a frozen_a 0 0) as (H1 & H2 & _ & H3 & _).
  - split; try done.
    + split; [unfold BSR_NODE_ID_MAX; cbn; lia|]. intros d s. cbn. rewrite list_elem_of_singleton. by intros [= -> ->].
    + intros [|p] c; cbn; [|done]. by intros [= <-].
  - exact frozen_a_reachable.
  - by vm_compute.
  - reflexivity.
  - by vm_compute.
  - exact (conj H1 (conj H2 H3)).
Defined.

End RequestRun.
